(* ===== verification/_CoqProject ===== *)
-Q . S2P
Prelude.v
RingBuffer.v
Bytes.v
Pipe.v
Fifo.v
FdTable.v
FdRefs.v
FdWorld.v
Termios.v
LineDisc.v
UserPtr.v
Signal.v
SigDeliver.v
Pty.v
Sockets.v
Epoll.v
NetPackets.v
NetStack.v
Tcp.v
TcpStream.v
TcpLoop.v
TcpInv.v
Vma.v
BlockDev.v
Ext2Dir.v
Ext2Layout.v
Ext2Core.v
Ext2Blocks.v
Ext2File.v
Ext2Fs.v
Ext2Alloc.v
Ext2Map.v
Ext2Write.v
Ext2Range.v
Ext2Read.v
Ext2Sync.v
Ext2Meta.v
Ext2Create.v
Ext2Names.v
Ext2Sample.v
Sched.v
SchedSwitch.v
WaitQueue.v
SchedInv.v
SchedSmp.v
SchedRun.v
SchedSafe.v
SchedFrame.v
SchedPick.v
SchedTimer.v
SchedIsr.v
SchedRaces.v
Futex.v
FutexInv.v
FutexSafe.v
Atomic.v
FrameAlloc.v
FrameInv.v
FrameSafe.v
FramePool.v
FrameLaws.v
FrameLeases.v
