(* ===== verification/Prelude.v ===== *)
(** * Breenix kernel: a verification development

    Breenix is an operating system kernel in Rust.  This library models parts
    of the kernel (the sources under src/kernel/src) as Rocq functions and
    proves what makes them correct.  The release profile (wrapping integer
    arithmetic) is modelled, in the x86_64 configuration; the scheduler is
    modelled for both targets and its theorems are about aarch64, which runs
    on eight CPUs.

    ** How Rust becomes Rocq

    - A fixed-width integer is a [Z] kept in range by [wrap]; the names [u8] to
      [u64] and [i32], [i64] record the intended width.  [usize] counters of
      in-memory arrays are [nat].
    - [Result<A, i32>] is [result A i32], with the errno values of the source.
    - An [option] around a result is a panic (an index out of range, a slice
      with bad bounds, a failed [unwrap]) or a loop that ran out of fuel;
      theorems that a function returns show that it is [Some].
    - [&mut self] is state passing.  An object behind [Arc<Mutex<_>>] that
      several owners share is an entry of a store, named by its address
      ([Fifo.kernel]).  A lock is held inside one operation, so an operation is
      one step; interleavings are sequences of steps.  An operation that lets
      go of its lock in between is cut there: accept and the segment handler of
      TCP, and FUTEX_WAIT.
    - Waking a thread is an element of a returned list of thread ids, outside
      the scheduler itself.
    - Logging and tracing calls are left out; they do not change the state.
    - Code outside the repository is a parameter: the canonicity test of the
      x86_64 crate in [SigDeliver].

    ** Files, components and what is proved

    - Prelude: results, machine integers, tactics, list lemmas.
      RingBuffer: the contents of a circular array.  Bytes: byte encodings of
      integers and a flat byte memory.
    - Pipe (ipc/pipe.rs): every operation of [PipeBuffer] on the circular
      array.  Reads and writes refine a bounded FIFO queue on every branch,
      readiness is exact, and every history delivers the accepted bytes in
      order.
    - Fifo (ipc/fifo.rs): the shared pipe store and the FIFO registry.
    - FdTable (ipc/fd.rs, syscall/pipe.rs, sys_dup, sys_dup2 and sys_fcntl of
      syscall/handlers.rs, the closes of process/process.rs and
      task/process_task.rs, handle_fifo_open of syscall/fs.rs): descriptor
      tables.  Each match on the descriptor kind that counts or drops a
      reference is a definition of its own, also where two agree.  The PTY, TCP, Unix-socket and epoll objects are
      reached through the class [FdBackend].  Theorems give the behaviour of
      alloc, dup, dup2, F_SETFL, close-on-exec and the two exit paths.
    - FdRefs, FdWorld: all processes' tables over one store, with a step
      relation for system calls, fork, exec, exit and pipe I/O.  By induction
      on reachability the end counts of a pipe are the numbers of descriptors
      that name its ends, so end of file and EPIPE are exact.
    - Termios, LineDisc (tty/termios.rs, tty/line_discipline.rs): terminal
      settings and the N_TTY discipline.  Canonical mode refines an abstract
      line editor, the echo keeps the screen in step with the line, raw mode is
      transparent, and reads deliver one line.
    - Pty (tty/pty/pair.rs, tty/pty/mod.rs): pseudo-terminal pairs and their
      allocator: output processing, allocation of fresh numbers, and what goes
      wrong when a number is recycled.
    - UserPtr (syscall/userptr.rs): copies to and from user memory stay inside
      user space.
    - Signal (signal/constants.rs, signal/types.rs): signal state and interval
      timers.  SigDeliver (signal/delivery.rs, signal/trampoline.rs, sigreturn
      of syscall/signal.rs): delivery terminates, discards and takes exactly
      the right signals, sigreturn undoes a delivery and cannot raise privilege.
    - Sockets (socket/unix.rs, socket/mod.rs): Unix stream pairs preserve the
      byte streams; the ephemeral port search is exhaustive.
    - Epoll (syscall/epoll.rs): an instance is a finite map of interests.
    - NetPackets (the formats of net/ethernet.rs, arp.rs, ipv4.rs, icmp.rs,
      udp.rs and tcp.rs): checksums verify, segments round-trip, and exactly
      when IPv4 parsing panics.  NetStack (net/mod.rs and the handlers): ping
      is answered end to end, and a packet waiting for ARP is sent when the
      reply arrives.  TCP and UDP are reached through the class [Transport].
    - Tcp (net/tcp.rs): connection and listener tables, the segment handler and
      the socket operations, an instance of [Transport].  [segment_step] is one
      locked region of [handle_tcp], [handle_segment] its regions undisturbed.  TcpStream: an
      application reads a prefix of the peer's stream whatever the network does
      to the segments, and how a FIN in FinWait breaks this.  TcpLoop: connect,
      accept, writes and orderly close between two sockets of the host, through
      the whole stack.  TcpInv: the tables stay well formed under every
      interleaving of the regions, the second lookup delivers a segment that
      accept overtook, and the race in accept that delivers a segment twice.
    - Vma (memory/vma.rs): the list of mapped areas as a finite map from
      addresses to protections; insertion and removal are exact.
    - BlockDev (block/mod.rs, block/virtio.rs): the trait [BlockDevice] as a
      class, its laws and reliability as further classes, the VirtIO wrapper,
      and an in-memory device that satisfies the laws.
    - Ext2Layout (the structures of fs/ext2/superblock.rs, block_group.rs and
      inode.rs): byte images and their round trips.
      Ext2Dir (fs/ext2/dir.rs): directory data; lookup, insertion, removal and
      update refine a finite map from names to inodes.
    - Ext2Core (block transfers, bitmaps and the inode table), Ext2File
      (fs/ext2/file.rs) and Ext2Fs (fs/ext2/mod.rs and the link counts of
      inode.rs): the file system, in a monad [M] of state, errors and panics
      over any block device.  The fields of the record [Ext2Fs] are those of
      the struct, with the values the clock will give.
    - Ext2Blocks, Ext2Alloc, Ext2Map, Ext2Write, Ext2Range, Ext2Read: the
      theorems, for any block device that satisfies the laws.  Ext2Blocks:
      what a block write changes and the inode table.  Ext2Alloc: allocation
      and freeing are exact on the free set.  Ext2Map: the block map of an
      inode as a tree of addresses, what [get_block_num] follows.  Ext2Write:
      how the tree grows.  Ext2Range and Ext2Read: a file as a function from
      offsets to bytes; writes change exactly the range and no other file,
      reads return exactly the range.  Ext2Sync: the superblock and the
      descriptor table on disk, and that mounting reads them back.  Ext2Meta:
      the regions of the metadata, what a change of some of them leaves alone,
      and the inode allocator.  Ext2Create: creating a file is exact, down to
      what a new mount sees.  Ext2Names: a short symbolic link reads back
      its target, and removing it frees blocks of other files.  Ext2Sample: an image on which the theorems
      are instantiated and faults of the namespace operations are shown.
    - Sched (task/scheduler.rs, task/thread.rs, the kick slots of
      tracing/providers/teardown.rs): the scheduler and the statics it uses as
      one [System]; an operation runs under the lock on one CPU, and what it
      reads from outside (its CPU, clocks, CPUs online) is an [Env].
      SchedSwitch (arch_impl/aarch64/context_switch.rs): what the three context
      switches do to it.  WaitQueue (task/waitqueue.rs): lists of waiting
      threads over the scheduler, and that waking takes exactly the oldest
      waiters.  SchedInv: the invariant and that waking, blocking, the end of a
      wait, creation, termination and reclamation keep it.  SchedSmp: the
      scheduling decision and the switches.  SchedRun: the steps of all CPUs as
      a transition system, whose reachable states satisfy the invariant.  The
      guards of its steps are assumptions on the callers: the thread pointer of
      a CPU agrees with the scheduler ([switch_ok]), only a live thread that is
      not an idle thread blocks ([may_block]), thread ids are fresh
      ([fresh_id]), and an idle CPU decides only when the exit kicks of queued
      terminated threads are published ([kicks_seen]).
    - SchedSafe: under these guards no thread runs twice or is lost, a
      terminated thread is never dispatched, an exiting thread is always
      replaced.  SchedFrame: the class
      [Framed] of properties of single threads that only blocking and the timer
      queue can break, and that every other step keeps them.  SchedPick: which
      thread is chosen, and that no CPU idles while a thread waits.
      SchedTimer: no thread sleeps past its deadline.  SchedIsr: wakeups from
      interrupt handlers are delivered.  SchedRaces: runs in which a guard
      fails, since the code does not enforce it, and the harm they do: a killed
      thread is dispatched or sleeps, and a running thread is lost.
    - Futex (syscall/futex.rs): the table of waiters and the system call, over
      the scheduler; a wait is cut where it releases the futex lock or sleeps,
      and what it reads from user memory and the process table is a [UserView].
      FutexInv: the kernel as the scheduler and the futex table together, whose
      steps are those of SchedRun and the pieces of the system call, and the
      invariant that ties a blocked waiter to its place in the table; the part
      about single threads is an instance of [Framed].  FutexSafe: the test and
      the enqueueing are atomic, a wake takes exactly the oldest waiters of its
      key, no waiter sleeps outside the table, and two faults.
    - Atomic: programs that touch shared memory by single atomic accesses, as a
      free monad; their interleavings as a transition system of all threads,
      and a logic of tokens: a judgement [safe] on single programs whose
      soundness gives an invariant of every interleaving.
    - FrameAlloc (memory/frame_allocator.rs, memory/frame_metadata.rs): the
      physical frame allocator, each call as such a program; a step under the
      free-list lock is one access, as are one load, one compare-and-exchange
      and one bump of a cursor.  FrameInv: regions and ordinals, the ledger of
      leases, the tokens (a frame in hand, a lease, a leaf mapping) and the
      invariant.  FrameSafe: every call is safe for the tokens its contract
      names.  FramePool: the ledger that booting builds, and all threads
      allocating, releasing and mapping at once.  FrameLaws and FrameLeases: no
      frame is held twice, allocation ends, ordinals number the frames, a lease
      is returned once (and its frame lost if the free list is locked or full),
      a mapped frame is not reused, and the two races of the leaf mappings that
      their callers have to exclude.  The regions are those of the boot map,
      disjoint and page aligned ([regions_ok]).

    ** Bounds and fuel

    The Internet checksum folds with fuel 4; [fold_sum_exact] shows that two
    turns suffice.  Signal delivery runs with fuel 65, one turn per signal and
    one that finds none, and is proved total.  The ephemeral port search has one unit of fuel per port
    of the range and is proved total.  The loops of [read_file_range] have one
    unit of fuel per logical block and per block of a run, which
    [read_loop_run] shows to be enough; directory iteration has one per byte
    of the directory.  The retry loops of the frame allocator have a
    number of turns, and a call that runs out of them is seen as such; the
    safety theorems hold for every number of turns, and [allocate_frame_ends]
    bounds those an undisturbed allocation needs.  All other loops are structural.

    ** Not modelled

    UDP sockets and the socket system calls, poll and epoll_pwait, the signal
    system calls other than sigreturn, process management, completions and work
    queues, slabs, kernel stacks, the heap and page tables, the mount table and
    the device and proc file systems, program loading, interrupt code, the
    registers, stacks and page tables of a context switch and its x86_64
    variant, drivers, aarch64 variants other than the scheduler and everything
    that runs outside the kernel.  Of the modelled files, the code compiled
    only for in-kernel tests and the counters that only tracing reads are left
    out.  The first planned extensions are an instance of [FdBackend] from Pty,
    Sockets, Epoll and Tcp, the signal system calls, and polling.
*)

From stdpp Require Export prelude gmap strings.

#[global] Open Scope Z_scope.

(** ** Results and panics

    A Rust function that returns [Result<A, i32>] returns [result A] here;
    the error is the errno value of the source.  A function whose Rust body
    can panic (slice index out of range, checked subtraction) returns an
    [option]: [None] is the panic. *)

Inductive result (A E : Type) : Type :=
  | Ok (a : A)
  | Err (e : E).
Arguments Ok {A E} a.
Arguments Err {A E} e.

Definition res_bind {A B E} (r : result A E) (k : A → result B E) : result B E :=
  match r with Ok a => k a | Err e => Err e end.

(** [o.ok_or(e)] *)
Definition ok_or {A E} (o : option A) (e : E) : result A E :=
  match o with Some a => Ok a | None => Err e end.

Definition is_ok {A E} (r : result A E) : bool :=
  match r with Ok _ => true | Err _ => false end.

Declare Scope rust_scope.
Delimit Scope rust_scope with rust.
Notation "x <-? r ;; k" := (res_bind r (λ x, k))
  (at level 60, r at next level, right associativity) : rust_scope.

#[global] Instance result_eq_dec `{EqDecision A, EqDecision E} : EqDecision (result A E).
Proof. solve_decision. Defined.

(** [usize] subtraction that panics below zero. *)
Definition usub (a b : nat) : option nat :=
  if decide (b ≤ a)%nat then Some (a - b)%nat else None.

Lemma usub_Some a b : (b ≤ a)%nat → usub a b = Some (a - b)%nat.
Proof. intros. unfold usub. by rewrite decide_True. Qed.

(** ** Machine words

    A [w]-bit unsigned integer is a [Z] in [[0, 2^w)]; [wrap w] is the
    wrap-around of Rust's [wrapping_*] operations and of [as] casts. *)

Definition wrap (w z : Z) : Z := z mod 2 ^ w.
Definition in_width (w z : Z) : Prop := 0 ≤ z < 2 ^ w.

Abbreviation u8 := Z (only parsing).
Abbreviation u16 := Z (only parsing).
Abbreviation u32 := Z (only parsing).
Abbreviation u64 := Z (only parsing).
Abbreviation i32 := Z (only parsing).
Abbreviation i64 := Z (only parsing).
Abbreviation tid := Z (only parsing).

(** [x as i32] for an unsigned [x]: the low 32 bits read as two's complement. *)
Definition as_signed (w z : Z) : Z :=
  if wrap w z <? 2 ^ (w - 1) then wrap w z else wrap w z - 2 ^ w.
Definition as_i32 (z : Z) : Z := as_signed 32 z.
Definition as_i64 (z : Z) : Z := as_signed 64 z.

(** Bitwise complement on [w] bits: Rust's [!x] on an unsigned type. *)
Definition wnot (w z : Z) : Z := Z.lxor z (Z.ones w).

Lemma wrap_in_width w z : 0 ≤ w → in_width w (wrap w z).
Proof. intros. apply Z.mod_pos_bound. lia. Qed.

Lemma wrap_small w z : in_width w z → wrap w z = z.
Proof. intros. by apply Z.mod_small. Qed.

Lemma in_width_testbit w z i : 0 ≤ w → in_width w z → w ≤ i → Z.testbit z i = false.
Proof.
  intros Hw Hz Hi. rewrite <- (Z.mod_small z (2 ^ w)) by done.
  by apply Z.mod_pow2_bits_high.
Qed.

Lemma testbit_in_width w z :
  0 ≤ w → 0 ≤ z → (∀ i, w ≤ i → Z.testbit z i = false) → in_width w z.
Proof.
  intros Hw Hz Hb. split; [done|].
  assert (z mod 2 ^ w = z) as <-; [|by apply Z.mod_pos_bound; lia].
  apply Z.bits_inj'. intros i Hi. destruct (decide (i < w)).
  - rewrite Z.mod_pow2_bits_low by lia. done.
  - rewrite Z.mod_pow2_bits_high by lia. symmetry. apply Hb. lia.
Qed.

Lemma wnot_testbit w z i :
  0 ≤ w → in_width w z → 0 ≤ i →
  Z.testbit (wnot w z) i = bool_decide (i < w) && negb (Z.testbit z i).
Proof.
  intros Hw Hz Hi. unfold wnot. rewrite Z.lxor_spec. case_bool_decide.
  - rewrite Z.ones_spec_low by lia. by destruct (Z.testbit z i).
  - rewrite Z.ones_spec_high, (in_width_testbit w) by (done || lia). done.
Qed.

(** ** Automation *)

Create HintDb breenix.
#[export] Hint Resolve wrap_in_width : breenix.

(** Split every boolean [&&]/[negb] hypothesis and turn the comparisons into
    propositions that [lia] understands. *)
Ltac bool_simpl :=
  repeat match goal with
  | H : _ && _ = true |- _ => apply andb_true_iff in H; destruct H
  | H : negb _ = true |- _ => apply negb_true_iff in H
  | H : negb _ = false |- _ => apply negb_false_iff in H
  | H : _ || _ = false |- _ => apply orb_false_iff in H; destruct H
  end.

(** Case analysis on every [match]/[if] whose scrutinee is not a variable
    hidden under binders, simplifying in between. *)
Ltac split_matches := repeat (case_match; simplify_eq/=).

(** ** Lists *)

Section lists.
Context {A : Type}.
Implicit Types (l k : list A).

(** Writing the element at [i] extends the common prefix by one. *)
Lemma take_insert_S l i x :
  (i < length l)%nat → take (S i) (<[i:=x]> l) = take i l ++ [x].
Proof.
  intros Hi. rewrite (take_S_r _ _ x).
  - by rewrite take_insert_ge.
  - by apply list_lookup_insert_eq.
Qed.

Lemma take_length_take n l : take (length (take n l)) l = take n l.
Proof.
  rewrite length_take. destruct (decide (n ≤ length l)%nat).
  - by rewrite Nat.min_l.
  - by rewrite Nat.min_r, !take_ge by lia.
Qed.

Lemma drop_insert_S l i x : drop (S i) (<[i:=x]> l) = drop (S i) l.
Proof. apply drop_insert_lt. lia. Qed.

(** Reading and replacing the middle of three parts. *)
Lemma take_drop_mid l k k' n m :
  n = length l → m = length k → take m (drop n (l ++ k ++ k')) = k.
Proof. intros -> ->. by rewrite drop_app_length, take_app_length. Qed.

Lemma inserts_mid l k k1 k' n :
  n = length l → length k1 = length k → list_inserts n k1 (l ++ k ++ k') = l ++ k1 ++ k'.
Proof.
  intros -> Hl. rewrite <- (Nat.add_0_r (length l)), list_inserts_app_r. f_equal.
  revert k Hl. induction k1 as [|x k1 IH]; intros [|y k] Hl; simplify_eq/=; [done|].
  rewrite list_inserts_cons. cbn. f_equal. by apply IH.
Qed.

Lemma inserts_all k l : length k = length l → list_inserts 0 k l = k.
Proof.
  intros Hl. rewrite <- (app_nil_r l), <- (app_nil_l (l ++ [])).
  rewrite inserts_mid by done. cbn. apply app_nil_r.
Qed.

Lemma inserts_app_l k l k' n :
  (n + length k ≤ length l)%nat → list_inserts n k (l ++ k') = list_inserts n k l ++ k'.
Proof.
  revert n. induction k as [|x k IH]; intros n Hl; [done|]. cbn in *.
  rewrite IH, insert_app_l by (rewrite ?length_inserts; lia). done.
Qed.

(** Split a list at its first element with a property. *)
Lemma split_first (P : A → Prop) `{∀ x, Decision (P x)} l :
  Forall (λ x, ¬ P x) l ∨
  ∃ k x k', l = k ++ x :: k' ∧ Forall (λ x, ¬ P x) k ∧ P x.
Proof.
  induction l as [|y l IH]; [by left|]. destruct (decide (P y)) as [Hy|Hy].
  - right. by exists [], y, l.
  - destruct IH as [Hl|(k & x & k' & -> & Hk & Hx)]; [left; by constructor|].
    right. exists (y :: k), x, k'. split; [done|]. by split; [constructor|].
Qed.
End lists.
