(* ===== verification/RingBuffer.v ===== *)
(** * Circular buffers

    Breenix moves bytes through fixed-size circular buffers in several places
    (pipes, PTYs, the console input queue).  This file gives the queue such a
    buffer stands for, [ring N data rp len]: the [len] elements starting at
    position [rp], indices modulo the capacity [N].  The component files prove
    their loops against the two one-element steps below. *)

From S2P Require Import Prelude.

Section ring.
Context {A : Type} `{!Inhabited A}.
Context (N : nat).
Implicit Types (data : list A) (rp len i : nat).

Definition ring data rp len : list A :=
  (λ i, data !!! ((rp + i) mod N)%nat) <$> seq 0 len.

Lemma length_ring data rp len : length (ring data rp len) = len.
Proof. unfold ring. by rewrite length_fmap, length_seq. Qed.

Lemma ring_0 data rp : ring data rp 0 = [].
Proof. done. Qed.

Lemma ring_S_r data rp len :
  ring data rp (S len) = ring data rp len ++ [data !!! ((rp + len) mod N)%nat].
Proof. unfold ring. by rewrite seq_S, fmap_app. Qed.

Lemma ring_ext data data' rp len :
  (∀ i, (i < len)%nat → data !!! ((rp + i) mod N)%nat = data' !!! ((rp + i) mod N)%nat) →
  ring data rp len = ring data' rp len.
Proof.
  intros H. apply list_fmap_ext. intros i x Hx.
  apply lookup_seq in Hx as [-> ?]. by apply H.
Qed.

Section positive.
Hypothesis HN : (0 < N)%nat.

Lemma ring_pos_lt rp i : ((rp + i) mod N < N)%nat.
Proof. apply Nat.mod_upper_bound. lia. Qed.

Lemma ring_pos_step rp i : (((rp + 1) mod N + i) mod N = (rp + S i) mod N)%nat.
Proof. rewrite Nat.Div0.add_mod_idemp_l. f_equal. lia. Qed.

(** Distinct offsets below the capacity are distinct positions. *)
Lemma ring_pos_inj rp i j :
  (i < N)%nat → (j < N)%nat → ((rp + i) mod N = (rp + j) mod N)%nat → i = j.
Proof.
  intros Hi Hj E.
  pose proof (Nat.div_mod_eq (rp + i) N) as D1.
  pose proof (Nat.div_mod_eq (rp + j) N) as D2.
  rewrite E in D1. remember ((rp + i) / N)%nat as q1. remember ((rp + j) / N)%nat as q2.
  assert (q1 = q2 ∨ q1 < q2 ∨ q2 < q1)%nat as [->|[H|H]] by lia; [lia| |]; nia.
Qed.

(** Reading: the element at the read position is the head of the queue. *)
Lemma ring_pop data rp len :
  (rp < N)%nat →
  ring data rp (S len) = data !!! rp :: ring data ((rp + 1) mod N)%nat len.
Proof.
  intros Hrp. unfold ring. rewrite <- cons_seq. cbn [fmap list_fmap].
  f_equal.
  - f_equal. rewrite Nat.add_0_r. by apply Nat.mod_small.
  - rewrite <- fmap_S_seq, <- list_fmap_compose. apply list_fmap_ext.
    intros i x _. cbn. by rewrite ring_pos_step.
Qed.

(** Writing at the position behind the last element appends to the queue. *)
Lemma ring_push data rp len x :
  length data = N → (len < N)%nat →
  ring (<[((rp + len) mod N)%nat := x]> data) rp (S len) = ring data rp len ++ [x].
Proof.
  intros Hd Hlen. rewrite ring_S_r. f_equal.
  - apply ring_ext. intros i Hi. apply list_lookup_total_insert_ne.
    intros E%ring_pos_inj; lia.
  - f_equal. apply list_lookup_total_insert_eq. rewrite Hd. apply ring_pos_lt.
Qed.

(** A queue of [a + b] elements is its first [a] and the [b] behind them. *)
Lemma ring_app data rp a b :
  ring data rp (a + b) = ring data rp a ++ ring data ((rp + a) mod N)%nat b.
Proof.
  unfold ring. rewrite seq_app, fmap_app. f_equal. cbn [Nat.add].
  rewrite <- (Nat.add_0_r a) at 1. rewrite <- fmap_add_seq, <- list_fmap_compose.
  apply list_fmap_ext. intros i x _. cbn.
  rewrite Nat.Div0.add_mod_idemp_l. f_equal. f_equal. lia.
Qed.

Lemma take_ring data rp len k :
  take k (ring data rp len) = ring data rp (k `min` len).
Proof.
  destruct (decide (k ≤ len)%nat).
  - replace len with (k + (len - k))%nat at 1 by lia.
    rewrite ring_app, take_app_length' by (by rewrite length_ring).
    f_equal. lia.
  - rewrite take_ge by (rewrite length_ring; lia). f_equal. lia.
Qed.

Lemma drop_ring data rp len k :
  (k ≤ len)%nat →
  drop k (ring data rp len) = ring data ((rp + k) mod N)%nat (len - k).
Proof.
  intros. replace len with (k + (len - k))%nat at 1 by lia.
  by rewrite ring_app, drop_app_length' by (by rewrite length_ring).
Qed.

Lemma ring_head data rp :
  length data = N → (rp < N)%nat → data !! rp = Some (data !!! rp).
Proof.
  intros Hd Hrp. apply list_lookup_lookup_total_lt. lia.
Qed.
End positive.
End ring.
