(* ===== verification/Bytes.v ===== *)
(** * Byte encodings and memory

    Fixed-width integers as byte sequences in both orders, and a flat byte
    memory with multi-byte reads and writes: what [to_le_bytes],
    [from_be_bytes], [read_volatile] and [write_volatile] of the source do. *)

From S2P Require Import Prelude.

(** ** Little- and big-endian integers *)

Fixpoint le_bytes (n : nat) (z : Z) : list u8 :=
  match n with
  | O => []
  | S n => z mod 256 :: le_bytes n (z / 256)
  end.

Fixpoint le_value (bs : list u8) : Z :=
  match bs with
  | [] => 0
  | b :: bs => b + 256 * le_value bs
  end.

Definition be_bytes (n : nat) (z : Z) : list u8 := reverse (le_bytes n z).
Definition be_value (bs : list u8) : Z := le_value (reverse bs).

Abbreviation byte_list := (Forall (in_width 8)).

Lemma in_width_8 b : in_width 8 b → 0 ≤ b < 256.
Proof. done. Qed.

Lemma length_le_bytes n z : length (le_bytes n z) = n.
Proof. revert z. induction n; intros z; cbn; [done|]. by f_equal. Qed.

Lemma length_be_bytes n z : length (be_bytes n z) = n.
Proof. unfold be_bytes. by rewrite length_reverse, length_le_bytes. Qed.

Lemma le_bytes_byte n z : byte_list (le_bytes n z).
Proof.
  revert z. induction n; intros z; cbn; constructor; [|done].
  by apply (Z.mod_pos_bound z 256).
Qed.

Lemma be_bytes_byte n z : byte_list (be_bytes n z).
Proof. apply Forall_reverse, le_bytes_byte. Qed.

Lemma le_value_bound bs : byte_list bs → 0 ≤ le_value bs < 256 ^ Z.of_nat (length bs).
Proof.
  induction 1 as [|b bs Hb Hbs IH]; [done|]. apply in_width_8 in Hb.
  cbn [le_value length]. rewrite Nat2Z.inj_succ, Z.pow_succ_r by lia. nia.
Qed.

Lemma be_value_bound bs : byte_list bs → 0 ≤ be_value bs < 256 ^ Z.of_nat (length bs).
Proof.
  intros Hb. unfold be_value. rewrite <- (length_reverse bs). apply le_value_bound.
  by apply Forall_reverse.
Qed.

Lemma le_value_bytes n z : le_value (le_bytes n z) = z mod 256 ^ Z.of_nat n.
Proof.
  revert z. induction n as [|n IH]; intros z.
  - by rewrite Z.mod_1_r.
  - cbn [le_bytes le_value]. rewrite IH, Nat2Z.inj_succ, Z.pow_succ_r by lia.
    rewrite Z.rem_mul_r by lia. lia.
Qed.

Lemma be_value_bytes n z : be_value (be_bytes n z) = z mod 256 ^ Z.of_nat n.
Proof. unfold be_value, be_bytes. by rewrite reverse_involutive, le_value_bytes. Qed.

Lemma le_bytes_value bs : byte_list bs → le_bytes (length bs) (le_value bs) = bs.
Proof.
  induction 1 as [|b bs Hb Hbs IH]; [done|]. apply in_width_8 in Hb. cbn [length le_value le_bytes].
  rewrite (Z.mul_comm 256), Z.mod_add, Z.mod_small by lia.
  rewrite Z.div_add, Z.div_small, Z.add_0_l by lia. by rewrite IH.
Qed.

Lemma be_bytes_value bs : byte_list bs → be_bytes (length bs) (be_value bs) = bs.
Proof.
  intros Hb. unfold be_bytes, be_value. rewrite <- (length_reverse bs), le_bytes_value.
  - apply reverse_involutive.
  - by apply Forall_reverse.
Qed.

(** ** Flat memory *)

Definition memory : Type := Z → u8.

Fixpoint mem_read (m : memory) (a : Z) (n : nat) : list u8 :=
  match n with
  | O => []
  | S n => m a :: mem_read m (a + 1) n
  end.

Definition mem_write (m : memory) (a : Z) (bs : list u8) : memory :=
  λ x, if decide (a ≤ x < a + Z.of_nat (length bs)) then nth (Z.to_nat (x - a)) bs 0 else m x.

Lemma length_mem_read m a n : length (mem_read m a n) = n.
Proof. revert a. induction n; intros a; cbn; [done|]. by f_equal. Qed.

Lemma mem_read_nth m a n i :
  (i < n)%nat → nth i (mem_read m a n) 0 = m (a + Z.of_nat i).
Proof.
  revert a i. induction n as [|n IH]; intros a i Hi; [lia|]. destruct i as [|i]; cbn.
  - by rewrite Z.add_0_r.
  - rewrite IH by lia. f_equal. lia.
Qed.

Lemma mem_read_ext m m' a n :
  (∀ x, a ≤ x < a + Z.of_nat n → m x = m' x) → mem_read m a n = mem_read m' a n.
Proof.
  revert a. induction n as [|n IH]; intros a H; cbn; [done|].
  f_equal; [apply H; lia|]. apply IH. intros x Hx. apply H. lia.
Qed.

Lemma mem_read_app m a n n' :
  mem_read m a (n + n') = mem_read m a n ++ mem_read m (a + Z.of_nat n) n'.
Proof.
  revert a. induction n as [|n IH]; intros a; cbn [Nat.add mem_read app].
  - by rewrite Z.add_0_r.
  - rewrite IH. do 3 f_equal. lia.
Qed.

Lemma mem_read_write m a bs : mem_read (mem_write m a bs) a (length bs) = bs.
Proof.
  apply (nth_ext _ _ 0 0); [apply length_mem_read|]. intros i Hi. rewrite length_mem_read in Hi.
  rewrite mem_read_nth by done. unfold mem_write. rewrite decide_True by lia. f_equal. lia.
Qed.

(** A write elsewhere does not change what is read. *)
Lemma mem_read_write_disjoint m a bs b n :
  b + Z.of_nat n ≤ a ∨ a + Z.of_nat (length bs) ≤ b →
  mem_read (mem_write m a bs) b n = mem_read m b n.
Proof.
  intros Hd. apply mem_read_ext. intros x Hx. unfold mem_write. rewrite decide_False; [done|]. lia.
Qed.
