(* ===== verification/Pipe.v ===== *)
(** * Pipe buffers (kernel/src/ipc/pipe.rs)

    [PipeBuffer] is the kernel object behind [pipe(2)] and FIFOs: a circular
    byte buffer with the counts of open read and write ends and the list of
    threads blocked in a read.  The operations are translated one by one; a
    call to [scheduler.unblock(tid)] is an element of the returned list of
    woken threads, in call order.

    The buffer implements a bounded byte queue ([pipe_queue]): this file
    proves that [read] and [write] never panic on a well-formed buffer, that
    they are exactly the dequeue and enqueue of that queue on every branch,
    and that what is written is read back unchanged and in order however the
    reads and writes interleave. *)

From S2P Require Import Prelude RingBuffer.

(** ** The data structure *)

Definition PIPE_BUF_SIZE : nat := Z.to_nat 65536.
Arguments PIPE_BUF_SIZE : simpl never.

Record PipeBuffer := mkPipeBuffer {
  buffer : list u8;
  read_pos : nat;
  write_pos : nat;
  len : nat;
  readers : nat;
  writers : nat;
  read_waiters : list tid;
}.

Definition EAGAIN : i32 := 11.
Definition EPIPE : i32 := 32.

Definition PipeBuffer_new : PipeBuffer := {|
  buffer := replicate PIPE_BUF_SIZE 0;
  read_pos := 0;
  write_pos := 0;
  len := 0;
  readers := 1;
  writers := 1;
  read_waiters := [];
|}.

(** ** Operations *)

(** The copy loop of [read]: [n] iterations are left, [i] bytes are copied. *)
Fixpoint read_loop (n i : nat) (p : PipeBuffer) (buf : list u8)
    : option (PipeBuffer * list u8) :=
  match n with
  | O => Some (p, buf)
  | S n' =>
      b ← buffer p !! read_pos p;
      guard (i < length buf)%nat;;
      let p' := {| buffer := buffer p;
                   read_pos := (read_pos p + 1) mod PIPE_BUF_SIZE;
                   write_pos := write_pos p; len := len p;
                   readers := readers p; writers := writers p;
                   read_waiters := read_waiters p |} in
      read_loop n' (S i) p' (<[i:=b]> buf)
  end.

Definition set_len (n : nat) (p : PipeBuffer) : PipeBuffer :=
  {| buffer := buffer p; read_pos := read_pos p; write_pos := write_pos p;
     len := n; readers := readers p; writers := writers p;
     read_waiters := read_waiters p |}.

Definition set_ends (r w : nat) (p : PipeBuffer) : PipeBuffer :=
  {| buffer := buffer p; read_pos := read_pos p; write_pos := write_pos p;
     len := len p; readers := r; writers := w;
     read_waiters := read_waiters p |}.

Definition set_waiters (ws : list tid) (p : PipeBuffer) : PipeBuffer :=
  {| buffer := buffer p; read_pos := read_pos p; write_pos := write_pos p;
     len := len p; readers := readers p; writers := writers p;
     read_waiters := ws |}.

(** [read(&mut self, buf)]: the new buffer, the caller's slice and the result. *)
Definition PipeBuffer_read (p : PipeBuffer) (buf : list u8)
    : option (PipeBuffer * list u8 * result nat i32) :=
  if decide (len p = 0%nat) then
    if decide (writers p = 0%nat) then Some (p, buf, Ok 0%nat)
    else Some (p, buf, Err EAGAIN)
  else
    let to_read := (length buf `min` len p)%nat in
    '(p', buf') ← read_loop to_read 0 p buf;
    l ← usub (len p') to_read;
    Some (set_len l p', buf', Ok to_read).

Definition PipeBuffer_wake_read_waiters (p : PipeBuffer) : PipeBuffer * list tid :=
  (set_waiters [] p, read_waiters p).

(** The copy loop of [write]: [n] iterations left, [i] bytes copied. *)
Fixpoint write_loop (n i : nat) (p : PipeBuffer) (buf : list u8) : option PipeBuffer :=
  match n with
  | O => Some p
  | S n' =>
      b ← buf !! i;
      guard (write_pos p < length (buffer p))%nat;;
      let p' := {| buffer := <[write_pos p := b]> (buffer p);
                   read_pos := read_pos p;
                   write_pos := (write_pos p + 1) mod PIPE_BUF_SIZE; len := len p;
                   readers := readers p; writers := writers p;
                   read_waiters := read_waiters p |} in
      write_loop n' (S i) p' buf
  end.

(** [write(&mut self, buf)]: the new buffer, the woken threads, the result. *)
Definition PipeBuffer_write (p : PipeBuffer) (buf : list u8)
    : option (PipeBuffer * list tid * result nat i32) :=
  if decide (readers p = 0%nat) then Some (p, [], Err EPIPE)
  else
    available ← usub PIPE_BUF_SIZE (len p);
    if decide (available = 0%nat) then Some (p, [], Err EAGAIN)
    else
      let to_write := (length buf `min` available)%nat in
      p1 ← write_loop to_write 0 p buf;
      let p2 := set_len (len p1 + to_write) p1 in
      let '(p3, woken) :=
        if decide (0 < to_write)%nat then PipeBuffer_wake_read_waiters p2 else (p2, []) in
      Some (p3, woken, Ok to_write).

Definition PipeBuffer_is_readable (p : PipeBuffer) : bool :=
  (0 <? len p)%nat || (writers p =? 0)%nat.

Definition PipeBuffer_is_writable (p : PipeBuffer) : bool :=
  (len p <? PIPE_BUF_SIZE)%nat && (0 <? readers p)%nat.

Definition PipeBuffer_close_read (p : PipeBuffer) : PipeBuffer :=
  if decide (0 < readers p)%nat then set_ends (readers p - 1) (writers p) p else p.

Definition PipeBuffer_close_write (p : PipeBuffer) : PipeBuffer * list tid :=
  if decide (0 < writers p)%nat then
    let p1 := set_ends (readers p) (writers p - 1) p in
    if decide (writers p1 = 0%nat) then PipeBuffer_wake_read_waiters p1 else (p1, [])
  else (p, []).

Definition PipeBuffer_add_reader (p : PipeBuffer) : PipeBuffer :=
  set_ends (readers p + 1) (writers p) p.

Definition PipeBuffer_add_writer (p : PipeBuffer) : PipeBuffer :=
  set_ends (readers p) (writers p + 1) p.

Definition PipeBuffer_add_read_waiter (t : tid) (p : PipeBuffer) : PipeBuffer :=
  if bool_decide (t ∈ read_waiters p) then p
  else set_waiters (read_waiters p ++ [t]) p.

Definition PipeBuffer_remove_read_waiter (t : tid) (p : PipeBuffer) : PipeBuffer :=
  set_waiters (filter (λ x, x ≠ t) (read_waiters p)) p.

Definition PipeBuffer_has_data_or_eof (p : PipeBuffer) : bool :=
  (0 <? len p)%nat || (writers p =? 0)%nat.

Definition PipeBuffer_available (p : PipeBuffer) : nat := len p.

Definition PipeBuffer_space (p : PipeBuffer) : option nat := usub PIPE_BUF_SIZE (len p).

Definition PipeBuffer_has_readers (p : PipeBuffer) : bool := (0 <? readers p)%nat.
Definition PipeBuffer_has_writers (p : PipeBuffer) : bool := (0 <? writers p)%nat.

(** ** Well-formedness and the queue a buffer stands for *)

Record pipe_wf (p : PipeBuffer) : Prop := {
  wf_buffer : length (buffer p) = PIPE_BUF_SIZE;
  wf_read_pos : (read_pos p < PIPE_BUF_SIZE)%nat;
  wf_write_pos : write_pos p = ((read_pos p + len p) mod PIPE_BUF_SIZE)%nat;
  wf_len : (len p ≤ PIPE_BUF_SIZE)%nat;
  wf_waiters : NoDup (read_waiters p);
}.
#[export] Hint Resolve wf_buffer wf_read_pos wf_write_pos wf_len wf_waiters : breenix.

Definition pipe_queue (p : PipeBuffer) : list u8 :=
  ring PIPE_BUF_SIZE (buffer p) (read_pos p) (len p).

Lemma PIPE_BUF_SIZE_pos : (0 < PIPE_BUF_SIZE)%nat.
Proof. unfold PIPE_BUF_SIZE. lia. Qed.
#[global] Opaque PIPE_BUF_SIZE.
#[export] Hint Resolve PIPE_BUF_SIZE_pos : breenix.

Lemma length_pipe_queue p : length (pipe_queue p) = len p.
Proof. apply length_ring. Qed.

Lemma pipe_wf_new : pipe_wf PipeBuffer_new.
Proof.
  pose proof PIPE_BUF_SIZE_pos. split; cbn.
  - by rewrite length_replicate.
  - lia.
  - by rewrite Nat.Div0.mod_0_l.
  - lia.
  - constructor.
Qed.

(** The operations that leave the buffer alone keep it well formed. *)
Lemma pipe_wf_set_ends r w p : pipe_wf p → pipe_wf (set_ends r w p).
Proof. intros []. by split. Qed.

Lemma pipe_wf_set_waiters ws p : NoDup ws → pipe_wf p → pipe_wf (set_waiters ws p).
Proof. intros ? []. by split. Qed.
#[export] Hint Resolve pipe_wf_set_ends pipe_wf_set_waiters pipe_wf_new : breenix.

(** *** The copy loops *)

Definition set_read_pos (n : nat) (p : PipeBuffer) : PipeBuffer :=
  {| buffer := buffer p; read_pos := n; write_pos := write_pos p;
     len := len p; readers := readers p; writers := writers p;
     read_waiters := read_waiters p |}.

Lemma read_loop_spec n : ∀ i p buf,
  length (buffer p) = PIPE_BUF_SIZE → (read_pos p < PIPE_BUF_SIZE)%nat →
  (i + n ≤ length buf)%nat →
  read_loop n i p buf =
    Some (set_read_pos ((read_pos p + n) mod PIPE_BUF_SIZE) p,
          take i buf ++ ring PIPE_BUF_SIZE (buffer p) (read_pos p) n ++ drop (i + n) buf).
Proof.
  pose proof PIPE_BUF_SIZE_pos as HN.
  induction n as [|n IH]; intros i p buf Hb Hr Hi; cbn [read_loop].
  - rewrite !Nat.add_0_r, Nat.mod_small, ring_0, app_nil_l, take_drop by done.
    by destruct p.
  - rewrite (ring_head PIPE_BUF_SIZE HN) by done.
    cbn [mbind option_bind]. rewrite option_guard_True by lia.
    rewrite IH; cbn [buffer read_pos]; [|done|by apply Nat.mod_upper_bound; lia
                                        |rewrite length_insert; lia].
    rewrite take_insert_S, drop_insert_lt by lia.
    rewrite (ring_pop PIPE_BUF_SIZE HN) by done.
    rewrite (ring_pos_step PIPE_BUF_SIZE HN). f_equal. f_equal.
    rewrite <- app_assoc. replace (i + S n)%nat with (S i + n)%nat by lia. done.
Qed.

(** After [n] writes the queue has the next [n] bytes of [buf] behind it. *)
Lemma write_loop_spec n : ∀ i p buf l,
  length (buffer p) = PIPE_BUF_SIZE → (read_pos p < PIPE_BUF_SIZE)%nat →
  write_pos p = ((read_pos p + l) mod PIPE_BUF_SIZE)%nat →
  (l + n ≤ PIPE_BUF_SIZE)%nat → (i + n ≤ length buf)%nat →
  ∃ data, length data = PIPE_BUF_SIZE ∧
    write_loop n i p buf = Some {| buffer := data; read_pos := read_pos p;
      write_pos := (read_pos p + (l + n)) mod PIPE_BUF_SIZE; len := len p;
      readers := readers p; writers := writers p; read_waiters := read_waiters p |} ∧
    ring PIPE_BUF_SIZE data (read_pos p) (l + n) =
      ring PIPE_BUF_SIZE (buffer p) (read_pos p) l ++ take n (drop i buf).
Proof.
  pose proof PIPE_BUF_SIZE_pos as HN.
  induction n as [|n IH]; intros i p buf l Hb Hr Hw Hl Hi; cbn [write_loop].
  - exists (buffer p). rewrite Nat.add_0_r, <- Hw, app_nil_r. destruct p; auto.
  - destruct (lookup_lt_is_Some_2 buf i) as [b Hbi]; [lia|]. rewrite Hbi.
    cbn [mbind option_bind]. rewrite option_guard_True
      by (rewrite Hb, Hw; apply (ring_pos_lt PIPE_BUF_SIZE HN)).
    lazymatch goal with |- context [write_loop n (S i) ?q buf] =>
      destruct (IH (S i) q buf (S l)) as (data & Hd & Hrun & Hq) end; last first.
    { exists data. split; [done|]. split.
      - rewrite Hrun. cbn [read_pos len readers writers read_waiters].
        replace (S l + n)%nat with (l + S n)%nat by lia. reflexivity.
      - cbn [buffer read_pos] in Hq. replace (l + S n)%nat with (S l + n)%nat by lia.
        rewrite Hq, Hw, (ring_push PIPE_BUF_SIZE HN) by (done || lia).
        rewrite <- app_assoc. rewrite (drop_S _ _ _ Hbi). done. }
    all: cbn [buffer read_pos write_pos].
    + lia.
    + lia.
    + rewrite Hw, Nat.Div0.add_mod_idemp_l. f_equal. lia.
    + exact Hr.
    + by rewrite length_insert.
Qed.

(** ** The abstract byte queue and the refinement *)

(** What a pipe promises: a queue of at most [PIPE_BUF_SIZE] bytes, the open
    ends, and the threads to wake when data or end-of-file arrives. *)
Record byte_queue := mkQueue {
  bq_bytes : list u8;
  bq_readers : nat;
  bq_writers : nat;
  bq_waiting : list tid;
}.

Definition pipe_abs (p : PipeBuffer) : byte_queue :=
  mkQueue (pipe_queue p) (readers p) (writers p) (read_waiters p).

(** Dequeue at most [n] bytes. *)
Definition bq_read (n : nat) (q : byte_queue) : byte_queue * list u8 * result nat i32 :=
  match bq_bytes q with
  | [] => (q, [], if (bq_writers q =? 0)%nat then Ok 0%nat else Err EAGAIN)
  | _ => (mkQueue (drop n (bq_bytes q)) (bq_readers q) (bq_writers q) (bq_waiting q),
          take n (bq_bytes q), Ok (length (take n (bq_bytes q))))
  end.

(** Enqueue as much of [bs] as fits and release the waiting readers. *)
Definition bq_write (bs : list u8) (q : byte_queue) : byte_queue * list tid * result nat i32 :=
  let room := (PIPE_BUF_SIZE - length (bq_bytes q))%nat in
  let fit := take room bs in
  if (bq_readers q =? 0)%nat then (q, [], Err EPIPE)
  else if (room =? 0)%nat then (q, [], Err EAGAIN)
  else if bool_decide (fit = []) then (q, [], Ok 0%nat)
  else (mkQueue (bq_bytes q ++ fit) (bq_readers q) (bq_writers q) [],
        bq_waiting q, Ok (length fit)).

Lemma pipe_queue_nil p : len p = 0%nat → pipe_queue p = [].
Proof. intros H. apply nil_length_inv. by rewrite length_pipe_queue. Qed.

Lemma pipe_queue_cons p : len p ≠ 0%nat → ∃ b bs, pipe_queue p = b :: bs.
Proof.
  intros H. pose proof (length_pipe_queue p).
  destruct (pipe_queue p); [cbn in *; lia|eauto].
Qed.

(** Both copy loops put back a well-formed buffer whose queue is the spec's. *)
Lemma read_nonempty_ok p buf :
  pipe_wf p → len p ≠ 0%nat →
  ∃ p', PipeBuffer_read p buf =
      Some (p', take (length buf) (pipe_queue p) ++
                  drop (length (take (length buf) (pipe_queue p))) buf,
            Ok (length (take (length buf) (pipe_queue p)))) ∧
    pipe_wf p' ∧ pipe_queue p' = drop (length buf) (pipe_queue p) ∧
    readers p' = readers p ∧ writers p' = writers p ∧ read_waiters p' = read_waiters p.
Proof.
  intros Hwf H0. pose proof PIPE_BUF_SIZE_pos as HN. unfold PipeBuffer_read.
  rewrite decide_False, length_take, length_pipe_queue by done.
  remember (length buf `min` len p)%nat as k eqn:Ek.
  rewrite read_loop_spec by (eauto with breenix || lia). cbn [mbind option_bind].
  rewrite usub_Some by (cbn; lia). cbn [mbind option_bind len set_read_pos].
  eexists. split.
  { unfold pipe_queue. rewrite (take_ring PIPE_BUF_SIZE HN), <- Ek. reflexivity. }
  split; [|split; [|auto]].
  - pose proof (wf_len _ Hwf). split; cbn.
    + exact (wf_buffer _ Hwf).
    + apply (ring_pos_lt PIPE_BUF_SIZE HN).
    + rewrite (wf_write_pos _ Hwf), Nat.Div0.add_mod_idemp_l. f_equal. lia.
    + lia.
    + exact (wf_waiters _ Hwf).
  - unfold pipe_queue; cbn. destruct (decide (length buf ≤ len p)%nat).
    + rewrite (drop_ring PIPE_BUF_SIZE HN), Ek, Nat.min_l by lia. reflexivity.
    + rewrite drop_ge by (rewrite length_ring; lia).
      replace (len p - k)%nat with 0%nat by lia. done.
Qed.

Lemma write_room_ok p bs :
  pipe_wf p → readers p ≠ 0%nat → (len p < PIPE_BUF_SIZE)%nat → bs ≠ [] →
  ∃ p', PipeBuffer_write p bs =
      Some (p', read_waiters p, Ok (length (take (PIPE_BUF_SIZE - len p) bs))) ∧
    pipe_wf p' ∧ pipe_queue p' = pipe_queue p ++ take (PIPE_BUF_SIZE - len p) bs ∧
    readers p' = readers p ∧ writers p' = writers p ∧ read_waiters p' = [].
Proof.
  intros Hwf Hr Hlt Hbs. pose proof PIPE_BUF_SIZE_pos as HN. unfold PipeBuffer_write.
  assert (length bs ≠ 0%nat) by (by intros ?%nil_length_inv).
  rewrite decide_False, usub_Some by (done || lia). cbn [mbind option_bind].
  rewrite decide_False by lia.
  remember (length bs `min` (PIPE_BUF_SIZE - len p))%nat as k eqn:Ek.
  destruct (write_loop_spec k 0 p bs (len p)) as (data & Hd & -> & Hq);
    [eauto with breenix..|lia|lia|].
  cbn [mbind option_bind len]. rewrite decide_True by lia. cbn.
  eexists. split.
  { rewrite length_take, Nat.min_comm, <- Ek. reflexivity. }
  split; [|split; [|auto]].
  - split; cbn; [exact Hd|exact (wf_read_pos _ Hwf)|reflexivity|lia|constructor].
  - unfold pipe_queue; cbn [buffer read_pos len set_waiters set_len].
    rewrite Hq, drop_0. f_equal.
    destruct (decide (length bs ≤ PIPE_BUF_SIZE - len p)%nat).
    + rewrite !take_ge by lia. reflexivity.
    + rewrite Ek, Nat.min_r by lia. reflexivity.
Qed.

Lemma write_empty_ok p :
  pipe_wf p → readers p ≠ 0%nat → (len p < PIPE_BUF_SIZE)%nat →
  PipeBuffer_write p [] = Some (p, [], Ok 0%nat).
Proof.
  intros Hwf Hr Hlt. unfold PipeBuffer_write.
  rewrite decide_False, usub_Some by (done || lia). cbn [mbind option_bind].
  rewrite decide_False by lia. cbn. rewrite Nat.add_0_r. by destruct p.
Qed.

(** C18: on a well-formed pipe buffer [read] does not panic, keeps the buffer
    well formed, and is the dequeue of the abstract byte queue on every branch
    (data, end of file, EAGAIN); only the bytes delivered change the caller's
    slice. *)
Theorem PipeBuffer_read_refines p buf :
  pipe_wf p →
  ∃ p' out r, PipeBuffer_read p buf = Some (p', out ++ drop (length out) buf, r) ∧
    pipe_wf p' ∧ bq_read (length buf) (pipe_abs p) = (pipe_abs p', out, r).
Proof.
  intros Hwf. destruct (decide (len p = 0%nat)) as [H0|H0].
  - exists p, [], (if (writers p =? 0)%nat then Ok 0%nat else Err EAGAIN).
    unfold PipeBuffer_read, bq_read, pipe_abs; cbn.
    rewrite pipe_queue_nil, decide_True by done. split; [|done].
    destruct (decide (writers p = 0%nat)) as [->|E%Nat.eqb_neq]; [done|by rewrite E].
  - destruct (read_nonempty_ok p buf) as (p' & Hrun & Hwf' & Hq & Hr & Hw & Hws); try done.
    exists p', (take (length buf) (pipe_queue p)),
      (Ok (length (take (length buf) (pipe_queue p)))).
    split; [done|]. split; [done|]. unfold bq_read, pipe_abs; cbn.
    rewrite Hq, Hr, Hw, Hws. destruct (pipe_queue_cons p H0) as (b & bs & ->). done.
Qed.

Lemma write_refines p bs :
  pipe_wf p →
  ∃ p' woken r, PipeBuffer_write p bs = Some (p', woken, r) ∧
    pipe_wf p' ∧ bq_write bs (pipe_abs p) = (pipe_abs p', woken, r).
Proof.
  intros Hwf. pose proof (wf_len _ Hwf) as Hl.
  unfold bq_write, pipe_abs; cbn. rewrite length_pipe_queue.
  destruct (Nat.eqb_spec (readers p) 0) as [H0|H0].
  { exists p, [], (Err EPIPE). unfold PipeBuffer_write. by rewrite decide_True. }
  destruct (Nat.eqb_spec (PIPE_BUF_SIZE - len p) 0) as [H1|H1].
  { exists p, [], (Err EAGAIN). unfold PipeBuffer_write.
    rewrite decide_False, usub_Some by (done || lia). cbn. by rewrite decide_True. }
  destruct (decide (bs = [])) as [->|Hbs].
  { exists p, [], (Ok 0%nat). rewrite write_empty_ok by (done || lia).
    by rewrite take_nil, bool_decide_eq_true_2. }
  destruct (write_room_ok p bs) as (p' & -> & Hwf' & Hq & Hr & Hw & Hws); try (done || lia).
  eexists p', _, _. split; [done|]. split; [done|].
  rewrite bool_decide_eq_false_2, Hq, Hr, Hw, Hws; [done|].
  intros E%(f_equal length). rewrite length_take in E. destruct bs; cbn in *; [done|lia].
Qed.

(** C19: on a well-formed pipe buffer [write] does not panic, keeps the buffer
    well formed, and is the enqueue of the abstract byte queue on every branch
    (EPIPE, EAGAIN, short write); a write that stores a byte wakes every
    thread that was waiting, in registration order. *)
Theorem PipeBuffer_write_refines p bs :
  pipe_wf p →
  ∃ p' woken r, PipeBuffer_write p bs = Some (p', woken, r) ∧
    pipe_wf p' ∧ bq_write bs (pipe_abs p) = (pipe_abs p', woken, r).
Proof. exact (write_refines p bs). Qed.

(** A pipe that holds two bytes, with a thread that waited before them. *)
Definition sample_pipe : PipeBuffer :=
  match PipeBuffer_write (PipeBuffer_add_read_waiter 7 PipeBuffer_new) [104; 105] with
  | Some (p, _, _) => p
  | None => PipeBuffer_new
  end.

Lemma sample_pipe_wf : pipe_wf sample_pipe.
Proof.
  split.
  - apply Nat.eqb_eq. vm_compute. reflexivity.
  - apply Nat.ltb_lt. vm_compute. reflexivity.
  - apply Nat.eqb_eq. vm_compute. reflexivity.
  - apply Nat.leb_le. vm_compute. reflexivity.
  - replace (read_waiters sample_pipe) with (@nil Z) by (vm_compute; reflexivity).
    constructor.
Qed.

Lemma PipeBuffer_read_refines_witness :
  pipe_wf sample_pipe ∧ len sample_pipe = 2%nat ∧
  ∃ p' out r, PipeBuffer_read sample_pipe [0; 0; 0] =
      Some (p', out ++ drop (length out) [0; 0; 0], r) ∧
    pipe_wf p' ∧ bq_read (length [0; 0; 0]) (pipe_abs sample_pipe) = (pipe_abs p', out, r).
Proof.
  split; [exact sample_pipe_wf|]. split; [vm_compute; reflexivity|].
  exact (PipeBuffer_read_refines sample_pipe [0; 0; 0] sample_pipe_wf).
Defined.

Lemma PipeBuffer_write_refines_witness :
  pipe_wf sample_pipe ∧
  ∃ p' woken r, PipeBuffer_write sample_pipe [33] = Some (p', woken, r) ∧
    pipe_wf p' ∧ bq_write [33] (pipe_abs sample_pipe) = (pipe_abs p', woken, r).
Proof.
  split; [exact sample_pipe_wf|].
  exact (PipeBuffer_write_refines sample_pipe [33] sample_pipe_wf).
Defined.

(** ** Readiness *)

(** the readiness tests agree with the operations they announce: [read]
    reports EAGAIN exactly when [has_data_or_eof] is false, and a non-empty
    [write] stores at least one byte exactly when [is_writable] is true. *)
Theorem pipe_readiness_exact p buf bs :
  pipe_wf p → bs ≠ [] →
  (PipeBuffer_has_data_or_eof p = false ↔
     ∃ p' buf', PipeBuffer_read p buf = Some (p', buf', Err EAGAIN)) ∧
  (PipeBuffer_is_writable p = true ↔
     ∃ p' woken n, PipeBuffer_write p bs = Some (p', woken, Ok n) ∧ (0 < n)%nat).
Proof.
  intros Hwf Hbs. pose proof (wf_len _ Hwf).
  assert (Hl0 : length bs ≠ 0%nat) by (by intros ?%nil_length_inv). split.
  - unfold PipeBuffer_has_data_or_eof. destruct (decide (len p = 0%nat)) as [H0|H0].
    + unfold PipeBuffer_read. rewrite decide_True, H0 by done. cbn.
      destruct (decide (writers p = 0%nat)) as [->|E%Nat.eqb_neq]; cbn.
      { split; [done|]. by intros (? & ? & ?). }
      rewrite E. split; [eauto|done].
    + destruct (read_nonempty_ok p buf) as (p' & -> & _); try done.
      replace (0 <? len p)%nat with true by (symmetry; apply Nat.ltb_lt; lia).
      cbn. split; [done|]. by intros (? & ? & ?).
  - unfold PipeBuffer_is_writable. rewrite andb_true_iff, !Nat.ltb_lt. split.
    + intros [Hl Hr]. destruct (write_room_ok p bs) as (p' & -> & _); try (done || lia).
      eexists _, _, _. split; [reflexivity|]. rewrite length_take. lia.
    + intros (p' & woken & n & Hrun & Hn). unfold PipeBuffer_write in Hrun.
      destruct (decide (readers p = 0%nat)); [done|].
      rewrite usub_Some in Hrun by lia. cbn [mbind option_bind] in Hrun.
      destruct (decide (PIPE_BUF_SIZE - len p = 0)%nat); [done|]. lia.
Qed.

Lemma pipe_readiness_exact_witness :
  PipeBuffer_has_data_or_eof sample_pipe = true ∧ [1; 2] ≠ [] ∧
  (PipeBuffer_has_data_or_eof sample_pipe = false ↔
     ∃ p' buf', PipeBuffer_read sample_pipe [0] = Some (p', buf', Err EAGAIN)) ∧
  (PipeBuffer_is_writable sample_pipe = true ↔
     ∃ p' woken n, PipeBuffer_write sample_pipe [1; 2] = Some (p', woken, Ok n) ∧ (0 < n)%nat).
Proof.
  split; [vm_compute; reflexivity|]. split; [done|].
  apply (pipe_readiness_exact sample_pipe [0] [1; 2] sample_pipe_wf). done.
Defined.

(** ** Whole histories of a pipe *)

Inductive pipe_op :=
  | PRead (buf : list u8)
  | PWrite (bs : list u8)
  | PCloseRead
  | PCloseWrite
  | PAddReader
  | PAddWriter
  | PAddWaiter (t : tid)
  | PRemoveWaiter (t : tid).

Definition res_count (r : result nat i32) : nat :=
  match r with Ok n => n | Err _ => 0%nat end.

(** One operation: the new buffer, the bytes it accepted, delivered, and the
    threads it woke. *)
Definition pipe_step (p : PipeBuffer) (o : pipe_op)
    : option (PipeBuffer * list u8 * list u8 * list tid) :=
  match o with
  | PRead buf => '(p', buf', r) ← PipeBuffer_read p buf;
      Some (p', [], take (res_count r) buf', [])
  | PWrite bs => '(p', woken, r) ← PipeBuffer_write p bs;
      Some (p', take (res_count r) bs, [], woken)
  | PCloseRead => Some (PipeBuffer_close_read p, [], [], [])
  | PCloseWrite => let '(p', woken) := PipeBuffer_close_write p in Some (p', [], [], woken)
  | PAddReader => Some (PipeBuffer_add_reader p, [], [], [])
  | PAddWriter => Some (PipeBuffer_add_writer p, [], [], [])
  | PAddWaiter t => Some (PipeBuffer_add_read_waiter t p, [], [], [])
  | PRemoveWaiter t => Some (PipeBuffer_remove_read_waiter t p, [], [], [])
  end.

(** A history, with the bytes accepted and delivered so far. *)
Fixpoint pipe_run (p : PipeBuffer) (ops : list pipe_op)
    : option (PipeBuffer * list u8 * list u8) :=
  match ops with
  | [] => Some (p, [], [])
  | o :: ops' =>
      '(p1, a, d, _) ← pipe_step p o;
      '(p2, a', d') ← pipe_run p1 ops';
      Some (p2, a ++ a', d ++ d')
  end.

Lemma PipeBuffer_close_write_ok p :
  pipe_wf p →
  let '(p', _) := PipeBuffer_close_write p in pipe_wf p' ∧ pipe_queue p' = pipe_queue p.
Proof.
  intros Hwf. unfold PipeBuffer_close_write, PipeBuffer_wake_read_waiters.
  repeat case_decide; (split; [|reflexivity]);
    repeat (apply pipe_wf_set_waiters || apply pipe_wf_set_ends);
    solve [apply NoDup_nil_2 | exact Hwf].
Qed.

(** One step keeps the invariant and the balance of bytes. *)
Lemma pipe_step_ok p o :
  pipe_wf p →
  ∃ p' a d woken, pipe_step p o = Some (p', a, d, woken) ∧ pipe_wf p' ∧
    pipe_queue p ++ a = d ++ pipe_queue p'.
Proof.
  intros Hwf. destruct o as [buf|bs| | | | |t|t]; cbn [pipe_step].
  - destruct (decide (len p = 0%nat)) as [H0|H0].
    + unfold PipeBuffer_read. rewrite decide_True by done.
      destruct (decide (writers p = 0%nat)); cbn; eexists _, _, _, _;
        (split; [reflexivity|]); rewrite pipe_queue_nil by done; by rewrite take_0.
    + destruct (read_nonempty_ok p buf) as (p' & -> & Hwf' & Hq & _); try done.
      cbn [mbind option_bind res_count]. eexists _, _, _, _. split; [reflexivity|].
      split; [done|]. rewrite app_nil_r, take_app_length, Hq. by rewrite take_drop.
  - destruct (write_refines p bs) as (p' & woken & r & -> & Hwf' & Hspec); [done|].
    cbn [mbind option_bind]. eexists _, _, _, _. split; [reflexivity|]. split; [done|].
    unfold bq_write, pipe_abs in Hspec; cbn in Hspec.
    repeat case_match; simplify_eq/=; rewrite ?take_0, ?app_nil_r; try congruence.
    rewrite take_length_take. congruence.
  - eexists _, _, _, _. split; [reflexivity|]. unfold PipeBuffer_close_read.
    case_decide; rewrite app_nil_r; split; try reflexivity; by try apply pipe_wf_set_ends.
  - pose proof (PipeBuffer_close_write_ok p Hwf) as Hc.
    destruct (PipeBuffer_close_write p) as [p' woken]. destruct Hc as [Hc1 Hc2].
    eexists _, _, _, _. split; [reflexivity|]. rewrite app_nil_r, Hc2. by split.
  - eexists _, _, _, _. split; [reflexivity|]. rewrite app_nil_r.
    split; [by apply pipe_wf_set_ends|reflexivity].
  - eexists _, _, _, _. split; [reflexivity|]. rewrite app_nil_r.
    split; [by apply pipe_wf_set_ends|reflexivity].
  - eexists _, _, _, _. split; [reflexivity|]. unfold PipeBuffer_add_read_waiter.
    case_bool_decide; rewrite app_nil_r; (split; [|reflexivity]); [done|].
    apply pipe_wf_set_waiters; [|done]. apply NoDup_app. split; [by apply wf_waiters|].
    split; [set_solver|apply NoDup_singleton].
  - eexists _, _, _, _. split; [reflexivity|]. rewrite app_nil_r. split; [|reflexivity].
    apply pipe_wf_set_waiters; [|done]. by apply NoDup_filter, wf_waiters.
Qed.

Lemma pipe_run_ok ops : ∀ p,
  pipe_wf p →
  ∃ p' acc del, pipe_run p ops = Some (p', acc, del) ∧ pipe_wf p' ∧
    pipe_queue p ++ acc = del ++ pipe_queue p'.
Proof.
  induction ops as [|o ops IH]; intros p Hwf; cbn [pipe_run].
  - eexists _, _, _. split; [reflexivity|]. by rewrite app_nil_r.
  - destruct (pipe_step_ok p o Hwf) as (p1 & a & d & w & -> & Hwf1 & Hb1).
    destruct (IH p1 Hwf1) as (p2 & a' & d' & Hrun & Hwf2 & Hb2).
    cbn [mbind option_bind]. rewrite Hrun. cbn [mbind option_bind].
    eexists _, _, _. split; [reflexivity|]. split; [done|].
    by rewrite app_assoc, Hb1, <- !app_assoc, Hb2.
Qed.

(** every history of operations on a new pipe runs without a panic, keeps
    the buffer well formed, and loses, duplicates or reorders no byte: the
    bytes accepted by the writes are the bytes delivered by the reads followed
    by what the buffer still holds. *)
Theorem pipe_stream_preserved (ops : list pipe_op) :
  ∃ p acc del, pipe_run PipeBuffer_new ops = Some (p, acc, del) ∧ pipe_wf p ∧
    acc = del ++ pipe_queue p.
Proof.
  destruct (pipe_run_ok ops PipeBuffer_new pipe_wf_new) as (p & acc & del & H & Hwf & Hb).
  by exists p, acc, del.
Qed.
