(* ===== verification/Fifo.v ===== *)
(** * The pipe store and named pipes (kernel/src/ipc/fifo.rs)

    A pipe is shared: an [Arc<Mutex<PipeBuffer>>] is held by the descriptors of
    several processes and by the FIFO registry.  [kernel] is that shared store:
    the pipe objects by address, the FIFO registry, the threads made runnable
    so far (in call order), and an opaque remainder [S] for the objects of
    other subsystems that descriptors refer to.

    The FIFO code is the x86_64 configuration (the only one whose system calls
    create FIFOs: [sys_mkfifo] returns ENOSYS elsewhere).  Locks are taken and
    released inside each operation with interrupts disabled, so one operation
    is one step on the store. *)

From S2P Require Import Prelude RingBuffer Pipe.

Abbreviation addr := nat (only parsing).

Definition ENOENT : i32 := 2.
Definition ENXIO : i32 := 6.
Definition EEXIST : i32 := 17.

Record FifoEntry := mkFifoEntry {
  fe_buffer : option addr;
  fe_readers : nat;
  fe_writers : nat;
  fe_read_waiters : list tid;
  fe_write_waiters : list tid;
  fe_mode : u32;
}.

Record kernel (S : Type) := mkKernel {
  pipes : gmap addr PipeBuffer;
  fifos : gmap string FifoEntry;
  unblocked : list tid;
  ext : S;
}.
Arguments mkKernel {S} _ _ _ _.
Arguments pipes {S} _.
Arguments fifos {S} _.
Arguments unblocked {S} _.
Arguments ext {S} _.

Section store.
Context {S : Type}.
Implicit Types (k : kernel S).

Definition set_pipes (m : gmap addr PipeBuffer) k : kernel S :=
  mkKernel m (fifos k) (unblocked k) (ext k).
Definition set_fifos (m : gmap string FifoEntry) k : kernel S :=
  mkKernel (pipes k) m (unblocked k) (ext k).
Definition wake (ws : list tid) k : kernel S :=
  mkKernel (pipes k) (fifos k) (unblocked k ++ ws) (ext k).
Definition on_ext (f : S → S) k : kernel S :=
  mkKernel (pipes k) (fifos k) (unblocked k) (f (ext k)).

(** [buffer.lock().add_reader()] and friends, through an [Arc] at address [p]. *)
Definition lock_add_reader (p : addr) k : kernel S :=
  set_pipes (alter PipeBuffer_add_reader p (pipes k)) k.
Definition lock_add_writer (p : addr) k : kernel S :=
  set_pipes (alter PipeBuffer_add_writer p (pipes k)) k.
Definition lock_close_read (p : addr) k : kernel S :=
  set_pipes (alter PipeBuffer_close_read p (pipes k)) k.
Definition lock_close_write (p : addr) k : kernel S :=
  match pipes k !! p with
  | Some b => let '(b', ws) := PipeBuffer_close_write b in
              wake ws (set_pipes (<[p := b']> (pipes k)) k)
  | None => k
  end.

(** [Arc::new(Mutex::new(PipeBuffer::new()))] *)
Definition alloc_pipe k : addr * kernel S :=
  let p := fresh (dom (pipes k)) in
  (p, set_pipes (<[p := PipeBuffer_new]> (pipes k)) k).

(** [create_pipe]: both ends refer to one buffer. *)
Definition create_pipe k : (addr * addr) * kernel S :=
  let '(p, k') := alloc_pipe k in ((p, p), k').

(** ** FIFO entries *)

Definition FifoEntry_new (mode : u32) : FifoEntry :=
  mkFifoEntry None 0 0 [] [] mode.

Definition FifoEntry_get_or_create_buffer (e : FifoEntry) k : addr * FifoEntry * kernel S :=
  match fe_buffer e with
  | Some b => (b, e, k)
  | None => let '(b, k') := alloc_pipe k in
      (b, mkFifoEntry (Some b) (fe_readers e) (fe_writers e)
            (fe_read_waiters e) (fe_write_waiters e) (fe_mode e), k')
  end.

Definition FifoEntry_is_ready (e : FifoEntry) : bool :=
  (0 <? fe_readers e)%nat && (0 <? fe_writers e)%nat.

Definition FifoEntry_add_reader (e : FifoEntry) : FifoEntry * list tid :=
  (mkFifoEntry (fe_buffer e) (fe_readers e + 1) (fe_writers e)
     (fe_read_waiters e) [] (fe_mode e), fe_write_waiters e).

Definition FifoEntry_add_writer (e : FifoEntry) : FifoEntry * list tid :=
  (mkFifoEntry (fe_buffer e) (fe_readers e) (fe_writers e + 1)
     [] (fe_write_waiters e) (fe_mode e), fe_read_waiters e).

Definition FifoEntry_remove_reader (e : FifoEntry) k : FifoEntry * kernel S :=
  if decide (0 < fe_readers e)%nat then
    (mkFifoEntry (fe_buffer e) (fe_readers e - 1) (fe_writers e)
       (fe_read_waiters e) (fe_write_waiters e) (fe_mode e),
     match fe_buffer e with Some b => lock_close_read b k | None => k end)
  else (e, k).

Definition FifoEntry_remove_writer (e : FifoEntry) k : FifoEntry * kernel S :=
  if decide (0 < fe_writers e)%nat then
    (mkFifoEntry (fe_buffer e) (fe_readers e) (fe_writers e - 1)
       (fe_read_waiters e) (fe_write_waiters e) (fe_mode e),
     match fe_buffer e with Some b => lock_close_write b k | None => k end)
  else (e, k).

Definition FifoEntry_add_read_waiter (t : tid) (e : FifoEntry) : FifoEntry :=
  if bool_decide (t ∈ fe_read_waiters e) then e
  else mkFifoEntry (fe_buffer e) (fe_readers e) (fe_writers e)
         (fe_read_waiters e ++ [t]) (fe_write_waiters e) (fe_mode e).

Definition FifoEntry_add_write_waiter (t : tid) (e : FifoEntry) : FifoEntry :=
  if bool_decide (t ∈ fe_write_waiters e) then e
  else mkFifoEntry (fe_buffer e) (fe_readers e) (fe_writers e)
         (fe_read_waiters e) (fe_write_waiters e ++ [t]) (fe_mode e).

Definition FifoEntry_remove_read_waiter (t : tid) (e : FifoEntry) : FifoEntry :=
  mkFifoEntry (fe_buffer e) (fe_readers e) (fe_writers e)
    (filter (λ x, x ≠ t) (fe_read_waiters e)) (fe_write_waiters e) (fe_mode e).

Definition FifoEntry_remove_write_waiter (t : tid) (e : FifoEntry) : FifoEntry :=
  mkFifoEntry (fe_buffer e) (fe_readers e) (fe_writers e)
    (fe_read_waiters e) (filter (λ x, x ≠ t) (fe_write_waiters e)) (fe_mode e).

(** ** The registry *)

Definition FifoRegistry_create (path : string) (mode : u32) k : kernel S * result unit i32 :=
  match fifos k !! path with
  | Some _ => (k, Err EEXIST)
  | None => (set_fifos (<[path := FifoEntry_new mode]> (fifos k)) k, Ok tt)
  end.

Definition FifoRegistry_exists (path : string) k : bool :=
  bool_decide (is_Some (fifos k !! path)).

Definition FifoRegistry_unlink (path : string) k : kernel S * result unit i32 :=
  match fifos k !! path with
  | Some _ => (set_fifos (delete path (fifos k)) k, Ok tt)
  | None => (k, Err ENOENT)
  end.

Inductive FifoOpenResult :=
  | Ready (b : addr)
  | Block
  | FifoError (e : i32).

(** [open_fifo_read(path, nonblock)] by thread [cur] ([current_thread_id()]). *)
Definition open_fifo_read (cur : option tid) (path : string) (nonblock : bool) k
    : kernel S * FifoOpenResult :=
  match fifos k !! path with
  | None => (k, FifoError ENOENT)
  | Some e =>
      let '(b, e1, k1) := FifoEntry_get_or_create_buffer e k in
      let '(e2, woken) := FifoEntry_add_reader e1 in
      let k2 := lock_add_reader b (wake woken k1) in
      if decide (0 < fe_writers e2)%nat then
        (set_fifos (<[path := e2]> (fifos k2)) k2, Ready b)
      else if nonblock then
        (set_fifos (<[path := e2]> (fifos k2)) k2, Ready b)
      else
        let e3 := match cur with Some t => FifoEntry_add_read_waiter t e2 | None => e2 end in
        (set_fifos (<[path := e3]> (fifos k2)) k2, Block)
  end.

Definition open_fifo_write (cur : option tid) (path : string) (nonblock : bool) k
    : kernel S * FifoOpenResult :=
  match fifos k !! path with
  | None => (k, FifoError ENOENT)
  | Some e =>
      if (fe_readers e =? 0)%nat && nonblock then (k, FifoError ENXIO)
      else
        let '(b, e1, k1) := FifoEntry_get_or_create_buffer e k in
        let '(e2, woken) := FifoEntry_add_writer e1 in
        let k2 := lock_add_writer b (wake woken k1) in
        if decide (0 < fe_readers e2)%nat then
          (set_fifos (<[path := e2]> (fifos k2)) k2, Ready b)
        else
          let e3 := match cur with Some t => FifoEntry_add_write_waiter t e2 | None => e2 end in
          (set_fifos (<[path := e3]> (fifos k2)) k2, Block)
  end.

Definition complete_fifo_open (path : string) (for_write : bool) k : FifoOpenResult :=
  match fifos k !! path with
  | None => FifoError ENOENT
  | Some e =>
      let other := if for_write then fe_readers e else fe_writers e in
      if decide (0 < other)%nat then
        match fe_buffer e with Some b => Ready b | None => Block end
      else Block
  end.

Definition close_fifo_read (path : string) k : kernel S :=
  match fifos k !! path with
  | None => k
  | Some e => let '(e', k') := FifoEntry_remove_reader e k in
              set_fifos (<[path := e']> (fifos k')) k'
  end.

Definition close_fifo_write (path : string) k : kernel S :=
  match fifos k !! path with
  | None => k
  | Some e => let '(e', k') := FifoEntry_remove_writer e k in
              set_fifos (<[path := e']> (fifos k')) k'
  end.

(** [if let Some(entry) = FIFO_REGISTRY.get(path) { entry.lock().readers += 1 }] *)
Definition fifo_incr_readers (path : string) k : kernel S :=
  set_fifos (alter (λ e, mkFifoEntry (fe_buffer e) (fe_readers e + 1) (fe_writers e)
    (fe_read_waiters e) (fe_write_waiters e) (fe_mode e)) path (fifos k)) k.

Definition fifo_incr_writers (path : string) k : kernel S :=
  set_fifos (alter (λ e, mkFifoEntry (fe_buffer e) (fe_readers e) (fe_writers e + 1)
    (fe_read_waiters e) (fe_write_waiters e) (fe_mode e)) path (fifos k)) k.
End store.
