(* ===== verification/FdTable.v ===== *)
(** * File descriptor tables (kernel/src/ipc/fd.rs)

    A descriptor table is an array of [MAX_FDS] optional entries; an entry
    names a kernel object.  Copying an entry (dup, dup2, F_DUPFD, fork) and
    dropping one (close, exec, exit) must keep the object's count of open ends
    in step.  The operations of [FdTable] are translated one by one, with the
    [match] on the descriptor kind of each call site as a definition of its
    own, because the call sites treat the kinds differently.

    What the table needs of the PTY, TCP, Unix-socket and epoll subsystems is
    the interface [FdBackend]; pipes and FIFOs are the concrete store of
    [Fifo]. *)

From S2P Require Import Prelude RingBuffer Pipe Fifo.

(** ** Descriptors *)

Definition MAX_FDS : nat := 256.
Definition STDIN : i32 := 0.
Definition STDOUT : i32 := 1.
Definition STDERR : i32 := 2.

Definition FD_CLOEXEC : u32 := 1.
Definition O_NONBLOCK : u32 := 0x800.
Definition O_APPEND : u32 := 0x400.
Definition O_CLOEXEC : u32 := 0x80000.

Definition EBADF : i32 := 9.
Definition EFAULT : i32 := 14.
Definition EINVAL : i32 := 22.
Definition EMFILE : i32 := 24.

Inductive DeviceType := DevNull | DevZero | DevConsole | DevTty.

Record ConnectionId := mkConnectionId {
  local_ip : list u8;
  local_port : u16;
  remote_ip : list u8;
  remote_port : u16;
}.

Inductive FdKind :=
  | StdIo (n : i32)
  | PipeRead (b : addr)
  | PipeWrite (b : addr)
  | UdpSocket (s : addr)
  | TcpSocket (port : u16)
  | TcpListener (port : u16)
  | TcpConnection (id : ConnectionId)
  | RegularFile (f : addr)
  | Directory (f : addr)
  | Device (d : DeviceType)
  | DevfsDirectory (position : u64)
  | DevptsDirectory (position : u64)
  | PtyMaster (n : u32)
  | PtySlave (n : u32)
  | UnixStream (s : addr)
  | UnixSocket (s : addr)
  | UnixListener (s : addr)
  | FifoRead (path : string) (b : addr)
  | FifoWrite (path : string) (b : addr)
  | ProcfsFile (content : string) (position : nat)
  | ProcfsDirectory (path : string) (position : u64)
  | Epoll (id : u64).

Record FileDescriptor := mkFd {
  kind : FdKind;
  flags : u32;
  status_flags : u32;
}.

Definition FileDescriptor_new (kd : FdKind) : FileDescriptor := mkFd kd 0 0.
Definition FileDescriptor_with_flags (kd : FdKind) (fl st : u32) : FileDescriptor :=
  mkFd kd fl st.

Abbreviation FdTable := (list (option FileDescriptor)) (only parsing).

(** ** What the table needs of the other subsystems *)

(** The objects of other subsystems that a descriptor can name, as the calls
    [fd.rs] makes on them.  Each call acts on the subsystem's own state [S]. *)
Class FdBackend (S : Type) := {
  pty_master_ref : u32 → S → S;
  pty_master_unref : u32 → S → S;
  pty_slave_open : u32 → S → S;
  pty_slave_close : u32 → S → S;
  tcp_add_ref : ConnectionId → S → S;
  tcp_close : ConnectionId → S → S;
  tcp_listener_ref_inc : u16 → S → S;
  tcp_listener_ref_dec : u16 → S → S;
  unix_stream_close : addr → S → S;
  unix_socket_unbind : addr → S → S;
  unix_listener_unbind : addr → S → S;
  epoll_remove_instance : u64 → S → S;
}.

Section table.
Context {S : Type} `{!FdBackend S}.
Implicit Types (k : kernel S) (t : FdTable) (e : FileDescriptor).

(** ** Reference counts of a duplicated or dropped entry, per call site *)

(** The [match] of [dup2] that gives back the reference of the target's old entry. *)
Definition dup2_ref_down (kd : FdKind) k : kernel S :=
  match kd with
  | PipeRead b => lock_close_read b k
  | PipeWrite b => lock_close_write b k
  | FifoRead path b => lock_close_read b (close_fifo_read path k)
  | FifoWrite path b => lock_close_write b (close_fifo_write path k)
  | PtyMaster n => on_ext (pty_master_unref n) k
  | PtySlave n => on_ext (pty_slave_close n) k
  | _ => k
  end.

(** The [match] of [dup2] that counts the copy. *)
Definition dup2_ref_up (kd : FdKind) k : kernel S :=
  match kd with
  | PipeRead b => lock_add_reader b k
  | PipeWrite b => lock_add_writer b k
  | FifoRead path b => lock_add_reader b (fifo_incr_readers path k)
  | FifoWrite path b => lock_add_writer b (fifo_incr_writers path k)
  | PtyMaster n => on_ext (pty_master_ref n) k
  | PtySlave n => on_ext (pty_slave_open n) k
  | _ => k
  end.

(** The [match] of [dup_at_least] that counts the copy. *)
Definition dup_ref_up (kd : FdKind) k : kernel S :=
  match kd with
  | PipeRead b => lock_add_reader b k
  | PipeWrite b => lock_add_writer b k
  | FifoRead path b => lock_add_reader b (fifo_incr_readers path k)
  | FifoWrite path b => lock_add_writer b (fifo_incr_writers path k)
  | PtyMaster n => on_ext (pty_master_ref n) k
  | PtySlave n => on_ext (pty_slave_open n) k
  | _ => k
  end.

(** The [match] of [dup_at_least] that takes the count back when no slot is free. *)
Definition dup_ref_down (kd : FdKind) k : kernel S :=
  match kd with
  | PipeRead b => lock_close_read b k
  | PipeWrite b => lock_close_write b k
  | FifoRead path b => lock_close_read b (close_fifo_read path k)
  | FifoWrite path b => lock_close_write b (close_fifo_write path k)
  | PtyMaster n => on_ext (pty_master_unref n) k
  | PtySlave n => on_ext (pty_slave_close n) k
  | _ => k
  end.

(** The [match] of [FdTable::clone] (fork). *)
Definition clone_ref_up (kd : FdKind) k : kernel S :=
  match kd with
  | PipeRead b => lock_add_reader b k
  | PipeWrite b => lock_add_writer b k
  | FifoRead path b => lock_add_reader b (fifo_incr_readers path k)
  | FifoWrite path b => lock_add_writer b (fifo_incr_writers path k)
  | PtyMaster n => on_ext (pty_master_ref n) k
  | PtySlave n => on_ext (pty_slave_open n) k
  | TcpConnection id => on_ext (tcp_add_ref id) k
  | TcpListener port => on_ext (tcp_listener_ref_inc port) k
  | _ => k
  end.

(** The [match] of [close_cloexec] (exec). *)
Definition cloexec_ref_down (kd : FdKind) k : kernel S :=
  match kd with
  | PipeRead b | FifoRead _ b => lock_close_read b k
  | PipeWrite b | FifoWrite _ b => lock_close_write b k
  | UnixStream s => on_ext (unix_stream_close s) k
  | _ => k
  end.

(** The [match] of [FdTable::drop]. *)
Definition drop_ref_down (kd : FdKind) k : kernel S :=
  match kd with
  | PipeRead b => lock_close_read b k
  | PipeWrite b => lock_close_write b k
  | TcpListener port => on_ext (tcp_listener_ref_dec port) k
  | TcpConnection id => on_ext (tcp_close id) k
  | PtyMaster n => on_ext (pty_master_unref n) k
  | PtySlave n => on_ext (pty_slave_close n) k
  | UnixStream s => on_ext (unix_stream_close s) k
  | UnixSocket s => on_ext (unix_socket_unbind s) k
  | UnixListener s => on_ext (unix_listener_unbind s) k
  | FifoRead path b => lock_close_read b (close_fifo_read path k)
  | FifoWrite path b => lock_close_write b (close_fifo_write path k)
  | Epoll id => on_ext (epoll_remove_instance id) k
  | UdpSocket _ | TcpSocket _ | StdIo _ | RegularFile _ | Directory _ | Device _
  | DevfsDirectory _ | DevptsDirectory _ | ProcfsFile _ _ | ProcfsDirectory _ _ => k
  end.

(** The [match] of [sys_close] (kernel/src/syscall/pipe.rs). *)
Definition sys_close_ref_down (kd : FdKind) k : kernel S :=
  match kd with
  | PipeRead b => lock_close_read b k
  | PipeWrite b => lock_close_write b k
  | TcpConnection id => on_ext (tcp_close id) k
  | PtyMaster n => on_ext (pty_master_unref n) k
  | PtySlave n => on_ext (pty_slave_close n) k
  | UnixStream s => on_ext (unix_stream_close s) k
  | FifoRead path b => lock_close_read b (close_fifo_read path k)
  | FifoWrite path b => lock_close_write b (close_fifo_write path k)
  | Epoll id => on_ext (epoll_remove_instance id) k
  | TcpSocket _ | TcpListener _ | UnixSocket _ | UnixListener _
  | UdpSocket _ | StdIo _ | RegularFile _ | Directory _ | Device _
  | DevfsDirectory _ | DevptsDirectory _ | ProcfsFile _ _ | ProcfsDirectory _ _ => k
  end.

(** The [match] of [Process::close_all_fds] (kernel/src/process/process.rs). *)
Definition exit_ref_down (kd : FdKind) k : kernel S :=
  match kd with
  | PipeRead b => lock_close_read b k
  | PipeWrite b => lock_close_write b k
  | TcpListener port => on_ext (tcp_listener_ref_dec port) k
  | TcpConnection id => on_ext (tcp_close id) k
  | PtyMaster n => on_ext (pty_master_unref n) k
  | PtySlave n => on_ext (pty_slave_close n) k
  | UnixStream s => on_ext (unix_stream_close s) k
  | FifoRead path b => lock_close_read b (close_fifo_read path k)
  | FifoWrite path b => lock_close_write b (close_fifo_write path k)
  | _ => k
  end.

(** The [match] of [close_extracted_fds] (kernel/src/task/process_task.rs). *)
Definition extracted_ref_down (kd : FdKind) k : kernel S :=
  match kd with
  | PipeRead b => lock_close_read b k
  | PipeWrite b => lock_close_write b k
  | TcpListener port => on_ext (tcp_listener_ref_dec port) k
  | TcpConnection id => on_ext (tcp_close id) k
  | PtyMaster n => on_ext (pty_master_unref n) k
  | PtySlave n => on_ext (pty_slave_close n) k
  | UnixStream s => on_ext (unix_stream_close s) k
  | FifoRead path b => lock_close_read b (close_fifo_read path k)
  | FifoWrite path b => lock_close_write b (close_fifo_write path k)
  | _ => k
  end.

(** ** Table operations *)

(** [self.fds[i]] *)
Definition slot t (i : nat) : option FileDescriptor := mjoin (t !! i).

Definition valid_fd (fd : i32) : bool := (0 <=? fd) && (fd <? Z.of_nat MAX_FDS).

Definition FdTable_new : FdTable :=
  <[Z.to_nat STDERR := Some (FileDescriptor_new (StdIo STDERR))]>
  (<[Z.to_nat STDOUT := Some (FileDescriptor_new (StdIo STDOUT))]>
  (<[Z.to_nat STDIN := Some (FileDescriptor_new (StdIo STDIN))]>
  (replicate MAX_FDS None))).

(** [FdTable::clone]: the child's table and the store with the new references. *)
Definition FdTable_clone t k : FdTable * kernel S :=
  (t, foldl (λ k o, match o with Some e => clone_ref_up (kind e) k | None => k end) k t).

Definition FdTable_take_all t : FdTable * list (nat * FileDescriptor) :=
  foldl (λ '(t, es) i,
    match slot t i with
    | Some e => (<[i := None]> t, es ++ [(i, e)])
    | None => (t, es)
    end) (t, []) (seq 0 MAX_FDS).

(** The scan of the allocation loops for the first free slot at or above [i];
    [n] slots are left. *)
Fixpoint first_free (n i : nat) t : option nat :=
  match n with
  | O => None
  | Datatypes.S n' =>
      match slot t i with
      | None => Some i
      | Some _ => first_free n' (i + 1) t
      end
  end.

Definition FdTable_alloc_at_least (min_fd : i32) (kd : FdKind) t : FdTable * result i32 i32 :=
  let start := Z.to_nat (min_fd `max` 0) in
  match first_free (MAX_FDS - start) start t with
  | Some i => (<[i := Some (FileDescriptor_new kd)]> t, Ok (Z.of_nat i))
  | None => (t, Err EMFILE)
  end.

Definition FdTable_alloc (kd : FdKind) t : FdTable * result i32 i32 :=
  FdTable_alloc_at_least 0 kd t.

Definition FdTable_alloc_with_entry (e : FileDescriptor) t : FdTable * result i32 i32 :=
  match first_free MAX_FDS 0 t with
  | Some i => (<[i := Some e]> t, Ok (Z.of_nat i))
  | None => (t, Err EMFILE)
  end.

Definition FdTable_get (fd : i32) t : option FileDescriptor :=
  if valid_fd fd then slot t (Z.to_nat fd) else None.

(** [get_mut(fd).map(f)] *)
Definition FdTable_get_mut (fd : i32) (f : FileDescriptor → FileDescriptor) t : option FdTable :=
  if valid_fd fd then
    e ← slot t (Z.to_nat fd); Some (<[Z.to_nat fd := Some (f e)]> t)
  else None.

Definition FdTable_close (fd : i32) t : FdTable * result FileDescriptor i32 :=
  if valid_fd fd then
    match slot t (Z.to_nat fd) with
    | Some e => (<[Z.to_nat fd := None]> t, Ok e)
    | None => (t, Err EBADF)
    end
  else (t, Err EBADF).

Definition FdTable_dup2 (old_fd new_fd : i32) t k : FdTable * kernel S * result i32 i32 :=
  if negb (valid_fd old_fd) then (t, k, Err EBADF)
  else if negb (valid_fd new_fd) then (t, k, Err EBADF)
  else if old_fd =? new_fd then
    match slot t (Z.to_nat old_fd) with
    | None => (t, k, Err EBADF)
    | Some _ => (t, k, Ok new_fd)
    end
  else
    match slot t (Z.to_nat old_fd) with
    | None => (t, k, Err EBADF)
    | Some e =>
        let '(t1, k1) :=
          match slot t (Z.to_nat new_fd) with
          | Some old => (<[Z.to_nat new_fd := None]> t, dup2_ref_down (kind old) k)
          | None => (t, k)
          end in
        let k2 := dup2_ref_up (kind e) k1 in
        (<[Z.to_nat new_fd := Some e]> t1, k2, Ok new_fd)
    end.

Definition FdTable_dup_at_least (old_fd min_fd : i32) (set_cloexec : bool) t k
    : FdTable * kernel S * result i32 i32 :=
  if negb (valid_fd old_fd) then (t, k, Err EBADF)
  else if negb (valid_fd min_fd) then (t, k, Err EINVAL)
  else
    match slot t (Z.to_nat old_fd) with
    | None => (t, k, Err EBADF)
    | Some e0 =>
        let e := mkFd (kind e0) (if set_cloexec then FD_CLOEXEC else 0) (status_flags e0) in
        let k1 := dup_ref_up (kind e) k in
        match first_free (MAX_FDS - Z.to_nat min_fd) (Z.to_nat min_fd) t with
        | Some i => (<[i := Some e]> t, k1, Ok (Z.of_nat i))
        | None => (t, dup_ref_down (kind e) k1, Err EMFILE)
        end
    end.

Definition FdTable_dup (old_fd : i32) t k : FdTable * kernel S * result i32 i32 :=
  FdTable_dup_at_least old_fd 0 false t k.

Definition FdTable_get_fd_flags (fd : i32) t : result u32 i32 :=
  ok_or (flags <$> FdTable_get fd t) EBADF.

Definition FdTable_set_fd_flags (fd : i32) (fl : u32) t : FdTable * result unit i32 :=
  match FdTable_get_mut fd (λ e, mkFd (kind e) fl (status_flags e)) t with
  | Some t' => (t', Ok tt)
  | None => (t, Err EBADF)
  end.

Definition FdTable_get_status_flags (fd : i32) t : result u32 i32 :=
  ok_or (status_flags <$> FdTable_get fd t) EBADF.

Definition FdTable_open_fd_count t : nat := length (filter is_Some t).

(** The test of [close_cloexec] on one slot. *)
Definition should_close t (i : nat) : bool :=
  match slot t i with
  | Some e => negb (Z.land (flags e) FD_CLOEXEC =? 0)
  | None => false
  end.

Definition FdTable_close_cloexec t k : FdTable * kernel S :=
  foldl (λ '(t, k) i,
    if should_close t i then
      match slot t i with
      | Some e => (<[i := None]> t, cloexec_ref_down (kind e) k)
      | None => (t, k)
      end
    else (t, k)) (t, k) (seq 0 MAX_FDS).

Definition settable : u32 := Z.lor O_NONBLOCK O_APPEND.

Definition FdTable_set_status_flags (fd : i32) (fl : u32) t : FdTable * result unit i32 :=
  match FdTable_get_mut fd (λ e, mkFd (kind e) (flags e)
      (Z.lor (Z.land (status_flags e) (wnot 32 settable)) (Z.land fl settable))) t with
  | Some t' => (t', Ok tt)
  | None => (t, Err EBADF)
  end.

(** A loop that empties every slot and releases what it held. *)
Definition close_every (down : FdKind → kernel S → kernel S) t k : FdTable * kernel S :=
  foldl (λ '(t, k) i,
    match slot t i with
    | Some e => (<[i := None]> t, down (kind e) k)
    | None => (t, k)
    end) (t, k) (seq 0 MAX_FDS).

Definition FdTable_drop t k : FdTable * kernel S := close_every drop_ref_down t k.

Definition Process_close_all_fds t k : FdTable * kernel S :=
  foldl (λ '(t, k) i,
    match FdTable_close (Z.of_nat i) t with
    | (t', Ok e) => (t', exit_ref_down (kind e) k)
    | (t', Err _) => (t', k)
    end) (t, k) (seq 0 MAX_FDS).

(** [take_fd_entries] under the process lock, then [close_extracted_fds]. *)
Definition close_extracted_fds (es : list (nat * FileDescriptor)) k : kernel S :=
  foldl (λ k '(_, e), extracted_ref_down (kind e) k) k es.

(** ** System calls on the caller's table *)

(** The part of [sys_pipe]/[sys_pipe2] that runs once the process is found:
    [mk] allocates a descriptor, [copy_ok] is the outcome of [copy_to_user]. *)
Definition sys_pipe_body (mk : FdKind → FdTable → FdTable * result i32 i32) (copy_ok : bool) t k
    : FdTable * kernel S * result (i32 * i32) i32 :=
  let '((read_buffer, write_buffer), k1) := create_pipe k in
  match mk (PipeRead read_buffer) t with
  | (t1, Err e) => (t1, k1, Err e)
  | (t1, Ok read_fd) =>
      match mk (PipeWrite write_buffer) t1 with
      | (t2, Err e) => ((FdTable_close read_fd t2).1, k1, Err e)
      | (t2, Ok write_fd) =>
          if copy_ok then (t2, k1, Ok (read_fd, write_fd))
          else ((FdTable_close write_fd (FdTable_close read_fd t2).1).1, k1, Err EFAULT)
      end
  end.

Definition sys_pipe (pipefd_ptr : u64) (copy_ok : bool) t k
    : FdTable * kernel S * result (i32 * i32) i32 :=
  if pipefd_ptr =? 0 then (t, k, Err EFAULT) else sys_pipe_body FdTable_alloc copy_ok t k.

Definition sys_pipe2 (pipefd_ptr pipe_flags : u64) (copy_ok : bool) t k
    : FdTable * kernel S * result (i32 * i32) i32 :=
  let flags_u32 := wrap 32 pipe_flags in
  let valid_flags := Z.lor O_CLOEXEC O_NONBLOCK in
  if negb (Z.land flags_u32 (wnot 32 valid_flags) =? 0) then (t, k, Err EINVAL)
  else if pipefd_ptr =? 0 then (t, k, Err EFAULT)
  else
    let fd_flags := if negb (Z.land flags_u32 O_CLOEXEC =? 0) then FD_CLOEXEC else 0 in
    let status := if negb (Z.land flags_u32 O_NONBLOCK =? 0) then O_NONBLOCK else 0 in
    sys_pipe_body
      (λ kd, FdTable_alloc_with_entry (FileDescriptor_with_flags kd fd_flags status))
      copy_ok t k.

Definition sys_close (fd : i32) t k : FdTable * kernel S * result u64 i32 :=
  match FdTable_close fd t with
  | (t', Ok e) => (t', sys_close_ref_down (kind e) k, Ok 0)
  | (t', Err e) => (t', k, Err e)
  end.

Definition sys_dup2 (old_fd new_fd : u64) t k : FdTable * kernel S * result i32 i32 :=
  FdTable_dup2 (as_i32 old_fd) (as_i32 new_fd) t k.

Definition sys_dup (old_fd : u64) t k : FdTable * kernel S * result i32 i32 :=
  FdTable_dup (as_i32 old_fd) t k.

Definition F_DUPFD : i32 := 0.
Definition F_GETFD : i32 := 1.
Definition F_SETFD : i32 := 2.
Definition F_GETFL : i32 := 3.
Definition F_SETFL : i32 := 4.
Definition F_DUPFD_CLOEXEC : i32 := 1030.

(** [sys_fcntl] once the process is found ([try_manager] succeeded). *)
Definition sys_fcntl (fd cmd arg : u64) t k : FdTable * kernel S * result Z i32 :=
  let fd := as_i32 fd in
  let cmd := as_i32 cmd in
  let arg := as_i32 arg in
  let ok_unit (r : FdTable * result unit i32) :=
    (r.1, k, match r.2 with Ok _ => Ok 0 | Err e => Err e end) in
  if cmd =? F_DUPFD then FdTable_dup_at_least fd arg false t k
  else if cmd =? F_DUPFD_CLOEXEC then FdTable_dup_at_least fd arg true t k
  else if cmd =? F_GETFD then (t, k, FdTable_get_fd_flags fd t)
  else if cmd =? F_SETFD then ok_unit (FdTable_set_fd_flags fd (wrap 32 arg) t)
  else if cmd =? F_GETFL then (t, k, FdTable_get_status_flags fd t)
  else if cmd =? F_SETFL then ok_unit (FdTable_set_status_flags fd (wrap 32 arg) t)
  else (t, k, Err EINVAL).

(** [handle_fifo_open] (kernel/src/syscall/fs.rs), in its two phases: up to the
    return or the block, and, for a thread that blocked, from its wake-up. *)
Definition O_WRONLY : u32 := 1.

Definition fifo_entry (path : string) (fl : u32) (b : addr) : FileDescriptor :=
  let for_write := Z.land fl 3 =? O_WRONLY in
  let nonblock := negb (Z.land fl O_NONBLOCK =? 0) in
  mkFd (if for_write then FifoWrite path b else FifoRead path b) 0
       (if nonblock then O_NONBLOCK else 0).

(** [None]: the thread blocks until the other end is opened. *)
Definition handle_fifo_open (cur : option tid) (path : string) (fl : u32) t k
    : FdTable * kernel S * option (result i32 i32) :=
  let for_write := Z.land fl 3 =? O_WRONLY in
  let nonblock := negb (Z.land fl O_NONBLOCK =? 0) in
  let '(k1, r) := if for_write then open_fifo_write cur path nonblock k
                  else open_fifo_read cur path nonblock k in
  match r with
  | Ready b =>
      let '(t', r') := FdTable_alloc_with_entry (fifo_entry path fl b) t in
      (t', k1, Some r')
  | Block => (t, k1, None)
  | FifoError e => (t, k1, Some (Err e))
  end.

Definition handle_fifo_open_resume (path : string) (fl : u32) t k
    : FdTable * kernel S * result i32 i32 :=
  match complete_fifo_open path (Z.land fl 3 =? O_WRONLY) k with
  | Ready b =>
      let '(t', r') := FdTable_alloc_with_entry (fifo_entry path fl b) t in (t', k, r')
  | Block => (t, k, Err EAGAIN)
  | FifoError e => (t, k, Err e)
  end.
End table.

(** ** Facts about the slots *)

Section facts.
Implicit Types (t : FdTable).

Lemma slot_Some t i e : slot t i = Some e ↔ t !! i = Some (Some e).
Proof. unfold slot. destruct (t !! i) as [[]|]; cbn; naive_solver. Qed.

Lemma slot_None t i : (i < length t)%nat → slot t i = None ↔ t !! i = Some None.
Proof.
  intros Hi. unfold slot. destruct (t !! i) as [[]|] eqn:E; cbn; try naive_solver.
  apply lookup_ge_None in E. lia.
Qed.

Lemma slot_insert t i o j :
  (i < length t)%nat → slot (<[i := o]> t) j = if decide (i = j) then o else slot t j.
Proof.
  intros Hi. unfold slot. case_decide; subst.
  - by rewrite list_lookup_insert_eq.
  - by rewrite list_lookup_insert_ne.
Qed.

Lemma slot_lt t i e : slot t i = Some e → (i < length t)%nat.
Proof. intros H%slot_Some. by eapply lookup_lt_Some. Qed.

Lemma valid_fd_spec fd : valid_fd fd = true ↔ 0 ≤ fd < Z.of_nat MAX_FDS.
Proof. unfold valid_fd. rewrite andb_true_iff, Z.leb_le, Z.ltb_lt. done. Qed.

Lemma first_free_Some n i t j :
  first_free n i t = Some j →
  (i ≤ j < i + n)%nat ∧ slot t j = None ∧ ∀ m, (i ≤ m < j)%nat → slot t m ≠ None.
Proof.
  revert i. induction n as [|n IH]; intros i; cbn; [done|].
  destruct (slot t i) eqn:E.
  - intros (? & ? & Hlow)%IH. split; [lia|]. split; [done|]. intros m Hm.
    destruct (decide (m = i)) as [->|]; [by rewrite E|]. apply Hlow. lia.
  - intros [= <-]. split; [lia|]. split; [done|]. lia.
Qed.

Lemma first_free_None n i t m :
  first_free n i t = None → (i ≤ m < i + n)%nat → slot t m ≠ None.
Proof.
  revert i. induction n as [|n IH]; intros i; cbn; [lia|].
  destruct (slot t i) eqn:E; [|done]. intros H Hm.
  destruct (decide (m = i)) as [->|]; [by rewrite E|]. apply (IH (i + 1)%nat); [done|lia].
Qed.

Lemma FdTable_get_insert t i o fd :
  length t = MAX_FDS → (i < MAX_FDS)%nat →
  FdTable_get fd (<[i := o]> t) = if decide (fd = Z.of_nat i) then o else FdTable_get fd t.
Proof.
  intros Hl Hi. unfold FdTable_get. destruct (valid_fd fd) eqn:Hv.
  - apply valid_fd_spec in Hv. rewrite slot_insert by lia.
    repeat case_decide; (done || lia).
  - case_decide; [|done]. exfalso. subst. apply not_true_iff_false in Hv. apply Hv.
    apply valid_fd_spec. lia.
Qed.

Lemma FdTable_get_slot t i :
  (i < MAX_FDS)%nat → FdTable_get (Z.of_nat i) t = slot t i.
Proof.
  intros Hi. unfold FdTable_get.
  replace (valid_fd (Z.of_nat i)) with true by (symmetry; apply valid_fd_spec; lia).
  by rewrite Nat2Z.id.
Qed.

(** [first_free] read through [FdTable_get]: the lowest free descriptor at or
    above [start], or none below [MAX_FDS]. *)
Lemma first_free_get start t :
  0 ≤ start →
  match first_free (MAX_FDS - Z.to_nat start) (Z.to_nat start) t with
  | Some i => start ≤ Z.of_nat i < Z.of_nat MAX_FDS ∧ FdTable_get (Z.of_nat i) t = None ∧
      ∀ f, start ≤ f < Z.of_nat i → FdTable_get f t ≠ None
  | None => ∀ f, start ≤ f < Z.of_nat MAX_FDS → FdTable_get f t ≠ None
  end.
Proof.
  intros Hst. destruct (first_free _ _ _) as [i|] eqn:Hf.
  - apply first_free_Some in Hf as (Hi & Hs & Hlow). split; [lia|].
    split; [by rewrite FdTable_get_slot by lia|]. intros f Hfr.
    replace f with (Z.of_nat (Z.to_nat f)) by lia. rewrite FdTable_get_slot by lia.
    apply Hlow. lia.
  - intros f Hfr. replace f with (Z.of_nat (Z.to_nat f)) by lia.
    rewrite FdTable_get_slot by lia. eapply first_free_None; [done|]. lia.
Qed.

(** allocation hands out the lowest free descriptor at or above the
    requested minimum, fills exactly that slot, and reports EMFILE, leaving the
    table alone, exactly when there is none. *)
Theorem FdTable_alloc_lowest min_fd kd t :
  length t = MAX_FDS →
  match FdTable_alloc_at_least min_fd kd t with
  | (t', Ok fd) =>
      min_fd `max` 0 ≤ fd < Z.of_nat MAX_FDS ∧ FdTable_get fd t = None ∧
      (∀ f, min_fd `max` 0 ≤ f < fd → FdTable_get f t ≠ None) ∧
      ∀ f, FdTable_get f t' =
        if decide (f = fd) then Some (FileDescriptor_new kd) else FdTable_get f t
  | (t', Err e) =>
      e = EMFILE ∧ t' = t ∧
      ∀ f, min_fd `max` 0 ≤ f < Z.of_nat MAX_FDS → FdTable_get f t ≠ None
  end.
Proof.
  intros Hl. unfold FdTable_alloc_at_least.
  pose proof (first_free_get (min_fd `max` 0) t ltac:(lia)) as Hf.
  destruct (first_free _ _ _) as [i|]; [|done]. destruct Hf as (Hr & Hn & Hlow).
  split_and!; try done; try lia. intros f. apply FdTable_get_insert; [done|lia].
Qed.

Lemma FdTable_alloc_lowest_witness :
  ∃ t' fd, FdTable_alloc_at_least 1 (TcpSocket 80) FdTable_new = (t', Ok fd) ∧ fd = 3 ∧
    FdTable_get fd FdTable_new = None ∧ FdTable_get fd t' = Some (FileDescriptor_new (TcpSocket 80)).
Proof.
  pose proof (FdTable_alloc_lowest 1 (TcpSocket 80) FdTable_new eq_refl) as H.
  destruct (FdTable_alloc_at_least 1 (TcpSocket 80) FdTable_new) as [t' [fd|e]] eqn:E.
  - exists t', fd. destruct H as (_ & Hn & _ & Hget). split; [done|].
    split; [vm_compute in E; congruence|]. split; [done|]. by rewrite Hget, decide_True.
  - vm_compute in E. discriminate.
Defined.
End facts.

Section duplication.
Context {S : Type} `{!FdBackend S}.
Implicit Types (k : kernel S) (t : FdTable).

(** [dup_at_least] (dup, F_DUPFD, F_DUPFD_CLOEXEC): a valid request copies
    kind and status flags to the lowest free descriptor at or above the
    minimum, sets FD_CLOEXEC exactly when asked, and changes no other
    descriptor; every failure leaves the table unchanged and has the errno of
    its cause. *)
Theorem FdTable_dup_at_least_spec old_fd min_fd c t k :
  length t = MAX_FDS →
  match FdTable_dup_at_least old_fd min_fd c t k with
  | (t', _, Ok fd) => ∃ e, FdTable_get old_fd t = Some e ∧
      min_fd ≤ fd < Z.of_nat MAX_FDS ∧ FdTable_get fd t = None ∧
      (∀ f, min_fd ≤ f < fd → FdTable_get f t ≠ None) ∧
      ∀ f, FdTable_get f t' = if decide (f = fd)
        then Some (mkFd (kind e) (if c then FD_CLOEXEC else 0) (status_flags e))
        else FdTable_get f t
  | (t', _, Err e) => t' = t ∧
      (e = EBADF ∧ FdTable_get old_fd t = None
       ∨ e = EINVAL ∧ valid_fd old_fd = true ∧ valid_fd min_fd = false
       ∨ e = EMFILE ∧ ∀ f, min_fd ≤ f < Z.of_nat MAX_FDS → FdTable_get f t ≠ None)
  end.
Proof.
  intros Hl. unfold FdTable_dup_at_least.
  destruct (valid_fd old_fd) eqn:Ho; cbn [negb]; last first.
  { split; [done|]. left. unfold FdTable_get. by rewrite Ho. }
  destruct (valid_fd min_fd) eqn:Hm; cbn [negb]; [|by split; [done|]; auto].
  apply valid_fd_spec in Hm.
  assert (Hg : FdTable_get old_fd t = slot t (Z.to_nat old_fd))
    by (unfold FdTable_get; by rewrite Ho).
  destruct (slot t (Z.to_nat old_fd)) as [e0|] eqn:He0; [|by split; [done|]; left].
  pose proof (first_free_get min_fd t (proj1 Hm)) as Hf.
  destruct (first_free _ _ _) as [i|]; [|by split; [done|]; right; right].
  destruct Hf as (Hr & Hn & Hlow). exists e0. split_and!; try done; try lia.
  intros f. apply FdTable_get_insert; [done|lia].
Qed.

(** [dup2]: the target becomes a copy of the source entry, FD_CLOEXEC
    included, every other descriptor is unchanged, and a bad descriptor is
    EBADF with table and store unchanged. *)
Theorem FdTable_dup2_spec old_fd new_fd t k :
  length t = MAX_FDS →
  match FdTable_dup2 old_fd new_fd t k with
  | (t', _, Ok fd) => ∃ e, FdTable_get old_fd t = Some e ∧ fd = new_fd ∧
      ∀ f, FdTable_get f t' = if decide (f = new_fd) then Some e else FdTable_get f t
  | (t', k', Err e) => t' = t ∧ k' = k ∧ e = EBADF ∧
      (FdTable_get old_fd t = None ∨ valid_fd new_fd = false)
  end.
Proof.
  intros Hl. unfold FdTable_dup2.
  destruct (valid_fd old_fd) eqn:Ho; cbn [negb]; last first.
  { split_and!; try done. left. unfold FdTable_get. by rewrite Ho. }
  destruct (valid_fd new_fd) eqn:Hn; cbn [negb]; [|by split_and!; auto].
  assert (Hg : FdTable_get old_fd t = slot t (Z.to_nat old_fd))
    by (unfold FdTable_get; by rewrite Ho).
  rewrite Hg. apply valid_fd_spec in Ho as Ho', Hn as Hn'.
  destruct (Z.eqb_spec old_fd new_fd) as [->|Hne].
  { destruct (slot t (Z.to_nat new_fd)) as [e|]; [|by split_and!; auto].
    exists e. split_and!; try done. intros f. case_decide; [by subst|done]. }
  destruct (slot t (Z.to_nat old_fd)) as [e|]; [|by split_and!; auto].
  destruct (slot t (Z.to_nat new_fd)) as [x|]; exists e; (split_and!; [done..|]); intros f.
  - rewrite list_insert_insert_eq, FdTable_get_insert by (done || lia).
    repeat case_decide; (done || lia).
  - rewrite FdTable_get_insert by (done || lia). repeat case_decide; (done || lia).
Qed.

(** A loop over a range of slots that empties those whose content satisfies [c]. *)
Lemma sweep_slots (c : option FileDescriptor → bool) {A} (f : FdTable * A → nat → FdTable * A) :
  (∀ t a i, (f (t, a) i).1 = if c (slot t i) then <[i := None]> t else t) →
  ∀ n lo t a j, (lo + n ≤ length t)%nat →
    length (foldl f (t, a) (seq lo n)).1 = length t ∧
    slot (foldl f (t, a) (seq lo n)).1 j =
      if decide (lo ≤ j < lo + n)%nat then (if c (slot t j) then None else slot t j) else slot t j.
Proof.
  intros Hf n. induction n as [|n IH]; intros lo t a j Hl; cbn [seq foldl].
  { split; [done|]. case_decide; [lia|done]. }
  pose proof (Hf t a lo) as Hs. destruct (f (t, a) lo) as [t1 a1]. cbn [fst] in Hs.
  assert (Hlen : length t1 = length t) by (subst; case_match; [apply length_insert|done]).
  destruct (IH (Datatypes.S lo) t1 a1 j) as [Hl' ->]; [lia|]. split; [by rewrite Hl'|].
  subst t1. destruct (c (slot t lo)) eqn:Hc.
  - rewrite slot_insert by lia. repeat (case_decide; subst; try lia); rewrite ?Hc; done.
  - repeat (case_decide; try lia); try done.
    assert (j = lo) as -> by lia. by rewrite Hc.
Qed.

Definition cloexec_entry (o : option FileDescriptor) : bool :=
  match o with Some e => negb (Z.land (flags e) FD_CLOEXEC =? 0) | None => false end.

(** [close_cloexec], run by exec, closes exactly the descriptors whose
    FD_CLOEXEC flag is set; every other descriptor keeps its entry. *)
Theorem FdTable_close_cloexec_exact t k :
  length t = MAX_FDS →
  length (FdTable_close_cloexec t k).1 = MAX_FDS ∧
  ∀ fd, FdTable_get fd (FdTable_close_cloexec t k).1 =
    if cloexec_entry (FdTable_get fd t) then None else FdTable_get fd t.
Proof.
  intros Hl. unfold FdTable_close_cloexec.
  assert (Hs : ∀ j, _) by exact (λ j, sweep_slots cloexec_entry (λ '(t, k) i,
    if should_close t i then
      match slot t i with
      | Some e => (<[i := None]> t, cloexec_ref_down (kind e) k)
      | None => (t, k)
      end
    else (t, k))
    ltac:(intros ???; unfold should_close, cloexec_entry; by destruct (slot _ _) as [e|];
          [destruct (negb _)|]) MAX_FDS 0 t k j ltac:(by rewrite Hl)).
  split; [destruct (Hs 0%nat) as [-> _]; done|]. intros fd. unfold FdTable_get.
  destruct (valid_fd fd) eqn:Hv; [|done]. apply valid_fd_spec in Hv.
  destruct (Hs (Z.to_nat fd)) as [_ ->]. case_decide; [done|lia].
Qed.

Lemma FdTable_close_slot i t :
  (i < MAX_FDS)%nat →
  FdTable_close (Z.of_nat i) t =
    match slot t i with Some e => (<[i := None]> t, Ok e) | None => (t, Err EBADF) end.
Proof.
  intros Hi. unfold FdTable_close.
  replace (valid_fd (Z.of_nat i)) with true by (symmetry; apply valid_fd_spec; lia).
  by rewrite Nat2Z.id.
Qed.

(** The two matches of the exit paths treat every kind of descriptor alike. *)
Lemma exit_matches_agree kd k : extracted_ref_down kd k = exit_ref_down kd k.
Proof. by destruct kd. Qed.

Lemma take_close_loops n lo t es k :
  (lo + n ≤ MAX_FDS)%nat →
  let '(t1, es1) := foldl (λ '(t, es) i,
    match slot t i with
    | Some e => (<[i := None]> t, es ++ [(i, e)])
    | None => (t, es)
    end) (t, es) (seq lo n) in
  foldl (λ '(t, k) i,
    match FdTable_close (Z.of_nat i) t with
    | (t', Ok e) => (t', exit_ref_down (kind e) k)
    | (t', Err _) => (t', k)
    end) (t, close_extracted_fds es k) (seq lo n) = (t1, close_extracted_fds es1 k).
Proof.
  revert lo t es. induction n as [|n IH]; intros lo t es Hn; cbn [seq foldl]; [done|].
  rewrite FdTable_close_slot by lia. destruct (slot t lo) as [e|]; [|apply IH; lia].
  specialize (IH (Datatypes.S lo) (<[lo:=None]> t) (es ++ [(lo, e)]) ltac:(lia)).
  unfold close_extracted_fds in IH at 1. rewrite foldl_app in IH. cbn [foldl] in IH. rewrite exit_matches_agree in IH. exact IH.
Qed.

Lemma open_fd_count_0 t :
  (∀ j, (j < length t)%nat → slot t j = None) → FdTable_open_fd_count t = 0%nat.
Proof.
  intros Ht. unfold FdTable_open_fd_count. rewrite length_zero_iff_nil.
  apply elem_of_nil_inv. intros o [[e ->] [j Ho]%list_elem_of_lookup]%list_elem_of_filter.
  specialize (Ht j (lookup_lt_Some _ _ _ Ho)). apply slot_Some in Ho. congruence.
Qed.

(** C38: the two ways a process gives up its descriptors at exit agree, although
    each has its own match on the kinds of descriptors and the second works on a
    list it took beforehand: taking every entry out under the process lock and
    releasing the entries afterwards ([take_all], [close_extracted_fds]) leaves
    the same table and the same shared store, with every count of every pipe,
    FIFO and other object, as closing them one by one ([close_all_fds]), and
    that table has no open descriptor. *)
Theorem deferred_close_equiv t k :
  length t = MAX_FDS →
  let '(t1, es) := FdTable_take_all t in
  Process_close_all_fds t k = (t1, close_extracted_fds es k) ∧ FdTable_open_fd_count t1 = 0%nat.
Proof.
  intros Hl. pose proof (take_close_loops MAX_FDS 0 t [] k (le_n _)) as Heq.
  pose proof (sweep_slots (λ o, match o with Some _ => true | None => false end)
    (λ '((t, es) : FdTable * list (nat * FileDescriptor)) i,
    match slot t i with
    | Some e => (<[i := None]> t, es ++ [(i, e)])
    | None => (t, es)
    end)) as Hs.
  lapply Hs; [clear Hs; intros Hs|intros ???; by destruct (slot _ _)].
  assert (Hs0 : (0 + MAX_FDS ≤ length t)%nat) by (by rewrite Hl).
  unfold FdTable_take_all, Process_close_all_fds. destruct (foldl _ (t, []) _) as [t1 es] eqn:E.
  split; [done|]. apply open_fd_count_0. intros j Hj. destruct (Hs _ _ _ [] j Hs0) as [Hlen Hj'].
  rewrite E in Hlen, Hj'. cbn [fst] in Hlen, Hj'. rewrite Hj'. rewrite decide_True by lia. by destruct (slot t j).
Qed.

Lemma settable_testbit n : 0 ≤ n → Z.testbit settable n = (n =? 10) || (n =? 11).
Proof.
  intros Hn. destruct (decide (n < 12)) as [Hlt|].
  - assert (Hc : Forall (λ n, Z.testbit settable n = (n =? 10) || (n =? 11)) (seqZ 0 12))
      by (vm_compute; repeat constructor).
    rewrite Forall_forall in Hc. apply Hc, elem_of_seqZ. lia.
  - rewrite (in_width_testbit 12) by (done || lia). symmetry. apply orb_false_iff.
    rewrite !Z.eqb_neq. lia.
Qed.

(** F_SETFL changes the status flags O_NONBLOCK and O_APPEND to the bits
    of its argument and no other bit of the word, keeps kind and descriptor
    flags, and touches no other descriptor. *)
Theorem FdTable_set_status_flags_spec fd fl t e :
  length t = MAX_FDS → FdTable_get fd t = Some e → in_width 32 (status_flags e) →
  ∃ t' sf, FdTable_set_status_flags fd fl t = (t', Ok tt) ∧
    (∀ f, FdTable_get f t' = if decide (f = fd) then Some (mkFd (kind e) (flags e) sf)
                             else FdTable_get f t) ∧
    ∀ n, 0 ≤ n → Z.testbit sf n =
      if (n =? 10) || (n =? 11) then Z.testbit fl n else Z.testbit (status_flags e) n.
Proof.
  intros Hl He Hw. unfold FdTable_set_status_flags, FdTable_get_mut. unfold FdTable_get in He.
  destruct (valid_fd fd) eqn:Hv; [|done]. apply valid_fd_spec in Hv. rewrite He. cbn [mbind option_bind].
  do 2 eexists. split; [done|]. split.
  - intros f. rewrite FdTable_get_insert by lia. rewrite Z2Nat.id by lia. reflexivity.
  - intros n Hn. rewrite Z.lor_spec, !Z.land_spec, wnot_testbit by (done || lia).
    rewrite (settable_testbit n) by done.
    destruct ((n =? 10) || (n =? 11)); cbn [negb]; rewrite ?andb_true_r, ?andb_false_r; [done|].
    case_bool_decide; rewrite ?andb_true_r, ?andb_false_r, ?orb_false_r; [done|].
    symmetry. apply (in_width_testbit 32); (done || lia).
Qed.
End duplication.
