(* ===== verification/FdRefs.v ===== *)
(** * Descriptors and the ends of a pipe

    The reader and writer counts of a pipe decide end-of-file and EPIPE, and
    they are kept by hand: every place that copies or drops a descriptor must
    call [add_reader]/[close_read] and their write twins.  This file proves
    that all of [fd.rs], the close, dup, fcntl and pipe system calls, fork,
    exec and exit together keep the counts of every anonymous pipe equal to the
    number of descriptors open on it, over all processes.

    The statement is about whole histories: [wstep] is one system call (or
    fork, exec, exit, or a read or write on a pipe) by one process, and
    [reachable] worlds satisfy [winv]. *)

From S2P Require Import Prelude RingBuffer Pipe Fifo FdTable.

(** ** Counting descriptors *)

Definition is_r (p : addr) (kd : FdKind) : nat :=
  match kd with PipeRead b => if decide (b = p) then 1 else 0 | _ => 0 end.
Definition is_w (p : addr) (kd : FdKind) : nat :=
  match kd with PipeWrite b => if decide (b = p) then 1 else 0 | _ => 0 end.

Definition slot_weight (g : FdKind → nat) (o : option FileDescriptor) : nat :=
  match o with Some e => g (kind e) | None => 0 end.

Fixpoint cnt (g : FdKind → nat) (t : FdTable) : nat :=
  match t with
  | [] => 0
  | o :: t' => slot_weight g o + cnt g t'
  end.

(** The descriptors open on [g]-objects over all processes. *)
Definition total (g : FdKind → nat) (m : gmap Z FdTable) : nat :=
  map_fold (λ _ t n, cnt g t + n)%nat 0%nat m.

Section counting.
Implicit Types (t : FdTable).

Lemma cnt_insert g t i o o' :
  t !! i = Some o → (cnt g (<[i := o']> t) + slot_weight g o = cnt g t + slot_weight g o')%nat.
Proof.
  revert i. induction t as [|o0 t IH]; intros i Hi; [done|].
  destruct i as [|i]; simpl in *; [simplify_eq; lia|]. specialize (IH i Hi). lia.
Qed.

Lemma cnt_lookup g t i o : t !! i = Some o → (slot_weight g o ≤ cnt g t)%nat.
Proof.
  revert i. induction t as [|o0 t IH]; intros i Hi; [done|].
  destruct i as [|i]; cbn in *; [simplify_eq; lia|]. specialize (IH i Hi). lia.
Qed.

Lemma cnt_replicate g n : cnt g (replicate n None) = 0%nat.
Proof. by induction n. Qed.

Lemma total_insert g m pid t :
  total g (<[pid := t]> m) = (cnt g t + total g (delete pid m))%nat.
Proof.
  unfold total. rewrite <- insert_delete_eq. rewrite map_fold_insert_L; [done| |].
  - intros; lia.
  - apply lookup_delete_eq.
Qed.

Lemma total_lookup g m pid t :
  m !! pid = Some t → total g m = (cnt g t + total g (delete pid m))%nat.
Proof.
  intros H. rewrite <- total_insert. by rewrite insert_id.
Qed.

End counting.

(** ** The effect of each call site on the ends of a pipe *)

Section laws.
Context {S : Type} `{!FdBackend S}.
Implicit Types (k : kernel S) (t : FdTable) (F : gset addr) (p b : addr).

(** The ends of pipe [p] as the store counts them. *)
Definition ends k p : option (nat * nat) := (λ x, (readers x, writers x)) <$> pipes k !! p.

(** [F] holds the buffers of named pipes: FIFO descriptors point into it and
    anonymous pipe descriptors do not. *)
Definition typed F (kd : FdKind) : Prop :=
  match kd with
  | FifoRead _ b | FifoWrite _ b => b ∈ F
  | PipeRead b | PipeWrite b => b ∉ F
  | _ => True
  end.

Definition registry_in F k : Prop :=
  ∀ path e b, fifos k !! path = Some e → fe_buffer e = Some b → b ∈ F.

Definition pipes_wf k : Prop := map_Forall (λ _ x, pipe_wf x) (pipes k).

Definition store_ok F k : Prop := registry_in F k ∧ F ⊆ dom (pipes k) ∧ pipes_wf k.

(** A step on the store that leaves the ends of the pipes outside [F] alone. *)
Definition keeps F k k' : Prop :=
  store_ok F k' ∧ dom (pipes k') = dom (pipes k) ∧ ∀ p, p ∉ F → ends k' p = ends k p.

Record counts_up (f : FdKind → kernel S → kernel S) : Prop := {
  up_ok : ∀ F kd k, typed F kd → store_ok F k → store_ok F (f kd k);
  up_ends : ∀ F kd k p, typed F kd → store_ok F k → p ∉ F →
    ends (f kd k) p = (λ '(r, w), (r + is_r p kd, w + is_w p kd)%nat) <$> ends k p;
}.

Record counts_down (f : FdKind → kernel S → kernel S) : Prop := {
  down_ok : ∀ F kd k, typed F kd → store_ok F k → store_ok F (f kd k);
  down_ends : ∀ F kd k p, typed F kd → store_ok F k → p ∉ F →
    ends (f kd k) p = (λ '(r, w), (r - is_r p kd, w - is_w p kd)%nat) <$> ends k p;
}.

Lemma ends_alter f b k p :
  ends (set_pipes (alter f b (pipes k)) k) p =
  if decide (b = p) then (λ x, (readers (f x), writers (f x))) <$> pipes k !! p else ends k p.
Proof.
  unfold ends; cbn. case_decide as E.
  - subst. rewrite lookup_alter_eq, <- option_fmap_compose. done.
  - by rewrite lookup_alter_ne.
Qed.

Lemma ends_lock_close_write b k p :
  ends (lock_close_write b k) p =
  if decide (b = p) then (λ '(r, w), (r, w - 1)%nat) <$> ends k p else ends k p.
Proof.
  unfold lock_close_write, ends. destruct (pipes k !! b) as [x|] eqn:Eb; last first.
  { case_decide; [subst; by rewrite Eb|done]. }
  unfold PipeBuffer_close_write.
  repeat case_decide; subst; cbn;
    rewrite ?lookup_insert_eq, ?lookup_insert_ne, ?Eb by done; cbn; try done.
  - do 2 f_equal. lia.
Qed.

Lemma lock_close_write_same b k :
  fifos (lock_close_write b k) = fifos k ∧ dom (pipes (lock_close_write b k)) = dom (pipes k).
Proof.
  unfold lock_close_write. destruct (pipes k !! b) eqn:E; [|done].
  destruct (PipeBuffer_close_write p). cbn. split; [done|].
  apply dom_insert_lookup_L. by exists p.
Qed.

Lemma ends_lock_add_reader b k p :
  ends (lock_add_reader b k) p =
  if decide (b = p) then (λ '(r, w), (r + 1, w)%nat) <$> ends k p else ends k p.
Proof.
  unfold lock_add_reader. rewrite ends_alter. case_decide; [|done].
  unfold ends. by rewrite <- option_fmap_compose.
Qed.

Lemma ends_lock_add_writer b k p :
  ends (lock_add_writer b k) p =
  if decide (b = p) then (λ '(r, w), (r, w + 1)%nat) <$> ends k p else ends k p.
Proof.
  unfold lock_add_writer. rewrite ends_alter. case_decide; [|done].
  unfold ends. by rewrite <- option_fmap_compose.
Qed.

Lemma ends_lock_close_read b k p :
  ends (lock_close_read b k) p =
  if decide (b = p) then (λ '(r, w), (r - 1, w)%nat) <$> ends k p else ends k p.
Proof.
  unfold lock_close_read. rewrite ends_alter. case_decide; [|done].
  unfold ends. rewrite <- option_fmap_compose. destruct (pipes k !! p) as [x|]; [cbn|done].
  unfold PipeBuffer_close_read. case_decide; cbn; do 2 f_equal; lia.
Qed.

Lemma store_ok_same F k k' :
  fifos k' = fifos k → dom (pipes k') = dom (pipes k) → pipes_wf k' →
  store_ok F k → store_ok F k'.
Proof. unfold store_ok, registry_in. intros -> ->. naive_solver. Qed.

Lemma pipes_wf_alter f b k :
  (∀ x, pipe_wf x → pipe_wf (f x)) → pipes_wf k → pipes_wf (set_pipes (alter f b (pipes k)) k).
Proof.
  intros Hf Hk p x; cbn. rewrite lookup_alter. case_decide; [|apply Hk].
  intros (y & Hy & ->)%fmap_Some. eapply Hf, Hk, Hy.
Qed.

Lemma PipeBuffer_close_read_wf x : pipe_wf x → pipe_wf (PipeBuffer_close_read x).
Proof. intros. unfold PipeBuffer_close_read. case_decide; [by apply pipe_wf_set_ends|done]. Qed.

Lemma pipes_wf_lock_close_write b k : pipes_wf k → pipes_wf (lock_close_write b k).
Proof.
  intros Hk. unfold lock_close_write. destruct (pipes k !! b) as [x|] eqn:E; [|done].
  pose proof (PipeBuffer_close_write_ok x (Hk _ _ E)) as Hc.
  destruct (PipeBuffer_close_write x) as [x' ws]. destruct Hc as [Hc _].
  intros p y; cbn. rewrite lookup_insert. case_decide; [naive_solver|apply Hk].
Qed.

Lemma store_ok_lock F b k :
  store_ok F k →
  store_ok F (lock_add_reader b k) ∧ store_ok F (lock_add_writer b k) ∧
  store_ok F (lock_close_read b k) ∧ store_ok F (lock_close_write b k).
Proof.
  intros H. destruct (lock_close_write_same b k).
  assert (pipes_wf k) by apply H.
  split_and!; apply (store_ok_same F k); try done; try (cbn; apply dom_alter_L).
  all: try (by apply pipes_wf_lock_close_write).
  all: apply pipes_wf_alter; try done; intros.
  - by apply pipe_wf_set_ends.
  - by apply pipe_wf_set_ends.
  - by apply PipeBuffer_close_read_wf.
Qed.

(** Updating the entry of [path] without a new buffer keeps the registry in [F]. *)
Lemma store_ok_entry F k path e e' :
  fifos k !! path = Some e → fe_buffer e' = fe_buffer e →
  store_ok F k → store_ok F (set_fifos (<[path := e']> (fifos k)) k).
Proof.
  intros He Hb (Hr & Hd). split; [|done]. intros q x b; cbn.
  destruct (decide (path = q)) as [<-|?].
  - rewrite lookup_insert_eq. intros [= <-]. rewrite Hb. by apply Hr with path.
  - rewrite lookup_insert_ne by done. by apply Hr.
Qed.

Lemma keeps_close_fifo_read F path k : store_ok F k → keeps F k (close_fifo_read path k).
Proof.
  intros Hok. unfold close_fifo_read, FifoEntry_remove_reader.
  destruct (fifos k !! path) as [e|] eqn:He; [|done].
  case_decide; cbn; last first.
  { split_and!; [|done|done]. eapply store_ok_entry; done. }
  destruct (fe_buffer e) as [b|] eqn:Hb.
  - split_and!.
    + eapply (store_ok_entry F (lock_close_read b k)); [done|by cbn|]. by apply store_ok_lock.
    + cbn. apply dom_alter_L.
    + intros p Hp. change (ends (lock_close_read b k) p = ends k p).
      rewrite ends_lock_close_read, decide_False; [done|]. intros ->.
      destruct Hok as (Hr & _). by apply Hp, (Hr path e).
  - split_and!; [|done|done]. eapply store_ok_entry; [done|by cbn|done].
Qed.

Lemma keeps_close_fifo_write F path k : store_ok F k → keeps F k (close_fifo_write path k).
Proof.
  intros Hok. unfold close_fifo_write, FifoEntry_remove_writer.
  destruct (fifos k !! path) as [e|] eqn:He; [|done].
  case_decide; cbn; last first.
  { split_and!; [|done|done]. eapply store_ok_entry; done. }
  destruct (fe_buffer e) as [b|] eqn:Hb.
  - destruct (lock_close_write_same b k) as [Hf Hd]. split_and!.
    + eapply (store_ok_entry F (lock_close_write b k)); [by rewrite Hf|by cbn|].
      by apply store_ok_lock.
    + done.
    + intros p Hp. change (ends (lock_close_write b k) p = ends k p).
      rewrite ends_lock_close_write, decide_False; [done|]. intros ->.
      destruct Hok as (Hr & _). by apply Hp, (Hr path e).
  - split_and!; [|done|done]. eapply store_ok_entry; [done|by cbn|done].
Qed.

Lemma store_ok_alter_entry F k path (f : FifoEntry → FifoEntry) :
  (∀ e, fe_buffer (f e) = fe_buffer e) →
  store_ok F k → store_ok F (set_fifos (alter f path (fifos k)) k).
Proof.
  intros Hf [Hr Hd]. split; [|done]. intros q x b; cbn.
  destruct (decide (path = q)) as [<-|?].
  - rewrite lookup_alter_eq. destruct (fifos k !! path) eqn:E; [cbn|done].
    intros [= <-]. rewrite Hf. by apply Hr with path.
  - rewrite lookup_alter_ne by done. by apply Hr.
Qed.

Lemma keeps_fifo_incr F path k :
  store_ok F k → keeps F k (fifo_incr_readers path k) ∧ keeps F k (fifo_incr_writers path k).
Proof. intros. split; (split_and!; [by apply store_ok_alter_entry|done|done]). Qed.

Lemma keeps_on_ext F f k : store_ok F k → keeps F k (on_ext f k).
Proof. intros. by split_and!. Qed.

Lemma ends_add_0 k p : (λ '(r, w), (r + 0, w + 0)%nat) <$> ends k p = ends k p.
Proof. destruct (ends k p) as [[r w]|]; [cbn|done]. do 2 f_equal; lia. Qed.

Lemma ends_sub_0 k p : (λ '(r, w), (r - 0, w - 0)%nat) <$> ends k p = ends k p.
Proof. destruct (ends k p) as [[r w]|]; [cbn|done]. do 2 f_equal; lia. Qed.

(** Closes a law for one descriptor kind: peel the lock operation, then the
    registry operation under it, which keeps the pipes outside [F]. *)
Ltac kept :=
  match goal with
  | Hok : store_ok ?F ?k |- context [_ ?path ?k] =>
      first [ by apply (keeps_fifo_incr F path k Hok)
            | by apply (keeps_close_fifo_read F path k Hok)
            | by apply (keeps_close_fifo_write F path k Hok) ]
  end.

Ltac solve_law :=
  cbn [dup_ref_up dup_ref_down clone_ref_up cloexec_ref_down drop_ref_down
       sys_close_ref_down exit_ref_down dup2_ref_up dup2_ref_down typed is_r is_w] in *;
  rewrite ?ends_lock_add_reader, ?ends_lock_add_writer, ?ends_lock_close_read,
    ?ends_lock_close_write;
  repeat case_decide; subst; try done;
  rewrite ?ends_add_0, ?ends_sub_0; try done;
  try (match goal with |- _ = _ <$> ends ?k ?p =>
         destruct (ends k p) as [[??]|]; cbn; [do 2 f_equal; lia|done] end);
  try kept.

Ltac solve_ok :=
  cbn [dup_ref_up dup_ref_down clone_ref_up cloexec_ref_down drop_ref_down
       sys_close_ref_down exit_ref_down dup2_ref_up dup2_ref_down]; try done;
  try (by apply keeps_on_ext);
  apply store_ok_lock; try done; kept.

Lemma dup_ref_up_law : counts_up dup_ref_up.
Proof. split; intros F kd k; destruct kd; intros; first [by solve_ok | by solve_law]. Qed.

Lemma dup2_ref_up_law : counts_up dup2_ref_up.
Proof. split; intros F kd k; destruct kd; intros; first [by solve_ok | by solve_law]. Qed.

Lemma dup2_ref_down_law : counts_down dup2_ref_down.
Proof. split; intros F kd k; destruct kd; intros; first [by solve_ok | by solve_law]. Qed.

Lemma clone_ref_up_law : counts_up clone_ref_up.
Proof. split; intros F kd k; destruct kd; intros; first [by solve_ok | by solve_law]. Qed.

Lemma dup_ref_down_law : counts_down dup_ref_down.
Proof. split; intros F kd k; destruct kd; intros; first [by solve_ok | by solve_law]. Qed.

Lemma cloexec_ref_down_law : counts_down cloexec_ref_down.
Proof. split; intros F kd k; destruct kd; intros; first [by solve_ok | by solve_law]. Qed.

Lemma drop_ref_down_law : counts_down drop_ref_down.
Proof. split; intros F kd k; destruct kd; intros; first [by solve_ok | by solve_law]. Qed.

Lemma sys_close_ref_down_law : counts_down sys_close_ref_down.
Proof. split; intros F kd k; destruct kd; intros; first [by solve_ok | by solve_law]. Qed.

Lemma exit_ref_down_law : counts_down exit_ref_down.
Proof. split; intros F kd k; destruct kd; intros; first [by solve_ok | by solve_law]. Qed.

(** ** One table in the context of the others

    [R] and [W] are the descriptors that other tables hold; [pinv] says that
    the store's counts are these plus the ones of table [t]. *)

Definition ends_held (R W : addr → nat) t p : nat * nat :=
  (R p + cnt (is_r p) t, W p + cnt (is_w p) t)%nat.

Record pinv F (R W : addr → nat) t k : Prop := {
  pinv_len : length t = MAX_FDS;
  pinv_store : store_ok F k;
  pinv_typed : ∀ i e, t !! i = Some (Some e) → typed F (kind e);
  pinv_ends : ∀ p, p ∉ F →
    (0 < R p + cnt (is_r p) t + (W p + cnt (is_w p) t))%nat →
    ends k p = Some (ends_held R W t p);
}.

Lemma typed_insert F t i o :
  (∀ j e, t !! j = Some (Some e) → typed F (kind e)) →
  (∀ e, o = Some e → typed F (kind e)) →
  ∀ j e, <[i := o]> t !! j = Some (Some e) → typed F (kind e).
Proof.
  intros Ht Ho j e [(_ & H & _)|[_ H]]%list_lookup_insert_Some; [by apply Ho|by apply (Ht j)].
Qed.

Lemma pinv_put F R W t k up i e :
  counts_up up → pinv F R W t k → t !! i = Some None → typed F (kind e) →
  (∀ p, 0 < is_r p (kind e) + is_w p (kind e) →
        0 < R p + cnt (is_r p) t + (W p + cnt (is_w p) t))%nat →
  pinv F R W (<[i := Some e]> t) (up (kind e) k).
Proof.
  intros Hup [Hl Hs Ht He] Hi Hty Hlive. split.
  - by rewrite length_insert.
  - by apply Hup.
  - apply typed_insert; naive_solver.
  - intros p Hp Hpos. pose proof (cnt_insert (is_r p) t i None (Some e) Hi) as H1.
    pose proof (cnt_insert (is_w p) t i None (Some e) Hi) as H2. cbn [slot_weight] in H1, H2.
    rewrite (up_ends _ Hup F), He by (done || (specialize (Hlive p); lia)).
    unfold ends_held; cbn [fmap option_fmap option_map]. do 2 f_equal; lia.
Qed.

Lemma pinv_take F R W t k down i e :
  counts_down down → pinv F R W t k → t !! i = Some (Some e) →
  pinv F R W (<[i := None]> t) (down (kind e) k).
Proof.
  intros Hdn [Hl Hs Ht He] Hi. split.
  - by rewrite length_insert.
  - apply Hdn; [by eapply Ht|done].
  - apply typed_insert; [done|naive_solver].
  - intros p Hp Hpos. pose proof (cnt_insert (is_r p) t i (Some e) None Hi) as H1.
    pose proof (cnt_insert (is_w p) t i (Some e) None Hi) as H2. cbn [slot_weight] in H1, H2.
    rewrite (down_ends _ Hdn F), He by (done || eauto || lia).
    unfold ends_held; cbn [fmap option_fmap option_map]. do 2 f_equal; lia.
Qed.

(** Replacing a slot by one that counts the same changes nothing. *)
Lemma pinv_same_weight F R W t k i o o' :
  pinv F R W t k → t !! i = Some o →
  (∀ p, slot_weight (is_r p) o' = slot_weight (is_r p) o) →
  (∀ p, slot_weight (is_w p) o' = slot_weight (is_w p) o) →
  (∀ e, o' = Some e → typed F (kind e)) →
  pinv F R W (<[i := o']> t) k.
Proof.
  intros [Hl Hs Ht He] Hi Hr Hw Hty.
  split; [by rewrite length_insert|done|by apply typed_insert|].
  intros p Hp Hpos. pose proof (cnt_insert (is_r p) t i o o' Hi) as H1.
  pose proof (cnt_insert (is_w p) t i o o' Hi) as H2. specialize (Hr p). specialize (Hw p).
  rewrite He by (done || lia). unfold ends_held. do 2 f_equal; lia.
Qed.

(** The store may change under a fixed table if the ends stay as they are. *)
Lemma pinv_store_change F R W t k k' :
  pinv F R W t k → store_ok F k' → (∀ p, p ∉ F → ends k' p = ends k p) → pinv F R W t k'.
Proof.
  intros [Hl Hs Ht He] Hs' Hk. split; [done|done|done|].
  intros p Hp Hpos. rewrite Hk by done. by apply He.
Qed.

(** Taking a reference and giving it back is neutral. *)
Lemma pinv_up_down F R W t k up down kd :
  counts_up up → counts_down down → typed F kd → pinv F R W t k →
  pinv F R W t (down kd (up kd k)).
Proof.
  intros Hup Hdn Hty Hinv. pose proof (pinv_store _ _ _ _ _ Hinv) as Hs.
  eapply pinv_store_change; [done|by apply Hdn, Hup|].
  intros p Hp. rewrite (down_ends _ Hdn F), (up_ends _ Hup F) by (try apply Hup; done).
  destruct (ends k p) as [[r w]|]; [cbn|done]. do 2 f_equal; lia.
Qed.

Lemma first_free_lookup n i t j :
  first_free n i t = Some j → (i + n ≤ length t)%nat → t !! j = Some None.
Proof. intros (? & ? & ?)%first_free_Some ?. apply slot_None; [lia|done]. Qed.

(** A descriptor of the table keeps its object alive. *)
Lemma held_live (R W : addr → nat) t i e p :
  t !! i = Some (Some e) → (0 < is_r p (kind e) + is_w p (kind e))%nat →
  (0 < R p + cnt (is_r p) t + (W p + cnt (is_w p) t))%nat.
Proof.
  intros Hi Hpos. pose proof (cnt_lookup (is_r p) t i _ Hi).
  pose proof (cnt_lookup (is_w p) t i _ Hi). cbn [slot_weight] in *. lia.
Qed.

Lemma dup_at_least_pinv F R W old_fd min_fd c t k :
  pinv F R W t k →
  let '(t', k', _) := FdTable_dup_at_least old_fd min_fd c t k in pinv F R W t' k'.
Proof.
  intros Hinv. unfold FdTable_dup_at_least.
  destruct (valid_fd old_fd) eqn:Ho; [cbn [negb]|done].
  destruct (valid_fd min_fd) eqn:Hm; [cbn [negb]|done]. apply valid_fd_spec in Hm.
  destruct (slot t (Z.to_nat old_fd)) as [e0|] eqn:He0; [|done]. apply slot_Some in He0.
  assert (typed F (kind e0)) by (by eapply pinv_typed).
  destruct (first_free _ _ _) as [i|] eqn:Hf; cbn [kind].
  - apply first_free_lookup in Hf; [|rewrite (pinv_len _ _ _ _ _ Hinv); lia].
    apply (pinv_put _ _ _ _ _ dup_ref_up i (mkFd (kind e0) _ _)); try done.
    + apply dup_ref_up_law.
    + intros p. exact (held_live R W t _ e0 p He0).
  - apply pinv_up_down; eauto using dup_ref_up_law, dup_ref_down_law.
Qed.

Lemma dup2_pinv F R W old_fd new_fd t k :
  pinv F R W t k →
  let '(t', k', _) := FdTable_dup2 old_fd new_fd t k in pinv F R W t' k'.
Proof.
  intros Hinv. unfold FdTable_dup2.
  destruct (valid_fd old_fd) eqn:Ho; [cbn [negb]|done].
  destruct (valid_fd new_fd) eqn:Hn; [cbn [negb]|done].
  apply valid_fd_spec in Ho, Hn. pose proof (pinv_len _ _ _ _ _ Hinv) as Hl.
  destruct (Z.eqb_spec old_fd new_fd); [by destruct (slot t _)|].
  assert (Hne : Z.to_nat new_fd ≠ Z.to_nat old_fd) by lia.
  destruct (slot t (Z.to_nat old_fd)) as [e|] eqn:He; [|done]. apply slot_Some in He.
  destruct (slot t (Z.to_nat new_fd)) as [old|] eqn:Hold.
  - apply slot_Some in Hold.
    pose proof (pinv_take _ _ _ _ _ _ _ _ dup2_ref_down_law Hinv Hold) as Hinv1.
    apply (pinv_put _ _ _ _ _ dup2_ref_up); try done.
    + apply dup2_ref_up_law.
    + apply list_lookup_insert_eq. lia.
    + exact (pinv_typed _ _ _ _ _ Hinv _ _ He).
    + intros p. apply held_live with (Z.to_nat old_fd). by rewrite list_lookup_insert_ne.
  - apply slot_None in Hold; [|lia].
    apply (pinv_put _ _ _ _ _ dup2_ref_up); try done.
    + apply dup2_ref_up_law.
    + exact (pinv_typed _ _ _ _ _ Hinv _ _ He).
    + intros p. by apply held_live with (Z.to_nat old_fd).
Qed.

(** A kind that is neither end of a pipe nor of a FIFO. *)
Definition plain (kd : FdKind) : bool :=
  match kd with PipeRead _ | PipeWrite _ | FifoRead _ _ | FifoWrite _ _ => false | _ => true end.

Lemma alloc_weightless_pinv F R W e t k :
  pinv F R W t k → typed F (kind e) →
  (∀ p, is_r p (kind e) = 0%nat ∧ is_w p (kind e) = 0%nat) →
  pinv F R W (FdTable_alloc_with_entry e t).1 k.
Proof.
  intros Hinv Hty H0. unfold FdTable_alloc_with_entry.
  destruct (first_free _ _ _) as [i|] eqn:Hf; [cbn|done].
  apply first_free_lookup in Hf; [|by rewrite (pinv_len _ _ _ _ _ Hinv)].
  eapply pinv_same_weight; try done; [apply H0|apply H0|naive_solver].
Qed.

Lemma alloc_plain_pinv F R W min_fd kd t k :
  pinv F R W t k → plain kd = true → pinv F R W (FdTable_alloc_at_least min_fd kd t).1 k.
Proof.
  intros Hinv Hp. unfold FdTable_alloc_at_least.
  destruct (first_free _ _ _) as [i|] eqn:Hf; [cbn|done].
  pose proof (pinv_len _ _ _ _ _ Hinv) as Hl.
  pose proof (first_free_Some _ _ _ _ Hf) as (? & _).
  apply first_free_lookup in Hf; [|lia].
  eapply pinv_same_weight; try done; try (by destruct kd).
  intros e [= <-]. by destruct kd.
Qed.

Lemma close_pinv F R W down fd t k :
  counts_down down → pinv F R W t k →
  match FdTable_close fd t with
  | (t', Ok e) => pinv F R W t' (down (kind e) k)
  | (t', Err _) => pinv F R W t' k
  end.
Proof.
  intros Hdn Hinv. unfold FdTable_close. destruct (valid_fd fd); [|done].
  destruct (slot t (Z.to_nat fd)) eqn:E; [|done]. apply slot_Some in E. by apply pinv_take.
Qed.

(** A loop whose body keeps [pinv] keeps it. *)
Lemma foldl_pinv {A} F R W (step : FdTable * kernel S → A → FdTable * kernel S) (l : list A) :
  (∀ t k x, pinv F R W t k → pinv F R W (step (t, k) x).1 (step (t, k) x).2) →
  ∀ t k, pinv F R W t k → pinv F R W (foldl step (t, k) l).1 (foldl step (t, k) l).2.
Proof.
  intros Hstep. induction l as [|x l IH]; intros t k Hinv; [done|]. cbn [foldl].
  specialize (Hstep t k x Hinv). destruct (step (t, k) x) as [t' k']. by apply IH.
Qed.

Lemma close_every_pinv F R W down t k :
  counts_down down → pinv F R W t k →
  pinv F R W (close_every down t k).1 (close_every down t k).2.
Proof.
  intros Hdn. apply foldl_pinv. intros t' k' i Hinv; cbn.
  destruct (slot t' i) eqn:E; [|done]. apply slot_Some in E. by apply pinv_take.
Qed.

Lemma close_cloexec_pinv F R W t k :
  pinv F R W t k →
  pinv F R W (FdTable_close_cloexec t k).1 (FdTable_close_cloexec t k).2.
Proof.
  apply foldl_pinv. intros t' k' i Hinv; cbn. destruct (should_close t' i); [|done].
  destruct (slot t' i) eqn:E; [|done]. apply slot_Some in E.
  by apply pinv_take, E; [apply cloexec_ref_down_law|].
Qed.

Lemma close_all_fds_pinv F R W t k :
  pinv F R W t k →
  pinv F R W (Process_close_all_fds t k).1 (Process_close_all_fds t k).2.
Proof.
  apply foldl_pinv. intros t' k' i Hinv; cbn.
  pose proof (close_pinv F R W _ (Z.of_nat i) t' k' exit_ref_down_law Hinv) as H.
  by destruct (FdTable_close _ t') as [? []].
Qed.

Lemma get_mut_pinv F R W fd f t k :
  (∀ e, kind (f e) = kind e) → pinv F R W t k →
  match FdTable_get_mut fd f t with Some t' => pinv F R W t' k | None => True end.
Proof.
  intros Hf Hinv. unfold FdTable_get_mut. destruct (valid_fd fd); [|done].
  destruct (slot t (Z.to_nat fd)) as [e|] eqn:E; [cbn|done]. apply slot_Some in E.
  eapply pinv_same_weight; try done; cbn; try (by rewrite Hf).
  intros e' [= <-]. rewrite Hf. by eapply pinv_typed.
Qed.

Lemma fcntl_pinv F R W fd cmd arg t k :
  pinv F R W t k → let '(t', k', _) := sys_fcntl fd cmd arg t k in pinv F R W t' k'.
Proof.
  intros Hinv. unfold sys_fcntl.
  pose proof (dup_at_least_pinv F R W (as_i32 fd) (as_i32 arg) false t k Hinv).
  pose proof (dup_at_least_pinv F R W (as_i32 fd) (as_i32 arg) true t k Hinv).
  destruct (_ =? F_DUPFD); [done|]. destruct (_ =? F_DUPFD_CLOEXEC); [done|].
  destruct (_ =? F_GETFD); [done|]. destruct (_ =? F_SETFD).
  { unfold FdTable_set_fd_flags.
    pose proof (get_mut_pinv F R W (as_i32 fd)
      (λ e, mkFd (kind e) (wrap 32 (as_i32 arg)) (status_flags e)) t k (λ _, eq_refl) Hinv).
    by destruct (FdTable_get_mut _ _ t). }
  destruct (_ =? F_GETFL); [done|]. destruct (_ =? F_SETFL); [|done].
  unfold FdTable_set_status_flags.
  lazymatch goal with |- context [FdTable_get_mut _ ?f t] =>
    pose proof (get_mut_pinv F R W (as_i32 fd) f t k (λ _, eq_refl) Hinv) end.
  by destruct (FdTable_get_mut _ _ t).
Qed.

(** *** pipe(2) *)

Lemma close_at i t e :
  t !! i = Some (Some e) → (i < MAX_FDS)%nat →
  FdTable_close (Z.of_nat i) t = (<[i := None]> t, Ok e).
Proof.
  intros Hi Hlt. unfold FdTable_close.
  replace (valid_fd (Z.of_nat i)) with true by (symmetry; apply valid_fd_spec; lia).
  rewrite Nat2Z.id. apply slot_Some in Hi. by rewrite Hi.
Qed.

Lemma ends_None_dom k p : p ∉ dom (pipes k) → ends k p = None.
Proof. intros H%not_elem_of_dom. unfold ends. by rewrite H. Qed.

(** No descriptor is open on an address that is not allocated. *)
Lemma unallocated_not_held F R W t k p :
  pinv F R W t k → p ∉ dom (pipes k) →
  p ∉ F ∧ R p = 0%nat ∧ W p = 0%nat ∧ cnt (is_r p) t = 0%nat ∧ cnt (is_w p) t = 0%nat.
Proof.
  intros Hinv Hp. destruct (pinv_store _ _ _ _ _ Hinv) as (_ & HF & _).
  assert (p ∉ F) by set_solver. split; [done|].
  pose proof (pinv_ends _ _ _ _ _ Hinv p) as He. rewrite (ends_None_dom k p Hp) in He.
  destruct (decide (0 < R p + cnt (is_r p) t + (W p + cnt (is_w p) t))%nat) as [H0|]; [|lia].
  by specialize (He ltac:(done) H0).
Qed.

Lemma ends_alloc_pipe k q :
  let '(p, k') := alloc_pipe k in
  ends k' q = (if decide (p = q) then Some (1, 1)%nat else ends k q).
Proof.
  unfold alloc_pipe, ends; cbn. case_decide; subst.
  - by rewrite lookup_insert_eq.
  - by rewrite lookup_insert_ne.
Qed.

Lemma store_ok_alloc_pipe F k : store_ok F k → store_ok F (alloc_pipe k).2.
Proof.
  intros (Hr & Hd & Hw). split_and!; [done|cbn; rewrite dom_insert_L; set_solver|].
  intros p x; cbn. rewrite lookup_insert. case_decide; [|apply Hw].
  intros [= <-]. apply pipe_wf_new.
Qed.

(** A new pipe that no descriptor names is invisible. *)
Lemma alloc_pipe_pinv F R W t k : pinv F R W t k → pinv F R W t (alloc_pipe k).2.
Proof.
  intros Hinv. pose proof (is_fresh (dom (pipes k))) as Hfr.
  pose proof (unallocated_not_held _ _ _ _ _ _ Hinv Hfr) as (Hn & ? & ? & ? & ?).
  destruct Hinv as [Hl Hs Ht He]. split; [done|by apply store_ok_alloc_pipe|done|].
  intros q Hq Hpos. pose proof (ends_alloc_pipe k q) as Ha. cbn in Ha. cbn. rewrite Ha.
  case_decide; [subst; lia|by apply He].
Qed.

(** Both ends of a new pipe in two free slots: counts 1 and 1. *)
Lemma new_pipe_pinv F R W t k i j er ew :
  pinv F R W t k →
  t !! i = Some None → t !! j = Some None → i ≠ j →
  kind er = PipeRead (alloc_pipe k).1 → kind ew = PipeWrite (alloc_pipe k).1 →
  pinv F R W (<[j := Some ew]> (<[i := Some er]> t)) (alloc_pipe k).2.
Proof.
  intros Hinv Hi Hj Hij Hr Hw. pose proof (is_fresh (dom (pipes k))) as Hfr.
  pose proof (unallocated_not_held _ _ _ _ _ _ Hinv Hfr) as (HF & ? & ? & ? & ?).
  destruct Hinv as [Hl Hs Ht He]. cbn in Hr, Hw. split.
  - by rewrite !length_insert.
  - by apply store_ok_alloc_pipe.
  - apply typed_insert; [apply typed_insert; [done|]|];
      intros e [= <-]; [rewrite Hr|rewrite Hw]; done.
  - intros q Hq Hpos.
    assert (Hj' : <[i := Some er]> t !! j = Some None) by by rewrite list_lookup_insert_ne.
    pose proof (cnt_insert (is_r q) t i None (Some er) Hi) as R1.
    pose proof (cnt_insert (is_w q) t i None (Some er) Hi) as W1.
    pose proof (cnt_insert (is_r q) _ j None (Some ew) Hj') as R2.
    pose proof (cnt_insert (is_w q) _ j None (Some ew) Hj') as W2.
    cbn [slot_weight] in *. rewrite Hr, Hw in *. cbn [is_r is_w] in *.
    pose proof (ends_alloc_pipe k q) as Ha. cbn in Ha. cbn [alloc_pipe snd] in *. rewrite Ha.
    unfold ends_held. case_decide.
    + subst q. do 2 f_equal; lia.
    + rewrite He by (done || lia). unfold ends_held. do 2 f_equal; lia.
Qed.

Lemma sys_pipe_body_pinv F R W (entry : FdKind → FileDescriptor) copy_ok t k :
  (∀ kd, kind (entry kd) = kd) → pinv F R W t k →
  let '(t', k', _) := sys_pipe_body (λ kd, FdTable_alloc_with_entry (entry kd)) copy_ok t k in
  pinv F R W t' k'.
Proof.
  intros Hk Hinv. unfold sys_pipe_body, create_pipe.
  pose proof (alloc_pipe_pinv _ _ _ _ _ Hinv) as Hinv1.
  pose proof (new_pipe_pinv F R W t k) as Hnew.
  pose proof (pinv_len _ _ _ _ _ Hinv) as Hl.
  destruct (alloc_pipe k) as [p k1]; cbn [fst snd] in *. unfold FdTable_alloc_with_entry.
  destruct (first_free MAX_FDS 0 t) as [i|] eqn:Hf; [|done].
  pose proof (first_free_Some _ _ _ _ Hf) as (Hilt & _).
  apply first_free_lookup in Hf as Hi; [|by rewrite Hl].
  destruct (first_free MAX_FDS 0 (<[i:=_]> t)) as [j|] eqn:Hg; last first.
  { rewrite (close_at i _ (entry (PipeRead p)))
      by (try (apply list_lookup_insert_eq); lia).
    cbn. by rewrite list_insert_insert_eq, list_insert_id. }
  pose proof (first_free_Some _ _ _ _ Hg) as (Hjlt & _).
  apply first_free_lookup in Hg as Hj; [|by rewrite length_insert, Hl].
  assert (Hij : i ≠ j).
  { intros ->. rewrite list_lookup_insert_eq in Hj by lia. done. }
  rewrite list_lookup_insert_ne in Hj by done.
  destruct copy_ok; [by apply Hnew|].
  rewrite (close_at i _ (entry (PipeRead p))); [cbn [fst]| |lia]; last first.
  { rewrite list_lookup_insert_ne by done. apply list_lookup_insert_eq. lia. }
  rewrite (close_at j _ (entry (PipeWrite p))); [cbn [fst]| |lia]; last first.
  { rewrite list_lookup_insert_ne by done. apply list_lookup_insert_eq.
    rewrite length_insert. lia. }
  rewrite (list_insert_insert_ne _ i j) by done. rewrite list_insert_insert_eq.
  rewrite list_insert_insert_eq, (list_insert_id t) by done. by rewrite list_insert_id.
Qed.

(** *** fork *)

Definition clone_loop : kernel S → FdTable → kernel S :=
  foldl (λ k o, match o with Some e => clone_ref_up (kind e) k | None => k end).

Lemma clone_loop_ok F t : ∀ k,
  (∀ i e, t !! i = Some (Some e) → typed F (kind e)) → store_ok F k →
  store_ok F (clone_loop k t) ∧
  ∀ p, p ∉ F → ends (clone_loop k t) p =
    (λ '(r, w), (r + cnt (is_r p) t, w + cnt (is_w p) t)%nat) <$> ends k p.
Proof.
  induction t as [|o t IH]; intros k Hty Hs; cbn.
  { split; [done|]. intros. by rewrite ends_add_0. }
  assert (Hty' : ∀ i e, t !! i = Some (Some e) → typed F (kind e))
    by (intros i e ?; by apply (Hty (Datatypes.S i))).
  destruct o as [e|]; [|by apply IH].
  assert (He : typed F (kind e)) by (by apply (Hty 0%nat)).
  destruct (IH (clone_ref_up (kind e) k) Hty') as [Hs' Hends'];
    [by apply clone_ref_up_law|]. split; [done|].
  intros p Hp. rewrite Hends', (up_ends _ clone_ref_up_law F) by done.
  destruct (ends k p) as [[r w]|]; [cbn|done]. do 2 f_equal; lia.
Qed.

(** After fork the parent's table is counted twice: for itself and the child. *)
Lemma clone_pinv F R W t k :
  pinv F R W t k →
  pinv F (λ p, R p + cnt (is_r p) t)%nat (λ p, W p + cnt (is_w p) t)%nat t (FdTable_clone t k).2.
Proof.
  intros [Hl Hs Ht He]. destruct (clone_loop_ok F t k Ht Hs) as [Hs' He'].
  split; [done|done|done|]. intros p Hp Hpos. cbn [FdTable_clone snd]. unfold clone_loop in *.
  rewrite He', He by (done || lia). unfold ends_held. cbn [fmap option_fmap option_map].
  do 2 f_equal; lia.
Qed.

(** *** Opening a FIFO *)

(** [F'] adds only addresses that were not allocated. *)
Definition grows F F' k : Prop :=
  F ⊆ F' ∧ ∀ b, b ∈ F' → b ∈ F ∨ b ∉ dom (pipes k).

Lemma pinv_extend F R W t k :
  pinv F R W t k → pinv (F ∪ {[(alloc_pipe k).1]}) R W t (alloc_pipe k).2.
Proof.
  intros Hinv. pose proof (is_fresh (dom (pipes k))) as Hfr.
  pose proof (unallocated_not_held _ _ _ _ _ _ Hinv Hfr) as (HF & ? & ? & Hr & Hw).
  pose proof (alloc_pipe_pinv _ _ _ _ _ Hinv) as [Hl (Hs1 & Hs2 & Hs3) Ht He]. cbn in *. split.
  - done.
  - split_and!; [| |done].
    + intros path e b Hp Hb. apply elem_of_union_l. by eapply (Hs1 path e).
    + cbn. rewrite dom_insert_L in *. set_solver.
  - intros i e Hi. specialize (Ht i e Hi).
    pose proof (cnt_lookup (is_r (fresh (dom (pipes k)))) t i _ Hi) as H1.
    pose proof (cnt_lookup (is_w (fresh (dom (pipes k)))) t i _ Hi) as H2.
    cbn [slot_weight] in *.
    destruct (kind e); cbn in *; try done; try (by apply elem_of_union_l).
    + case_decide; [lia|]. set_solver.
    + case_decide; [lia|]. set_solver.
  - intros p Hp. apply He. set_solver.
Qed.

(** Recording a new reader or writer of a FIFO buffer in its entry. *)
Lemma fifo_update_pinv F R W t k b path e ws lock_add :
  lock_add = lock_add_reader ∨ lock_add = lock_add_writer →
  pinv F R W t k → b ∈ F → fe_buffer e = Some b →
  let k' := lock_add b (wake ws k) in
  pinv F R W t (set_fifos (<[path := e]> (fifos k')) k').
Proof.
  intros Hadd Hinv Hb He k'.
  assert (Hd : dom (pipes k') = dom (pipes k)) by (destruct Hadd as [-> | ->]; apply dom_alter_L).
  assert (Hfi : fifos k' = fifos k) by (by destruct Hadd as [-> | ->]).
  destruct (pinv_store _ _ _ _ _ Hinv) as (Hs1 & Hs2 & Hs3).
  eapply pinv_store_change; [done| |].
  - split_and!.
    + intros q x c; cbn. rewrite Hfi. destruct (decide (path = q)) as [<-|?].
      * rewrite lookup_insert_eq. intros [= <-]. congruence.
      * rewrite lookup_insert_ne by done. by apply Hs1.
    + cbn. by rewrite Hd.
    + destruct Hadd as [-> | ->]; (apply (pipes_wf_alter _ b (wake ws k));
        [intros; by apply pipe_wf_set_ends|done]).
  - intros p Hp. change (ends k' p = ends k p). subst k'.
    assert (b ≠ p) by (by intros ->).
    destruct Hadd as [-> | ->]; rewrite ?ends_lock_add_reader, ?ends_lock_add_writer;
      by rewrite decide_False.
Qed.

Lemma get_or_create_pinv F R W t k path e :
  pinv F R W t k → fifos k !! path = Some e →
  let '(b, e1, k1) := FifoEntry_get_or_create_buffer e k in
  ∃ F', grows F F' k ∧ pinv F' R W t k1 ∧ b ∈ F' ∧ fe_buffer e1 = Some b.
Proof.
  intros Hinv He. unfold FifoEntry_get_or_create_buffer.
  destruct (fe_buffer e) as [b|] eqn:Hb.
  - exists F. split_and!; [split; naive_solver|done| |done].
    destruct (pinv_store _ _ _ _ _ Hinv) as (Hr & _). by apply (Hr path e).
  - pose proof (pinv_extend _ _ _ _ _ Hinv) as Hext.
    pose proof (is_fresh (dom (pipes k))) as Hfr. cbn in *.
    exists (F ∪ {[fresh (dom (pipes k))]}). split_and!; [|done|set_solver|done].
    split; [set_solver|]. intros b [?|Heq%elem_of_singleton]%elem_of_union; subst; auto.
Qed.

Lemma fe_buffer_add_waiter (cur : option tid) e :
  fe_buffer (match cur with Some t => FifoEntry_add_read_waiter t e | None => e end) = fe_buffer e
  ∧ fe_buffer (match cur with Some t => FifoEntry_add_write_waiter t e | None => e end)
    = fe_buffer e.
Proof.
  destruct cur; [|done]. unfold FifoEntry_add_read_waiter, FifoEntry_add_write_waiter.
  by repeat case_bool_decide.
Qed.

Lemma open_fifo_read_pinv F R W cur path nonblock t k :
  pinv F R W t k →
  ∃ F', grows F F' k ∧ pinv F' R W t (open_fifo_read cur path nonblock k).1 ∧
    ∀ b, (open_fifo_read cur path nonblock k).2 = Ready b → b ∈ F'.
Proof.
  intros Hinv. unfold open_fifo_read. destruct (fifos k !! path) as [e|] eqn:He; last first.
  { exists F. split_and!; [split; naive_solver|done|done]. }
  pose proof (get_or_create_pinv F R W t k path e Hinv He) as Hg.
  destruct (FifoEntry_get_or_create_buffer e k) as [[b e1] k1].
  destruct Hg as (F' & Hgr & Hinv' & Hb & He1). exists F'. split; [done|].
  unfold FifoEntry_add_reader. destruct (fe_buffer_add_waiter cur (mkFifoEntry (fe_buffer e1)
    (fe_readers e1 + 1) (fe_writers e1) (fe_read_waiters e1) [] (fe_mode e1))) as [Hw _].
  split.
  - case_decide; [|destruct nonblock]; apply fifo_update_pinv; auto. by rewrite Hw.
  - case_decide; [|destruct nonblock]; cbn; naive_solver.
Qed.

Lemma open_fifo_write_pinv F R W cur path nonblock t k :
  pinv F R W t k →
  ∃ F', grows F F' k ∧ pinv F' R W t (open_fifo_write cur path nonblock k).1 ∧
    ∀ b, (open_fifo_write cur path nonblock k).2 = Ready b → b ∈ F'.
Proof.
  intros Hinv. unfold open_fifo_write. destruct (fifos k !! path) as [e|] eqn:He; last first.
  { exists F. split_and!; [split; naive_solver|done|done]. }
  destruct (_ && nonblock). { exists F. split_and!; [split; naive_solver|done|done]. }
  pose proof (get_or_create_pinv F R W t k path e Hinv He) as Hg.
  destruct (FifoEntry_get_or_create_buffer e k) as [[b e1] k1].
  destruct Hg as (F' & Hgr & Hinv' & Hb & He1). exists F'. split; [done|].
  unfold FifoEntry_add_writer. destruct (fe_buffer_add_waiter cur (mkFifoEntry (fe_buffer e1)
    (fe_readers e1) (fe_writers e1 + 1) [] (fe_write_waiters e1) (fe_mode e1))) as [_ Hw].
  split.
  - case_decide; apply fifo_update_pinv; auto. by rewrite Hw.
  - case_decide; cbn; naive_solver.
Qed.

Lemma alloc_fifo_pinv F R W path fl b t k :
  pinv F R W t k → b ∈ F → pinv F R W (FdTable_alloc_with_entry (fifo_entry path fl b) t).1 k.
Proof.
  intros Hinv Hb. apply alloc_weightless_pinv; [done| |];
    unfold fifo_entry; cbn; by destruct (_ =? O_WRONLY).
Qed.

Lemma handle_fifo_open_pinv F R W cur path fl t k :
  pinv F R W t k →
  ∃ F', grows F F' k ∧
    pinv F' R W (handle_fifo_open cur path fl t k).1.1 (handle_fifo_open cur path fl t k).1.2.
Proof.
  intros Hinv. unfold handle_fifo_open. set (nb := negb _).
  assert (∃ F', grows F F' k ∧ ∃ k1 r, (if Z.land fl 3 =? O_WRONLY
      then open_fifo_write cur path nb k else open_fifo_read cur path nb k) = (k1, r) ∧
      pinv F' R W t k1 ∧ ∀ b, r = Ready b → b ∈ F') as (F' & Hgr & k1 & r & -> & Hinv' & Hr).
  { destruct (_ =? O_WRONLY).
    - destruct (open_fifo_write_pinv F R W cur path nb t k Hinv) as (F' & ? & ? & ?).
      exists F'. split; [done|]. by destruct (open_fifo_write _ _ _ _); eauto.
    - destruct (open_fifo_read_pinv F R W cur path nb t k Hinv) as (F' & ? & ? & ?).
      exists F'. split; [done|]. by destruct (open_fifo_read _ _ _ _); eauto. }
  exists F'. split; [done|]. destruct r as [b| |e]; [|done|done].
  pose proof (alloc_fifo_pinv F' R W path fl b t k1 Hinv' (Hr b eq_refl)).
  by destruct (FdTable_alloc_with_entry _ t).
Qed.

Lemma handle_fifo_open_resume_pinv F R W path fl t k :
  pinv F R W t k →
  pinv F R W (handle_fifo_open_resume path fl t k).1.1
             (handle_fifo_open_resume path fl t k).1.2.
Proof.
  intros Hinv. unfold handle_fifo_open_resume, complete_fifo_open.
  destruct (fifos k !! path) as [e|] eqn:He; [|done]. case_decide; [|done].
  destruct (fe_buffer e) as [b|] eqn:Hb; [|done].
  assert (b ∈ F) by (destruct (pinv_store _ _ _ _ _ Hinv) as (Hr & _); by apply (Hr path e)).
  pose proof (alloc_fifo_pinv F R W path fl b t k Hinv ltac:(done)).
  by destruct (FdTable_alloc_with_entry _ t).
Qed.
End laws.
