(* ===== verification/FdWorld.v ===== *)
(** * Whole histories of descriptors and pipes

    [world] is every process's descriptor table and the shared store.  One
    [wstep] is one system call of one process that touches descriptors (pipe,
    pipe2, close, dup, dup2, fcntl, opening a file, a socket or a FIFO, mkfifo,
    unlink), a fork, an exec, an exit, the drop of a dead process's table, or a
    read, write or wait on a pipe.  [winv] holds in every reachable world. *)

From S2P Require Import Prelude RingBuffer Pipe Fifo FdTable FdRefs.

Section world.
Context {S : Type} `{!FdBackend S}.
Implicit Types (k : kernel S) (t : FdTable) (F : gset addr) (p b : addr).

Record world := mkWorld {
  tabs : gmap Z FdTable;
  kern : kernel S;
}.

(** A system call on the caller's own table. *)
Inductive request :=
  | RPipe (ptr : u64) (copy_ok : bool)
  | RPipe2 (ptr fl : u64) (copy_ok : bool)
  | RClose (fd : i32)
  | RDup (fd : u64)
  | RDup2 (old_fd new_fd : u64)
  | RFcntl (fd cmd arg : u64)
  | ROpen (kd : FdKind)
  | RFifoOpen (cur : option tid) (path : string) (fl : u32)
  | RFifoResume (path : string) (fl : u32)
  | RMkfifo (path : string) (mode : u32)
  | RUnlink (path : string)
  | RExec
  | RExit.

(** [ROpen] stands for the calls that install a descriptor on an object of
    another subsystem ([open], [socket], [accept], ...); they do not hand out
    pipe ends. *)
Definition perform (r : request) t k : FdTable * kernel S :=
  match r with
  | RPipe ptr ok => (sys_pipe ptr ok t k).1
  | RPipe2 ptr fl ok => (sys_pipe2 ptr fl ok t k).1
  | RClose fd => (sys_close fd t k).1
  | RDup fd => (sys_dup fd t k).1
  | RDup2 o n => (sys_dup2 o n t k).1
  | RFcntl fd cmd arg => (sys_fcntl fd cmd arg t k).1
  | ROpen kd => if plain kd then ((FdTable_alloc kd t).1, k) else (t, k)
  | RFifoOpen cur path fl => (handle_fifo_open cur path fl t k).1
  | RFifoResume path fl => (handle_fifo_open_resume path fl t k).1
  | RMkfifo path mode => (t, (FifoRegistry_create path mode k).1)
  | RUnlink path => (t, (FifoRegistry_unlink path k).1)
  | RExec => FdTable_close_cloexec t k
  | RExit => Process_close_all_fds t k
  end.

Inductive wstep : world → world → Prop :=
  | ws_request m k pid t r :
      m !! pid = Some t →
      wstep (mkWorld m k) (mkWorld (<[pid := (perform r t k).1]> m) (perform r t k).2)
  | ws_spawn m k pid :
      m !! pid = None → wstep (mkWorld m k) (mkWorld (<[pid := FdTable_new]> m) k)
  | ws_fork m k pid child t :
      m !! pid = Some t → m !! child = None →
      wstep (mkWorld m k)
        (mkWorld (<[child := (FdTable_clone t k).1]> m) (FdTable_clone t k).2)
  | ws_drop m k pid t :
      m !! pid = Some t →
      wstep (mkWorld m k) (mkWorld (delete pid m) (FdTable_drop t k).2)
  | ws_pipe_op m k p x o x' a d woken :
      pipes k !! p = Some x → pipe_step x o = Some (x', a, d, woken) →
      match o with PRead _ | PWrite _ | PAddWaiter _ | PRemoveWaiter _ => True | _ => False end →
      wstep (mkWorld m k) (mkWorld m (wake woken (set_pipes (<[p := x']> (pipes k)) k))).

Definition world_init (s : S) : world := mkWorld ∅ (mkKernel ∅ ∅ [] s).

Inductive reachable (s : S) : world → Prop :=
  | reach_init : reachable s (world_init s)
  | reach_step w w' : reachable s w → wstep w w' → reachable s w'.

(** ** The invariant *)

Definition tables_ok F (m : gmap Z FdTable) : Prop :=
  map_Forall (λ _ t, length t = MAX_FDS ∧
    ∀ i e, t !! i = Some (Some e) → typed F (kind e)) m.

Record winv_at F (w : world) : Prop := {
  winv_store : store_ok F (kern w);
  winv_tables : tables_ok F (tabs w);
  winv_ends : ∀ p, p ∉ F →
    (0 < total (is_r p) (tabs w) + total (is_w p) (tabs w))%nat →
    ends (kern w) p = Some (total (is_r p) (tabs w), total (is_w p) (tabs w));
}.

Definition winv (w : world) : Prop := ∃ F, winv_at F w.

(** One table in the context of the others, and back. *)
Lemma winv_focus F m k pid t :
  winv_at F (mkWorld m k) → m !! pid = Some t →
  pinv F (λ p, total (is_r p) (delete pid m)) (λ p, total (is_w p) (delete pid m)) t k.
Proof.
  intros [Hs Ht He] Hm. destruct (Ht pid t Hm) as [Hl Hty]. split; [done|done|done|].
  intros p Hp Hpos. cbn in *. rewrite (He p Hp).
  - unfold ends_held. by rewrite (total_lookup (is_r p) m pid t Hm),
      (total_lookup (is_w p) m pid t Hm), Nat.add_comm, (Nat.add_comm (cnt (is_w p) t)).
  - rewrite (total_lookup (is_r p) m pid t Hm), (total_lookup (is_w p) m pid t Hm). lia.
Qed.

(** Tables stay typed when [F] grows by unallocated addresses. *)
Lemma tables_ok_grows F F' m k :
  winv_at F (mkWorld m k) → grows F F' k → tables_ok F' m.
Proof.
  intros Hw [Hsub Hnew] pid t Hm.
  pose proof (winv_focus _ _ _ _ _ Hw Hm) as Hinv.
  destruct (winv_tables _ _ Hw pid t Hm) as [Hl Hty]. split; [done|].
  intros i e Hi. specialize (Hty i e Hi).
  assert (Hb : ∀ b, b ∉ F → (0 < is_r b (kind e) + is_w b (kind e))%nat → b ∉ F').
  { intros b HbF Hpos [?|Hd]%Hnew; [done|].
    pose proof (unallocated_not_held _ _ _ _ _ _ Hinv Hd) as (_ & _ & _ & ? & ?).
    pose proof (held_live (λ _, 0%nat) (λ _, 0%nat) t i e b Hi Hpos). cbn in *. lia. }
  destruct (kind e); cbn in *; try done; try (by apply Hsub).
  - apply Hb; [done|]. rewrite decide_True by done. lia.
  - apply Hb; [done|]. rewrite decide_True by done. lia.
Qed.

Lemma winv_unfocus F F' m k pid t' k' :
  winv_at F (mkWorld m k) → grows F F' k →
  pinv F' (λ p, total (is_r p) (delete pid m)) (λ p, total (is_w p) (delete pid m)) t' k' →
  winv_at F' (mkWorld (<[pid := t']> m) k').
Proof.
  intros Hw Hgr [Hl Hs Ht He]. split; cbn.
  - done.
  - apply map_Forall_insert_2; [done|]. by eapply tables_ok_grows.
  - intros p Hp Hpos. rewrite !total_insert in *. rewrite He by (done || lia).
    unfold ends_held. do 2 f_equal; lia.
Qed.

Lemma grows_refl F k : grows F F k.
Proof. split; naive_solver. Qed.

Lemma sys_pipe_pinv F R W ptr ok t k :
  pinv F R W t k → pinv F R W (sys_pipe ptr ok t k).1.1 (sys_pipe ptr ok t k).1.2.
Proof.
  intros Hinv. unfold sys_pipe. destruct (ptr =? 0); [done|].
  pose proof (sys_pipe_body_pinv F R W FileDescriptor_new ok t k (λ _, eq_refl) Hinv) as H.
  change (sys_pipe_body FdTable_alloc ok t k)
    with (sys_pipe_body (λ kd, FdTable_alloc_with_entry (FileDescriptor_new kd)) ok t k).
  by destruct (sys_pipe_body _ _ _ _) as [[??]?].
Qed.

Lemma sys_pipe2_pinv F R W ptr fl ok t k :
  pinv F R W t k → pinv F R W (sys_pipe2 ptr fl ok t k).1.1 (sys_pipe2 ptr fl ok t k).1.2.
Proof.
  intros Hinv. unfold sys_pipe2. destruct (negb _); [done|]. destruct (ptr =? 0); [done|].
  lazymatch goal with |- context [sys_pipe_body (λ kd, FdTable_alloc_with_entry (_ kd ?a ?b))] =>
    pose proof (sys_pipe_body_pinv F R W (λ kd, FileDescriptor_with_flags kd a b) ok t k
      (λ _, eq_refl) Hinv) as H end.
  by destruct (sys_pipe_body _ _ _ _) as [[??]?].
Qed.

Lemma registry_pinv F R W t k k' :
  pinv F R W t k → pipes k' = pipes k → registry_in F k' → pinv F R W t k'.
Proof.
  intros Hinv Hp Hr. destruct (pinv_store _ _ _ _ _ Hinv) as (_ & Hd & Hw).
  eapply pinv_store_change; [done| |].
  - split_and!; [done|by rewrite Hp|]. intros q x. rewrite Hp. apply Hw.
  - intros p _. unfold ends. by rewrite Hp.
Qed.

Lemma perform_pinv F R W r t k :
  pinv F R W t k → ∃ F', grows F F' k ∧ pinv F' R W (perform r t k).1 (perform r t k).2.
Proof.
  intros Hinv. destruct r as [ptr ok|ptr fl ok|fd|fd|o n|fd cmd arg|kd|cur path fl|path fl
    |path mode|path| |]; cbn [perform]; last (exists F; split; [apply grows_refl|];
    by apply close_all_fds_pinv).
  8: { by apply handle_fifo_open_pinv. }
  all: exists F; split; [apply grows_refl|].
  - by apply sys_pipe_pinv.
  - by apply sys_pipe2_pinv.
  - unfold sys_close.
    pose proof (close_pinv F R W _ fd t k sys_close_ref_down_law Hinv).
    by destruct (FdTable_close fd t) as [? []].
  - unfold sys_dup, FdTable_dup.
    pose proof (dup_at_least_pinv F R W (as_i32 fd) 0 false t k Hinv).
    by destruct (FdTable_dup_at_least _ _ _ _ _) as [[??]?].
  - unfold sys_dup2. pose proof (dup2_pinv F R W (as_i32 o) (as_i32 n) t k Hinv).
    by destruct (FdTable_dup2 _ _ _ _) as [[??]?].
  - pose proof (fcntl_pinv F R W fd cmd arg t k Hinv).
    by destruct (sys_fcntl _ _ _ _ _) as [[??]?].
  - destruct (plain kd) eqn:Hp; [|done]. by apply alloc_plain_pinv.
  - by apply handle_fifo_open_resume_pinv.
  - cbn [fst snd]. unfold FifoRegistry_create.
    destruct (pinv_store _ _ _ _ _ Hinv) as (Hr & _).
    destruct (fifos k !! path) eqn:E; [done|]. eapply registry_pinv; [done|done|].
    intros q e b; cbn. rewrite lookup_insert. case_decide; [|by apply Hr].
    by intros [= <-].
  - cbn [fst snd]. unfold FifoRegistry_unlink.
    destruct (pinv_store _ _ _ _ _ Hinv) as (Hr & _).
    destruct (fifos k !! path) eqn:E; [|done]. eapply registry_pinv; [done|done|].
    intros q e b; cbn. rewrite lookup_delete. case_decide; [done|by apply Hr].
  - by apply close_cloexec_pinv.
Qed.

Lemma FdTable_new_facts :
  length FdTable_new = MAX_FDS ∧ (∀ p, cnt (is_r p) FdTable_new = 0%nat) ∧
  (∀ p, cnt (is_w p) FdTable_new = 0%nat) ∧
  (∀ F i e, FdTable_new !! i = Some (Some e) → typed F (kind e)).
Proof.
  split; [done|]. split; [done|]. split; [done|]. intros F i e H.
  unfold FdTable_new in H.
  repeat (apply list_lookup_insert_Some in H as [(_ & [= <-] & _)|[_ H]]; [done|]).
  apply lookup_replicate in H as [? _]. done.
Qed.

(** The store that [close_every] leaves holds no reference of the table. *)
Lemma close_every_length down t k :
  length (close_every (S:=S) down t k).1 = length t.
Proof.
  unfold close_every. generalize (seq 0 MAX_FDS) as l. intros l. revert t k.
  induction l as [|i l IH]; intros t k; [done|]. cbn [foldl].
  destruct (slot t i); [|apply IH]. by rewrite IH, length_insert.
Qed.

Lemma close_prefix_empty down t k n i :
  (n ≤ length t)%nat → (i < n)%nat →
  slot (foldl (λ '(t, k) i,
    match slot t i with
    | Some e => (<[i := None]> t, down (kind e) k)
    | None => (t, k)
    end) (t, k) (seq 0 n)).1 i = None.
Proof.
  set (step := λ '(t, k) i, _). intros Hn Hi.
  assert (Hlen : ∀ l t k, length (foldl (A:=FdTable * kernel S) step (t, k) l).1 = length t).
  { induction l as [|j l IH]; intros t' k'; [done|]. cbn.
    destruct (slot t' j); [|apply IH]. by rewrite IH, length_insert. }
  induction n as [|n IH]; [lia|]. rewrite seq_S, foldl_app. cbn [foldl Nat.add].
  specialize (Hlen (seq 0 n) t k).
  destruct (foldl step (t, k) (seq 0 n)) as [t' k'] eqn:E. cbn [fst] in *.
  cbn. destruct (slot t' n) eqn:Es; cbn [fst].
  - rewrite slot_insert by lia. case_decide; [done|]. apply IH; lia.
  - destruct (decide (i = n)) as [->|]; [done|]. apply IH; lia.
Qed.

Lemma cnt_all_None g t : (∀ i, (i < length t)%nat → slot t i = None) → cnt g t = 0%nat.
Proof.
  induction t as [|o t IH]; intros H; [done|]. cbn.
  pose proof (H 0%nat ltac:(cbn; lia)) as H0. cbn in H0. subst o. cbn.
  apply IH. intros i Hi. apply (H (Datatypes.S i)). cbn. lia.
Qed.

Lemma close_every_cnt down t k g :
  length t = MAX_FDS → cnt g (close_every (S:=S) down t k).1 = 0%nat.
Proof.
  intros Hl. apply cnt_all_None. rewrite close_every_length, Hl. intros i Hi.
  apply close_prefix_empty; lia.
Qed.

Definition pipe_io (o : pipe_op) : Prop :=
  match o with PRead _ | PWrite _ | PAddWaiter _ | PRemoveWaiter _ => True | _ => False end.

(** Reading, writing and waiting leave the ends of a pipe as they are. *)
Lemma pipe_io_ends x o x' a d woken :
  pipe_wf x → pipe_step x o = Some (x', a, d, woken) → pipe_io o →
  pipe_wf x' ∧ readers x' = readers x ∧ writers x' = writers x.
Proof.
  intros Hwf Hstep Hio. split.
  { destruct (pipe_step_ok x o Hwf) as (x1 & ? & ? & ? & E & ? & _). congruence. }
  destruct o; try done; cbn [pipe_step] in Hstep.
  - destruct (decide (len x = 0%nat)) as [H0|H0].
    + unfold PipeBuffer_read in Hstep. rewrite decide_True in Hstep by done.
      case_decide; cbn in Hstep; by simplify_eq.
    + destruct (read_nonempty_ok x buf Hwf H0) as (x1 & E & _ & _ & ? & ? & _).
      rewrite E in Hstep. cbn in Hstep. by simplify_eq.
  - destruct (write_refines x bs Hwf) as (x1 & ? & r & E & _ & Hs).
    rewrite E in Hstep. cbn [mbind option_bind] in Hstep. injection Hstep as <- _ _ _.
    unfold bq_write, pipe_abs in Hs; cbn in Hs.
    repeat case_match; simplify_eq/=; split; congruence.
  - injection Hstep as <- _ _ _. unfold PipeBuffer_add_read_waiter. by case_bool_decide.
  - by injection Hstep as <- _ _ _.
Qed.

Lemma wstep_winv w w' : winv w → wstep w w' → winv w'.
Proof.
  intros [F Hw] Hstep. destruct Hstep as [m k pid t r Hm|m k pid Hm|m k pid child t Hm Hc
    |m k pid t Hm|m k p x o x' a d woken Hx Hop Hio].
  - pose proof (winv_focus _ _ _ _ _ Hw Hm) as Hinv.
    destruct (perform_pinv _ _ _ r _ _ Hinv) as (F' & Hgr & Hinv').
    exists F'. by eapply winv_unfocus.
  - exists F. destruct FdTable_new_facts as (Hl & Hr & Hwr & Hty).
    destruct Hw as [Hs Ht He]. split; cbn in *; [done| |].
    + apply map_Forall_insert_2; [|done]. split; [done|apply Hty].
    + intros p Hp. rewrite !total_insert, delete_id, Hr, Hwr by done. by apply He.
  - pose proof (winv_focus _ _ _ _ _ Hw Hm) as Hinv. exists F.
    pose proof (clone_pinv _ _ _ _ _ Hinv) as [Hl Hs Hty He].
    destruct Hw as [_ Ht _]. split; cbn [kern tabs]; [done| |].
    + by apply map_Forall_insert_2.
    + intros p Hp Hpos. rewrite !total_insert, delete_id in * by done.
      rewrite (total_lookup (is_r p) m pid t Hm), (total_lookup (is_w p) m pid t Hm) in *.
      cbn [FdTable_clone fst] in Hpos.
      rewrite He by (done || lia). unfold ends_held. do 2 f_equal; cbn [FdTable_clone fst]; lia.
  - pose proof (winv_focus _ _ _ _ _ Hw Hm) as Hinv. exists F.
    pose proof (close_every_pinv _ _ _ _ _ _ drop_ref_down_law Hinv) as Hinv'.
    pose proof (close_every_cnt drop_ref_down t k) as Hz.
    destruct Hw as [_ Ht _]. split; cbn [kern tabs].
    + by destruct Hinv'.
    + by apply map_Forall_delete.
    + intros p Hp Hpos. destruct Hinv' as [_ _ _ He].
      specialize (He p Hp). unfold ends_held in He.
      rewrite !Hz in He by (by eapply pinv_len). rewrite !Nat.add_0_r in He. by apply He.
  - exists F. destruct Hw as [(Hr & Hd & Hwf) Ht He]. cbn in *.
    destruct (pipe_io_ends x o x' a d woken (Hwf p x Hx) Hop) as (Hwf' & Hrd & Hwr);
      [by destruct o|].
    split; cbn; [split_and!| |].
    + done.
    + cbn. rewrite dom_insert_L. set_solver.
    + intros q y; cbn. rewrite lookup_insert. case_decide; [naive_solver|apply Hwf].
    + done.
    + intros q Hq Hpos. rewrite <- (He q Hq Hpos). unfold ends; cbn.
      rewrite lookup_insert. case_decide; [|done]. subst. rewrite Hx. cbn. congruence.
Qed.

Lemma winv_init s : winv (world_init s).
Proof.
  exists ∅. split; cbn.
  - split_and!; [|done|apply map_Forall_empty].
    intros path e b H. cbn in H. by rewrite lookup_empty in H.
  - apply map_Forall_empty.
  - intros p _. unfold total. rewrite !map_fold_empty. lia.
Qed.

Lemma reachable_winv s w : reachable s w → winv w.
Proof. induction 1 as [|w w' _ IH Hs]; [apply winv_init|by eapply wstep_winv]. Qed.

(** ** The properties *)

(** [pid] has a descriptor of kind [kd] open. *)
Definition holds (w : world) (pid : Z) (kd : FdKind) : Prop :=
  ∃ t i e, tabs w !! pid = Some t ∧ t !! i = Some (Some e) ∧ kind e = kd.

Lemma total_pos g m : (0 < total g m)%nat ↔
  ∃ pid t i e, m !! pid = Some t ∧ t !! i = Some (Some e) ∧ (0 < g (kind e))%nat.
Proof.
  split.
  - unfold total. revert m. apply (map_fold_weak_ind (λ n m, 0 < n → ∃ pid t i e,
      m !! pid = Some t ∧ t !! i = Some (Some e) ∧ 0 < g (kind e))%nat).
    + lia.
    + intros pid t m n Hm IH Hpos. destruct (decide (cnt g t = 0)%nat) as [H0|H0].
      * destruct IH as (pid' & t' & i & e & H1 & H2 & H3); [lia|].
        exists pid', t', i, e. split; [|done]. rewrite lookup_insert_ne; [done|congruence].
      * assert (∃ i e, t !! i = Some (Some e) ∧ 0 < g (kind e))%nat as (i & e & H1 & H2).
        { clear -H0. induction t as [|[e|] t IHt]; cbn in H0; [done| |].
          - destruct (decide (g (kind e) = 0)%nat); [|by exists 0%nat, e; split; [done|lia]].
            destruct IHt as (i & ?); [lia|]. by exists (Datatypes.S i).
          - destruct IHt as (i & ?); [lia|]. by exists (Datatypes.S i). }
        exists pid, t, i, e. by rewrite lookup_insert_eq.
  - intros (pid & t & i & e & Hm & Hi & Hg). rewrite (total_lookup g m pid t Hm).
    pose proof (cnt_lookup g t i _ Hi). cbn in *. lia.
Qed.

Lemma holds_read w p : (∃ pid, holds w pid (PipeRead p)) ↔ (0 < total (is_r p) (tabs w))%nat.
Proof.
  rewrite total_pos. split.
  - intros (pid & t & i & e & H1 & H2 & H3). exists pid, t, i, e. split_and!; [done..|].
    rewrite H3. cbn. rewrite decide_True by done. lia.
  - intros (pid & t & i & e & H1 & H2 & H3). exists pid, t, i, e. split_and!; [done..|].
    destruct (kind e); cbn in H3; try lia. case_decide; [by subst|lia].
Qed.

Lemma holds_write w p : (∃ pid, holds w pid (PipeWrite p)) ↔ (0 < total (is_w p) (tabs w))%nat.
Proof.
  rewrite total_pos. split.
  - intros (pid & t & i & e & H1 & H2 & H3). exists pid, t, i, e. split_and!; [done..|].
    rewrite H3. cbn. rewrite decide_True by done. lia.
  - intros (pid & t & i & e & H1 & H2 & H3). exists pid, t, i, e. split_and!; [done..|].
    destruct (kind e); cbn in H3; try lia. case_decide; [by subst|lia].
Qed.

(** A pipe that some descriptor names exists, is well formed, and counts its ends. *)
Lemma held_pipe s w p :
  reachable s w → (0 < total (is_r p) (tabs w) + total (is_w p) (tabs w))%nat →
  ∃ x, pipes (kern w) !! p = Some x ∧ pipe_wf x ∧
    readers x = total (is_r p) (tabs w) ∧ writers x = total (is_w p) (tabs w).
Proof.
  intros [F Hw]%reachable_winv Hpos.
  assert (HpF : p ∉ F).
  { intros HF. destruct (decide (0 < total (is_r p) (tabs w))%nat) as [Hr|Hr].
    - apply holds_read in Hr as (pid & t & i & e & H1 & H2 & H3).
      destruct (winv_tables _ _ Hw pid t H1) as [_ Hty]. specialize (Hty i e H2).
      by rewrite H3 in Hty.
    - assert (0 < total (is_w p) (tabs w))%nat as Hwr by lia.
      apply holds_write in Hwr as (pid & t & i & e & H1 & H2 & H3).
      destruct (winv_tables _ _ Hw pid t H1) as [_ Hty]. specialize (Hty i e H2).
      by rewrite H3 in Hty. }
  pose proof (winv_ends _ _ Hw p HpF Hpos) as He. unfold ends in He.
  apply fmap_Some in He as (x & Hx & [= -> ->]). exists x. split_and!; try done.
  destruct (winv_store _ _ Hw) as (_ & _ & Hwf). by apply (Hwf p x).
Qed.

Lemma holds_pos w pid p :
  holds w pid (PipeRead p) ∨ holds w pid (PipeWrite p) →
  (0 < total (is_r p) (tabs w) + total (is_w p) (tabs w))%nat.
Proof.
  intros [H|H]; [pose proof (proj1 (holds_read w p) (ex_intro _ pid H))
                |pose proof (proj1 (holds_write w p) (ex_intro _ pid H))]; lia.
Qed.

(** C4: Pipe ends are counted exactly.  After any sequence of pipe, pipe2,
    close, dup, dup2, fcntl, open, fork, exec and exit calls of any processes,
    interleaved with reads and writes, a pipe that some descriptor names is
    still allocated and its reader (writer) count is the number of descriptors
    of all processes that name its read (write) end. *)
Theorem pipe_ends_exact s w pid p :
  reachable s w → holds w pid (PipeRead p) ∨ holds w pid (PipeWrite p) →
  ∃ x, pipes (kern w) !! p = Some x ∧
    readers x = total (is_r p) (tabs w) ∧ writers x = total (is_w p) (tabs w).
Proof.
  intros Hr Hh. destruct (held_pipe s w p Hr (holds_pos w pid p Hh)) as (x & ? & _ & ? & ?). eauto.
Qed.

(** C12: End of file and broken pipe are exact.  In every reachable world, a
    read on a pipe that a process holds returns 0 on a non-empty buffer exactly
    when the pipe is empty and no process holds its write end, a read on an
    empty pipe whose write end somebody holds would block, and a write fails
    with EPIPE exactly when no process holds the read end. *)
Theorem pipe_eof_epipe_exact s w pid p :
  reachable s w → holds w pid (PipeRead p) ∨ holds w pid (PipeWrite p) →
  ∃ x, pipes (kern w) !! p = Some x ∧
    (∀ buf, buf ≠ [] →
      (PipeBuffer_read x buf = Some (x, buf, Ok 0%nat) ↔
        pipe_queue x = [] ∧ ¬ ∃ pid', holds w pid' (PipeWrite p)) ∧
      (PipeBuffer_read x buf = Some (x, buf, Err EAGAIN) ↔
        pipe_queue x = [] ∧ ∃ pid', holds w pid' (PipeWrite p))) ∧
    ∀ bs, PipeBuffer_write x bs = Some (x, [], Err EPIPE) ↔ ¬ ∃ pid', holds w pid' (PipeRead p).
Proof.
  intros Hr Hh. destruct (held_pipe s w p Hr (holds_pos w pid p Hh)) as (x & Hx & Hwf & Hrd & Hwr).
  exists x. split; [done|]. pose proof (holds_read w p) as HR. pose proof (holds_write w p) as HW.
  rewrite <- Hrd in HR. rewrite <- Hwr in HW.
  assert (Hq : pipe_queue x = [] ↔ len x = 0%nat).
  { rewrite <- length_pipe_queue. by destruct (pipe_queue x). }
  split.
  - intros buf Hbuf. rewrite HW, Hq. destruct (decide (len x = 0%nat)) as [H0|H0].
    + unfold PipeBuffer_read. rewrite (decide_True (P := len x = 0%nat)) by done.
      case_decide; split; split; intros; try done; try lia.
    + destruct (read_nonempty_ok x buf Hwf H0) as (x' & -> & _).
      destruct (pipe_queue_cons x H0) as (b & bs & ->). destruct buf; [done|].
      cbn. split; split; intros; simplify_eq; tauto.
  - intros bs. rewrite HR. unfold PipeBuffer_write. destruct (decide (readers x = 0%nat)); [split; [lia|done]|].
    split; [|lia]. destruct (write_refines x bs Hwf) as (x' & wk & r & E & _ & Hs).
    unfold PipeBuffer_write in E. rewrite decide_False in E by done. rewrite E.
    intros [= -> -> ->]. unfold bq_write, pipe_abs in Hs. cbn in Hs.
    repeat case_match; simplify_eq/=; by apply Nat.eqb_eq in H.
Qed.
End world.

(** ** A history: a pipe shared by fork *)

(** A kernel whose other subsystems keep no state. *)
Definition no_backend : FdBackend unit :=
  {| pty_master_ref _ s := s; pty_master_unref _ s := s; pty_slave_open _ s := s; pty_slave_close _ s := s;
     tcp_add_ref _ s := s; tcp_close _ s := s; tcp_listener_ref_inc _ s := s; tcp_listener_ref_dec _ s := s;
     unix_stream_close _ s := s; unix_socket_unbind _ s := s; unix_listener_unbind _ s := s;
     epoll_remove_instance _ s := s |}.
#[local] Existing Instance no_backend.

Definition start : kernel unit := mkKernel ∅ ∅ [] tt.
Definition shared_pipe : addr := (create_pipe start).1.1.

(** The tables of the parent that called [pipe] and of the child it forked. *)
Definition parent_table : FdTable := (perform (RPipe 0x1000 true) FdTable_new start).1.
Definition after_pipe : kernel unit := (perform (RPipe 0x1000 true) FdTable_new start).2.

Definition forked : world :=
  mkWorld (<[2 := (FdTable_clone parent_table after_pipe).1]> (<[1 := parent_table]> (<[1 := FdTable_new]> ∅)))
    (FdTable_clone parent_table after_pipe).2.

Lemma forked_reachable : reachable tt forked.
Proof.
  eapply (reach_step tt (mkWorld (<[1 := parent_table]> (<[1 := FdTable_new]> ∅)) after_pipe)).
  - eapply (reach_step tt (mkWorld (<[1 := FdTable_new]> ∅) start)).
    + eapply reach_step; [apply reach_init|]. by apply ws_spawn.
    + by apply (ws_request _ start 1 FdTable_new (RPipe 0x1000 true)).
  - by apply (ws_fork _ after_pipe 1 2 parent_table).
Qed.

Lemma parent_table_read : parent_table !! 3%nat = Some (Some (FileDescriptor_new (PipeRead shared_pipe))).
Proof. reflexivity. Qed.

Lemma forked_holds : holds forked 1 (PipeRead shared_pipe).
Proof.
  exists parent_table, 3%nat, (FileDescriptor_new (PipeRead shared_pipe)). split_and!; [|apply parent_table_read|done].
  cbn [forked tabs]. rewrite lookup_insert_ne by done. apply lookup_insert_eq.
Qed.

Lemma pipe_ends_exact_witness :
  ∃ x, pipes (kern forked) !! shared_pipe = Some x ∧
    readers x = total (is_r shared_pipe) (tabs forked) ∧
    writers x = total (is_w shared_pipe) (tabs forked).
Proof. exact (pipe_ends_exact tt forked 1 shared_pipe forked_reachable (or_introl forked_holds)). Defined.

Lemma pipe_eof_epipe_exact_witness :
  ∃ x, pipes (kern forked) !! shared_pipe = Some x ∧
    ∀ bs, PipeBuffer_write x bs = Some (x, [], Err EPIPE) ↔
      ¬ ∃ pid', holds forked pid' (PipeRead shared_pipe).
Proof.
  destruct (pipe_eof_epipe_exact tt forked 1 shared_pipe forked_reachable (or_introl forked_holds))
    as (x & H1 & _ & H2). by exists x.
Defined.

(** ** The descriptor-table theorems at concrete tables *)

Definition cloexec_table : FdTable :=
  <[4%nat := Some (mkFd (TcpSocket 80) FD_CLOEXEC 0)]> FdTable_new.

Lemma FdTable_dup_at_least_spec_witness :
  ∃ t', (FdTable_dup_at_least 1 3 true FdTable_new start).1.1 = t' ∧
    FdTable_get 3 t' = Some (mkFd (StdIo STDOUT) FD_CLOEXEC 0).
Proof.
  pose proof (FdTable_dup_at_least_spec 1 3 true FdTable_new start eq_refl) as H.
  destruct (FdTable_dup_at_least 1 3 true FdTable_new start) as [[t' k'] [fd|e]] eqn:E.
  - exists t'. split; [done|]. destruct H as (e & He & _ & _ & _ & Hget).
    assert (fd = 3) as -> by (vm_compute in E; congruence). rewrite Hget, decide_True by done.
    vm_compute in He. by simplify_eq.
  - vm_compute in E. discriminate.
Defined.

Lemma FdTable_dup2_spec_witness :
  FdTable_get 1 (FdTable_dup2 4 1 cloexec_table start).1.1 = Some (mkFd (TcpSocket 80) FD_CLOEXEC 0).
Proof.
  pose proof (FdTable_dup2_spec 4 1 cloexec_table start eq_refl) as H.
  destruct (FdTable_dup2 4 1 cloexec_table start) as [[t' k'] [fd|e]] eqn:E.
  - destruct H as (e & He & _ & Hget). cbn [fst]. rewrite Hget, decide_True by done. exact (eq_sym He).
  - vm_compute in E. discriminate.
Defined.

Lemma FdTable_close_cloexec_exact_witness :
  FdTable_get 4 (FdTable_close_cloexec cloexec_table start).1 = None ∧
  FdTable_get 1 (FdTable_close_cloexec cloexec_table start).1 = FdTable_get 1 cloexec_table.
Proof.
  destruct (FdTable_close_cloexec_exact cloexec_table start eq_refl) as [_ H]. by rewrite !H.
Defined.

(** A table with both ends of a pipe: the deferred release drops both counts. *)
Lemma deferred_close_equiv_witness :
  let k := after_pipe in
  let '(t1, es) := FdTable_take_all parent_table in
  Process_close_all_fds parent_table k = (t1, close_extracted_fds es k) ∧ FdTable_open_fd_count t1 = 0%nat ∧
  (λ x, (readers x, writers x)) <$> pipes k !! shared_pipe = Some (1%nat, 1%nat) ∧
  (λ x, (readers x, writers x)) <$> pipes (close_extracted_fds es k) !! shared_pipe = Some (0%nat, 0%nat).
Proof.
  cbv zeta. pose proof (deferred_close_equiv parent_table (after_pipe) eq_refl) as H.
  destruct (FdTable_take_all parent_table) as [t1 es] eqn:E. destruct H as [H1 H2].
  split; [exact H1|]. split; [exact H2|]. split; [vm_compute; reflexivity|].
  replace (close_extracted_fds es (after_pipe)) with (Process_close_all_fds parent_table (after_pipe)).2 by (by rewrite H1).
  vm_compute. reflexivity.
Defined.

Lemma FdTable_set_status_flags_spec_witness :
  ∃ t' sf, FdTable_set_status_flags 0 O_NONBLOCK FdTable_new = (t', Ok tt) ∧
    FdTable_get 0 t' = Some (mkFd (StdIo STDIN) 0 sf) ∧ Z.testbit sf 11 = true.
Proof.
  destruct (FdTable_set_status_flags_spec 0 O_NONBLOCK FdTable_new (FileDescriptor_new (StdIo STDIN)) eq_refl eq_refl)
    as (t' & sf & H1 & H2 & H3); [done|]. exists t', sf. split; [done|].
  split; [by rewrite H2|]. by rewrite H3.
Defined.
