(* ===== verification/Termios.v ===== *)
(** * Terminal attributes (kernel/src/tty/termios.rs)

    The termios record, its flag words at 32 bits and its control characters,
    with the accessors and mode switches of the source. *)

From S2P Require Import Prelude.

Definition NCCS : nat := 32.

Definition INPCK : u32 := 0x10.
Definition ISTRIP : u32 := 0x20.
Definition INLCR : u32 := 0x40.
Definition IGNCR : u32 := 0x80.
Definition ICRNL : u32 := 0x100.
Definition IXON : u32 := 0x400.
Definition IXANY : u32 := 0x800.
Definition IXOFF : u32 := 0x1000.
Definition OPOST : u32 := 0x1.
Definition ONLCR : u32 := 0x4.
Definition ISIG : u32 := 0x1.
Definition ICANON : u32 := 0x2.
Definition ECHO : u32 := 0x8.
Definition ECHOE : u32 := 0x10.
Definition ECHOK : u32 := 0x20.
Definition ECHONL : u32 := 0x40.
Definition IEXTEN : u32 := 0x8000.

Definition VINTR : nat := 0.
Definition VQUIT : nat := 1.
Definition VERASE : nat := 2.
Definition VKILL : nat := 3.
Definition VEOF : nat := 4.
Definition VTIME : nat := 5.
Definition VMIN : nat := 6.
Definition VSTART : nat := 8.
Definition VSTOP : nat := 9.
Definition VSUSP : nat := 10.
Definition VWERASE : nat := 14.
Definition VLNEXT : nat := 15.

Record Termios := mkTermios {
  c_iflag : u32;
  c_oflag : u32;
  c_cflag : u32;
  c_lflag : u32;
  c_line : u8;
  c_cc : list u8;
  c_ispeed : u32;
  c_ospeed : u32;
}.

(** [(word & mask) != 0] *)
Definition flag_set (word mask : u32) : bool := negb (Z.land word mask =? 0).

Definition Termios_default : Termios :=
  let c_cc := replicate NCCS 0 in
  let c_cc := <[VINTR := 0x03]> c_cc in
  let c_cc := <[VQUIT := 0x1C]> c_cc in
  let c_cc := <[VERASE := 0x7F]> c_cc in
  let c_cc := <[VKILL := 0x15]> c_cc in
  let c_cc := <[VEOF := 0x04]> c_cc in
  let c_cc := <[VTIME := 0]> c_cc in
  let c_cc := <[VMIN := 1]> c_cc in
  let c_cc := <[VSUSP := 0x1A]> c_cc in
  let c_cc := <[VSTART := 0x11]> c_cc in
  let c_cc := <[VSTOP := 0x13]> c_cc in
  let c_cc := <[VLNEXT := 0x16]> c_cc in
  let c_cc := <[VWERASE := 0x17]> c_cc in
  {| c_iflag := ICRNL;
     c_oflag := Z.lor OPOST ONLCR;
     c_cflag := 0;
     c_lflag := Z.lor (Z.lor (Z.lor (Z.lor (Z.lor ISIG ICANON) ECHO) ECHOE) ECHOK) IEXTEN;
     c_line := 0;
     c_cc := c_cc;
     c_ispeed := 38400;
     c_ospeed := 38400 |}.

Definition set_lflag (l : u32) (t : Termios) : Termios :=
  mkTermios (c_iflag t) (c_oflag t) (c_cflag t) l (c_line t) (c_cc t) (c_ispeed t) (c_ospeed t).

Definition is_canonical (t : Termios) : bool := flag_set (c_lflag t) ICANON.

Definition set_canonical (enable : bool) (t : Termios) : Termios :=
  if enable then set_lflag (Z.lor (c_lflag t) ICANON) t
  else set_lflag (Z.land (c_lflag t) (wnot 32 ICANON)) t.

Definition is_echo (t : Termios) : bool := flag_set (c_lflag t) ECHO.
Definition is_sig (t : Termios) : bool := flag_set (c_lflag t) ISIG.
Definition is_opost (t : Termios) : bool := flag_set (c_oflag t) OPOST.
Definition is_onlcr (t : Termios) : bool := flag_set (c_oflag t) ONLCR.
Definition is_icrnl (t : Termios) : bool := flag_set (c_iflag t) ICRNL.

(** [self.c_cc[i]]: the array has [NCCS] entries and every index the source
    uses is a constant below it. *)
Definition cc (i : nat) (t : Termios) : u8 := nth i (c_cc t) 0.

Definition intr_char : Termios → u8 := cc VINTR.
Definition quit_char : Termios → u8 := cc VQUIT.
Definition susp_char : Termios → u8 := cc VSUSP.
Definition eof_char : Termios → u8 := cc VEOF.
Definition erase_char : Termios → u8 := cc VERASE.
Definition kill_char : Termios → u8 := cc VKILL.
Definition vmin : Termios → u8 := cc VMIN.
Definition vtime : Termios → u8 := cc VTIME.

Definition raw_lmask : u32 :=
  Z.lor (Z.lor (Z.lor (Z.lor (Z.lor (Z.lor ICANON ECHO) ECHOE) ECHOK) ECHONL) ISIG) IEXTEN.
Definition raw_imask : u32 :=
  Z.lor (Z.lor (Z.lor (Z.lor (Z.lor (Z.lor (Z.lor INPCK ISTRIP) INLCR) IGNCR) ICRNL) IXON) IXANY)
    IXOFF.

Definition set_raw (t : Termios) : Termios :=
  {| c_iflag := Z.land (c_iflag t) (wnot 32 raw_imask);
     c_oflag := c_oflag t;
     c_cflag := c_cflag t;
     c_lflag := Z.land (c_lflag t) (wnot 32 raw_lmask);
     c_line := c_line t;
     c_cc := <[VTIME := 0]> (<[VMIN := 1]> (c_cc t));
     c_ispeed := c_ispeed t;
     c_ospeed := c_ospeed t |}.

Definition set_cooked (t : Termios) : Termios := Termios_default.

(** ** Facts *)

Definition termios_wf (t : Termios) : Prop :=
  length (c_cc t) = NCCS ∧ Forall (in_width 8) (c_cc t) ∧
  in_width 32 (c_iflag t) ∧ in_width 32 (c_oflag t) ∧ in_width 32 (c_lflag t).

Lemma termios_wf_default : termios_wf Termios_default.
Proof.
  split; [done|]. split; [|by vm_compute].
  repeat (constructor; [by vm_compute|]). constructor.
Qed.

Lemma flag_set_land_wnot w m m' :
  in_width 32 m → Z.land m' m = m' → flag_set (Z.land w (wnot 32 m)) m' = false.
Proof.
  intros Hm Hs. unfold flag_set. apply negb_false_iff, Z.eqb_eq, Z.bits_inj'. intros n Hn.
  rewrite !Z.land_spec, wnot_testbit, Z.bits_0 by (done || lia).
  rewrite <- Hs, Z.land_spec. by destruct (Z.testbit m n), (bool_decide _), (Z.testbit w n),
    (Z.testbit m' n).
Qed.

Lemma flag_set_lor w m : m ≠ 0 → flag_set (Z.lor w m) m = true.
Proof.
  intros Hm. unfold flag_set. apply negb_true_iff, Z.eqb_neq.
  replace (Z.land (Z.lor w m) m) with m; [done|].
  apply Z.bits_inj'. intros n _. rewrite Z.land_spec, Z.lor_spec.
  by destruct (Z.testbit w n), (Z.testbit m n).
Qed.
