(* ===== verification/LineDisc.v ===== *)
(** * TTY line discipline (kernel/src/tty/line_discipline.rs)

    Input characters are edited into lines (canonical mode) or queued as they
    come (raw mode), signal characters are turned into signals, and characters
    are echoed through a callback.  The callback [echo_fn] acts on a state [A]
    of its caller, which every operation threads.  Byte and [usize] additions
    wrap, as in the release profile the kernel is built with. *)

From S2P Require Import Prelude Termios.

Definition LD_SIGINT : u32 := 2.
Definition LD_SIGQUIT : u32 := 3.
Definition LD_SIGTSTP : u32 := 20.
Definition MAX_CANON : nat := Z.to_nat 4096.
#[global] Arguments MAX_CANON : simpl never.
Definition EOF_MARKER : i32 := -1.

Definition NL : u8 := 10.
Definition CR : u8 := 13.
Definition TAB : u8 := 9.
Definition SP : u8 := 32.
Definition BS : u8 := 8.
Definition CARET : u8 := 94.

Record LineDiscipline := mkLD {
  ld_termios : Termios;
  line_buffer : list u8;
  cooked_queue : list u8;
  raw_queue : list u8;
  column : u64;
}.

Definition LineDiscipline_with_termios (t : Termios) : LineDiscipline := mkLD t [] [] [] 0.
Definition LineDiscipline_new : LineDiscipline := LineDiscipline_with_termios Termios_default.

Definition LineDiscipline_set_termios (t : Termios) (ld : LineDiscipline) : LineDiscipline :=
  mkLD t (line_buffer ld) (cooked_queue ld) (raw_queue ld) (column ld).

Definition set_column (c : u64) (ld : LineDiscipline) : LineDiscipline :=
  mkLD (ld_termios ld) (line_buffer ld) (cooked_queue ld) (raw_queue ld) c.
Definition set_line (l : list u8) (ld : LineDiscipline) : LineDiscipline :=
  mkLD (ld_termios ld) l (cooked_queue ld) (raw_queue ld) (column ld).
Definition set_cooked_queue (q : list u8) (ld : LineDiscipline) : LineDiscipline :=
  mkLD (ld_termios ld) (line_buffer ld) q (raw_queue ld) (column ld).
Definition set_raw_queue (q : list u8) (ld : LineDiscipline) : LineDiscipline :=
  mkLD (ld_termios ld) (line_buffer ld) (cooked_queue ld) q (column ld).

Definition lflag (m : u32) (ld : LineDiscipline) : bool := flag_set (c_lflag (ld_termios ld)) m.

(** [(self.column + 8) & !7] *)
Definition next_tab (c : u64) : u64 := Z.land (wrap 64 (c + 8)) (wnot 64 7).

(** [saturating_sub] *)
Definition sat_sub (c n : u64) : u64 := (c - n) `max` 0.

Section ldisc.
Context {A : Type} (echo_fn : u8 → A → A).
Implicit Types (ld : LineDiscipline) (a : A) (c : u8).

Definition echo_all (bs : list u8) a : A := foldl (λ a b, echo_fn b a) a bs.

Definition echo_control_char c ld a : LineDiscipline * A :=
  if lflag ECHO ld then
    (set_column (wrap 64 (column ld + 2)) ld, echo_all [CARET; wrap 8 (c + 0x40)] a)
  else (ld, a).

(** [for byte in self.line_buffer.drain(..) { self.cooked_queue.push_back(byte) }] *)
Definition complete_line ld : LineDiscipline :=
  set_line [] (set_cooked_queue (cooked_queue ld ++ line_buffer ld) ld).

Definition handle_erase ld a : LineDiscipline * A :=
  match last (line_buffer ld) with
  | None => (ld, a)
  | Some deleted =>
      let ld := set_line (removelast (line_buffer ld)) ld in
      if lflag ECHOE ld then
        if deleted <? 0x20 then
          (set_column (sat_sub (column ld) 2) ld, echo_all [BS; SP; BS; BS; SP; BS] a)
        else if deleted =? TAB then
          (set_column (sat_sub (column ld) 1) ld, echo_all [BS; SP; BS] a)
        else
          (set_column (sat_sub (column ld) 1) ld, echo_all [BS; SP; BS] a)
      else (ld, a)
  end.

(** [while cond(self.line_buffer) { self.handle_erase(echo_fn) }], with as much
    fuel as the line has characters: each turn removes one. *)
Fixpoint erase_while (cond : list u8 → bool) (fuel : nat) ld a : LineDiscipline * A :=
  match fuel with
  | O => (ld, a)
  | S fuel =>
      if cond (line_buffer ld) then
        let '(ld, a) := handle_erase ld a in erase_while cond fuel ld a
      else (ld, a)
  end.

Definition non_empty (l : list u8) : bool := match l with [] => false | _ => true end.

Definition handle_kill ld a : LineDiscipline * A :=
  match line_buffer ld with
  | [] => (ld, a)
  | _ =>
      let '(ld, a) :=
        if lflag ECHOK ld then (set_column 0 ld, echo_fn NL a)
        else if lflag ECHOE ld then erase_while non_empty (length (line_buffer ld)) ld a
        else (ld, a) in
      (set_line [] ld, a)
  end.

Definition is_blank c : bool := (c =? SP) || (c =? TAB).
Definition ends_blank (l : list u8) : bool :=
  match last l with Some c => is_blank c | None => false end.
Definition ends_nonblank (l : list u8) : bool :=
  match last l with Some c => negb (c =? SP) && negb (c =? TAB) | None => false end.

Definition handle_word_erase ld a : LineDiscipline * A :=
  let '(ld, a) := erase_while ends_blank (length (line_buffer ld)) ld a in
  erase_while ends_nonblank (length (line_buffer ld)) ld a.

Definition handle_eof ld a : LineDiscipline * A :=
  let '(ld, a) := if lflag ECHO ld then echo_control_char 0x04 ld a else (ld, a) in
  match line_buffer ld with
  | [] => (set_cooked_queue (cooked_queue ld ++ [0xFF]) ld, a)
  | _ => (complete_line ld, a)
  end.

Definition process_canonical c ld a : LineDiscipline * A :=
  if (c =? erase_char (ld_termios ld)) || (c =? 0x08) then handle_erase ld a
  else if c =? kill_char (ld_termios ld) then handle_kill ld a
  else if c =? cc VWERASE (ld_termios ld) then handle_word_erase ld a
  else if c =? eof_char (ld_termios ld) then handle_eof ld a
  else if c =? NL then
    let ld := if decide (length (line_buffer ld) < MAX_CANON)%nat
              then set_line (line_buffer ld ++ [c]) ld else ld in
    let ld := complete_line ld in
    let a := if lflag ECHO ld then echo_fn NL a else a in
    (set_column 0 ld, a)
  else if decide (length (line_buffer ld) < MAX_CANON)%nat then
    let ld := set_line (line_buffer ld ++ [c]) ld in
    if lflag ECHO ld then
      if (c <? 0x20) && negb (c =? TAB) then echo_control_char c ld a
      else
        (set_column (if c =? TAB then next_tab (column ld) else wrap 64 (column ld + 1)) ld,
         echo_fn c a)
    else (ld, a)
  else (ld, a).

Definition process_raw c ld a : LineDiscipline * A :=
  let ld := set_raw_queue (raw_queue ld ++ [c]) ld in
  if lflag ECHO ld then
    if (c <? 0x20) && negb (c =? NL) && negb (c =? CR) && negb (c =? TAB) then
      echo_control_char c ld a
    else
      (set_column (if (c =? NL) || (c =? CR) then 0
                   else if c =? TAB then next_tab (column ld)
                   else wrap 64 (column ld + 1)) ld, echo_fn c a)
  else (ld, a).

(** The echo of a signal character: [^X], a newline, column 0. *)
Definition echo_signal c ld a : LineDiscipline * A :=
  let '(ld, a) := echo_control_char c ld a in
  (set_column 0 ld, echo_fn NL a).

Definition input_char c ld a : LineDiscipline * A * option u32 :=
  let c := if flag_set (c_iflag (ld_termios ld)) ICRNL && (c =? CR) then NL else c in
  let t := ld_termios ld in
  if lflag ISIG ld && (c =? intr_char t) then (echo_signal c ld a, Some LD_SIGINT)
  else if lflag ISIG ld && (c =? quit_char t) then (echo_signal c ld a, Some LD_SIGQUIT)
  else if lflag ISIG ld && (c =? susp_char t) then (echo_signal c ld a, Some LD_SIGTSTP)
  else if is_canonical t then (process_canonical c ld a, None)
  else (process_raw c ld a, None).
End ldisc.

(** The copy loop of [read]: bytes of [queue] into the slots of [buf]. *)
Fixpoint ld_read_loop (canon : bool) (queue buf : list u8) (count : nat) {struct buf}
    : list u8 * list u8 * result nat i32 :=
  match buf with
  | [] => (queue, buf, Ok count)
  | _ :: rest =>
      match queue with
      | [] => (queue, buf, Ok count)
      | c :: queue =>
          if canon && (c =? 0xFF) then (queue, buf, Err EOF_MARKER)
          else if canon && (c =? NL) then (queue, c :: rest, Ok (count + 1)%nat)
          else
            let '(queue, rest, r) := ld_read_loop canon queue rest (count + 1) in
            (queue, c :: rest, r)
      end
  end.

Definition LineDiscipline_read (buf : list u8) (ld : LineDiscipline)
    : LineDiscipline * list u8 * result nat i32 :=
  match buf with
  | [] => (ld, buf, Ok 0%nat)
  | _ =>
      let canon := is_canonical (ld_termios ld) in
      let queue := if canon then cooked_queue ld else raw_queue ld in
      let put q := if canon then set_cooked_queue q ld else set_raw_queue q ld in
      match queue with
      | [] => (ld, buf, Ok 0%nat)
      | front :: tail =>
          if canon && (front =? 0xFF) then (put tail, buf, Err EOF_MARKER)
          else
            let '(q, buf, r) := ld_read_loop canon queue buf 0 in
            (put q, buf, r)
      end
  end.

Definition LineDiscipline_has_data (ld : LineDiscipline) : bool :=
  if is_canonical (ld_termios ld) then non_empty (cooked_queue ld) else non_empty (raw_queue ld).

Definition LineDiscipline_flush_input (ld : LineDiscipline) : LineDiscipline :=
  mkLD (ld_termios ld) [] [] [] 0.

Definition LineDiscipline_bytes_available (ld : LineDiscipline) : nat :=
  if is_canonical (ld_termios ld) then length (cooked_queue ld) else length (raw_queue ld).

(** ** The line editor the discipline implements *)

Fixpoint drop_while (p : u8 → bool) (l : list u8) : list u8 :=
  match l with
  | [] => []
  | c :: l' => if p c then drop_while p l' else l
  end.

(** Drop the longest suffix of bytes satisfying [p]. *)
Definition drop_end (p : u8 → bool) (l : list u8) : list u8 := reverse (drop_while p (reverse l)).

Definition drop_word (l : list u8) : list u8 :=
  drop_end (λ c, negb (is_blank c)) (drop_end is_blank l).

(** What the EOF character delivers. *)
Definition eof_bytes (line : list u8) : list u8 := match line with [] => [0xFF] | _ => line end.

(** A character in canonical mode: the line being edited and the bytes
    delivered to readers.  A line ended by EOF is delivered as it is; EOF on an
    empty line is the byte 0xFF. *)
Definition edit_line (t : Termios) (c : u8) (line out : list u8) : list u8 * list u8 :=
  if (c =? erase_char t) || (c =? BS) then (removelast line, out)
  else if c =? kill_char t then ([], out)
  else if c =? cc VWERASE t then (drop_word line, out)
  else if c =? eof_char t then ([], out ++ eof_bytes line)
  else
    let line' := if decide (length line < MAX_CANON)%nat then line ++ [c] else line in
    if c =? NL then ([], out ++ line') else (line', out).

(** A typed character: carriage return may become newline, and a signal
    character does not edit. *)
Definition edit (t : Termios) (c : u8) (st : list u8 * list u8) : list u8 * list u8 :=
  let c := if is_icrnl t && (c =? CR) then NL else c in
  if is_sig t && ((c =? intr_char t) || (c =? quit_char t) || (c =? susp_char t)) then st
  else edit_line t c st.1 st.2.

(** [ld'] is [ld] with another line, another cooked queue and any column. *)
Definition edited (ld ld' : LineDiscipline) (line out : list u8) : Prop :=
  ld_termios ld' = ld_termios ld ∧ raw_queue ld' = raw_queue ld ∧
  line_buffer ld' = line ∧ cooked_queue ld' = out.

Lemma drop_end_snoc p l c : drop_end p (l ++ [c]) = if p c then drop_end p l else l ++ [c].
Proof.
  unfold drop_end. rewrite reverse_snoc. cbn [drop_while]. destruct (p c); [done|].
  by rewrite reverse_cons, reverse_involutive.
Qed.

Lemma drop_end_all l : drop_end (λ _, true) l = [].
Proof. unfold drop_end. induction (reverse l); [done|]. cbn. done. Qed.

Lemma drop_end_length p l : (length (drop_end p l) ≤ length l)%nat.
Proof.
  unfold drop_end. rewrite length_reverse, <- (length_reverse l).
  induction (reverse l) as [|c l' IH]; cbn; [done|]. case_match; cbn; lia.
Qed.

Lemma removelast_snoc {B} (l : list B) x : removelast (l ++ [x]) = l.
Proof. rewrite removelast_app by done. cbn. apply app_nil_r. Qed.

Section editing.
Context {A : Type} (echo_fn : u8 → A → A).
Implicit Types (ld : LineDiscipline) (a : A) (c : u8).

Lemma edited_refl ld : edited ld ld (line_buffer ld) (cooked_queue ld).
Proof. by split_and!. Qed.

Lemma handle_erase_edited ld a :
  edited ld (handle_erase echo_fn ld a).1 (removelast (line_buffer ld)) (cooked_queue ld).
Proof.
  unfold handle_erase. destruct (last (line_buffer ld)) as [d|] eqn:Hl.
  - repeat case_match; by split_and!.
  - apply last_None in Hl. rewrite Hl. split_and!; try done.
Qed.

(** The erase loops reach the end of the condition within their fuel. *)
Lemma erase_while_edited (cond : list u8 → bool) (p : u8 → bool) n ld a :
  (∀ l, cond l = match last l with Some c => p c | None => false end) →
  (length (line_buffer ld) ≤ n)%nat →
  edited ld (erase_while echo_fn cond n ld a).1 (drop_end p (line_buffer ld)) (cooked_queue ld) ∧
  cond (drop_end p (line_buffer ld)) = false.
Proof.
  intros Hc. revert ld a. induction n as [|n IH]; intros ld a Hn; cbn [erase_while].
  { destruct (line_buffer ld) eqn:E; [|cbn in Hn; lia]. rewrite Hc. split; [|done]. by split_and!. }
  destruct (line_buffer ld) as [|c l _] eqn:E using rev_ind.
  { rewrite !Hc. split; [|done]. by split_and!. }
  rewrite length_app in Hn. cbn in Hn.
  assert (Hcond : cond (l ++ [c]) = p c) by (by rewrite Hc, last_snoc).
  rewrite Hcond, drop_end_snoc. destruct (p c) eqn:Hp.
  - pose proof (handle_erase_edited ld a) as (Ht & Hr & Hl & Hq).
    destruct (handle_erase echo_fn ld a) as [ld1 a1]. cbn in *.
    rewrite E, removelast_snoc in Hl.
    destruct (IH ld1 a1) as [(Ht' & Hr' & Hl' & Hq') Hend]; [rewrite Hl; lia|].
    rewrite Hl in *. split; [|done]. split_and!; congruence.
  - rewrite Hc, last_snoc. split; [|done]. by split_and!.
Qed.

Lemma handle_kill_edited ld a :
  edited ld (handle_kill echo_fn ld a).1 [] (cooked_queue ld).
Proof.
  unfold handle_kill. destruct (line_buffer ld) as [|c l] eqn:E; [by split_and!|].
  destruct (lflag ECHOK ld); [by split_and!|]. destruct (lflag ECHOE ld); [|by split_and!].
  pose proof (erase_while_edited non_empty (λ _, true) (length (c :: l)) ld a) as He.
  destruct (erase_while _ _ _ _ _) as [ld1 a1]. rewrite E in He.
  destruct He as [(? & ? & ? & ?) _]; [|done|by split_and!].
  intros l'. destruct l' as [|x l' _] using rev_ind; [done|]. rewrite last_snoc.
  by destruct l'.
Qed.

Lemma handle_word_erase_edited ld a :
  edited ld (handle_word_erase echo_fn ld a).1 (drop_word (line_buffer ld)) (cooked_queue ld).
Proof.
  unfold handle_word_erase, drop_word.
  pose proof (erase_while_edited ends_blank is_blank (length (line_buffer ld)) ld a) as He.
  destruct (erase_while _ ends_blank _ _ _) as [ld1 a1].
  destruct He as [(Ht & Hr & Hl & Hq) _]; [done..|]. cbn in *.
  destruct (erase_while_edited ends_nonblank (λ c, negb (is_blank c)) (length (line_buffer ld1))
    ld1 a1) as [(? & ? & Hl1 & ?) _]; [|done|].
  - intros l. unfold ends_nonblank, is_blank. destruct (last l); [|done]. by rewrite negb_orb.
  - rewrite Hl in Hl1. split_and!; congruence.
Qed.

Lemma echo_control_char_edited c ld a :
  edited ld (echo_control_char echo_fn c ld a).1 (line_buffer ld) (cooked_queue ld).
Proof. unfold echo_control_char. case_match; by split_and!. Qed.

Lemma handle_eof_edited ld a :
  edited ld (handle_eof echo_fn ld a).1 []
    (cooked_queue ld ++ eof_bytes (line_buffer ld)).
Proof.
  unfold handle_eof.
  assert (He : edited ld (if lflag ECHO ld then echo_control_char echo_fn 0x04 ld a
    else (ld, a)).1 (line_buffer ld) (cooked_queue ld))
    by (case_match; [apply echo_control_char_edited|apply edited_refl]).
  destruct (if lflag ECHO ld then _ else _) as [ld1 a1]. destruct He as (Ht & Hr & Hl & Hq).
  cbn in *. rewrite <- Hl. destruct (line_buffer ld1) eqn:E; split_and!; cbn; rewrite ?E; congruence.
Qed.
End editing.

Section sessions.
Context {A : Type} (echo_fn : u8 → A → A).
Implicit Types (ld : LineDiscipline) (a : A) (c : u8) (cs : list u8).

Lemma echo_signal_edited c ld a :
  edited ld (echo_signal echo_fn c ld a).1 (line_buffer ld) (cooked_queue ld).
Proof.
  unfold echo_signal. pose proof (echo_control_char_edited echo_fn c ld a) as (?&?&?&?).
  destruct (echo_control_char _ _ _ _). by split_and!.
Qed.

Lemma process_canonical_edited c ld a :
  let '(line, out) := edit_line (ld_termios ld) c (line_buffer ld) (cooked_queue ld) in
  edited ld (process_canonical echo_fn c ld a).1 line out.
Proof.
  unfold process_canonical, edit_line. change 0x08 with BS.
  destruct (_ || _); [apply handle_erase_edited|].
  destruct (c =? kill_char _); [apply handle_kill_edited|].
  destruct (c =? cc VWERASE _); [apply handle_word_erase_edited|].
  destruct (c =? eof_char _); [apply handle_eof_edited|].
  destruct (c =? NL); [case_decide; by split_and!|].
  case_decide; [|by split_and!]. case_match; [|by split_and!].
  destruct (_ && _); [|by split_and!].
  exact (echo_control_char_edited echo_fn c (set_line (line_buffer ld ++ [c]) ld) a).
Qed.

Lemma input_char_edited c ld a :
  is_canonical (ld_termios ld) = true →
  let '(line, out) := edit (ld_termios ld) c (line_buffer ld, cooked_queue ld) in
  edited ld (input_char echo_fn c ld a).1.1 line out.
Proof.
  intros Hcan. unfold input_char, edit, is_icrnl, is_sig, lflag. rewrite Hcan.
  set (c' := if _ && (c =? CR) then NL else c). clearbody c'.
  destruct (flag_set (c_lflag (ld_termios ld)) ISIG); cbn [andb fst snd]; [|exact (process_canonical_edited c' ld a)].
  destruct (c' =? intr_char _); [apply echo_signal_edited|].
  destruct (c' =? quit_char _); [apply echo_signal_edited|].
  destruct (c' =? susp_char _); [apply echo_signal_edited|].
  exact (process_canonical_edited c' ld a).
Qed.

(** Typing a list of characters. *)
Definition type_all cs ld a : LineDiscipline * A :=
  foldl (λ '(ld, a) c, (input_char echo_fn c ld a).1) (ld, a) cs.

Definition edit_all (t : Termios) cs (st : list u8 * list u8) : list u8 * list u8 :=
  foldl (λ st c, edit t c st) st cs.

Lemma type_all_cons c cs ld a :
  type_all (c :: cs) ld a =
    type_all cs (input_char echo_fn c ld a).1.1 (input_char echo_fn c ld a).1.2.
Proof. unfold type_all. cbn [foldl]. by destruct (input_char echo_fn c ld a).1. Qed.

Lemma edit_all_cons t c cs st : edit_all t (c :: cs) st = edit_all t cs (edit t c st).
Proof. reflexivity. Qed.

Lemma type_all_edited cs ld a :
  is_canonical (ld_termios ld) = true →
  let '(line, out) := edit_all (ld_termios ld) cs (line_buffer ld, cooked_queue ld) in
  edited ld (type_all cs ld a).1 line out.
Proof.
  revert ld a. induction cs as [|c cs IH]; intros ld a Hc; [apply edited_refl|].
  rewrite type_all_cons, edit_all_cons. pose proof (input_char_edited c ld a Hc) as He.
  destruct (edit _ _ _) as [line out]. destruct (input_char _ _ _ _) as [[ld1 a1] sig].
  cbn in *. destruct He as (Ht & Hr & <- & <-).
  specialize (IH ld1 a1). rewrite Ht in IH. specialize (IH Hc).
  destruct (edit_all _ _ _). destruct IH as (? & ? & ? & ?). split_and!; congruence.
Qed.

Lemma edit_line_bound t c line out :
  (length line ≤ MAX_CANON)%nat → (length (edit t c (line, out)).1 ≤ MAX_CANON)%nat.
Proof.
  intros Hl. unfold edit, edit_line. set (c' := if _ && (c =? CR) then NL else c). clearbody c'.
  repeat (case_match; cbn [fst length]; try lia); rewrite ?length_app; cbn; try lia.
  - destruct line as [|x l _] using rev_ind; [done|]. rewrite removelast_snoc.
    rewrite length_app in Hl. lia.
  - unfold drop_word. etrans; [apply drop_end_length|]. etrans; [apply drop_end_length|done].
Qed.

Lemma edit_all_bound t cs (st : list u8 * list u8) :
  (length st.1 ≤ MAX_CANON)%nat → (length (edit_all t cs st).1 ≤ MAX_CANON)%nat.
Proof.
  revert st. induction cs as [|c cs IH]; intros [line out] Hl; [done|].
  rewrite edit_all_cons. apply IH. by apply edit_line_bound.
Qed.
End sessions.

(** C17: in canonical mode the discipline is the line editor [edit], whatever
    the echo settings and the echo callback are: after any typed characters
    the line being edited and the bytes handed to readers are the editor's
    (its erase loops included), raw queue and settings are untouched, and the
    line never exceeds MAX_CANON. *)
Theorem canonical_mode_refines_editor {A} (echo_fn : u8 → A → A) t cs a :
  is_canonical t = true →
  let ld := (type_all echo_fn cs (LineDiscipline_with_termios t) a).1 in
  let '(line, out) := edit_all t cs ([], []) in
  line_buffer ld = line ∧ cooked_queue ld = out ∧ raw_queue ld = [] ∧ ld_termios ld = t ∧
  (length (line_buffer ld) ≤ MAX_CANON)%nat.
Proof.
  intros Hc. pose proof (type_all_edited echo_fn cs (LineDiscipline_with_termios t) a Hc) as He.
  pose proof (edit_all_bound t cs ([], []) (Nat.le_0_l _)) as Hb.
  cbn [ld_termios line_buffer cooked_queue LineDiscipline_with_termios] in He. cbn zeta.
  destruct (edit_all t cs ([], [])) as [line out]. destruct He as (? & ? & -> & ?). by split_and!.
Qed.

(** "hi", word erase, "ok!", DEL, newline. *)
Lemma canonical_mode_refines_editor_witness :
  let ld := (type_all (λ b l, l ++ [b]) [104; 105; 0x17; 111; 107; 33; 0x7F; 13]
    (LineDiscipline_with_termios Termios_default) []).1 in
  line_buffer ld = [] ∧ cooked_queue ld = [111; 107; 10].
Proof.
  pose proof (canonical_mode_refines_editor (λ b l, l ++ [b]) Termios_default
    [104; 105; 0x17; 111; 107; 33; 0x7F; 13] [] eq_refl) as H.
  vm_compute in H. destruct H as (H1 & H2 & _). vm_compute. by split.
Defined.

(** ** Reading *)

(** An ordinary byte of a line: neither newline nor the EOF marker. *)
Definition ordinary (c : u8) : bool := negb (c =? NL) && negb (c =? 0xFF).

Lemma ld_read_loop_ordinary canon l q buf count :
  Forall (λ c, canon = true → ordinary c = true) l → (length buf ≤ length l)%nat →
  ld_read_loop canon (l ++ q) buf count =
    (drop (length buf) (l ++ q), take (length buf) l, Ok (count + length buf)%nat).
Proof.
  intros Hl. revert buf count. induction Hl as [|c l Hc Hl IH]; intros [|b buf] count Hn;
    cbn [length drop take app ld_read_loop] in *; try (by rewrite Nat.add_0_r); [lia|].
  rewrite IH by lia. replace (canon && (c =? 0xFF)) with false; [replace (canon && (c =? NL)) with false|].
  - by rewrite <- Nat.add_assoc.
  - destruct canon; [|done]. specialize (Hc eq_refl). unfold ordinary in Hc.
    by destruct (c =? NL).
  - destruct canon; [|done]. specialize (Hc eq_refl). unfold ordinary in Hc.
    by destruct (c =? 0xFF), (c =? NL).
Qed.

Lemma ld_read_loop_app l q buf count :
  Forall (λ c, ordinary c = true) l → (length l ≤ length buf)%nat →
  ld_read_loop true (l ++ q) buf count =
    let '(q', rest, r) := ld_read_loop true q (drop (length l) buf) (count + length l) in
    (q', l ++ rest, r).
Proof.
  intros Hl. revert buf count. induction Hl as [|c l Hc Hl IH]; intros buf count Hn.
  { cbn. rewrite Nat.add_0_r. by destruct (ld_read_loop _ _ _ _) as [[??]?]. }
  destruct buf as [|b buf]; cbn [length] in Hn; [lia|].
  cbn [length drop app ld_read_loop]. unfold ordinary in Hc.
  destruct (c =? NL), (c =? 0xFF); try done. cbn [andb]. rewrite IH by lia.
  replace (count + 1 + length l)%nat with (count + S (length l))%nat by lia.
  by destruct (ld_read_loop _ _ _ _) as [[??]?].
Qed.

(** a canonical read delivers exactly the front of the first pending line,
    newline included, never a byte of the next one, and leaves the rest
    queued. *)
Theorem canonical_read_line ld l q buf :
  is_canonical (ld_termios ld) = true → cooked_queue ld = l ++ NL :: q →
  Forall (λ c, ordinary c = true) l → buf ≠ [] →
  let n := (length buf `min` (length l + 1))%nat in
  LineDiscipline_read buf ld =
    (set_cooked_queue (drop n (cooked_queue ld)) ld, take n (l ++ [NL]) ++ drop n buf, Ok n).
Proof.
  intros Hcan Hq Hl Hb. cbn zeta. unfold LineDiscipline_read. rewrite Hcan, Hq.
  destruct buf as [|b buf]; [done|]. clear Hb. set (bf := b :: buf). clearbody bf.
  assert (Hfront : ∃ f tl, l ++ NL :: q = f :: tl ∧ (f =? 0xFF) = false).
  { destruct l as [|c l]; [by exists NL, q|]. exists c, (l ++ NL :: q). split; [done|].
    apply Forall_cons in Hl as [Hc _]. unfold ordinary in Hc. by destruct (c =? 0xFF), (c =? NL). }
  destruct Hfront as (f & tl & Hf & Hff). rewrite Hf, Hff, <- Hf. cbn [andb].
  destruct (decide (length bf ≤ length l)%nat) as [Hs|Hs].
  - rewrite ld_read_loop_ordinary by (try done; by eapply Forall_impl).
    rewrite Nat.min_l by lia. rewrite (drop_ge bf), app_nil_r by lia. by rewrite take_app_le by lia.
  - rewrite ld_read_loop_app by (done || lia). rewrite Nat.min_r by lia.
    destruct (drop (length l) bf) as [|b' rest] eqn:Hd.
    { apply (f_equal length) in Hd. rewrite length_drop in Hd. cbn in Hd. lia. }
    cbn [ld_read_loop andb]. change (NL =? 0xFF) with false. change (NL =? NL) with true.
    cbn [andb]. assert (Hrest : drop (length l + 1) bf = rest)
      by (by rewrite <- drop_drop, Hd). rewrite Hrest.
    assert (Hdq : drop (length l + 1) (l ++ NL :: q) = q)
      by (by rewrite <- drop_drop, drop_app_length). rewrite Hdq.
    rewrite take_ge by (rewrite length_app; cbn; lia). by rewrite <- app_assoc.
Qed.

Lemma canonical_read_line_witness :
  LineDiscipline_read [0; 0; 0; 0] (mkLD Termios_default [] [111; 107; 10; 120; 10] [] 0) =
    (mkLD Termios_default [] [120; 10] [] 0, [111; 107; 10; 0], Ok 3%nat).
Proof.
  apply (canonical_read_line (mkLD Termios_default [] [111; 107; 10; 120; 10] [] 0)
    [111; 107] [120; 10] [0; 0; 0; 0]); try reflexivity; [|discriminate].
  repeat constructor.
Defined.

(** bytes a canonical read has already taken when it meets the EOF marker
    are lost: the read reports EOF, and the bytes before the marker are neither
    counted nor left in the queue.  Typing text, EOF, EOF puts the queue in
    this state. *)
Theorem canonical_read_eof_drops ld l q buf :
  is_canonical (ld_termios ld) = true → cooked_queue ld = l ++ 0xFF :: q →
  Forall (λ c, ordinary c = true) l → (length l < length buf)%nat →
  LineDiscipline_read buf ld =
    (set_cooked_queue q ld, l ++ drop (length l) buf, Err EOF_MARKER).
Proof.
  intros Hcan Hq Hl Hb. unfold LineDiscipline_read. rewrite Hcan, Hq.
  destruct buf as [|b buf]; [cbn in Hb; lia|]. set (bf := b :: buf) in *. clearbody bf.
  destruct l as [|c l]; [done|].
  assert (Hff : (c =? 0xFF) = false).
  { apply Forall_cons in Hl as [Hc _]. unfold ordinary in Hc. by destruct (c =? 0xFF), (c =? NL). }
  cbn [app]. rewrite Hff. cbn [andb]. change (c :: l ++ 0xFF :: q) with ((c :: l) ++ 0xFF :: q).
  rewrite ld_read_loop_app by (done || lia).
  destruct (drop (length (c :: l)) bf) as [|b' rest] eqn:Hd; [|done].
  apply (f_equal length) in Hd. rewrite length_drop in Hd. cbn in *. lia.
Qed.

Lemma canonical_read_eof_drops_witness :
  let ld := (type_all (λ _ a, a) [97; 4; 4] LineDiscipline_new ()).1 in
  cooked_queue ld = [97; 0xFF] ∧
  LineDiscipline_read [0; 0] ld = (set_cooked_queue [] ld, [97; 0], Err EOF_MARKER).
Proof.
  cbn zeta. split; [by vm_compute|].
  apply (canonical_read_eof_drops (type_all (λ _ a, a) [97; 4; 4] LineDiscipline_new ()).1 [97] []).
  - by vm_compute.
  - by vm_compute.
  - repeat constructor.
  - cbn. lia.
Defined.

(** ** Raw mode *)

Lemma set_raw_flags t :
  is_canonical (set_raw t) = false ∧ is_sig (set_raw t) = false ∧ is_echo (set_raw t) = false ∧
  is_icrnl (set_raw t) = false.
Proof.
  split_and!; unfold is_canonical, is_sig, is_echo, is_icrnl; cbn [set_raw c_lflag c_iflag];
    apply flag_set_land_wnot; (split; by vm_compute) || by vm_compute.
Qed.

Lemma type_all_raw {A} (echo_fn : u8 → A → A) cs ld a :
  is_canonical (ld_termios ld) = false → is_sig (ld_termios ld) = false →
  is_icrnl (ld_termios ld) = false → is_echo (ld_termios ld) = false →
  type_all echo_fn cs ld a = (set_raw_queue (raw_queue ld ++ cs) ld, a).
Proof.
  intros Hc Hs Hi He. revert ld a Hc Hs Hi He. induction cs as [|c cs IH]; intros ld a Hc Hs Hi He.
  { rewrite app_nil_r. by destruct ld. }
  assert (Hin : input_char echo_fn c ld a = (set_raw_queue (raw_queue ld ++ [c]) ld, a, None)).
  { unfold input_char. fold (is_icrnl (ld_termios ld)). change (lflag ISIG ld) with (is_sig (ld_termios ld)).
    rewrite Hi, Hs, Hc. cbn [andb]. unfold process_raw, lflag.
    change (flag_set _ ECHO) with (is_echo (ld_termios ld)). by rewrite He. }
  rewrite type_all_cons, Hin. cbn [fst snd]. rewrite IH by done. cbn. by rewrite <- app_assoc.
Qed.

Lemma ld_read_loop_raw q buf count :
  ld_read_loop false q buf count =
    (drop (length buf) q, take (length buf) q ++ drop (length q) buf,
     Ok (count + length buf `min` length q)%nat).
Proof.
  revert q count. induction buf as [|b buf IH]; intros q count; cbn [ld_read_loop length].
  { by rewrite drop_0, drop_nil, Nat.min_0_l, Nat.add_0_r. }
  destruct q as [|c q]; cbn [length andb drop take app].
  { by rewrite Nat.min_0_r, Nat.add_0_r. }
  rewrite IH. by rewrite <- Nat.succ_min_distr, <- Nat.add_assoc.
Qed.

(** after [set_raw] the terminal is transparent: whatever bytes are typed,
    signal and control characters included, no echo is produced and reads
    return exactly those bytes in order. *)
Theorem raw_mode_transparent {A} (echo_fn : u8 → A → A) t cs a buf :
  let '(ld, a') := type_all echo_fn cs (LineDiscipline_with_termios (set_raw t)) a in
  a' = a ∧
  LineDiscipline_read buf ld =
    (set_raw_queue (drop (length buf) cs) ld, take (length buf) cs ++ drop (length cs) buf,
     Ok (length buf `min` length cs)%nat).
Proof.
  destruct (set_raw_flags t) as (Hc & Hs & He & Hi). rewrite type_all_raw by done.
  split; [done|]. unfold LineDiscipline_read, LineDiscipline_with_termios.
  cbn [set_raw_queue ld_termios raw_queue cooked_queue app]. rewrite Hc.
  destruct buf as [|b buf]; [by rewrite drop_nil|].
  destruct cs as [|c cs]; [by rewrite drop_nil, take_nil|]. cbn [andb].
  by rewrite ld_read_loop_raw.
Qed.

(** a signal character sends its signal and edits nothing: the line being
    typed and the pending input survive an interrupt or quit. *)
Theorem signal_char_keeps_input {A} (echo_fn : u8 → A → A) ld a c :
  is_sig (ld_termios ld) = true → c ≠ CR →
  c = intr_char (ld_termios ld) ∨ c = quit_char (ld_termios ld) →
  ∃ ld' a' sig, input_char echo_fn c ld a = (ld', a', Some sig) ∧
    (sig = LD_SIGINT ∨ sig = LD_SIGQUIT) ∧ column ld' = 0 ∧
    edited ld ld' (line_buffer ld) (cooked_queue ld).
Proof.
  intros Hs Hcr Hc. unfold input_char. change (lflag ISIG ld) with (is_sig (ld_termios ld)).
  rewrite Hs, (proj2 (Z.eqb_neq _ _) Hcr), andb_false_r. cbn [andb].
  pose proof (echo_signal_edited echo_fn c ld a) as He.
  assert (Hcol : column (echo_signal echo_fn c ld a).1 = 0)
    by (unfold echo_signal; by destruct (echo_control_char _ _ _ _)).
  destruct (echo_signal _ _ _ _) as [ld' a'].
  destruct (Z.eqb_spec c (intr_char (ld_termios ld))); [exists ld', a', LD_SIGINT; auto|].
  destruct (Z.eqb_spec c (quit_char (ld_termios ld))); [exists ld', a', LD_SIGQUIT; auto|].
  by destruct Hc.
Qed.

(** "rm", interrupt, "ls", newline: the line delivered is "rmls". *)
Lemma signal_char_keeps_input_witness :
  let ld := (type_all (λ _ a, a) [114; 109] LineDiscipline_new ()).1 in
  (∃ ld' a' sig, input_char (λ _ a, a) 3 ld () = (ld', a', Some sig) ∧
    (sig = LD_SIGINT ∨ sig = LD_SIGQUIT) ∧ column ld' = 0 ∧
    edited ld ld' (line_buffer ld) (cooked_queue ld)) ∧
  cooked_queue (type_all (λ _ a, a) [114; 109; 3; 108; 115; 10] LineDiscipline_new ()).1 =
    [114; 109; 108; 115; 10].
Proof.
  cbn zeta. split; [|by vm_compute].
  apply (signal_char_keeps_input (λ _ a, a)); [by vm_compute|done|left; by vm_compute].
Defined.

(** ** Echo on a screen *)

(** The cursor line of a terminal: its cells and the cursor's column. *)
Definition screen : Type := list u8 * nat.

Definition put (b : u8) (s : screen) : screen :=
  let '(cells, cur) := s in
  if b =? BS then (cells, pred cur)
  else if b =? NL then ([], 0%nat)
  else (take cur cells ++ [b] ++ drop (S cur) cells, S cur).

Definition visible (s : screen) : list u8 := take s.2 s.1.
Definition screen_ok (s : screen) : Prop := (s.2 ≤ length s.1)%nat.

(** How a line is displayed: a control character takes two cells. *)
Definition shown (c : u8) : list u8 := if c <? 0x20 then [CARET; c + 0x40] else [c].
Definition shown_line (l : list u8) : list u8 := concat (map shown l).

(** The cells before the cursor end with the displayed line. *)
Definition shows (ld : LineDiscipline) (s : screen) : Prop :=
  screen_ok s ∧ ∃ p, visible s = p ++ shown_line (line_buffer ld).

Lemma visible_length s : screen_ok s → length (visible s) = s.2.
Proof. intros Hs. unfold visible. rewrite length_take. unfold screen_ok in Hs. lia. Qed.

Lemma put_char b s :
  screen_ok s → b ≠ BS → b ≠ NL → screen_ok (put b s) ∧ visible (put b s) = visible s ++ [b].
Proof.
  destruct s as [cells cur]. unfold screen_ok, visible, put. intros Hs Hb Hn. cbn in Hs.
  rewrite (proj2 (Z.eqb_neq _ _) Hb), (proj2 (Z.eqb_neq _ _) Hn). cbn [fst snd]. split.
  - rewrite !length_app, length_take, length_drop. cbn. lia.
  - rewrite app_assoc, take_app_le by (rewrite length_app, length_take; cbn; lia).
    rewrite take_ge; [done|]. rewrite length_app, length_take. cbn. lia.
Qed.

Lemma put_BS s :
  screen_ok s → screen_ok (put BS s) ∧ visible (put BS s) = removelast (visible s).
Proof.
  destruct s as [cells cur]. unfold screen_ok, visible, put. cbn. intros Hs. split; [lia|].
  destruct cur as [|cur]; [done|]. by rewrite removelast_firstn by lia.
Qed.

Lemma put_erase s :
  screen_ok s →
  screen_ok (echo_all put [BS; SP; BS] s) ∧
  visible (echo_all put [BS; SP; BS] s) = removelast (visible s).
Proof.
  intros Hs. cbn [echo_all foldl]. destruct (put_BS s Hs) as [H1 V1].
  destruct (put_char SP (put BS s) H1) as [H2 V2]; [done..|].
  destruct (put_BS _ H2) as [H3 V3]. split; [done|].
  by rewrite V3, V2, removelast_snoc, V1.
Qed.

Lemma shown_line_snoc l c : shown_line (l ++ [c]) = shown_line l ++ shown c.
Proof. unfold shown_line. rewrite map_app, concat_app. cbn. by rewrite app_nil_r. Qed.

Lemma shows_nil ld s : screen_ok s → line_buffer ld = [] → shows ld s.
Proof. intros Hs Hl. split; [done|]. exists (visible s). rewrite Hl. by rewrite app_nil_r. Qed.

Lemma handle_erase_shows ld s :
  lflag ECHOE ld = true → shows ld s →
  let '(ld', s') := handle_erase put ld s in shows ld' s' ∧ lflag ECHOE ld' = true.
Proof.
  intros He [Hs [p Hp]]. unfold handle_erase.
  destruct (line_buffer ld) as [|d l _] eqn:E using rev_ind.
  { cbn. split; [|done]. split; [done|]. exists p. by rewrite E. }
  rewrite last_snoc, removelast_snoc. rewrite shown_line_snoc in Hp.
  change (lflag ECHOE (set_line l ld)) with (lflag ECHOE ld). rewrite He.
  destruct (d <? 0x20) eqn:Hd.
  - split; [|done]. unfold shown in Hp. rewrite Hd in Hp.
    change (echo_all put [BS; SP; BS; BS; SP; BS] s)
      with (echo_all put [BS; SP; BS] (echo_all put [BS; SP; BS] s)).
    destruct (put_erase s Hs) as [H1 V1]. destruct (put_erase _ H1) as [H2 V2].
    split; [done|]. exists p. rewrite V2, V1, Hp.
    change [CARET; d + 0x40] with ([CARET] ++ [d + 0x40]).
    by rewrite !app_assoc, !removelast_snoc.
  - destruct (put_erase s Hs) as [H1 V1]. unfold shown in Hp. rewrite Hd in Hp.
    rewrite app_assoc in Hp.
    destruct (d =? TAB); (split; [|done]); (split; [done|]); exists p; by rewrite V1, Hp, removelast_snoc.
Qed.

Lemma erase_while_shows cond n ld s :
  lflag ECHOE ld = true → shows ld s →
  let '(ld', s') := erase_while put cond n ld s in shows ld' s' ∧ lflag ECHOE ld' = true.
Proof.
  revert ld s. induction n as [|n IH]; intros ld s He Hs; cbn [erase_while]; [done|].
  destruct (cond _); [|done]. pose proof (handle_erase_shows ld s He Hs) as H1.
  destruct (handle_erase _ _ _) as [ld1 s1]. destruct H1. by apply IH.
Qed.

Lemma put_NL s : put NL s = ([], 0%nat).
Proof. by destruct s. Qed.

Lemma put_NL_shows ld s : line_buffer ld = [] → shows ld (put NL s).
Proof. intros Hl. rewrite put_NL. apply shows_nil; [apply Nat.le_0_l|done]. Qed.

Lemma echo_control_char_shows c ld s l :
  lflag ECHO ld = true → 0 ≤ c < 0x20 → line_buffer ld = l ++ [c] → screen_ok s →
  (∃ p, visible s = p ++ shown_line l) →
  let '(ld', s') := echo_control_char put c ld s in shows ld' s'.
Proof.
  intros He Hc Hl Hs [p Hp]. unfold echo_control_char. rewrite He. cbn [echo_all foldl].
  rewrite (wrap_small 8) by (unfold in_width; change (2 ^ 8) with 256; lia).
  destruct (put_char CARET s) as [H1 V1]; [done..|].
  destruct (put_char (c + 0x40) (put CARET s)) as [H2 V2];
    [done|unfold BS; lia|unfold NL; lia|].
  split; [done|]. exists p. cbn [set_column line_buffer]. rewrite V2, V1, Hp, Hl, shown_line_snoc.
  unfold shown. rewrite (proj2 (Z.ltb_lt _ _)) by lia. by rewrite <- !app_assoc.
Qed.

Lemma handle_eof_screen_ok ld s :
  screen_ok s → screen_ok (handle_eof put ld s).2.
Proof.
  intros Hs. unfold handle_eof, echo_control_char.
  assert (H2 : screen_ok (echo_all put [CARET; wrap 8 (0x04 + 0x40)] s)).
  { cbn [echo_all foldl]. destruct (put_char CARET s) as [H1 _]; [done..|].
    by destruct (put_char (wrap 8 (0x04 + 0x40)) (put CARET s) H1) as [H2 _]. }
  destruct (lflag ECHO ld); cbn; by destruct (line_buffer ld).
Qed.

Lemma handle_kill_shows ld s :
  lflag ECHOE ld = true → shows ld s →
  let '(ld', s') := handle_kill put ld s in shows ld' s'.
Proof.
  intros He Hs. unfold handle_kill. destruct (line_buffer ld) as [|c l] eqn:E; [done|].
  destruct (lflag ECHOK ld); [apply put_NL_shows; done|]. rewrite He.
  pose proof (erase_while_shows non_empty (length (c :: l)) ld s He Hs) as H.
  destruct (erase_while _ _ _ _ _) as [ld1 s1]. destruct H as [[Hok _] _]. by apply shows_nil.
Qed.

Lemma handle_word_erase_shows ld s :
  lflag ECHOE ld = true → shows ld s →
  let '(ld', s') := handle_word_erase put ld s in shows ld' s'.
Proof.
  intros He Hs. unfold handle_word_erase.
  pose proof (erase_while_shows ends_blank (length (line_buffer ld)) ld s He Hs) as H.
  destruct (erase_while _ ends_blank _ _ _) as [ld1 s1]. destruct H as [H1 He1].
  pose proof (erase_while_shows ends_nonblank (length (line_buffer ld1)) ld1 s1 He1 H1) as H.
  destruct (erase_while _ ends_nonblank _ _ _) as [ld2 s2]. by destruct H.
Qed.

Lemma process_canonical_shows c ld s :
  lflag ECHO ld = true → lflag ECHOE ld = true → 0 ≤ c → c ≠ TAB → shows ld s →
  let '(ld', s') := process_canonical put c ld s in shows ld' s'.
Proof.
  intros He Hee Hc Ht Hs. unfold process_canonical.
  destruct ((c =? erase_char _) || (c =? 0x08)) eqn:Her.
  { pose proof (handle_erase_shows ld s Hee Hs) as H. destruct (handle_erase _ _ _). by destruct H. }
  apply orb_false_iff in Her as [_ Hbs%Z.eqb_neq].
  destruct (c =? kill_char _); [by apply handle_kill_shows|].
  destruct (c =? cc VWERASE _); [by apply handle_word_erase_shows|].
  destruct (c =? eof_char _).
  { pose proof (handle_eof_edited put ld s) as (_ & _ & Hl & _).
    pose proof (handle_eof_screen_ok ld s (proj1 Hs)) as Hok.
    destruct (handle_eof _ _ _). by apply shows_nil. }
  destruct (Z.eqb_spec c NL) as [->|Hnl].
  { case_decide; cbn; [change (lflag ECHO _) with (lflag ECHO ld)|
      change (lflag ECHO _) with (lflag ECHO ld)]; rewrite He; by apply put_NL_shows. }
  case_decide; [|done]. change (lflag ECHO (set_line _ ld)) with (lflag ECHO ld). rewrite He.
  rewrite (proj2 (Z.eqb_neq _ _) Ht), andb_true_r. destruct Hs as [Hok Hp].
  destruct (Z.ltb_spec c 0x20); [by eapply echo_control_char_shows|].
  destruct Hp as [p Hp]. destruct (put_char c s) as [H1 V1]; [done..|]. split; [done|]. exists p.
  cbn [set_column set_line line_buffer]. rewrite V1, Hp, shown_line_snoc. unfold shown.
  rewrite (proj2 (Z.ltb_ge _ _)) by lia. by rewrite <- app_assoc.
Qed.

(** A typed byte that is neither a tab nor a signal character. *)
Definition plain_key (t : Termios) (c : u8) : Prop :=
  0 ≤ c < 256 ∧ c ≠ TAB ∧
  (is_sig t = true →
   let c' := if is_icrnl t && (c =? CR) then NL else c in
   c' ≠ intr_char t ∧ c' ≠ quit_char t ∧ c' ≠ susp_char t).

Lemma input_char_shows c ld s :
  is_canonical (ld_termios ld) = true → lflag ECHO ld = true → lflag ECHOE ld = true →
  plain_key (ld_termios ld) c → shows ld s →
  let '(ld', s', _) := input_char put c ld s in shows ld' s' ∧ ld_termios ld' = ld_termios ld.
Proof.
  intros Hcan He Hee (Hb & Ht & Hsig) Hs.
  pose proof (input_char_edited put c ld s Hcan) as Hed.
  destruct (edit _ _ _) as [line out]. destruct Hed as (Htm & _).
  revert Htm. unfold input_char. fold (is_icrnl (ld_termios ld)).
  change (lflag ISIG ld) with (is_sig (ld_termios ld)). rewrite Hcan.
  set (c' := if _ && (c =? CR) then NL else c) in *.
  assert (Hc' : 0 ≤ c' ∧ c' ≠ TAB) by (subst c'; case_match; (split; [unfold NL; lia|done])).
  clearbody c'. destruct Hc' as [Hc' Ht'].
  replace (is_sig (ld_termios ld) && (c' =? intr_char (ld_termios ld))) with false;
  [replace (is_sig (ld_termios ld) && (c' =? quit_char (ld_termios ld))) with false;
  [replace (is_sig (ld_termios ld) && (c' =? susp_char (ld_termios ld))) with false|]|].
  { intros Htm. pose proof (process_canonical_shows c' ld s He Hee Hc' Ht' Hs) as H.
    by destruct (process_canonical _ _ _ _) as [ld' s']. }
  all: destruct (is_sig _); [|done]; symmetry; apply Z.eqb_neq; by apply Hsig.
Qed.

(** with ECHO and ECHOE on in canonical mode, the screen shows the line
    being edited: after any typing without tabs or signal characters, erases,
    word erases and kills included, the cells before the cursor end with the
    current line, control characters displayed as ^X. *)
Theorem echo_shows_line t cs s :
  is_canonical t = true → is_echo t = true → flag_set (c_lflag t) ECHOE = true →
  Forall (plain_key t) cs → screen_ok s →
  let '(ld, s') := type_all put cs (LineDiscipline_with_termios t) s in
  ∃ p, visible s' = p ++ shown_line (line_buffer ld).
Proof.
  intros Hcan He Hee Hcs Hs. pose proof (shows_nil (LineDiscipline_with_termios t) s Hs eq_refl) as H0.
  assert (Ht : ld_termios (LineDiscipline_with_termios t) = t) by done.
  revert H0 Ht. generalize (LineDiscipline_with_termios t) s. clear s Hs.
  induction Hcs as [|c cs Hc Hcs IH]; intros ld s Hs Ht; [by destruct Hs|].
  rewrite type_all_cons. pose proof (input_char_shows c ld s) as H.
  unfold lflag in H. rewrite Ht in H. specialize (H Hcan He Hee Hc Hs).
  destruct (input_char _ _ _ _) as [[ld' s'] sig]. destruct H as [H1 H2]. by apply IH.
Qed.

Lemma echo_shows_line_witness :
  let '(ld, s') := type_all put [104; 1; 105; 0x7F; 120] LineDiscipline_new ([62; 32], 2%nat) in
  line_buffer ld = [104; 1; 120] ∧ ∃ p, visible s' = p ++ shown_line (line_buffer ld).
Proof.
  pose proof (echo_shows_line Termios_default [104; 1; 105; 0x7F; 120] ([62; 32], 2%nat)) as H.
  change (LineDiscipline_with_termios Termios_default) with LineDiscipline_new in H.
  destruct (type_all put _ _ _) as [ld s'] eqn:E. split.
  - vm_compute in E. injection E as <- _. reflexivity.
  - apply H; try (vm_compute; reflexivity).
    repeat constructor; try (vm_compute; (reflexivity || discriminate)).
Defined.
