(* ===== verification/UserPtr.v ===== *)
(** * User pointers (kernel/src/syscall/userptr.rs)

    Validation of addresses handed in by user space and the copies between
    kernel and user memory, on the flat memory of [Bytes] (x86_64 address
    range).  A copy of a value of type [T] is a copy of its [size_of::<T>()]
    bytes. *)

From S2P Require Import Prelude Bytes.

Definition USER_SPACE_START : u64 := 0.
Definition USER_SPACE_END : u64 := 0x800000000000.
Definition UP_EFAULT : u64 := 14.
Definition UP_EINVAL : u64 := 22.
Definition UP_ENAMETOOLONG : u64 := 36.
Definition MAX_PATH_LEN : nat := Z.to_nat 4096.
#[global] Arguments MAX_PATH_LEN : simpl never.
#[global] Opaque MAX_PATH_LEN.

(** [addr.checked_add(size)] *)
Definition checked_add (w : Z) (a b : Z) : option Z :=
  if a + b <? 2 ^ w then Some (a + b) else None.

(** [validate_user_ptr_read], [validate_user_ptr_write] and
    [validate_user_buffer]: the same three checks on address and length. *)
Definition validate_user_ptr (addr size : u64) : result unit u64 :=
  if addr =? 0 then Err UP_EFAULT
  else if (addr <? USER_SPACE_START) || (USER_SPACE_END <=? addr) then Err UP_EFAULT
  else if match checked_add 64 addr size with
          | None => true
          | Some e => USER_SPACE_END <? e
          end then Err UP_EFAULT
  else Ok tt.

Definition copy_from_user (n : nat) (addr : u64) (m : memory) : result (list u8) u64 :=
  match validate_user_ptr addr (Z.of_nat n) with
  | Err e => Err e
  | Ok _ => Ok (mem_read m addr n)
  end.

Definition copy_to_user (addr : u64) (bs : list u8) (m : memory) : memory * result unit u64 :=
  match validate_user_ptr addr (Z.of_nat (length bs)) with
  | Err e => (m, Err e)
  | Ok _ => (mem_write m addr bs, Ok tt)
  end.

(** ** Strings *)

Definition between (lo hi b : u8) : bool := (lo <=? b) && (b <=? hi).
Definition cont : u8 → bool := between 0x80 0xBF.

(** [String::from_utf8] accepts the byte sequences of the Unicode standard's
    table of well-formed UTF-8. *)
Fixpoint utf8_valid (bs : list u8) : bool :=
  match bs with
  | [] => true
  | a :: r1 =>
      if between 0 0x7F a then utf8_valid r1
      else
        match r1 with
        | [] => false
        | b :: r2 =>
            if between 0xC2 0xDF a then cont b && utf8_valid r2
            else
              match r2 with
              | [] => false
              | c :: r3 =>
                  if a =? 0xE0 then between 0xA0 0xBF b && cont c && utf8_valid r3
                  else if a =? 0xED then between 0x80 0x9F b && cont c && utf8_valid r3
                  else if between 0xE1 0xEF a then cont b && cont c && utf8_valid r3
                  else
                    match r3 with
                    | [] => false
                    | d :: r4 =>
                        if a =? 0xF0 then between 0x90 0xBF b && cont c && cont d && utf8_valid r4
                        else if between 0xF1 0xF3 a then cont b && cont c && cont d && utf8_valid r4
                        else if a =? 0xF4 then
                          between 0x80 0x8F b && cont c && cont d && utf8_valid r4
                        else false
                    end
              end
        end
  end.

(** The loop of [copy_cstr_from_user]: [n] offsets are left, [bytes] is what
    has been pushed. *)
Fixpoint cstr_loop (m : memory) (ptr : u64) (n : nat) (offset : Z) (bytes : list u8)
    : result (list u8) u64 :=
  match n with
  | O => Err UP_ENAMETOOLONG
  | S n =>
      match checked_add 64 ptr offset with
      | None => Err UP_EFAULT
      | Some byte_addr =>
          if (USER_SPACE_START <=? byte_addr) && (byte_addr <? USER_SPACE_END) then
            let byte := m byte_addr in
            if byte =? 0 then (if utf8_valid bytes then Ok bytes else Err UP_EINVAL)
            else cstr_loop m ptr n (offset + 1) (bytes ++ [byte])
          else Err UP_EFAULT
      end
  end.

Definition copy_cstr_from_user (m : memory) (ptr : u64) : result (list u8) u64 :=
  if ptr =? 0 then Err UP_EFAULT
  else if (ptr <? USER_SPACE_START) || (USER_SPACE_END <=? ptr) then Err UP_EFAULT
  else cstr_loop m ptr MAX_PATH_LEN 0 [].

(** ** What the checks guarantee *)

Definition user_addr (x : Z) : Prop := USER_SPACE_START ≤ x < USER_SPACE_END.

#[export] Instance user_addr_dec x : Decision (user_addr x).
Proof. unfold user_addr. apply _. Defined.

Lemma validate_user_ptr_spec addr size :
  0 ≤ addr → 0 ≤ size →
  validate_user_ptr addr size =
    if decide (0 < addr < USER_SPACE_END ∧ addr + size ≤ USER_SPACE_END) then Ok tt else Err UP_EFAULT.
Proof.
  intros Ha Hs. unfold validate_user_ptr, checked_add, USER_SPACE_START, USER_SPACE_END.
  destruct (Z.eqb_spec addr 0); [by rewrite decide_False by lia|].
  destruct (Z.ltb_spec addr 0); [lia|]. cbn [orb].
  destruct (Z.leb_spec 0x800000000000 addr); [by rewrite decide_False by lia|].
  change (2 ^ 64) with 18446744073709551616.
  destruct (Z.ltb_spec (addr + size) 18446744073709551616).
  - destruct (Z.ltb_spec 0x800000000000 (addr + size)); case_decide; (done || lia).
  - by rewrite decide_False by lia.
Qed.

(** a copy to user space succeeds exactly on a non-null range inside user
    space, changes exactly the bytes of that range, and otherwise is EFAULT with
    memory untouched: no kernel address is ever written. *)
Theorem copy_to_user_confined addr bs m :
  0 ≤ addr →
  match copy_to_user addr bs m with
  | (m', Ok _) => 0 < addr < USER_SPACE_END ∧ addr + Z.of_nat (length bs) ≤ USER_SPACE_END ∧
      mem_read m' addr (length bs) = bs ∧
      ∀ x, ¬ (addr ≤ x < addr + Z.of_nat (length bs) ∧ user_addr x) → m' x = m x
  | (m', Err e) => m' = m ∧ e = UP_EFAULT ∧
      ¬ (0 < addr < USER_SPACE_END ∧ addr + Z.of_nat (length bs) ≤ USER_SPACE_END)
  end.
Proof.
  intros Ha. unfold copy_to_user. rewrite validate_user_ptr_spec by lia.
  case_decide as Hd; [|done]. split_and!; try lia; [apply mem_read_write|].
  intros x Hx. unfold mem_write. rewrite decide_False; [done|].
  unfold user_addr, USER_SPACE_START in Hx. lia.
Qed.

Lemma copy_to_user_confined_witness :
  match copy_to_user 0x7FFFFFFFFFF8 [1; 2; 3; 4; 5; 6; 7; 8] (λ _, 0) with
  | (m', Ok _) => mem_read m' 0x7FFFFFFFFFF8 8 = [1; 2; 3; 4; 5; 6; 7; 8] ∧ m' 0x800000000000 = 0
  | (m', Err e) => False
  end.
Proof.
  pose proof (copy_to_user_confined 0x7FFFFFFFFFF8 [1; 2; 3; 4; 5; 6; 7; 8] (λ _, 0) ltac:(lia)) as H.
  destruct (copy_to_user _ _ _) as [m' [u|e]].
  - destruct H as (_ & _ & Hr & Hx). split; [exact Hr|]. apply Hx.
    unfold user_addr, USER_SPACE_END. lia.
  - destruct H as (_ & _ & Hn). apply Hn. unfold USER_SPACE_END. cbn [length]. lia.
Defined.

Lemma cstr_loop_spec m ptr bytes rest n :
  user_addr ptr → (length bytes + n = MAX_PATH_LEN)%nat →
  (length rest < n)%nat → ptr + Z.of_nat (length bytes + length rest) < USER_SPACE_END →
  mem_read m (ptr + Z.of_nat (length bytes)) (length rest + 1) = rest ++ [0] →
  Forall (λ b, b ≠ 0) rest →
  cstr_loop m ptr n (Z.of_nat (length bytes)) bytes =
    if utf8_valid (bytes ++ rest) then Ok (bytes ++ rest) else Err UP_EINVAL.
Proof.
  revert bytes n. induction rest as [|b rest IH]; intros bytes n Hp Hn Hl He Hm Hz;
    (destruct n as [|n]; [cbn in Hl; lia|]); cbn [cstr_loop length Nat.add mem_read app] in *;
    unfold checked_add, user_addr, USER_SPACE_START, USER_SPACE_END in *;
    change (2 ^ 64) with 18446744073709551616;
    rewrite (proj2 (Z.ltb_lt (ptr + Z.of_nat (length bytes)) 18446744073709551616)) by lia;
    rewrite (proj2 (Z.leb_le 0 _)) by lia; rewrite (proj2 (Z.ltb_lt _ _)) by lia; cbn [andb].
  - injection Hm as ->. by rewrite Z.eqb_refl, app_nil_r.
  - injection Hm as Hb Hm. apply Forall_cons in Hz as [Hb0 Hz]. rewrite Hb.
    rewrite (proj2 (Z.eqb_neq _ _) Hb0).
    replace (Z.of_nat (length bytes) + 1) with (Z.of_nat (length (bytes ++ [b])))
      by (rewrite length_app; cbn; lia).
    rewrite IH; [by rewrite <- app_assoc|exact Hp|..|exact Hz]; rewrite ?length_app;
      cbn [length]; [lia..|]. rewrite <- Hm. f_equal. lia.
Qed.

(** a terminated string that lies inside user space and is shorter than
    MAX_PATH_LEN is returned whole, without its NUL, when it is UTF-8 and
    rejected with EINVAL when it is not. *)
Theorem copy_cstr_exact m ptr s :
  0 < ptr → ptr + Z.of_nat (length s) < USER_SPACE_END → (length s < MAX_PATH_LEN)%nat →
  Forall (λ b, b ≠ 0) s → mem_read m ptr (length s + 1) = s ++ [0] →
  copy_cstr_from_user m ptr = if utf8_valid s then Ok s else Err UP_EINVAL.
Proof.
  intros Hp He Hl Hz Hm. unfold copy_cstr_from_user.
  rewrite (proj2 (Z.eqb_neq _ _)) by lia.
  rewrite (proj2 (Z.ltb_ge _ _)) by (unfold USER_SPACE_START; lia).
  rewrite (proj2 (Z.leb_gt _ _)) by lia. cbn [orb].
  apply (cstr_loop_spec m ptr [] s MAX_PATH_LEN); cbn [length Nat.add];
    [unfold user_addr, USER_SPACE_START; lia|reflexivity|exact Hl|exact He| |exact Hz].
  by rewrite Z.add_0_r.
Qed.

(** "/tmp" at 0x1000. *)
Lemma copy_cstr_exact_witness :
  copy_cstr_from_user (mem_write (λ _, 0) 0x1000 [47; 116; 109; 112; 0]) 0x1000 =
    Ok [47; 116; 109; 112].
Proof.
  rewrite (copy_cstr_exact _ 0x1000 [47; 116; 109; 112]).
  - reflexivity.
  - reflexivity.
  - reflexivity.
  - apply Nat.ltb_lt. vm_compute. reflexivity.
  - repeat constructor; discriminate.
  - vm_compute. reflexivity.
Defined.

Lemma cstr_loop_local m m' ptr n offset bytes :
  (∀ x, user_addr x → m x = m' x) →
  cstr_loop m ptr n offset bytes = cstr_loop m' ptr n offset bytes.
Proof.
  intros Hm. revert offset bytes. induction n as [|n IH]; intros offset bytes; [done|].
  cbn [cstr_loop]. destruct (checked_add 64 ptr offset) as [a|]; [|done].
  destruct ((_ <=? a) && _) eqn:Hr; [|done].
  apply andb_true_iff in Hr as [?%Z.leb_le ?%Z.ltb_lt]. rewrite (Hm a) by (by split).
  destruct (m' a =? 0); [done|]. apply IH.
Qed.

(** whatever pointer user space passes, the string copy only looks at user
    memory: two memories that agree on user addresses give the same result. *)
Theorem copy_cstr_reads_user_only m m' ptr :
  (∀ x, user_addr x → m x = m' x) → copy_cstr_from_user m ptr = copy_cstr_from_user m' ptr.
Proof. intros Hm. unfold copy_cstr_from_user. by rewrite (cstr_loop_local m m'). Qed.

Lemma copy_cstr_reads_user_only_witness :
  copy_cstr_from_user (λ _, 65) 0x7FFFFFFFFFFF =
  copy_cstr_from_user (λ x, if decide (user_addr x) then 65 else 0) 0x7FFFFFFFFFFF.
Proof.
  apply copy_cstr_reads_user_only. intros x Hx. by rewrite decide_True.
Defined.
