(* ===== verification/Signal.v ===== *)
(** * Signal state and timers (kernel/src/signal/constants.rs, types.rs)

    Pending and blocked signals as 64-bit masks, the table of handlers, the
    alternate stack, and the interval timer.  Signal [s] is bit [s - 1]. *)

From S2P Require Import Prelude.

(** ** Constants *)

Definition SIGHUP : u32 := 1.
Definition SIGINT : u32 := 2.
Definition SIGQUIT : u32 := 3.
Definition SIGILL : u32 := 4.
Definition SIGTRAP : u32 := 5.
Definition SIGABRT : u32 := 6.
Definition SIGBUS : u32 := 7.
Definition SIGFPE : u32 := 8.
Definition SIGKILL : u32 := 9.
Definition SIGUSR1 : u32 := 10.
Definition SIGSEGV : u32 := 11.
Definition SIGUSR2 : u32 := 12.
Definition SIGPIPE : u32 := 13.
Definition SIGALRM : u32 := 14.
Definition SIGTERM : u32 := 15.
Definition SIGSTKFLT : u32 := 16.
Definition SIGCHLD : u32 := 17.
Definition SIGCONT : u32 := 18.
Definition SIGSTOP : u32 := 19.
Definition SIGTSTP : u32 := 20.
Definition SIGTTIN : u32 := 21.
Definition SIGTTOU : u32 := 22.
Definition SIGURG : u32 := 23.
Definition SIGXCPU : u32 := 24.
Definition SIGXFSZ : u32 := 25.
Definition SIGWINCH : u32 := 28.
Definition SIGIO : u32 := 29.
Definition SIGPWR : u32 := 30.
Definition SIGSYS : u32 := 31.
Definition NSIG : u32 := 64.

Definition SIG_DFL : u64 := 0.
Definition SIG_IGN : u64 := 1.
Definition SIG_BLOCK : i32 := 0.
Definition SIG_UNBLOCK : i32 := 1.
Definition SIG_SETMASK : i32 := 2.
Definition SS_ONSTACK : u32 := 1.
Definition SS_DISABLE : u32 := 2.
Definition MINSIGSTKSZ : Z := 2048.
Definition SA_NODEFER : u64 := 0x40000000.
Definition SA_ONSTACK : u64 := 0x08000000.
Definition SA_RESTORER : u64 := 0x04000000.

Definition sig_mask (sig : u32) : u64 :=
  if (sig =? 0) || (NSIG <? sig) then 0 else Z.shiftl 1 (sig - 1).

Definition UNCATCHABLE_SIGNALS : u64 := Z.lor (sig_mask SIGKILL) (sig_mask SIGSTOP).

Definition is_valid_signal (sig : u32) : bool := (0 <? sig) && (sig <=? NSIG).
Definition is_catchable (sig : u32) : bool := negb (sig =? SIGKILL) && negb (sig =? SIGSTOP).

Inductive SignalDefaultAction := Terminate | Ignore | CoreDump | Stop | Continue.

#[export] Instance SignalDefaultAction_eq_dec : EqDecision SignalDefaultAction.
Proof. solve_decision. Defined.

Definition sig_in (sig : u32) (l : list u32) : bool := existsb (Z.eqb sig) l.

Definition default_action (sig : u32) : SignalDefaultAction :=
  if sig_in sig [SIGHUP; SIGINT; SIGKILL; SIGPIPE; SIGALRM; SIGTERM; SIGUSR1; SIGUSR2; SIGIO;
                 SIGPWR; SIGSTKFLT] then Terminate
  else if sig_in sig [SIGQUIT; SIGILL; SIGTRAP; SIGABRT; SIGBUS; SIGFPE; SIGSEGV; SIGXCPU; SIGXFSZ;
                      SIGSYS] then CoreDump
  else if sig_in sig [SIGCHLD; SIGURG; SIGWINCH] then Ignore
  else if sig_in sig [SIGSTOP; SIGTSTP; SIGTTIN; SIGTTOU] then Stop
  else if sig =? SIGCONT then Continue
  else Terminate.

(** ** Handlers and per-process state *)

Record SignalAction := mkAction {
  handler : u64;
  mask : u64;
  sa_flags : u64;
  restorer : u64;
}.

Definition SignalAction_default : SignalAction := mkAction SIG_DFL 0 0 0.
Definition is_default (a : SignalAction) : bool := handler a =? SIG_DFL.
Definition is_ignore (a : SignalAction) : bool := handler a =? SIG_IGN.
Definition is_handler (a : SignalAction) : bool := SIG_IGN <? handler a.

Record AltStack := mkAltStack {
  alt_base : u64;
  alt_size : u64;
  alt_flags : u32;
  on_stack : bool;
}.

Definition AltStack_default : AltStack := mkAltStack 0 0 0 false.

Record SignalState := mkSignals {
  pending : u64;
  blocked : u64;
  handlers : list SignalAction;
  alt_stack : AltStack;
  sigsuspend_saved_mask : option u64;
}.

Definition SignalState_new : SignalState :=
  mkSignals 0 0 (replicate 64 SignalAction_default) AltStack_default None.

Definition with_pending (p : u64) (s : SignalState) : SignalState :=
  mkSignals p (blocked s) (handlers s) (alt_stack s) (sigsuspend_saved_mask s).
Definition with_blocked (b : u64) (s : SignalState) : SignalState :=
  mkSignals (pending s) b (handlers s) (alt_stack s) (sigsuspend_saved_mask s).
Definition with_alt_stack (a : AltStack) (s : SignalState) : SignalState :=
  mkSignals (pending s) (blocked s) (handlers s) a (sigsuspend_saved_mask s).
Definition with_saved_mask (m : option u64) (s : SignalState) : SignalState :=
  mkSignals (pending s) (blocked s) (handlers s) (alt_stack s) m.

(** [self.pending & !self.blocked] *)
Definition deliverable (s : SignalState) : u64 := Z.land (pending s) (wnot 64 (blocked s)).

Definition has_deliverable_signals (s : SignalState) : bool := negb (deliverable s =? 0).

(** [u64::trailing_zeros] of a non-zero word, looking at bits [i ..]. *)
Fixpoint trailing_zeros_from (n : nat) (i : Z) (z : u64) : Z :=
  match n with
  | O => i
  | S n => if Z.testbit z i then i else trailing_zeros_from n (i + 1) z
  end.
Definition trailing_zeros (z : u64) : Z := trailing_zeros_from 64 0 z.

(** [self.handlers[(sig - 1) as usize]] is in range: the array has 64 entries. *)
Definition get_handler (sig : u32) (s : SignalState) : SignalAction :=
  if (sig =? 0) || (NSIG <? sig) then SignalAction_default
  else nth (Z.to_nat (sig - 1)) (handlers s) SignalAction_default.

Definition set_handler (sig : u32) (a : SignalAction) (s : SignalState) : SignalState :=
  if (0 <? sig) && (sig <=? NSIG) then
    mkSignals (pending s) (blocked s) (<[Z.to_nat (sig - 1) := a]> (handlers s)) (alt_stack s)
      (sigsuspend_saved_mask s)
  else s.

(** The test of the loop body of [has_interrupting_signals]. *)
Definition interrupts (sig : u32) (s : SignalState) : bool :=
  let action := get_handler sig s in
  negb (is_ignore action) &&
  (is_handler action ||
   (is_default action && bool_decide (default_action sig ≠ Ignore))).

(** [while pending != 0 { ...; pending &= pending - 1 }]: each turn clears a
    bit of the word, so 64 turns are enough. *)
Fixpoint interrupting_loop (n : nat) (p : u64) (s : SignalState) : bool :=
  match n with
  | O => false
  | S n =>
      if p =? 0 then false
      else if interrupts (trailing_zeros p + 1) s then true
      else interrupting_loop n (Z.land p (wrap 64 (p - 1))) s
  end.

Definition has_interrupting_signals (s : SignalState) : bool :=
  interrupting_loop 65 (deliverable s) s.

Definition next_deliverable_signal (s : SignalState) : option u32 :=
  if deliverable s =? 0 then None else Some (trailing_zeros (deliverable s) + 1).

Definition set_pending (sig : u32) (s : SignalState) : SignalState :=
  if is_valid_signal sig then with_pending (Z.lor (pending s) (sig_mask sig)) s else s.

Definition clear_pending (sig : u32) (s : SignalState) : SignalState :=
  if is_valid_signal sig then with_pending (Z.land (pending s) (wnot 64 (sig_mask sig))) s else s.

Definition is_pending (sig : u32) (s : SignalState) : bool :=
  negb (Z.land (pending s) (sig_mask sig) =? 0).
Definition is_blocked (sig : u32) (s : SignalState) : bool :=
  negb (Z.land (blocked s) (sig_mask sig) =? 0).

Definition block_signals (m : u64) (s : SignalState) : SignalState :=
  with_blocked (Z.lor (blocked s) (Z.land m (wnot 64 UNCATCHABLE_SIGNALS))) s.
Definition unblock_signals (m : u64) (s : SignalState) : SignalState :=
  with_blocked (Z.land (blocked s) (wnot 64 m)) s.
Definition set_blocked (m : u64) (s : SignalState) : SignalState :=
  with_blocked (Z.land m (wnot 64 UNCATCHABLE_SIGNALS)) s.

Definition SignalState_fork (s : SignalState) : SignalState :=
  mkSignals 0 (blocked s) (handlers s) (alt_stack s) None.

Definition exec_reset (s : SignalState) : SignalState :=
  mkSignals 0 (blocked s)
    (map (λ h, if is_handler h then SignalAction_default else h) (handlers s))
    (alt_stack s) (sigsuspend_saved_mask s).

(** ** Timers *)

Record Timeval := mkTimeval { tv_sec : i64; tv_usec : i64 }.
Record Itimerval := mkItimerval { it_interval : Timeval; it_value : Timeval }.

Definition is_zero (t : Timeval) : bool := (tv_sec t =? 0) && (tv_usec t =? 0).

Definition to_micros (t : Timeval) : u64 :=
  if (tv_sec t <? 0) || (tv_usec t <? 0) then 0
  else wrap 64 (wrap 64 (tv_sec t * 1000000) + tv_usec t).

Definition from_micros (micros : u64) : Timeval :=
  mkTimeval (as_i64 (micros / 1000000)) (as_i64 (micros mod 1000000)).

Record IntervalTimer := mkTimer { remaining_usec : u64; interval_usec : u64 }.

Definition IntervalTimer_new : IntervalTimer := mkTimer 0 0.
Definition is_active (t : IntervalTimer) : bool := 0 <? remaining_usec t.
Definition get_value (t : IntervalTimer) : Itimerval :=
  mkItimerval (from_micros (interval_usec t)) (from_micros (remaining_usec t)).
Definition set_value (v : Itimerval) (t : IntervalTimer) : IntervalTimer * Itimerval :=
  (mkTimer (to_micros (it_value v)) (to_micros (it_interval v)), get_value t).

Definition tick (elapsed_usec : u64) (t : IntervalTimer) : IntervalTimer * bool :=
  if remaining_usec t =? 0 then (t, false)
  else if remaining_usec t <=? elapsed_usec then
    (if 0 <? interval_usec t then
       let overrun := elapsed_usec - remaining_usec t in
       if interval_usec t <=? overrun then mkTimer (interval_usec t) (interval_usec t)
       else mkTimer (interval_usec t - overrun) (interval_usec t)
     else mkTimer 0 (interval_usec t), true)
  else (mkTimer (remaining_usec t - elapsed_usec) (interval_usec t), false).

(** ** Bits of signal words *)

Definition valid_sig (sig : u32) : Prop := 1 ≤ sig ≤ 64.

Lemma is_valid_signal_spec sig : is_valid_signal sig = true ↔ valid_sig sig.
Proof.
  unfold is_valid_signal, valid_sig, NSIG. rewrite andb_true_iff, Z.ltb_lt, Z.leb_le. lia.
Qed.

Lemma sig_mask_testbit sig n :
  valid_sig sig → 0 ≤ n → Z.testbit (sig_mask sig) n = (n =? sig - 1).
Proof.
  intros Hs Hn. unfold sig_mask, valid_sig, NSIG in *.
  rewrite (proj2 (Z.eqb_neq _ _)), (proj2 (Z.ltb_ge _ _)) by lia. cbn [orb].
  rewrite Z.shiftl_1_l, Z.pow2_bits_eqb by lia. apply Z.eqb_sym.
Qed.

Lemma sig_mask_width sig : valid_sig sig → in_width 64 (sig_mask sig).
Proof.
  intros Hs. unfold sig_mask, valid_sig, in_width, NSIG in *.
  rewrite (proj2 (Z.eqb_neq _ _)), (proj2 (Z.ltb_ge _ _)) by lia. cbn [orb].
  rewrite Z.shiftl_1_l. split; [lia|]. apply Z.pow_lt_mono_r; lia.
Qed.

Lemma land_sig_mask z sig :
  valid_sig sig → negb (Z.land z (sig_mask sig) =? 0) = Z.testbit z (sig - 1).
Proof.
  intros Hs. destruct (Z.testbit z (sig - 1)) eqn:Hb.
  - apply negb_true_iff, Z.eqb_neq. intros Hz.
    apply (f_equal (λ z, Z.testbit z (sig - 1))) in Hz.
    rewrite Z.land_spec, Hb, sig_mask_testbit, Z.bits_0, Z.eqb_refl in Hz by (unfold valid_sig in *; lia).
    done.
  - apply negb_false_iff, Z.eqb_eq, Z.bits_inj'. intros n Hn.
    rewrite Z.land_spec, sig_mask_testbit, Z.bits_0 by done.
    destruct (Z.eqb_spec n (sig - 1)) as [->|]; [by rewrite Hb|apply andb_false_r].
Qed.

Lemma trailing_zeros_from_spec n i z :
  0 ≤ i → (∃ j, i ≤ j < i + Z.of_nat n ∧ Z.testbit z j = true) →
  i ≤ trailing_zeros_from n i z < i + Z.of_nat n ∧
  Z.testbit z (trailing_zeros_from n i z) = true ∧
  ∀ j, i ≤ j < trailing_zeros_from n i z → Z.testbit z j = false.
Proof.
  revert i. induction n as [|n IH]; intros i Hi (j & Hj & Hb); [lia|].
  cbn [trailing_zeros_from]. destruct (Z.testbit z i) eqn:Hz; [split_and!; (done || lia)|].
  destruct (IH (i + 1)) as (H1 & H2 & H3); [lia| |].
  - exists j. split; [|done]. destruct (decide (j = i)); [congruence|lia].
  - split; [lia|]. split; [done|]. intros j' Hj'.
    destruct (decide (j' = i)) as [->|]; [done|]. apply H3. lia.
Qed.

Lemma nonzero_bit z : in_width 64 z → z ≠ 0 → ∃ j, 0 ≤ j < 64 ∧ Z.testbit z j = true.
Proof.
  intros Hw Hz. exists (Z.log2 z). unfold in_width in Hw.
  split; [split; [apply Z.log2_nonneg|apply Z.log2_lt_pow2; lia]|]. apply Z.bit_log2. lia.
Qed.

Lemma trailing_zeros_spec z :
  in_width 64 z → z ≠ 0 →
  0 ≤ trailing_zeros z < 64 ∧ Z.testbit z (trailing_zeros z) = true ∧
  ∀ j, 0 ≤ j < trailing_zeros z → Z.testbit z j = false.
Proof.
  intros Hw Hz. apply (trailing_zeros_from_spec 64 0 z); [lia|]. by apply nonzero_bit.
Qed.

(** [p & (p - 1)] clears the lowest set bit and no other. *)
Lemma clear_lowest_testbit p k n :
  0 < p → 0 ≤ k → Z.testbit p k = true → (∀ j, 0 ≤ j < k → Z.testbit p j = false) → 0 ≤ n →
  Z.testbit (Z.land p (p - 1)) n = Z.testbit p n && negb (n =? k).
Proof.
  intros Hp Hk Hb Hlow Hn. rewrite Z.land_spec.
  destruct (Z.testbit p n) eqn:Hbn; [|done]. cbn [andb].
  assert (Hnk : k ≤ n) by (destruct (decide (n < k)); [rewrite Hlow in Hbn by lia; done|lia]).
  assert (Hmod : p mod 2 ^ k = 0).
  { apply Z.bits_inj'. intros j Hj. rewrite Z.bits_0. destruct (decide (j < k)).
    - rewrite Z.mod_pow2_bits_low by lia. apply Hlow. lia.
    - apply Z.mod_pow2_bits_high. lia. }
  assert (Hpk : 0 < 2 ^ k) by (apply Z.pow_pos_nonneg; lia).
  set (q := p / 2 ^ k). assert (Hpq : p = 2 ^ k * q) by (apply Z.div_exact; lia).
  assert (Hq : ∀ j, k ≤ j → Z.testbit p j = Z.testbit q (j - k)).
  { intros j Hj. unfold q. rewrite Z.div_pow2_bits by lia. f_equal. lia. }
  assert (Hodd : Z.odd q = true) by (rewrite <- Z.bit0_odd; rewrite <- Hb, (Hq k) by lia; f_equal; lia).
  apply Z.odd_spec in Hodd as [m Hm].
  assert (Hdiv : (p - 1) / 2 ^ k = 2 * m).
  { symmetry. apply (Z.div_unique_pos _ _ _ (2 ^ k - 1)); [lia|]. rewrite Hpq, Hm. ring. }
  replace n with (n - k + k) by lia. rewrite <- Z.div_pow2_bits, Hdiv by lia.
  destruct (Z.eqb_spec (n - k + k) k) as [He|He].
  - replace (n - k) with 0 by lia. apply Z.testbit_even_0.
  - rewrite (Hq n), Hm in Hbn by lia. replace (n - k) with (Z.succ (n - k - 1)) in * by lia.
    rewrite Z.testbit_even_succ by lia. by rewrite Z.testbit_odd_succ in Hbn by lia.
Qed.

(** A state whose words are 64-bit and whose table has its 64 entries. *)
Record signals_wf (s : SignalState) : Prop := {
  wf_pending : in_width 64 (pending s);
  wf_blocked : in_width 64 (blocked s);
  wf_handlers : length (handlers s) = 64%nat;
}.

Lemma deliverable_testbit s n :
  signals_wf s → 0 ≤ n →
  Z.testbit (deliverable s) n = Z.testbit (pending s) n && negb (Z.testbit (blocked s) n).
Proof.
  intros [Hp Hb _] Hn. unfold deliverable. rewrite Z.land_spec, wnot_testbit by (done || lia).
  case_bool_decide; [done|]. by rewrite (in_width_testbit 64 (pending s)) by (done || lia).
Qed.

Lemma deliverable_width s : signals_wf s → in_width 64 (deliverable s).
Proof.
  intros Hs. apply testbit_in_width; [lia| |].
  - apply Z.land_nonneg. left. apply Hs.
  - intros i Hi. rewrite deliverable_testbit by (done || lia).
    by rewrite (in_width_testbit 64 (pending s)) by (apply Hs || lia).
Qed.

(** A signal that is pending and not blocked. *)
Definition ready (sig : u32) (s : SignalState) : bool :=
  is_pending sig s && negb (is_blocked sig s).

Lemma ready_testbit sig s :
  signals_wf s → valid_sig sig → ready sig s = Z.testbit (deliverable s) (sig - 1).
Proof.
  intros Hs Hv. unfold ready, is_pending, is_blocked. rewrite !land_sig_mask by done.
  rewrite deliverable_testbit by (done || (unfold valid_sig in Hv; lia)). done.
Qed.

Lemma next_deliverable_signal_spec s :
  signals_wf s →
  match next_deliverable_signal s with
  | Some sig => valid_sig sig ∧ ready sig s = true ∧
      ∀ sig', valid_sig sig' → sig' < sig → ready sig' s = false
  | None => ∀ sig', valid_sig sig' → ready sig' s = false
  end.
Proof.
  intros Hs. unfold next_deliverable_signal.
  destruct (Z.eqb_spec (deliverable s) 0) as [Hz|Hz].
  - intros sig' Hv. rewrite ready_testbit by done. rewrite Hz. apply Z.bits_0.
  - destruct (trailing_zeros_spec _ (deliverable_width s Hs) Hz) as (Hr & Hb & Hlow).
    assert (Hv : valid_sig (trailing_zeros (deliverable s) + 1)) by (unfold valid_sig; lia).
    split; [done|]. split.
    + rewrite ready_testbit by done. by rewrite Z.add_simpl_r.
    + intros sig' Hv' Hlt. rewrite ready_testbit by done. apply Hlow. unfold valid_sig in Hv'. lia.
Qed.

(** [next_deliverable_signal] is the lowest-numbered signal that is pending
    and not blocked, and is None exactly when there is none. *)
Theorem next_deliverable_signal_lowest s :
  signals_wf s →
  match next_deliverable_signal s with
  | Some sig => valid_sig sig ∧ ready sig s = true ∧
      ∀ sig', valid_sig sig' → sig' < sig → ready sig' s = false
  | None => ∀ sig', valid_sig sig' → ready sig' s = false
  end.
Proof. apply next_deliverable_signal_spec. Qed.

Lemma signals_wf_new : signals_wf SignalState_new.
Proof. by split. Qed.

Lemma signals_wf_set_pending sig s : signals_wf s → signals_wf (set_pending sig s).
Proof.
  intros [Hp Hb Hh]. unfold set_pending. destruct (is_valid_signal sig) eqn:Hv; [|done].
  apply is_valid_signal_spec in Hv. pose proof (sig_mask_width sig Hv) as Hm.
  split; cbn; [|done..]. apply testbit_in_width; [lia| |].
  - apply Z.lor_nonneg. split; [apply Hp|apply Hm].
  - intros i Hi. rewrite Z.lor_spec, !(in_width_testbit 64) by (done || lia). done.
Qed.

(** SIGALRM (14) and SIGKILL (9) pending: SIGKILL goes first. *)
Lemma next_deliverable_signal_lowest_witness :
  let s := set_pending SIGKILL (set_pending SIGALRM SignalState_new) in
  ∃ sig, next_deliverable_signal s = Some sig ∧ ready sig s = true ∧ sig = SIGKILL.
Proof.
  cbn zeta. set (s := set_pending SIGKILL (set_pending SIGALRM SignalState_new)).
  pose proof (next_deliverable_signal_lowest s
    ltac:(apply signals_wf_set_pending, signals_wf_set_pending, signals_wf_new)) as H.
  destruct (next_deliverable_signal s) as [sig|] eqn:E.
  - exists sig. destruct H as (_ & Hr & _). split; [done|]. split; [done|].
    vm_compute in E. by injection E as <-.
  - vm_compute in E. discriminate.
Defined.

Lemma interrupting_loop_spec n p s :
  in_width 64 p → (∀ j, 0 ≤ j < 64 - Z.of_nat n → Z.testbit p j = false) →
  interrupting_loop (S n) p s = true ↔
    ∃ sig, valid_sig sig ∧ Z.testbit p (sig - 1) = true ∧ interrupts sig s = true.
Proof.
  revert p. induction n as [|n IH]; intros p Hw Hlow; cbn [interrupting_loop].
  all: destruct (Z.eqb_spec p 0) as [->|Hz];
    [split; [done|]; intros (sig & _ & Hb & _); by rewrite Z.bits_0 in Hb|].
  all: destruct (trailing_zeros_spec p Hw Hz) as (Hr & Hb & Hl).
  { rewrite Hlow in Hb by lia. done. }
  assert (Hv : valid_sig (trailing_zeros p + 1)) by (unfold valid_sig; lia).
  destruct (interrupts _ s) eqn:Hi.
  { split; [|done]. intros _. exists (trailing_zeros p + 1). rewrite Z.add_simpl_r. done. }
  unfold in_width in Hw. rewrite (wrap_small 64) by (unfold in_width; lia).
  set (k := trailing_zeros p) in *.
  assert (Hcl : ∀ j, 0 ≤ j → Z.testbit (Z.land p (p - 1)) j = Z.testbit p j && negb (j =? k))
    by (intros; apply clear_lowest_testbit; (done || lia)).
  change (interrupting_loop (S n) (Z.land p (p - 1)) s = true ↔
    ∃ sig, valid_sig sig ∧ Z.testbit p (sig - 1) = true ∧ interrupts sig s = true).
  rewrite IH.
  - split; intros (sig & Hvs & Hbs & His); exists sig; (split_and!; [done| |done]);
      rewrite Hcl in * by (unfold valid_sig in *; lia).
    + by apply andb_true_iff in Hbs as [? _].
    + rewrite Hbs. cbn [andb]. apply negb_true_iff, Z.eqb_neq. intros Hk.
      replace sig with (k + 1) in His by lia. congruence.
  - apply testbit_in_width; [lia|apply Z.land_nonneg; lia|].
    intros j Hj. rewrite Hcl by lia. by rewrite (in_width_testbit 64 p) by (unfold in_width; lia).
  - intros j Hj. rewrite Hcl by lia. destruct (Z.eqb_spec j k) as [->|]; [apply andb_false_r|].
    rewrite andb_true_r. destruct (decide (j < k)); [apply Hl; lia|].
    destruct (decide (j < 64 - Z.of_nat (S n))); [apply Hlow; lia|].
    exfalso. assert (k < 64 - Z.of_nat (S n)) by lia. rewrite Hlow in Hb by lia. done.
Qed.

(** [has_interrupting_signals] decides whether user space will see a
    signal: true exactly when some signal is pending, not blocked, and either
    has a handler or a default action that is not to ignore it. *)
Theorem has_interrupting_signals_exact s :
  signals_wf s →
  has_interrupting_signals s = true ↔
    ∃ sig, valid_sig sig ∧ ready sig s = true ∧
      (is_handler (get_handler sig s) = true ∨
       is_default (get_handler sig s) = true ∧ default_action sig ≠ Ignore).
Proof.
  intros Hs. unfold has_interrupting_signals. rewrite (interrupting_loop_spec 64);
    [|by apply deliverable_width|lia].
  apply exist_proper. intros sig. split; intros (Hv & Hr & Hi); (split; [done|]);
    rewrite ready_testbit in * by done; (split; [done|]); unfold interrupts in *.
  - apply andb_true_iff in Hi as [_ [?|[? Hd%bool_decide_eq_true]%andb_true_iff]%orb_true_iff]; auto.
  - apply andb_true_iff. unfold is_ignore, is_handler, is_default, SIG_IGN, SIG_DFL in *.
    destruct Hi as [Hh%Z.ltb_lt|[Hd%Z.eqb_eq Ha]]; (split; [apply negb_true_iff, Z.eqb_neq; lia|]);
      apply orb_true_iff; [left; by apply Z.ltb_lt|right].
    apply andb_true_iff. split; [by apply Z.eqb_eq|]. by apply bool_decide_eq_true.
Qed.

(** A pending SIGCHLD with the default action does not interrupt. *)
Lemma has_interrupting_signals_exact_witness :
  ¬ ∃ sig, valid_sig sig ∧ ready sig (set_pending SIGCHLD SignalState_new) = true ∧
      (is_handler (get_handler sig (set_pending SIGCHLD SignalState_new)) = true ∨
       is_default (get_handler sig (set_pending SIGCHLD SignalState_new)) = true ∧
       default_action sig ≠ Ignore).
Proof.
  intros H. apply has_interrupting_signals_exact in H.
  - vm_compute in H. discriminate.
  - apply signals_wf_set_pending, signals_wf_new.
Defined.

(** ** Histories of a signal state *)

Inductive sigop :=
  | OpSetPending (sig : u32)
  | OpClearPending (sig : u32)
  | OpBlock (m : u64)
  | OpUnblock (m : u64)
  | OpSetBlocked (m : u64)
  | OpSetHandler (sig : u32) (a : SignalAction)
  | OpFork
  | OpExecReset.

Definition sigop_step (o : sigop) (s : SignalState) : SignalState :=
  match o with
  | OpSetPending sig => set_pending sig s
  | OpClearPending sig => clear_pending sig s
  | OpBlock m => block_signals m s
  | OpUnblock m => unblock_signals m s
  | OpSetBlocked m => set_blocked m s
  | OpSetHandler sig a => set_handler sig a s
  | OpFork => SignalState_fork s
  | OpExecReset => exec_reset s
  end.

Definition sigop_run (os : list sigop) (s : SignalState) : SignalState :=
  foldl (λ s o, sigop_step o s) s os.

(** Neither SIGKILL nor SIGSTOP is in the blocked mask. *)
Definition unblockable (s : SignalState) : Prop :=
  Z.testbit (blocked s) 8 = false ∧ Z.testbit (blocked s) 18 = false.

Lemma uncatchable_cleared m n :
  n = 8 ∨ n = 18 → Z.testbit (Z.land m (wnot 64 UNCATCHABLE_SIGNALS)) n = false.
Proof.
  intros Hn. rewrite Z.land_spec.
  replace (Z.testbit (wnot 64 UNCATCHABLE_SIGNALS) n) with false; [apply andb_false_r|].
  by destruct Hn as [->| ->].
Qed.

Lemma set_blocked_unblockable m s : unblockable (set_blocked m s).
Proof. split; apply uncatchable_cleared; auto. Qed.

Lemma block_signals_unblockable m s : unblockable s → unblockable (block_signals m s).
Proof.
  intros [H1 H2]. split; cbn [block_signals with_blocked blocked]; rewrite Z.lor_spec;
    rewrite uncatchable_cleared by auto; by rewrite orb_false_r.
Qed.

Lemma sigop_step_unblockable o s : unblockable s → unblockable (sigop_step o s).
Proof.
  intros H. destruct o; cbn [sigop_step].
  - unfold set_pending. by case_match.
  - unfold clear_pending. by case_match.
  - by apply block_signals_unblockable.
  - destruct H as [H1 H2]. split; cbn [unblock_signals with_blocked blocked]; rewrite Z.land_spec;
      by rewrite ?H1, ?H2.
  - apply set_blocked_unblockable.
  - unfold set_handler. by case_match.
  - done.
  - done.
Qed.

(** SIGKILL and SIGSTOP can never be blocked: no history of signal-state
    operations, whatever masks user space passes, puts them in the blocked
    mask. *)
Theorem kill_and_stop_never_blocked os :
  let s := sigop_run os SignalState_new in
  is_blocked SIGKILL s = false ∧ is_blocked SIGSTOP s = false.
Proof.
  assert (H : unblockable (sigop_run os SignalState_new)).
  { unfold sigop_run. assert (H0 : unblockable SignalState_new) by done. revert H0.
    generalize SignalState_new. induction os as [|o os IH]; intros s Hs; [done|].
    cbn. apply IH. by apply sigop_step_unblockable. }
  cbn zeta. unfold is_blocked. rewrite !land_sig_mask by (unfold valid_sig, SIGKILL, SIGSTOP; lia).
  exact H.
Qed.

(** ** Time values *)

Lemma as_i64_small z : 0 ≤ z < 2 ^ 63 → as_i64 z = z.
Proof.
  intros Hz. unfold as_i64, as_signed. change (2 ^ 63) with 9223372036854775808 in Hz.
  rewrite wrap_small by (unfold in_width; change (2 ^ 64) with 18446744073709551616; lia).
  change (2 ^ (64 - 1)) with 9223372036854775808. case_match; bool_simpl; lia.
Qed.

(** Every microsecond count a timer can hold survives the conversion to a
    timeval and back, and the timeval is normalised. *)
Lemma timeval_roundtrip micros :
  in_width 64 micros →
  to_micros (from_micros micros) = micros ∧ 0 ≤ tv_usec (from_micros micros) < 1000000.
Proof.
  intros Hm. unfold in_width in Hm. change (2 ^ 64) with 18446744073709551616 in Hm.
  unfold to_micros, from_micros.
  pose proof (Z.mod_pos_bound micros 1000000 ltac:(lia)).
  pose proof (Z.div_mod micros 1000000 ltac:(lia)).
  assert (0 ≤ micros / 1000000 ≤ 18446744073709) by (split; [apply Z.div_pos; lia|]; lia).
  rewrite !as_i64_small by (change (2 ^ 63) with 9223372036854775808; lia). cbn [tv_sec tv_usec].
  split; [|done].
  rewrite !(proj2 (Z.ltb_ge _ _)) by lia. cbn [orb].
  rewrite (wrap_small 64 (_ * _)), wrap_small;
    unfold in_width; change (2 ^ 64) with 18446744073709551616; lia.
Qed.

(** Ticks of the given lengths, counting the expirations. *)
Definition tick_all (es : list u64) (t : IntervalTimer) : IntervalTimer * nat :=
  foldl (λ '(t, n) e, let '(t, fired) := tick e t in (t, if fired then S n else n)) (t, 0%nat) es.

Lemma tick_balance e t :
  0 < remaining_usec t ≤ interval_usec t → 0 ≤ e ≤ interval_usec t →
  let '(t', fired) := tick e t in
  0 < remaining_usec t' ≤ interval_usec t' ∧ interval_usec t' = interval_usec t ∧
  e + remaining_usec t' = remaining_usec t + (if fired then interval_usec t else 0).
Proof.
  intros Hr He. unfold tick. rewrite (proj2 (Z.eqb_neq _ _)) by lia.
  destruct (Z.leb_spec (remaining_usec t) e); cbn [remaining_usec interval_usec]; [|lia].
  rewrite (proj2 (Z.ltb_lt _ _)) by lia. rewrite (proj2 (Z.leb_gt _ _)) by lia.
  cbn [remaining_usec interval_usec]. lia.
Qed.

Lemma tick_all_balance es t n :
  0 < remaining_usec t ≤ interval_usec t → Forall (λ e, 0 ≤ e ≤ interval_usec t) es →
  let '(t', n') := foldl (λ '(t, n) e, let '(t, fired) := tick e t in
    (t, if fired then S n else n)) (t, n) es in
  0 < remaining_usec t' ≤ interval_usec t ∧
  foldr Z.add 0 es + remaining_usec t' + Z.of_nat n * interval_usec t =
    remaining_usec t + Z.of_nat n' * interval_usec t.
Proof.
  revert t n. induction es as [|e es IH]; intros t n Hr Hes; cbn [foldl foldr]; [lia|].
  apply Forall_cons in Hes as [He Hes]. pose proof (tick_balance e t Hr He) as Hb.
  destruct (tick e t) as [t1 fired]. destruct Hb as (Hr1 & Hi & Hb).
  specialize (IH t1 (if fired then S n else n)). rewrite Hi in IH.
  specialize (IH ltac:(rewrite <- Hi; done) Hes).
  destruct (foldl _ _ es) as [t' n']. destruct IH as [? IH]. split; [done|]. destruct fired; lia.
Qed.

(** a periodic timer does not drift: as long as no single tick is longer
    than the period, the number of expirations is exactly the number of period
    boundaries the elapsed time has crossed. *)
Theorem periodic_timer_exact es t :
  0 < remaining_usec t ≤ interval_usec t → Forall (λ e, 0 ≤ e ≤ interval_usec t) es →
  let '(t', n) := tick_all es t in
  let elapsed := foldr Z.add 0 es in
  Z.of_nat n = (elapsed - remaining_usec t) / interval_usec t + 1 ∧
  remaining_usec t' = remaining_usec t + Z.of_nat n * interval_usec t - elapsed.
Proof.
  intros Hr Hes. pose proof (tick_all_balance es t 0 Hr Hes) as H. unfold tick_all.
  destruct (foldl _ _ es) as [t' n]. destruct H as [Hr' Hb]. cbn zeta. split; [|lia].
  assert (Hd : (foldr Z.add 0 es - remaining_usec t) / interval_usec t = Z.of_nat n - 1).
  { symmetry. apply (Z.div_unique_pos _ _ _ (interval_usec t - remaining_usec t')); lia. }
  lia.
Qed.

(** A 10 ms timer over 25 ticks of 1 ms: two expirations, 5 ms left. *)
Lemma periodic_timer_exact_witness :
  let '(t', n) := tick_all (replicate 25 1000) (mkTimer 10000 10000) in
  n = 2%nat ∧ remaining_usec t' = 5000.
Proof.
  pose proof (periodic_timer_exact (replicate 25 1000) (mkTimer 10000 10000)) as H.
  destruct (tick_all _ _) as [t' n].
  destruct H as [H1 H2].
  - cbn. lia.
  - apply Forall_replicate. cbn. lia.
  - assert (Hz : Z.of_nat n = 2) by (rewrite H1; reflexivity). assert (Hn : n = 2%nat) by lia. split; [done|]. subst n. rewrite H2. reflexivity.
Defined.
