(* ===== verification/SigDeliver.v ===== *)
(** * Signal delivery and return (kernel/src/signal/delivery.rs, x86_64)

    Delivery interrupts a process on its way back to user space: it writes a
    [SignalFrame] and a trampoline to the user stack and redirects the
    interrupt frame to the handler.  [sys_sigreturn_with_frame]
    (kernel/src/syscall/signal.rs) reads the frame back.  Both act on the flat
    memory of [Bytes].  Address canonicity ([VirtAddr::try_new] of the x86_64
    crate) is the parameter [canonical]. *)

From S2P Require Import Prelude Bytes UserPtr Signal.

(** ** Registers and frames *)

Record Regs := mkRegs {
  rax : u64; rbx : u64; rcx : u64; rdx : u64; rdi : u64; rsi : u64; rbp : u64;
  r8 : u64; r9 : u64; r10 : u64; r11 : u64; r12 : u64; r13 : u64; r14 : u64; r15 : u64;
}.

(** The part of the CPU's interrupt frame that delivery reads or changes. *)
Record InterruptFrame := mkIFrame {
  instruction_pointer : u64;
  stack_pointer : u64;
  cpu_flags : u64;
}.

Record SyscallFrame := mkSFrame {
  f_regs : Regs;
  f_rip : u64;
  f_cs : u64;
  f_rflags : u64;
  f_rsp : u64;
  f_ss : u64;
}.

Record SignalFrame := mkSignalFrame {
  trampoline_addr : u64;
  magic : u64;
  signal : u64;
  siginfo_ptr : u64;
  ucontext_ptr : u64;
  saved_rip : u64;
  saved_rsp : u64;
  saved_rflags : u64;
  saved_regs : Regs;
  saved_blocked : u64;
}.

Definition MAGIC : u64 := 0xDEADBEEFCAFEBABE.

(** The fields of the [repr(C)] struct in memory order, each eight bytes. *)
Definition regs_words (r : Regs) : list u64 :=
  [rax r; rbx r; rcx r; rdx r; rdi r; rsi r; rbp r; r8 r; r9 r; r10 r; r11 r; r12 r; r13 r;
   r14 r; r15 r].

Definition frame_words (f : SignalFrame) : list u64 :=
  [trampoline_addr f; magic f; signal f; siginfo_ptr f; ucontext_ptr f; saved_rip f; saved_rsp f;
   saved_rflags f] ++ regs_words (saved_regs f) ++ [saved_blocked f].

Definition FRAME_WORDS : nat := 24.
Definition FRAME_SIZE : nat := 192.

Definition encode_frame (f : SignalFrame) : list u8 := concat (map (le_bytes 8) (frame_words f)).

Fixpoint split_words (n : nat) (bs : list u8) : list u64 :=
  match n with
  | O => []
  | S n => le_value (take 8 bs) :: split_words n (drop 8 bs)
  end.

Definition decode_frame (bs : list u8) : SignalFrame :=
  let w i := nth i (split_words FRAME_WORDS bs) 0 in
  mkSignalFrame (w 0%nat) (w 1%nat) (w 2%nat) (w 3%nat) (w 4%nat) (w 5%nat) (w 6%nat) (w 7%nat)
    (mkRegs (w 8%nat) (w 9%nat) (w 10%nat) (w 11%nat) (w 12%nat) (w 13%nat) (w 14%nat) (w 15%nat)
       (w 16%nat) (w 17%nat) (w 18%nat) (w 19%nat) (w 20%nat) (w 21%nat) (w 22%nat))
    (w 23%nat).

(** kernel/src/signal/trampoline.rs: [mov rax, 15; int 0x80; ud2]. *)
Definition SIGNAL_TRAMPOLINE : list u8 :=
  [0x48; 0xC7; 0xC0; 0x0F; 0x00; 0x00; 0x00; 0xCD; 0x80; 0x0F; 0x0B].
Definition SIGNAL_TRAMPOLINE_SIZE : Z := 11.

Definition USER_RFLAGS_MASK : u64 := 0xCD5.
Definition REQUIRED_RFLAGS : u64 := 0x200.

(** ** Processes as delivery sees them *)

Inductive ProcessState := Creating | Ready | Running | Blocked | Terminated (code : i32).

Record sproc := mkSproc {
  sp_id : Z;
  sp_state : ProcessState;
  sp_exit_code : option i32;
  sp_signals : SignalState;
  sp_parent : option Z;
  sp_thread : option tid;
}.

Definition with_state (st : ProcessState) (p : sproc) : sproc :=
  mkSproc (sp_id p) st (sp_exit_code p) (sp_signals p) (sp_parent p) (sp_thread p).
Definition with_signals (s : SignalState) (p : sproc) : sproc :=
  mkSproc (sp_id p) (sp_state p) (sp_exit_code p) s (sp_parent p) (sp_thread p).

(** The state change of [Process::terminate]; the descriptors it closes are
    [Process_close_all_fds] of [FdTable]. *)
Definition terminate (code : i32) (p : sproc) : sproc :=
  match sp_state p with
  | Terminated _ => p
  | _ => mkSproc (sp_id p) (Terminated code) (Some code) (sp_signals p) (sp_parent p) (sp_thread p)
  end.

(** parent, child *)
Definition ParentNotification : Type := Z * Z.

Definition notify_parent_of_termination (p : sproc) : option ParentNotification :=
  match sp_parent p with
  | Some parent => Some (parent, sp_id p)
  | None => None
  end.

Inductive DeliverResult := DRDelivered | DRIgnored | DRTerminated (n : ParentNotification).
Inductive SignalDeliveryResult := NoAction | Delivered | SDTerminated (n : ParentNotification).

(** The process, the frames it will return through, user memory, and the
    scheduler threads marked terminated so far. *)
Record dstate := mkD {
  d_proc : sproc;
  d_frame : InterruptFrame;
  d_regs : Regs;
  d_mem : memory;
  d_killed : list tid;
}.

Definition kill_process (code : i32) (d : dstate) : dstate * DeliverResult :=
  let p := terminate code (d_proc d) in
  let killed := match sp_thread p with Some t => d_killed d ++ [t] | None => d_killed d end in
  (mkD p (d_frame d) (d_regs d) (d_mem d) killed,
   match notify_parent_of_termination p with Some n => DRTerminated n | None => DRDelivered end).

Definition set_proc (p : sproc) (d : dstate) : dstate :=
  mkD p (d_frame d) (d_regs d) (d_mem d) (d_killed d).

Definition deliver_default_action (sig : u32) (d : dstate) : dstate * DeliverResult :=
  match default_action sig with
  | Terminate => kill_process (- sig) d
  | CoreDump => kill_process (- Z.lor sig 0x80) d
  | Stop => (set_proc (with_state Blocked (d_proc d)) d, DRDelivered)
  | Continue =>
      match sp_state (d_proc d) with
      | Blocked => (set_proc (with_state Ready (d_proc d)) d, DRDelivered)
      | _ => (d, DRIgnored)
      end
  | Ignore => (d, DRIgnored)
  end.

Section delivery.
Context (canonical : u64 → bool).

(** [addr & !0xF] *)
Definition align16 (a : u64) : u64 := Z.land a (wnot 64 0xF).

Definition set_on_stack (b : bool) (s : SignalState) : SignalState :=
  let a := alt_stack s in with_alt_stack (mkAltStack (alt_base a) (alt_size a) (alt_flags a) b) s.

(** [use_alt_stack] *)
Definition uses_alt_stack (action : SignalAction) (s : SignalState) : bool :=
  negb (Z.land (sa_flags action) SA_ONSTACK =? 0) &&
  (Z.land (alt_flags (alt_stack s)) SS_DISABLE =? 0) &&
  (0 <? alt_size (alt_stack s)) && negb (on_stack (alt_stack s)).

(** Where the frame goes, where the handler returns to, and the memory with the
    trampoline written if there is no restorer. *)
Definition place_frame (user_rsp : u64) (action : SignalAction) (m : memory) : u64 * u64 * memory :=
  if negb (Z.land (sa_flags action) SA_RESTORER =? 0) && negb (restorer action =? 0) then
    (align16 (wrap 64 (user_rsp - Z.of_nat FRAME_SIZE)), restorer action, m)
  else
    let total_size := Z.of_nat FRAME_SIZE + SIGNAL_TRAMPOLINE_SIZE in
    let frame_rsp := align16 (wrap 64 (user_rsp - total_size)) in
    let trampoline_rsp := wrap 64 (frame_rsp + Z.of_nat FRAME_SIZE) in
    (frame_rsp, trampoline_rsp, mem_write m trampoline_rsp SIGNAL_TRAMPOLINE).

Definition deliver_to_user_handler_x86_64 (sig : u32) (handler_addr : u64) (action : SignalAction)
    (d : dstate) : dstate * bool :=
  let s := sp_signals (d_proc d) in
  let original_rsp := stack_pointer (d_frame d) in
  let use_alt_stack := uses_alt_stack action s in
  let user_rsp := if use_alt_stack
                  then wrap 64 (alt_base (alt_stack s) + alt_size (alt_stack s))
                  else original_rsp in
  let s := if use_alt_stack then set_on_stack true s else s in
  let '(frame_rsp, return_addr, m) := place_frame user_rsp action (d_mem d) in
  let signal_frame :=
    mkSignalFrame return_addr MAGIC sig 0 0 (instruction_pointer (d_frame d)) original_rsp
      (cpu_flags (d_frame d)) (d_regs d) (blocked s) in
  let m := mem_write m frame_rsp (encode_frame signal_frame) in
  let s := if Z.land (sa_flags action) SA_NODEFER =? 0 then block_signals (sig_mask sig) s else s in
  let s := block_signals (mask action) s in
  let p := with_signals s (d_proc d) in
  if negb (canonical handler_addr) then
    (mkD p (d_frame d) (d_regs d) m (d_killed d), false)
  else if negb (canonical frame_rsp) then
    (mkD p (d_frame d) (d_regs d) m (d_killed d), false)
  else
    let r := d_regs d in
    (mkD p (mkIFrame handler_addr frame_rsp (cpu_flags (d_frame d)))
       (mkRegs (rax r) (rbx r) (rcx r) 0 sig 0 (rbp r) (r8 r) (r9 r) (r10 r) (r11 r) (r12 r)
          (r13 r) (r14 r) (r15 r)) m (d_killed d), true).

(** The [loop] of [deliver_pending_signals].  Each turn clears a pending bit,
    so a turn per signal and one to find none left are enough; [None] is out of
    fuel. *)
Fixpoint deliver_loop (fuel : nat) (d : dstate) : option (dstate * SignalDeliveryResult) :=
  match fuel with
  | O => None
  | S fuel =>
      match next_deliverable_signal (sp_signals (d_proc d)) with
      | None => Some (d, NoAction)
      | Some sig =>
          let d := set_proc (with_signals (clear_pending sig (sp_signals (d_proc d))) (d_proc d)) d in
          let action := get_handler sig (sp_signals (d_proc d)) in
          if handler action =? SIG_DFL then
            match deliver_default_action sig d with
            | (d, DRDelivered) => Some (d, Delivered)
            | (d, DRTerminated n) => Some (d, SDTerminated n)
            | (d, DRIgnored) => deliver_loop fuel d
            end
          else if handler action =? SIG_IGN then deliver_loop fuel d
          else
            let '(d, ok) := deliver_to_user_handler_x86_64 sig (handler action) action d in
            Some (d, if ok then Delivered else NoAction)
      end
  end.

Definition deliver_pending_signals (d : dstate) : option (dstate * SignalDeliveryResult) :=
  deliver_loop 65 d.
End delivery.

(** ** Returning from a handler (kernel/src/syscall/signal.rs) *)

(** [proc] is the caller's signal state as found through [try_manager]: [None]
    when the lock is taken or the process is not found. *)
Definition sys_sigreturn_with_frame (current_thread : option tid) (m : memory) (frame : SyscallFrame)
    (proc : option SignalState) : SyscallFrame * option SignalState * result u64 u64 :=
  match copy_from_user FRAME_SIZE (wrap 64 (f_rsp frame - 8)) m with
  | Err errno => (frame, proc, Err errno)
  | Ok bs =>
      let signal_frame := decode_frame bs in
      if negb (magic signal_frame =? MAGIC) then (frame, proc, Err 14)
      else if USER_SPACE_END <=? saved_rip signal_frame then (frame, proc, Err 14)
      else if USER_SPACE_END <=? saved_rsp signal_frame then (frame, proc, Err 14)
      else
        let sanitized_rflags :=
          Z.lor (Z.land (saved_rflags signal_frame) USER_RFLAGS_MASK) REQUIRED_RFLAGS in
        let frame := mkSFrame (saved_regs signal_frame) (saved_rip signal_frame) (f_cs frame)
          sanitized_rflags (saved_rsp signal_frame) (f_ss frame) in
        match current_thread with
        | None => (frame, proc, Err 3)
        | Some _ =>
            let proc :=
              match proc with
              | None => None
              | Some s =>
                  let s :=
                    match sigsuspend_saved_mask s with
                    | Some saved_mask => set_blocked saved_mask (with_saved_mask None s)
                    | None => set_blocked (saved_blocked signal_frame) s
                    end in
                  Some (if on_stack (alt_stack s) then set_on_stack false s else s)
              end in
            (frame, proc, Ok 0)
        end
  end.

(** ** The delivery loop *)

Lemma is_pending_testbit sig s : valid_sig sig → is_pending sig s = Z.testbit (pending s) (sig - 1).
Proof. apply land_sig_mask. Qed.

Lemma clear_pending_testbit sig s n :
  valid_sig sig → signals_wf s → 0 ≤ n →
  Z.testbit (pending (clear_pending sig s)) n = Z.testbit (pending s) n && negb (n =? sig - 1).
Proof.
  intros Hv Hs Hn. unfold clear_pending. rewrite (proj2 (is_valid_signal_spec sig) Hv).
  cbn [with_pending pending]. rewrite Z.land_spec, wnot_testbit, sig_mask_testbit
    by (done || lia || by apply sig_mask_width).
  case_bool_decide; [done|]. by rewrite (in_width_testbit 64 (pending s)) by (apply Hs || lia).
Qed.

Lemma clear_pending_keeps sig s :
  blocked (clear_pending sig s) = blocked s ∧ handlers (clear_pending sig s) = handlers s.
Proof. unfold clear_pending. by case_match. Qed.

Lemma signals_wf_clear sig s : valid_sig sig → signals_wf s → signals_wf (clear_pending sig s).
Proof.
  intros Hv Hs. destruct (clear_pending_keeps sig s) as [Hb Hh].
  split; rewrite ?Hb, ?Hh; try apply Hs. apply testbit_in_width; [lia| |].
  - unfold clear_pending. case_match; cbn; [apply Z.land_nonneg; left|]; apply Hs.
  - intros i Hi. rewrite clear_pending_testbit by (done || lia).
    by rewrite (in_width_testbit 64 (pending s)) by (apply Hs || lia).
Qed.

Lemma ready_clear sig sig' s :
  valid_sig sig → valid_sig sig' → signals_wf s →
  ready sig' (clear_pending sig s) = ready sig' s && negb (sig' =? sig).
Proof.
  intros Hv Hv' Hs. unfold ready, is_blocked. destruct (clear_pending_keeps sig s) as [-> _].
  rewrite !is_pending_testbit, clear_pending_testbit by (done || (unfold valid_sig in *; lia)).
  replace (sig' - 1 =? sig - 1) with (sig' =? sig); [rewrite <- !andb_assoc; f_equal; apply andb_comm|].
  apply eq_true_iff_eq. rewrite !Z.eqb_eq. lia.
Qed.

(** Delivery throws the signal away: it is ignored explicitly or by default, or
    continues a process that is not stopped. *)
Definition discards (sig : u32) (p : sproc) : Prop :=
  let a := get_handler sig (sp_signals p) in
  is_ignore a = true ∨
  is_default a = true ∧
    (default_action sig = Ignore ∨ default_action sig = Continue ∧ sp_state p ≠ Blocked).

Section loop.
Context (canonical : u64 → bool).

Lemma deliver_to_user_handler_pending sig h a d :
  pending (sp_signals (d_proc (deliver_to_user_handler_x86_64 canonical sig h a d).1)) =
  pending (sp_signals (d_proc d)).
Proof.
  unfold deliver_to_user_handler_x86_64. destruct (place_frame _ _ _) as [[fr ra] m].
  repeat case_match; done.
Qed.

Lemma deliver_default_action_outcome sig d :
  match deliver_default_action sig d with
  | (d', DRIgnored) => d' = d ∧ (default_action sig = Ignore ∨
      default_action sig = Continue ∧ sp_state (d_proc d) ≠ Blocked)
  | (d', _) => pending (sp_signals (d_proc d')) = pending (sp_signals (d_proc d)) ∧
      ¬ (default_action sig = Ignore ∨ default_action sig = Continue ∧ sp_state (d_proc d) ≠ Blocked)
  end.
Proof.
  unfold deliver_default_action, kill_process.
  destruct (default_action sig) eqn:Ha.
  - destruct (notify_parent_of_termination _); (split; [|intros [?|[? _]]; congruence]);
      unfold terminate; by case_match.
  - auto.
  - destruct (notify_parent_of_termination _); (split; [|intros [?|[? _]]; congruence]);
      unfold terminate; by case_match.
  - split; [done|]. intros [?|[? _]]; congruence.
  - destruct (sp_state (d_proc d)) eqn:Hst; (split; [done|]); try (right; split; congruence).
    intros [?|[_ ?]]; congruence.
Qed.

(** [d] after the pending bit of [sig] is cleared. *)
Definition taken (sig : u32) (d : dstate) : dstate :=
  set_proc (with_signals (clear_pending sig (sp_signals (d_proc d))) (d_proc d)) d.

Lemma taken_get_handler sig d x :
  get_handler x (sp_signals (d_proc (taken sig d))) = get_handler x (sp_signals (d_proc d)).
Proof. unfold get_handler. cbn. by destruct (clear_pending_keeps sig (sp_signals (d_proc d))) as [_ ->]. Qed.

Lemma taken_discards sig d x : discards x (d_proc (taken sig d)) ↔ discards x (d_proc d).
Proof. unfold discards. by rewrite taken_get_handler. Qed.

(** [sig] is the lowest deliverable signal of [d]. *)
Definition first_ready (sig : u32) (d : dstate) : Prop :=
  valid_sig sig ∧ ready sig (sp_signals (d_proc d)) = true ∧
  ∀ sig', valid_sig sig' → sig' < sig → ready sig' (sp_signals (d_proc d)) = false.

(** [d] after the signals of [dropped] are thrown away, and nothing else. *)
Definition drop_all (dropped : list u32) (d : dstate) : dstate := foldl (λ d x, taken x d) d dropped.

(** What a signal that is not discarded comes to: its default action, or its
    handler, which is not entered when an address is not canonical. *)
Definition act_on (sig : u32) (d : dstate) : dstate * SignalDeliveryResult :=
  let a := get_handler sig (sp_signals (d_proc d)) in
  if is_default a then
    let '(d', res) := deliver_default_action sig d in
    (d', match res with DRTerminated n => SDTerminated n | _ => Delivered end)
  else
    let '(d', ok) := deliver_to_user_handler_x86_64 canonical sig (handler a) a d in
    (d', if ok then Delivered else NoAction).

(** What delivery from [d] comes to.  The deliverable signals up to [last] stop
    being pending and no other pending bit changes.  The [dropped] ones are
    discarded; either they are all the deliverable signals and nothing else
    happens, or they are the ones below [last], which is not discarded and is
    acted upon. *)
Definition stops (d d' : dstate) (r : SignalDeliveryResult) : Prop :=
  ∃ last dropped,
    (∀ x, x ∈ dropped → discards x (d_proc d)) ∧
    (∀ x, valid_sig x → is_pending x (sp_signals (d_proc d')) =
      is_pending x (sp_signals (d_proc d)) && negb (ready x (sp_signals (d_proc d)) && (x <=? last))) ∧
    (r = NoAction ∧ last = 64 ∧ d' = drop_all dropped d ∧
      (∀ x, x ∈ dropped ↔ valid_sig x ∧ ready x (sp_signals (d_proc d)) = true) ∨
     valid_sig last ∧ ready last (sp_signals (d_proc d)) = true ∧ ¬ discards last (d_proc d) ∧
      (∀ x, x ∈ dropped ↔ valid_sig x ∧ x < last ∧ ready x (sp_signals (d_proc d)) = true) ∧
      (d', r) = act_on last (drop_all (dropped ++ [last]) d)).

Lemma taken_pending sig d x :
  signals_wf (sp_signals (d_proc d)) → valid_sig sig → valid_sig x →
  is_pending x (sp_signals (d_proc (taken sig d))) =
  is_pending x (sp_signals (d_proc d)) && negb (x =? sig).
Proof.
  intros Hwf Hv Hx. rewrite !is_pending_testbit by done. cbn.
  rewrite clear_pending_testbit by (done || (unfold valid_sig in *; lia)).
  do 2 f_equal. apply eq_true_iff_eq. rewrite !Z.eqb_eq. lia.
Qed.

Lemma taken_ready sig d x :
  signals_wf (sp_signals (d_proc d)) → valid_sig sig → valid_sig x →
  ready x (sp_signals (d_proc (taken sig d))) = ready x (sp_signals (d_proc d)) && negb (x =? sig).
Proof. intros. by apply ready_clear. Qed.

Lemma stops_none d :
  (∀ x, valid_sig x → ready x (sp_signals (d_proc d)) = false) → stops d d NoAction.
Proof.
  intros Hno. exists 64, []. split_and!; [by intros x ?%elem_of_nil| |left; split_and!; try done].
  - intros x Hx. by rewrite (Hno x Hx), andb_true_r.
  - intros x. split; [by intros ?%elem_of_nil|]. intros [Hx Hr]. by rewrite Hno in Hr.
Qed.

Lemma stops_take sig d d' r :
  signals_wf (sp_signals (d_proc d)) → first_ready sig d → ¬ discards sig (d_proc d) →
  pending (sp_signals (d_proc d')) = pending (sp_signals (d_proc (taken sig d))) →
  (d', r) = act_on sig (taken sig d) → stops d d' r.
Proof.
  intros Hwf (Hv & Hr & Hfirst) Hnd Hp Hact. exists sig, [].
  split_and!; [by intros x ?%elem_of_nil| |right; split_and!; try done].
  - intros x Hx. unfold is_pending at 1. rewrite Hp.
    fold (is_pending x (sp_signals (d_proc (taken sig d)))). rewrite taken_pending by done. f_equal. f_equal.
    destruct (Z.lt_trichotomy x sig) as [Hlt|[->|Hgt]].
    + rewrite (Hfirst x Hx Hlt). by apply Z.eqb_neq; lia.
    + by rewrite Hr, Z.eqb_refl, Z.leb_refl.
    + rewrite (proj2 (Z.leb_gt _ _) Hgt), andb_false_r. apply Z.eqb_neq; lia.
  - intros x. split; [by intros ?%elem_of_nil|]. intros (Hx & Hlt & Hrx). by rewrite Hfirst in Hrx.
Qed.

Lemma stops_skip sig d d' r :
  signals_wf (sp_signals (d_proc d)) → first_ready sig d → discards sig (d_proc d) →
  stops (taken sig d) d' r → stops d d' r.
Proof.
  intros Hwf (Hv & Hr & Hfirst) Hd (last & dropped & Hdis & Hpend & Hend).
  assert (Hle : sig ≤ last).
  { destruct Hend as [(_ & -> & _)|(Hvl & Hrl & _)]; [apply Hv|]. rewrite taken_ready in Hrl by done.
    destruct (Z.le_gt_cases sig last) as [?|Hlt]; [done|]. by rewrite Hfirst in Hrl. }
  exists last, (sig :: dropped). split_and!.
  - intros x [->|Hx]%elem_of_cons; [done|]. by apply (taken_discards sig), Hdis.
  - intros x Hx. rewrite Hpend, taken_pending, taken_ready by done.
    destruct (Z.eqb_spec x sig) as [->|]; cbn [negb]; [|by rewrite !andb_true_r].
    rewrite Hr, (proj2 (Z.leb_le _ _) Hle). by destruct (is_pending sig _).
  - destruct Hend as [(-> & -> & -> & Hall)|(Hvl & Hrl & Hnl & Hall & Hact)]; [left|right]; split_and!; try done.
    + intros x. rewrite elem_of_cons, Hall. split.
      * intros [->|[Hx Hrx]]; [done|]. rewrite taken_ready in Hrx by done. by apply andb_true_iff in Hrx as [? _].
      * intros [Hx Hrx]. destruct (decide (x = sig)) as [->|Hne]; [by left|right]. split; [done|].
        by rewrite taken_ready, Hrx, (proj2 (Z.eqb_neq _ _) Hne).
    + rewrite taken_ready in Hrl by done. by apply andb_true_iff in Hrl as [? _].
    + by rewrite <- (taken_discards sig).
    + assert (sig < last).
      { destruct (decide (last = sig)) as [->|]; [|lia]. by rewrite taken_ready, Z.eqb_refl, andb_false_r in Hrl. }
      intros x. rewrite elem_of_cons, Hall. split.
      * intros [->|(Hx & Hlt & Hrx)]; [done|]. rewrite taken_ready in Hrx by done.
        by apply andb_true_iff in Hrx as [? _].
      * intros (Hx & Hlt & Hrx). destruct (decide (x = sig)) as [->|Hne]; [by left|right]. split; [done|].
        split; [done|]. by rewrite taken_ready, Hrx, (proj2 (Z.eqb_neq _ _) Hne).
Qed.

(** Taking the lowest deliverable signal raises the lowest deliverable bit. *)
Lemma taken_low n sig d :
  signals_wf (sp_signals (d_proc d)) → first_ready sig d →
  (∀ j, 0 ≤ j < n → Z.testbit (deliverable (sp_signals (d_proc d))) j = false) →
  ∀ j, 0 ≤ j < (n + 1) `min` 64 →
    Z.testbit (deliverable (sp_signals (d_proc (taken sig d)))) j = false.
Proof.
  intros Hwf (Hv & Hr & Hfirst) Hlow j Hj. replace j with (j + 1 - 1) by lia.
  rewrite <- ready_testbit by (by apply signals_wf_clear || (unfold valid_sig; lia)).
  cbn [taken set_proc d_proc with_signals sp_signals].
  rewrite ready_clear by (done || (unfold valid_sig; lia)).
  destruct (Z.eqb_spec (j + 1) sig); [apply andb_false_r|]. rewrite andb_true_r.
  destruct (decide (j + 1 < sig)); [apply Hfirst; (done || (unfold valid_sig; lia))|].
  exfalso. rewrite ready_testbit, Hlow in Hr by (done || (unfold valid_sig in Hv; lia)). done.
Qed.

Lemma deliver_loop_spec n d :
  (n ≤ 64)%nat → signals_wf (sp_signals (d_proc d)) →
  (∀ j, 0 ≤ j < 64 - Z.of_nat n → Z.testbit (deliverable (sp_signals (d_proc d))) j = false) →
  ∃ d' r, deliver_loop canonical (S n) d = Some (d', r) ∧ stops d d' r.
Proof.
  revert d. induction n as [|n IH]; intros d Hn Hwf Hlow; cbn [deliver_loop];
    pose proof (next_deliverable_signal_spec _ Hwf) as Hnx;
    destruct (next_deliverable_signal (sp_signals (d_proc d))) as [sig|];
    try (exists d, NoAction; split; [done|]; by apply stops_none).
  { destruct Hnx as (Hv & Hr & _).
    rewrite ready_testbit, Hlow in Hr by (done || (unfold valid_sig in Hv; lia)). done. }
  assert (Hfirst : first_ready sig d) by exact Hnx. fold (taken sig d).
  assert (Hfin : ∀ d' r, ¬ discards sig (d_proc d) →
    pending (sp_signals (d_proc d')) = pending (sp_signals (d_proc (taken sig d))) →
    (d', r) = act_on sig (taken sig d) → ∃ d'' r', Some (d', r) = Some (d'', r') ∧ stops d d'' r')
    by (intros d' r Hnd Hp Hact; exists d', r; split; [done|]; by eapply stops_take).
  assert (Hrec : discards sig (d_proc d) → ∃ d' r,
    deliver_loop canonical (S n) (taken sig d) = Some (d', r) ∧ stops d d' r).
  { intros Hd. destruct (IH (taken sig d)) as (d' & r & E & Ho); [lia| | |].
    - apply signals_wf_clear; [apply Hnx|done].
    - intros j Hj. apply (taken_low (64 - Z.of_nat (S n))); (done || lia).
    - exists d', r. split; [done|]. by eapply stops_skip. }
  unfold act_on in Hfin. rewrite taken_get_handler in Hfin |- *. unfold discards, is_ignore, is_default in Hfin, Hrec.
  destruct (Z.eqb_spec (handler (get_handler sig (sp_signals (d_proc d)))) SIG_DFL) as [Hdf|Hdf].
  - pose proof (deliver_default_action_outcome sig (taken sig d)) as Ho.
    rewrite Hdf in Hfin, Hrec. cbn in Hfin, Hrec.
    destruct (deliver_default_action sig (taken sig d)) as [d2 [| |nt]].
    + apply Hfin; [|apply Ho|done]. by intros [?|[_ ?]]; [|apply Ho].
    + destruct Ho as [-> Ho]. apply Hrec. by right.
    + apply Hfin; [|apply Ho|done]. by intros [?|[_ ?]]; [|apply Ho].
  - destruct (handler (get_handler sig (sp_signals (d_proc d))) =? SIG_IGN); [apply Hrec; by left|].
    pose proof (deliver_to_user_handler_pending sig
      (handler (get_handler sig (sp_signals (d_proc d)))) (get_handler sig (sp_signals (d_proc d)))
      (taken sig d)) as Hp.
    destruct (deliver_to_user_handler_x86_64 _ _ _ _ _) as [d2 ok]. apply Hfin; [|exact Hp|done].
    by intros [?|[? _]].
Qed.

(** C20: delivery terminates, and a pending unblocked signal is never passed
    over.  Either every deliverable signal is one that delivery discards, and
    their pending bits are cleared and nothing else changes; or delivery
    discards exactly the deliverable signals below the lowest one it does not
    discard, and its result and final state are those of that signal's default
    action or handler.  No pending bit of a blocked or higher signal changes. *)
Theorem deliver_pending_signals_total d :
  signals_wf (sp_signals (d_proc d)) →
  ∃ d' r, deliver_pending_signals canonical d = Some (d', r) ∧ stops d d' r.
Proof. intros Hwf. apply (deliver_loop_spec 64); [done|done|lia]. Qed.
End loop.

(** SIGCHLD (17), SIGURG (23) and SIGSYS (31) are pending: the first two are
    ignored by default, the third terminates the process. *)
Lemma deliver_pending_signals_total_witness :
  let s := set_pending SIGCHLD (set_pending SIGURG (set_pending SIGSYS SignalState_new)) in
  let d := mkD (mkSproc 7 Running None s (Some 1) (Some 42)) (mkIFrame 0x1000 0x8000 0x202)
    (mkRegs 0 0 0 0 0 0 0 0 0 0 0 0 0 0 0) (λ _, 0) [] in
  ∃ d' r, deliver_pending_signals (λ _, true) d = Some (d', r) ∧ stops (λ _, true) d d' r ∧
    r = SDTerminated (1, 7) ∧ d_killed d' = [42] ∧ pending (sp_signals (d_proc d')) = 0.
Proof.
  cbn zeta. set (s := set_pending SIGCHLD (set_pending SIGURG (set_pending SIGSYS SignalState_new))).
  set (d := mkD (mkSproc 7 Running None s (Some 1) (Some 42)) (mkIFrame 0x1000 0x8000 0x202)
    (mkRegs 0 0 0 0 0 0 0 0 0 0 0 0 0 0 0) (λ _, 0) []).
  destruct (deliver_pending_signals_total (λ _, true) d) as (d' & r & E & Hs).
  - do 3 apply signals_wf_set_pending. apply signals_wf_new.
  - exists d', r. split; [exact E|]. split; [exact Hs|]. vm_compute in E.
    injection E as <- <-. split_and!; reflexivity.
Defined.

(** ** Frames in memory *)

Lemma split_words_concat ws :
  Forall (in_width 64) ws → split_words (length ws) (concat (map (le_bytes 8) ws)) = ws.
Proof.
  induction 1 as [|w ws Hw Hws IH]; [done|]. cbn [length map concat split_words].
  rewrite take_app_length', drop_app_length' by (by rewrite length_le_bytes).
  rewrite IH, le_value_bytes. f_equal. by apply Z.mod_small.
Qed.

Lemma length_concat_words ws : length (concat (map (le_bytes 8) ws)) = (8 * length ws)%nat.
Proof.
  induction ws as [|w ws IH]; [done|]. cbn [map concat length].
  rewrite length_app, length_le_bytes, IH. lia.
Qed.

Lemma length_encode_frame f : length (encode_frame f) = FRAME_SIZE.
Proof. unfold encode_frame. by rewrite length_concat_words. Qed.

Lemma decode_encode_frame f :
  Forall (in_width 64) (frame_words f) → decode_frame (encode_frame f) = f.
Proof.
  intros Hf. unfold decode_frame, encode_frame.
  change FRAME_WORDS with (length (frame_words f)). rewrite split_words_concat by done.
  by destruct f as [? ? ? ? ? ? ? ? [] ?].
Qed.

(** The interrupted context: registers and flags are 64-bit words, code and
    stack are user addresses. *)
Record context_wf (d : dstate) : Prop := {
  cw_regs : Forall (in_width 64) (regs_words (d_regs d));
  cw_flags : in_width 64 (cpu_flags (d_frame d));
  cw_ip : 0 ≤ instruction_pointer (d_frame d) < USER_SPACE_END;
  cw_sp : 0 ≤ stack_pointer (d_frame d) < USER_SPACE_END;
}.

Lemma user_addr_width a : 0 ≤ a < USER_SPACE_END → in_width 64 a.
Proof.
  unfold in_width, USER_SPACE_END. change (2 ^ 64) with 18446744073709551616. lia.
Qed.

(** The frame delivery writes. *)
Definition delivered_frame (ret sig : u64) (d : dstate) : SignalFrame :=
  mkSignalFrame ret MAGIC sig 0 0 (instruction_pointer (d_frame d)) (stack_pointer (d_frame d))
    (cpu_flags (d_frame d)) (d_regs d) (blocked (sp_signals (d_proc d))).

Lemma delivered_frame_width ret sig d :
  in_width 64 ret → valid_sig sig → context_wf d → in_width 64 (blocked (sp_signals (d_proc d))) →
  Forall (in_width 64) (frame_words (delivered_frame ret sig d)).
Proof.
  intros Hret Hsig [Hr Hf Hip Hsp] Hb. unfold frame_words, delivered_frame.
  cbn [trampoline_addr magic signal siginfo_ptr ucontext_ptr saved_rip saved_rsp saved_rflags
    saved_regs saved_blocked].
  assert (in_width 64 sig)
    by (unfold valid_sig, in_width in *; change (2 ^ 64) with 18446744073709551616; lia).
  assert (in_width 64 MAGIC ∧ in_width 64 0) as [? ?] by (split; split; by vm_compute).
  apply user_addr_width in Hip, Hsp.
  repeat first [assumption | apply Forall_app; split | apply Forall_cons; split | by apply Forall_nil].
Qed.

Lemma place_frame_ret ur a m :
  in_width 64 (restorer a) → in_width 64 (place_frame ur a m).1.2.
Proof. intros Hra. unfold place_frame. case_match; [done|]. by apply wrap_in_width. Qed.

Lemma deliver_writes_frame canonical sig h a d d1 :
  in_width 64 (restorer a) →
  deliver_to_user_handler_x86_64 canonical sig h a d = (d1, true) →
  ∃ ret, in_width 64 ret ∧
    mem_read (d_mem d1) (stack_pointer (d_frame d1)) FRAME_SIZE =
      encode_frame (delivered_frame ret sig d) ∧
    instruction_pointer (d_frame d1) = h ∧ rdi (d_regs d1) = sig.
Proof.
  intros Hra. unfold deliver_to_user_handler_x86_64.
  set (s1 := if uses_alt_stack _ _ then set_on_stack true _ else _).
  assert (Hb : blocked s1 = blocked (sp_signals (d_proc d))) by (subst s1; by case_match).
  set (ur := if uses_alt_stack _ _ then _ else _).
  pose proof (place_frame_ret ur a (d_mem d) Hra) as Hret.
  destruct (place_frame ur a (d_mem d)) as [[fr ret] m]. cbn [fst snd] in Hret.
  rewrite Hb. fold (delivered_frame ret sig d).
  destruct (negb (canonical h)); [done|]. destruct (negb (canonical fr)); [done|].
  intros [= <-]. exists ret. split; [done|]. split; [|done]. cbn [d_mem d_frame stack_pointer].
  rewrite <- (length_encode_frame (delivered_frame ret sig d)). apply mem_read_write.
Qed.

(** ** Returning from a handler *)

Lemma unblockable_mask s :
  signals_wf s → unblockable s → Z.land (blocked s) (wnot 64 UNCATCHABLE_SIGNALS) = blocked s.
Proof.
  intros Hs [H8 H18]. apply Z.bits_inj'. intros n Hn.
  rewrite Z.land_spec, wnot_testbit by (done || (split; by vm_compute)).
  unfold UNCATCHABLE_SIGNALS. rewrite Z.lor_spec, !sig_mask_testbit
    by (done || (unfold valid_sig, SIGKILL, SIGSTOP; lia)).
  unfold SIGKILL, SIGSTOP. change (9 - 1) with 8. change (19 - 1) with 18.
  destruct (Z.eqb_spec n 8) as [->|]; [by rewrite H8|].
  destruct (Z.eqb_spec n 18) as [->|]; [by rewrite H18|]. cbn [orb negb].
  case_bool_decide; [by rewrite andb_true_r|].
  by rewrite (in_width_testbit 64 (blocked s)) by (apply Hs || lia).
Qed.

(** What [sys_sigreturn_with_frame] does with a frame found in user space. *)
Lemma sigreturn_valid_frame t m f proc fr bs :
  0 < fr → fr + Z.of_nat FRAME_SIZE ≤ USER_SPACE_END → f_rsp f = fr + 8 →
  mem_read m fr FRAME_SIZE = bs → magic (decode_frame bs) = MAGIC →
  saved_rip (decode_frame bs) < USER_SPACE_END → saved_rsp (decode_frame bs) < USER_SPACE_END →
  ∃ f' proc', sys_sigreturn_with_frame (Some t) m f proc = (f', proc', Ok 0) ∧
    f_regs f' = saved_regs (decode_frame bs) ∧ f_rip f' = saved_rip (decode_frame bs) ∧
    f_rsp f' = saved_rsp (decode_frame bs) ∧
    f_rflags f' = Z.lor (Z.land (saved_rflags (decode_frame bs)) USER_RFLAGS_MASK) REQUIRED_RFLAGS ∧
    f_cs f' = f_cs f ∧ f_ss f' = f_ss f ∧
    match proc with
    | None => proc' = None
    | Some s => ∃ s', proc' = Some s' ∧
        blocked s' = Z.land (default (saved_blocked (decode_frame bs)) (sigsuspend_saved_mask s)) (wnot 64 UNCATCHABLE_SIGNALS) ∧
        sigsuspend_saved_mask s' = None ∧ on_stack (alt_stack s') = false ∧
        pending s' = pending s ∧ handlers s' = handlers s
    end.
Proof.
  intros Hfr Hend Hrsp Hm Hmag Hrip Hsp. unfold sys_sigreturn_with_frame, copy_from_user.
  rewrite Hrsp, Z.add_simpl_r. change (Z.of_nat FRAME_SIZE) with 192 in *.
  rewrite wrap_small by (apply user_addr_width; lia).
  rewrite validate_user_ptr_spec, decide_True by lia. rewrite Hm, Hmag, Z.eqb_refl. cbn [negb].
  rewrite (proj2 (Z.leb_gt _ _) Hrip), (proj2 (Z.leb_gt _ _) Hsp).
  do 2 eexists. split; [reflexivity|]. cbn [f_regs f_rip f_rsp f_rflags f_cs f_ss].
  do 6 (split; [done|]). destruct proc as [s|]; [|done]. eexists. split; [reflexivity|].
  destruct (sigsuspend_saved_mask s) as [mask|] eqn:Hss; cbn [default];
    (destruct (on_stack (alt_stack (set_blocked _ _))) eqn:Ho; done).
Qed.

(** C14: signal delivery and sigreturn are inverse: if the handler runs and
    returns without touching the frame on its stack, which lies in user space,
    sigreturn resumes the interrupted code with every register, the stack
    pointer and the arithmetic flags as they were.  When the process is found,
    which needs its lock to be free, its mask becomes the interrupted one, or,
    if sigsuspend had replaced the mask, the one saved by sigsuspend without
    SIGKILL and SIGSTOP; the alternate stack is given up, and pending signals
    and handlers stay.  When the process is not found its state does not change. *)
Theorem sigreturn_restores_context canonical sig h a d d1 m' f t proc :
  context_wf d → signals_wf (sp_signals (d_proc d)) → unblockable (sp_signals (d_proc d)) →
  valid_sig sig → in_width 64 (restorer a) →
  deliver_to_user_handler_x86_64 canonical sig h a d = (d1, true) →
  0 < stack_pointer (d_frame d1) → stack_pointer (d_frame d1) + Z.of_nat FRAME_SIZE ≤ USER_SPACE_END →
  mem_read m' (stack_pointer (d_frame d1)) FRAME_SIZE =
    mem_read (d_mem d1) (stack_pointer (d_frame d1)) FRAME_SIZE →
  f_rsp f = stack_pointer (d_frame d1) + 8 →
  ∃ f' proc', sys_sigreturn_with_frame (Some t) m' f proc = (f', proc', Ok 0) ∧
    f_regs f' = d_regs d ∧ f_rip f' = instruction_pointer (d_frame d) ∧
    f_rsp f' = stack_pointer (d_frame d) ∧
    f_rflags f' = Z.lor (Z.land (cpu_flags (d_frame d)) USER_RFLAGS_MASK) REQUIRED_RFLAGS ∧
    match proc with
    | None => proc' = None
    | Some s' => ∃ s'', proc' = Some s'' ∧
        blocked s'' = match sigsuspend_saved_mask s' with
                      | None => blocked (sp_signals (d_proc d))
                      | Some mask => Z.land mask (wnot 64 UNCATCHABLE_SIGNALS)
                      end ∧
        sigsuspend_saved_mask s'' = None ∧ on_stack (alt_stack s'') = false ∧
        pending s'' = pending s' ∧ handlers s'' = handlers s'
    end.
Proof.
  intros Hc Hs Hu Hv Hra Hdel Hlo Hhi Hm Hrsp.
  destruct (deliver_writes_frame _ _ _ _ _ _ Hra Hdel) as (ret & Hret & Hfr & _).
  rewrite Hfr in Hm.
  pose proof (decode_encode_frame _ (delivered_frame_width ret sig d Hret Hv Hc (wf_blocked _ Hs))) as Hd.
  destruct (sigreturn_valid_frame t m' f proc _ _ Hlo Hhi Hrsp Hm) as
    (f' & proc' & E & Hrg & Hip & Hsp & Hfl & _ & _ & Hp); rewrite Hd in *;
    [done|apply Hc|apply Hc|].
  exists f', proc'. split_and!; try done. destruct proc as [s'|]; [|done]. destruct Hp as (s'' & -> & Hb & ?). exists s''.
  split; [done|]. split; [|done]. rewrite Hb. destruct (sigsuspend_saved_mask s'); [done|]. by apply unblockable_mask.
Qed.

(** C15: sigreturn cannot raise privilege, whatever bytes user space left on its
    stack: on success the resumed code and stack are user addresses, the
    segments are unchanged, interrupts stay enabled and no flag outside the
    arithmetic ones is set, and SIGKILL and SIGSTOP stay unblocked. *)
Theorem sigreturn_confined t m f proc f' proc' v :
  sys_sigreturn_with_frame t m f proc = (f', proc', Ok v) →
  f_rip f' < USER_SPACE_END ∧ f_rsp f' < USER_SPACE_END ∧ f_cs f' = f_cs f ∧ f_ss f' = f_ss f ∧
  Z.testbit (f_rflags f') 9 = true ∧
  (∀ n, 0 ≤ n → Z.testbit USER_RFLAGS_MASK n = false → n ≠ 9 → Z.testbit (f_rflags f') n = false) ∧
  (∀ s', proc' = Some s' → unblockable s').
Proof.
  unfold sys_sigreturn_with_frame. destruct (copy_from_user _ _ _) as [bs|e]; [|done].
  destruct (negb _); [done|]. destruct (Z.leb_spec USER_SPACE_END (saved_rip (decode_frame bs))); [done|].
  destruct (Z.leb_spec USER_SPACE_END (saved_rsp (decode_frame bs))); [done|].
  destruct t as [t|]; [|done]. intros [= <- <- _]. cbn [f_rip f_rsp f_cs f_ss f_rflags].
  split_and!; try done.
  - rewrite Z.lor_spec. by rewrite orb_true_r.
  - intros n Hn Hm H9. rewrite Z.lor_spec, Z.land_spec, Hm, andb_false_r. cbn [orb].
    change REQUIRED_RFLAGS with (2 ^ 9). apply Z.pow2_bits_false. lia.
  - intros s'. destruct proc as [s|]; [|done]. intros [= <-].
    destruct (sigsuspend_saved_mask s); case_match; apply set_blocked_unblockable.
Qed.

(** Example context: user code at 0x1000 with its stack at 0x8000. *)
Definition sample_regs : Regs := mkRegs 1 2 3 4 5 6 7 8 9 10 11 12 13 14 15.
Definition sample_context (s : SignalState) : dstate :=
  mkD (mkSproc 7 Running None s None (Some 42)) (mkIFrame 0x1000 0x8000 0x246) sample_regs (λ _, 0) [].
Definition low_half (a : u64) : bool := a <? 2 ^ 47.

Lemma sample_context_wf s : context_wf (sample_context s).
Proof.
  split; cbn; try (unfold USER_SPACE_END; lia); [|split; by vm_compute].
  repeat (apply Forall_cons; split; [split; by vm_compute|]). by apply Forall_nil.
Qed.

Lemma sigreturn_restores_context_witness :
  let d := sample_context SignalState_new in
  let d1 := (deliver_to_user_handler_x86_64 low_half SIGUSR1 0x2000
    (mkAction 0x2000 (sig_mask SIGTERM) 0 0) d).1 in
  is_blocked SIGUSR1 (sp_signals (d_proc d1)) = true ∧
  ∃ f' proc', sys_sigreturn_with_frame (Some 42) (d_mem d1)
      (mkSFrame sample_regs 0x2100 0x33 0x202 (stack_pointer (d_frame d1) + 8) 0x2B)
      (Some (sp_signals (d_proc d1))) = (f', proc', Ok 0) ∧
    f_regs f' = d_regs d ∧ f_rip f' = instruction_pointer (d_frame d) ∧
    f_rsp f' = stack_pointer (d_frame d) ∧
    f_rflags f' = Z.lor (Z.land (cpu_flags (d_frame d)) USER_RFLAGS_MASK) REQUIRED_RFLAGS ∧
    ∃ s'', proc' = Some s'' ∧ blocked s'' = blocked (sp_signals (d_proc d)) ∧
      sigsuspend_saved_mask s'' = None ∧ on_stack (alt_stack s'') = false ∧
      pending s'' = pending (sp_signals (d_proc d1)) ∧ handlers s'' = handlers (sp_signals (d_proc d1)).
Proof.
  cbn zeta. set (a := mkAction 0x2000 (sig_mask SIGTERM) 0 0).
  set (X := deliver_to_user_handler_x86_64 low_half SIGUSR1 0x2000 a (sample_context SignalState_new)).
  assert (Hsp : stack_pointer (d_frame X.1) = 32560) by (vm_compute; reflexivity).
  split; [vm_compute; reflexivity|].
  apply (sigreturn_restores_context low_half SIGUSR1 0x2000 a (sample_context SignalState_new) X.1
    (d_mem X.1) (mkSFrame sample_regs 0x2100 0x33 0x202 (stack_pointer (d_frame X.1) + 8) 0x2B) 42
    (Some (sp_signals (d_proc X.1)))).
  - apply sample_context_wf.
  - apply signals_wf_new.
  - split; reflexivity.
  - unfold valid_sig, SIGUSR1. lia.
  - split; [done|by vm_compute].
  - apply injective_projections; [reflexivity|vm_compute; reflexivity].
  - rewrite Hsp. lia.
  - rewrite Hsp. vm_compute. discriminate.
  - reflexivity.
  - reflexivity.
Defined.

(** A frame forged by user space: every flag and every blocked bit set. *)
Definition forged_frame : SignalFrame :=
  mkSignalFrame 0 MAGIC 0 0 0 0x1000 0x8000 (2 ^ 64 - 1) sample_regs (2 ^ 64 - 1).

Lemma sigreturn_confined_witness :
  ∃ f' s', sys_sigreturn_with_frame (Some 1) (mem_write (λ _, 0) 0x4000 (encode_frame forged_frame))
      (mkSFrame sample_regs 0x2000 0x33 0x202 0x4008 0x2B) (Some SignalState_new) =
      (f', Some s', Ok 0) ∧
    f_rflags f' = 0xED5 ∧ Z.testbit (f_rflags f') 9 = true ∧ unblockable s'.
Proof.
  destruct (sys_sigreturn_with_frame (Some 1) (mem_write (λ _, 0) 0x4000 (encode_frame forged_frame))
      (mkSFrame sample_regs 0x2000 0x33 0x202 0x4008 0x2B) (Some SignalState_new))
    as [[f' [s'|]] [v|e]] eqn:E; try (vm_compute in E; discriminate).
  pose proof (sigreturn_confined (Some 1) _ _ _ f' (Some s') v E) as (_ & _ & _ & _ & H9 & _ & Hu).
  exists f', s'. vm_compute in E. injection E as <- <- <-.
  split; [reflexivity|]. split; [reflexivity|]. split; [exact H9|]. by apply Hu.
Defined.

(** returning from a nested handler gives up the alternate stack too early:
    sigreturn clears the in-use mark even when the context it resumes is itself
    a handler running on that stack, so the next SA_ONSTACK signal is delivered
    at the top of the stack, over the frames in use. *)
Theorem nested_sigreturn_frees_alt_stack t m f s f' s' v a :
  sys_sigreturn_with_frame t m f (Some s) = (f', Some s', Ok v) →
  on_stack (alt_stack s) = true →
  Z.land (sa_flags a) SA_ONSTACK ≠ 0 → Z.land (alt_flags (alt_stack s)) SS_DISABLE = 0 →
  0 < alt_size (alt_stack s) →
  uses_alt_stack a s = false ∧ uses_alt_stack a s' = true ∧
  alt_base (alt_stack s') = alt_base (alt_stack s) ∧ alt_size (alt_stack s') = alt_size (alt_stack s).
Proof.
  intros E Ho Hf Hd Hz. unfold sys_sigreturn_with_frame in E.
  destruct (copy_from_user _ _ _) as [bs|e]; [|done]. destruct (negb _); [done|].
  destruct (_ <=? _); [done|]. destruct (_ <=? _); [done|]. destruct t as [t|]; [|done].
  unfold uses_alt_stack. rewrite Ho, andb_false_r, (proj2 (Z.eqb_neq _ _) Hf).
  split; [done|]. destruct (sigsuspend_saved_mask s);
    cbn [set_blocked with_blocked with_saved_mask alt_stack] in E; rewrite Ho in E;
    injection E as _ <- _; cbn [set_on_stack with_alt_stack alt_stack alt_flags alt_size on_stack
      alt_base set_blocked with_blocked with_saved_mask];
    by rewrite (proj2 (Z.eqb_eq _ _) Hd), (proj2 (Z.ltb_lt _ _) Hz).
Qed.

(** The alternate stack 0x4000 .. 0x6000 is in use; the frame returned through
    resumes at 0x5000, inside it. *)
Lemma nested_sigreturn_frees_alt_stack_witness :
  let s := with_alt_stack (mkAltStack 0x4000 0x2000 0 true) SignalState_new in
  let frame := mkSignalFrame 0 MAGIC 0 0 0 0x1000 0x5000 0x202 sample_regs 0 in
  ∃ f' s', sys_sigreturn_with_frame (Some 1) (mem_write (λ _, 0) 0x4800 (encode_frame frame))
      (mkSFrame sample_regs 0x2000 0x33 0x202 0x4808 0x2B) (Some s) = (f', Some s', Ok 0) ∧
    f_rsp f' = 0x5000 ∧ uses_alt_stack (mkAction 0x2000 0 SA_ONSTACK 0) s' = true.
Proof.
  cbn zeta.
  destruct (sys_sigreturn_with_frame (Some 1) (mem_write (λ _, 0) 0x4800
    (encode_frame (mkSignalFrame 0 MAGIC 0 0 0 0x1000 0x5000 0x202 sample_regs 0)))
    (mkSFrame sample_regs 0x2000 0x33 0x202 0x4808 0x2B)
    (Some (with_alt_stack (mkAltStack 0x4000 0x2000 0 true) SignalState_new)))
    as [[f' [s'|]] [v|e]] eqn:E; try (vm_compute in E; discriminate).
  destruct (nested_sigreturn_frees_alt_stack _ _ _ _ _ _ _ (mkAction 0x2000 0 SA_ONSTACK 0) E)
    as (_ & Hu & _); [done..|].
  exists f', s'. vm_compute in E. injection E as <- <- <-. done.
Defined.
