(* ===== verification/Pty.v ===== *)
(** * Pseudo-terminals (kernel/src/tty/pty/pair.rs, mod.rs)

    A PTY pair joins a master and a slave through two ring buffers and a line
    discipline; a global allocator hands out pair numbers.  Waking a thread is
    an element of the returned list of thread ids.  Signals for the foreground
    group act on the process list [procs]. *)

From S2P Require Import Prelude RingBuffer Termios LineDisc Signal SigDeliver.

Definition PTY_EAGAIN : i32 := 11.
Definition PTY_ENOSPC : i32 := 28.
Definition MAX_PTYS : u32 := 256.
Definition PTY_BUFFER_SIZE : nat := Z.to_nat 4096.
#[global] Arguments PTY_BUFFER_SIZE : simpl never.

(** ** Ring buffers *)

Record PtyBuffer := mkPtyBuffer {
  pb_data : list u8;
  pb_read_pos : nat;
  pb_write_pos : nat;
}.

Definition PtyBuffer_new : PtyBuffer := mkPtyBuffer (replicate PTY_BUFFER_SIZE 0) 0 0.

(** The [for &byte in buf] loop; the result counts the bytes written. *)
Fixpoint PtyBuffer_write (buf : list u8) (b : PtyBuffer) : PtyBuffer * nat :=
  match buf with
  | [] => (b, 0%nat)
  | byte :: buf =>
      let next_write := ((pb_write_pos b + 1) mod PTY_BUFFER_SIZE)%nat in
      if decide (next_write = pb_read_pos b) then (b, 0%nat)
      else
        let b := mkPtyBuffer (<[pb_write_pos b := byte]> (pb_data b)) (pb_read_pos b) next_write in
        let '(b, n) := PtyBuffer_write buf b in (b, S n)
  end.

(** The [for byte in buf.iter_mut()] loop; the result is the buffer after the
    bytes read and their number. *)
Fixpoint PtyBuffer_read (buf : list u8) (b : PtyBuffer) : PtyBuffer * list u8 * nat :=
  match buf with
  | [] => (b, [], 0%nat)
  | _ :: rest =>
      if decide (pb_read_pos b = pb_write_pos b) then (b, buf, 0%nat)
      else
        let byte := nth (pb_read_pos b) (pb_data b) 0 in
        let b := mkPtyBuffer (pb_data b) ((pb_read_pos b + 1) mod PTY_BUFFER_SIZE)%nat (pb_write_pos b) in
        let '(b, rest, n) := PtyBuffer_read rest b in (b, byte :: rest, S n)
  end.

Definition PtyBuffer_is_empty (b : PtyBuffer) : bool :=
  bool_decide (pb_read_pos b = pb_write_pos b).

Definition PtyBuffer_available (b : PtyBuffer) : nat :=
  if decide (pb_read_pos b ≤ pb_write_pos b)%nat then pb_write_pos b - pb_read_pos b
  else PTY_BUFFER_SIZE - pb_read_pos b + pb_write_pos b.

(** ** Pairs *)

Record Winsize := mkWinsize { ws_row : u16; ws_col : u16; ws_xpixel : u16; ws_ypixel : u16 }.

Record PtyPair := mkPair {
  pty_num : u32;
  master_to_slave : PtyBuffer;
  slave_to_master : PtyBuffer;
  ldisc : LineDiscipline;
  pty_termios : Termios;
  winsize : Winsize;
  locked : bool;
  master_refcount : u32;
  slave_refcount : u32;
  slave_was_opened : bool;
  foreground_pgid : option u32;
  controlling_pid : option u32;
  master_waiters : list tid;
  slave_waiters : list tid;
}.

Definition PtyPair_new (n : u32) : PtyPair :=
  mkPair n PtyBuffer_new PtyBuffer_new LineDiscipline_new Termios_default (mkWinsize 24 80 0 0)
    true 1 0 false None None [] [].

Section updates.
Implicit Type p : PtyPair.

Definition set_buffers (m2s s2m : PtyBuffer) p : PtyPair :=
  mkPair (pty_num p) m2s s2m (ldisc p) (pty_termios p) (winsize p) (locked p) (master_refcount p)
    (slave_refcount p) (slave_was_opened p) (foreground_pgid p) (controlling_pid p)
    (master_waiters p) (slave_waiters p).
Definition set_ldisc (l : LineDiscipline) p : PtyPair :=
  mkPair (pty_num p) (master_to_slave p) (slave_to_master p) l (pty_termios p) (winsize p)
    (locked p) (master_refcount p) (slave_refcount p) (slave_was_opened p) (foreground_pgid p)
    (controlling_pid p) (master_waiters p) (slave_waiters p).
Definition set_refs (m s : u32) (opened : bool) p : PtyPair :=
  mkPair (pty_num p) (master_to_slave p) (slave_to_master p) (ldisc p) (pty_termios p) (winsize p)
    (locked p) m s opened (foreground_pgid p) (controlling_pid p) (master_waiters p)
    (slave_waiters p).
Definition set_waiters (m s : list tid) p : PtyPair :=
  mkPair (pty_num p) (master_to_slave p) (slave_to_master p) (ldisc p) (pty_termios p) (winsize p)
    (locked p) (master_refcount p) (slave_refcount p) (slave_was_opened p) (foreground_pgid p)
    (controlling_pid p) m s.
Definition set_control (fg ctl : option u32) (lk : bool) p : PtyPair :=
  mkPair (pty_num p) (master_to_slave p) (slave_to_master p) (ldisc p) (pty_termios p) (winsize p)
    lk (master_refcount p) (slave_refcount p) (slave_was_opened p) fg ctl (master_waiters p)
    (slave_waiters p).

Definition register_master_waiter (t : tid) p : PtyPair :=
  if decide (t ∈ master_waiters p) then p
  else set_waiters (master_waiters p ++ [t]) (slave_waiters p) p.
Definition unregister_master_waiter (t : tid) p : PtyPair :=
  set_waiters (filter (λ x, x ≠ t) (master_waiters p)) (slave_waiters p) p.
Definition wake_master_waiters p : PtyPair * list tid :=
  (set_waiters [] (slave_waiters p) p, master_waiters p).
Definition register_slave_waiter (t : tid) p : PtyPair :=
  if decide (t ∈ slave_waiters p) then p
  else set_waiters (master_waiters p) (slave_waiters p ++ [t]) p.
Definition unregister_slave_waiter (t : tid) p : PtyPair :=
  set_waiters (master_waiters p) (filter (λ x, x ≠ t) (slave_waiters p)) p.
Definition wake_slave_waiters p : PtyPair * list tid :=
  (set_waiters (master_waiters p) [] p, slave_waiters p).

(** [AtomicU32::fetch_add] and [fetch_sub] wrap around. *)
Definition slave_open p : PtyPair :=
  set_refs (master_refcount p) (wrap 32 (slave_refcount p + 1)) true p.

Definition slave_close p : PtyPair * list tid * bool :=
  let old := slave_refcount p in
  let p := set_refs (master_refcount p) (wrap 32 (old - 1)) (slave_was_opened p) p in
  if old =? 1 then let '(p, woken) := wake_master_waiters p in (p, woken, true)
  else (p, [], false).

Definition has_slave_open p : bool := 0 <? slave_refcount p.
Definition has_slave_hung_up p : bool := slave_was_opened p && negb (has_slave_open p).
Definition has_master_data p : bool := negb (PtyBuffer_is_empty (slave_to_master p)).
Definition should_wake_master p : bool := has_master_data p || has_slave_hung_up p.
Definition has_slave_data p : bool :=
  LineDiscipline_has_data (ldisc p) || negb (PtyBuffer_is_empty (master_to_slave p)).
Definition is_unlocked p : bool := negb (locked p).
Definition unlock p : PtyPair := set_control (foreground_pgid p) (controlling_pid p) false p.
End updates.

(** ** Signals to the foreground group *)

Record pproc := mkPproc { pp_pgid : Z; pp_proc : sproc }.

Definition is_terminated (p : sproc) : bool :=
  match sp_state p with Terminated _ => true | _ => false end.

Definition in_group (pgid : Z) (p : pproc) : bool :=
  (pp_pgid p =? pgid) && negb (is_terminated (pp_proc p)).

(** The update of one target: pending signal, and ready if it was blocked. *)
Definition signal_process (sig : u32) (p : sproc) : sproc :=
  let p := with_signals (set_pending sig (sp_signals p)) p in
  match sp_state p with Blocked => with_state Ready p | _ => p end.

(** The processes of the foreground group get the signal; their main threads
    are the threads woken. *)
Definition send_signal_to_foreground (sig : u32) (pair : PtyPair) (procs : list pproc)
    : list pproc * list tid :=
  match foreground_pgid pair with
  | None => (procs, [])
  | Some pgid =>
      (map (λ p, if in_group pgid p then mkPproc (pp_pgid p) (signal_process sig (pp_proc p)) else p)
         procs,
       omap (λ p, if in_group pgid p then sp_thread (pp_proc p) else None) procs)
  end.

(** ** Transfers *)

Definition ECHO_BUF : nat := 256.

(** The echo callback of [master_write]: the first 256 bytes are kept. *)
Definition collect_echo (b : u8) (echo : list u8) : list u8 :=
  if decide (length echo < ECHO_BUF)%nat then echo ++ [b] else echo.

Definition master_write_loop (data : list u8) (ld : LineDiscipline)
    : LineDiscipline * list u8 * option u32 :=
  foldl (λ '(ld, echo, sig) byte,
    let '(ld, echo, signal) := input_char collect_echo byte ld echo in
    (ld, echo, match signal with Some s => Some s | None => sig end)) (ld, [], None) data.

Record mw_result := mkMW {
  mw_pair : PtyPair;
  mw_procs : list pproc;
  mw_signalled : list tid;
  mw_woken : list tid;
  mw_written : nat;
}.

Definition master_write (data : list u8) (p : PtyPair) (procs : list pproc) : mw_result :=
  let '(ld, echo, sig) := master_write_loop data (ldisc p) in
  let written := length data in
  let p := set_ldisc ld p in
  let p := if decide (0 < length echo)%nat
           then set_buffers (master_to_slave p) (PtyBuffer_write echo (slave_to_master p)).1 p
           else p in
  let '(procs, signalled) :=
    match sig with Some s => send_signal_to_foreground s p procs | None => (procs, []) end in
  let '(p, w1) := if decide (0 < written)%nat then wake_slave_waiters p else (p, []) in
  let '(p, w2) := if decide (0 < length echo)%nat then wake_master_waiters p else (p, []) in
  mkMW p procs signalled (w1 ++ w2) written.

Definition master_read (buf : list u8) (p : PtyPair) : PtyPair * list u8 * result nat i32 :=
  let '(b, buf, n) := PtyBuffer_read buf (slave_to_master p) in
  let p := set_buffers (master_to_slave p) b p in
  if decide (n = 0)%nat then
    if has_slave_hung_up p then (p, buf, Ok 0%nat) else (p, buf, Err PTY_EAGAIN)
  else (p, buf, Ok n).

(** The ONLCR loop of [slave_write]. *)
Fixpoint onlcr_write (data : list u8) (b : PtyBuffer) : PtyBuffer * nat :=
  match data with
  | [] => (b, 0%nat)
  | byte :: data =>
      let '(b, ok) :=
        if byte =? NL then
          let '(b, n) := PtyBuffer_write [CR; NL] b in (b, negb (bool_decide (n < 2)%nat))
        else
          let '(b, n) := PtyBuffer_write [byte] b in (b, negb (bool_decide (n < 1)%nat)) in
      if ok then let '(b, n) := onlcr_write data b in (b, S n) else (b, 0%nat)
  end.

Definition slave_write (data : list u8) (p : PtyPair) : PtyPair * list tid * result nat i32 :=
  let do_onlcr := is_opost (pty_termios p) && is_onlcr (pty_termios p) in
  let '(b, n) := if do_onlcr then onlcr_write data (slave_to_master p)
                 else PtyBuffer_write data (slave_to_master p) in
  let p := set_buffers (master_to_slave p) b p in
  if decide (n = 0)%nat then (p, [], Err PTY_EAGAIN)
  else let '(p, woken) := wake_master_waiters p in (p, woken, Ok n).

Definition slave_read (buf : list u8) (p : PtyPair) : PtyPair * list u8 * result nat i32 :=
  let '(ld, buf, r) := LineDiscipline_read buf (ldisc p) in
  let p := set_ldisc ld p in
  let direct :=
    let '(b, buf, n) := PtyBuffer_read buf (master_to_slave p) in
    let p := set_buffers b (slave_to_master p) p in
    if decide (n = 0)%nat then (p, buf, Err PTY_EAGAIN) else (p, buf, Ok n) in
  match r with
  | Ok n => if decide (0 < n)%nat then (p, buf, Ok n) else direct
  | Err _ => direct
  end.

(** ** The allocator (kernel/src/tty/pty/mod.rs) *)

(** [ptys_woken] records the threads woken by operations on a pair reached by
    its number. *)
Record PtyAllocator := mkPtys {
  next_pty_num : u32;
  free_list : list u32;
  pairs : gmap Z PtyPair;
  ptys_woken : list tid;
}.

Definition PtyAllocator_new : PtyAllocator := mkPtys 0 [] ∅ [].

Definition pty_allocate (a : PtyAllocator) : PtyAllocator * result u32 i32 :=
  match last (free_list a) with
  | Some recycled =>
      (mkPtys (next_pty_num a) (removelast (free_list a))
         (<[recycled := PtyPair_new recycled]> (pairs a)) (ptys_woken a), Ok recycled)
  | None =>
      if next_pty_num a <? MAX_PTYS then
        let num := next_pty_num a in
        (mkPtys (num + 1) (free_list a) (<[num := PtyPair_new num]> (pairs a)) (ptys_woken a), Ok num)
      else (a, Err PTY_ENOSPC)
  end.

Definition pty_get (n : u32) (a : PtyAllocator) : option PtyPair := pairs a !! n.

Definition pty_release (n : u32) (a : PtyAllocator) : PtyAllocator :=
  match pairs a !! n with
  | Some _ => mkPtys (next_pty_num a) (free_list a ++ [n]) (delete n (pairs a)) (ptys_woken a)
  | None => a
  end.

(** [if let Some(pair) = pty::get(n) { ... }] with an operation on the shared
    pair. *)
Definition on_pair (n : u32) (f : PtyPair → PtyPair * list tid) (a : PtyAllocator) : PtyAllocator :=
  match pairs a !! n with
  | Some p => let '(p, woken) := f p in
      mkPtys (next_pty_num a) (free_list a) (<[n := p]> (pairs a)) (ptys_woken a ++ woken)
  | None => a
  end.

(** The PTY arms of the descriptor operations (kernel/src/ipc/fd.rs). *)
Definition ptys_master_ref (n : u32) : PtyAllocator → PtyAllocator :=
  on_pair n (λ p, (set_refs (wrap 32 (master_refcount p + 1)) (slave_refcount p)
                     (slave_was_opened p) p, [])).

Definition ptys_master_unref (n : u32) (a : PtyAllocator) : PtyAllocator :=
  match pairs a !! n with
  | Some p =>
      let old_count := master_refcount p in
      let a := on_pair n (λ p, (set_refs (wrap 32 (master_refcount p - 1)) (slave_refcount p)
                                  (slave_was_opened p) p, [])) a in
      if old_count =? 1 then pty_release n a else a
  | None => a
  end.

Definition ptys_slave_open (n : u32) : PtyAllocator → PtyAllocator :=
  on_pair n (λ p, (slave_open p, [])).

Definition ptys_slave_close (n : u32) : PtyAllocator → PtyAllocator :=
  on_pair n (λ p, (slave_close p).1).

(** ** Ring buffers are bounded queues *)

#[global] Opaque PTY_BUFFER_SIZE.

Lemma PTY_BUFFER_SIZE_pos : (1 < PTY_BUFFER_SIZE)%nat.
Proof. apply Nat.ltb_lt. vm_compute. reflexivity. Qed.

Record pty_buffer_wf (b : PtyBuffer) : Prop := {
  pbw_data : length (pb_data b) = PTY_BUFFER_SIZE;
  pbw_read : (pb_read_pos b < PTY_BUFFER_SIZE)%nat;
  pbw_write : (pb_write_pos b < PTY_BUFFER_SIZE)%nat;
}.

(** Bytes held: the distance from the read to the write position. *)
Definition pb_len (b : PtyBuffer) : nat :=
  ((pb_write_pos b + PTY_BUFFER_SIZE - pb_read_pos b) mod PTY_BUFFER_SIZE)%nat.

Definition pb_queue (b : PtyBuffer) : list u8 :=
  ring PTY_BUFFER_SIZE (pb_data b) (pb_read_pos b) (pb_len b).

Lemma pty_buffer_wf_new : pty_buffer_wf PtyBuffer_new.
Proof.
  pose proof PTY_BUFFER_SIZE_pos. split; cbn [PtyBuffer_new pb_data pb_read_pos pb_write_pos]; try lia.
  apply length_replicate.
Qed.

Lemma length_pb_queue b : length (pb_queue b) = pb_len b.
Proof. apply length_ring. Qed.

Section ring_facts.
Context (b : PtyBuffer) (Hb : pty_buffer_wf b).

Lemma pb_len_lt : (pb_len b < PTY_BUFFER_SIZE)%nat.
Proof. unfold pb_len. apply Nat.mod_upper_bound. pose proof PTY_BUFFER_SIZE_pos. lia. Qed.

(** The write position is [pb_len] after the read position. *)
Lemma pb_write_pos_eq : pb_write_pos b = ((pb_read_pos b + pb_len b) mod PTY_BUFFER_SIZE)%nat.
Proof.
  destruct Hb as [_ Hr Hw]. unfold pb_len. rewrite Nat.Div0.add_mod_idemp_r.
  replace (pb_read_pos b + (pb_write_pos b + PTY_BUFFER_SIZE - pb_read_pos b))%nat
    with (pb_write_pos b + 1 * PTY_BUFFER_SIZE)%nat by lia.
  by rewrite Nat.Div0.mod_add, Nat.mod_small.
Qed.

Lemma pb_len_unique n :
  (n < PTY_BUFFER_SIZE)%nat → ((pb_read_pos b + n) mod PTY_BUFFER_SIZE)%nat = pb_write_pos b →
  n = pb_len b.
Proof.
  intros Hn E. rewrite pb_write_pos_eq in E. pose proof PTY_BUFFER_SIZE_pos.
  apply (ring_pos_inj PTY_BUFFER_SIZE ltac:(lia)) in E; [done|done|apply pb_len_lt].
Qed.

Lemma pb_empty : pb_read_pos b = pb_write_pos b ↔ pb_len b = 0%nat.
Proof.
  destruct Hb as [_ Hr Hw]. split; intros E.
  - symmetry. apply pb_len_unique; [lia|]. by rewrite Nat.add_0_r, Nat.mod_small.
  - rewrite pb_write_pos_eq, E, Nat.add_0_r. by rewrite Nat.mod_small.
Qed.

Lemma pb_full :
  ((pb_write_pos b + 1) mod PTY_BUFFER_SIZE)%nat = pb_read_pos b ↔ pb_len b = (PTY_BUFFER_SIZE - 1)%nat.
Proof.
  destruct Hb as [_ Hr Hw]. pose proof pb_len_lt. pose proof PTY_BUFFER_SIZE_pos.
  rewrite pb_write_pos_eq, Nat.Div0.add_mod_idemp_l. split; intros E.
  - assert (Hi : ((pb_read_pos b + (pb_len b + 1)) mod PTY_BUFFER_SIZE =
                 (pb_read_pos b + 0) mod PTY_BUFFER_SIZE)%nat).
    { rewrite Nat.add_assoc, E, Nat.add_0_r. by rewrite Nat.mod_small. }
    destruct (decide (pb_len b + 1 < PTY_BUFFER_SIZE)%nat); [|lia].
    apply (ring_pos_inj PTY_BUFFER_SIZE ltac:(lia)) in Hi; lia.
  - rewrite E. replace (pb_read_pos b + (PTY_BUFFER_SIZE - 1) + 1)%nat
      with (pb_read_pos b + 1 * PTY_BUFFER_SIZE)%nat by lia.
    by rewrite Nat.Div0.mod_add, Nat.mod_small.
Qed.
End ring_facts.

Lemma pb_push b x :
  pty_buffer_wf b → pb_len b ≠ (PTY_BUFFER_SIZE - 1)%nat →
  let b' := mkPtyBuffer (<[pb_write_pos b := x]> (pb_data b)) (pb_read_pos b)
              ((pb_write_pos b + 1) mod PTY_BUFFER_SIZE)%nat in
  pty_buffer_wf b' ∧ pb_queue b' = pb_queue b ++ [x].
Proof.
  intros Hb Hf. pose proof (pb_len_lt b) as Hl. pose proof PTY_BUFFER_SIZE_pos as HN.
  pose proof (pb_write_pos_eq b Hb) as Hw. cbn zeta. set (b' := mkPtyBuffer _ _ _).
  assert (Hb' : pty_buffer_wf b').
  { destruct Hb as [Hd Hr _]. split; cbn; [by rewrite length_insert|done|].
    apply Nat.mod_upper_bound. lia. }
  assert (Hlen : pb_len b' = S (pb_len b)).
  { symmetry. apply pb_len_unique; [done|lia|]. cbn. rewrite Hw, Nat.Div0.add_mod_idemp_l.
    f_equal. lia. }
  split; [done|]. unfold pb_queue. rewrite Hlen. cbn [b' pb_data pb_read_pos]. rewrite Hw.
  apply ring_push; [lia|apply Hb|lia].
Qed.

Lemma pb_pop b :
  pty_buffer_wf b → pb_len b ≠ 0%nat →
  let b' := mkPtyBuffer (pb_data b) ((pb_read_pos b + 1) mod PTY_BUFFER_SIZE)%nat (pb_write_pos b) in
  pty_buffer_wf b' ∧ pb_queue b = nth (pb_read_pos b) (pb_data b) 0 :: pb_queue b'.
Proof.
  intros Hb Hne. pose proof (pb_len_lt b) as Hl. pose proof PTY_BUFFER_SIZE_pos as HN.
  pose proof (pb_write_pos_eq b Hb) as Hw. cbn zeta. set (b' := mkPtyBuffer _ _ _).
  assert (Hb' : pty_buffer_wf b').
  { destruct Hb as [Hd Hr Hwr]. split; cbn; [done| |done]. apply Nat.mod_upper_bound. lia. }
  assert (Hlen : pb_len b = S (pb_len b')).
  { assert (pb_len b' = pb_len b - 1)%nat; [|lia]. symmetry. apply pb_len_unique; [done|lia|]. cbn.
    rewrite Hw, Nat.Div0.add_mod_idemp_l. f_equal. lia. }
  split; [done|]. unfold pb_queue. rewrite Hlen, ring_pop by (lia || apply Hb). cbn [b' pb_data pb_read_pos].
  f_equal. rewrite nth_lookup, list_lookup_lookup_total_lt by (destruct Hb; lia). done.
Qed.

Lemma PtyBuffer_write_spec buf b :
  pty_buffer_wf b →
  let '(b', n) := PtyBuffer_write buf b in
  pty_buffer_wf b' ∧ n = (length buf `min` (PTY_BUFFER_SIZE - 1 - length (pb_queue b)))%nat ∧
  pb_queue b' = pb_queue b ++ take n buf.
Proof.
  revert b. induction buf as [|x buf IH]; intros b Hb; cbn [PtyBuffer_write].
  { by rewrite take_nil, app_nil_r. }
  rewrite length_pb_queue. pose proof (pb_len_lt b).
  case_decide as Hd.
  - apply (pb_full b Hb) in Hd. rewrite Hd, Nat.sub_diag, Nat.min_0_r. by rewrite app_nil_r.
  - destruct (pb_push b x Hb) as [Hb' Hq]; [by rewrite <- pb_full|].
    specialize (IH _ Hb'). destruct (PtyBuffer_write buf _) as [b1 n].
    destruct IH as (Hb1 & Hn & Hq1). rewrite Hq, length_app, length_pb_queue in Hn.
    assert (pb_len b ≠ (PTY_BUFFER_SIZE - 1)%nat) by (by rewrite <- pb_full).
    split; [done|]. split; [cbn [length] in *; lia|].
    rewrite Hq1, Hq, <- app_assoc. done.
Qed.

Lemma PtyBuffer_read_spec buf b :
  pty_buffer_wf b →
  let '(b', buf', n) := PtyBuffer_read buf b in
  pty_buffer_wf b' ∧ n = (length buf `min` length (pb_queue b))%nat ∧
  buf' = take n (pb_queue b) ++ drop n buf ∧ pb_queue b' = drop n (pb_queue b).
Proof.
  revert b. induction buf as [|x buf IH]; intros b Hb; cbn [PtyBuffer_read].
  { by rewrite drop_0, take_0. }
  rewrite length_pb_queue. case_decide as Hd.
  - apply (pb_empty b Hb) in Hd. rewrite Hd, Nat.min_0_r. done.
  - destruct (pb_pop b Hb) as [Hb' Hq]; [by rewrite <- pb_empty|].
    specialize (IH _ Hb'). destruct (PtyBuffer_read buf _) as [[b1 buf1] n].
    destruct IH as (Hb1 & Hn & Hbuf & Hq1). rewrite Hq.
    apply (f_equal length) in Hq. rewrite length_pb_queue in Hq. cbn [length] in Hq.
    split; [done|]. split; [cbn [length]; lia|].
    cbn [take drop app]. by rewrite Hbuf, Hq1.
Qed.

(** ** Output: slave to master *)

(** Output processing: newline becomes carriage return, newline. *)
Definition onlcr (data : list u8) : list u8 :=
  concat (map (λ c, if c =? NL then [CR; NL] else [c]) data).

(** The bytes a write of [data] that stopped after [n] bytes leaves behind: a
    lone carriage return when only its newline did not fit. *)
Definition stray_cr (data : list u8) (n : nat) (q : list u8) : Prop :=
  q = [] ∨ q = [CR] ∧ data !! n = Some NL.

Lemma onlcr_write_spec data b :
  pty_buffer_wf b →
  let '(b', n) := onlcr_write data b in
  pty_buffer_wf b' ∧ (n ≤ length data)%nat ∧
  (∃ stray, pb_queue b' = pb_queue b ++ onlcr (take n data) ++ stray ∧ stray_cr data n stray ∧
    (n = length data → stray = [])) ∧
  ((n < length data)%nat → length (pb_queue b') = (PTY_BUFFER_SIZE - 1)%nat).
Proof.
  revert b. induction data as [|c data IH]; intros b Hb; cbn [onlcr_write].
  { split; [done|]. split; [done|]. split; [|cbn; lia]. exists []. rewrite app_nil_r. by split_and!; [|left|]. }
  pose proof (pb_len_lt b). pose proof (length_pb_queue b) as Hlq.
  set (out := if c =? NL then [CR; NL] else [c]).
  assert (Hstep : (if c =? NL
      then let '(b, n) := PtyBuffer_write [CR; NL] b in (b, negb (bool_decide (n < 2)%nat))
      else let '(b, n) := PtyBuffer_write [c] b in (b, negb (bool_decide (n < 1)%nat))) =
    ((PtyBuffer_write out b).1, bool_decide ((PtyBuffer_write out b).2 = length out))).
  { pose proof (PtyBuffer_write_spec out b Hb) as Hw. unfold out in *.
    destruct (c =? NL); destruct (PtyBuffer_write _ b) as [b1 n1]; destruct Hw as (_ & Hn1 & _);
      cbn [fst snd length] in *; f_equal; repeat case_bool_decide; (done || lia). }
  rewrite Hstep. clear Hstep. pose proof (PtyBuffer_write_spec out b Hb) as Hw.
  destruct (PtyBuffer_write out b) as [b1 n1]. cbn [fst snd]. destruct Hw as (Hb1 & Hn1 & Hq1).
  case_bool_decide as Hall.
  - specialize (IH b1 Hb1). destruct (onlcr_write data b1) as [b2 n2].
    destruct IH as (Hb2 & Hn2 & (stray & Hq2 & Hs & Hs') & Hfull).
    split; [done|]. split; [cbn; lia|]. split; [|cbn; intros; apply Hfull; lia]. exists stray.
    rewrite Hq2, Hq1, take_ge by lia. split; [|split; [done|intros [= ?]; by apply Hs']].
    unfold onlcr. cbn [take map concat]. fold out. by rewrite <- !app_assoc.
  - split; [done|]. split; [lia|].
    assert (Hfull : length (pb_queue b1) = (PTY_BUFFER_SIZE - 1)%nat)
      by (rewrite Hq1, length_app, length_take; lia).
    split; [|done]. exists (take n1 out). cbn [take]. rewrite Hq1. split; [done|]. split; [|done].
    unfold out in *. destruct (Z.eqb_spec c NL) as [->|]; cbn [length] in *.
    + destruct n1 as [|[|n1]]; [by left|by right|lia].
    + destruct n1 as [|n1]; [by left|lia].
Qed.

(** a slave write with output processing hands the master exactly the
    newline-translated bytes of the prefix it reports as written, and stops
    short only when the buffer is full; the one deviation is a lone carriage
    return left behind when the buffer had room for it but not for its
    newline. *)
Theorem slave_write_onlcr_exact data p :
  pty_buffer_wf (slave_to_master p) → is_opost (pty_termios p) = true →
  is_onlcr (pty_termios p) = true →
  let '(p', _, r) := slave_write data p in
  let n := match r with Ok n => n | Err _ => 0%nat end in
  (∃ stray, pb_queue (slave_to_master p') =
     pb_queue (slave_to_master p) ++ onlcr (take n data) ++ stray ∧ stray_cr data n stray ∧
     (n = length data → stray = [])) ∧
  ((n < length data)%nat → length (pb_queue (slave_to_master p')) = (PTY_BUFFER_SIZE - 1)%nat).
Proof.
  intros Hb Ho Hn. unfold slave_write. rewrite Ho, Hn. cbn [andb].
  pose proof (onlcr_write_spec data (slave_to_master p) Hb) as H.
  destruct (onlcr_write data (slave_to_master p)) as [b n]. destruct H as (_ & _ & Hq & Hfull).
  case_decide; [subst n|]; by split.
Qed.

Lemma slave_write_onlcr_exact_witness :
  let '(p', _, r) := slave_write [104; 10] (PtyPair_new 0) in
  r = Ok 2%nat ∧ ∃ stray, pb_queue (slave_to_master p') = [104; 13; 10] ++ stray ∧ stray = [].
Proof.
  pose proof (slave_write_onlcr_exact [104; 10] (PtyPair_new 0) pty_buffer_wf_new eq_refl eq_refl) as H.
  destruct (slave_write [104; 10] (PtyPair_new 0)) as [[p' w] r] eqn:E.
  assert (Hr : r = Ok 2%nat).
  { change r with (p', w, r).2. rewrite <- E. vm_compute. reflexivity. }
  subst r. split; [done|]. destruct H as [(stray & Hq & _ & Hs) _].
  exists stray. split; [|by apply Hs]. rewrite Hq. reflexivity.
Defined.

(** ** Pair numbers *)

Inductive pty_op :=
  | PAllocate
  | PRelease (n : u32)
  | PMasterRef (n : u32)
  | PMasterUnref (n : u32)
  | PSlaveOpen (n : u32)
  | PSlaveClose (n : u32).

Definition pty_step (o : pty_op) (a : PtyAllocator) : PtyAllocator :=
  match o with
  | PAllocate => (pty_allocate a).1
  | PRelease n => pty_release n a
  | PMasterRef n => ptys_master_ref n a
  | PMasterUnref n => ptys_master_unref n a
  | PSlaveOpen n => ptys_slave_open n a
  | PSlaveClose n => ptys_slave_close n a
  end.

Definition pty_run (os : list pty_op) (a : PtyAllocator) : PtyAllocator :=
  foldl (λ a o, pty_step o a) a os.

(** The numbers below [next_pty_num] are split between the free list and the
    pairs in use. *)
Record ptys_inv (a : PtyAllocator) : Prop := {
  pi_next : 0 ≤ next_pty_num a ≤ MAX_PTYS;
  pi_nodup : NoDup (free_list a);
  pi_split : ∀ n, 0 ≤ n < next_pty_num a ↔ n ∈ free_list a ∨ is_Some (pairs a !! n);
  pi_disjoint : ∀ n, n ∈ free_list a → pairs a !! n = None;
  pi_num : ∀ n p, pairs a !! n = Some p → pty_num p = n;
}.

Lemma ptys_inv_new : ptys_inv PtyAllocator_new.
Proof.
  split; cbn; try (unfold MAX_PTYS; lia); [constructor| |done|done].
  intros n. split; [lia|]. intros [?%elem_of_nil|[? ?]]; done.
Qed.

Lemma ptys_inv_release n a : ptys_inv a → ptys_inv (pty_release n a).
Proof.
  intros [Hn Hnd Hs Hd Hp]. unfold pty_release. destruct (pairs a !! n) as [p|] eqn:E; [|done].
  split; cbn; [done|..].
  - apply NoDup_app. split; [done|]. split; [|apply NoDup_singleton].
    intros x Hx ->%list_elem_of_singleton. rewrite Hd in E; done.
  - intros x. rewrite Hs, elem_of_app, list_elem_of_singleton, lookup_delete_is_Some.
    destruct (decide (x = n)) as [->|]; [rewrite E|]; naive_solver.
  - intros x [Hx|Hx]%elem_of_app; [|apply list_elem_of_singleton in Hx as ->; apply lookup_delete_eq].
    rewrite lookup_delete_ne; [by apply Hd|]. intros ->. rewrite Hd in E; done.
  - intros x q Hq%lookup_delete_Some. apply Hp. naive_solver.
Qed.

Lemma ptys_inv_on_pair n f a :
  (∀ p, pty_num (f p).1 = pty_num p) → ptys_inv a → ptys_inv (on_pair n f a).
Proof.
  intros Hf [Hn Hnd Hs Hd Hp]. unfold on_pair. destruct (pairs a !! n) as [p|] eqn:E; [|done].
  destruct (f p) as [p' w] eqn:Ef. split; cbn; [done|done|..].
  - intros x. rewrite Hs. destruct (decide (x = n)) as [->|].
    + rewrite lookup_insert_eq, E. naive_solver.
    + by rewrite lookup_insert_ne.
  - intros x Hx. rewrite lookup_insert_ne; [by apply Hd|]. intros ->. rewrite Hd in E; done.
  - intros x q [[<- <-]|[? ?]]%lookup_insert_Some; [|by apply Hp].
    specialize (Hf p). rewrite Ef in Hf. cbn in Hf. rewrite Hf. by apply Hp.
Qed.

Lemma pty_allocate_spec a :
  ptys_inv a →
  match pty_allocate a with
  | (a', Ok n) => 0 ≤ n < MAX_PTYS ∧ pairs a !! n = None ∧
      pairs a' = <[n := PtyPair_new n]> (pairs a) ∧ ptys_inv a'
  | (a', Err e) => a' = a ∧ e = PTY_ENOSPC ∧ ∀ n, 0 ≤ n < MAX_PTYS → is_Some (pairs a !! n)
  end.
Proof.
  intros [Hn Hnd Hs Hd Hp]. unfold pty_allocate.
  destruct (free_list a) as [|r fl _] eqn:Ef using rev_ind.
  - cbn [last]. destruct (Z.ltb_spec (next_pty_num a) MAX_PTYS).
    + assert (Hfresh : pairs a !! next_pty_num a = None).
      { apply eq_None_not_Some. intros Hsome. assert (0 ≤ next_pty_num a < next_pty_num a) by (apply Hs; by right). lia. }
      split_and!; [lia|lia|done|done|]. split; cbn; try rewrite Ef; [unfold MAX_PTYS in *; lia|done|..].
      * intros x. destruct (decide (x = next_pty_num a)) as [->|].
        -- rewrite lookup_insert_eq. split; [eauto|lia].
        -- rewrite lookup_insert_ne by done. rewrite <- Hs. lia.
      * intros x ?%elem_of_nil. done.
      * intros x q [[<- <-]|[? ?]]%lookup_insert_Some; [done|by apply Hp].
    + split_and!; try done. intros x Hx.
      destruct (proj1 (Hs x)) as [?%elem_of_nil|?]; [lia|done|done].
  - rewrite last_snoc, removelast_snoc.
    assert (Hr : r ∈ fl ++ [r]) by (apply elem_of_app; right; by apply list_elem_of_singleton).
    assert (Hrr : 0 ≤ r < next_pty_num a) by (apply Hs; by left).
    apply NoDup_app in Hnd as (Hnd & Hni & _).
    split_and!; [lia|lia|by apply Hd|done|]. split; cbn; [done|done|..].
    + intros x. rewrite Hs. destruct (decide (x = r)) as [->|].
      * rewrite lookup_insert_eq. split; eauto.
      * rewrite lookup_insert_ne, elem_of_app, list_elem_of_singleton by done. naive_solver.
    + intros x Hx. rewrite lookup_insert_ne; [apply Hd, elem_of_app; by left|].
      intros ->. apply (Hni x); [done|]. by apply list_elem_of_singleton.
    + intros x q [[<- <-]|[? ?]]%lookup_insert_Some; [done|by apply Hp].
Qed.

Lemma pty_step_inv o a : ptys_inv a → ptys_inv (pty_step o a).
Proof.
  intros Ha. destruct o; cbn [pty_step].
  - pose proof (pty_allocate_spec a Ha) as H. destruct (pty_allocate a) as [a' [n|e]]; cbn.
    + apply H.
    + by destruct H as [-> _].
  - by apply ptys_inv_release.
  - by apply ptys_inv_on_pair.
  - unfold ptys_master_unref. destruct (pairs a !! n); [|done].
    case_match; [apply ptys_inv_release|]; by apply ptys_inv_on_pair.
  - by apply ptys_inv_on_pair.
  - apply ptys_inv_on_pair; [|done]. intros p. unfold slave_close. by case_match.
Qed.

Lemma pty_run_inv os a : ptys_inv a → ptys_inv (pty_run os a).
Proof.
  revert a. induction os as [|o os IH]; intros a Ha; [done|]. cbn. apply IH. by apply pty_step_inv.
Qed.

(** after any history, allocating a PTY gives a number below MAX_PTYS that
    no live pair has, with a new pair under it and all others untouched, and fails with ENOSPC exactly when all 256 numbers are live. *)
Theorem pty_allocate_fresh os :
  let a := pty_run os PtyAllocator_new in
  match pty_allocate a with
  | (a', Ok n) => 0 ≤ n < MAX_PTYS ∧ pty_get n a = None ∧
      ∀ m, pty_get m a' = if decide (m = n) then Some (PtyPair_new n) else pty_get m a
  | (a', Err e) => a' = a ∧ e = PTY_ENOSPC ∧ ∀ n, 0 ≤ n < MAX_PTYS → is_Some (pty_get n a)
  end.
Proof.
  cbn zeta. pose proof (pty_allocate_spec _ (pty_run_inv os _ ptys_inv_new)) as H.
  destruct (pty_allocate _) as [a' [n|e]]; [|done]. destruct H as (Hn & Hf & Hp & _).
  split_and!; [lia|lia|done|]. intros m. unfold pty_get. rewrite Hp.
  case_decide; [subst; apply lookup_insert_eq|by apply lookup_insert_ne].
Qed.

(** a slave descriptor outlives its pair: when the last master closes, the
    number is recycled, and a slave descriptor of the old pair then acts on the
    new one.  Closing it takes the new pair's slave count below zero, so the
    master of the new pair sees an open slave that does not exist. *)
Theorem stale_slave_hits_new_pair a n p :
  pairs a !! n = Some p → master_refcount p = 1 →
  let '(a1, r) := pty_allocate (ptys_master_unref n a) in
  r = Ok n ∧ pty_get n a1 = Some (PtyPair_new n) ∧
  ∃ p', pty_get n (ptys_slave_close n a1) = Some p' ∧ slave_refcount p' = 2 ^ 32 - 1 ∧
    has_slave_open p' = true.
Proof.
  intros Hp Hm. unfold ptys_master_unref. rewrite Hp, Hm. change (1 =? 1) with true. cbv iota.
  unfold on_pair, pty_release. rewrite Hp. cbn [pairs]. rewrite lookup_insert_eq.
  unfold pty_allocate. cbn [free_list next_pty_num pairs ptys_woken]. rewrite last_snoc.
  split; [done|]. unfold pty_get, ptys_slave_close, on_pair. cbn [pairs].
  rewrite lookup_insert_eq. split; [done|]. eexists. cbn [pairs].
  split; [apply lookup_insert_eq|]. split; reflexivity.
Qed.

Lemma stale_slave_hits_new_pair_witness :
  let a := pty_run [PAllocate; PSlaveOpen 0] PtyAllocator_new in
  let '(a1, r) := pty_allocate (ptys_master_unref 0 a) in
  r = Ok 0 ∧ ∃ p', pty_get 0 (ptys_slave_close 0 a1) = Some p' ∧ has_slave_open p' = true.
Proof.
  cbn zeta.
  pose proof (stale_slave_hits_new_pair (pty_run [PAllocate; PSlaveOpen 0] PtyAllocator_new) 0
    (slave_open (PtyPair_new 0))) as H.
  destruct (pty_allocate _) as [a1 r].
  destruct H as (Hr & _ & p' & Hp & _ & Ho).
  - vm_compute. reflexivity.
  - reflexivity.
  - split; [done|]. by exists p'.
Defined.
