(* ===== verification/Sockets.v ===== *)
(** * Unix-domain sockets and the UDP port registry
      (kernel/src/socket/unix.rs, kernel/src/socket/mod.rs)

    A connected pair shares two byte queues, one per direction.  Waking a
    thread is an element of the returned list of thread ids. *)

From S2P Require Import Prelude.

Definition UNIX_SOCKET_BUFFER_SIZE : nat := Z.to_nat 65536.
#[global] Arguments UNIX_SOCKET_BUFFER_SIZE : simpl never.
#[global] Opaque UNIX_SOCKET_BUFFER_SIZE.

Definition SK_EAGAIN : i32 := 11.
Definition SK_EINVAL : i32 := 22.
Definition SK_EPIPE : i32 := 32.
Definition SK_EADDRINUSE : i32 := 98.
Definition SK_ECONNREFUSED : i32 := 111.

(** ** Connected pairs *)

Record UnixStreamPair := mkUnixPair {
  buffer_a_to_b : list u8;
  buffer_b_to_a : list u8;
  waiters_a : list tid;
  waiters_b : list tid;
  closed_a : bool;
  closed_b : bool;
}.

Definition UnixStreamPair_new : UnixStreamPair := mkUnixPair [] [] [] [] false false.

Inductive UnixEndpoint := EndA | EndB.

Section endpoint.
Implicit Types (e : UnixEndpoint) (p : UnixStreamPair).

(** The [match self.endpoint] selections of the source. *)
Definition tx_buffer e p : list u8 :=
  match e with EndA => buffer_a_to_b p | EndB => buffer_b_to_a p end.
Definition rx_buffer e p : list u8 :=
  match e with EndA => buffer_b_to_a p | EndB => buffer_a_to_b p end.
Definition own_waiters e p : list tid :=
  match e with EndA => waiters_a p | EndB => waiters_b p end.
Definition peer_waiters e p : list tid :=
  match e with EndA => waiters_b p | EndB => waiters_a p end.
Definition UnixStreamSocket_peer_closed e p : bool :=
  match e with EndA => closed_b p | EndB => closed_a p end.

Definition set_tx e (q : list u8) p : UnixStreamPair :=
  match e with
  | EndA => mkUnixPair q (buffer_b_to_a p) (waiters_a p) (waiters_b p) (closed_a p) (closed_b p)
  | EndB => mkUnixPair (buffer_a_to_b p) q (waiters_a p) (waiters_b p) (closed_a p) (closed_b p)
  end.
Definition set_rx e (q : list u8) p : UnixStreamPair :=
  match e with
  | EndA => mkUnixPair (buffer_a_to_b p) q (waiters_a p) (waiters_b p) (closed_a p) (closed_b p)
  | EndB => mkUnixPair q (buffer_b_to_a p) (waiters_a p) (waiters_b p) (closed_a p) (closed_b p)
  end.
Definition set_own_waiters e (w : list tid) p : UnixStreamPair :=
  match e with
  | EndA => mkUnixPair (buffer_a_to_b p) (buffer_b_to_a p) w (waiters_b p) (closed_a p) (closed_b p)
  | EndB => mkUnixPair (buffer_a_to_b p) (buffer_b_to_a p) (waiters_a p) w (closed_a p) (closed_b p)
  end.

Definition UnixStreamSocket_write e (data : list u8) p
    : UnixStreamPair * list tid * result nat i32 :=
  if UnixStreamSocket_peer_closed e p then (p, [], Err SK_EPIPE)
  else
    let available := (UNIX_SOCKET_BUFFER_SIZE - length (tx_buffer e p))%nat in
    if decide (available = 0)%nat then (p, [], Err SK_EAGAIN)
    else
      let to_write := (length data `min` available)%nat in
      let p := set_tx e (tx_buffer e p ++ take to_write data) p in
      (p, peer_waiters e p, Ok to_write).

Definition UnixStreamSocket_read e (buf : list u8) p
    : UnixStreamPair * list u8 * result nat i32 :=
  match rx_buffer e p with
  | [] =>
      if UnixStreamSocket_peer_closed e p then (p, buf, Ok 0%nat) else (p, buf, Err SK_EAGAIN)
  | rx =>
      let to_read := (length buf `min` length rx)%nat in
      (set_rx e (drop to_read rx) p, take to_read rx ++ drop to_read buf, Ok to_read)
  end.

Definition UnixStreamSocket_has_data e p : bool :=
  match rx_buffer e p with [] => false | _ => true end.

Definition UnixStreamSocket_register_waiter e (t : tid) p : UnixStreamPair :=
  if decide (t ∈ own_waiters e p) then p else set_own_waiters e (own_waiters e p ++ [t]) p.

Definition UnixStreamSocket_unregister_waiter e (t : tid) p : UnixStreamPair :=
  set_own_waiters e (filter (λ x, x ≠ t) (own_waiters e p)) p.

Definition UnixStreamSocket_close e p : UnixStreamPair * list tid :=
  let p := match e with
    | EndA => mkUnixPair (buffer_a_to_b p) (buffer_b_to_a p) (waiters_a p) (waiters_b p) true (closed_b p)
    | EndB => mkUnixPair (buffer_a_to_b p) (buffer_b_to_a p) (waiters_a p) (waiters_b p) (closed_a p) true
    end in
  (p, peer_waiters e p).
End endpoint.

(** ** Named sockets *)

Inductive UnixSocketState := Unbound | Bound.

Record UnixSocket := mkUnixSocket {
  us_state : UnixSocketState;
  us_nonblocking : bool;
  bound_path : option (list u8);
}.

Definition UnixSocket_new (nonblocking : bool) : UnixSocket := mkUnixSocket Unbound nonblocking None.

Definition UnixSocket_bind (path : list u8) (s : UnixSocket) : UnixSocket * result unit i32 :=
  match us_state s with
  | Unbound => (mkUnixSocket Bound (us_nonblocking s) (Some path), Ok tt)
  | Bound => (s, Err SK_EINVAL)
  end.

(** [pending] holds the server ends of connected pairs, by address. *)
Record UnixListener := mkUnixListener {
  ul_path : list u8;
  ul_backlog : nat;
  ul_pending : list Z;
  ul_waiting : list tid;
}.

Definition UnixListener_new (path : list u8) (backlog : nat) : UnixListener :=
  mkUnixListener path backlog [] [].

Definition UnixListener_push_pending (s : Z) (l : UnixListener) : UnixListener * result unit i32 :=
  if decide (ul_backlog l ≤ length (ul_pending l))%nat then (l, Err SK_ECONNREFUSED)
  else (mkUnixListener (ul_path l) (ul_backlog l) (ul_pending l ++ [s]) (ul_waiting l), Ok tt).

Definition UnixListener_pop_pending (l : UnixListener) : UnixListener * option Z :=
  match ul_pending l with
  | [] => (l, None)
  | s :: rest => (mkUnixListener (ul_path l) (ul_backlog l) rest (ul_waiting l), Some s)
  end.

Definition UnixListener_register_waiter (t : tid) (l : UnixListener) : UnixListener :=
  if decide (t ∈ ul_waiting l) then l
  else mkUnixListener (ul_path l) (ul_backlog l) (ul_pending l) (ul_waiting l ++ [t]).

Definition UnixListener_unregister_waiter (t : tid) (l : UnixListener) : UnixListener :=
  mkUnixListener (ul_path l) (ul_backlog l) (ul_pending l) (filter (λ x, x ≠ t) (ul_waiting l)).

(** Path to listener address. *)
Abbreviation UnixSocketRegistry := (gmap (list u8) Z) (only parsing).

Definition UnixSocketRegistry_bind (path : list u8) (l : Z) (r : UnixSocketRegistry)
    : UnixSocketRegistry * result unit i32 :=
  match r !! path with
  | Some _ => (r, Err SK_EADDRINUSE)
  | None => (<[path := l]> r, Ok tt)
  end.
Definition UnixSocketRegistry_lookup (path : list u8) (r : UnixSocketRegistry) : option Z := r !! path.
Definition UnixSocketRegistry_unbind (path : list u8) (r : UnixSocketRegistry) : UnixSocketRegistry :=
  delete path r.

(** ** UDP ports *)

Definition EPHEMERAL_PORT_START : u16 := 49152.
Definition EPHEMERAL_PORT_END : u16 := 65535.

(** Port to (process, socket handle). *)
Record SocketRegistry := mkSockReg {
  udp_ports : gmap Z (Z * Z);
  next_ephemeral : u16;
}.

Definition SocketRegistry_new : SocketRegistry := mkSockReg ∅ EPHEMERAL_PORT_START.

Definition advance_port (next : u16) : u16 :=
  if EPHEMERAL_PORT_END <=? next then EPHEMERAL_PORT_START else next + 1.

(** The search loop; [None] in the outer option is out of fuel. *)
Fixpoint ephemeral_loop (fuel : nat) (ports : gmap Z (Z * Z)) (start next : u16)
    : option (u16 * option u16) :=
  match fuel with
  | O => None
  | S fuel =>
      let port := next in
      let next := advance_port next in
      match ports !! port with
      | None => Some (next, Some port)
      | Some _ => if next =? start then Some (next, None) else ephemeral_loop fuel ports start next
      end
  end.

Definition EPHEMERAL_PORTS : nat := Z.to_nat 16384.

Definition alloc_ephemeral_port (r : SocketRegistry) : option (SocketRegistry * option u16) :=
  match ephemeral_loop EPHEMERAL_PORTS (udp_ports r) (next_ephemeral r) (next_ephemeral r) with
  | Some (next, port) => Some (mkSockReg (udp_ports r) next, port)
  | None => None
  end.

Definition bind_udp (port : u16) (pid handle : Z) (r : SocketRegistry)
    : option (SocketRegistry * result u16 i32) :=
  let insert (r : SocketRegistry) (port : u16) :=
    (mkSockReg (<[port := (pid, handle)]> (udp_ports r)) (next_ephemeral r), Ok port) in
  if port =? 0 then
    match alloc_ephemeral_port r with
    | Some (r, Some p) => Some (insert r p)
    | Some (r, None) => Some (r, Err SK_EADDRINUSE)
    | None => None
    end
  else
    match udp_ports r !! port with
    | Some _ => Some (r, Err SK_EADDRINUSE)
    | None => Some (insert r port)
    end.

Definition unbind_udp (port : u16) (r : SocketRegistry) : SocketRegistry :=
  mkSockReg (delete port (udp_ports r)) (next_ephemeral r).
Definition lookup_udp (port : u16) (r : SocketRegistry) : option (Z * Z) := udp_ports r !! port.

(** ** A connected pair is two byte streams *)

Inductive unix_op :=
  | UWrite (e : UnixEndpoint) (data : list u8)
  | URead (e : UnixEndpoint) (buf : list u8)
  | UClose (e : UnixEndpoint)
  | URegister (e : UnixEndpoint) (t : tid)
  | UUnregister (e : UnixEndpoint) (t : tid).

(** The pair with, per endpoint, the bytes its writes accepted and the bytes
    its reads delivered. *)
Record unix_session := mkUS {
  us_pair : UnixStreamPair;
  accepted : UnixEndpoint → list u8;
  received : UnixEndpoint → list u8;
}.

#[export] Instance UnixEndpoint_eq_dec : EqDecision UnixEndpoint.
Proof. solve_decision. Defined.

Definition peer (e : UnixEndpoint) : UnixEndpoint := match e with EndA => EndB | EndB => EndA end.

Definition log_at (e : UnixEndpoint) (bs : list u8) (f : UnixEndpoint → list u8)
    : UnixEndpoint → list u8 :=
  λ e', if decide (e' = e) then f e' ++ bs else f e'.

Definition unix_step (o : unix_op) (s : unix_session) : unix_session :=
  match o with
  | UWrite e data =>
      match UnixStreamSocket_write e data (us_pair s) with
      | (p, _, Ok n) => mkUS p (log_at e (take n data) (accepted s)) (received s)
      | (p, _, Err _) => mkUS p (accepted s) (received s)
      end
  | URead e buf =>
      match UnixStreamSocket_read e buf (us_pair s) with
      | (p, buf', Ok n) => mkUS p (accepted s) (log_at e (take n buf') (received s))
      | (p, _, Err _) => mkUS p (accepted s) (received s)
      end
  | UClose e => mkUS (UnixStreamSocket_close e (us_pair s)).1 (accepted s) (received s)
  | URegister e t => mkUS (UnixStreamSocket_register_waiter e t (us_pair s)) (accepted s) (received s)
  | UUnregister e t =>
      mkUS (UnixStreamSocket_unregister_waiter e t (us_pair s)) (accepted s) (received s)
  end.

Definition unix_run (os : list unix_op) : unix_session :=
  foldl (λ s o, unix_step o s) (mkUS UnixStreamPair_new (λ _, []) (λ _, [])) os.

Definition unix_inv (s : unix_session) : Prop :=
  ∀ e, accepted s e = received s (peer e) ++ tx_buffer e (us_pair s) ∧
       (length (tx_buffer e (us_pair s)) ≤ UNIX_SOCKET_BUFFER_SIZE)%nat.

Lemma unix_inv_buffers s p :
  unix_inv s → (∀ e, tx_buffer e p = tx_buffer e (us_pair s)) → unix_inv (mkUS p (accepted s) (received s)).
Proof. intros Hs Hp e. cbn. rewrite Hp. apply Hs. Qed.

Lemma unix_step_inv o s : unix_inv s → unix_inv (unix_step o s).
Proof.
  intros Hs. destruct o as [e data|e buf|e|e t|e t]; cbn [unix_step].
  - unfold UnixStreamSocket_write.
    destruct (UnixStreamSocket_peer_closed e (us_pair s)); [by apply unix_inv_buffers|].
    case_decide; [by apply unix_inv_buffers|]. intros e'. destruct (Hs e') as [Ha Hl].
    unfold log_at. cbn [accepted received us_pair]. case_decide as He.
    + subst e'. destruct e; cbn in *;
        rewrite Ha, app_assoc, length_app, length_take; (split; [done|lia]).
    + destruct e, e'; done.
  - unfold UnixStreamSocket_read. destruct (rx_buffer e (us_pair s)) as [|c rx] eqn:Hrx.
    + destruct (UnixStreamSocket_peer_closed e (us_pair s)); [|by apply unix_inv_buffers]. intros e'. unfold log_at.
      cbn [accepted received us_pair]. rewrite take_0, app_nil_r. case_decide; apply Hs.
    + set (n := (length buf `min` length (c :: rx))%nat). rewrite <- Hrx.
      assert (Hn : take n (take n (rx_buffer e (us_pair s)) ++ drop n buf) =
        take n (rx_buffer e (us_pair s))).
      { rewrite take_app_le by (rewrite length_take, Hrx; lia). by rewrite take_take, Nat.min_id. }
      intros e'. destruct (Hs e') as [Ha Hl]. unfold log_at. cbn [accepted received us_pair].
      rewrite Hn. destruct e, e'; cbn [peer] in *; case_decide; try done; cbn in *;
        rewrite Ha, <- ?app_assoc, ?take_drop, ?length_drop; (split; [done|lia]).
  - apply unix_inv_buffers; [done|]. by intros []; destruct e.
  - apply unix_inv_buffers; [done|]. unfold UnixStreamSocket_register_waiter.
    case_decide; [done|]. by intros []; destruct e.
  - apply unix_inv_buffers; [done|]. by intros []; destruct e.
Qed.

(** C37: a Unix stream pair loses, duplicates and reorders nothing: after any
    interleaving of operations at both ends, the bytes accepted from an end are
    the bytes delivered at the other followed by the bytes in transit, at most
    64 KiB of them. *)
Theorem unix_stream_preserved os :
  let s := unix_run os in
  ∀ e, accepted s e = received s (peer e) ++ tx_buffer e (us_pair s) ∧
       (length (tx_buffer e (us_pair s)) ≤ UNIX_SOCKET_BUFFER_SIZE)%nat.
Proof.
  cbn zeta. unfold unix_run.
  assert (H0 : unix_inv (mkUS UnixStreamPair_new (λ _, []) (λ _, [])))
    by (intros []; cbn; (split; [done|lia])).
  revert H0. generalize (mkUS UnixStreamPair_new (λ _, []) (λ _, [])).
  induction os as [|o os IH]; intros s Hs; [apply Hs|]. cbn [foldl]. apply IH. by apply unix_step_inv.
Qed.

(** ** Ephemeral ports *)

Definition in_range (p : u16) : Prop := EPHEMERAL_PORT_START ≤ p ≤ EPHEMERAL_PORT_END.

(** Ports scanned after [k] steps from [start]. *)
Definition port_at (start : u16) (k : Z) : u16 :=
  EPHEMERAL_PORT_START + (start - EPHEMERAL_PORT_START + k) mod 16384.

Lemma port_at_0 start : in_range start → port_at start 0 = start.
Proof.
  unfold in_range, port_at, EPHEMERAL_PORT_START, EPHEMERAL_PORT_END. intros.
  rewrite Z.mod_small by lia. lia.
Qed.

Lemma port_at_range start k : in_range (port_at start k).
Proof.
  unfold in_range, port_at, EPHEMERAL_PORT_START, EPHEMERAL_PORT_END.
  pose proof (Z.mod_pos_bound (start - 49152 + k) 16384 ltac:(lia)). lia.
Qed.

Lemma advance_port_at start k : advance_port (port_at start k) = port_at start (k + 1).
Proof.
  unfold advance_port, port_at, EPHEMERAL_PORT_START, EPHEMERAL_PORT_END.
  pose proof (Z.mod_pos_bound (start - 49152 + k) 16384 ltac:(lia)).
  rewrite Z.add_assoc, <- (Z.add_mod_idemp_l (start - 49152 + k)) by lia.
  set (r := (start - 49152 + k) mod 16384) in *.
  destruct (Z.leb_spec 65535 (49152 + r)).
  - replace (r + 1) with 16384 by lia. reflexivity.
  - rewrite Z.mod_small by lia. lia.
Qed.

Lemma port_at_start start k :
  in_range start → 0 < k ≤ 16384 → port_at start k = start ↔ k = 16384.
Proof.
  unfold in_range, port_at, EPHEMERAL_PORT_START, EPHEMERAL_PORT_END. intros Hs Hk.
  split; intros E.
  - destruct (decide (start - 49152 + k < 16384)).
    + rewrite Z.mod_small in E by lia. lia.
    + destruct (decide (k = 16384)); [done|].
      assert ((start - 49152 + k) mod 16384 = start - 49152 + k - 16384); [|lia].
      symmetry. apply (Z.mod_unique _ _ 1); lia.
  - subst k. replace (start - 49152 + 16384) with (start - 49152 + 1 * 16384) by lia.
    rewrite Z.mod_add, Z.mod_small by lia. lia.
Qed.

Lemma ephemeral_loop_spec n ports start k :
  in_range start → 0 ≤ k → k + Z.of_nat n = 16384 → (0 < n)%nat →
  (∀ j, 0 ≤ j < k → is_Some (ports !! port_at start j)) →
  ∃ next, in_range next ∧
    (∃ p, ephemeral_loop n ports start (port_at start k) = Some (next, Some p) ∧ in_range p ∧
       ports !! p = None) ∨
    ephemeral_loop n ports start (port_at start k) = Some (next, None) ∧ in_range next ∧
      ∀ j, 0 ≤ j < 16384 → is_Some (ports !! port_at start j).
Proof.
  intros Hs. revert k. induction n as [|n IH]; intros k Hk Hkn Hn Hbound; [lia|].
  cbn [ephemeral_loop]. destruct (ports !! port_at start k) as [v|] eqn:Hp.
  - rewrite advance_port_at.
    assert (Hb' : ∀ j, 0 ≤ j < k + 1 → is_Some (ports !! port_at start j)).
    { intros j Hj. destruct (decide (j = k)) as [->|]; [by eexists|]. apply Hbound. lia. }
    destruct (Z.eqb_spec (port_at start (k + 1)) start) as [E|E].
    + apply port_at_start in E; [|done|lia]. exists (port_at start (k + 1)). right.
      split; [done|]. split; [apply port_at_range|]. intros j Hj. apply Hb'. lia.
    + rewrite port_at_start in E by (done || lia). apply IH; [lia..|done].
  - exists (advance_port (port_at start k)). left. rewrite advance_port_at.
    split; [apply port_at_range|]. exists (port_at start k). split; [done|].
    split; [apply port_at_range|done].
Qed.

Lemma port_at_surj start p : in_range start → in_range p → ∃ j, 0 ≤ j < 16384 ∧ port_at start j = p.
Proof.
  unfold in_range, port_at, EPHEMERAL_PORT_START, EPHEMERAL_PORT_END. intros Hs Hp.
  exists ((p - start) mod 16384). split; [apply Z.mod_pos_bound; lia|].
  rewrite Z.add_mod_idemp_r by lia. replace (start - 49152 + (p - start)) with (p - 49152) by lia.
  rewrite Z.mod_small by lia. lia.
Qed.

(** binding port 0 searches every ephemeral port: the search terminates,
    returns a port of the range that was free and binds exactly it, and reports
    EADDRINUSE only when all 16384 ports are bound. *)
Theorem bind_udp_ephemeral pid handle r :
  in_range (next_ephemeral r) →
  ∃ r' res, bind_udp 0 pid handle r = Some (r', res) ∧ in_range (next_ephemeral r') ∧
    match res with
    | Ok p => in_range p ∧ udp_ports r !! p = None ∧ udp_ports r' = <[p := (pid, handle)]> (udp_ports r)
    | Err e => e = SK_EADDRINUSE ∧ udp_ports r' = udp_ports r ∧
        ∀ p, in_range p → is_Some (udp_ports r !! p)
    end.
Proof.
  intros Hr. unfold bind_udp, alloc_ephemeral_port. cbn [Z.eqb].
  destruct (ephemeral_loop_spec EPHEMERAL_PORTS (udp_ports r) (next_ephemeral r) 0 Hr)
    as (next & H); [lia|reflexivity|apply Nat.ltb_lt; by vm_compute|lia|].
  rewrite (port_at_0 _ Hr) in H. destruct H as [(Hn & p & -> & Hp & Hfree)|(-> & Hn & Hall)].
  - do 2 eexists. split; [done|]. done.
  - do 2 eexists. split; [done|]. split; [done|]. split; [done|]. split; [done|].
    intros p Hp. destruct (port_at_surj _ p Hr Hp) as (j & Hj & <-). by apply Hall.
Qed.

Lemma bind_udp_ephemeral_witness :
  ∃ r' res, bind_udp 0 7 1 SocketRegistry_new = Some (r', res) ∧ res = Ok 49152 ∧
    in_range (next_ephemeral r').
Proof.
  destruct (bind_udp_ephemeral 7 1 SocketRegistry_new) as (r' & res & E & Hn & _).
  - unfold in_range. by vm_compute.
  - exists r', res. split; [exact E|]. split; [|exact Hn]. vm_compute in E. by injection E as _ <-.
Defined.
