(* ===== verification/Epoll.v ===== *)
(** * epoll instances (kernel/src/syscall/epoll.rs)

    An instance is a list of watched descriptors; instances live in a global
    list under their ids.  [epoll_create1] and [epoll_ctl] act on the caller's
    descriptor table and that list. *)

From S2P Require Import Prelude Bytes UserPtr Pipe Fifo FdTable.

Definition EPOLL_CTL_ADD : i32 := 1.
Definition EPOLL_CTL_DEL : i32 := 2.
Definition EPOLL_CTL_MOD : i32 := 3.
Definition EPOLLIN : u32 := 0x001.
Definition EPOLLOUT : u32 := 0x004.
Definition EPOLLERR : u32 := 0x008.
Definition EPOLLHUP : u32 := 0x010.
Definition POLLIN : Z := 0x001.
Definition POLLOUT : Z := 0x004.
Definition POLLERR : Z := 0x008.
Definition POLLHUP : Z := 0x010.
Definition EP_ENOENT : i32 := 2.
Definition EP_ESRCH : i32 := 3.
Definition EP_EEXIST : i32 := 17.

Record EpollEntry := mkEpollEntry { ee_fd : i32; ee_events : u32; ee_data : u64 }.
Abbreviation EpollInstance := (list EpollEntry) (only parsing).

Definition EpollInstance_add (fd : i32) (events : u32) (data : u64) (i : EpollInstance)
    : EpollInstance * result unit i32 :=
  if existsb (λ e, ee_fd e =? fd) i then (i, Err EP_EEXIST)
  else (i ++ [mkEpollEntry fd events data], Ok tt).

Fixpoint EpollInstance_modify (fd : i32) (events : u32) (data : u64) (i : EpollInstance)
    : EpollInstance * result unit i32 :=
  match i with
  | [] => ([], Err EP_ENOENT)
  | e :: i =>
      if ee_fd e =? fd then (mkEpollEntry (ee_fd e) events data :: i, Ok tt)
      else let '(i, r) := EpollInstance_modify fd events data i in (e :: i, r)
  end.

Definition EpollInstance_delete (fd : i32) (i : EpollInstance) : EpollInstance * result unit i32 :=
  let i' := filter (λ e, ee_fd e ≠ fd) i in
  if decide (length i' = length i) then (i', Err EP_ENOENT) else (i', Ok tt).

(** The registry: next id and the instances in creation order. *)
Record epolls := mkEpolls {
  next_epoll_id : u64;
  epoll_instances : list (u64 * EpollInstance);
}.

Definition epolls_new : epolls := mkEpolls 1 [].

Definition alloc_instance (r : epolls) : epolls * u64 :=
  let id := next_epoll_id r in
  (mkEpolls (wrap 64 (id + 1)) (epoll_instances r ++ [(id, [])]), id).

Definition remove_instance (id : u64) (r : epolls) : epolls :=
  mkEpolls (next_epoll_id r) (filter (λ p, p.1 ≠ id) (epoll_instances r)).

Fixpoint with_instance_loop (id : u64) (f : EpollInstance → EpollInstance * result unit i32)
    (l : list (u64 * EpollInstance)) : list (u64 * EpollInstance) * result unit i32 :=
  match l with
  | [] => ([], Err EBADF)
  | (iid, i) :: l =>
      if iid =? id then let '(i, r) := f i in ((iid, i) :: l, r)
      else let '(l, r) := with_instance_loop id f l in ((iid, i) :: l, r)
  end.

Definition with_instance (id : u64) (f : EpollInstance → EpollInstance * result unit i32) (r : epolls)
    : epolls * result unit i32 :=
  let '(l, res) := with_instance_loop id f (epoll_instances r) in (mkEpolls (next_epoll_id r) l, res).

(** [proc] is the caller's table, [thread] whether there is a current thread. *)
Definition sys_epoll_create1 (thread : bool) (proc : option FdTable) (r : epolls)
    : option FdTable * epolls * result i32 i32 :=
  let '(r, epoll_id) := alloc_instance r in
  if negb thread then (proc, r, Err EP_ESRCH)
  else
    match proc with
    | None => (proc, remove_instance epoll_id r, Err EP_ESRCH)
    | Some t =>
        match FdTable_alloc (Epoll epoll_id) t with
        | (t, Ok fd) => (Some t, r, Ok fd)
        | (t, Err e) => (Some t, remove_instance epoll_id r, Err e)
        end
    end.

(** The packed 12-byte [EpollEvent] in user memory. *)
Definition read_event (event_ptr : u64) (m : memory) : result (u32 * u64) u64 :=
  match copy_from_user 12 event_ptr m with
  | Err e => Err e
  | Ok bs => Ok (le_value (take 4 bs), le_value (drop 4 bs))
  end.

Definition sys_epoll_ctl (epfd op fd : i32) (event_ptr : u64) (m : memory) (proc : option FdTable)
    (r : epolls) : epolls * result u64 u64 :=
  match proc with
  | None => (r, Err EP_ESRCH)
  | Some t =>
      match FdTable_get epfd t with
      | None => (r, Err EBADF)
      | Some entry =>
          match kind entry with
          | Epoll epoll_id =>
              if negb (op =? EPOLL_CTL_DEL) && negb (bool_decide (is_Some (FdTable_get fd t))) then
                (r, Err EBADF)
              else
                let event :=
                  if negb (op =? EPOLL_CTL_DEL) then
                    if event_ptr =? 0 then Err EFAULT else read_event event_ptr m
                  else Ok (0, 0) in
                match event with
                | Err e => (r, Err e)
                | Ok (events, data) =>
                    let '(r, res) :=
                      if op =? EPOLL_CTL_ADD then with_instance epoll_id (EpollInstance_add fd events data) r
                      else if op =? EPOLL_CTL_MOD then
                        with_instance epoll_id (EpollInstance_modify fd events data) r
                      else if op =? EPOLL_CTL_DEL then with_instance epoll_id (EpollInstance_delete fd) r
                      else (r, Err EINVAL) in
                    (r, match res with Ok _ => Ok 0 | Err e => Err e end)
                end
          | _ => (r, Err EINVAL)
          end
      end
  end.

Definition epoll_to_poll_events (epoll_events : u32) : Z :=
  Z.lor (if Z.land epoll_events EPOLLIN =? 0 then 0 else POLLIN)
        (if Z.land epoll_events EPOLLOUT =? 0 then 0 else POLLOUT).

Definition poll_to_epoll_events (revents : Z) : u32 :=
  Z.lor (Z.lor (Z.lor (if Z.land revents POLLIN =? 0 then 0 else EPOLLIN)
                      (if Z.land revents POLLOUT =? 0 then 0 else EPOLLOUT))
               (if Z.land revents POLLERR =? 0 then 0 else EPOLLERR))
        (if Z.land revents POLLHUP =? 0 then 0 else EPOLLHUP).

(** ** The interest list is a map from descriptors *)

Definition interest (i : EpollInstance) (fd : i32) : option (u32 * u64) :=
  match list_find (λ e, ee_fd e = fd) i with
  | Some (_, e) => Some (ee_events e, ee_data e)
  | None => None
  end.

Definition fds_unique (i : EpollInstance) : Prop := NoDup (ee_fd <$> i).

Lemma interest_nil fd : interest [] fd = None.
Proof. done. Qed.

Lemma interest_cons e i fd :
  interest (e :: i) fd = if decide (ee_fd e = fd) then Some (ee_events e, ee_data e) else interest i fd.
Proof.
  unfold interest. cbn. case_decide; [done|]. by destruct (list_find _ i) as [[? ?]|].
Qed.

Lemma interest_None i fd : interest i fd = None ↔ fd ∉ ee_fd <$> i.
Proof.
  induction i as [|e i IH]; [split; [by intros _ ?%elem_of_nil|done]|].
  rewrite interest_cons, fmap_cons, elem_of_cons. case_decide; naive_solver.
Qed.

Lemma interest_app i e fd :
  interest (i ++ [e]) fd = match interest i fd with
    | Some v => Some v
    | None => if decide (ee_fd e = fd) then Some (ee_events e, ee_data e) else None
    end.
Proof.
  induction i as [|e' i IH]; cbn [app]; rewrite !interest_cons; [done|].
  destruct (decide (ee_fd e' = fd)); [done|apply IH].
Qed.

Lemma existsb_interest i fd : existsb (λ e, ee_fd e =? fd) i = bool_decide (is_Some (interest i fd)).
Proof.
  induction i as [|e i IH]; [done|]. cbn [existsb]. rewrite interest_cons.
  destruct (Z.eqb_spec (ee_fd e) fd); [by rewrite decide_True by done|].
  by rewrite decide_False by done.
Qed.

Lemma EpollInstance_modify_spec fd ev d i :
  fds_unique i →
  let '(i', r) := EpollInstance_modify fd ev d i in
  (ee_fd <$> i') = (ee_fd <$> i) ∧
  match interest i fd with
  | None => r = Err EP_ENOENT ∧ i' = i
  | Some _ => r = Ok tt ∧ ∀ f, interest i' f = if decide (f = fd) then Some (ev, d) else interest i f
  end.
Proof.
  unfold fds_unique. induction i as [|e i IH]; intros Hu; cbn [EpollInstance_modify]; [done|].
  rewrite fmap_cons in Hu. apply NoDup_cons in Hu as [Hni Hu]. rewrite interest_cons.
  destruct (Z.eqb_spec (ee_fd e) fd) as [<-|Hne].
  - rewrite decide_True by done. split; [done|]. split; [done|]. intros f. rewrite !interest_cons. cbn.
    repeat case_decide; (done || congruence).
  - rewrite decide_False by done. specialize (IH Hu).
    destruct (EpollInstance_modify fd ev d i) as [i' r]. destruct IH as [Hf IH].
    split; [by rewrite !fmap_cons, Hf|]. destruct (interest i fd).
    + destruct IH as [-> IH]. split; [done|]. intros f. rewrite !interest_cons, IH.
      repeat case_decide; (done || congruence).
    + by destruct IH as [-> ->].
Qed.

Lemma interest_filter fd i f :
  interest (filter (λ e, ee_fd e ≠ fd) i) f = if decide (f = fd) then None else interest i f.
Proof.
  induction i as [|e i IH]; [by case_decide|]. rewrite filter_cons, interest_cons.
  destruct (decide (ee_fd e ≠ fd)) as [Hne|Heq].
  - rewrite interest_cons, IH. repeat case_decide; (done || congruence).
  - rewrite IH. repeat case_decide; (done || naive_solver).
Qed.

Lemma filter_same_length fd (i : EpollInstance) :
  length (filter (λ e, ee_fd e ≠ fd) i) = length i ↔ interest i fd = None.
Proof.
  induction i as [|e i IH]; [done|]. rewrite filter_cons, interest_cons.
  pose proof (length_filter (λ e, ee_fd e ≠ fd) i).
  repeat case_decide; cbn [length]; [naive_solver|rewrite <- IH; lia|split; [lia|done]|naive_solver].
Qed.

(** an epoll instance is a finite map from descriptors to (events, data):
    add, modify and delete are insert-new, update-existing and remove-existing,
    with EEXIST and ENOENT exactly when the descriptor is already there or is
    missing, and the list never holds a descriptor twice. *)
Theorem epoll_interest_map i fd ev d :
  fds_unique i →
  (let '(i', r) := EpollInstance_add fd ev d i in
   fds_unique i' ∧ r = (if interest i fd then Err EP_EEXIST else Ok tt) ∧
   ∀ f, interest i' f = if decide (f = fd) then Some (default (ev, d) (interest i fd)) else interest i f) ∧
  (let '(i', r) := EpollInstance_modify fd ev d i in
   fds_unique i' ∧ r = (if interest i fd then Ok tt else Err EP_ENOENT) ∧
   ∀ f, interest i' f = if decide (f = fd) then (λ _, (ev, d)) <$> interest i fd else interest i f) ∧
  (let '(i', r) := EpollInstance_delete fd i in
   fds_unique i' ∧ r = (if interest i fd then Ok tt else Err EP_ENOENT) ∧
   ∀ f, interest i' f = if decide (f = fd) then None else interest i f).
Proof.
  intros Hu. split_and!.
  - unfold EpollInstance_add. rewrite existsb_interest.
    destruct (interest i fd) as [v|] eqn:E; cbn.
    + split; [done|]. split; [done|]. intros f. case_decide; [by subst|done].
    + split; [|split; [done|]].
      * unfold fds_unique. rewrite fmap_app. apply NoDup_app. split; [done|]. split; [|apply NoDup_singleton].
        intros x Hx Hx'%list_elem_of_singleton. subst x. by apply interest_None in E.
      * intros f. rewrite interest_app. cbn. repeat case_decide; subst; rewrite ?E; try done;
          by destruct (interest i f).
  - pose proof (EpollInstance_modify_spec fd ev d i Hu) as H.
    destruct (EpollInstance_modify fd ev d i) as [i' r]. destruct H as [Hf H].
    split; [unfold fds_unique; by rewrite Hf|]. destruct (interest i fd) eqn:E.
    + destruct H as [-> H]. split; [done|]. exact H.
    + destruct H as [-> ->]. split; [done|]. intros f. case_decide; [by subst|done].
  - unfold EpollInstance_delete. case_decide as Hl.
    + apply filter_same_length in Hl as E. rewrite E.
      split; [eapply sublist_NoDup; [exact Hu|apply fmap_sublist, sublist_filter]|]. split; [done|].
      apply interest_filter.
    + rewrite filter_same_length in Hl.
      split; [eapply sublist_NoDup; [exact Hu|apply fmap_sublist, sublist_filter]|].
      split; [by destruct (interest i fd)|]. apply interest_filter.
Qed.

Lemma epoll_interest_map_witness :
  let i := [mkEpollEntry 3 EPOLLIN 7] in
  EpollInstance_add 3 EPOLLOUT 9 i = (i, Err EP_EEXIST) ∧
  ∃ i', EpollInstance_modify 3 EPOLLOUT 9 i = (i', Ok tt) ∧ interest i' 3 = Some (EPOLLOUT, 9).
Proof.
  cbn zeta. split; [reflexivity|].
  destruct (epoll_interest_map [mkEpollEntry 3 EPOLLIN 7] 3 EPOLLOUT 9) as (_ & H & _).
  - apply NoDup_singleton.
  - destruct (EpollInstance_modify 3 EPOLLOUT 9 _) as [i' r]. destruct H as (_ & Hr & Hi).
    exists i'. rewrite Hr, Hi. split; reflexivity.
Defined.
