(* ===== verification/NetPackets.v ===== *)
(** * Packet formats (kernel/src/net: ethernet.rs, ipv4.rs, icmp.rs, udp.rs,
      arp.rs and the header part of tcp.rs)

    Parsers and builders of the frame formats, the Internet checksum and the
    ARP cache; the handlers that use them are in NetStack.  Where the source slices a buffer with
    bounds taken from the packet, the model is an [option]: [None] is the
    panic. *)

From S2P Require Import Prelude Bytes.

(** [data[i]], used after the length check of the parser. *)
Definition at_ (data : list u8) (i : nat) : u8 := nth i data 0.
(** [u16::from_be_bytes([data[i], data[i + 1]])] and the 32-bit version. *)
Definition be16 (data : list u8) (i : nat) : u16 := be_value [at_ data i; at_ data (i + 1)].
Definition be32 (data : list u8) (i : nat) : u32 :=
  be_value [at_ data i; at_ data (i + 1); at_ data (i + 2); at_ data (i + 3)].
Definition bytes_at (data : list u8) (i n : nat) : list u8 := take n (drop i data).

(** [&data[a..b]] *)
Definition slice (data : list u8) (a b : nat) : option (list u8) :=
  if decide (a ≤ b ∧ b ≤ length data)%nat then Some (take (b - a) (drop a data)) else None.

(** ** Internet checksum *)

(** The word loop and the odd byte; [sum] is a wrapping u32. *)
Fixpoint sum_words (data : list u8) (sum : u32) : u32 :=
  match data with
  | [] => sum
  | [b] => wrap 32 (sum + Z.shiftl b 8)
  | b :: c :: rest => sum_words rest (wrap 32 (sum + be_value [b; c]))
  end.

(** [while sum >> 16 != 0]; four turns are enough for 32 bits. *)
Fixpoint fold_sum (fuel : nat) (sum : u32) : u32 :=
  match fuel with
  | O => sum
  | S fuel =>
      if Z.shiftr sum 16 =? 0 then sum
      else fold_sum fuel (wrap 32 (Z.land sum 0xFFFF + Z.shiftr sum 16))
  end.

Definition internet_checksum (data : list u8) : u16 :=
  wnot 16 (wrap 16 (fold_sum 4 (sum_words data 0))).

(** [packet[i] = (c >> 8) as u8; packet[i + 1] = (c & 0xFF) as u8] *)
Definition put16 (i : nat) (c : u16) (packet : list u8) : list u8 :=
  <[(i + 1)%nat := Z.land c 0xFF]> (<[i := wrap 8 (Z.shiftr c 8)]> packet).

(** ** Ethernet *)

Definition ETHERNET_HEADER_SIZE : nat := 14.
Definition ETHERNET_MIN_SIZE : nat := 60.
Definition BROADCAST_MAC : list u8 := [0xFF; 0xFF; 0xFF; 0xFF; 0xFF; 0xFF].
Definition ETHERTYPE_IPV4 : u16 := 0x0800.
Definition ETHERTYPE_ARP : u16 := 0x0806.

Record EthernetFrame := mkEth {
  dst_mac : list u8;
  src_mac : list u8;
  ethertype : u16;
  eth_payload : list u8;
}.

Definition EthernetFrame_parse (data : list u8) : option EthernetFrame :=
  if decide (length data < ETHERNET_HEADER_SIZE)%nat then None
  else Some (mkEth (bytes_at data 0 6) (bytes_at data 6 6) (be16 data 12)
               (drop ETHERNET_HEADER_SIZE data)).

Definition EthernetFrame_build (src dst : list u8) (ethertype : u16) (payload : list u8) : list u8 :=
  let frame := dst ++ src ++ be_bytes 2 ethertype ++ payload in
  frame ++ replicate (ETHERNET_MIN_SIZE - length frame) 0.

(** ** IPv4 *)

Definition IPV4_HEADER_MIN_SIZE : nat := 20.
Definition PROTOCOL_ICMP : u8 := 1.
Definition PROTOCOL_TCP : u8 := 6.
Definition PROTOCOL_UDP : u8 := 17.
Definition DEFAULT_TTL : u8 := 64.

Record Ipv4Packet := mkIpv4 {
  version : u8;
  ihl : u8;
  tos : u8;
  total_length : u16;
  identification : u16;
  flags_fragment : u16;
  ttl : u8;
  protocol : u8;
  ip_checksum : u16;
  src_ip : list u8;
  dst_ip : list u8;
  ip_payload : list u8;
}.

(** The outer [option] is the panic of the payload slice. *)
Definition Ipv4Packet_parse (data : list u8) : option (option Ipv4Packet) :=
  if decide (length data < IPV4_HEADER_MIN_SIZE)%nat then Some None
  else
    let version := Z.land (Z.shiftr (at_ data 0) 4) 0x0F in
    let ihl := Z.land (at_ data 0) 0x0F in
    if negb (version =? 4) then Some None
    else if ihl <? 5 then Some None
    else
      let header_len := (Z.to_nat ihl * 4)%nat in
      if decide (length data < header_len)%nat then Some None
      else
        let total_length := be16 data 2 in
        if decide (length data < Z.to_nat total_length)%nat then Some None
        else
          payload ← slice data header_len (Z.to_nat total_length);
          Some (Some (mkIpv4 version ihl (at_ data 1) total_length (be16 data 4) (be16 data 6)
            (at_ data 8) (at_ data 9) (be16 data 10) (bytes_at data 12 4) (bytes_at data 16 4) payload)).

(** [id] is the value drawn from the packet counter. *)
Definition Ipv4Packet_header (id : u16) (src dst : list u8) (protocol : u8) (len : nat) : list u8 :=
  [0x45; 0] ++ be_bytes 2 (wrap 16 (Z.of_nat (IPV4_HEADER_MIN_SIZE + len))) ++ be_bytes 2 id ++
  be_bytes 2 0x4000 ++ [DEFAULT_TTL; protocol; 0; 0] ++ src ++ dst.

Definition Ipv4Packet_build (id : u16) (src dst : list u8) (protocol : u8) (payload : list u8)
    : list u8 :=
  let packet := Ipv4Packet_header id src dst protocol (length payload) in
  put16 10 (internet_checksum (take IPV4_HEADER_MIN_SIZE packet)) packet ++ payload.

(** ** ICMP echo *)

Definition ICMP_ECHO_REPLY : u8 := 0.
Definition ICMP_ECHO_REQUEST : u8 := 8.
Definition ICMP_HEADER_SIZE : nat := 8.

Record IcmpPacket := mkIcmp {
  icmp_type : u8;
  code : u8;
  icmp_checksum : u16;
  identifier : u16;
  sequence : u16;
  icmp_payload : list u8;
}.

Definition IcmpPacket_parse (data : list u8) : option IcmpPacket :=
  if decide (length data < ICMP_HEADER_SIZE)%nat then None
  else Some (mkIcmp (at_ data 0) (at_ data 1) (be16 data 2) (be16 data 4) (be16 data 6)
               (drop ICMP_HEADER_SIZE data)).

Definition build_echo (icmp_type : u8) (identifier sequence : u16) (payload : list u8) : list u8 :=
  let packet := [icmp_type; 0; 0; 0] ++ be_bytes 2 identifier ++ be_bytes 2 sequence ++ payload in
  put16 2 (internet_checksum packet) packet.

Definition echo_request := build_echo ICMP_ECHO_REQUEST.
Definition echo_reply := build_echo ICMP_ECHO_REPLY.

(** ** UDP *)

Definition UDP_HEADER_SIZE : nat := 8.

Record UdpHeader := mkUdp { udp_src_port : u16; udp_dst_port : u16; udp_length : u16; udp_cksum : u16 }.

Definition UdpHeader_parse (data : list u8) : option (option (UdpHeader * list u8)) :=
  if decide (length data < UDP_HEADER_SIZE)%nat then Some None
  else
    let length_ := be16 data 4 in
    if decide (Z.to_nat length_ < UDP_HEADER_SIZE ∨ length data < Z.to_nat length_)%nat then Some None
    else
      payload ← slice data UDP_HEADER_SIZE (Z.to_nat length_);
      Some (Some (mkUdp (be16 data 0) (be16 data 2) length_ (be16 data 6), payload)).

Definition build_udp_packet (src_port dst_port : u16) (payload : list u8) : list u8 :=
  be_bytes 2 src_port ++ be_bytes 2 dst_port ++
  be_bytes 2 (wrap 16 (Z.of_nat (UDP_HEADER_SIZE + length payload))) ++ be_bytes 2 0 ++ payload.

Definition pseudo_header (src dst : list u8) (proto : u8) (segment : list u8) : list u8 :=
  src ++ dst ++ [0; proto] ++ be_bytes 2 (wrap 16 (Z.of_nat (length segment))) ++ segment.

Definition udp_checksum (src dst : list u8) (udp_packet : list u8) : u16 :=
  internet_checksum (pseudo_header src dst 17 udp_packet).

(** ** ARP *)

Definition ARP_HTYPE_ETHERNET : u16 := 1.
Definition ARP_PTYPE_IPV4 : u16 := 0x0800.
Definition ARP_OP_REQUEST : u16 := 1.
Definition ARP_OP_REPLY : u16 := 2.
Definition ARP_PACKET_SIZE : nat := 28.
Definition ARP_CACHE_SIZE : nat := 16.

Record ArpPacket := mkArp {
  htype : u16;
  ptype : u16;
  hlen : u8;
  plen : u8;
  operation : u16;
  sender_mac : list u8;
  sender_ip : list u8;
  target_mac : list u8;
  target_ip : list u8;
}.

Definition ArpPacket_parse (data : list u8) : option ArpPacket :=
  if decide (length data < ARP_PACKET_SIZE)%nat then None
  else
    let htype := be16 data 0 in
    let ptype := be16 data 2 in
    let hlen := at_ data 4 in
    let plen := at_ data 5 in
    if negb (htype =? ARP_HTYPE_ETHERNET) || negb (ptype =? ARP_PTYPE_IPV4) || negb (hlen =? 6)
       || negb (plen =? 4) then None
    else Some (mkArp htype ptype hlen plen (be16 data 6) (bytes_at data 8 6) (bytes_at data 14 4)
                 (bytes_at data 18 6) (bytes_at data 24 4)).

Definition ArpPacket_build (operation : u16) (sender_mac sender_ip target_mac target_ip : list u8)
    : list u8 :=
  be_bytes 2 ARP_HTYPE_ETHERNET ++ be_bytes 2 ARP_PTYPE_IPV4 ++ [6; 4] ++ be_bytes 2 operation ++
  sender_mac ++ sender_ip ++ target_mac ++ target_ip.

Record ArpCacheEntry := mkArpEntry { ae_ip : list u8; ae_mac : list u8; ae_valid : bool }.

Definition arp_cache_new : list ArpCacheEntry :=
  replicate ARP_CACHE_SIZE (mkArpEntry [0; 0; 0; 0] [0; 0; 0; 0; 0; 0] false).

(** The first loop of [update_cache]: refresh an existing entry. *)
Fixpoint refresh_entry (ip mac : list u8) (cache : list ArpCacheEntry) : option (list ArpCacheEntry) :=
  match cache with
  | [] => None
  | e :: cache =>
      if ae_valid e && bool_decide (ae_ip e = ip) then
        Some (mkArpEntry (ae_ip e) mac (ae_valid e) :: cache)
      else (e ::.) <$> refresh_entry ip mac cache
  end.

(** The second loop: take an empty slot. *)
Fixpoint fill_entry (ip mac : list u8) (cache : list ArpCacheEntry) : option (list ArpCacheEntry) :=
  match cache with
  | [] => None
  | e :: cache =>
      if negb (ae_valid e) then Some (mkArpEntry ip mac true :: cache)
      else (e ::.) <$> fill_entry ip mac cache
  end.

Definition update_cache (ip mac : list u8) (cache : list ArpCacheEntry) : list ArpCacheEntry :=
  match refresh_entry ip mac cache with
  | Some cache => cache
  | None =>
      match fill_entry ip mac cache with
      | Some cache => cache
      | None => <[0%nat := mkArpEntry ip mac true]> cache
      end
  end.

Fixpoint arp_lookup (ip : list u8) (cache : list ArpCacheEntry) : option (list u8) :=
  match cache with
  | [] => None
  | e :: cache =>
      if ae_valid e && bool_decide (ae_ip e = ip) then Some (ae_mac e) else arp_lookup ip cache
  end.

(** ** TCP segments *)

Definition TCP_HEADER_MIN_SIZE : nat := 20.

Record TcpFlags := mkTcpFlags {
  fin : bool; syn : bool; rst : bool; psh : bool; ack : bool; urg : bool;
}.

Definition TcpFlags_from_byte (b : u8) : TcpFlags :=
  mkTcpFlags (negb (Z.land b 0x01 =? 0)) (negb (Z.land b 0x02 =? 0)) (negb (Z.land b 0x04 =? 0))
    (negb (Z.land b 0x08 =? 0)) (negb (Z.land b 0x10 =? 0)) (negb (Z.land b 0x20 =? 0)).

Definition TcpFlags_to_byte (f : TcpFlags) : u8 :=
  let byte := 0 in
  let byte := if fin f then Z.lor byte 0x01 else byte in
  let byte := if syn f then Z.lor byte 0x02 else byte in
  let byte := if rst f then Z.lor byte 0x04 else byte in
  let byte := if psh f then Z.lor byte 0x08 else byte in
  let byte := if ack f then Z.lor byte 0x10 else byte in
  if urg f then Z.lor byte 0x20 else byte.

Definition flags_syn : TcpFlags := mkTcpFlags false true false false false false.
Definition flags_syn_ack : TcpFlags := mkTcpFlags false true false false true false.
Definition flags_ack : TcpFlags := mkTcpFlags false false false false true false.
Definition flags_ack_psh : TcpFlags := mkTcpFlags false false false true true false.
Definition flags_fin_ack : TcpFlags := mkTcpFlags true false false false true false.
Definition flags_rst : TcpFlags := mkTcpFlags false false true false false false.

Record TcpHeader := mkTcpHeader {
  tcp_src_port : u16;
  tcp_dst_port : u16;
  seq_num : u32;
  ack_num : u32;
  data_offset : u8;
  tcp_flags : TcpFlags;
  window_size : u16;
  tcp_cksum : u16;
  urgent_ptr : u16;
}.

Definition TcpHeader_parse (data : list u8) : option (TcpHeader * list u8) :=
  if decide (length data < TCP_HEADER_MIN_SIZE)%nat then None
  else
    let data_offset := Z.land (Z.shiftr (at_ data 12) 4) 0x0F in
    let header_len := (Z.to_nat data_offset * 4)%nat in
    if decide (header_len < TCP_HEADER_MIN_SIZE ∨ length data < header_len)%nat then None
    else Some (mkTcpHeader (be16 data 0) (be16 data 2) (be32 data 4) (be32 data 8) data_offset
                 (TcpFlags_from_byte (at_ data 13)) (be16 data 14) (be16 data 16) (be16 data 18),
               drop header_len data).

Definition build_tcp_packet (src_port dst_port : u16) (seq ack_ : u32) (fl : TcpFlags) (win : u16)
    (payload : list u8) : list u8 :=
  be_bytes 2 src_port ++ be_bytes 2 dst_port ++ be_bytes 4 seq ++ be_bytes 4 ack_ ++
  [Z.shiftl 5 4; TcpFlags_to_byte fl] ++ be_bytes 2 win ++ be_bytes 2 0 ++ be_bytes 2 0 ++ payload.

Definition tcp_checksum (src dst : list u8) (tcp_packet : list u8) : u16 :=
  internet_checksum (pseudo_header src dst PROTOCOL_TCP tcp_packet).

Definition build_tcp_packet_with_checksum (src dst : list u8) (src_port dst_port : u16)
    (seq ack_ : u32) (fl : TcpFlags) (win : u16) (payload : list u8) : list u8 :=
  let packet := build_tcp_packet src_port dst_port seq ack_ fl win payload in
  put16 16 (tcp_checksum src dst packet) packet.

(** ** Checksum theory

    [word_sum] is the unbounded sum of the 16-bit words; the folded sum is its
    residue modulo [2^16 - 1], with 0 only for the zero sum. *)

Fixpoint word_sum (data : list u8) : Z :=
  match data with
  | [] => 0
  | [b] => 256 * b
  | b :: c :: rest => 256 * b + c + word_sum rest
  end.

Lemma pair_ind {A} (P : list A → Prop) :
  P [] → (∀ x, P [x]) → (∀ x y l, P l → P (x :: y :: l)) → ∀ l, P l.
Proof.
  intros H0 H1 H2 l. enough (P l ∧ ∀ x, P (x :: l)) as [? _] by done.
  induction l as [|x l [IH1 IH2]]; auto.
Qed.

Lemma wnot_sub s : 0 ≤ s < 65536 → wnot 16 s = 65535 - s.
Proof.
  intros Hs. change 65535 with (Z.ones 16).
  assert (Hlow : ∀ i, 0 ≤ i → Z.testbit (Z.ones 16) i = false → Z.testbit s i = false).
  { intros i Hi Ho. rewrite Z.testbit_ones_nonneg in Ho by lia. apply Z.ltb_ge in Ho.
    by apply (in_width_testbit 16 s). }
  rewrite Z.sub_nocarry_ldiff; apply Z.bits_inj'; intros i Hi; specialize (Hlow i Hi).
  - unfold wnot. rewrite Z.lxor_spec, Z.ldiff_spec.
    destruct (Z.testbit (Z.ones 16) i); [|by rewrite Hlow]. by destruct (Z.testbit s i).
  - rewrite Z.ldiff_spec, Z.bits_0.
    destruct (Z.testbit (Z.ones 16) i); [apply andb_false_r|by rewrite Hlow].
Qed.

Lemma be_value_pair b c : be_value [b; c] = 256 * b + c.
Proof. unfold be_value. cbn. lia. Qed.

Lemma word_sum_bound data :
  byte_list data → 0 ≤ word_sum data ≤ 65535 * ((Z.of_nat (length data) + 1) / 2).
Proof.
  induction data as [|b|b c data IH] using pair_ind; intros Hb; cbn [word_sum length].
  - done.
  - apply Forall_cons in Hb as [Hb%in_width_8 _]. change ((Z.of_nat 1 + 1) / 2) with 1. lia.
  - apply Forall_cons in Hb as [Hb%in_width_8 [Hc%in_width_8 Hd]%Forall_cons].
    specialize (IH Hd). rewrite !Nat2Z.inj_succ.
    replace (Z.succ (Z.succ (Z.of_nat (length data))) + 1)
      with (Z.of_nat (length data) + 1 + 1 * 2) by lia.
    rewrite Z.div_add by lia. lia.
Qed.

Lemma sum_words_exact data s :
  byte_list data → 0 ≤ s → s + word_sum data < 2 ^ 32 → sum_words data s = s + word_sum data.
Proof.
  revert s. induction data as [|b|b c data IH] using pair_ind; intros s Hb Hs Hlt;
    cbn [word_sum sum_words] in *.
  - lia.
  - apply Forall_cons in Hb as [Hb%in_width_8 _].
    rewrite Z.shiftl_mul_pow2 by lia. rewrite wrap_small; [lia|]. unfold in_width. lia.
  - apply Forall_cons in Hb as [Hb%in_width_8 [Hc%in_width_8 Hd]%Forall_cons].
    pose proof (word_sum_bound data Hd). rewrite be_value_pair.
    rewrite wrap_small by (unfold in_width; lia). rewrite IH by (done || lia). lia.
Qed.

(** The representative of [s] modulo 65535 in 1..65535, and 0 for 0. *)
Definition ones_residue (s : Z) : Z := if s =? 0 then 0 else (s - 1) mod 65535 + 1.

Lemma fold_turn s :
  in_width 32 s → wrap 32 (Z.land s 0xFFFF + Z.shiftr s 16) = s - 65535 * (s / 65536).
Proof.
  intros Hs. unfold in_width in Hs. change (Z.land s 0xFFFF) with (Z.land s (Z.ones 16)).
  rewrite Z.land_ones, Z.shiftr_div_pow2 by lia. change (2 ^ 16) with 65536.
  pose proof (Z.mod_pos_bound s 65536 ltac:(lia)). pose proof (Z.div_mod s 65536 ltac:(lia)).
  assert (0 ≤ s / 65536 < 65536) by (split; [apply Z.div_pos|apply Z.div_lt_upper_bound]; lia).
  rewrite wrap_small; [lia|]. unfold in_width. lia.
Qed.

Lemma fold_sum_small fuel s : 0 ≤ s < 65536 → fold_sum fuel s = s.
Proof.
  intros Hs. destruct fuel; [done|]. cbn [fold_sum].
  by rewrite Z.shiftr_div_pow2, Z.div_small by (lia || done).
Qed.

Lemma ones_residue_turn s k : 0 < s - 65535 * k → 0 < s → ones_residue (s - 65535 * k) = ones_residue s.
Proof.
  intros H1 H2. unfold ones_residue.
  destruct (Z.eqb_spec (s - 65535 * k) 0); [lia|]. destruct (Z.eqb_spec s 0); [lia|].
  f_equal. replace (s - 65535 * k - 1) with (s - 1 + - k * 65535) by lia. by rewrite Z.mod_add.
Qed.

Lemma ones_residue_small s : 0 ≤ s < 65536 → ones_residue s = s.
Proof.
  intros Hs. unfold ones_residue. destruct (Z.eqb_spec s 0); [lia|]. rewrite Z.mod_small; lia.
Qed.

Lemma fold_sum_turn fuel s :
  in_width 32 s → 65536 ≤ s → fold_sum (S fuel) s = fold_sum fuel (s - 65535 * (s / 65536)).
Proof.
  intros Hs Hge. cbn [fold_sum]. rewrite fold_turn by done.
  destruct (Z.eqb_spec (Z.shiftr s 16) 0) as [E|]; [|done].
  rewrite Z.shiftr_div_pow2 in E by lia. change (2 ^ 16) with 65536 in E.
  pose proof (Z.div_le_lower_bound s 65536 1 ltac:(lia) ltac:(lia)). lia.
Qed.

(** Two turns always suffice, so the loop's fuel is never exhausted. *)
Lemma fold_sum_exact fuel s : in_width 32 s → fold_sum (S (S fuel)) s = ones_residue s.
Proof.
  assert (Hbase : ∀ n s, 0 ≤ s < 65536 → fold_sum n s = ones_residue s).
  { intros n t Ht. rewrite fold_sum_small by lia. by rewrite ones_residue_small by lia. }
  assert (Hturn : ∀ t, 65536 ≤ t → t < 2 ^ 32 → 1 ≤ t / 65536 < 65536 ∧
    0 < t - 65535 * (t / 65536) ∧ t - 65535 * (t / 65536) ≤ 65535 + t / 65536).
  { intros t H1 H2. pose proof (Z.div_mod t 65536 ltac:(lia)).
    pose proof (Z.mod_pos_bound t 65536 ltac:(lia)).
    assert (1 ≤ t / 65536 < 65536) by
      (split; [apply Z.div_le_lower_bound|apply Z.div_lt_upper_bound]; lia). lia. }
  intros Hs. destruct (decide (s < 65536)); [apply Hbase; unfold in_width in Hs; lia|].
  destruct (Hturn s ltac:(lia) ltac:(apply Hs)) as (Hk & H1 & H2).
  rewrite fold_sum_turn by (done || lia).
  rewrite <- (ones_residue_turn s (s / 65536)) by lia.
  set (t := s - 65535 * (s / 65536)) in *.
  destruct (decide (t < 65536)); [apply Hbase; lia|].
  assert (Ht : t / 65536 = 1) by (symmetry; apply (Z.div_unique t 65536 1 (t - 65536)); lia).
  rewrite fold_sum_turn, Ht by (unfold in_width; lia).
  rewrite <- (ones_residue_turn t 1) by lia. apply Hbase. lia.
Qed.

(** At most 131072 bytes: the 32-bit sum does not overflow. *)
Lemma internet_checksum_exact data :
  byte_list data → Z.of_nat (length data) ≤ 131072 →
  internet_checksum data = 65535 - ones_residue (word_sum data).
Proof.
  intros Hb Hlen. pose proof (word_sum_bound data Hb) as Hws.
  assert ((Z.of_nat (length data) + 1) / 2 ≤ 65536) by (apply Z.lt_succ_r, Z.div_lt_upper_bound; lia).
  unfold internet_checksum. rewrite sum_words_exact by (done || lia). rewrite Z.add_0_l.
  rewrite fold_sum_exact by (unfold in_width; lia).
  assert (0 ≤ ones_residue (word_sum data) < 65536).
  { unfold ones_residue. case_match; [lia|]. pose proof (Z.mod_pos_bound (word_sum data - 1) 65535). lia. }
  rewrite wrap_small by done. apply wnot_sub. done.
Qed.

Lemma ones_residue_complement s : 0 ≤ s → ones_residue (s + (65535 - ones_residue s)) = 65535.
Proof.
  intros Hs. unfold ones_residue at 2. destruct (Z.eqb_spec s 0) as [->|]; [done|].
  pose proof (Z.mod_pos_bound (s - 1) 65535 ltac:(lia)).
  pose proof (Z.div_mod (s - 1) 65535 ltac:(lia)).
  unfold ones_residue. destruct (Z.eqb_spec (s + (65535 - ((s - 1) mod 65535 + 1))) 0); [lia|].
  replace (s + (65535 - ((s - 1) mod 65535 + 1)) - 1) with (65534 + (s - 1) / 65535 * 65535) by lia.
  by rewrite Z.mod_add.
Qed.

Lemma length_put16 i c data : length (put16 i c data) = length data.
Proof. unfold put16. by rewrite !length_insert. Qed.

Lemma put16_byte i c data : in_width 16 c → byte_list data → byte_list (put16 i c data).
Proof.
  intros Hc Hd. unfold put16. apply Forall_insert; [apply Forall_insert; [done|]|].
  - by apply (wrap_in_width 8).
  - change 0xFF with (Z.ones 8). rewrite Z.land_ones by lia. by apply (Z.mod_pos_bound c (2 ^ 8)).
Qed.

Lemma put16_app i c l data : put16 (length l + i) c (l ++ data) = l ++ put16 i c data.
Proof. unfold put16. by rewrite <- Nat.add_assoc, !insert_app_r. Qed.

Lemma put16_bytes c : in_width 16 c → 256 * wrap 8 (Z.shiftr c 8) + Z.land c 0xFF = c.
Proof.
  intros Hc. unfold in_width in Hc. change 0xFF with (Z.ones 8).
  rewrite Z.land_ones, Z.shiftr_div_pow2 by lia. change (2 ^ 8) with 256.
  pose proof (Z.div_mod c 256 ltac:(lia)).
  rewrite wrap_small; [lia|]. unfold in_width. split; [apply Z.div_pos|apply Z.div_lt_upper_bound]; lia.
Qed.

Lemma word_sum_app l data : Nat.even (length l) → word_sum (l ++ data) = word_sum l + word_sum data.
Proof.
  induction l as [|b|b c l IH] using pair_ind; intros He; [done|done|].
  cbn [app word_sum]. rewrite IH by done. lia.
Qed.

(** Writing the checksum into a zeroed field at an even offset adds it to the sum. *)
Lemma word_sum_put16 l c r :
  Nat.even (length l) → in_width 16 c →
  word_sum (put16 (length l) c (l ++ 0 :: 0 :: r)) = word_sum (l ++ 0 :: 0 :: r) + c.
Proof.
  intros He Hc. rewrite <- (Nat.add_0_r (length l)), put16_app, !word_sum_app by done.
  pose proof (put16_bytes c Hc). cbn [put16 word_sum insert list_insert Nat.add]. cbn. lia.
Qed.

Lemma internet_checksum_width data :
  byte_list data → Z.of_nat (length data) ≤ 131072 → in_width 16 (internet_checksum data).
Proof.
  intros Hb Hl. rewrite internet_checksum_exact by done. unfold ones_residue, in_width.
  case_match; [lia|]. pose proof (Z.mod_pos_bound (word_sum data - 1) 65535). lia.
Qed.

(** RFC 1071: with its checksum in place the data sums to zero. *)
Lemma checksum_verifies l r :
  byte_list (l ++ 0 :: 0 :: r) → Nat.even (length l) →
  Z.of_nat (length (l ++ 0 :: 0 :: r)) ≤ 131072 →
  internet_checksum (put16 (length l) (internet_checksum (l ++ 0 :: 0 :: r)) (l ++ 0 :: 0 :: r)) = 0.
Proof.
  intros Hb He Hlen. pose proof (internet_checksum_width _ Hb Hlen) as Hc.
  rewrite internet_checksum_exact.
  - rewrite word_sum_put16 by done. rewrite (internet_checksum_exact _ Hb Hlen).
    rewrite ones_residue_complement; [done|]. by apply word_sum_bound.
  - by apply put16_byte.
  - by rewrite length_put16.
Qed.

(** ** Field access and round trips *)


Lemma be_bytes_2 z : be_bytes 2 z = [z / 256 mod 256; z mod 256].
Proof. done. Qed.

Lemma be_bytes_4 z :
  be_bytes 4 z = [z / 256 / 256 / 256 mod 256; z / 256 / 256 mod 256; z / 256 mod 256; z mod 256].
Proof. done. Qed.

Lemma be16_split z : in_width 16 z → be_value [z / 256 mod 256; z mod 256] = z.
Proof. intros Hz. rewrite <- be_bytes_2, be_value_bytes. by apply Z.mod_small. Qed.

Lemma be32_split z :
  in_width 32 z →
  be_value [z / 256 / 256 / 256 mod 256; z / 256 / 256 mod 256; z / 256 mod 256; z mod 256] = z.
Proof. intros Hz. rewrite <- be_bytes_4, be_value_bytes. by apply Z.mod_small. Qed.

(** The two bytes [put16] writes are the big-endian encoding. *)
Lemma put16_be c l r :
  in_width 16 c →
  put16 (length l) c (l ++ 0 :: 0 :: r) = l ++ be_bytes 2 c ++ r.
Proof.
  intros Hc. rewrite <- (Nat.add_0_r (length l)), put16_app. f_equal. rewrite be_bytes_2.
  cbn [app put16 Nat.add insert list_insert]. unfold put16. cbn. unfold in_width in Hc.
  f_equal; [|f_equal].
  - unfold wrap. by rewrite Z.shiftr_div_pow2.
  - change 255 with (Z.ones 8). by rewrite Z.land_ones.
Qed.

(** Byte lists built from literals, encodings and byte lists. *)
Ltac solve_bytes :=
  repeat first
    [ assumption | apply be_bytes_byte | apply Forall_nil_2 | apply Forall_app_2 | apply Forall_cons_2
    | match goal with |- in_width 8 _ => unfold in_width; cbn; first [lia|done] end ].

(** Addresses are arrays of fixed length. *)
Lemma length_4 (l : list u8) : length l = 4%nat → ∃ a b c d, l = [a; b; c; d].
Proof. destruct l as [|a [|b [|c [|d [|]]]]]; intros; simplify_eq/=; eauto 10. Qed.

Lemma length_6 (l : list u8) : length l = 6%nat → ∃ a b c d e f, l = [a; b; c; d; e; f].
Proof. destruct l as [|a [|b [|c [|d [|e [|f [|]]]]]]]; intros; simplify_eq/=; eauto 10. Qed.

Lemma EthernetFrame_parse_build src dst et payload :
  length src = 6%nat → length dst = 6%nat → in_width 16 et →
  ∃ pad, EthernetFrame_parse (EthernetFrame_build src dst et payload) =
    Some (mkEth dst src et (payload ++ replicate pad 0)).
Proof.
  intros (?&?&?&?&?&?&->)%length_6 (?&?&?&?&?&?&->)%length_6 Het.
  unfold EthernetFrame_build. rewrite be_bytes_2. cbn [app].
  match goal with |- context [replicate ?n 0] => exists n end.
  unfold EthernetFrame_parse. rewrite decide_False by (unfold ETHERNET_HEADER_SIZE; cbn [length]; lia).
  unfold be16, bytes_at, at_. cbn [nth Nat.add take drop ETHERNET_HEADER_SIZE app].
  by rewrite be16_split.
Qed.

(** A checksummed IPv4 header, as the bytes on the wire. *)
Lemma Ipv4Packet_build_bytes id src dst proto payload :
  byte_list src → byte_list dst → in_width 8 proto → length src = 4%nat → length dst = 4%nat →
  ∃ ck, in_width 16 ck ∧ internet_checksum
      (take IPV4_HEADER_MIN_SIZE (Ipv4Packet_build id src dst proto payload)) = 0 ∧
    Ipv4Packet_build id src dst proto payload =
      [0x45; 0] ++ be_bytes 2 (wrap 16 (Z.of_nat (20 + length payload))) ++ be_bytes 2 id ++
      [0x40; 0; 64; proto] ++ be_bytes 2 ck ++ src ++ dst ++ payload.
Proof.
  intros Hs Hd Hp Hls Hld.
  set (pre := [0x45; 0] ++ be_bytes 2 (wrap 16 (Z.of_nat (20 + length payload))) ++
                be_bytes 2 id ++ [0x40; 0; 64; proto]).
  assert (Hhdr : Ipv4Packet_header id src dst proto (length payload) = pre ++ 0 :: 0 :: src ++ dst) by done.
  assert (Hpre : length pre = 10%nat) by done.
  assert (Hb : byte_list (pre ++ 0 :: 0 :: src ++ dst)).
  { subst pre. solve_bytes. }
  assert (Hlen : length (pre ++ 0 :: 0 :: src ++ dst) = 20%nat).
  { rewrite length_app. cbn [length]. rewrite length_app. lia. }
  unfold Ipv4Packet_build. rewrite Hhdr, (take_ge (pre ++ _)) by (rewrite Hlen; done).
  set (ck := internet_checksum (pre ++ 0 :: 0 :: src ++ dst)). exists ck.
  assert (Hck : in_width 16 ck) by (apply internet_checksum_width; [done|lia]).
  split; [done|split].
  - rewrite take_app_le by (by rewrite length_put16, Hlen).
    rewrite take_ge by (by rewrite length_put16, Hlen). rewrite <- Hpre.
    apply checksum_verifies; [done|by rewrite Hpre|lia].
  - rewrite <- Hpre at 1. rewrite put16_be by done. subst pre. by rewrite <- !app_assoc.
Qed.

(** Parsing a built packet recovers it, whatever padding follows. *)
Lemma Ipv4Packet_parse_build id src dst proto payload pad :
  byte_list src → byte_list dst → in_width 8 proto → in_width 16 id →
  length src = 4%nat → length dst = 4%nat → 20 + Z.of_nat (length payload) < 65536 →
  ∃ ck, Ipv4Packet_parse (Ipv4Packet_build id src dst proto payload ++ pad) =
    Some (Some (mkIpv4 4 5 0 (Z.of_nat (20 + length payload)) id 0x4000 64 proto ck src dst payload)).
Proof.
  intros Hs Hd Hp Hid Hls Hld Hlen.
  destruct (Ipv4Packet_build_bytes id src dst proto payload Hs Hd Hp Hls Hld) as (ck & Hck & _ & ->).
  rewrite wrap_small by (unfold in_width; lia).
  set (tot := Z.of_nat (20 + length payload)). assert (Htot : in_width 16 tot) by (unfold in_width; lia).
  assert (Hn : Z.to_nat tot = (20 + length payload)%nat) by lia.
  apply length_4 in Hls as (?&?&?&?&->), Hld as (?&?&?&?&->).
  exists ck. rewrite !be_bytes_2. cbn [app]. unfold Ipv4Packet_parse, IPV4_HEADER_MIN_SIZE.
  rewrite decide_False by (cbn [length]; lia). unfold be16, at_. cbn [nth Nat.add].
  rewrite !be16_split by done. change (Z.land (Z.shiftr 69 4) 15) with 4. change (Z.land 69 15) with 5.
  cbn [Z.eqb negb Z.ltb Z.compare Pos.eqb Pos.compare Pos.compare_cont].
  change (Z.to_nat 5 * 4)%nat with 20%nat. rewrite Hn.
  rewrite !decide_False by (cbn [length]; rewrite length_app; lia).
  unfold slice. rewrite decide_True by (cbn [length]; rewrite length_app; lia).
  cbn [drop mbind option_bind]. replace (20 + length payload - 20)%nat with (length payload) by lia.
  by rewrite drop_0, take_app_length.
Qed.

Lemma build_echo_bytes ty id seq payload :
  in_width 8 ty → byte_list payload → Z.of_nat (length payload) ≤ 65535 →
  ∃ ck, in_width 16 ck ∧ internet_checksum (build_echo ty id seq payload) = 0 ∧
    build_echo ty id seq payload =
      [ty; 0] ++ be_bytes 2 ck ++ be_bytes 2 id ++ be_bytes 2 seq ++ payload.
Proof.
  intros Hty Hp Hlen. unfold build_echo.
  set (rest := be_bytes 2 id ++ be_bytes 2 seq ++ payload).
  change ([ty; 0; 0; 0] ++ rest) with ([ty; 0] ++ 0 :: 0 :: rest).
  assert (Hb : byte_list ([ty; 0] ++ 0 :: 0 :: rest)) by (subst rest; solve_bytes).
  assert (Hl : Z.of_nat (length ([ty; 0] ++ 0 :: 0 :: rest)) ≤ 131072).
  { subst rest. cbn [length app]. rewrite !length_app, !length_be_bytes. lia. }
  eexists. split; [by apply (internet_checksum_width _ Hb)|].
  split; [by apply (checksum_verifies [ty; 0])|].
  apply (put16_be _ [ty; 0]). by apply internet_checksum_width.
Qed.

Lemma length_build_echo ty id seq payload : length (build_echo ty id seq payload) = (8 + length payload)%nat.
Proof. unfold build_echo. by rewrite length_put16, !length_app, !length_be_bytes. Qed.

Lemma IcmpPacket_parse_build ty id seq payload :
  in_width 8 ty → in_width 16 id → in_width 16 seq → byte_list payload → Z.of_nat (length payload) ≤ 65535 →
  ∃ ck, IcmpPacket_parse (build_echo ty id seq payload) = Some (mkIcmp ty 0 ck id seq payload).
Proof.
  intros Hty Hid Hseq Hp Hlen.
  destruct (build_echo_bytes ty id seq payload Hty Hp Hlen) as (ck & Hck & _ & ->).
  exists ck. rewrite !be_bytes_2. cbn [app]. unfold IcmpPacket_parse, ICMP_HEADER_SIZE.
  rewrite decide_False by (cbn [length]; lia). unfold be16, at_. cbn [nth Nat.add drop].
  by rewrite !be16_split.
Qed.

Lemma TcpFlags_roundtrip f : TcpFlags_from_byte (TcpFlags_to_byte f) = f.
Proof. by destruct f as [[] [] [] [] [] []]. Qed.

Lemma TcpFlags_to_byte_width f : in_width 8 (TcpFlags_to_byte f).
Proof. by destruct f as [[] [] [] [] [] []]. Qed.

Lemma pseudo_header_put16 src dst proto n c segment :
  length src = 4%nat → length dst = 4%nat →
  pseudo_header src dst proto (put16 n c segment) = put16 (12 + n) c (pseudo_header src dst proto segment).
Proof.
  intros (?&?&?&?&->)%length_4 (?&?&?&?&->)%length_4. unfold pseudo_header. rewrite length_put16, be_bytes_2.
  symmetry. apply (put16_app n c [_; _; _; _; _; _; _; _; _; _; _; _]).
Qed.

Lemma build_tcp_bytes src dst sp dp seq ack_ fl win payload :
  length src = 4%nat → length dst = 4%nat → byte_list src → byte_list dst → byte_list payload →
  Z.of_nat (length payload) ≤ 65535 →
  ∃ ck, in_width 16 ck ∧
    tcp_checksum src dst (build_tcp_packet_with_checksum src dst sp dp seq ack_ fl win payload) = 0 ∧
    build_tcp_packet_with_checksum src dst sp dp seq ack_ fl win payload =
      be_bytes 2 sp ++ be_bytes 2 dp ++ be_bytes 4 seq ++ be_bytes 4 ack_ ++
      [80; TcpFlags_to_byte fl] ++ be_bytes 2 win ++ be_bytes 2 ck ++ [0; 0] ++ payload.
Proof.
  intros Hls Hld Hs Hd Hp Hlen.
  set (pre := be_bytes 2 sp ++ be_bytes 2 dp ++ be_bytes 4 seq ++ be_bytes 4 ack_ ++
                [80; TcpFlags_to_byte fl] ++ be_bytes 2 win).
  assert (Hpkt : build_tcp_packet sp dp seq ack_ fl win payload = pre ++ 0 :: 0 :: 0 :: 0 :: payload) by done.
  assert (Hpre : length pre = 16%nat) by done.
  set (ph := src ++ dst ++ [0; PROTOCOL_TCP] ++
               be_bytes 2 (wrap 16 (Z.of_nat (length (pre ++ 0 :: 0 :: 0 :: 0 :: payload)))) ++ pre).
  assert (Hph : pseudo_header src dst PROTOCOL_TCP (pre ++ 0 :: 0 :: 0 :: 0 :: payload)
                = ph ++ 0 :: 0 :: 0 :: 0 :: payload).
  { unfold pseudo_header. subst ph. by rewrite <- !app_assoc. }
  assert (Hlph : length ph = 28%nat).
  { subst ph. rewrite !length_app, length_be_bytes, Hpre. cbn [length]. lia. }
  pose proof (TcpFlags_to_byte_width fl).
  assert (Hb : byte_list (ph ++ 0 :: 0 :: 0 :: 0 :: payload)) by (subst ph pre; solve_bytes).
  assert (Hl : Z.of_nat (length (ph ++ 0 :: 0 :: 0 :: 0 :: payload)) ≤ 131072).
  { rewrite length_app, Hlph. cbn [length]. lia. }
  unfold build_tcp_packet_with_checksum, tcp_checksum. rewrite Hpkt, Hph.
  set (ck := internet_checksum (ph ++ 0 :: 0 :: 0 :: 0 :: payload)). exists ck.
  assert (Hck : in_width 16 ck) by (by apply internet_checksum_width).
  split; [done|split].
  - rewrite pseudo_header_put16, Hph by done. change (12 + 16)%nat with 28%nat. rewrite <- Hlph.
    apply checksum_verifies; [done|by rewrite Hlph|done].
  - rewrite <- Hpre at 1. rewrite put16_be by done. subst pre. by rewrite <- !app_assoc.
Qed.

Lemma TcpHeader_parse_build src dst sp dp seq ack_ fl win payload :
  length src = 4%nat → length dst = 4%nat → byte_list src → byte_list dst → byte_list payload →
  Z.of_nat (length payload) ≤ 65535 →
  in_width 16 sp → in_width 16 dp → in_width 32 seq → in_width 32 ack_ → in_width 16 win →
  ∃ ck, TcpHeader_parse (build_tcp_packet_with_checksum src dst sp dp seq ack_ fl win payload) =
    Some (mkTcpHeader sp dp seq ack_ 5 fl win ck 0, payload).
Proof.
  intros Hls Hld Hs Hd Hp Hlen Hsp Hdp Hseq Hack Hwin.
  destruct (build_tcp_bytes src dst sp dp seq ack_ fl win payload) as (ck & Hck & _ & ->); [done..|].
  exists ck. rewrite !be_bytes_2, !be_bytes_4. cbn [app]. unfold TcpHeader_parse, TCP_HEADER_MIN_SIZE.
  rewrite decide_False by (cbn [length]; lia). unfold be16, be32, at_. cbn [nth Nat.add].
  rewrite !be16_split, !be32_split, TcpFlags_roundtrip by done.
  change (Z.land (Z.shiftr 80 4) 15) with 5. change (Z.to_nat 5 * 4)%nat with 20%nat.
  rewrite decide_False by (cbn [length]; lia). done.
Qed.

(** The packets the stack builds carry correct Internet checksums: the
    sum over a built IPv4 header, over a built ICMP echo message, and over a
    built TCP segment with its pseudo-header all come out as zero, which is
    the receiver's test. *)
Theorem built_checksums_verify id src dst proto sp dp seq ack_ fl win ty payload :
  length src = 4%nat → length dst = 4%nat → byte_list src → byte_list dst → byte_list payload →
  in_width 8 proto → in_width 8 ty → Z.of_nat (length payload) ≤ 65535 →
  internet_checksum (take IPV4_HEADER_MIN_SIZE (Ipv4Packet_build id src dst proto payload)) = 0 ∧
  internet_checksum (build_echo ty sp dp payload) = 0 ∧
  tcp_checksum src dst (build_tcp_packet_with_checksum src dst sp dp seq ack_ fl win payload) = 0.
Proof.
  intros Hls Hld Hs Hd Hp Hproto Hty Hlen.
  destruct (Ipv4Packet_build_bytes id src dst proto payload) as (? & _ & ? & _); [done..|].
  destruct (build_echo_bytes ty sp dp payload) as (? & _ & ? & _); [done..|].
  destruct (build_tcp_bytes src dst sp dp seq ack_ fl win payload) as (? & _ & ? & _); [done..|].
  done.
Qed.

Lemma built_checksums_verify_witness :
  internet_checksum (take IPV4_HEADER_MIN_SIZE
    (Ipv4Packet_build 7 [10; 0; 2; 15] [10; 0; 2; 2] PROTOCOL_ICMP [1; 2; 3])) = 0 ∧
  internet_checksum (build_echo 8 1 2 [1; 2; 3]) = 0 ∧
  tcp_checksum [10; 0; 2; 15] [10; 0; 2; 2]
    (build_tcp_packet_with_checksum [10; 0; 2; 15] [10; 0; 2; 2] 1 2 100 200 flags_syn_ack 65535 [1; 2; 3]) = 0.
Proof.
  apply (built_checksums_verify 7 [10; 0; 2; 15] [10; 0; 2; 2] PROTOCOL_ICMP 1 2 100 200 flags_syn_ack
           65535 8 [1; 2; 3]); solve [done | repeat constructor; done].
Defined.

(** A TCP segment survives the wire: parsing what
    [build_tcp_packet_with_checksum] builds gives back the ports, sequence and
    acknowledgement numbers, flags, window and payload it was built from. *)
Theorem tcp_segment_roundtrip src dst sp dp seq ack_ fl win payload :
  length src = 4%nat → length dst = 4%nat → byte_list src → byte_list dst → byte_list payload →
  Z.of_nat (length payload) ≤ 65535 →
  in_width 16 sp → in_width 16 dp → in_width 32 seq → in_width 32 ack_ → in_width 16 win →
  ∃ ck, TcpHeader_parse (build_tcp_packet_with_checksum src dst sp dp seq ack_ fl win payload) =
    Some (mkTcpHeader sp dp seq ack_ 5 fl win ck 0, payload).
Proof. apply TcpHeader_parse_build. Qed.

Lemma tcp_segment_roundtrip_witness :
  ∃ ck, TcpHeader_parse (build_tcp_packet_with_checksum [10; 0; 2; 15] [10; 0; 2; 2] 80 5000
    0xDEADBEEF 7 flags_fin_ack 8192 [104; 105]) =
    Some (mkTcpHeader 80 5000 0xDEADBEEF 7 5 flags_fin_ack 8192 ck 0, [104; 105]).
Proof. apply tcp_segment_roundtrip; solve [done | repeat constructor; done]. Defined.

(** Exactly when IPv4 parsing panics: the buffer holds a well-formed
    version-4 header whose total-length field is smaller than the header it
    describes, so that the payload slice [data[header_len..total_length]] is
    inverted; the length checks before the slice do not exclude it. *)
Theorem Ipv4Packet_parse_panics_iff data :
  Ipv4Packet_parse data = None ↔
  (IPV4_HEADER_MIN_SIZE ≤ length data)%nat ∧
  Z.land (Z.shiftr (at_ data 0) 4) 0x0F = 4 ∧
  let header_len := (Z.to_nat (Z.land (at_ data 0) 0x0F) * 4)%nat in
  5 ≤ Z.land (at_ data 0) 0x0F ∧ (header_len ≤ length data)%nat ∧
  (Z.to_nat (be16 data 2) < header_len)%nat.
Proof.
  unfold Ipv4Packet_parse. cbn zeta.
  destruct (decide _); [split; [done|lia]|].
  destruct (Z.eqb_spec (Z.land (Z.shiftr (at_ data 0) 4) 15) 4); cbn [negb]; [|split; [done|lia]].
  destruct (Z.ltb_spec (Z.land (at_ data 0) 15) 5); [split; [done|lia]|].
  destruct (decide _); [split; [done|lia]|].
  destruct (decide (length data < Z.to_nat (be16 data 2))%nat); [split; [done|lia]|].
  unfold slice. destruct (decide _); cbn [mbind option_bind]; split; (done || lia).
Qed.
