(* ===== verification/NetStack.v ===== *)
(** * The network stack (kernel/src/net/mod.rs and the handlers of arp.rs,
      ipv4.rs, icmp.rs)

    The state behind the stack's locks, the receive path from an Ethernet
    frame to the protocol handlers, the transmit path with its routing, ARP
    miss queue and loopback queue.  The transport protocols are reached
    through the interface [Transport].  [None] is a kernel panic; the current
    time is an argument.  The network card is two fields of the state: its MAC
    address and which frames its driver accepts. *)

From S2P Require Import Prelude Bytes NetPackets.

(** ** State *)

Record NetConfig := mkNetConfig { ip_addr : list u8; subnet_mask : list u8; gateway : list u8 }.

Definition SLIRP_CONFIG : NetConfig := mkNetConfig [10; 0; 2; 15] [255; 255; 255; 0] [10; 0; 2; 2].

Definition MAX_LOOPBACK_QUEUE_SIZE : nat := 32.
Definition MAX_DRAIN_ROUNDS : nat := 16.
Definition MAX_ARP_PENDING_QUEUE_SIZE : nat := 16.
Definition ARP_PENDING_TTL_MS : u64 := 5000.

Record PendingArpPacket := mkPending {
  next_hop : list u8;
  queued_at_ms : u64;
  ip_packet : list u8;
}.

Record NetState := mkNetState {
  mac_address : option (list u8);
  nic_accepts : list u8 → bool;
  net_config : NetConfig;
  ARP_CACHE : list ArpCacheEntry;
  ARP_PENDING_QUEUE : list PendingArpPacket;
  LOOPBACK_QUEUE : list (list u8);
  LOOPBACK_DROPPED_FULL : u64;
  PACKET_ID : u16;
  CURRENT_PACKET_SRC_MAC : list u8;
  wire : list (list u8);   (* frames handed to the card, oldest first *)
  clock : u64;             (* get_monotonic_time, in milliseconds *)
}.

Definition set_arp_cache (c : list ArpCacheEntry) (st : NetState) : NetState :=
  mkNetState (mac_address st) (nic_accepts st) (net_config st) c (ARP_PENDING_QUEUE st)
    (LOOPBACK_QUEUE st) (LOOPBACK_DROPPED_FULL st) (PACKET_ID st) (CURRENT_PACKET_SRC_MAC st) (wire st) (clock st).
Definition set_pending (q : list PendingArpPacket) (st : NetState) : NetState :=
  mkNetState (mac_address st) (nic_accepts st) (net_config st) (ARP_CACHE st) q
    (LOOPBACK_QUEUE st) (LOOPBACK_DROPPED_FULL st) (PACKET_ID st) (CURRENT_PACKET_SRC_MAC st) (wire st) (clock st).
Definition set_loopback (q : list (list u8)) (dropped : u64) (st : NetState) : NetState :=
  mkNetState (mac_address st) (nic_accepts st) (net_config st) (ARP_CACHE st) (ARP_PENDING_QUEUE st)
    q dropped (PACKET_ID st) (CURRENT_PACKET_SRC_MAC st) (wire st) (clock st).
Definition set_packet_id (id : u16) (st : NetState) : NetState :=
  mkNetState (mac_address st) (nic_accepts st) (net_config st) (ARP_CACHE st) (ARP_PENDING_QUEUE st)
    (LOOPBACK_QUEUE st) (LOOPBACK_DROPPED_FULL st) id (CURRENT_PACKET_SRC_MAC st) (wire st) (clock st).
Definition set_src_mac (mac : list u8) (st : NetState) : NetState :=
  mkNetState (mac_address st) (nic_accepts st) (net_config st) (ARP_CACHE st) (ARP_PENDING_QUEUE st)
    (LOOPBACK_QUEUE st) (LOOPBACK_DROPPED_FULL st) (PACKET_ID st) mac (wire st) (clock st).
Definition push_wire (frame : list u8) (st : NetState) : NetState :=
  mkNetState (mac_address st) (nic_accepts st) (net_config st) (ARP_CACHE st) (ARP_PENDING_QUEUE st)
    (LOOPBACK_QUEUE st) (LOOPBACK_DROPPED_FULL st) (PACKET_ID st) (CURRENT_PACKET_SRC_MAC st)
    (wire st ++ [frame]) (clock st).
Definition set_clock (now : u64) (st : NetState) : NetState :=
  mkNetState (mac_address st) (nic_accepts st) (net_config st) (ARP_CACHE st) (ARP_PENDING_QUEUE st)
    (LOOPBACK_QUEUE st) (LOOPBACK_DROPPED_FULL st) (PACKET_ID st) (CURRENT_PACKET_SRC_MAC st) (wire st) now.

(** The error strings of the transmit path. *)
Inductive NetError :=
  | NotInitialized        (* "Network device not initialized" *)
  | DriverError           (* link down or the driver's own error *)
  | ArpRequestFailed      (* "ARP request failed" *)
  | ArpMiss.              (* "ArpMiss: reply will populate cache via IRQ" *)

(** ** Transmit path *)

Definition driver_transmit (data : list u8) (st : NetState) : NetState * result unit NetError :=
  if nic_accepts st data then (push_wire data st, Ok tt) else (st, Err DriverError).

(** [Ipv4Packet::build] with its static counter [PACKET_ID]. *)
Definition ipv4_build (src dst : list u8) (protocol : u8) (payload : list u8) (st : NetState)
    : NetState * list u8 :=
  (set_packet_id (wrap 16 (PACKET_ID st + 1)) st, Ipv4Packet_build (PACKET_ID st) src dst protocol payload).

Definition send_ethernet (dst_mac : list u8) (ethertype : u16) (payload : list u8) (st : NetState)
    : NetState * result unit NetError :=
  match mac_address st with
  | None => (st, Err NotInitialized)
  | Some src_mac => driver_transmit (EthernetFrame_build src_mac dst_mac ethertype payload) st
  end.

Definition arp_request (target_ip : list u8) (st : NetState) : NetState * result unit NetError :=
  match mac_address st with
  | None => (st, Err NotInitialized)
  | Some our_mac =>
      let arp_packet := ArpPacket_build ARP_OP_REQUEST our_mac (ip_addr (net_config st))
                          [0; 0; 0; 0; 0; 0] target_ip in
      driver_transmit (EthernetFrame_build our_mac BROADCAST_MAC ETHERTYPE_ARP arp_packet) st
  end.

(** [now_ms.saturating_sub(ARP_PENDING_TTL_MS)] *)
Definition cutoff (now_ms : u64) : u64 := Z.max 0 (now_ms - ARP_PENDING_TTL_MS).

Definition enqueue_arp_pending_packet (hop ip_packet : list u8) (st : NetState) : NetState :=
  let now_ms := clock st in
  let queue := filter (λ p, cutoff now_ms ≤ queued_at_ms p) (ARP_PENDING_QUEUE st) in
  let queue := if decide (MAX_ARP_PENDING_QUEUE_SIZE ≤ length queue)%nat then drop 1 queue else queue in
  set_pending (queue ++ [mkPending hop now_ms ip_packet]) st.

(** The search for the oldest queued packet: [idx] runs over the queue from
    its second element, [best] is [oldest_idx]. *)
Fixpoint oldest_from (queue : list PendingArpPacket) (idx best : nat) (best_ms : u64) : nat * u64 :=
  match queue with
  | [] => (best, best_ms)
  | p :: queue =>
      if queued_at_ms p <? best_ms then oldest_from queue (S idx) idx (queued_at_ms p)
      else oldest_from queue (S idx) best best_ms
  end.

Definition requeue_one (queue : list PendingArpPacket) (packet : PendingArpPacket) : list PendingArpPacket :=
  if decide (MAX_ARP_PENDING_QUEUE_SIZE ≤ length queue)%nat then
    match queue with
    | [] => queue ++ [packet]
    | p :: rest =>
        let '(oldest_idx, oldest_ms) := oldest_from rest 1 0 (queued_at_ms p) in
        if oldest_ms <=? queued_at_ms packet then delete oldest_idx queue ++ [packet] else queue
    end
  else queue ++ [packet].

(** The send loop of [flush_arp_pending_packets]. *)
Fixpoint flush_send (cutoff_ms : u64) (hop mac : list u8) (packets remaining : list PendingArpPacket)
    (st : NetState) : NetState * list PendingArpPacket :=
  match packets with
  | [] => (st, remaining)
  | packet :: packets =>
      if queued_at_ms packet <? cutoff_ms then flush_send cutoff_ms hop mac packets remaining st
      else if decide (next_hop packet = hop) then
        let '(st, _) := send_ethernet mac ETHERTYPE_IPV4 (ip_packet packet) st in
        flush_send cutoff_ms hop mac packets remaining st
      else flush_send cutoff_ms hop mac packets (remaining ++ [packet]) st
  end.

Definition flush_arp_pending_packets (hop mac : list u8) (st : NetState) : NetState :=
  let now_ms := clock st in
  let packets := ARP_PENDING_QUEUE st in
  let st := set_pending [] st in
  match packets with
  | [] => st
  | _ =>
      let '(st, remaining) := flush_send (cutoff now_ms) hop mac packets [] st in
      set_pending (foldl requeue_one (ARP_PENDING_QUEUE st) remaining) st
  end.

(** The next hop of [send_ipv4]: direct on the same /24, else the gateway. *)
Definition route (cfg : NetConfig) (dst_ip : list u8) : list u8 :=
  if bool_decide (take 3 dst_ip = take 3 (ip_addr cfg)) then dst_ip else gateway cfg.

Definition is_local (cfg : NetConfig) (dst_ip : list u8) : bool :=
  bool_decide (dst_ip = ip_addr cfg) || (at_ dst_ip 0 =? 127).

Definition send_ipv4 (dst_ip : list u8) (protocol : u8) (payload : list u8) (st : NetState)
    : NetState * result unit NetError :=
  let cfg := net_config st in
  if is_local cfg dst_ip then
    let '(st, ip_packet) := ipv4_build (ip_addr cfg) dst_ip protocol payload st in
    let full := bool_decide (MAX_LOOPBACK_QUEUE_SIZE ≤ length (LOOPBACK_QUEUE st))%nat in
    let queue := if full then drop 1 (LOOPBACK_QUEUE st) else LOOPBACK_QUEUE st in
    let dropped := if full then wrap 64 (LOOPBACK_DROPPED_FULL st + 1) else LOOPBACK_DROPPED_FULL st in
    (set_loopback (queue ++ [ip_packet]) dropped st, Ok tt)
  else
    let hop := route cfg dst_ip in
    match arp_lookup hop (ARP_CACHE st) with
    | None =>
        let '(st, ip_packet) := ipv4_build (ip_addr cfg) dst_ip protocol payload st in
        let st := enqueue_arp_pending_packet hop ip_packet st in
        let '(st, r) := arp_request hop st in
        match r with
        | Err _ => (st, Err ArpRequestFailed)
        | Ok _ => (st, Err ArpMiss)
        end
    | Some dst_mac =>
        let '(st, ip_packet) := ipv4_build (ip_addr cfg) dst_ip protocol payload st in
        send_ethernet dst_mac ETHERTYPE_IPV4 ip_packet st
    end.

(** [b"breenix ping"] *)
Definition ping_data : list u8 := [98; 114; 101; 101; 110; 105; 120; 32; 112; 105; 110; 103].

Definition ping (dst_ip : list u8) (st : NetState) : NetState * result unit NetError :=
  send_ipv4 dst_ip PROTOCOL_ICMP (echo_request 1 1 ping_data) st.

(** ** Receive path *)

(** What the stack uses of the transport protocols. *)
Class Transport (T : Type) := {
  handle_tcp : Ipv4Packet → list u8 → NetState * T → option (NetState * T);
  handle_udp : Ipv4Packet → list u8 → NetState * T → option (NetState * T);
  drain_deferred_tx : NetState * T → option (NetState * T);
}.

Definition send_echo_reply (eth : EthernetFrame) (ip : Ipv4Packet) (icmp : IcmpPacket) (st : NetState)
    : NetState :=
  match mac_address st with
  | None => st
  | Some our_mac =>
      let icmp_reply := echo_reply (identifier icmp) (sequence icmp) (icmp_payload icmp) in
      let '(st, ip_packet) := ipv4_build (ip_addr (net_config st)) (src_ip ip) PROTOCOL_ICMP icmp_reply st in
      (driver_transmit (EthernetFrame_build our_mac (src_mac eth) ETHERTYPE_IPV4 ip_packet) st).1
  end.

Definition handle_icmp (eth : EthernetFrame) (ip : Ipv4Packet) (icmp : IcmpPacket) (st : NetState) : NetState :=
  if icmp_type icmp =? ICMP_ECHO_REQUEST then send_echo_reply eth ip icmp st else st.

Definition handle_arp (eth : EthernetFrame) (arp : ArpPacket) (st : NetState) : NetState :=
  match mac_address st with
  | None => st
  | Some our_mac =>
      let st := set_arp_cache (update_cache (sender_ip arp) (sender_mac arp) (ARP_CACHE st)) st in
      let st := flush_arp_pending_packets (sender_ip arp) (sender_mac arp) st in
      let our_ip := ip_addr (net_config st) in
      if negb (bool_decide (target_ip arp = our_ip)) then st
      else if operation arp =? ARP_OP_REQUEST then
        let reply := ArpPacket_build ARP_OP_REPLY our_mac our_ip (sender_mac arp) (sender_ip arp) in
        (driver_transmit (EthernetFrame_build our_mac (src_mac eth) ETHERTYPE_ARP reply) st).1
      else st
  end.

Section receive.
Context {T : Type} `{!Transport T}.

Definition handle_ipv4 (eth : EthernetFrame) (ip : Ipv4Packet) (s : NetState * T) : option (NetState * T) :=
  if negb (is_local (net_config s.1) (dst_ip ip)) then Some s
  else if protocol ip =? PROTOCOL_ICMP then
    match IcmpPacket_parse (ip_payload ip) with
    | Some icmp => Some (handle_icmp eth ip icmp s.1, s.2)
    | None => Some s
    end
  else if protocol ip =? PROTOCOL_TCP then handle_tcp ip (ip_payload ip) s
  else if protocol ip =? PROTOCOL_UDP then handle_udp ip (ip_payload ip) s
  else Some s.

Definition process_packet (data : list u8) (s : NetState * T) : option (NetState * T) :=
  match EthernetFrame_parse data with
  | None => Some s
  | Some frame =>
      let s := (set_src_mac (src_mac frame) s.1, s.2) in
      if ethertype frame =? ETHERTYPE_ARP then
        match ArpPacket_parse (eth_payload frame) with
        | Some arp => Some (handle_arp frame arp s.1, s.2)
        | None => Some s
        end
      else if ethertype frame =? ETHERTYPE_IPV4 then
        parsed ← Ipv4Packet_parse (eth_payload frame);
        match parsed with
        | Some ip => handle_ipv4 frame ip s
        | None => Some s
        end
      else Some s
  end.

Inductive PollOutcome := Drained | BudgetExhausted | InProgress.

(** [process_rx_budgeted] over the frames the card has received; a frame the
    driver reports with an error ends the poll, as an empty ring does. *)
Fixpoint process_rx_budgeted (rx : list (option (list u8))) (budget : nat)
    (s : NetState * T) : option (PollOutcome * (NetState * T)) :=
  match budget with
  | O => Some (BudgetExhausted, s)
  | S budget =>
      match rx with
      | [] => Some (Drained, s)
      | None :: _ => Some (Drained, s)
      | Some data :: rx =>
          s ← process_packet data s;
          process_rx_budgeted rx budget s
      end
  end.

(** Delivery of one batch of loopback packets. *)
Fixpoint deliver_loopback (packets : list (list u8)) (s : NetState * T) : option (NetState * T) :=
  match packets with
  | [] => Some s
  | data :: packets =>
      parsed ← Ipv4Packet_parse data;
      s ← match parsed with
          | Some ip =>
              let mac := default [0; 0; 0; 0; 0; 0] (mac_address s.1) in
              handle_ipv4 (mkEth mac mac ETHERTYPE_IPV4 data) ip s
          | None => Some s
          end;
      deliver_loopback packets s
  end.

(** [drain_loopback_rounds] when no other taker holds the drain guard. *)
Fixpoint drain_loopback_rounds (max_rounds : nat) (s : NetState * T) : option (bool * (NetState * T)) :=
  match max_rounds with
  | O => Some (negb (bool_decide (LOOPBACK_QUEUE s.1 = [])), s)
  | S max_rounds =>
      match LOOPBACK_QUEUE s.1 with
      | [] => Some (false, s)
      | packets =>
          s ← deliver_loopback packets (set_loopback [] (LOOPBACK_DROPPED_FULL s.1) s.1, s.2);
          s ← drain_deferred_tx s;
          drain_loopback_rounds max_rounds s
      end
  end.

Definition drain_loopback_queue (s : NetState * T) : option (NetState * T) :=
  snd <$> drain_loopback_rounds MAX_DRAIN_ROUNDS s.

End receive.

(** ** What parsing guarantees *)

Lemma bytes_at_byte data i n : byte_list data → byte_list (bytes_at data i n).
Proof. intros H. unfold bytes_at. by apply Forall_take, Forall_drop. Qed.

Lemma length_bytes_at data i n : (i + n ≤ length data)%nat → length (bytes_at data i n) = n.
Proof. intros H. unfold bytes_at. rewrite length_take, length_drop. lia. Qed.

Lemma at_byte data i : byte_list data → in_width 8 (at_ data i).
Proof.
  intros H. unfold at_. destruct (nth_in_or_default i data 0) as [Hin| ->]; [|done].
  rewrite Forall_forall in H. apply H. by apply list_elem_of_In.
Qed.

Lemma be16_width data i : byte_list data → in_width 16 (be16 data i).
Proof.
  intros H. unfold be16. apply (be_value_bound [_; _]).
  by repeat constructor; apply at_byte.
Qed.

Lemma EthernetFrame_parse_wf data e :
  EthernetFrame_parse data = Some e → byte_list data →
  length (src_mac e) = 6%nat ∧ byte_list (src_mac e) ∧ byte_list (eth_payload e).
Proof.
  unfold EthernetFrame_parse. intros H Hb. destruct (decide _) as [|Hlen]; simplify_eq/=.
  unfold ETHERNET_HEADER_SIZE in Hlen. split; [apply length_bytes_at; lia|].
  split; [by apply bytes_at_byte|by apply Forall_drop].
Qed.

Lemma Ipv4Packet_parse_wf data ip :
  Ipv4Packet_parse data = Some (Some ip) → byte_list data →
  length (src_ip ip) = 4%nat ∧ byte_list (src_ip ip) ∧ byte_list (ip_payload ip) ∧
  20 + Z.of_nat (length (ip_payload ip)) < 65536.
Proof.
  unfold Ipv4Packet_parse. intros H Hb. destruct (decide _) as [|Hlen]; [done|].
  destruct (negb _); [done|]. destruct (Z.ltb_spec (Z.land (at_ data 0) 15) 5); [done|].
  destruct (decide _); [done|]. destruct (decide _); [done|]. unfold slice in H.
  destruct (decide _) as [[Hle _]|]; [|done]. cbn [mbind option_bind] in H. injection H as <-.
  cbn [src_ip ip_payload].
  unfold IPV4_HEADER_MIN_SIZE in Hlen. split; [apply length_bytes_at; lia|].
  split; [by apply bytes_at_byte|]. split; [by apply Forall_take, Forall_drop|].
  pose proof (be16_width data 2 Hb) as Hw. unfold in_width in Hw. rewrite length_take. lia.
Qed.

Lemma IcmpPacket_parse_wf data icmp :
  IcmpPacket_parse data = Some icmp → byte_list data →
  in_width 16 (identifier icmp) ∧ in_width 16 (sequence icmp) ∧ byte_list (icmp_payload icmp) ∧
  length data = (8 + length (icmp_payload icmp))%nat.
Proof.
  unfold IcmpPacket_parse. intros H Hb. destruct (decide _) as [|Hlen]; simplify_eq/=.
  unfold ICMP_HEADER_SIZE in *. rewrite length_drop.
  repeat split; try (by apply (be16_width data)); [by apply Forall_drop|lia].
Qed.

(** A configured interface: MAC and IP addresses are byte arrays, the queue of
    packets waiting for ARP is within its bound. *)
Record net_wf (st : NetState) : Prop := {
  wf_mac : ∀ mac, mac_address st = Some mac → length mac = 6%nat ∧ byte_list mac;
  wf_ip : length (ip_addr (net_config st)) = 4%nat ∧ byte_list (ip_addr (net_config st));
  wf_id : in_width 16 (PACKET_ID st);
  wf_pending : (length (ARP_PENDING_QUEUE st) ≤ MAX_ARP_PENDING_QUEUE_SIZE)%nat;
}.

(** What a peer that receives [reply] reads in it. *)
Definition is_echo_reply (reply peer_mac our_mac peer_ip our_ip : list u8) (icmp : IcmpPacket) : Prop :=
  ∃ eth' ip' icmp',
    EthernetFrame_parse reply = Some eth' ∧ dst_mac eth' = peer_mac ∧ src_mac eth' = our_mac ∧
    ethertype eth' = ETHERTYPE_IPV4 ∧
    Ipv4Packet_parse (eth_payload eth') = Some (Some ip') ∧
    src_ip ip' = our_ip ∧ dst_ip ip' = peer_ip ∧ protocol ip' = PROTOCOL_ICMP ∧
    IcmpPacket_parse (ip_payload ip') = Some icmp' ∧
    icmp_type icmp' = ICMP_ECHO_REPLY ∧ identifier icmp' = identifier icmp ∧
    sequence icmp' = sequence icmp ∧ icmp_payload icmp' = icmp_payload icmp.

Lemma echo_reply_frame_ok id our_mac our_ip peer_mac peer_ip icmp :
  length our_mac = 6%nat → length peer_mac = 6%nat →
  length our_ip = 4%nat → byte_list our_ip → length peer_ip = 4%nat → byte_list peer_ip →
  in_width 16 id → in_width 16 (identifier icmp) → in_width 16 (sequence icmp) →
  byte_list (icmp_payload icmp) → 28 + Z.of_nat (length (icmp_payload icmp)) < 65536 →
  is_echo_reply
    (EthernetFrame_build our_mac peer_mac ETHERTYPE_IPV4
      (Ipv4Packet_build id our_ip peer_ip PROTOCOL_ICMP
        (echo_reply (identifier icmp) (sequence icmp) (icmp_payload icmp))))
    peer_mac our_mac peer_ip our_ip icmp.
Proof.
  intros Hm Hpm Hlo Ho Hlp Hp Hid Hi Hs Hpl Hlen.
  unfold is_echo_reply, echo_reply.
  set (body := build_echo ICMP_ECHO_REPLY _ _ _).
  assert (Hbody : 20 + Z.of_nat (length body) < 65536) by (subst body; rewrite length_build_echo; lia).
  destruct (EthernetFrame_parse_build our_mac peer_mac ETHERTYPE_IPV4
    (Ipv4Packet_build id our_ip peer_ip PROTOCOL_ICMP body)) as [pad He]; [done..|].
  destruct (Ipv4Packet_parse_build id our_ip peer_ip PROTOCOL_ICMP body (replicate pad 0)) as [ck Hip];
    [done..|].
  destruct (IcmpPacket_parse_build ICMP_ECHO_REPLY (identifier icmp) (sequence icmp) (icmp_payload icmp))
    as [ck' Hic]; [done..|lia|].
  eexists _, _, _. repeat (split; [first [exact He|exact Hip|exact Hic|done]|]). done.
Qed.

(** C25: Ping is answered.  When a received Ethernet frame carries an IPv4
    packet for our address (or a loopback address) with an ICMP echo request,
    processing it does not panic and hands the card exactly one frame, which
    parses, layer by layer, to an echo reply from our MAC and IP to the
    sender's, with the request's identifier, sequence number and payload. *)
Theorem echo_request_answered {T} `{!Transport T} frame eth ip icmp our_mac (st : NetState) (t : T) :
  net_wf st → byte_list frame →
  mac_address st = Some our_mac → (∀ f, nic_accepts st f = true) →
  EthernetFrame_parse frame = Some eth → ethertype eth = ETHERTYPE_IPV4 →
  Ipv4Packet_parse (eth_payload eth) = Some (Some ip) →
  is_local (net_config st) (dst_ip ip) = true → protocol ip = PROTOCOL_ICMP →
  IcmpPacket_parse (ip_payload ip) = Some icmp → icmp_type icmp = ICMP_ECHO_REQUEST →
  ∃ st' reply,
    process_packet frame (st, t) = Some (st', t) ∧ wire st' = wire st ++ [reply] ∧
    is_echo_reply reply (src_mac eth) our_mac (src_ip ip) (ip_addr (net_config st)) icmp.
Proof.
  intros [Hwm [Hli Hbi] Hid _] Hb Hmac Hnic Heth Het Hip Hloc Hproto Hicmp Hty.
  destruct (Hwm _ Hmac) as [Hlm _].
  destruct (EthernetFrame_parse_wf _ _ Heth Hb) as (Hlsm & _ & Hbe).
  destruct (Ipv4Packet_parse_wf _ _ Hip Hbe) as (Hlsi & Hbsi & Hbp & Hlen).
  destruct (IcmpPacket_parse_wf _ _ Hicmp Hbp) as (Hwi & Hws & Hbic & Hlic).
  unfold process_packet. rewrite Heth, Het. cbn [fst snd]. change (ETHERTYPE_IPV4 =? ETHERTYPE_ARP) with false.
  cbn iota. rewrite Z.eqb_refl, Hip. cbn [mbind option_bind].
  unfold handle_ipv4. cbn [fst snd set_src_mac net_config]. rewrite Hloc, Hproto, Z.eqb_refl, Hicmp.
  cbn [negb]. unfold handle_icmp. rewrite Hty, Z.eqb_refl. unfold send_echo_reply.
  cbn [set_src_mac mac_address net_config]. rewrite Hmac. unfold ipv4_build, driver_transmit.
  cbn [set_packet_id set_src_mac nic_accepts PACKET_ID]. rewrite Hnic.
  eexists _, _. split; [reflexivity|]. cbn [push_wire wire fst]. split; [reflexivity|].
  apply echo_reply_frame_ok; (done || lia).
Qed.

(** The smallest frame to our address whose total length is below the header
    length: it panics the receive path. *)
Lemma inverted_length_frame_panics {T} `{!Transport T} (st : NetState) (t : T) :
  process_packet (repeat 0 12 ++ [8; 0; 0x45; 0; 0; 19] ++ repeat 0 16) (st, t) = None.
Proof. done. Qed.

(** A configured interface without transport protocols, and an echo request as
    the frame on the wire. *)
Definition transport_none : Transport unit :=
  {| handle_tcp _ _ s := Some s; handle_udp _ _ s := Some s; drain_deferred_tx s := Some s |}.

Definition sample_net : NetState :=
  mkNetState (Some [2; 0; 0; 0; 0; 1]) (λ _, true) SLIRP_CONFIG arp_cache_new [] [] 0 0
    [0; 0; 0; 0; 0; 0] [] 100.

Definition sample_ping : list u8 :=
  EthernetFrame_build [2; 0; 0; 0; 0; 9] [2; 0; 0; 0; 0; 1] ETHERTYPE_IPV4
    (Ipv4Packet_build 0 [10; 0; 2; 2] [10; 0; 2; 15] PROTOCOL_ICMP (echo_request 77 3 [1; 2; 3; 4])).

Lemma sample_net_wf : net_wf sample_net.
Proof.
  split; cbn.
  - intros mac [= <-]. split; [done|]. solve_bytes.
  - split; [done|]. solve_bytes.
  - done.
  - lia.
Qed.

Lemma echo_request_answered_witness :
  ∃ eth ip icmp st' reply,
    EthernetFrame_parse sample_ping = Some eth ∧
    @process_packet unit transport_none sample_ping (sample_net, tt) = Some (st', tt) ∧
    wire st' = [reply] ∧
    is_echo_reply reply (src_mac eth) [2; 0; 0; 0; 0; 1] (src_ip ip) [10; 0; 2; 15] icmp.
Proof.
  destruct (@echo_request_answered unit transport_none sample_ping
    (default (mkEth [] [] 0 []) (EthernetFrame_parse sample_ping))
    (mkIpv4 4 5 0 32 0 0x4000 64 1 8909 [10; 0; 2; 2] [10; 0; 2; 15] (echo_request 77 3 [1; 2; 3; 4]))
    (mkIcmp 8 0 62377 77 3 [1; 2; 3; 4]) [2; 0; 0; 0; 0; 1] sample_net tt)
    as (st' & reply & H1 & H2 & H3); try reflexivity; [apply sample_net_wf| |].
  - vm_compute. repeat constructor; done.
  - eexists _, _, _, st', reply. split; [reflexivity|]. split; [exact H1|]. split; [exact H2|exact H3].
Defined.

(** ** ARP: the cache and the packets that wait for it *)

Lemma refresh_entry_None ip mac cache :
  refresh_entry ip mac cache = None →
  Forall (λ e, ae_valid e && bool_decide (ae_ip e = ip) = false) cache.
Proof.
  induction cache as [|e cache IH]; cbn; intros H; [done|].
  destruct (ae_valid e && bool_decide (ae_ip e = ip)) eqn:E; [done|].
  destruct (refresh_entry ip mac cache); [done|]. auto.
Qed.

Lemma refresh_entry_lookup ip mac cache cache' :
  refresh_entry ip mac cache = Some cache' → arp_lookup ip cache' = Some mac.
Proof.
  revert cache'. induction cache as [|e cache IH]; cbn; intros cache' H; [done|].
  destruct (ae_valid e && bool_decide (ae_ip e = ip)) eqn:E.
  - simplify_eq/=. by rewrite E.
  - destruct (refresh_entry ip mac cache) eqn:Er; simplify_eq/=. rewrite E. auto.
Qed.

Lemma fill_entry_lookup ip mac cache cache' :
  Forall (λ e, ae_valid e && bool_decide (ae_ip e = ip) = false) cache →
  fill_entry ip mac cache = Some cache' → arp_lookup ip cache' = Some mac.
Proof.
  intros Hno. revert cache'. induction Hno as [|e cache E Hno IH]; cbn; intros cache' H; [done|].
  destruct (negb (ae_valid e)).
  - simplify_eq/=. by rewrite bool_decide_true.
  - destruct (fill_entry ip mac cache) eqn:Er; simplify_eq/=. rewrite E. auto.
Qed.

Lemma update_cache_lookup ip mac cache :
  cache ≠ [] → arp_lookup ip (update_cache ip mac cache) = Some mac.
Proof.
  intros Hne. unfold update_cache. destruct (refresh_entry ip mac cache) eqn:Er.
  { by eapply refresh_entry_lookup. }
  destruct (fill_entry ip mac cache) eqn:Ef.
  { eapply fill_entry_lookup; [by eapply refresh_entry_None|done]. }
  destruct cache; [done|]. cbn. by rewrite bool_decide_true.
Qed.

Lemma requeue_fits q rem :
  (length q + length rem ≤ MAX_ARP_PENDING_QUEUE_SIZE)%nat → foldl requeue_one q rem = q ++ rem.
Proof.
  revert q. induction rem as [|p rem IH]; intros q Hlen; cbn [foldl]; [by rewrite app_nil_r|].
  cbn [length] in Hlen. unfold requeue_one at 2. rewrite decide_False by lia.
  rewrite IH by (rewrite length_app; cbn [length]; lia). by rewrite <- app_assoc.
Qed.

(** Eviction keeps the queue within its bound under any interleaving. *)
Lemma requeue_bounded q rem :
  (length q ≤ MAX_ARP_PENDING_QUEUE_SIZE)%nat →
  (length (foldl requeue_one q rem) ≤ MAX_ARP_PENDING_QUEUE_SIZE)%nat.
Proof.
  assert (Hold : ∀ l i b m, (b < i)%nat → (fst (oldest_from l i b m) < i + length l)%nat).
  { induction l as [|p l IH]; intros i b m Hb; cbn [oldest_from length fst]; [lia|].
    case_match; [specialize (IH (S i) i (queued_at_ms p))|specialize (IH (S i) b m)]; lia. }
  revert q. induction rem as [|p rem IH]; intros q Hq; cbn [foldl]; [done|]. apply IH.
  unfold requeue_one. destruct (decide _) as [Hfull|Hroom].
  - destruct q as [|p0 q]; [unfold MAX_ARP_PENDING_QUEUE_SIZE in *; cbn in *; lia|].
    specialize (Hold q 1%nat 0%nat (queued_at_ms p0) ltac:(lia)).
    destruct (oldest_from q 1 0 (queued_at_ms p0)) as [i m]. cbn [fst] in Hold.
    destruct (m <=? queued_at_ms p); [|done].
    rewrite length_app, length_delete by (apply lookup_lt_is_Some; cbn [length]; lia).
    cbn [length] in *. lia.
  - rewrite length_app. cbn [length]. lia.
Qed.

(** The packets a flush sends, and the ones it keeps. *)
Definition sent_by_flush (now : u64) (hop : list u8) (q : list PendingArpPacket) :=
  filter (λ p, cutoff now ≤ queued_at_ms p ∧ next_hop p = hop) q.
Definition kept_by_flush (now : u64) (hop : list u8) (q : list PendingArpPacket) :=
  filter (λ p, cutoff now ≤ queued_at_ms p ∧ next_hop p ≠ hop) q.

Definition pending_frame (our_mac mac : list u8) (p : PendingArpPacket) : list u8 :=
  EthernetFrame_build our_mac mac ETHERTYPE_IPV4 (ip_packet p).

Definition push_wires (fs : list (list u8)) (st : NetState) : NetState := foldl (flip push_wire) st fs.

Lemma push_wires_fields fs st :
  wire (push_wires fs st) = wire st ++ fs ∧
  mac_address (push_wires fs st) = mac_address st ∧ nic_accepts (push_wires fs st) = nic_accepts st ∧
  net_config (push_wires fs st) = net_config st ∧ ARP_CACHE (push_wires fs st) = ARP_CACHE st ∧
  ARP_PENDING_QUEUE (push_wires fs st) = ARP_PENDING_QUEUE st ∧ PACKET_ID (push_wires fs st) = PACKET_ID st.
Proof.
  revert st. induction fs as [|f fs IH]; intros st; cbn.
  - by rewrite app_nil_r.
  - destruct (IH (push_wire f st)) as (Hw & ?). unfold push_wires in *. rewrite Hw. cbn.
    by rewrite <- app_assoc.
Qed.

Lemma flush_send_spec now hop mac our_mac ps rem st :
  mac_address st = Some our_mac → (∀ f, nic_accepts st f = true) →
  flush_send (cutoff now) hop mac ps rem st =
    (push_wires (pending_frame our_mac mac <$> sent_by_flush now hop ps) st, rem ++ kept_by_flush now hop ps).
Proof.
  revert rem st. induction ps as [|p ps IH]; intros rem st Hm Hn.
  { cbn. by rewrite app_nil_r. }
  cbn [flush_send]. unfold sent_by_flush, kept_by_flush in *.
  destruct (Z.ltb_spec (queued_at_ms p) (cutoff now)) as [Hold|Hfresh].
  - rewrite !filter_cons_False by lia. by apply IH.
  - destruct (decide (next_hop p = hop)).
    + rewrite filter_cons_True by done. rewrite filter_cons_False by tauto.
      unfold send_ethernet. rewrite Hm. unfold driver_transmit. rewrite Hn. by rewrite IH.
    + rewrite filter_cons_False by tauto. rewrite filter_cons_True by done.
      rewrite IH by done. by rewrite <- app_assoc.
Qed.

Lemma flush_spec hop mac our_mac st :
  let now := clock st in
  mac_address st = Some our_mac → (∀ f, nic_accepts st f = true) →
  (length (ARP_PENDING_QUEUE st) ≤ MAX_ARP_PENDING_QUEUE_SIZE)%nat →
  let st' := flush_arp_pending_packets hop mac st in
  wire st' = wire st ++ (pending_frame our_mac mac <$> sent_by_flush now hop (ARP_PENDING_QUEUE st)) ∧
  ARP_PENDING_QUEUE st' = kept_by_flush now hop (ARP_PENDING_QUEUE st) ∧
  ARP_CACHE st' = ARP_CACHE st ∧ net_config st' = net_config st ∧ nic_accepts st' = nic_accepts st.
Proof.
  intros now Hm Hn Hlen. unfold flush_arp_pending_packets. fold now. destruct (ARP_PENDING_QUEUE st) as [|p q] eqn:Eq.
  { cbn. by rewrite app_nil_r. }
  cbn iota. rewrite <- Eq in *. rewrite (flush_send_spec _ _ _ our_mac) by done.
  destruct (push_wires_fields (pending_frame our_mac mac <$> sent_by_flush now hop (ARP_PENDING_QUEUE st))
    (set_pending [] st)) as (Hw & _ & Hna & Hc & Hca & Hp & _).
  cbn [app set_pending wire ARP_PENDING_QUEUE ARP_CACHE net_config nic_accepts] in *.
  rewrite Hp, Hw, Hna, Hc, Hca. split; [done|]. split; [|done].
  rewrite requeue_fits; [done|]. cbn [length Nat.add].
  etrans; [apply length_filter|done].
Qed.

Lemma enqueue_length hop pkt st :
  (length (ARP_PENDING_QUEUE st) ≤ MAX_ARP_PENDING_QUEUE_SIZE)%nat →
  (length (ARP_PENDING_QUEUE (enqueue_arp_pending_packet hop pkt st)) ≤ MAX_ARP_PENDING_QUEUE_SIZE)%nat.
Proof.
  intros Hlen. cbn. rewrite length_app. cbn [length].
  pose proof (length_filter (λ p, cutoff (clock st) ≤ queued_at_ms p) (ARP_PENDING_QUEUE st)).
  unfold MAX_ARP_PENDING_QUEUE_SIZE in *. destruct (decide _); rewrite ?length_drop; lia.
Qed.

Lemma sent_by_flush_last now now' hop pkt q :
  0 ≤ now ≤ now' → now' ≤ now + ARP_PENDING_TTL_MS →
  sent_by_flush now' hop (q ++ [mkPending hop now pkt]) =
    sent_by_flush now' hop q ++ [mkPending hop now pkt].
Proof.
  intros H1 H2. unfold sent_by_flush. rewrite filter_app. f_equal.
  rewrite filter_cons_True by (cbn; unfold cutoff; split; [lia|done]). done.
Qed.

(** A packet that misses the ARP cache is not lost.  [send_ipv4] to a
    remote address whose next hop is unknown reports the miss after
    broadcasting the ARP request; when a reply of that next hop is processed
    at most five seconds later, the last frame handed to the card carries
    exactly that IPv4 packet to the replying MAC, no packet for that hop stays
    queued, and the cache resolves the hop from then on. *)
Theorem arp_miss_then_reply now' dst proto payload our_mac eth arp (st : NetState) :
  net_wf st → mac_address st = Some our_mac → (∀ f, nic_accepts st f = true) → ARP_CACHE st ≠ [] →
  is_local (net_config st) dst = false →
  arp_lookup (route (net_config st) dst) (ARP_CACHE st) = None →
  0 ≤ clock st ≤ now' → now' ≤ clock st + ARP_PENDING_TTL_MS →
  sender_ip arp = route (net_config st) dst → operation arp = ARP_OP_REPLY →
  let packet := Ipv4Packet_build (PACKET_ID st) (ip_addr (net_config st)) dst proto payload in
  ∃ st1, send_ipv4 dst proto payload st = (st1, Err ArpMiss) ∧
    let st2 := handle_arp eth arp (set_clock now' st1) in
    (∃ earlier, wire st2 = wire st1 ++ earlier ++
      [EthernetFrame_build our_mac (sender_mac arp) ETHERTYPE_IPV4 packet]) ∧
    Forall (λ p, next_hop p ≠ sender_ip arp) (ARP_PENDING_QUEUE st2) ∧
    arp_lookup (sender_ip arp) (ARP_CACHE st2) = Some (sender_mac arp).
Proof.
  intros Hwf Hm Hn Hcache Hloc Hmiss Hnow Httl Hsip Hop packet.
  unfold send_ipv4. rewrite Hloc, Hmiss. cbn [ipv4_build]. unfold arp_request.
  cbn [enqueue_arp_pending_packet set_pending set_packet_id mac_address]. rewrite Hm.
  unfold driver_transmit. cbn [enqueue_arp_pending_packet set_pending set_packet_id nic_accepts]. rewrite Hn.
  eexists. split; [reflexivity|]. set (st1 := push_wire _ _). cbn zeta.
  unfold handle_arp. change (mac_address (set_clock now' st1)) with (mac_address st). rewrite Hm.
  set (st1' := set_arp_cache _ _).
  destruct (flush_spec (sender_ip arp) (sender_mac arp) our_mac st1') as (Hw & Hp & Hc & _ & _);
    [done|done|exact (enqueue_length _ packet (set_packet_id 0 st) (wf_pending st Hwf))|].
  rewrite Hop. change (ARP_OP_REPLY =? ARP_OP_REQUEST) with false.
  assert (Hlast : ∃ q, ARP_PENDING_QUEUE st1' = q ++ [mkPending (route (net_config st) dst) (clock st) packet])
    by (eexists; reflexivity).
  destruct Hlast as [q Hq]. cbv zeta. destruct (negb _);
    (split; [|split]; [| rewrite Hp; apply Forall_forall; intros p Hin; apply list_elem_of_filter in Hin; tauto
      | rewrite Hc; by apply update_cache_lookup]);
    change (clock st1') with now' in Hw;
    rewrite Hw, Hq, Hsip, sent_by_flush_last, fmap_app by done; by eexists.
Qed.

Lemma arp_miss_then_reply_witness :
  ∃ st1, send_ipv4 [8; 8; 8; 8] PROTOCOL_UDP [1; 2] sample_net = (st1, Err ArpMiss) ∧
    arp_lookup [10; 0; 2; 2] (ARP_CACHE (handle_arp (mkEth [] [] 0 [])
      (mkArp 1 0x800 6 4 ARP_OP_REPLY [2; 0; 0; 0; 0; 9] [10; 0; 2; 2] [2; 0; 0; 0; 0; 1] [10; 0; 2; 15])
      (set_clock 150 st1))) = Some [2; 0; 0; 0; 0; 9].
Proof.
  destruct (arp_miss_then_reply 150 [8; 8; 8; 8] PROTOCOL_UDP [1; 2] [2; 0; 0; 0; 0; 1] (mkEth [] [] 0 [])
    (mkArp 1 0x800 6 4 ARP_OP_REPLY [2; 0; 0; 0; 0; 9] [10; 0; 2; 2] [2; 0; 0; 0; 0; 1] [10; 0; 2; 15])
    sample_net) as (st1 & H1 & _ & _ & H2); try done; [apply sample_net_wf|].
  exists st1. by split.
Defined.
