(* ===== verification/Tcp.v ===== *)
(** * TCP (kernel/src/net/tcp.rs)

    The connection and listener tables, the segment handler with its state
    machine, the socket operations and the deferred transmit queue.  Sequence
    numbers are kept at 32 bits with their wrap-around.  A connection is changed
    under the table lock; segments it sends go through [send_ipv4] of
    NetStack, threads it wakes are collected in [woken], and [wake_rejects] is
    what [wake_thread_any_context] answers for a thread.  [tcp_accept] holds the
    table locks five times, so it is the composition of five atomic steps
    between which segments may be handled. *)

From S2P Require Import Prelude RingBuffer Bytes Pipe Fifo FdTable NetPackets NetStack.

#[export] Instance ConnectionId_eq_dec : EqDecision ConnectionId.
Proof. solve_decision. Defined.

#[export] Instance ConnectionId_countable : Countable ConnectionId.
Proof.
  apply (inj_countable' (λ c, (local_ip c, local_port c, remote_ip c, remote_port c))
    (λ '(a, b, c, d), mkConnectionId a b c d)).
  by intros [].
Defined.

(** ** Data *)

Inductive TcpState :=
  | Closed | Listen | SynSent | SynReceived | Established | FinWait1 | FinWait2
  | CloseWait | Closing | LastAck | TimeWait.

#[export] Instance TcpState_eq_dec : EqDecision TcpState.
Proof. solve_decision. Defined.

Record TcpConnection := mkConn {
  conn_id : ConnectionId;
  conn_state : TcpState;
  send_next : u32;
  send_initial : u32;
  send_unack : u32;
  recv_next : u32;
  recv_initial : u32;
  recv_window : u16;
  send_window : u16;
  rx_buffer : list u8;
  tx_buffer : list u8;
  mss : u16;
  conn_owner : Z;
  send_shutdown : bool;
  recv_shutdown : bool;
  refcount : u64;
  conn_waiting : list tid;
}.

Record PendingConnection := mkPendingConn {
  pd_remote_ip : list u8;
  pd_remote_port : u16;
  pd_recv_initial : u32;
  pd_send_initial : u32;
  claimed : bool;
  ack_received : bool;
  early_data : list u8;
  pd_recv_next : u32;
}.

Record ListenSocket := mkListen {
  ls_local_ip : list u8;
  ls_local_port : u16;
  backlog : u64;
  pending : list PendingConnection;
  ls_owner : Z;
  ls_waiting : list tid;
  ls_ref_count : u64;
}.

Record DeferredTx := mkDeferred {
  df_dst_ip : list u8;
  df_dst_mac : option (list u8);
  tcp_segment : list u8;
}.

(** What the wake-ups do: the scheduler's answer, the rejection counter and the
    threads woken so far. *)
Record Wakes := mkWakes {
  wake_rejects : tid → bool;
  TCP_WAKE_REJECTED : u64;
  woken : list tid;
}.

Record Tcp := mkTcp {
  TCP_CONNECTIONS : gmap ConnectionId TcpConnection;
  TCP_LISTENERS : gmap Z ListenSocket;
  SEQ_COUNTER : u32;
  DEFERRED_TX_QUEUE : list DeferredTx;
  RACE_RECOVERED : u64;
  wakes : Wakes;
}.

(** The errors, by their message. *)
Inductive TcpError :=
  | ConnectionNotFound | ShutdownForWriting | NoCurrentThread | ConnectionClosed
  | NotEstablished | ConnectionExists | PortInUse | NoDataAvailable.

(** ** Field updates *)

Definition set_conn_state (s : TcpState) (c : TcpConnection) : TcpConnection :=
  mkConn (conn_id c) s (send_next c) (send_initial c) (send_unack c) (recv_next c) (recv_initial c)
    (recv_window c) (send_window c) (rx_buffer c) (tx_buffer c) (mss c) (conn_owner c)
    (send_shutdown c) (recv_shutdown c) (refcount c) (conn_waiting c).
Definition set_send_next (n : u32) (c : TcpConnection) : TcpConnection :=
  mkConn (conn_id c) (conn_state c) n (send_initial c) (send_unack c) (recv_next c) (recv_initial c)
    (recv_window c) (send_window c) (rx_buffer c) (tx_buffer c) (mss c) (conn_owner c)
    (send_shutdown c) (recv_shutdown c) (refcount c) (conn_waiting c).
Definition set_send_unack (n : u32) (c : TcpConnection) : TcpConnection :=
  mkConn (conn_id c) (conn_state c) (send_next c) (send_initial c) n (recv_next c) (recv_initial c)
    (recv_window c) (send_window c) (rx_buffer c) (tx_buffer c) (mss c) (conn_owner c)
    (send_shutdown c) (recv_shutdown c) (refcount c) (conn_waiting c).
Definition set_send_window (n : u16) (c : TcpConnection) : TcpConnection :=
  mkConn (conn_id c) (conn_state c) (send_next c) (send_initial c) (send_unack c) (recv_next c) (recv_initial c)
    (recv_window c) n (rx_buffer c) (tx_buffer c) (mss c) (conn_owner c)
    (send_shutdown c) (recv_shutdown c) (refcount c) (conn_waiting c).
Definition set_recv_next (n : u32) (c : TcpConnection) : TcpConnection :=
  mkConn (conn_id c) (conn_state c) (send_next c) (send_initial c) (send_unack c) n (recv_initial c)
    (recv_window c) (send_window c) (rx_buffer c) (tx_buffer c) (mss c) (conn_owner c)
    (send_shutdown c) (recv_shutdown c) (refcount c) (conn_waiting c).
Definition set_recv_initial (n : u32) (c : TcpConnection) : TcpConnection :=
  mkConn (conn_id c) (conn_state c) (send_next c) (send_initial c) (send_unack c) (recv_next c) n
    (recv_window c) (send_window c) (rx_buffer c) (tx_buffer c) (mss c) (conn_owner c)
    (send_shutdown c) (recv_shutdown c) (refcount c) (conn_waiting c).
Definition set_rx_buffer (b : list u8) (c : TcpConnection) : TcpConnection :=
  mkConn (conn_id c) (conn_state c) (send_next c) (send_initial c) (send_unack c) (recv_next c) (recv_initial c)
    (recv_window c) (send_window c) b (tx_buffer c) (mss c) (conn_owner c)
    (send_shutdown c) (recv_shutdown c) (refcount c) (conn_waiting c).
Definition set_shutdown (snd rcv : bool) (c : TcpConnection) : TcpConnection :=
  mkConn (conn_id c) (conn_state c) (send_next c) (send_initial c) (send_unack c) (recv_next c) (recv_initial c)
    (recv_window c) (send_window c) (rx_buffer c) (tx_buffer c) (mss c) (conn_owner c)
    snd rcv (refcount c) (conn_waiting c).
Definition set_refcount (n : u64) (c : TcpConnection) : TcpConnection :=
  mkConn (conn_id c) (conn_state c) (send_next c) (send_initial c) (send_unack c) (recv_next c) (recv_initial c)
    (recv_window c) (send_window c) (rx_buffer c) (tx_buffer c) (mss c) (conn_owner c)
    (send_shutdown c) (recv_shutdown c) n (conn_waiting c).
Definition set_conn_waiting (ws : list tid) (c : TcpConnection) : TcpConnection :=
  mkConn (conn_id c) (conn_state c) (send_next c) (send_initial c) (send_unack c) (recv_next c) (recv_initial c)
    (recv_window c) (send_window c) (rx_buffer c) (tx_buffer c) (mss c) (conn_owner c)
    (send_shutdown c) (recv_shutdown c) (refcount c) ws.

Definition set_pending_conns (ps : list PendingConnection) (l : ListenSocket) : ListenSocket :=
  mkListen (ls_local_ip l) (ls_local_port l) (backlog l) ps (ls_owner l) (ls_waiting l) (ls_ref_count l).
Definition set_ls_waiting (ws : list tid) (l : ListenSocket) : ListenSocket :=
  mkListen (ls_local_ip l) (ls_local_port l) (backlog l) (pending l) (ls_owner l) ws (ls_ref_count l).
Definition set_ls_ref_count (n : u64) (l : ListenSocket) : ListenSocket :=
  mkListen (ls_local_ip l) (ls_local_port l) (backlog l) (pending l) (ls_owner l) (ls_waiting l) n.

Definition set_connections (m : gmap ConnectionId TcpConnection) (t : Tcp) : Tcp :=
  mkTcp m (TCP_LISTENERS t) (SEQ_COUNTER t) (DEFERRED_TX_QUEUE t) (RACE_RECOVERED t) (wakes t).
Definition set_listeners (m : gmap Z ListenSocket) (t : Tcp) : Tcp :=
  mkTcp (TCP_CONNECTIONS t) m (SEQ_COUNTER t) (DEFERRED_TX_QUEUE t) (RACE_RECOVERED t) (wakes t).
Definition set_seq_counter (n : u32) (t : Tcp) : Tcp :=
  mkTcp (TCP_CONNECTIONS t) (TCP_LISTENERS t) n (DEFERRED_TX_QUEUE t) (RACE_RECOVERED t) (wakes t).
Definition set_deferred (q : list DeferredTx) (t : Tcp) : Tcp :=
  mkTcp (TCP_CONNECTIONS t) (TCP_LISTENERS t) (SEQ_COUNTER t) q (RACE_RECOVERED t) (wakes t).
Definition set_race_recovered (n : u64) (t : Tcp) : Tcp :=
  mkTcp (TCP_CONNECTIONS t) (TCP_LISTENERS t) (SEQ_COUNTER t) (DEFERRED_TX_QUEUE t) n (wakes t).
Definition set_wakes (w : Wakes) (t : Tcp) : Tcp :=
  mkTcp (TCP_CONNECTIONS t) (TCP_LISTENERS t) (SEQ_COUNTER t) (DEFERRED_TX_QUEUE t) (RACE_RECOVERED t) w.

Definition put_conn (c : ConnectionId) (conn : TcpConnection) (t : Tcp) : Tcp :=
  set_connections (<[c := conn]> (TCP_CONNECTIONS t)) t.
Definition put_listener (port : u16) (l : ListenSocket) (t : Tcp) : Tcp :=
  set_listeners (<[port := l]> (TCP_LISTENERS t)) t.

(** ** Construction, wake-ups and sending *)

Definition new_outgoing (id : ConnectionId) (initial_seq : u32) (owner : Z) : TcpConnection :=
  mkConn id SynSent (wrap 32 (initial_seq + 1)) initial_seq initial_seq 0 0 65535 0 [] [] 1460 owner
    false false 1 [].

Definition new_listening (ip : list u8) (port : u16) (owner : Z) : TcpConnection :=
  mkConn (mkConnectionId ip port [0; 0; 0; 0] 0) Listen 0 0 0 0 0 65535 0 [] [] 1460 owner false false 1 [].

Definition generate_isn (t : Tcp) : Tcp * u32 :=
  (set_seq_counter (wrap 32 (SEQ_COUNTER t + 64000)) t, SEQ_COUNTER t).

Fixpoint wake_waiting_threads (readers : list tid) (w : Wakes) : Wakes * list tid :=
  match readers with
  | [] => (w, [])
  | thread_id :: readers =>
      if wake_rejects w thread_id then
        let '(w, rejected) := wake_waiting_threads readers
          (mkWakes (wake_rejects w) (wrap 64 (TCP_WAKE_REJECTED w + 1)) (woken w)) in
        (w, thread_id :: rejected)
      else
        wake_waiting_threads readers
          (mkWakes (wake_rejects w) (TCP_WAKE_REJECTED w) (woken w ++ [thread_id]))
  end.

(** The body the two wake functions share, on a list of waiting threads. *)
Definition wake_list (waiting : list tid) (w : Wakes) : list tid * Wakes :=
  match waiting with
  | [] => (waiting, w)
  | readers =>
      let '(w, rejected) := wake_waiting_threads readers w in
      let accepted := filter (λ t, t ∉ rejected) readers in
      (filter (λ t, t ∉ accepted) waiting, w)
  end.

Definition wake_accept_waiters (l : ListenSocket) (w : Wakes) : ListenSocket * Wakes :=
  let '(ws, w) := wake_list (ls_waiting l) w in (set_ls_waiting ws l, w).

Definition wake_connection_waiters (c : TcpConnection) (w : Wakes) : TcpConnection * Wakes :=
  let '(ws, w) := wake_list (conn_waiting c) w in (set_conn_waiting ws c, w).

Definition send_tcp_packet (config : NetConfig) (dst_ip : list u8) (src_port dst_port : u16)
    (seq_num ack_num : u32) (flags : TcpFlags) (window_size : u16) (payload : list u8) (n : NetState)
    : NetState :=
  let packet := build_tcp_packet_with_checksum (ip_addr config) dst_ip src_port dst_port seq_num ack_num
    flags window_size payload in
  (send_ipv4 dst_ip PROTOCOL_TCP packet n).1.

(** [send_tcp_packet] from a connection with its own numbers. *)
Definition conn_send (config : NetConfig) (c : TcpConnection) (flags : TcpFlags) (payload : list u8)
    (n : NetState) : NetState :=
  send_tcp_packet config (remote_ip (conn_id c)) (local_port (conn_id c)) (remote_port (conn_id c))
    (send_next c) (recv_next c) flags (recv_window c) payload n.

Definition send_rst (config : NetConfig) (dst_ip : list u8) (h : TcpHeader) (n : NetState) : NetState :=
  let seq := if ack (tcp_flags h) then ack_num h else 0 in
  let ack_ := wrap 32 (seq_num h + 1) in
  let flags := if ack (tcp_flags h) then flags_rst else mkTcpFlags false false true false true false in
  send_tcp_packet config dst_ip (tcp_dst_port h) (tcp_src_port h) seq ack_ flags 0 [] n.

(** ** The segment handler of a connection *)

(** What handling a segment changes: the connection, the network and the woken
    threads. *)
Abbreviation conn_env := (TcpConnection * NetState * Wakes)%type.

Definition on_conn (f : TcpConnection → TcpConnection) (e : conn_env) : conn_env :=
  let '(c, n, w) := e in (f c, n, w).
Definition send_flags (config : NetConfig) (flags : TcpFlags) (e : conn_env) : conn_env :=
  let '(c, n, w) := e in (c, conn_send config c flags [] n, w).
Definition wake_conn (e : conn_env) : conn_env :=
  let '(c, n, w) := e in let '(c, w) := wake_connection_waiters c w in (c, n, w).

(** The in-sequence payload is appended and acknowledged. *)
Definition take_payload (config : NetConfig) (payload : list u8) (e : conn_env) : conn_env :=
  let '(c, n, w) := e in
  let c := set_rx_buffer (rx_buffer c ++ payload) c in
  let c := set_recv_next (wrap 32 (recv_next c + Z.of_nat (length payload))) c in
  send_flags config flags_ack (c, n, w).

(** [!payload.is_empty() && header.seq_num == conn.recv_next] *)
Definition in_sequence (h : TcpHeader) (payload : list u8) (c : TcpConnection) : bool :=
  negb (bool_decide (payload = [])) && (seq_num h =? recv_next c).

(** Data in the states Established, FinWait1 and FinWait2. *)
Definition recv_data (config : NetConfig) (h : TcpHeader) (payload : list u8) (e : conn_env) : conn_env :=
  if in_sequence h payload e.1.1 then wake_conn (take_payload config payload e) else e.

(** The peer's FIN is consumed and acknowledged; the state becomes [s]. *)
Definition take_fin (config : NetConfig) (s : TcpState) (e : conn_env) : conn_env :=
  send_flags config flags_ack
    (on_conn (λ c, set_conn_state s (set_recv_next (wrap 32 (recv_next c + 1)) c)) e).

(** [header.seq_num.wrapping_add(payload.len() as u32)] *)
Definition fin_seq (h : TcpHeader) (payload : list u8) : u32 := wrap 32 (seq_num h + Z.of_nat (length payload)).

Definition handle_syn_sent (config : NetConfig) (h : TcpHeader) (e : conn_env) : conn_env :=
  let c := e.1.1 in
  if syn (tcp_flags h) && ack (tcp_flags h) then
    if ack_num h =? send_next c then
      let e := on_conn (set_recv_initial (seq_num h)) e in
      let e := on_conn (set_recv_next (wrap 32 (seq_num h + 1))) e in
      let e := on_conn (set_send_window (window_size h)) e in
      let e := on_conn (set_send_unack (ack_num h)) e in
      let e := on_conn (set_conn_state Established) e in
      wake_conn (send_flags config flags_ack e)
    else e
  else if rst (tcp_flags h) then wake_conn (on_conn (set_conn_state Closed) e)
  else e.

Definition handle_syn_received (config : NetConfig) (h : TcpHeader) (payload : list u8) (e : conn_env)
    : conn_env :=
  let c := e.1.1 in
  if ack (tcp_flags h) && negb (syn (tcp_flags h)) then
    if ack_num h =? send_next c then
      let e := on_conn (set_conn_state Established) e in
      let e := on_conn (set_send_unack (ack_num h)) e in
      let e := if in_sequence h payload e.1.1 then take_payload config payload e else e in
      let e := if fin (tcp_flags h) && (fin_seq h payload =? recv_next e.1.1)
               then take_fin config CloseWait e else e in
      wake_conn e
    else e
  else if syn (tcp_flags h) && negb (ack (tcp_flags h)) then
    let '(c, n, w) := e in
    (c, send_tcp_packet config (remote_ip (conn_id c)) (local_port (conn_id c)) (remote_port (conn_id c))
          (send_initial c) (wrap 32 (seq_num h + 1)) flags_syn_ack (recv_window c) [] n, w)
  else if rst (tcp_flags h) then wake_conn (on_conn (set_conn_state Closed) e)
  else e.

Definition handle_established (config : NetConfig) (h : TcpHeader) (payload : list u8) (e : conn_env)
    : conn_env :=
  let e := if ack (tcp_flags h)
           then on_conn (λ c, set_send_window (window_size h) (set_send_unack (ack_num h) c)) e else e in
  let e := recv_data config h payload e in
  let e := if fin (tcp_flags h) && (fin_seq h payload =? recv_next e.1.1)
           then wake_conn (take_fin config CloseWait e) else e in
  if rst (tcp_flags h) then
    let c := e.1.1 in
    let seq_delta := wrap 32 (seq_num h - recv_next c) in
    if (seq_delta =? 0) || (seq_delta <? recv_window c)
    then wake_conn (on_conn (set_conn_state Closed) e) else e
  else e.

Definition handle_fin_wait1 (config : NetConfig) (h : TcpHeader) (payload : list u8) (e : conn_env)
    : conn_env :=
  let e := if ack (tcp_flags h) then
             let e := on_conn (set_send_unack (ack_num h)) e in
             if negb (fin (tcp_flags h)) then on_conn (set_conn_state FinWait2) e else e
           else e in
  let e := recv_data config h payload e in
  if fin (tcp_flags h) then wake_conn (take_fin config TimeWait e) else e.

Definition handle_fin_wait2 (config : NetConfig) (h : TcpHeader) (payload : list u8) (e : conn_env)
    : conn_env :=
  let e := recv_data config h payload e in
  if fin (tcp_flags h) then wake_conn (take_fin config TimeWait e) else e.

Definition handle_tcp_for_connection (config : NetConfig) (h : TcpHeader) (payload : list u8) (e : conn_env)
    : conn_env :=
  match conn_state e.1.1 with
  | SynSent => handle_syn_sent config h e
  | SynReceived => handle_syn_received config h payload e
  | Established => handle_established config h payload e
  | FinWait1 => handle_fin_wait1 config h payload e
  | FinWait2 => handle_fin_wait2 config h payload e
  | CloseWait => e
  | LastAck => if ack (tcp_flags h) then on_conn (set_conn_state Closed) e else e
  | TimeWait => on_conn (set_conn_state Closed) e
  | Closed | Listen | Closing => e
  end.

(** ** Segments for a listener *)

Definition queue_deferred_tx_with_mac (dst_ip : list u8) (dst_mac : option (list u8)) (segment : list u8)
    (t : Tcp) : Tcp :=
  set_deferred (DEFERRED_TX_QUEUE t ++ [mkDeferred dst_ip dst_mac segment]) t.

Definition deferred_tx_queue_len (t : Tcp) : nat := length (DEFERRED_TX_QUEUE t).

(** Does the pending entry belong to this peer? *)
Definition pending_from (ip : list u8) (port : u16) (p : PendingConnection) : bool :=
  bool_decide (pd_remote_ip p = ip) && (pd_remote_port p =? port).

(** The SYN+ACK with sequence number [isn] is queued for the MAC of the packet
    being processed. *)
Definition queue_syn_ack (config : NetConfig) (l : ListenSocket) (src_ip : list u8) (h : TcpHeader)
    (isn : u32) (n : NetState) (t : Tcp) : Tcp :=
  queue_deferred_tx_with_mac src_ip (Some (CURRENT_PACKET_SRC_MAC n))
    (build_tcp_packet_with_checksum (ip_addr config) src_ip (ls_local_port l) (tcp_src_port h) isn
       (wrap 32 (seq_num h + 1)) flags_syn_ack 65535 []) t.

Definition handle_syn_for_listener (config : NetConfig) (src_ip : list u8) (h : TcpHeader)
    (l : ListenSocket) (s : NetState * Tcp) : ListenSocket * (NetState * Tcp) :=
  let '(n, t) := s in
  match List.find (pending_from src_ip (tcp_src_port h)) (pending l) with
  | Some p => (l, (n, queue_syn_ack config l src_ip h (pd_send_initial p) n t))
  | None =>
      if backlog l <=? Z.of_nat (length (pending l)) then (l, (send_rst config src_ip h n, t))
      else
        let '(t, send_isn) := generate_isn t in
        let l := set_pending_conns (pending l ++
          [mkPendingConn src_ip (tcp_src_port h) (seq_num h) send_isn false false []
             (wrap 32 (seq_num h + 1))]) l in
        let t := queue_syn_ack config l src_ip h send_isn n t in
        let '(l, w) := wake_accept_waiters l (wakes t) in
        (l, (n, set_wakes w t))
  end.

(** A segment without SYN for a pending connection. *)
Definition pending_segment (h : TcpHeader) (payload : list u8) (p : PendingConnection) : PendingConnection :=
  if ack (tcp_flags h) then
    let acked := ack_received p || (ack_num h =? wrap 32 (pd_send_initial p + 1)) in
    if negb (bool_decide (payload = [])) && (seq_num h =? pd_recv_next p) then
      mkPendingConn (pd_remote_ip p) (pd_remote_port p) (pd_recv_initial p) (pd_send_initial p) (claimed p)
        acked (early_data p ++ payload) (wrap 32 (pd_recv_next p + Z.of_nat (length payload)))
    else
      mkPendingConn (pd_remote_ip p) (pd_remote_port p) (pd_recv_initial p) (pd_send_initial p) (claimed p)
        acked (early_data p) (pd_recv_next p)
  else p.

(** Change the first element that satisfies [f]; [None] when there is none. *)
Fixpoint update_first {A} (f : A → bool) (g : A → A) (l : list A) : option (list A) :=
  match l with
  | [] => None
  | x :: l => if f x then Some (g x :: l) else cons x <$> update_first f g l
  end.

(** Look the connection up and hand it the segment; [None] when it is absent. *)
Definition try_connection (config : NetConfig) (id : ConnectionId) (h : TcpHeader) (payload : list u8)
    (s : NetState * Tcp) : option (NetState * Tcp) :=
  let '(n, t) := s in
  match TCP_CONNECTIONS t !! id with
  | Some conn =>
      let '(conn, n, w) := handle_tcp_for_connection config h payload (conn, n, wakes t) in
      Some (n, set_wakes w (put_conn id conn t))
  | None => None
  end.

(** The listener part of [handle_tcp]: [(listener_found, retry)]. *)
Definition try_listener (config : NetConfig) (src_ip : list u8) (h : TcpHeader) (payload : list u8)
    (s : NetState * Tcp) : bool * bool * (NetState * Tcp) :=
  match TCP_LISTENERS s.2 !! tcp_dst_port h with
  | None => (false, false, s)
  | Some l =>
      if syn (tcp_flags h) && negb (ack (tcp_flags h)) then
        let '(l, (n, t)) := handle_syn_for_listener config src_ip h l s in
        (true, false, (n, put_listener (tcp_dst_port h) l t))
      else if negb (syn (tcp_flags h)) then
        match update_first (pending_from src_ip (tcp_src_port h)) (pending_segment h payload) (pending l) with
        | Some ps => (true, false, (s.1, put_listener (tcp_dst_port h) (set_pending_conns ps l) s.2))
        | None => (true, true, s)
        end
      else (true, false, s)
  end.

Definition segment_conn_id (config : NetConfig) (src_ip : list u8) (h : TcpHeader) : ConnectionId :=
  mkConnectionId (ip_addr config) (tcp_dst_port h) src_ip (tcp_src_port h).

(** A parsed segment in [handle_tcp], with the configuration read on entry. *)
Record Segment := mkSegment {
  sg_config : NetConfig;
  sg_src_ip : list u8;
  sg_header : TcpHeader;
  sg_payload : list u8;
}.

(** Where [handle_tcp] is: before one of its locked regions (the connection
    lookup, the listener, the second lookup), about to answer an unmatched
    segment, or done.  Other threads run between the regions. *)
Inductive SegPhase := SegLookup | SegListen | SegRetry | SegUnmatched | SegDone.

(** One region and the tests up to the next.  The second lookup is only reached
    with a listener, after which [handle_tcp] returns whatever it finds. *)
Definition segment_step (g : Segment) (ph : SegPhase) (s : NetState * Tcp) : SegPhase * (NetState * Tcp) :=
  let '(mkSegment config src_ip h payload) := g in
  let id := segment_conn_id config src_ip h in
  match ph with
  | SegLookup =>
      match try_connection config id h payload s with
      | Some s => (SegDone, s)
      | None => (SegListen, s)
      end
  | SegListen =>
      let '(listener_found, retry, s) := try_listener config src_ip h payload s in
      (if retry then SegRetry else if listener_found then SegDone else SegUnmatched, s)
  | SegRetry =>
      match try_connection config id h payload s with
      | Some (n, t) => (SegDone, (n, set_race_recovered (wrap 64 (RACE_RECOVERED t + 1)) t))
      | None => (SegDone, s)
      end
  | SegUnmatched =>
      (SegDone, if rst (tcp_flags h) then s else (send_rst config src_ip h s.1, s.2))
  | SegDone => (SegDone, s)
  end.

(** The dispatch of a parsed segment when nothing runs between its regions, of
    which there are at most three. *)
Definition handle_segment (src_ip : list u8) (h : TcpHeader) (payload : list u8) (s : NetState * Tcp)
    : NetState * Tcp :=
  let g := mkSegment (net_config s.1) src_ip h payload in
  (Nat.iter 3 (λ '(ph, s), segment_step g ph s) (SegLookup, s)).2.

(** [handle_tcp] undisturbed. *)
Definition tcp_handle_tcp (ip : Ipv4Packet) (data : list u8) (s : NetState * Tcp) : NetState * Tcp :=
  match TcpHeader_parse data with
  | None => s
  | Some (h, payload) => handle_segment (src_ip ip) h payload s
  end.

(** One deferred segment of [drain_deferred_tx]. *)
Definition send_deferred (n : NetState) (pkt : DeferredTx) : NetState :=
  let config := net_config n in
  if is_local config (df_dst_ip pkt) then (send_ipv4 (df_dst_ip pkt) PROTOCOL_TCP (tcp_segment pkt) n).1
  else match df_dst_mac pkt with
       | Some mac =>
           let '(n, ip_packet) := ipv4_build (ip_addr config) (df_dst_ip pkt) PROTOCOL_TCP (tcp_segment pkt) n in
           (send_ethernet mac ETHERTYPE_IPV4 ip_packet n).1
       | None => (send_ipv4 (df_dst_ip pkt) PROTOCOL_TCP (tcp_segment pkt) n).1
       end.

Definition tcp_drain_deferred_tx (s : NetState * Tcp) : NetState * Tcp :=
  (foldl send_deferred s.1 (DEFERRED_TX_QUEUE s.2), set_deferred [] s.2).

(** What the stack uses of the UDP input routine. *)
Class UdpInput (U : Type) := {
  udp_input : Ipv4Packet → list u8 → NetState * U → option (NetState * U);
}.

#[export] Instance tcp_transport {U} `{!UdpInput U} : Transport (Tcp * U) := {
  handle_tcp ip data s :=
    let '(n, t) := tcp_handle_tcp ip data (s.1, s.2.1) in Some (n, (t, s.2.2));
  handle_udp ip data s :=
    '(n, u) ← udp_input ip data (s.1, s.2.2); Some (n, (s.2.1, u));
  drain_deferred_tx s :=
    let '(n, t) := tcp_drain_deferred_tx (s.1, s.2.1) in Some (n, (t, s.2.2));
}.

(** ** Socket operations *)

Definition tcp_connect (port : u16) (remote : list u8) (rport : u16) (owner : Z) (s : NetState * Tcp)
    : NetState * Tcp * result ConnectionId TcpError :=
  let '(n, t) := s in
  let config := net_config n in
  let effective_remote := if at_ remote 0 =? 127 then ip_addr config else remote in
  let id := mkConnectionId (ip_addr config) port effective_remote rport in
  let '(t, isn) := generate_isn t in
  match TCP_CONNECTIONS t !! id with
  | Some _ => (n, t, Err ConnectionExists)
  | None =>
      let t := put_conn id (new_outgoing id isn owner) t in
      (send_tcp_packet config remote port rport isn 0 flags_syn 65535 [] n, t, Ok id)
  end.

Definition tcp_listen (port : u16) (blog : u64) (owner : Z) (s : NetState * Tcp)
    : NetState * Tcp * result unit TcpError :=
  let '(n, t) := s in
  match TCP_LISTENERS t !! port with
  | Some _ => (n, t, Err PortInUse)
  | None => (n, put_listener port (mkListen (ip_addr (net_config n)) port blog [] owner [] 1) t, Ok tt)
  end.

Definition set_claimed (p : PendingConnection) : PendingConnection :=
  mkPendingConn (pd_remote_ip p) (pd_remote_port p) (pd_recv_initial p) (pd_send_initial p) true
    (ack_received p) (early_data p) (pd_recv_next p).

(** [tcp_accept], first locked region: claim the oldest unclaimed entry. *)
Definition accept_claim (port : u16) (t : Tcp) : Tcp * option PendingConnection :=
  match TCP_LISTENERS t !! port with
  | None => (t, None)
  | Some l =>
      match List.find (λ p, negb (claimed p)) (pending l),
            update_first (λ p, negb (claimed p)) set_claimed (pending l) with
      | Some p, Some ps => (put_listener port (set_pending_conns ps l) t, Some (set_claimed p))
      | _, _ => (t, None)
      end
  end.

(** The connection [tcp_accept] builds from the claimed entry. *)
Definition accepted_conn (id : ConnectionId) (owner : Z) (p : PendingConnection) : TcpConnection :=
  let conn := new_outgoing id (pd_send_initial p) owner in
  let conn := if ack_received p then
                let conn := set_conn_state Established conn in
                let conn := set_send_next (wrap 32 (pd_send_initial p + 1)) conn in
                set_send_unack (send_next conn) conn
              else set_send_next (wrap 32 (pd_send_initial p + 1)) (set_conn_state SynReceived conn) in
  let conn := set_recv_initial (pd_recv_initial p) conn in
  let conn := set_recv_next (pd_recv_next p) conn in
  set_rx_buffer (rx_buffer conn ++ early_data p) conn.

(** Second region: the owner of the listener, if it is still there. *)
Definition accept_owner (port : u16) (t : Tcp) : option Z := ls_owner <$> TCP_LISTENERS t !! port.

(** Third region: the child is published. *)
Definition accept_publish (id : ConnectionId) (owner : Z) (p : PendingConnection) (t : Tcp) : Tcp :=
  put_conn id (accepted_conn id owner p) t.

(** Remove the first element that satisfies [f] and return it. *)
Fixpoint remove_first {A} (f : A → bool) (l : list A) : option (A * list A) :=
  match l with
  | [] => None
  | x :: l => if f x then Some (x, l) else '(y, l) ← remove_first f l; Some (y, x :: l)
  end.

(** The child catches up with what reached the entry after it was claimed. *)
Definition catch_up (p final_p : PendingConnection) (conn : TcpConnection) : TcpConnection :=
  let conn := if ack_received final_p && bool_decide (conn_state conn = SynReceived) then
                set_send_unack (send_next conn) (set_conn_state Established conn) else conn in
  let conn := if bool_decide (length (early_data p) < length (early_data final_p))%nat then
                set_rx_buffer (rx_buffer conn ++ drop (length (early_data p)) (early_data final_p)) conn
              else conn in
  let pending_advance := wrap 32 (pd_recv_next final_p - pd_recv_next p) in
  let connection_advance := wrap 32 (recv_next conn - pd_recv_next p) in
  if connection_advance <? pending_advance then set_recv_next (pd_recv_next final_p) conn else conn.

(** Fourth region: the entry is removed. *)
Definition accept_remove (port : u16) (p : PendingConnection) (t : Tcp) : Tcp * option PendingConnection :=
  match TCP_LISTENERS t !! port with
  | None => (t, None)
  | Some l =>
      match remove_first (pending_from (pd_remote_ip p) (pd_remote_port p)) (pending l) with
      | None => (t, None)
      | Some (final_p, ps) => (put_listener port (set_pending_conns ps l) t, Some final_p)
      end
  end.

(** Fifth region: the child is updated from the removed entry. *)
Definition accept_catch_up (id : ConnectionId) (p final_p : PendingConnection) (t : Tcp) : Tcp :=
  match TCP_CONNECTIONS t !! id with
  | Some conn => put_conn id (catch_up p final_p conn) t
  | None => t
  end.

Definition accept_id (config : NetConfig) (port : u16) (p : PendingConnection) : ConnectionId :=
  mkConnectionId (ip_addr config) port (pd_remote_ip p) (pd_remote_port p).

(** [tcp_accept] when no other code runs between its regions. *)
Definition tcp_accept (port : u16) (s : NetState * Tcp) : NetState * Tcp * option ConnectionId :=
  let '(n, t) := s in
  match accept_claim port t with
  | (t, None) => (n, t, None)
  | (t, Some p) =>
      let id := accept_id (net_config n) port p in
      match accept_owner port t with
      | None => (n, t, None)
      | Some owner =>
          let t := accept_publish id owner p t in
          let '(t, final_pending) := accept_remove port p t in
          let t := match final_pending with Some f => accept_catch_up id p f t | None => t end in
          (n, t, Some id)
      end
  end.

Definition is_sendable (s : TcpState) : bool :=
  match s with Established | CloseWait => true | _ => false end.

Definition tcp_register_recv_waiter (id : ConnectionId) (t : tid) (s : Tcp) : Tcp :=
  match TCP_CONNECTIONS s !! id with
  | Some c => if decide (t ∈ conn_waiting c) then s
              else put_conn id (set_conn_waiting (conn_waiting c ++ [t]) c) s
  | None => s
  end.

Definition tcp_unregister_recv_waiter (id : ConnectionId) (t : tid) (s : Tcp) : Tcp :=
  match TCP_CONNECTIONS s !! id with
  | Some c => put_conn id (set_conn_waiting (filter (λ x, x ≠ t) (conn_waiting c)) c) s
  | None => s
  end.

(** One turn of the wait of [tcp_send]: it goes on to send, fails, or blocks
    until a wake-up. *)
Inductive send_wait := WaitOver | WaitFails (e : TcpError) | WaitBlocks.

Definition tcp_send_wait (id : ConnectionId) (t : Tcp) : send_wait :=
  match conn_state <$> TCP_CONNECTIONS t !! id with
  | None => WaitFails ConnectionNotFound
  | Some (Established | CloseWait) => WaitOver
  | Some (Closed | TimeWait) => WaitFails ConnectionClosed
  | Some (SynReceived | SynSent) => WaitBlocks
  | Some (Listen | FinWait1 | FinWait2 | Closing | LastAck) => WaitFails NotEstablished
  end.

(** The locked region of [tcp_send] that transmits. *)
Definition tcp_send_transmit (id : ConnectionId) (data : list u8) (s : NetState * Tcp)
    : NetState * Tcp * result nat TcpError :=
  let '(n, t) := s in
  match TCP_CONNECTIONS t !! id with
  | None => (n, t, Err ConnectionNotFound)
  | Some c =>
      if send_shutdown c then (n, t, Err ShutdownForWriting)
      else if negb (is_sendable (conn_state c)) then (n, t, Err NotEstablished)
      else
        let send_len := Nat.min (length data) (Z.to_nat (mss c)) in
        let n' := conn_send (net_config n) c flags_ack_psh (take send_len data) n in
        (n', put_conn id (set_send_next (wrap 32 (send_next c + Z.of_nat send_len)) c) t, Ok send_len)
  end.

(** [tcp_send] from its start: [inl] is its return, [inr] the state in which the
    caller is blocked for the first time with its waiter registered. *)
Definition tcp_send (cur : option tid) (id : ConnectionId) (data : list u8) (s : NetState * Tcp)
    : NetState * Tcp * result nat TcpError + NetState * Tcp :=
  let '(n, t) := s in
  match send_shutdown <$> TCP_CONNECTIONS t !! id with
  | None => inl (n, t, Err ConnectionNotFound)
  | Some true => inl (n, t, Err ShutdownForWriting)
  | Some false =>
      match cur with
      | None => inl (n, t, Err NoCurrentThread)
      | Some me =>
          let t := tcp_register_recv_waiter id me t in
          match tcp_send_wait id t with
          | WaitOver => inl (tcp_send_transmit id data (n, tcp_unregister_recv_waiter id me t))
          | WaitFails e => inl (n, tcp_unregister_recv_waiter id me t, Err e)
          | WaitBlocks => inr (n, t)
          end
      end
  end.

(** A wake-up of the blocked [tcp_send] with [left] turns of its loop left. *)
Definition tcp_send_resume (left : nat) (me : tid) (id : ConnectionId) (data : list u8) (s : NetState * Tcp)
    : NetState * Tcp * result nat TcpError + NetState * Tcp :=
  let '(n, t) := s in
  match left with
  | O => inl (tcp_send_transmit id data (n, tcp_unregister_recv_waiter id me t))
  | S _ =>
      match tcp_send_wait id t with
      | WaitOver => inl (tcp_send_transmit id data (n, tcp_unregister_recv_waiter id me t))
      | WaitFails e => inl (n, tcp_unregister_recv_waiter id me t, Err e)
      | WaitBlocks => inr (n, t)
      end
  end.

(** [tcp_recv] with a buffer of [len] bytes; the bytes read are returned. *)
Definition tcp_recv (id : ConnectionId) (len : nat) (t : Tcp) : Tcp * result (list u8) TcpError :=
  match TCP_CONNECTIONS t !! id with
  | None => (t, Err ConnectionNotFound)
  | Some c =>
      if recv_shutdown c then (t, Ok [])
      else if decide (rx_buffer c = []) then
        match conn_state c with
        | CloseWait | Closed | TimeWait => (t, Ok [])
        | _ => (t, Err NoDataAvailable)
        end
      else
        let read_len := Nat.min len (length (rx_buffer c)) in
        (put_conn id (set_rx_buffer (drop read_len (rx_buffer c)) c) t, Ok (take read_len (rx_buffer c)))
  end.

Definition tcp_is_established (id : ConnectionId) (t : Tcp) : bool :=
  match conn_state <$> TCP_CONNECTIONS t !! id with
  | Some (Established | CloseWait | FinWait1 | FinWait2 | Closing | LastAck | TimeWait) => true
  | _ => false
  end.

Definition tcp_is_failed (id : ConnectionId) (t : Tcp) : bool :=
  match conn_state <$> TCP_CONNECTIONS t !! id with
  | Some (Closed | TimeWait) => true
  | Some _ => false
  | None => true
  end.

(** Send FIN, count it and move to [next]. *)
Definition send_fin (config : NetConfig) (next : TcpState) (c : TcpConnection) (n : NetState)
    : TcpConnection * NetState :=
  let n := conn_send config c flags_fin_ack [] n in
  (set_conn_state next (set_send_next (wrap 32 (send_next c + 1)) c), n).

Definition tcp_shutdown (id : ConnectionId) (shut_rd shut_wr : bool) (s : NetState * Tcp) : NetState * Tcp :=
  let '(n, t) := s in
  match TCP_CONNECTIONS t !! id with
  | None => (n, t)
  | Some c =>
      let c := if shut_rd then set_shutdown (send_shutdown c) true c else c in
      if shut_wr && negb (send_shutdown c) then
        let c := set_shutdown true (recv_shutdown c) c in
        let '(c, n) := if bool_decide (conn_state c = Established)
                       then send_fin (net_config n) FinWait1 c n else (c, n) in
        (n, put_conn id c t)
      else (n, put_conn id c t)
  end.

Definition conn_add_ref (id : ConnectionId) (t : Tcp) : Tcp :=
  match TCP_CONNECTIONS t !! id with
  | Some c => put_conn id (set_refcount (wrap 64 (refcount c + 1)) c) t
  | None => t
  end.

Definition conn_close (id : ConnectionId) (s : NetState * Tcp) : NetState * Tcp * result unit TcpError :=
  let '(n, t) := s in
  match TCP_CONNECTIONS t !! id with
  | None => (n, t, Err ConnectionNotFound)
  | Some c =>
      let old_count := refcount c in
      let c := set_refcount (wrap 64 (refcount c - 1)) c in
      if 1 <? old_count then (n, put_conn id c t, Ok tt)
      else match conn_state c with
           | Established => let '(c, n) := send_fin (net_config n) FinWait1 c n in (n, put_conn id c t, Ok tt)
           | CloseWait => let '(c, n) := send_fin (net_config n) LastAck c n in (n, put_conn id c t, Ok tt)
           | Closed => (n, set_connections (delete id (TCP_CONNECTIONS t)) t, Ok tt)
           | _ => (n, put_conn id (set_conn_state Closed c) t, Ok tt)
           end
  end.

Definition tcp_has_pending (port : u16) (t : Tcp) : bool :=
  match TCP_LISTENERS t !! port with
  | Some l => negb (bool_decide (pending l = []))
  | None => false
  end.

Definition tcp_pending_accept_depth (port : u16) (t : Tcp) : nat :=
  match TCP_LISTENERS t !! port with Some l => length (pending l) | None => 0 end.

Definition tcp_get_state (id : ConnectionId) (t : Tcp) : option TcpState := conn_state <$> TCP_CONNECTIONS t !! id.

Definition tcp_register_accept_waiter (port : u16) (t : tid) (s : Tcp) : Tcp :=
  match TCP_LISTENERS s !! port with
  | Some l => if decide (t ∈ ls_waiting l) then s
              else put_listener port (set_ls_waiting (ls_waiting l ++ [t]) l) s
  | None => s
  end.

Definition tcp_unregister_accept_waiter (port : u16) (t : tid) (s : Tcp) : Tcp :=
  match TCP_LISTENERS s !! port with
  | Some l => put_listener port (set_ls_waiting (filter (λ x, x ≠ t) (ls_waiting l)) l) s
  | None => s
  end.

Definition tcp_has_data (id : ConnectionId) (t : Tcp) : bool :=
  match TCP_CONNECTIONS t !! id with
  | Some c => negb (bool_decide (rx_buffer c = []))
  | None => false
  end.

Definition listener_ref_inc (port : u16) (t : Tcp) : Tcp :=
  match TCP_LISTENERS t !! port with
  | Some l => put_listener port (set_ls_ref_count (wrap 64 (ls_ref_count l + 1)) l) t
  | None => t
  end.

Definition listener_ref_dec (port : u16) (t : Tcp) : Tcp * bool :=
  match TCP_LISTENERS t !! port with
  | Some l =>
      if ls_ref_count l =? 1 then (set_listeners (delete port (TCP_LISTENERS t)) t, true)
      else (put_listener port (set_ls_ref_count (wrap 64 (ls_ref_count l - 1)) l) t, false)
  | None => (t, false)
  end.
