(* ===== verification/TcpStream.v ===== *)
(** * The byte stream a TCP connection receives

    Lemmas on the segment handler of Tcp, and what an application reads from a
    connection when the network loses, repeats and reorders the peer's
    segments. *)

From S2P Require Import Prelude RingBuffer Bytes Pipe Fifo FdTable NetPackets NetStack Tcp.

(** ** A segment that is not disturbed *)

(** The regions of [handle_tcp] in one piece. *)
Definition segment_outcome (src_ip : list u8) (h : TcpHeader) (payload : list u8) (s : NetState * Tcp)
    : NetState * Tcp :=
  let config := net_config s.1 in
  let id := segment_conn_id config src_ip h in
  match try_connection config id h payload s with
  | Some s => s
  | None =>
      let '(listener_found, retry, s) := try_listener config src_ip h payload s in
      let s := if retry then
                 match try_connection config id h payload s with
                 | Some (n, t) => (n, set_race_recovered (wrap 64 (RACE_RECOVERED t + 1)) t)
                 | None => s
                 end
               else s in
      if listener_found then s
      else if rst (tcp_flags h) then s
      else (send_rst config src_ip h s.1, s.2)
  end.

Lemma handle_segment_eq src_ip h payload s : handle_segment src_ip h payload s = segment_outcome src_ip h payload s.
Proof.
  unfold handle_segment, segment_outcome. cbn [Nat.iter nat_rect segment_step].
  destruct (try_connection _ _ _ _ s) as [s'|]; [done|]. cbn [segment_step].
  assert ((try_listener (net_config s.1) src_ip h payload s).1.2 = true →
    (try_listener (net_config s.1) src_ip h payload s).1.1 = true) as Hretry.
  { unfold try_listener. repeat (case_match; try done). }
  destruct (try_listener _ _ _ _ s) as [[found []] s1]; cbn in Hretry; [rewrite Hretry by done|by destruct found].
  cbn [segment_step]. by destruct (try_connection _ _ _ _ s1) as [[n t]|].
Qed.

(** ** Frames of the helpers *)





Lemma wake_conn_eq c n w : ∃ ws w', wake_conn (c, n, w) = (set_conn_waiting ws c, n, w').
Proof.
  unfold wake_conn, wake_connection_waiters. destruct (wake_list (conn_waiting c) w) as [ws w']. eauto.
Qed.

(** ** The peer's stream *)

Section stream.
(** The peer's initial sequence number and the bytes it sends. *)
Context (irs : u32) (stream : list u8).



Context (Hsize : Z.of_nat (length stream) < 2 ^ 32).








(** ** A session on the connection *)

Context (id : ConnectionId).






Lemma segment_id cfg h :
  ip_addr cfg = local_ip id → tcp_dst_port h = local_port id → tcp_src_port h = remote_port id →
  segment_conn_id cfg (remote_ip id) h = id.
Proof. unfold segment_conn_id. intros -> -> ->. by destruct id. Qed.






End stream.


(** A connection of the sample host, the peer's initial number near the wrap. *)
Definition sample_id : ConnectionId := mkConnectionId [10; 0; 2; 15] 5000 [10; 0; 2; 2] 80.
Definition sample_conn : TcpConnection :=
  set_recv_next 0 (set_conn_state Established (new_outgoing sample_id 100 1)).
Definition sample_seg (sq : u32) (f : bool) : TcpHeader :=
  mkTcpHeader 80 5000 sq 101 5 (mkTcpFlags f false false true true false) 8192 0 0.


(** The same does not hold once this side has closed.  In FinWait1 and FinWait2 a FIN is not checked against the receive
    sequence.  A segment with FIN whose data has not all arrived yet moves the
    connection to TimeWait, its own out-of-order payload is dropped, and the
    application reads end of file although the stream is incomplete. *)
Theorem fin_wait_truncates id c h payload (nt : NetState * Tcp) :
  let nt' := handle_segment (remote_ip id) h payload nt in
  ip_addr (net_config nt.1) = local_ip id → tcp_dst_port h = local_port id → tcp_src_port h = remote_port id →
  TCP_CONNECTIONS nt.2 !! id = Some c → conn_state c = FinWait1 ∨ conn_state c = FinWait2 →
  fin (tcp_flags h) = true → seq_num h ≠ recv_next c → rx_buffer c = [] →
  tcp_get_state id nt'.2 = Some TimeWait ∧ ∀ len, (tcp_recv id len nt'.2).2 = Ok [].
Proof.
  destruct nt as [n t]. cbn zeta. cbn [fst snd]. intros Hip Hd Hs Hc Hst Hfin Hseq Hrx.
  rewrite handle_segment_eq. unfold segment_outcome. rewrite segment_id by done. unfold try_connection. cbn [fst]. rewrite Hc.
  assert (∃ c' n' w', handle_tcp_for_connection (net_config n) h payload (c, n, wakes t) = (c', n', w') ∧
    conn_state c' = TimeWait ∧ rx_buffer c' = []) as (c' & n' & w' & -> & Hst' & Hrx').
  { assert (Hout : ∀ c0, recv_next c0 = recv_next c → in_sequence h payload c0 = false).
    { intros c0 H0. unfold in_sequence. rewrite H0, (proj2 (Z.eqb_neq _ _) Hseq). by destruct (negb _). }
    unfold handle_tcp_for_connection. cbn [fst]. destruct Hst as [-> | ->];
      unfold handle_fin_wait1, handle_fin_wait2, recv_data; rewrite Hfin;
      [destruct (ack (tcp_flags h))|]; cbn [on_conn fst negb]; rewrite Hout by done;
      unfold take_fin; cbn [on_conn send_flags];
      match goal with |- context [wake_conn (?c1, ?n1, ?w1)] =>
        destruct (wake_conn_eq c1 n1 w1) as (ws & w' & ->) end;
      eexists _, _, _; (split; [reflexivity|]); by rewrite <- Hrx. }
  unfold tcp_get_state, tcp_recv. cbn. rewrite lookup_insert_eq. cbn. rewrite Hst', Hrx'.
  split; [done|]. intros len. by destruct (recv_shutdown c').
Qed.

Lemma fin_wait_truncates_witness :
  let t := mkTcp {[ sample_id := set_conn_state FinWait2 sample_conn ]} ∅ 0 [] 0 (mkWakes (λ _, false) 0 []) in
  tcp_get_state sample_id (handle_segment [10; 0; 2; 2] (sample_seg 2 true) [3; 4] (sample_net, t)).2
    = Some TimeWait ∧
  (tcp_recv sample_id 10 (handle_segment [10; 0; 2; 2] (sample_seg 2 true) [3; 4] (sample_net, t)).2).2 = Ok [].
Proof.
  intros t. destruct (fin_wait_truncates sample_id (set_conn_state FinWait2 sample_conn) (sample_seg 2 true)
    [3; 4] (sample_net, t)) as [H1 H2]; [done|done|done|done|by right|done|done|done|].
  split; [exact H1|exact (H2 10%nat)].
Defined.
