(* ===== verification/TcpLoop.v ===== *)
(** * TCP over the loopback path

    Two sockets of the same host: the segments one end sends are built,
    checksummed, wrapped in IPv4, queued, parsed and dispatched to the other
    end.  The theorems follow connect, listen and accept, the transfer of data
    and the orderly close through the whole stack. *)

From S2P Require Import Prelude RingBuffer Bytes Pipe Fifo FdTable NetPackets NetStack Tcp TcpStream.

(** ** One segment through the loopback queue *)

(** The host's network state between two drains. *)
Record quiet (n : NetState) : Prop := {
  quiet_ip : length (ip_addr (net_config n)) = 4%nat;
  quiet_bytes : byte_list (ip_addr (net_config n));
  quiet_id : in_width 16 (PACKET_ID n);
  quiet_queue : LOOPBACK_QUEUE n = [];
}.

(** The header the receiver parses from a built segment. *)
Definition built_header (sp dp : u16) (sq ak : u32) (fl : TcpFlags) (win ck : u16) : TcpHeader :=
  mkTcpHeader sp dp sq ak 5 fl win ck 0.

(** Exactly this segment is queued, on an otherwise quiet host. *)
Definition in_flight (dst : list u8) (sp dp : u16) (sq ak : u32) (fl : TcpFlags) (win : u16)
    (payload : list u8) (n : NetState) : Prop :=
  length (ip_addr (net_config n)) = 4%nat ∧ byte_list (ip_addr (net_config n)) ∧
  in_width 16 (PACKET_ID n) ∧
  ∃ pid, in_width 16 pid ∧ LOOPBACK_QUEUE n =
    [Ipv4Packet_build pid (ip_addr (net_config n)) dst PROTOCOL_TCP
       (build_tcp_packet_with_checksum (ip_addr (net_config n)) dst sp dp sq ak fl win payload)].

Lemma send_local cfg dst sp dp sq ak fl win payload n :
  quiet n → net_config n = cfg → is_local cfg dst = true →
  let n' := send_tcp_packet cfg dst sp dp sq ak fl win payload n in
  net_config n' = cfg ∧ in_flight dst sp dp sq ak fl win payload n'.
Proof.
  intros [Hl Hb Hid Hq] Hcfg Hloc. unfold send_tcp_packet, send_ipv4. rewrite Hcfg, Hloc. cbn [ipv4_build fst].
  cbn [set_packet_id LOOPBACK_QUEUE]. rewrite Hq. cbn [length].
  rewrite bool_decide_eq_false_2 by (unfold MAX_LOOPBACK_QUEUE_SIZE; lia).
  split; [done|]. cbn [in_flight]. unfold in_flight. cbn. rewrite Hcfg in *.
  split; [done|]. split; [done|]. split; [apply wrap_in_width; lia|].
  exists (PACKET_ID n). done.
Qed.

Section loopback.
Context {U : Type} `{!UdpInput U}.

(** One round of the drain delivers the segment in flight. *)
Lemma drain_round k dst sp dp sq ak fl win payload n t (u : U) :
  in_flight dst sp dp sq ak fl win payload n → is_local (net_config n) dst = true →
  length dst = 4%nat → byte_list dst → byte_list payload → Z.of_nat (length payload) ≤ 1460 →
  in_width 16 sp → in_width 16 dp → in_width 32 sq → in_width 32 ak → in_width 16 win →
  ∃ ck n0, quiet n0 ∧ net_config n0 = net_config n ∧
    drain_loopback_rounds (S k) (n, (t, u)) =
      let '(n', t') := tcp_drain_deferred_tx
        (handle_segment (ip_addr (net_config n)) (built_header sp dp sq ak fl win ck) payload (n0, t)) in
      drain_loopback_rounds k (n', (t', u)).
Proof.
  intros (Hl & Hb & Hid & pid & Hpid & Hq) Hloc Hld Hbd Hbp Hlen Hsp Hdp Hsq Hak Hwin.
  destruct (TcpHeader_parse_build (ip_addr (net_config n)) dst sp dp sq ak fl win payload) as [ck Hparse];
    try done; [lia|].
  exists ck, (set_loopback [] (LOOPBACK_DROPPED_FULL n) n). split; [by split|]. split; [done|].
  cbn [drain_loopback_rounds fst snd]. rewrite Hq. cbn [deliver_loopback].
  set (seg := build_tcp_packet_with_checksum _ _ _ _ _ _ _ _ _) in *.
  assert (Hseglen : length seg = (20 + length payload)%nat).
  { subst seg. destruct (build_tcp_bytes (ip_addr (net_config n)) dst sp dp sq ak fl win payload)
      as (? & _ & _ & ->); [done|done|done|done|done|lia|]. rewrite !length_app, !length_be_bytes. cbn. lia. }
  destruct (Ipv4Packet_parse_build pid (ip_addr (net_config n)) dst PROTOCOL_TCP seg [])
    as [ick Hip]; [done|done|done|done|done|done|rewrite Hseglen; lia|].
  rewrite app_nil_r in Hip. rewrite Hip. cbn [mbind option_bind]. unfold handle_ipv4. cbn [dst_ip fst].
  change (net_config (set_loopback [] (LOOPBACK_DROPPED_FULL n) n)) with (net_config n). rewrite Hloc.
  cbn [negb protocol]. change (PROTOCOL_TCP =? PROTOCOL_ICMP) with false.
  change (PROTOCOL_TCP =? PROTOCOL_TCP) with true. cbn iota. cbn [handle_tcp tcp_transport fst snd ip_payload].
  unfold tcp_handle_tcp. rewrite Hparse. cbn [src_ip].
  fold (built_header sp dp sq ak fl win ck).
  destruct (handle_segment _ _ _ _) as [n1 t1]. cbn [mbind option_bind deliver_loopback drain_deferred_tx fst snd].
  unfold drain_deferred_tx, tcp_transport. cbn [fst snd].
  by destruct (tcp_drain_deferred_tx _) as [n2 t2].
Qed.

Lemma drain_empty k n t (u : U) : LOOPBACK_QUEUE n = [] → drain_loopback_rounds k (n, (t, u)) = Some (false, (n, (t, u))).
Proof. intros H. destruct k; cbn; by rewrite H. Qed.

(** Reduce the updates of the tables and the projections of pending entries. *)
Ltac tables :=
  cbn [accept_publish put_conn set_connections put_listener set_listeners set_wakes set_deferred
       TCP_LISTENERS TCP_CONNECTIONS DEFERRED_TX_QUEUE SEQ_COUNTER RACE_RECOVERED wakes
       pd_remote_ip pd_remote_port pd_recv_initial pd_send_initial claimed ack_received early_data pd_recv_next
       fst snd].

(** Name the TCP state of the drain that continues from network state [n]. *)
Ltac name_tcp t n :=
  match goal with |- context [drain_loopback_rounds _ (n, (?t', _))] => set (t := t') end.

(** ** Connect, listen, accept *)

Section handshake.
Context (cfg : NetConfig) (cport lport : u16).
Abbreviation ip := (ip_addr cfg).
Abbreviation cid := (mkConnectionId ip cport ip lport).
Abbreviation sid := (mkConnectionId ip lport ip cport).

Lemma is_local_self : is_local cfg ip = true.
Proof. unfold is_local. by rewrite bool_decide_eq_true_2. Qed.

(** The SYN reaches the listener. *)
Lemma syn_at_listener isn win ck l n t :
  net_config n = cfg → TCP_CONNECTIONS t !! sid = None → TCP_LISTENERS t !! lport = Some l →
  pending l = [] → 1 ≤ backlog l →
  ∃ ws w,
    handle_segment ip (built_header cport lport isn 0 flags_syn win ck) [] (n, t) =
      (n, mkTcp (TCP_CONNECTIONS t)
            (<[lport := mkListen (ls_local_ip l) (ls_local_port l) (backlog l)
               [mkPendingConn ip cport isn (SEQ_COUNTER t) false false [] (wrap 32 (isn + 1))]
               (ls_owner l) ws (ls_ref_count l)]> (TCP_LISTENERS t))
            (wrap 32 (SEQ_COUNTER t + 64000))
            (DEFERRED_TX_QUEUE t ++ [mkDeferred ip (Some (CURRENT_PACKET_SRC_MAC n))
               (build_tcp_packet_with_checksum ip ip (ls_local_port l) cport (SEQ_COUNTER t)
                  (wrap 32 (isn + 1)) flags_syn_ack 65535 [])])
            (RACE_RECOVERED t) w).
Proof.
  intros Hcfg Hnc Hl Hp Hb. rewrite handle_segment_eq. unfold segment_outcome, segment_conn_id, try_connection. cbn [fst snd tcp_dst_port
    tcp_src_port built_header]. rewrite Hcfg, Hnc. unfold try_listener. cbn [snd tcp_dst_port built_header].
  rewrite Hl. cbn [tcp_flags built_header syn ack flags_syn negb andb]. unfold handle_syn_for_listener.
  rewrite Hp. cbn [List.find length]. rewrite (proj2 (Z.leb_gt _ _)) by lia.
  unfold wake_accept_waiters. cbn [generate_isn].
  match goal with |- context [wake_list ?a ?b] => destruct (wake_list a b) as [ws w] end.
  exists ws, w. done.
Qed.

(** The deferred SYN+ACK goes out on the loopback queue. *)
Lemma drain_deferred_one sp dp sq ak fl win mac n t :
  quiet n → net_config n = cfg →
  DEFERRED_TX_QUEUE t = [mkDeferred ip mac (build_tcp_packet_with_checksum ip ip sp dp sq ak fl win [])] →
  ∃ n', tcp_drain_deferred_tx (n, t) = (n', set_deferred [] t) ∧ net_config n' = cfg ∧
    in_flight ip sp dp sq ak fl win [] n'.
Proof.
  intros Hq Hcfg Ht. unfold tcp_drain_deferred_tx. cbn [fst snd]. rewrite Ht. cbn [foldl].
  unfold send_deferred. cbn [df_dst_ip]. rewrite Hcfg, is_local_self.
  destruct (send_local cfg ip sp dp sq ak fl win [] n Hq Hcfg is_local_self) as [H1 H2].
  eexists. split; [reflexivity|]. split; [exact H1|exact H2].
Qed.

Lemma drain_deferred_none n t : DEFERRED_TX_QUEUE t = [] → tcp_drain_deferred_tx (n, t) = (n, t).
Proof. intros H. unfold tcp_drain_deferred_tx. cbn [fst snd]. rewrite H. cbn. destruct t; cbn in *; by subst. Qed.

(** The SYN+ACK reaches the connecting end. *)
Lemma syn_ack_at_client sisn ck c n t :
  quiet n → net_config n = cfg → TCP_CONNECTIONS t !! cid = Some c → conn_id c = cid →
  conn_state c = SynSent →
  ∃ ws w n', let c' := set_conn_waiting ws (set_conn_state Established (set_send_unack (send_next c)
      (set_send_window 65535 (set_recv_next (wrap 32 (sisn + 1)) (set_recv_initial sisn c))))) in
    handle_segment ip (built_header lport cport sisn (send_next c) flags_syn_ack 65535 ck) [] (n, t) =
      (n', set_wakes w (put_conn cid c' t)) ∧ net_config n' = cfg ∧
    in_flight ip cport lport (send_next c) (wrap 32 (sisn + 1)) flags_ack (recv_window c) [] n'.
Proof.
  intros Hq Hcfg Hc Hid Hst. rewrite handle_segment_eq. unfold segment_outcome, segment_conn_id, try_connection.
  cbn [fst snd tcp_dst_port tcp_src_port built_header]. rewrite Hcfg, Hc.
  unfold handle_tcp_for_connection. cbn [fst]. rewrite Hst. unfold handle_syn_sent.
  cbn [fst tcp_flags built_header syn ack flags_syn_ack andb ack_num]. rewrite Z.eqb_refl.
  cbn [on_conn send_flags seq_num window_size].
  set (c1 := set_conn_state _ _). set (n1 := conn_send _ _ _ _ _).
  destruct (wake_conn_eq c1 n1 (wakes t)) as (ws & w & ->). exists ws, w, n1.
  destruct (send_local cfg ip cport lport (send_next c) (wrap 32 (sisn + 1)) flags_ack (recv_window c) [] n Hq Hcfg
    is_local_self) as [H1 H2].
  assert (Hn1 : n1 = send_tcp_packet cfg ip cport lport (send_next c) (wrap 32 (sisn + 1)) flags_ack
    (recv_window c) [] n) by (subst n1 c1; unfold conn_send; cbn; by rewrite Hid).
  rewrite Hn1. split; [reflexivity|]. split; [exact H1|exact H2].
Qed.

(** The final ACK reaches the pending entry. *)
Lemma ack_at_listener sisn isn win ck l ls_w n t :
  net_config n = cfg → TCP_CONNECTIONS t !! sid = None →
  TCP_LISTENERS t !! lport = Some (mkListen (ls_local_ip l) (ls_local_port l) (backlog l)
    [mkPendingConn ip cport isn sisn false false [] (wrap 32 (isn + 1))] (ls_owner l) ls_w (ls_ref_count l)) →
  handle_segment ip (built_header cport lport (wrap 32 (isn + 1)) (wrap 32 (sisn + 1)) flags_ack win ck) [] (n, t) =
    (n, put_listener lport (mkListen (ls_local_ip l) (ls_local_port l) (backlog l)
      [mkPendingConn ip cport isn sisn false true [] (wrap 32 (isn + 1))] (ls_owner l) ls_w (ls_ref_count l)) t).
Proof.
  intros Hcfg Hnc Hl. rewrite handle_segment_eq. unfold segment_outcome, segment_conn_id, try_connection.
  cbn [fst snd tcp_dst_port tcp_src_port built_header]. rewrite Hcfg, Hnc. unfold try_listener.
  cbn [snd tcp_dst_port built_header]. rewrite Hl. cbn [tcp_flags built_header syn ack flags_ack negb andb].
  cbn [pending update_first]. unfold pending_from at 1. cbn [pd_remote_ip pd_remote_port tcp_src_port built_header].
  rewrite bool_decide_eq_true_2, Z.eqb_refl by done. cbn [andb]. cbn iota beta.
  unfold pending_segment. cbn -[wrap]. by rewrite Z.eqb_refl.
Qed.

(** Accepting the only pending entry. *)
Lemma accept_only_pending sisn isn l ls_w n t :
  net_config n = cfg →
  TCP_LISTENERS t !! lport = Some (mkListen (ls_local_ip l) (ls_local_port l) (backlog l)
    [mkPendingConn ip cport isn sisn false true [] (wrap 32 (isn + 1))] (ls_owner l) ls_w (ls_ref_count l)) →
  ∃ t' c', tcp_accept lport (n, t) = (n, t', Some sid) ∧
    TCP_CONNECTIONS t' = <[sid := c']> (TCP_CONNECTIONS t) ∧ DEFERRED_TX_QUEUE t' = DEFERRED_TX_QUEUE t ∧
    conn_id c' = sid ∧ conn_state c' = Established ∧ send_next c' = wrap 32 (sisn + 1) ∧
    recv_next c' = wrap 32 (isn + 1) ∧ rx_buffer c' = [] ∧ recv_window c' = 65535 ∧ mss c' = 1460 ∧
    send_shutdown c' = false ∧ recv_shutdown c' = false ∧ refcount c' = 1.
Proof.
  intros Hcfg Hl. unfold tcp_accept, accept_claim. rewrite Hl.
  cbn [pending List.find update_first claimed negb]. unfold accept_owner. tables.
  rewrite lookup_insert_eq. cbn [fmap option_fmap option_map].
  unfold accept_remove. tables. rewrite lookup_insert_eq. cbn [pending set_pending_conns remove_first].
  unfold pending_from, set_claimed. tables.
  rewrite bool_decide_eq_true_2, Z.eqb_refl by done. cbn [andb]. cbn iota.
  unfold accept_catch_up, accept_id. tables. rewrite Hcfg, lookup_insert_eq.
  eexists _, _. split; [reflexivity|]. tables.
  split; [by rewrite insert_insert_eq|]. split; [done|].
  unfold catch_up, accepted_conn. cbn. by rewrite !Z.sub_diag.
Qed.

(** Two established ends of this host whose sequence numbers agree. *)
Record peered (t : Tcp) (c s : TcpConnection) : Prop := {
  peered_c : TCP_CONNECTIONS t !! cid = Some c;
  peered_s : TCP_CONNECTIONS t !! sid = Some s;
  peered_ids : conn_id c = cid ∧ conn_id s = sid;
  peered_states : conn_state c = Established ∧ conn_state s = Established;
  peered_sync : recv_next s = send_next c ∧ recv_next c = send_next s;
  peered_seq : in_width 32 (send_next c) ∧ in_width 32 (send_next s);
  peered_window : recv_window c = 65535 ∧ recv_window s = 65535;
  peered_mss : mss c = 1460 ∧ mss s = 1460;
  peered_open : send_shutdown c = false ∧ send_shutdown s = false ∧
                recv_shutdown c = false ∧ recv_shutdown s = false;
  peered_deferred : DEFERRED_TX_QUEUE t = [];
}.

Lemma in_flight_quiet dst sp dp sq ak fl win p n d : in_flight dst sp dp sq ak fl win p n → quiet (set_loopback [] d n).
Proof. by intros (? & ? & ? & _). Qed.

(** The four rounds of the handshake, from the SYN in flight. *)
Lemma handshake_drain remote isn l n t c (u : U) :
  length ip = 4%nat → byte_list ip → in_width 16 cport → in_width 16 lport → cport ≠ lport →
  is_local cfg remote = true → length remote = 4%nat → byte_list remote →
  net_config n = cfg → in_flight remote cport lport isn 0 flags_syn 65535 [] n →
  in_width 32 isn → in_width 32 (SEQ_COUNTER t) → DEFERRED_TX_QUEUE t = [] →
  TCP_CONNECTIONS t !! cid = Some c → TCP_CONNECTIONS t !! sid = None → conn_id c = cid →
  conn_state c = SynSent → send_next c = wrap 32 (isn + 1) → recv_window c = 65535 →
  TCP_LISTENERS t !! lport = Some l → ls_local_port l = lport → pending l = [] → 1 ≤ backlog l →
  ∃ n' t' ws lw, let sisn := SEQ_COUNTER t in
    drain_loopback_queue (n, (t, u)) = Some (n', (t', u)) ∧ quiet n' ∧ net_config n' = cfg ∧
    TCP_CONNECTIONS t' = <[cid := set_conn_waiting ws (set_conn_state Established (set_send_unack (send_next c)
      (set_send_window 65535 (set_recv_next (wrap 32 (sisn + 1)) (set_recv_initial sisn c)))))]> (TCP_CONNECTIONS t) ∧
    DEFERRED_TX_QUEUE t' = [] ∧
    TCP_LISTENERS t' !! lport = Some (mkListen (ls_local_ip l) (ls_local_port l) (backlog l)
      [mkPendingConn ip cport isn sisn false true [] (wrap 32 (isn + 1))] (ls_owner l) lw (ls_ref_count l)).
Proof.
  intros Hl Hb Hcp Hlp Hne Hloc Hlr Hbr Hcfg Hfl Hisn Hseq Hdef Hc Hs Hid Hst Hsn Hwin Hlis Hlport Hpend Hback.
  unfold drain_loopback_queue. change MAX_DRAIN_ROUNDS with (S (S (S 13))).
  pose proof (wrap_in_width 32 (isn + 1) ltac:(lia)). pose proof (wrap_in_width 32 (SEQ_COUNTER t + 1) ltac:(lia)).
  (* SYN *)
  destruct (drain_round 15 remote cport lport isn 0 flags_syn 65535 [] n t u Hfl) as (ck1 & n1 & Hq1 & Hc1 & ->);
    [by rewrite Hcfg|done|done|done|done|done|done|done|done|done|].
  rewrite Hcfg in *.
  destruct (syn_at_listener isn 65535 ck1 l n1 t) as (lw & w1 & ->); [done..|]. rewrite Hdef, Hlport.
  match goal with |- context [tcp_drain_deferred_tx (n1, ?t1)] =>
    destruct (drain_deferred_one lport cport (SEQ_COUNTER t) (wrap 32 (isn + 1)) flags_syn_ack 65535
      (Some (CURRENT_PACKET_SRC_MAC n1)) n1 t1 Hq1 Hc1 eq_refl) as (n2 & -> & Hc2 & Hfl2)
  end.
  tables.
  (* SYN+ACK *)
  name_tcp t2 n2.
  destruct (drain_round 14 ip lport cport (SEQ_COUNTER t) (wrap 32 (isn + 1)) flags_syn_ack 65535 [] n2 t2 u Hfl2)
    as (ck2 & n2' & Hq2 & Hc2' & ->);
    [by rewrite Hc2, is_local_self|done|done|done|done|done|done|done|done|done|].
  rewrite Hc2 in *. rewrite <- Hsn.
  destruct (syn_ack_at_client (SEQ_COUNTER t) ck2 c n2' t2 Hq2 Hc2' Hc Hid Hst) as (ws & w2 & n3 & -> & Hc3 & Hfl3).
  rewrite drain_deferred_none by done. tables.
  (* ACK *)
  name_tcp t3 n3.
  destruct (drain_round 13 ip cport lport (send_next c) (wrap 32 (SEQ_COUNTER t + 1)) flags_ack (recv_window c) [] n3
    t3 u Hfl3) as (ck3 & n3' & Hq3 & Hc3' & ->);
    [by rewrite Hc3, is_local_self|done|done|done|done|done|done|by rewrite Hsn|done|by rewrite Hwin|].
  rewrite Hc3 in *. rewrite Hsn.
  rewrite (ack_at_listener (SEQ_COUNTER t) isn (recv_window c) ck3 l lw n3' t3 Hc3'); [| |].
  2: { cbn. rewrite lookup_insert_ne; [done|]. intros [= ? ?]. done. }
  2: { cbn. rewrite lookup_insert_eq, Hlport. done. }
  rewrite drain_deferred_none by done. tables. rewrite drain_empty by apply Hq3.
  eexists _, _, ws, lw. split; [reflexivity|]. split; [done|]. split; [done|]. cbn.
  split; [by rewrite <- Hsn|]. split; [done|]. by rewrite lookup_insert_eq, Hlport.
Qed.

(** A connection to a listening port of the same host is established through
    the whole stack.  [tcp_connect] to the host's own or a 127.x address, one
    drain of the loopback queue (SYN, SYN+ACK and ACK built, queued, parsed and
    dispatched) and [tcp_accept] leave both ends Established with matching
    sequence numbers and empty buffers, and nothing in flight. *)
Theorem loopback_connect remote owner l n t (u : U) :
  quiet n → net_config n = cfg → in_width 16 cport → in_width 16 lport → cport ≠ lport →
  remote = ip ∨ at_ remote 0 = 127 → length remote = 4%nat → byte_list remote →
  in_width 32 (SEQ_COUNTER t) → DEFERRED_TX_QUEUE t = [] →
  TCP_CONNECTIONS t !! cid = None → TCP_CONNECTIONS t !! sid = None →
  TCP_LISTENERS t !! lport = Some l → ls_local_port l = lport → pending l = [] → 1 ≤ backlog l →
  ∃ n1 t1 n2 t2 t3 c s,
    tcp_connect cport remote lport owner (n, t) = (n1, t1, Ok cid) ∧
    drain_loopback_queue (n1, (t1, u)) = Some (n2, (t2, u)) ∧ quiet n2 ∧ net_config n2 = cfg ∧
    tcp_accept lport (n2, t2) = (n2, t3, Some sid) ∧
    peered t3 c s ∧ rx_buffer c = [] ∧ rx_buffer s = [].
Proof.
  intros Hq Hcfg Hcp Hlp Hne Hrem Hlr Hbr Hseq Hdef Hc Hs Hl Hlport Hpend Hback.
  assert (Hloc : is_local cfg remote = true).
  { destruct Hrem as [-> | H]; [apply is_local_self|]. unfold is_local. by rewrite H, orb_true_r. }
  assert (Heff : (if at_ remote 0 =? 127 then ip else remote) = ip).
  { destruct Hrem as [-> | ->]; [by destruct (_ =? _)|done]. }
  unfold tcp_connect. rewrite Hcfg, Heff. cbn [generate_isn set_seq_counter TCP_CONNECTIONS]. rewrite Hc.
  destruct (send_local cfg remote cport lport (SEQ_COUNTER t) 0 flags_syn 65535 [] n Hq Hcfg Hloc) as [Hc1 Hfl].
  set (n1 := send_tcp_packet _ _ _ _ _ _ _ _ _ _) in *. set (t1 := put_conn _ _ _).
  set (c0 := new_outgoing cid (SEQ_COUNTER t) owner) in *.
  destruct (handshake_drain remote (SEQ_COUNTER t) l n1 t1 c0 u) as (n2 & t2 & ws & lw & Hdr & Hq2 & Hc2 & Ht2 & Hd2 & Hl2);
    try done; [by rewrite <- Hcfg; apply Hq|by rewrite <- Hcfg; apply Hq|by apply wrap_in_width; lia|..].
  { cbn. apply lookup_insert_eq. }
  { cbn. rewrite lookup_insert_ne; [done|]. by intros [=]. }
  destruct (accept_only_pending (SEQ_COUNTER t1) (SEQ_COUNTER t) l lw n2 t2 Hc2 Hl2)
    as (t3 & s & Hacc & Hconns & Hd3 & Hids & Hsts & Hsn & Hrn & Hrx & Hw & Hm & Hss & Hrs & _).
  eexists n1, t1, n2, t2, t3, _, s. split; [reflexivity|]. split; [exact Hdr|]. split; [done|]. split; [done|].
  split; [exact Hacc|]. split; [|split; [|exact Hrx]]; [split|].
  - rewrite Hconns, lookup_insert_ne by (intros [=]; congruence). rewrite Ht2. apply lookup_insert_eq.
  - rewrite Hconns. apply lookup_insert_eq.
  - done.
  - done.
  - rewrite Hrn, Hsn. done.
  - rewrite Hsn. split; apply wrap_in_width; lia.
  - done.
  - done.
  - done.
  - by rewrite Hd3.
  - done.
Qed.

(** ** Data *)

(** Data reaches the other end and is acknowledged. *)
Lemma data_at_peer seq_a ack_a win ck payload s n t :
  quiet n → net_config n = cfg → TCP_CONNECTIONS t !! sid = Some s → conn_id s = sid →
  conn_state s = Established → recv_next s = seq_a → payload ≠ [] →
  ∃ ws w n', let rn := wrap 32 (recv_next s + Z.of_nat (length payload)) in
    let s' := set_conn_waiting ws (set_recv_next rn (set_rx_buffer (rx_buffer s ++ payload)
      (set_send_window win (set_send_unack ack_a s)))) in
    handle_segment ip (built_header cport lport seq_a ack_a flags_ack_psh win ck) payload (n, t) =
      (n', set_wakes w (put_conn sid s' t)) ∧ net_config n' = cfg ∧
    in_flight ip lport cport (send_next s) rn flags_ack (recv_window s) [] n'.
Proof.
  intros Hq Hcfg Hs Hid Hst Hrn Hne. rewrite handle_segment_eq. unfold segment_outcome, segment_conn_id, try_connection.
  cbn [fst snd tcp_dst_port tcp_src_port built_header]. rewrite Hcfg, Hs.
  unfold handle_tcp_for_connection. cbn [fst]. rewrite Hst. unfold handle_established, recv_data, in_sequence.
  cbn [tcp_flags built_header ack fin rst flags_ack_psh on_conn fst window_size ack_num seq_num].
  rewrite bool_decide_eq_false_2 by done. cbn [recv_next set_send_window set_send_unack negb andb].
  rewrite Hrn, Z.eqb_refl. cbn [take_payload send_flags].
  set (s1 := set_recv_next _ _). set (n1 := conn_send _ _ _ _ _).
  destruct (wake_conn_eq s1 n1 (wakes t)) as (ws & w & ->). exists ws, w, n1.
  set (rn := wrap 32 (seq_a + Z.of_nat (length payload))).
  destruct (send_local cfg ip lport cport (send_next s) rn flags_ack (recv_window s) [] n Hq Hcfg is_local_self)
    as [H1 H2].
  assert (Hn1 : n1 = send_tcp_packet cfg ip lport cport (send_next s) rn flags_ack (recv_window s) [] n).
  { subst n1 s1 rn. unfold conn_send. cbn. by rewrite Hid, Hrn. }
  rewrite Hn1. split; [subst s1; cbn; by rewrite Hrn|]. split; [exact H1|exact H2].
Qed.

(** A bare acknowledgement changes only the send variables. *)
Lemma ack_at_peer seq_a ack_a win ck s n t :
  net_config n = cfg → TCP_CONNECTIONS t !! sid = Some s → conn_state s = Established →
  handle_segment ip (built_header cport lport seq_a ack_a flags_ack win ck) [] (n, t) =
    (n, set_wakes (wakes t) (put_conn sid (set_send_window win (set_send_unack ack_a s)) t)).
Proof.
  intros Hcfg Hs Hst. rewrite handle_segment_eq. unfold segment_outcome, segment_conn_id, try_connection.
  cbn [fst snd tcp_dst_port tcp_src_port built_header]. rewrite Hcfg, Hs.
  unfold handle_tcp_for_connection. cbn [fst]. rewrite Hst. unfold handle_established, recv_data, in_sequence.
  done.
Qed.

End handshake.

Lemma peered_sym cfg cport lport t c s : peered cfg cport lport t c s → peered cfg lport cport t s c.
Proof. intros [? ? [] [] [] [] [] [] (? & ? & ? & ?) ?]. by split. Qed.

(** Registering and removing the writer's waiter leaves the pair as it was. *)
Lemma peered_waiter cfg cport lport me t c s :
  let cid := mkConnectionId (ip_addr cfg) cport (ip_addr cfg) lport in
  cport ≠ lport → peered cfg cport lport t c s →
  ∃ c', peered cfg cport lport (tcp_unregister_recv_waiter cid me (tcp_register_recv_waiter cid me t)) c' s ∧
    rx_buffer c' = rx_buffer c.
Proof.
  intros cid Hne [Hc Hs Hids Hst Hsy Hsq Hw Hm Ho Hd]. fold cid in Hc.
  assert (Hreg : ∃ c1, TCP_CONNECTIONS (tcp_register_recv_waiter cid me t) = <[cid := c1]> (TCP_CONNECTIONS t) ∧
    DEFERRED_TX_QUEUE (tcp_register_recv_waiter cid me t) = [] ∧ ∃ ws, c1 = set_conn_waiting ws c).
  { unfold tcp_register_recv_waiter. rewrite Hc. destruct (decide _).
    - exists c. rewrite insert_id by done. split; [done|]. split; [done|].
      exists (conn_waiting c). by destruct c.
    - eexists. split; [reflexivity|]. split; [done|]. by eexists. }
  destruct Hreg as (c1 & Ht1 & Hd1 & ws & ->). unfold tcp_unregister_recv_waiter at 1.
  rewrite Ht1, lookup_insert_eq.
  exists (set_conn_waiting (filter (λ x, x ≠ me) ws) c). split; [|done]. split; try done.
  - cbn. apply lookup_insert_eq.
  - cbn. rewrite Ht1, insert_insert_eq, lookup_insert_ne by (intros [=]; congruence). done.
Qed.

(** One write, delivered and acknowledged. *)
Lemma transmit_drain cfg cport lport data n t c s (u : U) :
  let cid := mkConnectionId (ip_addr cfg) cport (ip_addr cfg) lport in
  quiet n → net_config n = cfg → in_width 16 cport → in_width 16 lport → cport ≠ lport →
  peered cfg cport lport t c s → data ≠ [] → byte_list data →
  ∃ n1 t1 n2 t2 c' s',
    tcp_send_transmit cid data (n, t) = (n1, t1, Ok (Nat.min (length data) 1460)) ∧
    drain_loopback_queue (n1, (t1, u)) = Some (n2, (t2, u)) ∧ quiet n2 ∧ net_config n2 = cfg ∧
    peered cfg cport lport t2 c' s' ∧ rx_buffer c' = rx_buffer c ∧ rx_buffer s' = rx_buffer s ++ take 1460 data.
Proof.
  intros cid Hq Hcfg Hcp Hlp Hne Hp Hdata Hbytes. destruct Hp as [Hc Hs [Hidc Hids] [Hstc Hsts] [Hsy1 Hsy2] [Hq1 Hq2]
    [Hw1 Hw2] [Hm1 Hm2] (Ho1 & Ho2 & Ho3 & Ho4) Hd]. fold cid in Hc, Hidc.
  set (pay := take 1460 data).
  assert (Hpay : take (Nat.min (length data) 1460) data = pay) by (by rewrite Nat.min_comm, <- take_take, firstn_all).
  assert (Hlenp : length pay = Nat.min (length data) 1460) by (subst pay; rewrite length_take; lia).
  assert (Hne' : pay ≠ []) by (subst pay; by destruct data).
  assert (Hbp : byte_list pay) by (by apply Forall_take).
  unfold tcp_send_transmit. rewrite Hc, Ho1, Hstc. cbn [is_sendable negb]. rewrite Hm1.
  change (Z.to_nat 1460) with 1460%nat. rewrite Hpay, Hcfg. unfold conn_send. rewrite Hidc.
  cbn [remote_ip local_port remote_port cid].
  destruct (send_local cfg (ip_addr cfg) cport lport (send_next c) (recv_next c) flags_ack_psh (recv_window c) pay n Hq
    Hcfg (is_local_self cfg)) as [Hcfg1 Hfl1].
  set (n1 := send_tcp_packet _ _ _ _ _ _ _ _ _ _) in *.
  eexists n1, _. set (t1 := put_conn _ _ _).
  pose proof (quiet_ip _ Hq). pose proof (quiet_bytes _ Hq). rewrite Hcfg in *.
  unfold drain_loopback_queue. change MAX_DRAIN_ROUNDS with (S (S 14)).
  destruct (drain_round 15 (ip_addr cfg) cport lport (send_next c) (recv_next c) flags_ack_psh (recv_window c) pay n1 t1 u
    Hfl1) as (ck1 & n1' & Hqn1 & Hcn1 & ->);
    [rewrite Hcfg1; apply is_local_self|done|done|done|lia|done|done|done|by rewrite Hsy2|by rewrite Hw1|].
  rewrite Hcfg1 in *.
  assert (Hs1 : TCP_CONNECTIONS t1 !! mkConnectionId (ip_addr cfg) lport (ip_addr cfg) cport = Some s).
  { cbn. rewrite lookup_insert_ne; [done|]. by intros [=]. }
  destruct (data_at_peer cfg cport lport (send_next c) (recv_next c) (recv_window c) ck1 pay s n1' t1) as
    (ws & w & n2 & -> & Hcn2 & Hfl2); [done..|].
  rewrite drain_deferred_none by done. name_tcp t2 n2.
  destruct (drain_round 14 (ip_addr cfg) lport cport (send_next s) (wrap 32 (recv_next s + Z.of_nat (length pay)))
    flags_ack (recv_window s) [] n2 t2 u Hfl2) as (ck2 & n2' & Hqn2 & Hcn2' & ->);
    [rewrite Hcn2; apply is_local_self|done|done|done|done|done|done|done|by apply wrap_in_width|by rewrite Hw2|].
  rewrite Hcn2 in *.
  set (c1 := set_send_next (wrap 32 (send_next c + Z.of_nat (Nat.min (length data) 1460))) c) in *.
  assert (Hc2 : TCP_CONNECTIONS t2 !! cid = Some c1).
  { cbn. rewrite lookup_insert_ne by (intros [=]; congruence). apply lookup_insert_eq. }
  rewrite (ack_at_peer cfg lport cport _ _ _ ck2 c1 n2' t2) by done.
  rewrite drain_deferred_none by done. rewrite drain_empty by apply Hqn2.
  eexists n2', _, _, _. split; [reflexivity|]. split; [reflexivity|]. split; [done|]. split; [done|].
  split; [split|].
  - cbn. apply lookup_insert_eq.
  - cbn. rewrite lookup_insert_ne by (intros [=]; congruence). apply lookup_insert_eq.
  - done.
  - done.
  - cbn. by rewrite Hsy1, Hlenp.
  - cbn. split; [by apply wrap_in_width|done].
  - done.
  - done.
  - done.
  - done.
  - done.
Qed.

(** ** A conversation *)

Inductive side := AtConnector | AtAcceptor.

Definition side_id (cfg : NetConfig) (cport lport : u16) (w : side) : ConnectionId :=
  match w with
  | AtConnector => mkConnectionId (ip_addr cfg) cport (ip_addr cfg) lport
  | AtAcceptor => mkConnectionId (ip_addr cfg) lport (ip_addr cfg) cport
  end.

(** Thread [me] writes on one side; the loopback queue is then drained. *)
Definition write_step (cfg : NetConfig) (cport lport : u16) (me : tid) (w : side * list u8)
    (st : NetState * (Tcp * U)) : option (NetState * (Tcp * U)) :=
  match tcp_send (Some me) (side_id cfg cport lport w.1) w.2 (st.1, st.2.1) with
  | inl (n, t, Ok _) => drain_loopback_queue (n, (t, st.2.2))
  | _ => None
  end.

Fixpoint conversation (cfg : NetConfig) (cport lport : u16) (me : tid) (ws : list (side * list u8))
    (st : NetState * (Tcp * U)) : option (NetState * (Tcp * U)) :=
  match ws with
  | [] => Some st
  | w :: ws => st ← write_step cfg cport lport me w st; conversation cfg cport lport me ws st
  end.

(** What one side's writes carry: each is cut at the segment size. *)
Fixpoint carried (who : side) (ws : list (side * list u8)) : list u8 :=
  match ws with
  | [] => []
  | (AtConnector, d) :: ws => match who with AtConnector => take 1460 d | _ => [] end ++ carried who ws
  | (AtAcceptor, d) :: ws => match who with AtAcceptor => take 1460 d | _ => [] end ++ carried who ws
  end.

Lemma write_step_connector cfg cport lport me data n t c s (u : U) :
  quiet n → net_config n = cfg → in_width 16 cport → in_width 16 lport → cport ≠ lport →
  peered cfg cport lport t c s → data ≠ [] → byte_list data →
  ∃ n' t' c' s', write_step cfg cport lport me (AtConnector, data) (n, (t, u)) = Some (n', (t', u)) ∧
    quiet n' ∧ net_config n' = cfg ∧ peered cfg cport lport t' c' s' ∧
    rx_buffer c' = rx_buffer c ∧ rx_buffer s' = rx_buffer s ++ take 1460 data.
Proof.
  intros Hq Hcfg Hcp Hlp Hne Hp Hd Hb. unfold write_step, side_id. cbn [fst snd].
  set (cid := mkConnectionId _ cport _ _).
  destruct (peered_waiter cfg cport lport me t c s Hne Hp) as (c1 & Hp1 & Hrx1). fold cid in Hp1.
  unfold tcp_send. pose proof (peered_c _ _ _ _ _ _ Hp) as Hc. fold cid in Hc. rewrite Hc. cbn [fmap option_fmap option_map].
  destruct (peered_open _ _ _ _ _ _ Hp) as (-> & _). destruct (peered_states _ _ _ _ _ _ Hp) as [Hst _].
  assert (Hwait : tcp_send_wait cid (tcp_register_recv_waiter cid me t) = WaitOver).
  { unfold tcp_send_wait, tcp_register_recv_waiter. rewrite Hc. destruct (decide _); [by rewrite Hc; cbn; rewrite Hst|].
    cbn. rewrite lookup_insert_eq. cbn. by rewrite Hst. }
  rewrite Hwait.
  destruct (transmit_drain cfg cport lport data n _ c1 s u Hq Hcfg Hcp Hlp Hne Hp1 Hd Hb)
    as (n1 & t1 & n2 & t2 & c2 & s2 & H1 & H2 & H3 & H4 & H5 & H6 & H7). fold cid in H1. rewrite H1.
  exists n2, t2, c2, s2. rewrite H6. done.
Qed.

Lemma write_step_sym cfg cport lport me data st :
  write_step cfg cport lport me (AtAcceptor, data) st = write_step cfg lport cport me (AtConnector, data) st.
Proof. done. Qed.

(** C26: What one end of a loopback connection writes is what the other end
    receives.  From an established pair, any sequence of non-empty writes on
    either side, each through [tcp_send] and the whole stack, succeeds; each
    side's receive buffer then holds, in order, the bytes the other side's
    writes carried (every write is cut at the 1460-byte segment), and the two
    ends are in step again. *)
Theorem loopback_conversation cfg cport lport me ws n t c s (u : U) :
  quiet n → net_config n = cfg → in_width 16 cport → in_width 16 lport → cport ≠ lport →
  peered cfg cport lport t c s → Forall (λ w, w.2 ≠ [] ∧ byte_list w.2) ws →
  ∃ n' t' c' s', conversation cfg cport lport me ws (n, (t, u)) = Some (n', (t', u)) ∧
    peered cfg cport lport t' c' s' ∧
    rx_buffer s' = rx_buffer s ++ carried AtConnector ws ∧ rx_buffer c' = rx_buffer c ++ carried AtAcceptor ws.
Proof.
  intros Hq Hcfg Hcp Hlp Hne Hp Hws. revert n t c s Hq Hcfg Hp.
  induction Hws as [|[who data] ws [Hd Hb] _ IH]; intros n t c s Hq Hcfg Hp.
  { exists n, t, c, s. cbn. by rewrite !app_nil_r. }
  assert (∃ n1 t1 c1 s1, write_step cfg cport lport me (who, data) (n, (t, u)) = Some (n1, (t1, u)) ∧
    quiet n1 ∧ net_config n1 = cfg ∧ peered cfg cport lport t1 c1 s1 ∧
    rx_buffer s1 = rx_buffer s ++ carried AtConnector [(who, data)] ∧
    rx_buffer c1 = rx_buffer c ++ carried AtAcceptor [(who, data)])
    as (n1 & t1 & c1 & s1 & H1 & Hq1 & Hcfg1 & Hp1 & Hs1 & Hc1).
  { destruct who.
    - destruct (write_step_connector cfg cport lport me data n t c s u) as (n1 & t1 & c1 & s1 & ? & ? & ? & ? & Ec & Es);
        [done..|]. exists n1, t1, c1, s1. cbn. by rewrite Ec, Es, !app_nil_r.
    - rewrite write_step_sym.
      destruct (write_step_connector cfg lport cport me data n t s c u) as (n1 & t1 & s1 & c1 & ? & ? & ? & ? & Es & Ec);
        try done; [by apply peered_sym|]. exists n1, t1, c1, s1. cbn. rewrite Ec, Es, !app_nil_r.
      split; [done|]. split; [done|]. split; [done|]. split; [by apply peered_sym|done]. }
  cbn [conversation]. rewrite H1. cbn [mbind option_bind].
  destruct (IH n1 t1 c1 s1 Hq1 Hcfg1 Hp1) as (n' & t' & c' & s' & H2 & H3 & H4 & H5).
  exists n', t', c', s'. split; [done|]. split; [done|]. rewrite H4, H5, Hs1, Hc1, <- !app_assoc.
  cbn [carried]. by destruct who; cbn [carried app]; rewrite ?app_nil_r.
Qed.

(** ** Orderly close *)

Section closing.
Context (cfg : NetConfig) (cport lport : u16).
Abbreviation ip := (ip_addr cfg).
Abbreviation cid := (mkConnectionId ip cport ip lport).
Abbreviation sid := (mkConnectionId ip lport ip cport).

(** A FIN in sequence at an established end, or any FIN in FinWait2. *)
Lemma fin_at_peer seq_a ack_a win ck s n t :
  quiet n → net_config n = cfg → TCP_CONNECTIONS t !! sid = Some s → conn_id s = sid →
  recv_next s = seq_a → in_width 32 seq_a →
  (conn_state s = Established ∨ conn_state s = FinWait2) →
  ∃ s' w n',
    handle_segment ip (built_header cport lport seq_a ack_a flags_fin_ack win ck) [] (n, t) =
      (n', set_wakes w (put_conn sid s' t)) ∧ net_config n' = cfg ∧
    in_flight ip lport cport (send_next s) (wrap 32 (seq_a + 1)) flags_ack (recv_window s) [] n' ∧
    conn_state s' = (if bool_decide (conn_state s = Established) then CloseWait else TimeWait) ∧
    conn_id s' = sid ∧ send_next s' = send_next s ∧ recv_next s' = wrap 32 (seq_a + 1) ∧
    recv_window s' = recv_window s ∧ refcount s' = refcount s.
Proof.
  intros Hq Hcfg Hs Hid Hrn Hsq Hst. rewrite handle_segment_eq. unfold segment_outcome, segment_conn_id, try_connection.
  cbn [fst snd tcp_dst_port tcp_src_port built_header]. rewrite Hcfg, Hs.
  destruct (send_local cfg ip lport cport (send_next s) (wrap 32 (seq_a + 1)) flags_ack (recv_window s) [] n Hq Hcfg
    (is_local_self cfg)) as [H1 H2].
  assert (Hfs : fin_seq (built_header cport lport seq_a ack_a flags_fin_ack win ck) [] = seq_a).
  { unfold fin_seq. cbn [seq_num built_header length]. by rewrite Z.add_0_r, wrap_small. }
  unfold handle_tcp_for_connection. cbn [fst]. destruct Hst as [Hst|Hst]; rewrite Hst;
    unfold handle_established, handle_fin_wait2, recv_data, in_sequence, take_fin;
    cbn [tcp_flags built_header ack fin rst flags_fin_ack on_conn fst window_size ack_num seq_num negb andb];
    rewrite bool_decide_eq_true_2 by done; cbn [negb andb];
    cbn [fst recv_next set_send_window set_send_unack]; rewrite ?Hfs, ?Hrn, ?Z.eqb_refl; cbn [send_flags on_conn];
    match goal with |- context [wake_conn (?c1, ?n1, ?w1)] =>
      destruct (wake_conn_eq c1 n1 w1) as (ws & w & ->);
      replace n1 with (send_tcp_packet cfg ip lport cport (send_next s) (wrap 32 (seq_a + 1)) flags_ack
        (recv_window s) [] n) by (unfold conn_send; cbn; rewrite Hid, Hrn; done)
    end;
    eexists _, w, _; (split; [reflexivity|]); (split; [exact H1|]); (split; [exact H2|]); cbn; rewrite ?Hrn; done.
Qed.

(** The acknowledgement of a FIN. *)
Lemma ack_of_fin seq_a ack_a win ck s n t :
  net_config n = cfg → TCP_CONNECTIONS t !! sid = Some s → conn_state s = FinWait1 ∨ conn_state s = LastAck →
  ∃ s', handle_segment ip (built_header cport lport seq_a ack_a flags_ack win ck) [] (n, t) =
      (n, set_wakes (wakes t) (put_conn sid s' t)) ∧
    conn_state s' = (if bool_decide (conn_state s = FinWait1) then FinWait2 else Closed) ∧
    conn_id s' = conn_id s ∧ send_next s' = send_next s ∧ recv_next s' = recv_next s ∧
    recv_window s' = recv_window s ∧ refcount s' = refcount s.
Proof.
  intros Hcfg Hs Hst. rewrite handle_segment_eq. unfold segment_outcome, segment_conn_id, try_connection.
  cbn [fst snd tcp_dst_port tcp_src_port built_header]. rewrite Hcfg, Hs.
  unfold handle_tcp_for_connection. cbn [fst].
  destruct Hst as [Hst|Hst]; rewrite Hst; eexists; (split; [reflexivity|]); done.
Qed.

(** The last close of an end that is Established or in CloseWait sends FIN. *)
Lemma close_sends_fin c n t :
  quiet n → net_config n = cfg → TCP_CONNECTIONS t !! cid = Some c → conn_id c = cid → refcount c = 1 →
  conn_state c = Established ∨ conn_state c = CloseWait →
  ∃ n' c', conn_close cid (n, t) = (n', put_conn cid c' t, Ok tt) ∧ net_config n' = cfg ∧
    in_flight ip cport lport (send_next c) (recv_next c) flags_fin_ack (recv_window c) [] n' ∧
    conn_state c' = (if bool_decide (conn_state c = Established) then FinWait1 else LastAck) ∧
    conn_id c' = cid ∧ send_next c' = wrap 32 (send_next c + 1) ∧ recv_next c' = recv_next c ∧
    recv_window c' = recv_window c ∧ refcount c' = 0.
Proof.
  intros Hq Hcfg Hc Hid Hrc Hst. unfold conn_close. rewrite Hc, Hrc. cbn [Z.ltb Z.compare Pos.compare Pos.compare_cont].
  destruct (send_local cfg ip cport lport (send_next c) (recv_next c) flags_fin_ack (recv_window c) [] n Hq Hcfg
    (is_local_self cfg)) as [H1 H2].
  cbn [conn_state set_refcount]. destruct Hst as [Hst|Hst]; rewrite Hst; unfold send_fin, conn_send; cbn [conn_id
    set_refcount send_next recv_next recv_window]; rewrite Hid, Hcfg; eexists _, _; (split; [reflexivity|]);
    (split; [exact H1|]); (split; [exact H2|]); done.
Qed.

End closing.

Section fin_exchange.
Context (cfg : NetConfig) (cport lport : u16).
Abbreviation ip := (ip_addr cfg).
Abbreviation cid := (mkConnectionId ip cport ip lport).
Abbreviation sid := (mkConnectionId ip lport ip cport).

(** One FIN and its acknowledgement: [c] has sent FIN, [s] receives it. *)
Lemma fin_exchange sq ak c s n t (u : U) :
  length ip = 4%nat → byte_list ip → in_width 16 cport → in_width 16 lport → cport ≠ lport →
  net_config n = cfg → in_flight ip cport lport sq ak flags_fin_ack 65535 [] n →
  in_width 32 sq → in_width 32 ak → in_width 32 (send_next s) → DEFERRED_TX_QUEUE t = [] →
  TCP_CONNECTIONS t !! cid = Some c → TCP_CONNECTIONS t !! sid = Some s →
  conn_id s = sid → recv_next s = sq → recv_window s = 65535 →
  conn_state c = FinWait1 ∨ conn_state c = LastAck → conn_state s = Established ∨ conn_state s = FinWait2 →
  ∃ n' t' c' s', drain_loopback_queue (n, (t, u)) = Some (n', (t', u)) ∧ quiet n' ∧ net_config n' = cfg ∧
    DEFERRED_TX_QUEUE t' = [] ∧ TCP_CONNECTIONS t' !! cid = Some c' ∧ TCP_CONNECTIONS t' !! sid = Some s' ∧
    conn_state c' = (if bool_decide (conn_state c = FinWait1) then FinWait2 else Closed) ∧
    conn_state s' = (if bool_decide (conn_state s = Established) then CloseWait else TimeWait) ∧
    conn_id c' = conn_id c ∧ conn_id s' = sid ∧ recv_next c' = recv_next c ∧ send_next s' = send_next s ∧
    send_next c' = send_next c ∧ recv_next s' = wrap 32 (sq + 1) ∧
    recv_window c' = recv_window c ∧ recv_window s' = 65535 ∧
    refcount c' = refcount c ∧ refcount s' = refcount s.
Proof.
  intros Hl Hb Hcp Hlp Hne Hcfg Hfl Hsq Hak Hsn Hdef Hc Hs Hid Hrn Hwin Hstc Hsts.
  unfold drain_loopback_queue. change MAX_DRAIN_ROUNDS with (S (S 14)).
  destruct (drain_round 15 ip cport lport sq ak flags_fin_ack 65535 [] n t u Hfl) as (ck1 & n1 & Hq1 & Hc1 & ->);
    [rewrite Hcfg; apply is_local_self|done|done|done|done|done|done|done|done|done|]. rewrite Hcfg in *.
  destruct (fin_at_peer cfg cport lport sq ak 65535 ck1 s n1 t Hq1 Hc1 Hs Hid Hrn Hsq Hsts)
    as (s' & w & n2 & -> & Hc2 & Hfl2 & Hs1 & Hs2 & Hs3 & Hs4 & Hs5 & Hs6).
  rewrite drain_deferred_none by done. name_tcp t2 n2.
  destruct (drain_round 14 ip lport cport (send_next s) (wrap 32 (sq + 1)) flags_ack (recv_window s) [] n2 t2 u Hfl2)
    as (ck2 & n2' & Hq2 & Hc2' & ->);
    [rewrite Hc2; apply is_local_self|done|done|done|done|done|done|done|by apply wrap_in_width|by rewrite Hwin|].
  rewrite Hc2 in *.
  destruct (ack_of_fin cfg lport cport (send_next s) (wrap 32 (sq + 1)) (recv_window s) ck2 c n2' t2) as (c' & -> & Hk);
    [done|cbn; rewrite lookup_insert_ne; [done|by intros [=]]|done|].
  rewrite drain_deferred_none by done. rewrite drain_empty by apply Hq2.
  eexists n2', _, c', s'. split; [reflexivity|]. split; [done|]. split; [done|]. split; [done|].
  split; [cbn; apply lookup_insert_eq|].
  split; [cbn; rewrite lookup_insert_ne by (intros [=]; congruence); apply lookup_insert_eq|].
  rewrite Hs5, Hwin. naive_solver.
Qed.

End fin_exchange.

(** A connection that is closed in order is never removed from the
    connection table.  After the connecting end and then the accepting end of an
    established loopback pair drop their last reference and every segment has
    been delivered, both entries are still there, in TimeWait and in Closed and
    with no reference left, and a new [tcp_connect] between the same two ports is
    refused because the connection already exists. *)
Theorem orderly_close_leaks cfg cport lport owner n t c s (u : U) :
  let ip := ip_addr cfg in
  let cid := mkConnectionId ip cport ip lport in
  let sid := mkConnectionId ip lport ip cport in
  quiet n → net_config n = cfg → in_width 16 cport → in_width 16 lport → cport ≠ lport →
  peered cfg cport lport t c s → refcount c = 1 → refcount s = 1 →
  ∃ n1 t1 n2 t2 n3 t3 n4 t4,
    conn_close cid (n, t) = (n1, t1, Ok tt) ∧ drain_loopback_queue (n1, (t1, u)) = Some (n2, (t2, u)) ∧
    conn_close sid (n2, t2) = (n3, t3, Ok tt) ∧ drain_loopback_queue (n3, (t3, u)) = Some (n4, (t4, u)) ∧
    (∃ c', TCP_CONNECTIONS t4 !! cid = Some c' ∧ conn_state c' = TimeWait ∧ refcount c' = 0) ∧
    (∃ s', TCP_CONNECTIONS t4 !! sid = Some s' ∧ conn_state s' = Closed ∧ refcount s' = 0) ∧
    (tcp_connect cport ip lport owner (n4, t4)).2 = Err ConnectionExists.
Proof.
  intros ip cid sid Hq Hcfg Hcp Hlp Hne Hp Hrc Hrs.
  pose proof (quiet_ip _ Hq) as Hl. pose proof (quiet_bytes _ Hq) as Hb. rewrite Hcfg in Hl, Hb.
  destruct Hp as [Hc Hs [Hidc Hids] [Hstc Hsts] [Hsy1 Hsy2] [Hq1 Hq2] [Hw1 Hw2] _ _ Hd]. fold ip cid sid in Hc, Hs, Hidc, Hids.
  destruct (close_sends_fin cfg cport lport c n t Hq Hcfg Hc Hidc Hrc (or_introl Hstc))
    as (n1 & c1 & Hcl1 & Hcfg1 & Hfl1 & Hst1 & Hid1 & Hsn1 & Hrn1 & Hwn1 & Hrc1).
  rewrite Hstc in Hst1. rewrite bool_decide_eq_true_2 in Hst1 by done. rewrite Hw1 in Hfl1.
  destruct (fin_exchange cfg cport lport (send_next c) (recv_next c) c1 s n1 (put_conn cid c1 t) u)
    as (n2 & t2 & c2 & s2 & Hdr1 & Hqn2 & Hcfg2 & Hd2 & Hc2 & Hs2 & Hstc2 & Hsts2 & Hidc2 & Hids2 & Hrn2 & Hsn2 &
        Hsnc2 & Hrns2 & Hwc2 & Hws2 & Hrc2 & Hrs2); try done.
  { by rewrite Hsy2. }
  { cbn. apply lookup_insert_eq. }
  { cbn. rewrite lookup_insert_ne; [done|]. by intros [=]. }
  { by left. }
  { by left. }
  rewrite Hst1 in Hstc2. rewrite Hsts in Hsts2. rewrite bool_decide_eq_true_2 in Hstc2, Hsts2 by done.
  destruct (close_sends_fin cfg lport cport s2 n2 t2 Hqn2 Hcfg2 Hs2 Hids2 ltac:(congruence) (or_intror Hsts2))
    as (n3 & s3 & Hcl2 & Hcfg3 & Hfl3 & Hst3 & Hid3 & Hsn3 & Hrn3 & Hwn3 & Hrc3).
  rewrite Hsts2 in Hst3. rewrite bool_decide_eq_false_2 in Hst3 by done. rewrite Hws2 in Hfl3.
  destruct (fin_exchange cfg lport cport (send_next s2) (recv_next s2) s3 c2 n3 (put_conn sid s3 t2) u)
    as (n4 & t4 & s4 & c4 & Hdr2 & Hqn4 & Hcfg4 & Hd4 & Hs4 & Hc4 & Hsts4 & Hstc4 & _ & _ & _ & _ & _ & _ & _ & _ &
        Hrs4 & Hrc4); try done.
  { by rewrite Hsn2. }
  { rewrite Hrns2. by apply wrap_in_width. }
  { rewrite Hsnc2, Hsn1. by apply wrap_in_width. }
  { cbn. apply lookup_insert_eq. }
  { cbn. rewrite lookup_insert_ne; [done|]. intros [=]. by apply Hne. }
  { congruence. }
  { by rewrite Hrn2, Hrn1, Hsn2. }
  { congruence. }
  { by right. }
  { by right. }
  rewrite Hst3 in Hsts4. rewrite Hstc2 in Hstc4. rewrite bool_decide_eq_false_2 in Hsts4, Hstc4 by done.
  exists n1, (put_conn cid c1 t), n2, t2, n3, (put_conn sid s3 t2), n4, t4.
  repeat (split; [eassumption || (eexists; split; [eassumption|split; congruence])|]).
  subst ip cid sid. unfold tcp_connect. rewrite Hcfg4.
  destruct (_ =? _); cbn [generate_isn set_seq_counter TCP_CONNECTIONS]; by rewrite Hc4.
Qed.

End loopback.

(** ** The host of the examples *)

#[local] Instance udp_none : UdpInput unit := { udp_input _ _ s := Some s }.

Definition loop_cfg : NetConfig := net_config sample_net.
Definition loop_listener : Tcp :=
  mkTcp ∅ {[ 80 := mkListen [10; 0; 2; 15] 80 4 [] 1 [7] 1 ]} 0xFFFFFFFF [] 0 (mkWakes (λ _, false) 0 []).
Definition loop_c : TcpConnection :=
  set_recv_next 501 (set_conn_state Established (new_outgoing (side_id loop_cfg 5000 80 AtConnector) 100 1)).
Definition loop_s : TcpConnection :=
  set_recv_next 101 (set_conn_state Established (new_outgoing (side_id loop_cfg 5000 80 AtAcceptor) 500 1)).
Definition loop_pair : Tcp :=
  mkTcp (<[side_id loop_cfg 5000 80 AtConnector := loop_c]> {[ side_id loop_cfg 5000 80 AtAcceptor := loop_s ]})
    ∅ 0 [] 0 (mkWakes (λ _, false) 0 []).

Lemma sample_quiet : quiet sample_net.
Proof. split; try done. cbn. solve_bytes. Qed.

Lemma loop_pair_peered : peered loop_cfg 5000 80 loop_pair loop_c loop_s.
Proof. by split. Qed.

Lemma loopback_connect_witness :
  ∃ n1 t1 n2 t2 t3 c s,
    tcp_connect 5000 [127; 0; 0; 1] 80 1 (sample_net, loop_listener) =
      (n1, t1, Ok (side_id loop_cfg 5000 80 AtConnector)) ∧
    drain_loopback_queue (n1, (t1, tt)) = Some (n2, (t2, tt)) ∧
    tcp_accept 80 (n2, t2) = (n2, t3, Some (side_id loop_cfg 5000 80 AtAcceptor)) ∧
    peered loop_cfg 5000 80 t3 c s.
Proof.
  destruct (loopback_connect loop_cfg 5000 80 [127; 0; 0; 1] 1 (mkListen [10; 0; 2; 15] 80 4 [] 1 [7] 1)
    sample_net loop_listener tt) as (n1 & t1 & n2 & t2 & t3 & c & s & H1 & H2 & _ & _ & H3 & H4 & _);
    [exact sample_quiet|done|done|done|done|by right|done|repeat constructor; done|done|done|done|done|done|done|done|done|].
  exists n1, t1, n2, t2, t3, c, s. done.
Defined.

Lemma loopback_conversation_witness :
  ∃ n' t' c' s', conversation loop_cfg 5000 80 9 [(AtConnector, [1; 2]); (AtAcceptor, [3]); (AtConnector, [4])]
      (sample_net, (loop_pair, tt)) = Some (n', (t', tt)) ∧
    peered loop_cfg 5000 80 t' c' s' ∧ rx_buffer s' = [1; 2; 4] ∧ rx_buffer c' = [3].
Proof.
  destruct (loopback_conversation loop_cfg 5000 80 9 [(AtConnector, [1; 2]); (AtAcceptor, [3]); (AtConnector, [4])]
    sample_net loop_pair loop_c loop_s tt) as (n' & t' & c' & s' & H);
    [exact sample_quiet|done|done|done|done|exact loop_pair_peered|repeat constructor; done|].
  exists n', t', c', s'. exact H.
Defined.

Lemma orderly_close_leaks_witness :
  ∃ n4 t4, (tcp_connect 5000 [10; 0; 2; 15] 80 1 (n4, t4)).2 = Err ConnectionExists ∧
    ∃ s', TCP_CONNECTIONS t4 !! side_id loop_cfg 5000 80 AtAcceptor = Some s' ∧ conn_state s' = Closed.
Proof.
  destruct (orderly_close_leaks loop_cfg 5000 80 1 sample_net loop_pair loop_c loop_s tt)
    as (n1 & t1 & n2 & t2 & n3 & t3 & n4 & t4 & _ & _ & _ & _ & _ & (s' & Hs & Hst & _) & H);
    [exact sample_quiet|done|done|done|done|exact loop_pair_peered|done|done|].
  exists n4, t4. split; [exact H|]. by exists s'.
Defined.
