(* ===== verification/TcpInv.v ===== *)
(** * Invariants of the TCP tables and the race in accept

    The well-formedness every TCP operation keeps, for any interleaving of
    segments and system calls, and what a retransmission does between the
    locked regions of [tcp_accept]. *)

From S2P Require Import Prelude RingBuffer Bytes Pipe Fifo FdTable NetPackets NetStack Tcp TcpStream.

(** ** Well-formed tables *)

Record conn_ok (id : ConnectionId) (c : TcpConnection) : Prop := {
  conn_ok_id : conn_id c = id;
  conn_ok_window : recv_window c = 65535;
  conn_ok_mss : mss c = 1460;
  conn_ok_seq : in_width 32 (send_next c) ∧ in_width 32 (recv_next c);
  conn_ok_refs : in_width 64 (refcount c);
  conn_ok_waiting : NoDup (conn_waiting c);
}.

Definition peer_of (p : PendingConnection) : list u8 * u16 := (pd_remote_ip p, pd_remote_port p).

Record listener_ok (port : u16) (l : ListenSocket) : Prop := {
  listener_ok_port : ls_local_port l = port;
  listener_ok_backlog : Z.of_nat (length (pending l)) ≤ backlog l;
  listener_ok_peers : NoDup (peer_of <$> pending l);
  listener_ok_seq : Forall (λ p, in_width 32 (pd_recv_next p)) (pending l);
  listener_ok_waiting : NoDup (ls_waiting l);
}.

Record tcp_wf (t : Tcp) : Prop := {
  wf_conns : map_Forall conn_ok (TCP_CONNECTIONS t);
  wf_listeners : map_Forall listener_ok (TCP_LISTENERS t);
  wf_seq : in_width 32 (SEQ_COUNTER t);
}.

Create HintDb tcp.
#[export] Hint Resolve NoDup_filter NoDup_nil_2 : tcp.

(** ** Connections *)

Lemma set_conn_state_ok id s c : conn_ok id c → conn_ok id (set_conn_state s c).
Proof. by intros []. Qed.
Lemma set_send_next_ok id z c : conn_ok id c → conn_ok id (set_send_next (wrap 32 z) c).
Proof. intros [? ? ? [] ? ?]. split; try done. split; [by apply wrap_in_width|done]. Qed.
Lemma set_recv_next_ok id z c : in_width 32 z → conn_ok id c → conn_ok id (set_recv_next z c).
Proof. intros ? [? ? ? [] ? ?]. by split. Qed.
Lemma set_send_unack_ok id z c : conn_ok id c → conn_ok id (set_send_unack z c).
Proof. by intros []. Qed.
Lemma set_send_window_ok id z c : conn_ok id c → conn_ok id (set_send_window z c).
Proof. by intros []. Qed.
Lemma set_recv_initial_ok id z c : conn_ok id c → conn_ok id (set_recv_initial z c).
Proof. by intros []. Qed.
Lemma set_rx_buffer_ok id b c : conn_ok id c → conn_ok id (set_rx_buffer b c).
Proof. by intros []. Qed.
Lemma set_shutdown_ok id a b c : conn_ok id c → conn_ok id (set_shutdown a b c).
Proof. by intros []. Qed.
Lemma set_refcount_ok id z c : conn_ok id c → conn_ok id (set_refcount (wrap 64 z) c).
Proof. intros []. split; try done. by apply wrap_in_width. Qed.
Lemma set_conn_waiting_ok id ws c : NoDup ws → conn_ok id c → conn_ok id (set_conn_waiting ws c).
Proof. by intros ? []. Qed.
Lemma wrap32 z : in_width 32 (wrap 32 z).
Proof. by apply wrap_in_width. Qed.
Lemma new_outgoing_ok id isn owner : conn_ok id (new_outgoing id isn owner).
Proof. split; try done; [|constructor]. split; [apply wrap32|done]. Qed.

#[export] Hint Resolve set_conn_state_ok set_send_next_ok set_recv_next_ok set_send_unack_ok set_send_window_ok
  set_recv_initial_ok set_rx_buffer_ok set_shutdown_ok set_refcount_ok set_conn_waiting_ok wrap32
  new_outgoing_ok : tcp.

Lemma wake_list_NoDup ws w : NoDup ws → NoDup (wake_list ws w).1.
Proof.
  intros H. unfold wake_list. destruct ws; [done|]. destruct (wake_waiting_threads _ w) as [w' rej].
  cbn [fst]. by apply NoDup_filter.
Qed.

Definition env_ok (id : ConnectionId) (e : conn_env) : Prop := conn_ok id e.1.1.

Lemma on_conn_ok id f e : (∀ c, conn_ok id c → conn_ok id (f c)) → env_ok id e → env_ok id (on_conn f e).
Proof. destruct e as [[c n] w]. unfold env_ok. cbn. auto. Qed.
Lemma send_flags_ok id cfg fl e : env_ok id e → env_ok id (send_flags cfg fl e).
Proof. by destruct e as [[c n] w]. Qed.
Lemma wake_conn_ok id e : env_ok id e → env_ok id (wake_conn e).
Proof.
  destruct e as [[c n] w]. unfold env_ok, wake_conn, wake_connection_waiters. intros H.
  pose proof (wake_list_NoDup (conn_waiting c) w (conn_ok_waiting _ _ H)).
  destruct (wake_list _ w) as [ws w']. cbn in *. auto with tcp.
Qed.
Lemma take_payload_ok id cfg p e : env_ok id e → env_ok id (take_payload cfg p e).
Proof. destruct e as [[c n] w]. unfold take_payload, env_ok. cbn [send_flags fst]. auto with tcp. Qed.

#[export] Hint Resolve on_conn_ok send_flags_ok wake_conn_ok take_payload_ok : tcp.

Lemma recv_data_ok id cfg h p e : env_ok id e → env_ok id (recv_data cfg h p e).
Proof. intros. unfold recv_data. destruct (in_sequence _ _ _); auto with tcp. Qed.
Lemma take_fin_ok id cfg s e : env_ok id e → env_ok id (take_fin cfg s e).
Proof. intros. unfold take_fin. apply send_flags_ok, on_conn_ok; auto with tcp. Qed.

#[export] Hint Resolve recv_data_ok take_fin_ok : tcp.

(** Split on the conditions of a handler and use the lemmas of its steps. *)
Ltac handler :=
  repeat match goal with
  | |- env_ok _ (if ?b then _ else _) => destruct b
  | |- env_ok _ (let _ := _ in _) => cbv zeta
  end;
  repeat (apply wake_conn_ok || apply take_fin_ok || apply take_payload_ok || apply send_flags_ok ||
          apply recv_data_ok || (apply on_conn_ok; [solve [auto 8 with tcp]|])); auto with tcp.

Lemma handle_conn_ok id cfg h p e : env_ok id e → env_ok id (handle_tcp_for_connection cfg h p e).
Proof.
  intros He. unfold handle_tcp_for_connection. destruct (conn_state e.1.1); try done.
  - unfold handle_syn_sent. repeat handler.
  - unfold handle_syn_received. destruct (_ && _); [|destruct (_ && _); [by destruct e as [[??]?]|repeat handler]].
    destruct (_ =? _); [|done]. cbv zeta. apply wake_conn_ok.
    destruct (fin _ && _); [apply take_fin_ok|]; destruct (in_sequence _ _ _); repeat handler.
  - unfold handle_established. cbv zeta.
    destruct (rst _); [destruct (_ || _); [apply wake_conn_ok, on_conn_ok; [auto with tcp|]|]|];
      (destruct (fin _ && _); [apply wake_conn_ok, take_fin_ok|]; apply recv_data_ok; destruct (ack _); repeat handler).
  - unfold handle_fin_wait1. cbv zeta.
    destruct (fin _) eqn:Hfin; [apply wake_conn_ok, take_fin_ok|]; apply recv_data_ok; destruct (ack _); cbn [negb]; repeat handler.
  - unfold handle_fin_wait2. cbv zeta. repeat handler.
  - repeat handler.
  - repeat handler.
Qed.

(** ** Tables *)

Lemma put_conn_wf id c t : conn_ok id c → tcp_wf t → tcp_wf (put_conn id c t).
Proof. intros Hc [H1 H2 H3]. split; try done. by apply map_Forall_insert_2. Qed.
Lemma put_listener_wf port l t : listener_ok port l → tcp_wf t → tcp_wf (put_listener port l t).
Proof. intros Hl [H1 H2 H3]. split; try done. by apply map_Forall_insert_2. Qed.
Lemma set_wakes_wf w t : tcp_wf t → tcp_wf (set_wakes w t).
Proof. by intros []. Qed.
Lemma set_deferred_wf q t : tcp_wf t → tcp_wf (set_deferred q t).
Proof. by intros []. Qed.
Lemma set_race_recovered_wf z t : tcp_wf t → tcp_wf (set_race_recovered z t).
Proof. by intros []. Qed.
Lemma set_seq_counter_wf z t : tcp_wf t → tcp_wf (set_seq_counter (wrap 32 z) t).
Proof. intros []. split; try done. apply wrap32. Qed.
Lemma wf_conn t id c : tcp_wf t → TCP_CONNECTIONS t !! id = Some c → conn_ok id c.
Proof. intros [H _ _]. apply H. Qed.
Lemma wf_listener t port l : tcp_wf t → TCP_LISTENERS t !! port = Some l → listener_ok port l.
Proof. intros [_ H _]. apply H. Qed.

#[export] Hint Resolve put_conn_wf put_listener_wf set_wakes_wf set_deferred_wf set_race_recovered_wf
  set_seq_counter_wf wf_conn wf_listener : tcp.

Lemma try_connection_wf cfg id h p n t s' :
  tcp_wf t → try_connection cfg id h p (n, t) = Some s' → tcp_wf s'.2.
Proof.
  intros Hwf. unfold try_connection. destruct (TCP_CONNECTIONS t !! id) as [c|] eqn:Hc; [|done].
  pose proof (handle_conn_ok id cfg h p (c, n, wakes t) (wf_conn _ _ _ Hwf Hc)) as Hok.
  destruct (handle_tcp_for_connection _ _ _ _) as [[c' n'] w']. intros [= <-]. cbn [snd]. auto with tcp.
Qed.

Lemma pending_from_false ip port ps :
  List.find (pending_from ip port) ps = None → (ip, port) ∉ peer_of <$> ps.
Proof.
  intros Hf Hin. apply list_elem_of_fmap in Hin as (p & Hp & Hin).
  apply list_elem_of_In in Hin. pose proof (find_none _ _ Hf p Hin) as Hn.
  unfold pending_from in Hn. injection Hp as -> ->. by rewrite bool_decide_eq_true_2, Z.eqb_refl in Hn.
Qed.

Lemma wake_accept_waiters_ok port l w : listener_ok port l → listener_ok port (wake_accept_waiters l w).1.
Proof.
  intros []. unfold wake_accept_waiters. pose proof (wake_list_NoDup (ls_waiting l) w).
  destruct (wake_list _ w) as [ws w']. split; cbn in *; auto.
Qed.

Lemma push_pending_ok port l p :
  listener_ok port l → Z.of_nat (length (pending l)) < backlog l → peer_of p ∉ peer_of <$> pending l →
  in_width 32 (pd_recv_next p) → listener_ok port (set_pending_conns (pending l ++ [p]) l).
Proof.
  intros [] Hb Hp Hw. split; cbn; try done.
  - rewrite length_app. cbn. lia.
  - rewrite fmap_app. apply NoDup_app. split; [done|]. split; [|apply NoDup_singleton].
    intros x Hx ->%list_elem_of_singleton. done.
  - by apply Forall_app_2; [|apply Forall_singleton].
Qed.

Lemma handle_syn_wf cfg ip h port l n t :
  tcp_wf t → listener_ok port l →
  let r := handle_syn_for_listener cfg ip h l (n, t) in listener_ok port r.1 ∧ tcp_wf r.2.2.
Proof.
  intros Hwf Hl. unfold handle_syn_for_listener.
  destruct (List.find _ _) as [p|] eqn:Hf; [cbn; unfold queue_syn_ack, queue_deferred_tx_with_mac; auto with tcp|].
  destruct (Z.leb_spec (backlog l) (Z.of_nat (length (pending l)))); [done|].
  cbn [generate_isn]. set (l' := set_pending_conns _ l).
  assert (Hl' : listener_ok port l').
  { apply push_pending_ok; [done..| |apply wrap32]. by apply pending_from_false. }
  pose proof (wake_accept_waiters_ok port l' (wakes (queue_syn_ack cfg l' ip h (SEQ_COUNTER t) n
    (set_seq_counter (wrap 32 (SEQ_COUNTER t + 64000)) t))) Hl') as Hwake.
  destruct (wake_accept_waiters l' _) as [l2 w]. cbn [fst snd] in *.
  split; [done|]. unfold queue_syn_ack, queue_deferred_tx_with_mac. auto 6 with tcp.
Qed.

Lemma update_first_Forall {A} (P : A → Prop) f g l l' :
  (∀ x, P x → P (g x)) → update_first f g l = Some l' → Forall P l → Forall P l'.
Proof.
  intros Hg. revert l'. induction l as [|x l IH]; intros l' H Hl; [done|]. cbn in H.
  inversion_clear Hl. destruct (f x); [simplify_eq; constructor; auto|].
  destruct (update_first f g l); simplify_eq/=. constructor; auto.
Qed.

Lemma update_first_fmap {A B} (k : A → B) f g l l' :
  (∀ x, k (g x) = k x) → update_first f g l = Some l' → k <$> l' = k <$> l.
Proof.
  intros Hg. revert l'. induction l as [|x l IH]; intros l' H; [done|]. cbn in H.
  destruct (f x); [simplify_eq; cbn; by rewrite Hg|].
  destruct (update_first f g l); simplify_eq/=. by rewrite (IH _ eq_refl).
Qed.

Lemma update_first_ok port l ps f g :
  (∀ p, peer_of (g p) = peer_of p) → (∀ p, in_width 32 (pd_recv_next p) → in_width 32 (pd_recv_next (g p))) →
  update_first f g (pending l) = Some ps → listener_ok port l → listener_ok port (set_pending_conns ps l).
Proof.
  intros Hg Hw Hu [? ? ? Hseq ?]. pose proof (update_first_fmap peer_of _ _ _ _ Hg Hu) as Hpeers.
  split; cbn; try done.
  - apply (f_equal length) in Hpeers. rewrite !length_fmap in Hpeers. by rewrite Hpeers.
  - by rewrite Hpeers.
  - by apply (update_first_Forall _ _ _ _ _ Hw Hu).
Qed.

Lemma pending_segment_peer h p x : peer_of (pending_segment h p x) = peer_of x.
Proof. unfold pending_segment. destruct (ack _); [|done]. by destruct (_ && _). Qed.
Lemma pending_segment_seq h p x :
  in_width 32 (pd_recv_next x) → in_width 32 (pd_recv_next (pending_segment h p x)).
Proof. intros. unfold pending_segment. destruct (ack _); [|done]. destruct (_ && _); cbn; auto with tcp. Qed.

Lemma try_listener_wf cfg ip h p n t : tcp_wf t → tcp_wf (try_listener cfg ip h p (n, t)).2.2.
Proof.
  intros Hwf. unfold try_listener. cbn [snd fst]. destruct (TCP_LISTENERS t !! tcp_dst_port h) as [l|] eqn:Hl; [|done].
  destruct (syn _ && _).
  { pose proof (handle_syn_wf cfg ip h (tcp_dst_port h) l n t Hwf (wf_listener _ _ _ Hwf Hl)) as [H1 H2].
    destruct (handle_syn_for_listener _ _ _ _ _) as [l' [n' t']]. cbn in *. auto with tcp. }
  destruct (negb _); [|done]. destruct (update_first _ _ _) as [ps|] eqn:Hu; [|done].
  cbn. apply put_listener_wf; [|done].
  eapply update_first_ok; eauto using pending_segment_peer, pending_segment_seq with tcp.
Qed.

(** Each region of [handle_tcp], whatever ran since the one before. *)
Lemma segment_step_wf g ph s : tcp_wf s.2 → tcp_wf (segment_step g ph s).2.2.
Proof.
  destruct s as [n t], g as [cfg ip h p]. cbn [snd]. intros Hwf. destruct ph; cbn [segment_step].
  - destruct (try_connection _ _ _ _ _) as [s'|] eqn:Ht; [|done]. by apply (try_connection_wf _ _ _ _ _ _ _ Hwf Ht).
  - pose proof (try_listener_wf cfg ip h p n t Hwf). by destruct (try_listener _ _ _ _ _) as [[found retry] s'].
  - destruct (try_connection _ _ _ _ _) as [[n' t']|] eqn:Ht; [|done].
    cbn [snd]. apply set_race_recovered_wf. by apply (try_connection_wf _ _ _ _ _ _ _ Hwf Ht).
  - cbn. by destruct (rst _).
  - done.
Qed.

Lemma handle_segment_wf ip h p s : tcp_wf s.2 → tcp_wf (handle_segment ip h p s).2.
Proof.
  intros Hwf. unfold handle_segment. set (g := mkSegment _ _ _ _).
  assert (∀ k, tcp_wf (Nat.iter k (λ '(ph, s), segment_step g ph s) (SegLookup, s)).2.2) as Hall; [|apply (Hall 3%nat)].
  induction k as [|k IH]; [done|]. cbn [Nat.iter nat_rect]. change (nat_rect _ _ _ k) with (Nat.iter k (λ '(ph, s), segment_step g ph s) (SegLookup, s)).
  destruct (Nat.iter k _ _) as [ph s']. by apply segment_step_wf.
Qed.

(** ** Every operation *)

(** The atomic actions on the tables, in any interleaving of softirq and system
    calls; the regions of [handle_tcp] carry the segment, those of [tcp_accept]
    the entry their thread holds.  [OpSegment] is a segment handled undisturbed. *)
Inductive tcp_op :=
  | OpSegment (ip : list u8) (h : TcpHeader) (payload : list u8)
  | OpRegion (g : Segment) (ph : SegPhase)
  | OpDrain
  | OpConnect (port : u16) (remote : list u8) (rport : u16) (owner : Z)
  | OpListen (port : u16) (blog : u64) (owner : Z)
  | OpClaim (port : u16)
  | OpPublish (port : u16) (owner : Z) (p : PendingConnection)
  | OpRemove (port : u16) (p : PendingConnection)
  | OpCatchUp (port : u16) (p final_p : PendingConnection)
  | OpTransmit (id : ConnectionId) (data : list u8)
  | OpRecv (id : ConnectionId) (len : nat)
  | OpShutdown (id : ConnectionId) (shut_rd shut_wr : bool)
  | OpAddRef (id : ConnectionId)
  | OpClose (id : ConnectionId)
  | OpRecvWaiter (id : ConnectionId) (t : tid) (register : bool)
  | OpAcceptWaiter (port : u16) (t : tid) (register : bool)
  | OpListenerRef (port : u16) (inc : bool).

Definition tcp_apply (s : NetState * Tcp) (o : tcp_op) : NetState * Tcp :=
  let '(n, t) := s in
  match o with
  | OpSegment ip h payload => handle_segment ip h payload s
  | OpRegion g ph => (segment_step g ph s).2
  | OpDrain => tcp_drain_deferred_tx s
  | OpConnect port remote rport owner => (tcp_connect port remote rport owner s).1
  | OpListen port blog owner => (tcp_listen port blog owner s).1
  | OpClaim port => (n, (accept_claim port t).1)
  | OpPublish port owner p => (n, accept_publish (accept_id (net_config n) port p) owner p t)
  | OpRemove port p => (n, (accept_remove port p t).1)
  | OpCatchUp port p final_p => (n, accept_catch_up (accept_id (net_config n) port p) p final_p t)
  | OpTransmit id data => (tcp_send_transmit id data s).1
  | OpRecv id len => (n, (tcp_recv id len t).1)
  | OpShutdown id shut_rd shut_wr => tcp_shutdown id shut_rd shut_wr s
  | OpAddRef id => (n, conn_add_ref id t)
  | OpClose id => (conn_close id s).1
  | OpRecvWaiter id me r => (n, if r then tcp_register_recv_waiter id me t else tcp_unregister_recv_waiter id me t)
  | OpAcceptWaiter port me r =>
      (n, if r then tcp_register_accept_waiter port me t else tcp_unregister_accept_waiter port me t)
  | OpListenerRef port inc => (n, if inc then listener_ref_inc port t else (listener_ref_dec port t).1)
  end.

(** The machine widths of the arguments. *)
Definition tcp_op_ok (o : tcp_op) : Prop :=
  match o with
  | OpListen _ blog _ => in_width 64 blog
  | OpPublish _ _ p => in_width 32 (pd_recv_next p)
  | OpCatchUp _ _ final_p => in_width 32 (pd_recv_next final_p)
  | _ => True
  end.

Lemma accept_claim_wf port t : tcp_wf t → tcp_wf (accept_claim port t).1.
Proof.
  intros Hwf. unfold accept_claim. destruct (TCP_LISTENERS t !! port) as [l|] eqn:Hl; [|done].
  destruct (List.find _ _); [|done]. destruct (update_first _ _ _) as [ps|] eqn:Hu; [|done]. cbn.
  apply put_listener_wf; [|done]. refine (update_first_ok port l ps _ set_claimed _ _ Hu _); try done.
  by apply (wf_listener t).
Qed.

Lemma remove_first_sublist {A} f (l l' : list A) x : remove_first f l = Some (x, l') → l' `sublist_of` l.
Proof.
  revert l'. induction l as [|y l IH]; intros l' H; [done|]. cbn in H. destruct (f y); simplify_eq.
  - by constructor.
  - destruct (remove_first f l) as [[z l2]|]; simplify_eq/=. constructor. by apply IH.
Qed.

Lemma sublist_Forall {A} (P : A → Prop) l l' : l' `sublist_of` l → Forall P l → Forall P l'.
Proof. induction 1; [done|intros []%Forall_cons; auto..]. Qed.

Lemma accept_remove_wf port p t : tcp_wf t → tcp_wf (accept_remove port p t).1.
Proof.
  intros Hwf. unfold accept_remove. destruct (TCP_LISTENERS t !! port) as [l|] eqn:Hl; [|done].
  destruct (remove_first _ _) as [[fp ps]|] eqn:Hr; [|done]. cbn. apply put_listener_wf; [|done].
  apply remove_first_sublist in Hr. destruct (wf_listener _ _ _ Hwf Hl) as [? ? Hnd Hseq ?].
  split; cbn; try done.
  - apply sublist_length in Hr. lia.
  - eapply sublist_NoDup; [exact Hnd|]. by apply fmap_sublist.
  - by apply (sublist_Forall _ _ _ Hr).
Qed.

Lemma accepted_conn_ok id owner p : in_width 32 (pd_recv_next p) → conn_ok id (accepted_conn id owner p).
Proof. intros. unfold accepted_conn. destruct (ack_received p); auto 10 with tcp. Qed.

Lemma catch_up_ok id p fp c : in_width 32 (pd_recv_next fp) → conn_ok id c → conn_ok id (catch_up p fp c).
Proof.
  intros. unfold catch_up. cbv zeta.
  destruct (_ && _), (bool_decide _), (_ <? _); auto 8 with tcp.
Qed.

Lemma send_fin_ok id cfg s c n : conn_ok id c → conn_ok id (send_fin cfg s c n).1.
Proof. intros. unfold send_fin. cbn. auto with tcp. Qed.

#[export] Hint Resolve accepted_conn_ok catch_up_ok : tcp.

Lemma tcp_shutdown_wf id a b n t : tcp_wf t → tcp_wf (tcp_shutdown id a b (n, t)).2.
Proof.
  intros Hwf. unfold tcp_shutdown. destruct (TCP_CONNECTIONS t !! id) as [c|] eqn:Hc; [|done].
  pose proof (wf_conn _ _ _ Hwf Hc). cbv zeta. set (c1 := if a then _ else _).
  assert (conn_ok id c1) by (subst c1; destruct a; auto with tcp).
  destruct (_ && _); [|cbn; auto with tcp]. destruct (bool_decide _); cbn; auto 6 with tcp.
Qed.

Lemma conn_close_wf id n t : tcp_wf t → tcp_wf (conn_close id (n, t)).1.2.
Proof.
  intros Hwf. unfold conn_close. destruct (TCP_CONNECTIONS t !! id) as [c|] eqn:Hc; [|done].
  pose proof (wf_conn _ _ _ Hwf Hc). cbv zeta. destruct (_ <? _); [cbn; auto with tcp|].
  destruct (conn_state _); cbn; auto 6 with tcp.
  destruct Hwf. split; try done. by apply map_Forall_delete.
Qed.

Lemma register_waiter_wf id me t :
  tcp_wf t → tcp_wf (tcp_register_recv_waiter id me t) ∧ tcp_wf (tcp_unregister_recv_waiter id me t).
Proof.
  intros Hwf. unfold tcp_register_recv_waiter, tcp_unregister_recv_waiter.
  destruct (TCP_CONNECTIONS t !! id) as [c|] eqn:Hc; [|done]. pose proof (wf_conn _ _ _ Hwf Hc) as Hok.
  pose proof (conn_ok_waiting _ _ Hok). split; [|auto with tcp]. destruct (decide _); [done|].
  apply put_conn_wf; [|done]. apply set_conn_waiting_ok; [|done].
  apply NoDup_app. split; [done|]. split; [|apply NoDup_singleton]. by intros x Hx ->%list_elem_of_singleton.
Qed.

Lemma accept_waiter_wf port me t :
  tcp_wf t → tcp_wf (tcp_register_accept_waiter port me t) ∧ tcp_wf (tcp_unregister_accept_waiter port me t).
Proof.
  intros Hwf. unfold tcp_register_accept_waiter, tcp_unregister_accept_waiter.
  destruct (TCP_LISTENERS t !! port) as [l|] eqn:Hl; [|done]. destruct (wf_listener _ _ _ Hwf Hl).
  split; [destruct (decide _); [done|]|]; (apply put_listener_wf; [split; cbn; try done|done]); auto with tcp.
  apply NoDup_app. split; [done|]. split; [|apply NoDup_singleton]. by intros x Hx ->%list_elem_of_singleton.
Qed.

Lemma listener_ref_wf port t : tcp_wf t → tcp_wf (listener_ref_inc port t) ∧ tcp_wf (listener_ref_dec port t).1.
Proof.
  intros Hwf. unfold listener_ref_inc, listener_ref_dec.
  destruct (TCP_LISTENERS t !! port) as [l|] eqn:Hl; [|done]. destruct (wf_listener _ _ _ Hwf Hl).
  split; [by apply put_listener_wf|]. destruct (_ =? _); [|by apply put_listener_wf].
  destruct Hwf. split; try done. by apply map_Forall_delete.
Qed.

Lemma tcp_apply_wf s o : tcp_op_ok o → tcp_wf s.2 → tcp_wf (tcp_apply s o).2.
Proof.
  destruct s as [n t]. intros Hok Hwf. cbn [snd] in Hwf. destruct o; cbn [tcp_apply tcp_op_ok fst snd] in *.
  - by apply handle_segment_wf.
  - by apply segment_step_wf.
  - cbn. auto with tcp.
  - unfold tcp_connect. cbn [generate_isn set_seq_counter TCP_CONNECTIONS]. destruct (TCP_CONNECTIONS t !! _); cbn; auto with tcp.
  - unfold tcp_listen. destruct (TCP_LISTENERS t !! port); [done|]. cbn. apply put_listener_wf; [|done].
    destruct Hok. split; cbn; try done; try constructor. 
  - by apply accept_claim_wf.
  - unfold accept_publish. auto with tcp.
  - by apply accept_remove_wf.
  - unfold accept_catch_up. destruct (TCP_CONNECTIONS t !! _) eqn:Hc; eauto with tcp.
  - unfold tcp_send_transmit. destruct (TCP_CONNECTIONS t !! id) eqn:Hc; [|done].
    destruct (send_shutdown _); [done|]. destruct (negb _); [done|]. cbn. eauto with tcp.
  - unfold tcp_recv. destruct (TCP_CONNECTIONS t !! id) as [c|] eqn:Hc; [|done].
    destruct (recv_shutdown c); [done|]. destruct (decide _); [by destruct (conn_state c)|]. cbn. eauto with tcp.
  - by apply tcp_shutdown_wf.
  - unfold conn_add_ref. destruct (TCP_CONNECTIONS t !! id) eqn:Hc; eauto with tcp.
  - by apply conn_close_wf.
  - destruct (register_waiter_wf id t0 t Hwf). by destruct register.
  - destruct (accept_waiter_wf port t0 t Hwf). by destruct register.
  - destruct (listener_ref_wf port t Hwf). by destruct inc.
Qed.

(** The tables at boot. *)
Definition tcp_init (w : Wakes) : Tcp := mkTcp ∅ ∅ 0x12345678 [] 0 w.

(** C27: The TCP tables stay well formed under every interleaving of incoming
    segments and socket operations, the locked regions of [handle_tcp] and of
    [tcp_accept] taken one by one: a connection is stored under its own 4-tuple, its sequence numbers,
    windows and reference count are in range and no thread waits twice; a
    listener is stored under its own port, never holds more pending connections
    than its backlog, and holds at most one for each peer. *)
Theorem tcp_tables_wf ops n w :
  Forall tcp_op_ok ops → tcp_wf (foldl tcp_apply (n, tcp_init w) ops).2.
Proof.
  intros Hops.
  assert (Hinit : tcp_wf (n, tcp_init w).2) by (split; [apply map_Forall_empty..|done]).
  revert Hinit. generalize (n, tcp_init w). induction Hops as [|o ops Ho _ IH]; intros s Hs; [done|].
  apply IH. by apply tcp_apply_wf.
Qed.

Lemma tcp_tables_wf_witness :
  tcp_wf (foldl tcp_apply (sample_net, tcp_init (mkWakes (λ _, false) 0 []))
    [OpListen 80 1 1; OpSegment [10; 0; 2; 2] (mkTcpHeader 9000 80 7 0 5 flags_syn 100 0 0) [];
     OpRegion (mkSegment (net_config sample_net) [10; 0; 2; 2] (mkTcpHeader 9001 80 7 0 5 flags_syn 100 0 0) []) SegListen;
     OpDrain; OpClaim 80]).2.
Proof. apply tcp_tables_wf. repeat constructor; done. Defined.

(** ** The race in accept *)

Section accept_race.
Context (cfg : NetConfig) (port : u16) (src : list u8) (l : ListenSocket) (p : PendingConnection).
Context (h : TcpHeader) (payload : list u8).
Abbreviation id := (mkConnectionId (ip_addr cfg) port src (tcp_src_port h)).

Context (Hpend : pending l = [p]) (Hunclaimed : claimed p = false) (Hacked : ack_received p = true).
Context (Hpeer : pd_remote_ip p = src ∧ pd_remote_port p = tcp_src_port h) (Hport : tcp_dst_port h = port).
Context (Hflags : syn (tcp_flags h) = false ∧ ack (tcp_flags h) = true ∧ fin (tcp_flags h) = false ∧
                  rst (tcp_flags h) = false).
Context (Hseq : seq_num h = pd_recv_next p) (Hne : payload ≠ []).

(** The entry with the payload as early data. *)
Definition with_early (q : PendingConnection) : PendingConnection :=
  mkPendingConn (pd_remote_ip q) (pd_remote_port q) (pd_recv_initial q) (pd_send_initial q) (claimed q) true
    (early_data q ++ payload) (wrap 32 (pd_recv_next q + Z.of_nat (length payload))).

Lemma segment_to_entry n t :
  net_config n = cfg → TCP_CONNECTIONS t !! id = None →
  TCP_LISTENERS t !! port = Some (set_pending_conns [set_claimed p] l) →
  handle_segment src h payload (n, t) =
    (n, put_listener port (set_pending_conns [with_early (set_claimed p)] l) t).
Proof.
  intros Hcfg Hnc Hl. destruct Hflags as (Hs & Ha & _ & _), Hpeer as [Hip Hpp].
  rewrite handle_segment_eq. unfold segment_outcome, segment_conn_id. cbn [fst]. rewrite Hcfg, Hport. unfold try_connection. rewrite Hnc.
  unfold try_listener. cbn [fst snd]. rewrite Hport, Hl, Hs. cbn [andb negb pending set_pending_conns update_first].
  unfold pending_from at 1. cbn [pd_remote_ip pd_remote_port set_claimed]. rewrite Hip, Hpp.
  rewrite bool_decide_eq_true_2, Z.eqb_refl by done. cbn [andb]. cbn iota beta.
  unfold pending_segment. rewrite Ha. cbn [set_claimed ack_received pd_recv_next]. rewrite Hacked, Hseq, Z.eqb_refl.
  rewrite bool_decide_eq_false_2 by done. unfold with_early, set_claimed. cbn. by rewrite Hip, Hpp.
Qed.

Lemma child_takes_segment owner n t :
  TCP_CONNECTIONS t !! id = Some (accepted_conn id owner (set_claimed p)) →
  ∃ n' w c', try_connection cfg id h payload (n, t) = Some (n', set_wakes w (put_conn id c' t)) ∧
    conn_state c' = Established ∧ rx_buffer c' = early_data p ++ payload ∧
    recv_next c' = wrap 32 (pd_recv_next p + Z.of_nat (length payload)).
Proof using Hacked Hflags Hseq Hne.
  intros Hc. destruct Hflags as (Hs & Ha & Hf & Hr). unfold try_connection. rewrite Hc.
  unfold handle_tcp_for_connection. cbn [fst].
  assert (Hst : conn_state (accepted_conn id owner (set_claimed p)) = Established)
    by (unfold accepted_conn; cbn; by rewrite Hacked).
  rewrite Hst. unfold handle_established, recv_data, in_sequence. rewrite Ha, Hf, Hr. cbn [andb on_conn fst].
  rewrite bool_decide_eq_false_2 by done. unfold accepted_conn. cbn [set_claimed ack_received]. rewrite Hacked.
  cbn [recv_next set_send_window set_send_unack set_rx_buffer set_recv_next pd_recv_next negb andb].
  rewrite Hseq, Z.eqb_refl. cbn [take_payload send_flags].
  match goal with |- context [wake_conn (?c1, ?n1, ?w1)] => destruct (wake_conn_eq c1 n1 w1) as (ws & w & ->) end.
  by eexists _, w, _.
Qed.

Lemma segment_to_child owner n t :
  net_config n = cfg → TCP_CONNECTIONS t !! id = Some (accepted_conn id owner (set_claimed p)) →
  ∃ n' w c', handle_segment src h payload (n, t) = (n', set_wakes w (put_conn id c' t)) ∧
    conn_state c' = Established ∧ rx_buffer c' = early_data p ++ payload ∧
    recv_next c' = wrap 32 (pd_recv_next p + Z.of_nat (length payload)).
Proof using Hacked Hflags Hseq Hne Hport.
  intros Hcfg Hc. destruct (child_takes_segment owner n t Hc) as (n' & w & c' & Ht & Hc').
  exists n', w, c'. split; [|done]. rewrite handle_segment_eq. unfold segment_outcome, segment_conn_id. cbn [fst].
  by rewrite Hcfg, Hport, Ht.
Qed.

(** The second lookup repairs the race between the lookups: [tcp_accept] publishes
    the child after a segment has looked for its connection and takes the entry
    away before the segment looks at the listener.  The segment finds neither
    entry, looks again, and the child takes the data. *)
Theorem accept_race_recovered n t :
  TCP_CONNECTIONS t !! id = None → TCP_LISTENERS t !! port = Some l →
  let g := mkSegment cfg src h payload in
  ∃ t1 q owner t2 fq n3 t3 c,
    accept_claim port t = (t1, Some q) ∧ accept_owner port t1 = Some owner ∧
    segment_step g SegLookup (n, t1) = (SegListen, (n, t1)) ∧
    accept_remove port q (accept_publish id owner q t1) = (t2, Some fq) ∧
    segment_step g SegListen (n, t2) = (SegRetry, (n, t2)) ∧
    segment_step g SegRetry (n, t2) = (SegDone, (n3, t3)) ∧
    TCP_CONNECTIONS t3 !! id = Some c ∧ rx_buffer c = early_data p ++ payload ∧
    recv_next c = wrap 32 (pd_recv_next p + Z.of_nat (length payload)) ∧
    RACE_RECOVERED t3 = wrap 64 (RACE_RECOVERED t + 1).
Proof using Hpend Hunclaimed Hacked Hpeer Hport Hflags Hseq Hne.
  intros Hnc Hl g. unfold accept_claim. rewrite Hl, Hpend. cbn [List.find update_first]. rewrite Hunclaimed.
  cbn [negb]. set (t1 := put_listener _ _ _). set (q := set_claimed p). set (t1' := accept_publish id (ls_owner l) q t1).
  assert (∃ l', accept_remove port q t1' = (put_listener port l' t1', Some q) ∧ pending l' = []) as (l' & Hrem & Hl').
  { unfold accept_remove. cbn. rewrite lookup_insert_eq. cbn. unfold pending_from. cbn.
    rewrite bool_decide_eq_true_2, Z.eqb_refl by done. by eexists. }
  set (t2 := put_listener port l' t1') in *.
  destruct (child_takes_segment (ls_owner l) n t2) as (n3 & w & c & Ht & _ & Hrx & Hrn).
  { cbn. apply lookup_insert_eq. }
  exists t1, q, (ls_owner l), t2, q, n3, (set_race_recovered (wrap 64 (RACE_RECOVERED t + 1)) (set_wakes w (put_conn id c t2))), c.
  destruct Hflags as (Hs & _ & _ & _). split; [done|]. split; [unfold accept_owner; cbn; by rewrite lookup_insert_eq|].
  unfold g, segment_step, segment_conn_id. rewrite Hport.
  split; [|split; [exact Hrem|]]; [|split; [|split; [|split; [cbn; apply lookup_insert_eq|done]]]].
  - unfold try_connection. change (TCP_CONNECTIONS t1) with (TCP_CONNECTIONS t). by rewrite Hnc.
  - unfold try_listener. cbn [snd]. rewrite Hport. unfold t2. cbn. rewrite lookup_insert_eq, Hs. cbn. by rewrite Hl'.
  - by rewrite Ht.
Qed.

(** A segment that is retransmitted while [tcp_accept] runs is delivered
    twice.  Data that reaches a pending connection is never acknowledged, so the
    peer sends it again; when the first copy arrives after the entry was claimed
    and the second after the child was published but before the entry is
    removed, both copies end up in the receive buffer although the sequence
    number advanced only once. *)
Theorem accept_race_duplicates n t :
  net_config n = cfg → TCP_CONNECTIONS t !! id = None → TCP_LISTENERS t !! port = Some l →
  ∃ t1 q t2 owner n3 t3 t4 fq c,
    accept_claim port t = (t1, Some q) ∧
    handle_segment src h payload (n, t1) = (n, t2) ∧
    accept_owner port t2 = Some owner ∧
    handle_segment src h payload (n, accept_publish id owner q t2) = (n3, t3) ∧
    accept_remove port q t3 = (t4, Some fq) ∧
    TCP_CONNECTIONS (accept_catch_up id q fq t4) !! id = Some c ∧
    rx_buffer c = early_data p ++ payload ++ payload ∧
    recv_next c = wrap 32 (pd_recv_next p + Z.of_nat (length payload)).
Proof.
  intros Hcfg Hnc Hl. unfold accept_claim. rewrite Hl, Hpend. cbn [List.find update_first]. rewrite Hunclaimed.
  cbn [negb]. set (t1 := put_listener _ _ _).
  pose proof (segment_to_entry n t1 Hcfg Hnc (lookup_insert_eq _ _ _)) as H1.
  set (t2 := put_listener _ _ t1) in *.
  destruct (segment_to_child (ls_owner l) n (accept_publish id (ls_owner l) (set_claimed p) t2) Hcfg)
    as (n3 & w & c' & H2 & Hst & Hrx & Hrn).
  { cbn. apply lookup_insert_eq. }
  eexists t1, (set_claimed p), t2, (ls_owner l), n3, _, _, _, _. split; [reflexivity|]. split; [exact H1|].
  split; [unfold accept_owner; cbn; by rewrite lookup_insert_eq|]. split; [exact H2|].
  split.
  { unfold accept_remove. cbn. rewrite lookup_insert_eq. cbn. unfold pending_from. cbn.
    by rewrite bool_decide_eq_true_2, Z.eqb_refl. }
  split.
  { unfold accept_catch_up. cbn. rewrite lookup_insert_eq. cbn. by rewrite lookup_insert_eq. }
  unfold catch_up. rewrite Hst. cbn [with_early set_claimed early_data pd_recv_next ack_received].
  rewrite length_app, (bool_decide_eq_false_2 (Established = SynReceived)), andb_false_r by done.
  rewrite bool_decide_eq_true_2 by (destruct payload; cbn; [done|lia]).
  cbn [recv_next set_rx_buffer]. rewrite Hrn, Z.ltb_irrefl. cbn. by rewrite Hrx, drop_app_length, <- app_assoc.
Qed.
End accept_race.

Lemma accept_race_duplicates_witness :
  let p := mkPendingConn [10; 0; 2; 2] 9000 41 100 false true [5] 43 in
  let l := mkListen [10; 0; 2; 15] 80 4 [p] 1 [] 1 in
  let h := mkTcpHeader 9000 80 43 101 5 flags_ack_psh 100 0 0 in
  let id := mkConnectionId [10; 0; 2; 15] 80 [10; 0; 2; 2] 9000 in
  ∃ t1 q t2 owner n3 t3 t4 fq c,
    accept_claim 80 (mkTcp ∅ {[ 80 := l ]} 0 [] 0 (mkWakes (λ _, false) 0 [])) = (t1, Some q) ∧
    handle_segment [10; 0; 2; 2] h [6; 7] (sample_net, t1) = (sample_net, t2) ∧
    handle_segment [10; 0; 2; 2] h [6; 7] (sample_net, accept_publish id owner q t2) = (n3, t3) ∧
    accept_remove 80 q t3 = (t4, Some fq) ∧
    TCP_CONNECTIONS (accept_catch_up id q fq t4) !! id = Some c ∧ rx_buffer c = [5; 6; 7; 6; 7].
Proof.
  intros p l h id.
  destruct (accept_race_duplicates (net_config sample_net) 80 [10; 0; 2; 2] l p h [6; 7] eq_refl eq_refl eq_refl
    (conj eq_refl eq_refl) eq_refl (conj eq_refl (conj eq_refl (conj eq_refl eq_refl))) eq_refl ltac:(done)
    sample_net (mkTcp ∅ {[ 80 := l ]} 0 [] 0 (mkWakes (λ _, false) 0 [])))
    as (t1 & q & t2 & owner & n3 & t3 & t4 & fq & c & H1 & H2 & _ & H3 & H4 & H5 & H6 & _); [done|done|done|].
  exists t1, q, t2, owner, n3, t3, t4, fq, c. done.
Defined.
