(* ===== verification/Vma.v ===== *)
(** * Virtual memory areas (kernel/src/memory/vma.rs)

    The sorted list of mapped regions of an address space: insertion, removal
    with splitting, lookup and the search for a free region.  Addresses are the
    numbers inside [VirtAddr]; every address the code wraps in
    [VirtAddr::new] is below MMAP_REGION_END, so that call does not panic. *)

From Stdlib Require Import Sorting.Sorted.
From S2P Require Import Prelude.

Definition MMAP_REGION_START : u64 := 0x700000000000.
Definition MMAP_REGION_END : u64 := 0x7FFFFE000000.
Definition PAGE_SIZE : u64 := 4096.

Record Vma := mkVma {
  vma_start : u64;
  vma_end : u64;
  vma_prot : u32;
  vma_flags : u32;
}.

(** [Protection::contains] and [MmapFlags::contains] *)
Definition bits_contain (flags other : u32) : bool := Z.land flags other =? other.

Definition Vma_contains (v : Vma) (addr : u64) : bool :=
  (vma_start v <=? addr) && (addr <? vma_end v).

Definition Vma_overlaps (v other : Vma) : bool :=
  (vma_start v <? vma_end other) && (vma_start other <? vma_end v).

Definition Vma_size (v : Vma) : u64 := wrap 64 (vma_end v - vma_start v).

Inductive VmaError := Overlap | InvalidRange | NotFound.

Definition is_page_aligned (addr : u64) : bool := addr mod PAGE_SIZE =? 0.

Definition align_up (value align : u64) : u64 :=
  Z.land (wrap 64 (value + align - 1)) (wnot 64 (align - 1)).

Abbreviation VmaList := (list Vma) (only parsing).

Definition VmaList_overlaps_any (v : Vma) (l : VmaList) : bool :=
  existsb (λ existing, Vma_overlaps existing v) l.

Definition VmaList_find (addr : u64) (l : VmaList) : option Vma := List.find (λ v, Vma_contains v addr) l.

(** The downward search of [find_free_region]: [Some r] is its early return. *)
Fixpoint search_down (aligned_size : u64) (rev_vmas : VmaList) (search_end : u64) : u64 + u64 :=
  match rev_vmas with
  | [] => inr search_end
  | v :: rest =>
      if (aligned_size <=? vma_start v)
         && (MMAP_REGION_START <=? vma_start v - aligned_size)
         && (vma_start v - aligned_size + aligned_size <=? search_end)
      then inl (vma_start v - aligned_size)
      else search_down aligned_size rest (vma_start v)
  end.

Definition search_free (aligned_size : u64) (l : VmaList) : option u64 :=
  match search_down aligned_size (rev l) MMAP_REGION_END with
  | inl r => Some r
  | inr search_end =>
      if wrap 64 (MMAP_REGION_START + aligned_size) <=? search_end then
        let potential_start := wrap 64 (search_end - aligned_size) in
        if MMAP_REGION_START <=? potential_start then Some potential_start else None
      else None
  end.

Definition find_free_region (size : u64) (hint : option u64) (l : VmaList) : option u64 :=
  let aligned_size := align_up size PAGE_SIZE in
  match hint with
  | Some hint_addr =>
      if is_page_aligned hint_addr then
        if decide (hint_addr + aligned_size < 2 ^ 64) then
          let end_addr := hint_addr + aligned_size in
          if (end_addr <=? MMAP_REGION_END)
             && negb (VmaList_overlaps_any (mkVma hint_addr end_addr 0 0) l)
          then Some hint_addr
          else search_free aligned_size l
        else None
      else search_free aligned_size l
  | None => search_free aligned_size l
  end.

(** The position [binary_search_by_key] gives on a sorted list, found or not. *)
Fixpoint insert_pos (start : u64) (l : VmaList) : nat :=
  match l with
  | [] => 0
  | v :: l => if vma_start v <? start then S (insert_pos start l) else 0
  end.

Definition VmaList_insert (v : Vma) (l : VmaList) : VmaList * result unit VmaError :=
  if vma_end v <=? vma_start v then (l, Err InvalidRange)
  else if negb (is_page_aligned (vma_start v)) || negb (is_page_aligned (vma_end v)) then
    (l, Err InvalidRange)
  else if VmaList_overlaps_any v l then (l, Err Overlap)
  else
    let p := insert_pos (vma_start v) l in
    (take p l ++ v :: drop p l, Ok tt).

(** The parts of a removed area outside the removal range. *)
Definition split_parts (start end_ : u64) (v : Vma) : list Vma :=
  (if vma_start v <? start then [mkVma (vma_start v) start (vma_prot v) (vma_flags v)] else []) ++
  (if end_ <? vma_end v then [mkVma end_ (vma_end v) (vma_prot v) (vma_flags v)] else []).

(** The loop of [remove]: what stays, what is removed, what is to be re-inserted. *)
Fixpoint remove_loop (start end_ : u64) (l : VmaList) : VmaList * list Vma * list Vma :=
  match l with
  | [] => ([], [], [])
  | v :: l =>
      let '(kept, removed, to_insert) := remove_loop start end_ l in
      if (vma_end v <=? start) || (end_ <=? vma_start v) then (v :: kept, removed, to_insert)
      else (kept, v :: removed, split_parts start end_ v ++ to_insert)
  end.

(** Re-insertion; [None] is the panic of [expect]. *)
Fixpoint reinsert (parts : list Vma) (l : VmaList) : option VmaList :=
  match parts with
  | [] => Some l
  | v :: parts =>
      match VmaList_insert v l with
      | (l, Ok _) => reinsert parts l
      | (_, Err _) => None
      end
  end.

Definition VmaList_remove (start end_ : u64) (l : VmaList)
    : option (VmaList * result (list Vma) VmaError) :=
  if end_ <=? start then Some (l, Err InvalidRange)
  else if negb (is_page_aligned start) || negb (is_page_aligned end_) then Some (l, Err InvalidRange)
  else
    let '(kept, removed, to_insert) := remove_loop start end_ l in
    l ← reinsert to_insert kept;
    Some (l, match removed with [] => Err NotFound | _ => Ok removed end).

(** ** The invariant: sorted, disjoint, page-aligned, non-empty areas *)

Definition vma_ok (v : Vma) : Prop :=
  0 ≤ vma_start v < vma_end v ∧ is_page_aligned (vma_start v) = true ∧ is_page_aligned (vma_end v) = true.

Definition before (v w : Vma) : Prop := vma_end v ≤ vma_start w.

Definition vmas_wf (l : VmaList) : Prop := StronglySorted before l ∧ Forall vma_ok l.

Definition apart (v w : Vma) : Prop := before v w ∨ before w v.

Lemma overlaps_false v w : vma_ok v → vma_ok w → Vma_overlaps v w = false ↔ apart v w.
Proof.
  unfold Vma_overlaps, apart, before, vma_ok. intros [] [].
  rewrite andb_false_iff, !Z.ltb_ge. lia.
Qed.

Lemma overlaps_any_false v l :
  vma_ok v → Forall vma_ok l → VmaList_overlaps_any v l = false ↔ Forall (λ w, apart w v) l.
Proof.
  intros Hv. induction 1 as [|w l Hw Hl IH]; cbn; [done|].
  rewrite orb_false_iff, Forall_cons. unfold VmaList_overlaps_any in IH. by rewrite overlaps_false, IH.
Qed.

(** Insertion at the search position keeps the order. *)
Lemma insert_pos_sorted v l :
  vma_ok v → vmas_wf l → Forall (λ w, apart w v) l →
  vmas_wf (take (insert_pos (vma_start v) l) l ++ v :: drop (insert_pos (vma_start v) l) l).
Proof.
  intros Hv [Hs Hok] Hap. induction Hs as [|w l Hs IH Hw]; cbn [insert_pos take drop app].
  { split; [repeat constructor|by constructor]. }
  apply Forall_cons in Hok as [Hwok Hok], Hap as [Hwap Hap]. destruct (IH Hok Hap) as [IHs IHok].
  destruct (Z.ltb_spec (vma_start w) (vma_start v)) as [Hlt|Hge]; cbn [take drop app].
  - assert (Hwv : before w v) by (destruct Hwap, Hwok, Hv; unfold before in *; lia).
    split; [|by constructor]. constructor; [done|]. apply Forall_app. split; [by apply Forall_take|].
    constructor; [done|by apply Forall_drop].
  - assert (Hvw : before v w) by (destruct Hwap, Hwok, Hv; unfold before in *; lia).
    split; [|by constructor; [|constructor]]. constructor; [by constructor|]. constructor; [done|].
    eapply Forall_impl; [exact Hw|]. unfold before in *. intros x Hx. destruct Hwok. lia.
Qed.

Lemma insert_ok v l :
  vma_ok v → vmas_wf l → Forall (λ w, apart w v) l →
  ∃ l', VmaList_insert v l = (l', Ok tt) ∧ vmas_wf l' ∧ l' ≡ₚ v :: l.
Proof.
  intros Hv Hwf Hap. unfold VmaList_insert. pose proof Hv as (Hr & -> & ->).
  destruct (Z.leb_spec (vma_end v) (vma_start v)); [lia|]. cbn [negb orb].
  rewrite (proj2 (overlaps_any_false v l Hv (proj2 Hwf))) by done.
  eexists. split; [done|]. split; [by apply insert_pos_sorted|].
  by rewrite <- Permutation_middle, take_drop.
Qed.

(** ** What an address maps to *)

Definition attrs (v : Vma) : u32 * u32 := (vma_prot v, vma_flags v).

(** Protection and flags at an address. *)
Definition mapped_at (addr : u64) (l : VmaList) : option (u32 * u32) := attrs <$> VmaList_find addr l.

Lemma before_disjoint l v w a :
  vmas_wf l → v ∈ l → w ∈ l → Vma_contains v a = true → Vma_contains w a = true → v = w.
Proof.
  unfold Vma_contains. intros [Hs Hok] Hv Hw. rewrite !andb_true_iff, !Z.leb_le, !Z.ltb_lt. intros Ha Hb.
  induction Hs as [|x l Hs IH Hx]; [by apply elem_of_nil in Hv|].
  apply Forall_cons in Hok as [_ Hok]. rewrite Forall_forall in Hx.
  apply elem_of_cons in Hv as [->|Hv], Hw as [->|Hw]; [done| | |by apply IH].
  - specialize (Hx w Hw). unfold before in Hx. lia.
  - specialize (Hx v Hv). unfold before in Hx. lia.
Qed.

Lemma find_spec a l v :
  vmas_wf l → VmaList_find a l = Some v ↔ v ∈ l ∧ Vma_contains v a = true.
Proof.
  intros Hwf. unfold VmaList_find. split.
  - intros [Hin Hc]%List.find_some. split; [by apply list_elem_of_In|done].
  - intros [Hin Hc]. destruct (List.find _ l) as [w|] eqn:E.
    + apply List.find_some in E as [Hw Hcw]. f_equal.
      eapply before_disjoint; [done|by apply list_elem_of_In|done|done|done].
    + eapply List.find_none in E; [|by apply list_elem_of_In]. congruence.
Qed.

Lemma mapped_at_Some a l p :
  vmas_wf l → mapped_at a l = Some p ↔ ∃ v, v ∈ l ∧ Vma_contains v a = true ∧ attrs v = p.
Proof.
  intros Hwf. unfold mapped_at. rewrite fmap_Some. split.
  - intros (v & [? ?]%find_spec & ->); [|done]. eauto.
  - intros (v & ? & ? & <-). exists v. split; [by apply find_spec|done].
Qed.

(** ** Removal *)

Definition outside (s e : u64) (v : Vma) : bool := (vma_end v <=? s) || (e <=? vma_start v).

Lemma remove_loop_filter s e l :
  remove_loop s e l = (List.filter (outside s e) l, List.filter (negb ∘ outside s e) l,
    flat_map (split_parts s e) (List.filter (negb ∘ outside s e) l)).
Proof.
  induction l as [|v l IH]; cbn; [done|]. rewrite IH. unfold compose. fold (outside s e v).
  by destruct (outside s e v).
Qed.

(** The parts of an area that overlaps the range are well formed and inside it. *)
Lemma split_parts_ok s e v :
  vma_ok v → is_page_aligned s = true → is_page_aligned e = true → 0 ≤ s < e → outside s e v = false →
  Forall vma_ok (split_parts s e v) ∧ StronglySorted before (split_parts s e v) ∧
  Forall (λ q, vma_start v ≤ vma_start q ∧ vma_end q ≤ vma_end v) (split_parts s e v).
Proof.
  unfold outside, split_parts. intros (Hr & Ha & Hb) Hs He Hse [Ho1 Ho2]%orb_false_iff.
  apply Z.leb_gt in Ho1, Ho2.
  destruct (Z.ltb_spec (vma_start v) s), (Z.ltb_spec e (vma_end v)); cbn [app];
    split_and!; repeat constructor; unfold vma_ok, before; cbn; try done; try lia.
Qed.

Lemma split_parts_attrs s e v a :
  outside s e v = false → s < e →
  (∃ q, q ∈ split_parts s e v ∧ Vma_contains q a = true ∧ attrs q = attrs v) ↔
  Vma_contains v a = true ∧ ¬ (s ≤ a < e).
Proof.
  unfold outside, split_parts, Vma_contains. intros [Ho1 Ho2]%orb_false_iff Hse. apply Z.leb_gt in Ho1, Ho2.
  rewrite andb_true_iff, Z.leb_le, Z.ltb_lt. split.
  - intros (q & Hq & Hc & _). rewrite andb_true_iff, Z.leb_le, Z.ltb_lt in Hc.
    apply elem_of_app in Hq as [Hq|Hq]; case_match eqn:E; try (by apply elem_of_nil in Hq);
      apply list_elem_of_singleton in Hq as ->; apply Z.ltb_lt in E; cbn in Hc; lia.
  - intros [Hc Hn]. destruct (decide (a < s)) as [Ha|Ha].
    + exists (mkVma (vma_start v) s (vma_prot v) (vma_flags v)). cbn.
      rewrite (proj2 (Z.ltb_lt (vma_start v) s)) by lia.
      rewrite (proj2 (Z.leb_le (vma_start v) a)), (proj2 (Z.ltb_lt a s)) by lia.
      split; [set_solver|done].
    + exists (mkVma e (vma_end v) (vma_prot v) (vma_flags v)). cbn.
      rewrite (proj2 (Z.ltb_lt e (vma_end v))) by lia.
      rewrite (proj2 (Z.leb_le e a)), (proj2 (Z.ltb_lt a (vma_end v))) by lia.
      split; [set_solver|done].
Qed.

Lemma split_parts_same_attrs s e v q : q ∈ split_parts s e v → attrs q = attrs v.
Proof.
  unfold split_parts. intros [Hq|Hq]%elem_of_app; case_match; try (by apply elem_of_nil in Hq);
    by apply list_elem_of_singleton in Hq as ->.
Qed.

(** Re-insertion never fails on ordered parts that avoid the list. *)
Lemma reinsert_ok parts l :
  vmas_wf l → Forall vma_ok parts → StronglySorted before parts →
  Forall (λ q, Forall (λ w, apart w q) l) parts →
  ∃ l', reinsert parts l = Some l' ∧ vmas_wf l' ∧ l' ≡ₚ parts ++ l.
Proof.
  intros Hwf Hok Hs. revert l Hwf. induction Hs as [|q parts Hs IH Hq]; intros l Hwf Hap; cbn [reinsert].
  { by exists l. }
  apply Forall_cons in Hok as [Hqok Hok], Hap as [Hqap Hap].
  destruct (insert_ok q l Hqok Hwf Hqap) as (l1 & -> & Hwf1 & Hp1).
  destruct (IH Hok l1 Hwf1) as (l' & Hr & Hwf' & Hp').
  - apply Forall_forall. intros x Hx. rewrite Forall_forall in Hap, Hq. rewrite Hp1.
    constructor; [left; by apply Hq|by apply Hap].
  - exists l'. split; [done|]. split; [done|]. rewrite Hp', Hp1. cbn. symmetry. apply Permutation_middle.
Qed.

Lemma filter_sorted P l : StronglySorted before l → StronglySorted before (List.filter P l).
Proof.
  induction 1 as [|v l Hs IH Hv]; cbn; [constructor|]. destruct (P v); [|done]. constructor; [done|].
  rewrite Forall_forall in *. intros x Hx. apply Hv.
  apply list_elem_of_In, filter_In in Hx as [? _]. by apply list_elem_of_In.
Qed.

Lemma elem_of_list_filter P (l : VmaList) v : v ∈ List.filter P l ↔ v ∈ l ∧ P v = true.
Proof. by rewrite !list_elem_of_In, filter_In. Qed.

Lemma elem_of_flat_map {A B} (f : A → list B) l y : y ∈ flat_map f l ↔ ∃ x, x ∈ l ∧ y ∈ f x.
Proof. rewrite list_elem_of_In, in_flat_map. setoid_rewrite list_elem_of_In. done. Qed.

(** Parts of a sorted list of removed areas are sorted, and apart from the areas kept. *)
Lemma parts_sorted s e l :
  is_page_aligned s = true → is_page_aligned e = true → 0 ≤ s < e → vmas_wf l →
  Forall (λ v, outside s e v = false) l →
  Forall vma_ok (flat_map (split_parts s e) l) ∧ StronglySorted before (flat_map (split_parts s e) l).
Proof.
  intros Has Hae Hse [Hs Hok]. induction Hs as [|v l Hs IH Hv]; intros Ho; [by repeat constructor|].
  apply Forall_cons in Hok as [Hvok Hok], Ho as [Hvo Ho]. destruct (IH Hok Ho) as [IH1 IH2].
  destruct (split_parts_ok s e v) as (Hp1 & Hp2 & Hp3); [done..|]. cbn.
  split; [by apply Forall_app|]. clear IH.
  assert (Hafter : Forall (λ q, vma_end v ≤ vma_start q) (flat_map (split_parts s e) l)).
  { apply Forall_forall. intros q (w & Hw & Hq)%elem_of_flat_map. rewrite Forall_forall in Hv, Hok, Ho.
    destruct (split_parts_ok s e w) as (_ & _ & Hw3); [auto..|]. rewrite Forall_forall in Hw3.
    specialize (Hw3 q Hq). specialize (Hv w Hw). unfold before in Hv. lia. }
  clear -Hp2 Hp3 IH2 Hafter. induction Hp2 as [|q ps Hps IHp Hq]; cbn; [done|].
  apply Forall_cons in Hp3 as [Hq3 Hp3]. constructor; [by apply IHp|]. apply Forall_app. split; [done|].
  eapply Forall_impl; [exact Hafter|]. unfold before. intros x Hx. cbn in Hx. lia.
Qed.

Lemma elem_of_apart l v w : vmas_wf l → v ∈ l → w ∈ l → v = w ∨ apart v w.
Proof.
  intros [Hs _] Hv Hw. induction Hs as [|x l Hs IH Hx]; [by apply elem_of_nil in Hv|].
  rewrite Forall_forall in Hx. unfold apart.
  apply elem_of_cons in Hv as [->|Hv], Hw as [->|Hw]; [by left| | |by apply IH]; right; auto.
Qed.

Lemma remove_run s e l :
  is_page_aligned s = true → is_page_aligned e = true → 0 ≤ s < e → vmas_wf l →
  let removed := List.filter (negb ∘ outside s e) l in
  ∃ l', VmaList_remove s e l = Some (l', match removed with [] => Err NotFound | _ => Ok removed end) ∧
    vmas_wf l' ∧ l' ≡ₚ flat_map (split_parts s e) removed ++ List.filter (outside s e) l.
Proof.
  intros Hs He Hse Hwf removed. pose proof Hwf as [Hsort Hok].
  assert (Hrem : vmas_wf removed ∧ Forall (λ v, outside s e v = false) removed).
  { split; [split; [by apply filter_sorted|]|]; apply Forall_forall; intros v Hv;
      apply elem_of_list_filter in Hv as [Hv Ho]; [rewrite Forall_forall in Hok; auto|].
    unfold compose in Ho. by apply negb_true_iff in Ho. }
  destruct Hrem as [Hrwf Hrout].
  destruct (parts_sorted s e removed) as [Hpok Hps]; [done..|].
  destruct (reinsert_ok (flat_map (split_parts s e) removed) (List.filter (outside s e) l))
    as (l' & Hri & Hwf' & Hperm); [split; [by apply filter_sorted|]| done | done | |].
  - apply Forall_forall. intros v [Hv _]%elem_of_list_filter. rewrite Forall_forall in Hok. auto.
  - apply Forall_forall. intros q (v & Hv & Hq)%elem_of_flat_map. apply Forall_forall.
    intros w [Hw Hwo]%elem_of_list_filter.
    rewrite Forall_forall in Hrout. specialize (Hrout v Hv).
    apply elem_of_list_filter in Hv as [Hv _]. rewrite Forall_forall in Hok.
    destruct (split_parts_ok s e v) as (_ & _ & Hq3); [auto..|]. rewrite Forall_forall in Hq3.
    specialize (Hq3 q Hq). destruct (elem_of_apart l w v Hwf Hw Hv) as [->|Hap]; [congruence|].
    unfold apart, before in *. lia.
  - exists l'. split; [|done]. unfold VmaList_remove.
    destruct (Z.leb_spec e s); [lia|]. rewrite Hs, He. cbn [negb orb].
    rewrite remove_loop_filter. fold removed. by rewrite Hri.
Qed.

Lemma parts_mapped s e l l' a p :
  s < e → vmas_wf l → vmas_wf l' →
  l' ≡ₚ flat_map (split_parts s e) (List.filter (negb ∘ outside s e) l) ++ List.filter (outside s e) l →
  mapped_at a l' = Some p ↔ mapped_at a l = Some p ∧ ¬ (s ≤ a < e).
Proof.
  intros Hse Hwf Hwf' Hperm. rewrite !mapped_at_Some by done. setoid_rewrite Hperm. split.
  - intros (q & [(v & Hv & Hq)%elem_of_flat_map|[Hq Ho]%elem_of_list_filter]%elem_of_app & Hc & <-).
    + apply elem_of_list_filter in Hv as [Hv Ho%negb_true_iff].
      assert (Hva : attrs q = attrs v) by (by eapply split_parts_same_attrs).
      destruct (proj1 (split_parts_attrs s e v a Ho Hse)) as [Hcv Hn]; [by exists q|].
      split; [by exists v|done].
    + split; [by exists q|]. unfold outside, Vma_contains in *.
      rewrite andb_true_iff, orb_true_iff, !Z.leb_le, !Z.ltb_lt in *. lia.
  - intros [(v & Hv & Hc & <-) Hn]. destruct (outside s e v) eqn:Ho.
    + exists v. split; [|done]. apply elem_of_app. right. by apply elem_of_list_filter.
    + destruct (proj2 (split_parts_attrs s e v a Ho Hse)) as (q & Hq & Hcq & Ha); [done|].
      exists q. split; [|done]. apply elem_of_app. left. apply elem_of_flat_map. exists v.
      split; [|done]. apply elem_of_list_filter. split; [done|]. unfold compose. by rewrite Ho.
Qed.

Lemma none_removed_iff s e l :
  s < e → vmas_wf l →
  List.filter (negb ∘ outside s e) l = [] ↔ ∀ a, s ≤ a < e → mapped_at a l = None.
Proof.
  intros Hse Hwf. split.
  - intros Hr a Ha. destruct (mapped_at a l) as [p|] eqn:E; [|done].
    apply mapped_at_Some in E as (v & Hv & Hc & _); [|done]. exfalso.
    assert (Hin : v ∈ List.filter (negb ∘ outside s e) l).
    { apply elem_of_list_filter. split; [done|]. unfold compose, outside, Vma_contains in *.
      apply negb_true_iff, orb_false_iff. rewrite !Z.leb_gt.
      rewrite andb_true_iff, Z.leb_le, Z.ltb_lt in Hc. lia. }
    rewrite Hr in Hin. by apply elem_of_nil in Hin.
  - intros Hnone. destruct (List.filter _ l) as [|v rs] eqn:Er; [done|]. exfalso.
    assert (Hin : v ∈ List.filter (negb ∘ outside s e) l) by (rewrite Er; constructor).
    apply elem_of_list_filter in Hin as [Hv Ho]. unfold compose, outside in Ho.
    apply negb_true_iff, orb_false_iff in Ho as [Ho1 Ho2]. apply Z.leb_gt in Ho1, Ho2.
    pose proof Hwf as [_ Hok]. rewrite Forall_forall in Hok. destruct (Hok v Hv) as [Hr _].
    specialize (Hnone (vma_start v `max` s) ltac:(lia)).
    assert (mapped_at (vma_start v `max` s) l = Some (attrs v)); [|congruence].
    apply mapped_at_Some; [done|]. exists v. split; [done|]. split; [|done]. unfold Vma_contains.
    rewrite andb_true_iff, Z.leb_le, Z.ltb_lt. lia.
Qed.

(** C36: [VmaList::remove] unmaps exactly its range: it does not panic when it
    re-inserts the parts of split areas, keeps the list sorted, disjoint and
    aligned, leaves no address of the range mapped and keeps protection and
    flags of every other address, and it reports NotFound exactly when the
    range meets no area. *)
Theorem VmaList_remove_exact s e l :
  is_page_aligned s = true → is_page_aligned e = true → 0 ≤ s < e → vmas_wf l →
  ∃ l' r, VmaList_remove s e l = Some (l', r) ∧ vmas_wf l' ∧
    (∀ a, mapped_at a l' = if decide (s ≤ a < e) then None else mapped_at a l) ∧
    (r = Err NotFound ↔ ∀ a, s ≤ a < e → mapped_at a l = None).
Proof.
  intros Hs He Hse Hwf. destruct (remove_run s e l Hs He Hse Hwf) as (l' & -> & Hwf' & Hperm).
  eexists _, _. split; [done|]. split; [done|]. split.
  - intros a. apply option_eq. intros p. rewrite (parts_mapped s e l l') by (done || lia).
    case_decide; naive_solver.
  - rewrite <- none_removed_iff by (done || lia). by destruct (List.filter _ l).
Qed.

Definition sample_vmas : VmaList :=
  [mkVma 0x7FFF00000000 0x7FFF00003000 3 0x22; mkVma 0x7FFF00004000 0x7FFF00005000 1 0x22].

Lemma sample_vmas_wf : vmas_wf sample_vmas.
Proof. split; repeat constructor; done. Qed.

Lemma VmaList_remove_exact_witness :
  ∃ l' r, VmaList_remove 0x7FFF00001000 0x7FFF00002000 sample_vmas = Some (l', r) ∧
    mapped_at 0x7FFF00001800 l' = None ∧ mapped_at 0x7FFF00000800 l' = Some (3, 0x22).
Proof.
  destruct (VmaList_remove_exact 0x7FFF00001000 0x7FFF00002000 sample_vmas eq_refl eq_refl
    ltac:(lia) sample_vmas_wf) as (l' & r & H1 & _ & H2 & _).
  exists l', r. split; [done|]. by rewrite !H2.
Defined.

(** [VmaList::insert] keeps the list sorted, disjoint and aligned, maps
    exactly the new area and nothing else, and rejects an area exactly when it
    is empty, unaligned or meets an existing one, changing nothing. *)
Theorem VmaList_insert_exact v l :
  0 ≤ vma_start v → vmas_wf l →
  match VmaList_insert v l with
  | (l', Ok _) => vmas_wf l' ∧
      ∀ a, mapped_at a l' = if Vma_contains v a then Some (attrs v) else mapped_at a l
  | (l', Err InvalidRange) => l' = l ∧ ¬ vma_ok v
  | (l', Err e) => l' = l ∧ e = Overlap ∧ ∃ a, Vma_contains v a = true ∧ mapped_at a l ≠ None
  end.
Proof.
  intros H0 Hwf. pose proof Hwf as [_ Hok]. unfold VmaList_insert.
  destruct (Z.leb_spec (vma_end v) (vma_start v)); [split; [done|]; unfold vma_ok; lia|].
  destruct (is_page_aligned (vma_start v)) eqn:Ha; cbn [negb orb]; [|split; [done|]; intros (_ & ? & _); congruence].
  destruct (is_page_aligned (vma_end v)) eqn:Hb; cbn [negb]; [|split; [done|]; intros (_ & _ & ?); congruence].
  assert (Hv : vma_ok v) by (split_and!; done || lia).
  destruct (VmaList_overlaps_any v l) eqn:Ho.
  - split; [done|]. split; [done|]. apply existsb_exists in Ho as (w & Hw & Hov).
    apply list_elem_of_In in Hw. unfold Vma_overlaps in Hov. rewrite andb_true_iff, !Z.ltb_lt in Hov.
    rewrite Forall_forall in Hok. destruct (Hok w Hw) as [Hr _]. exists (vma_start v `max` vma_start w).
    assert (Hcw : Vma_contains w (vma_start v `max` vma_start w) = true).
    { unfold Vma_contains. rewrite andb_true_iff, Z.leb_le, Z.ltb_lt. lia. }
    split; [unfold Vma_contains; rewrite andb_true_iff, Z.leb_le, Z.ltb_lt; lia|].
    rewrite (proj2 (mapped_at_Some _ l (attrs w) Hwf)); [done|]. by exists w.
  - apply overlaps_any_false in Ho; [|done|done]. pose proof (insert_pos_sorted v l Hv Hwf Ho) as Hwf'.
    split; [done|]. intros a. apply option_eq. intros p. rewrite mapped_at_Some by done.
    setoid_rewrite <- Permutation_middle. rewrite take_drop. setoid_rewrite elem_of_cons.
    destruct (Vma_contains v a) eqn:Hc.
    + split; [|intros [= <-]; exists v; by split; [left|]].
      intros (w & [->|Hw] & Hcw & <-); [done|]. exfalso. rewrite Forall_forall in Ho. specialize (Ho w Hw).
      unfold apart, before, Vma_contains in *. rewrite !andb_true_iff, !Z.leb_le, !Z.ltb_lt in *. lia.
    + rewrite mapped_at_Some by done. split; [|intros (w & ? & ?); exists w; by split; [right|]].
      intros (w & [->|Hw] & Hcw & <-); [congruence|by exists w].
Qed.

Lemma VmaList_insert_exact_witness :
  mapped_at 0x7FFF00003800 (VmaList_insert (mkVma 0x7FFF00003000 0x7FFF00004000 7 0x22) sample_vmas).1
    = Some (7, 0x22).
Proof.
  pose proof (VmaList_insert_exact (mkVma 0x7FFF00003000 0x7FFF00004000 7 0x22) sample_vmas
    ltac:(cbn; lia) sample_vmas_wf) as H.
  destruct (VmaList_insert _ sample_vmas) as [l' [[]|e]] eqn:E; [|vm_compute in E; discriminate].
  destruct H as [_ H]. cbn [fst]. by rewrite H.
Defined.

(** ** The search for a free region *)

Lemma align_up_page size :
  0 ≤ size → size + 4095 < 2 ^ 64 → align_up size PAGE_SIZE = (size + 4095) / 4096 * 4096.
Proof.
  intros H1 H2. unfold align_up, PAGE_SIZE.
  replace (size + 4096 - 1) with (size + 4095) by lia. rewrite wrap_small by (unfold in_width; lia).
  change (4096 - 1) with (Z.ones 12).
  assert (Hz : 0 ≤ size + 4095) by lia. generalize dependent (size + 4095). intros z Hlt Hz. clear size H1.
  change 4096 with (2 ^ 12). rewrite <- Z.shiftr_div_pow2, <- Z.shiftl_mul_pow2 by lia.
  apply Z.bits_inj'. intros n Hn. rewrite Z.land_spec, wnot_testbit by (done || lia).
  destruct (decide (n < 12)).
  - rewrite Z.shiftl_spec_low, Z.testbit_ones_nonneg by lia.
    rewrite (proj2 (Z.ltb_lt n 12)) by lia. by rewrite !andb_false_r.
  - rewrite Z.shiftl_spec, Z.shiftr_spec by lia. rewrite Z.sub_add.
    rewrite Z.testbit_ones_nonneg by lia. rewrite (proj2 (Z.ltb_ge n 12)) by lia.
    destruct (decide (n < 64)); [by rewrite bool_decide_true, andb_true_r by lia|].
    rewrite (in_width_testbit 64 z) by (done || lia). done.
Qed.

(** The downward search looks below the highest area only.  If there is
    room for the request between the start of the mmap region and the highest
    area, the result ends where that area starts, whatever lies below; it meets
    an existing area exactly when one reaches into it. *)
Theorem find_free_region_ignores_lower size l v :
  0 < size → size + 4095 < 2 ^ 64 → vmas_wf (l ++ [v]) → vma_start v ≤ MMAP_REGION_END →
  MMAP_REGION_START ≤ vma_start v - align_up size PAGE_SIZE →
  let r := vma_start v - align_up size PAGE_SIZE in
  find_free_region size None (l ++ [v]) = Some r ∧
  (VmaList_overlaps_any (mkVma r (vma_start v) 0 0) (l ++ [v]) = true ↔ ∃ w, w ∈ l ∧ r < vma_end w).
Proof.
  intros H1 H2 [Hs Hok] Hend Hroom r. unfold find_free_region, search_free. rewrite rev_app_distr. cbn [rev app].
  pose proof (align_up_page size ltac:(lia) H2) as Ha.
  assert (Hpos : 0 < align_up size PAGE_SIZE).
  { rewrite Ha. pose proof (Z.div_le_lower_bound (size + 4095) 4096 1 ltac:(lia) ltac:(lia)). lia. }
  cbn [search_down]. unfold MMAP_REGION_START in *.
  rewrite !(proj2 (Z.leb_le _ _)) by (unfold MMAP_REGION_START; lia). cbn [andb]. split; [done|].
  unfold VmaList_overlaps_any. rewrite existsb_exists. setoid_rewrite <- list_elem_of_In.
  assert (Hb : ∀ w, w ∈ l → vma_end w ≤ vma_start v).
  { clear -Hs. induction l as [|x l IH]; [by intros w ?%elem_of_nil|].
    cbn in Hs. apply StronglySorted_inv in Hs as [Hs Hx]. intros w [->|Hw]%elem_of_cons; [|by apply IH].
    rewrite Forall_forall in Hx. apply (Hx v). set_solver. }
  apply Forall_app in Hok as [Hok _]. rewrite Forall_forall in Hok.
  unfold Vma_overlaps. cbn. split.
  - intros (w & Hw & Ho). rewrite andb_true_iff, !Z.ltb_lt in Ho.
    apply elem_of_app in Hw as [Hw| ->%list_elem_of_singleton]; [exists w; split; [done|lia]|lia].
  - intros (w & Hw & Hr). exists w. split; [set_solver|]. specialize (Hb w Hw). destruct (Hok w Hw) as [? _].
    rewrite andb_true_iff, !Z.ltb_lt. lia.
Qed.

(** Two pages requested, one page free below the highest area. *)
Lemma find_free_region_ignores_lower_witness :
  find_free_region 0x2000 None sample_vmas = Some 0x7FFF00002000 ∧
  VmaList_overlaps_any (mkVma 0x7FFF00002000 0x7FFF00004000 0 0) sample_vmas = true.
Proof.
  destruct (find_free_region_ignores_lower 0x2000 [mkVma 0x7FFF00000000 0x7FFF00003000 3 0x22]
    (mkVma 0x7FFF00004000 0x7FFF00005000 1 0x22) ltac:(lia) ltac:(lia) sample_vmas_wf ltac:(by vm_compute)
    ltac:(by vm_compute)) as [H1 H2].
  split; [exact H1|]. apply H2. eexists. split; [by constructor|by vm_compute].
Defined.
