(* ===== verification/BlockDev.v ===== *)
(** * Block devices

    Model of [kernel/src/block/mod.rs] and of the x86_64 half of
    [kernel/src/block/virtio.rs].  [BlockDevice] is the trait; its laws are a
    second class, so that the file system can be verified against the
    interface.  [MemDisk] is an in-memory device (the device of the unit tests
    of [fs/ext2/block_group.rs]) that satisfies the laws;
    [VirtioBlockWrapper] turns a sector driver into a block device.

    Every caller in the kernel passes [read_block] a buffer of exactly one
    device block, so the operation returns the bytes that end up in that
    buffer. *)

From S2P Require Import Prelude Bytes.

Inductive BlockError :=
  | IoError
  | OutOfBounds
  | DeviceNotReady
  | Timeout.

#[global] Instance BlockError_eq_dec : EqDecision BlockError.
Proof. solve_decision. Defined.

(** [impl From<&'static str> for BlockError] *)
Definition BlockError_from (s : string) : BlockError :=
  if bool_decide (s = "Sector out of range"%string) ||
     bool_decide (s = "Start sector out of range"%string) then OutOfBounds
  else if bool_decide (s = "Read request timed out"%string) ||
          bool_decide (s = "Write request timed out"%string) then Timeout
  else if bool_decide (s = "Block device not initialized"%string) then DeviceNotReady
  else IoError.

Class BlockDevice (D : Type) := {
  read_block : D → u64 → result (list u8) BlockError;
  write_block : D → u64 → list u8 → D * result unit BlockError;
  dev_block_size : D → Z;
  num_blocks : D → u64;
  flush : D → result unit BlockError;
}.

(** The documented behaviour of a device: a completed write is what later
    reads of that block return, and it changes nothing else. *)
Class BlockDeviceLaws (D : Type) `{BlockDevice D} := {
  dev_block_size_pos (d : D) : 0 < dev_block_size d;
  dev_block_size_write (d : D) n b : dev_block_size (fst (write_block d n b)) = dev_block_size d;
  num_blocks_write (d : D) n b : num_blocks (fst (write_block d n b)) = num_blocks d;
  read_block_length (d : D) n b :
    read_block d n = Ok b → Z.of_nat (length b) = dev_block_size d;
  read_block_write (d d' : D) n b :
    write_block d n b = (d', Ok tt) → Z.of_nat (length b) = dev_block_size d →
    read_block d' n = Ok b;
  read_block_write_ne (d d' : D) n b n' :
    write_block d n b = (d', Ok tt) → n ≠ n' → read_block d' n' = read_block d n';
}.

(** A device on which no transfer inside its bounds fails. *)
Class ReliableDevice (D : Type) `{BlockDevice D} := {
  read_block_ok (d : D) n : 0 ≤ n < num_blocks d → is_ok (read_block d n) = true;
  write_block_ok (d : D) n b :
    0 ≤ n < num_blocks d → Z.of_nat (length b) = dev_block_size d →
    snd (write_block d n b) = Ok tt;
}.

Section device.
Context {D : Type} `{BlockDevice D}.

(** The loop of the default [read_blocks]: block [start + i] goes to
    [buf[i * block_size..(i + 1) * block_size]]. *)
Fixpoint read_blocks_from (d : D) (start : u64) (n i : nat) (buf : list u8)
    : result (list u8) BlockError :=
  match n with
  | O => Ok buf
  | S n =>
      match read_block d (wrap 64 (start + Z.of_nat i)) with
      | Err e => Err e
      | Ok data =>
          read_blocks_from d start n (S i)
            (list_inserts (i * Z.to_nat (dev_block_size d)) data buf)
      end
  end.

Definition saturating_mul (a b : Z) : Z := Z.min (a * b) (2 ^ 64 - 1).

Definition read_blocks (d : D) (start_block : u64) (block_count : Z) (buf : list u8)
    : result (list u8) BlockError :=
  if Z.of_nat (length buf) <? saturating_mul block_count (dev_block_size d) then Err IoError
  else read_blocks_from d start_block (Z.to_nat block_count) 0 buf.
End device.

(** ** An in-memory device *)

Record MemDisk := mkMemDisk {
  md_block_size : positive;
  md_count : Z;
  md_data : gmap Z (list u8);
}.

#[global] Instance MemDisk_device : BlockDevice MemDisk := {
  read_block d n :=
    if (0 <=? n) && (n <? md_count d)
    then Ok (resize (Pos.to_nat (md_block_size d)) 0 (default [] (md_data d !! n)))
    else Err OutOfBounds;
  write_block d n b :=
    if (0 <=? n) && (n <? md_count d)
    then (mkMemDisk (md_block_size d) (md_count d) (<[n := b]> (md_data d)), Ok tt)
    else (d, Err OutOfBounds);
  dev_block_size d := Z.pos (md_block_size d);
  num_blocks := md_count;
  flush _ := Ok tt;
}.

#[global] Instance MemDisk_laws : BlockDeviceLaws MemDisk.
Proof.
  split; cbn.
  - lia.
  - intros. by case_match.
  - intros. by case_match.
  - intros d n b Hr. case_match; simplify_eq. rewrite length_resize. lia.
  - intros d d' n b Hw Hb. case_match eqn:Hn; simplify_eq/=. rewrite Hn, lookup_insert_eq. cbn.
    by rewrite resize_all_alt by lia.
  - intros d d' n b n' Hw Hne. case_match; simplify_eq/=. by rewrite lookup_insert_ne.
Qed.

#[global] Instance MemDisk_reliable : ReliableDevice MemDisk.
Proof.
  split; cbn.
  - intros d n Hn. by rewrite (proj2 (Z.leb_le _ _)), (proj2 (Z.ltb_lt _ _)) by lia.
  - intros d n b Hn _. by rewrite (proj2 (Z.leb_le _ _)), (proj2 (Z.ltb_lt _ _)) by lia.
Qed.

(** ** The VirtIO wrapper *)

Definition SECTOR_SIZE : Z := 512.

(** What the wrapper needs of the sector driver. *)
Class SectorDriver (S : Type) := {
  read_sector : S → u64 → result (list u8) string;
  write_sector : S → u64 → list u8 → S * result unit string;
  capacity : S → u64;
}.

Record VirtioBlockWrapper (S : Type) := mkVirtio {
  vb_device : S;
  vb_block_size : Z;
}.
Arguments mkVirtio {S}.
Arguments vb_device {S}.
Arguments vb_block_size {S}.

Definition res_map_err {A E E'} (f : E → E') (r : result A E) : result A E' :=
  match r with Ok a => Ok a | Err e => Err (f e) end.

Section virtio.
Context {S : Type} `{SectorDriver S}.

(** [VirtioBlockWrapper::new] for an existing device *)
Definition VirtioBlockWrapper_new (device : S) : VirtioBlockWrapper S :=
  mkVirtio device SECTOR_SIZE.

Definition virtio_read_block (w : VirtioBlockWrapper S) (block_num : u64)
    : result (list u8) BlockError :=
  if capacity (vb_device w) <=? block_num then Err OutOfBounds
  else res_map_err BlockError_from (read_sector (vb_device w) block_num).

Definition virtio_write_block (w : VirtioBlockWrapper S) (block_num : u64) (buf : list u8)
    : VirtioBlockWrapper S * result unit BlockError :=
  if Z.of_nat (length buf) <? vb_block_size w then (w, Err IoError)
  else if capacity (vb_device w) <=? block_num then (w, Err OutOfBounds)
  else
    let '(dev, r) := write_sector (vb_device w) block_num buf in
    (mkVirtio dev (vb_block_size w), res_map_err BlockError_from r).

#[global] Instance Virtio_device : BlockDevice (VirtioBlockWrapper S) := {
  read_block := virtio_read_block;
  write_block := virtio_write_block;
  dev_block_size := vb_block_size;
  num_blocks w := capacity (vb_device w);
  flush _ := Ok tt;
}.
End virtio.
