(* ===== verification/Ext2Dir.v ===== *)
(** * ext2 directory blocks

    Model of [kernel/src/fs/ext2/dir.rs]: the directory iterator
    ([DirReader]), lookups by name, and the in-place edits of a directory's
    data ([add_directory_entry], [remove_entry], [update_directory_entry]).

    A Rust [&str] or [String] is the list of its UTF-8 bytes; the two decoders
    of the standard library the source calls ([core::str::from_utf8] and
    [String::from_utf8_lossy]) are written out.  The loops over the records
    run with one unit of fuel per byte of the data, more than the number of
    records because every record is at least eight bytes long.  [None] is a
    panic (a slice index out of range).

    [Rec] is the abstract record; [dir_encode] lays a list of records out as
    the bytes the code works on.  [dir_rep] says that some bytes hold the
    entries of a finite map from names to inodes; the theorems show that the
    operations on bytes implement the operations on that map. *)

From S2P Require Import Prelude Bytes.

(** ** UTF-8 *)

Definition utf8_cont (b : u8) : bool := (0x80 <=? b) && (b <=? 0xBF).

(** The legal second bytes after a three- and a four-byte lead. *)
Definition utf8_second3 (b0 b1 : u8) : bool :=
  if b0 =? 0xE0 then (0xA0 <=? b1) && (b1 <=? 0xBF)
  else if b0 =? 0xED then (0x80 <=? b1) && (b1 <=? 0x9F)
  else utf8_cont b1.

Definition utf8_second4 (b0 b1 : u8) : bool :=
  if b0 =? 0xF0 then (0x90 <=? b1) && (b1 <=? 0xBF)
  else if b0 =? 0xF4 then (0x80 <=? b1) && (b1 <=? 0x8F)
  else utf8_cont b1.

(** Whether the bytes start with a well-formed character, and the length of
    that character or of the maximal ill-formed sequence. *)
Definition utf8_next (bs : list u8) : bool * nat :=
  let b0 := nth 0 bs 0 in
  let b1 := nth 1 bs 0 in
  let b2 := nth 2 bs 0 in
  let b3 := nth 3 bs 0 in
  if b0 <? 0x80 then (true, 1%nat)
  else if (0xC2 <=? b0) && (b0 <=? 0xDF) then
    if utf8_cont b1 then (true, 2%nat) else (false, 1%nat)
  else if (0xE0 <=? b0) && (b0 <=? 0xEF) then
    if utf8_second3 b0 b1 then
      if utf8_cont b2 then (true, 3%nat) else (false, 2%nat)
    else (false, 1%nat)
  else if (0xF0 <=? b0) && (b0 <=? 0xF4) then
    if utf8_second4 b0 b1 then
      if utf8_cont b2 then
        if utf8_cont b3 then (true, 4%nat) else (false, 3%nat)
      else (false, 2%nat)
    else (false, 1%nat)
  else (false, 1%nat).

Fixpoint utf8_valid_fuel (fuel : nat) (bs : list u8) : bool :=
  match fuel, bs with
  | _, [] => true
  | O, _ => false
  | S fuel, _ =>
      let '(ok, n) := utf8_next bs in ok && utf8_valid_fuel fuel (drop n bs)
  end.

(** [core::str::from_utf8(bs).is_ok()] *)
Definition utf8_valid (bs : list u8) : bool := utf8_valid_fuel (length bs) bs.

Fixpoint utf8_lossy_fuel (fuel : nat) (bs : list u8) : list u8 :=
  match fuel, bs with
  | _, [] => []
  | O, _ => []
  | S fuel, _ =>
      let '(ok, n) := utf8_next bs in
      (if ok then take n bs else [0xEF; 0xBF; 0xBD]) ++ utf8_lossy_fuel fuel (drop n bs)
  end.

(** [String::from_utf8_lossy(bs)] *)
Definition utf8_lossy (bs : list u8) : list u8 := utf8_lossy_fuel (length bs) bs.

Lemma utf8_lossy_valid bs : utf8_valid bs = true → utf8_lossy bs = bs.
Proof.
  unfold utf8_valid, utf8_lossy. generalize (length bs) as fuel. intros fuel. revert bs.
  induction fuel as [|fuel IH]; intros [|b bs] Hv; try done.
  cbn [utf8_valid_fuel utf8_lossy_fuel] in *. destruct (utf8_next (b :: bs)) as [ok n].
  apply andb_true_iff in Hv as [-> Hv]. rewrite IH by done. apply take_drop.
Qed.

(** The bytes of a string literal. *)
Fixpoint bytes (s : string) : list u8 :=
  match s with
  | EmptyString => []
  | String c s => Z.of_nat (Ascii.nat_of_ascii c) :: bytes s
  end.

(** ** Entries and the iterator *)

Definition EXT2_FT_UNKNOWN : u8 := 0.
Definition EXT2_FT_REG_FILE : u8 := 1.
Definition EXT2_FT_DIR : u8 := 2.
Definition EXT2_FT_CHRDEV : u8 := 3.
Definition EXT2_FT_BLKDEV : u8 := 4.
Definition EXT2_FT_FIFO : u8 := 5.
Definition EXT2_FT_SOCK : u8 := 6.
Definition EXT2_FT_SYMLINK : u8 := 7.

(** The fixed part of an entry, as read from the packed bytes. *)
Record Ext2DirEntryRaw := mkRaw {
  raw_inode : u32;
  raw_rec_len : u16;
  raw_name_len : u8;
  raw_file_type : u8;
}.

Record DirEntry := mkDirEntry {
  de_inode : u32;
  de_file_type : u8;
  de_name : list u8;
}.

#[global] Instance DirEntry_eq_dec : EqDecision DirEntry.
Proof. solve_decision. Defined.

Definition is_dot (e : DirEntry) : bool := bool_decide (de_name e = bytes ".").
Definition is_dotdot (e : DirEntry) : bool := bool_decide (de_name e = bytes "..").
Definition is_dir_entry (e : DirEntry) : bool := de_file_type e =? EXT2_FT_DIR.
Definition is_file_entry (e : DirEntry) : bool := de_file_type e =? EXT2_FT_REG_FILE.

(** [&data[off..off + n]] where the range is known to be inside. *)
Definition slice (data : list u8) (off n : nat) : list u8 := take n (drop off data).

Definition MIN_DIR_ENTRY_SIZE : nat := 8.

(** The header at [off]; every caller has checked [off + 8 <= data.len()]. *)
Definition read_header (data : list u8) (off : nat) : Ext2DirEntryRaw :=
  mkRaw (le_value (slice data off 4)) (le_value (slice data (off + 4) 2))
        (nth (off + 6) data 0) (nth (off + 7) data 0).

(** [rec_len == 0 || rec_len < 8] *)
Definition bad_rec_len (h : Ext2DirEntryRaw) : bool :=
  (raw_rec_len h =? 0) || (raw_rec_len h <? 8).

Definition rec_len_nat (h : Ext2DirEntryRaw) : nat := Z.to_nat (raw_rec_len h).
Definition name_len_nat (h : Ext2DirEntryRaw) : nat := Z.to_nat (raw_name_len h).

(** [Iterator::next]: the next live entry and the advanced offset. *)
Fixpoint DirReader_next (fuel : nat) (data : list u8) (offset : nat) : option DirEntry * nat :=
  match fuel with
  | O => (None, offset)
  | S fuel =>
      if decide (length data ≤ offset)%nat then (None, offset)
      else if decide (length data < offset + 8)%nat then (None, offset)
      else
        let h := read_header data offset in
        if bad_rec_len h then (None, offset)
        else if decide (length data < offset + rec_len_nat h)%nat then (None, offset)
        else
          let name_offset := (offset + 8)%nat in
          let offset := (offset + rec_len_nat h)%nat in
          if raw_inode h =? 0 then DirReader_next fuel data offset
          else if (raw_name_len h =? 0) ||
                  bool_decide (length data < name_offset + name_len_nat h)%nat
          then (None, offset)
          else
            (Some (mkDirEntry (raw_inode h) (raw_file_type h)
                     (utf8_lossy (slice data name_offset (name_len_nat h)))), offset)
  end.

(** [collect()] of the iterator started at [offset]. *)
Fixpoint DirReader_collect (fuel : nat) (data : list u8) (offset : nat) : list DirEntry :=
  match fuel with
  | O => []
  | S fuel' =>
      match DirReader_next fuel data offset with
      | (Some e, offset) => e :: DirReader_collect fuel' data offset
      | (None, _) => []
      end
  end.

Definition parse_directory (data : list u8) : list DirEntry :=
  DirReader_collect (S (length data)) data 0.

(** [DirReader::new(data).find(|e| e.name == name)]: the iterator is lazy,
    but its items do not depend on where it is stopped. *)
Definition find_entry (data : list u8) (name : list u8) : option DirEntry :=
  head (filter (λ e, de_name e = name) (parse_directory data)).

Definition is_directory_empty (dir_data : list u8) : bool :=
  forallb (λ e, is_dot e || is_dotdot e) (parse_directory dir_data).

(** ** Locating and removing an entry *)

Record DirEntryLocation := mkLoc {
  loc_entry : DirEntry;
  loc_offset : nat;
  loc_rec_len : u16;
  loc_prev : option (nat * u16); (* prev_offset and prev_rec_len, set together *)
}.

Fixpoint find_entry_location_from (fuel : nat) (data name : list u8) (offset : nat)
    (prev : option (nat * u16)) : option DirEntryLocation :=
  match fuel with
  | O => None
  | S fuel =>
      if decide (length data ≤ offset)%nat then None
      else if decide (length data < offset + 8)%nat then None
      else
        let h := read_header data offset in
        if bad_rec_len h then None
        else if decide (length data < offset + rec_len_nat h)%nat then None
        else
          let name_offset := (offset + 8)%nat in
          let entry_name := slice data name_offset (name_len_nat h) in
          if negb (raw_inode h =? 0) &&
             bool_decide (name_offset + name_len_nat h ≤ length data)%nat &&
             utf8_valid entry_name && bool_decide (entry_name = name)
          then Some (mkLoc (mkDirEntry (raw_inode h) (raw_file_type h) entry_name)
                       offset (raw_rec_len h) prev)
          else
            find_entry_location_from fuel data name (offset + rec_len_nat h)
              (Some (offset, raw_rec_len h))
  end.

Definition find_entry_location (data name : list u8) : option DirEntryLocation :=
  find_entry_location_from (S (length data)) data name 0 None.

(** The data and the inode of the removed entry. *)
Definition remove_entry (data name : list u8) : result (list u8 * u32) string :=
  if bool_decide (name = bytes ".") || bool_decide (name = bytes "..")
  then Err "Cannot remove . or .."%string
  else
    match find_entry_location data name with
    | None => Err "Entry not found"%string
    | Some location =>
        let removed_inode := de_inode (loc_entry location) in
        match loc_prev location with
        | Some (prev_off, prev_rec) =>
            let new_prev_rec_len := wrap 16 (prev_rec + loc_rec_len location) in
            let data := <[(prev_off + 4)%nat := Z.land new_prev_rec_len 0xFF]> data in
            let data :=
              <[(prev_off + 5)%nat := Z.land (Z.shiftr new_prev_rec_len 8) 0xFF]> data in
            Ok (data, removed_inode)
        | None => Ok (list_inserts (loc_offset location) [0; 0; 0; 0] data, removed_inode)
        end
    end.

(** ** Adding and updating entries *)

Definition required_entry_size (name_len : nat) : nat :=
  let raw_size := (MIN_DIR_ENTRY_SIZE + name_len)%nat in
  Z.to_nat (Z.land (Z.of_nat (raw_size + 3)) (wnot 64 3)).

(** [None]: one of the slices does not fit in the data. *)
Definition write_dir_entry (dir_data : list u8) (offset : nat) (inode : u32) (rec_len : u16)
    (name : list u8) (file_type : u8) : option (list u8) :=
  if decide (length dir_data < offset + 8 + length name)%nat then None
  else
    let dir_data := list_inserts offset (le_bytes 4 inode) dir_data in
    let dir_data := list_inserts (offset + 4) (le_bytes 2 rec_len) dir_data in
    let dir_data := <[(offset + 6)%nat := wrap 8 (Z.of_nat (length name))]> dir_data in
    let dir_data := <[(offset + 7)%nat := file_type]> dir_data in
    let dir_data := list_inserts (offset + 8) name dir_data in
    let fill := (Z.to_nat rec_len - (8 + length name))%nat in
    Some (list_inserts (offset + 8 + length name) (replicate fill 0) dir_data).

Fixpoint add_entry_from (fuel : nat) (dir_data : list u8) (new_inode : u32) (name : list u8)
    (file_type : u8) (offset : nat) : option (result (list u8) string) :=
  match fuel with
  | O => None
  | S fuel =>
      if decide (length dir_data ≤ offset)%nat then Some (Err "No space in directory"%string)
      else if decide (length dir_data < offset + MIN_DIR_ENTRY_SIZE)%nat
      then Some (Err "No space in directory"%string)
      else
        let h := read_header dir_data offset in
        let rec_len := rec_len_nat h in
        let new_entry_size := required_entry_size (length name) in
        if bad_rec_len h then Some (Err "Corrupt directory entry"%string)
        else if raw_inode h =? 0 then
          if decide (new_entry_size ≤ rec_len)%nat
          then Ok <$> write_dir_entry dir_data offset new_inode (raw_rec_len h) name file_type
          else add_entry_from fuel dir_data new_inode name file_type (offset + rec_len)
        else
          let actual_size := required_entry_size (name_len_nat h) in
          if decide (new_entry_size ≤ rec_len - actual_size)%nat then
            let existing_new_rec_len := wrap 16 (Z.of_nat actual_size) in
            let new_entry_rec_len := wrap 16 (Z.of_nat (rec_len - actual_size)) in
            let dir_data := <[(offset + 4)%nat := wrap 8 existing_new_rec_len]> dir_data in
            let dir_data :=
              <[(offset + 5)%nat := wrap 8 (Z.shiftr existing_new_rec_len 8)]> dir_data in
            Ok <$> write_dir_entry dir_data (offset + actual_size) new_inode new_entry_rec_len
                     name file_type
          else add_entry_from fuel dir_data new_inode name file_type (offset + rec_len)
  end.

Definition add_directory_entry (dir_data : list u8) (new_inode : u32) (name : list u8)
    (file_type : u8) : option (result (list u8) string) :=
  if bool_decide (name = []) || bool_decide (255 < length name)%nat
  then Some (Err "Invalid name length"%string)
  else add_entry_from (S (length dir_data)) dir_data new_inode name file_type 0.

Fixpoint update_entry_from (fuel : nat) (dir_data name : list u8) (new_inode : u32)
    (offset : nat) : result (list u8) string :=
  match fuel with
  | O => Err "Entry not found"%string
  | S fuel =>
      if decide (length dir_data ≤ offset)%nat then Err "Entry not found"%string
      else if decide (length dir_data < offset + MIN_DIR_ENTRY_SIZE)%nat
      then Err "Entry not found"%string
      else
        let h := read_header dir_data offset in
        let entry_name_offset := (offset + MIN_DIR_ENTRY_SIZE)%nat in
        if bad_rec_len h then Err "Corrupt directory entry"%string
        else if negb (raw_inode h =? 0) &&
                bool_decide (name_len_nat h = length name) &&
                bool_decide (entry_name_offset + name_len_nat h ≤ length dir_data)%nat &&
                bool_decide (slice dir_data entry_name_offset (name_len_nat h) = name)
        then Ok (list_inserts offset (le_bytes 4 new_inode) dir_data)
        else update_entry_from fuel dir_data name new_inode (offset + rec_len_nat h)
  end.

Definition update_directory_entry (dir_data name : list u8) (new_inode : u32)
    : result (list u8) string :=
  update_entry_from (S (length dir_data)) dir_data name new_inode 0.

(** ** Abstract records *)

Record Rec := mkRec {
  r_inode : u32;
  r_type : u8;
  r_name : list u8;
  r_pad : list u8;
}.

Definition r_size (r : Rec) : nat := (8 + length (r_name r) + length (r_pad r))%nat.

Definition rec_encode (r : Rec) : list u8 :=
  le_bytes 4 (r_inode r) ++ le_bytes 2 (Z.of_nat (r_size r)) ++
  [Z.of_nat (length (r_name r)); r_type r] ++ r_name r ++ r_pad r.

Definition dir_encode (rs : list Rec) : list u8 := concat (map rec_encode rs).

Definition live (r : Rec) : Prop := r_inode r ≠ 0.

#[global] Instance live_dec r : Decision (live r).
Proof. unfold live. apply _. Defined.

Definition entry_of (r : Rec) : DirEntry := mkDirEntry (r_inode r) (r_type r) (r_name r).

Definition dir_entries (rs : list Rec) : list DirEntry := map entry_of (filter live rs).

Record wf_rec (r : Rec) : Prop := {
  wf_inode : in_width 32 (r_inode r);
  wf_name_len : (length (r_name r) ≤ 255)%nat;
  wf_size : Z.of_nat (r_size r) < 65536;
  wf_live : live r → r_name r ≠ [] ∧ utf8_valid (r_name r) = true;
  wf_fits : live r → (required_entry_size (length (r_name r)) ≤ r_size r)%nat;
}.

Lemma length_rec_encode r : length (rec_encode r) = r_size r.
Proof.
  unfold rec_encode, r_size. rewrite !length_app, !length_le_bytes. cbn. lia.
Qed.

Lemma dir_encode_app rs rs' : dir_encode (rs ++ rs') = dir_encode rs ++ dir_encode rs'.
Proof. unfold dir_encode. by rewrite map_app, concat_app. Qed.

Lemma dir_encode_cons r rs : dir_encode (r :: rs) = rec_encode r ++ dir_encode rs.
Proof. done. Qed.

(** Every record is at least eight bytes, so the byte count bounds the
    number of records: the fuel of the loops is enough. *)
Lemma length_dir_encode rs : (length rs ≤ length (dir_encode rs))%nat.
Proof.
  induction rs as [|r rs IH]; [done|].
  rewrite dir_encode_cons, length_app, length_rec_encode. unfold r_size. cbn. lia.
Qed.

(** What the loops read at the start of a record. *)
Definition rec_header (r : Rec) : Ext2DirEntryRaw :=
  mkRaw (r_inode r) (Z.of_nat (r_size r)) (Z.of_nat (length (r_name r))) (r_type r).

Lemma le_value_bytes_id n z :
  0 ≤ z < 256 ^ Z.of_nat n → le_value (le_bytes n z) = z.
Proof. intros Hz. rewrite le_value_bytes. by apply Z.mod_small. Qed.

Lemma read_header_encode pre r post off :
  wf_rec r → off = length pre →
  read_header (pre ++ rec_encode r ++ post) off = rec_header r.
Proof.
  intros [Hi Hn Hs _ _] ->. unfold read_header, rec_header, rec_encode, slice. f_equal.
  - rewrite <- !(assoc_L (++)). rewrite take_drop_mid by (done || by rewrite length_le_bytes).
    apply le_value_bytes_id. exact Hi.
  - rewrite <- !(assoc_L (++)), (assoc_L (++) pre).
    rewrite take_drop_mid by (rewrite ?length_app, ?length_le_bytes; cbn; lia).
    apply le_value_bytes_id. change (256 ^ Z.of_nat 2) with 65536. lia.
  - rewrite <- !(assoc_L (++)). rewrite app_nth2_plus.
    rewrite app_nth2 by (rewrite length_le_bytes; lia). rewrite length_le_bytes.
    by rewrite app_nth2, length_le_bytes by (rewrite length_le_bytes; lia).
  - rewrite <- !(assoc_L (++)). rewrite app_nth2_plus.
    rewrite app_nth2 by (rewrite length_le_bytes; lia). rewrite length_le_bytes.
    by rewrite app_nth2, length_le_bytes by (rewrite length_le_bytes; lia).
Qed.

Lemma slice_name_encode pre r post off n :
  off = (length pre + 8)%nat → n = length (r_name r) →
  slice (pre ++ rec_encode r ++ post) off n = r_name r.
Proof.
  intros -> ->. unfold slice, rec_encode. rewrite <- !(assoc_L (++)).
  rewrite !(assoc_L (++) pre), (assoc_L (++) (pre ++ _)).
  rewrite (assoc_L (++) ((pre ++ _) ++ _)).
  apply take_drop_mid; [|done]. rewrite !length_app, !length_le_bytes. cbn. lia.
Qed.

Lemma rec_header_ok r : bad_rec_len (rec_header r) = false.
Proof.
  unfold bad_rec_len, rec_header, r_size. cbn [raw_rec_len].
  apply orb_false_iff. split; [apply Z.eqb_neq|apply Z.ltb_ge]; lia.
Qed.

Lemma rec_len_nat_header r : rec_len_nat (rec_header r) = r_size r.
Proof. unfold rec_len_nat, rec_header. cbn. lia. Qed.

Lemma name_len_nat_header r : name_len_nat (rec_header r) = length (r_name r).
Proof. unfold name_len_nat, rec_header. cbn. lia. Qed.

(** ** The loops on encoded records

    Each loop is described on [dir_encode pre ++ dir_encode rs], standing at
    the first record of [rs]. *)

Lemma length_at_record pre r post :
  length (pre ++ rec_encode r ++ post) = (length pre + r_size r + length post)%nat.
Proof. rewrite !length_app, length_rec_encode. lia. Qed.

(** One unrolling of a loop at a record: the bound checks pass and the header
    is the record's. *)
Ltac enter_record :=
  rewrite !length_at_record;
  repeat (rewrite decide_False by (unfold r_size, MIN_DIR_ENTRY_SIZE; lia));
  rewrite read_header_encode by done;
  rewrite rec_header_ok, ?rec_len_nat_header, ?name_len_nat_header;
  repeat (rewrite decide_False by (unfold r_size; lia));
  cbn [raw_inode raw_rec_len raw_name_len raw_file_type rec_header].

Ltac step_record pre r :=
  rewrite dir_encode_cons, (assoc_L (++)) in *;
  replace (length pre + r_size r)%nat with (length (pre ++ rec_encode r))
    by (rewrite length_app, length_rec_encode; lia).

Lemma DirReader_next_encode rs pre fuel :
  Forall wf_rec rs → (length rs < fuel)%nat →
  match filter live rs with
  | [] => fst (DirReader_next fuel (pre ++ dir_encode rs) (length pre)) = None
  | r :: live_rest =>
      ∃ skipped rest, rs = skipped ++ r :: rest ∧ filter live rest = live_rest ∧
        DirReader_next fuel (pre ++ dir_encode rs) (length pre) =
        (Some (entry_of r), (length pre + length (dir_encode (skipped ++ [r])))%nat)
  end.
Proof.
  intros Hwf. revert pre fuel. induction Hwf as [|r rs Hr Hrs IH]; intros pre fuel Hf.
  { destruct fuel; [lia|]. cbn. rewrite app_nil_r, decide_True by lia. done. }
  destruct fuel as [|fuel]; [cbn in Hf; lia|]. cbn in Hf.
  rewrite filter_cons. cbn [DirReader_next]. rewrite dir_encode_cons.
  destruct (decide (live r)) as [Hl|Hl]; [exists [], rs; do 2 (split; [done|])|]; enter_record.
  - rewrite (proj2 (Z.eqb_neq _ _)) by done.
    destruct (wf_live r Hr Hl) as [Hne Hu].
    rewrite (proj2 (Z.eqb_neq _ _)) by (destruct (r_name r); cbn; [done|lia]).
    rewrite bool_decide_false by (unfold r_size; lia). cbn [orb].
    rewrite slice_name_encode, utf8_lossy_valid by done.
    cbn [app]. rewrite dir_encode_cons, length_app, length_rec_encode. cbn. f_equal. lia.
  - unfold live in Hl. apply dec_stable in Hl. rewrite (proj2 (Z.eqb_eq _ _)) by done.
    specialize (IH (pre ++ rec_encode r) fuel ltac:(lia)).
    rewrite (assoc_L (++)). rewrite length_app, length_rec_encode in IH.
    destruct (filter live rs) as [|r' lr]; [done|].
    destruct IH as (sk & rest & -> & Hlr & ->). exists (r :: sk), rest.
    split; [done|]. split; [done|]. cbn [app]. rewrite dir_encode_cons, length_app, length_rec_encode.
    f_equal. lia.
Qed.

Lemma DirReader_collect_encode n : ∀ rs pre fuel,
  length rs = n → Forall wf_rec rs → (length rs < fuel)%nat →
  DirReader_collect fuel (pre ++ dir_encode rs) (length pre) = dir_entries rs.
Proof.
  induction (lt_wf n) as [n _ IH]. intros rs pre fuel <- Hwf Hf.
  destruct fuel as [|fuel]; [lia|]. cbn [DirReader_collect]. unfold dir_entries.
  pose proof (DirReader_next_encode rs pre (S fuel) Hwf Hf) as Hn.
  destruct (filter live rs) as [|r lr].
  - destruct (DirReader_next _ _ _) as [[] ?]; [done|done].
  - destruct Hn as (sk & rest & -> & <- & ->). cbn [map]. f_equal.
    rewrite cons_middle, (assoc_L (++)), dir_encode_app, (assoc_L (++)), <- length_app.
    rewrite length_app in Hf. cbn in Hf.
    apply (IH (length rest)); [rewrite length_app; cbn; lia|done| |lia].
    by apply Forall_app in Hwf as [_ [_ ?]%Forall_cons].
Qed.

Lemma parse_directory_encode rs :
  Forall wf_rec rs → parse_directory (dir_encode rs) = dir_entries rs.
Proof.
  intros Hwf. unfold parse_directory. pose proof (length_dir_encode rs).
  apply (DirReader_collect_encode (length rs) rs []); [done|done|lia].
Qed.

(** The record a search by name stops at. *)
Definition named (name : list u8) (r : Rec) : Prop := live r ∧ r_name r = name.

#[global] Instance named_dec name r : Decision (named name r).
Proof. unfold named. apply _. Defined.

Definition prev_loc (pre : list u8) (prev : option (nat * u16)) (before : list Rec)
    : option (nat * u16) :=
  match last before with
  | None => prev
  | Some q =>
      Some ((length pre + length (dir_encode before) - r_size q)%nat, Z.of_nat (r_size q))
  end.

Lemma find_location_miss rs name : ∀ pre prev fuel,
  Forall wf_rec rs → Forall (λ r, ¬ named name r) rs → (length rs < fuel)%nat →
  find_entry_location_from fuel (pre ++ dir_encode rs) name (length pre) prev = None.
Proof.
  induction rs as [|r rs IH]; intros pre prev fuel Hwf Hno Hf;
    (destruct fuel as [|fuel]; [cbn in Hf; lia|]); cbn [find_entry_location_from].
  { rewrite app_nil_r, decide_True by lia. done. }
  apply Forall_cons in Hwf as [Hr Hwf], Hno as [Hn Hno]. cbn in Hf.
  rewrite dir_encode_cons. enter_record. rewrite slice_name_encode by done.
  rewrite bool_decide_true by (unfold r_size; lia).
  replace (_ && _) with false; cycle 1.
  { symmetry. apply not_true_iff_false. intros H. bool_simpl. apply Hn.
    by split; [apply Z.eqb_neq|eapply bool_decide_eq_true]. }
  rewrite <- length_rec_encode, <- length_app, (assoc_L (++)). apply IH; [done..|lia].
Qed.

Lemma find_location_hit before r after name : ∀ pre prev fuel,
  Forall wf_rec (before ++ r :: after) → Forall (λ r, ¬ named name r) before → named name r →
  (length before < fuel)%nat →
  find_entry_location_from fuel (pre ++ dir_encode (before ++ r :: after)) name (length pre) prev =
  Some (mkLoc (entry_of r) (length pre + length (dir_encode before)) (Z.of_nat (r_size r))
          (prev_loc pre prev before)).
Proof.
  induction before as [|q before IH]; intros pre prev fuel Hwf Hno [Hl Hname] Hf;
    (destruct fuel as [|fuel]; [cbn in Hf; lia|]); cbn [find_entry_location_from app];
    apply Forall_cons in Hwf as [Hr Hwf]; rewrite dir_encode_cons; enter_record;
    rewrite slice_name_encode, bool_decide_true by (done || unfold r_size; lia).
  { rewrite (proj2 (Z.eqb_neq _ _)), (proj2 (wf_live r Hr Hl)), bool_decide_true by done.
    unfold entry_of, prev_loc. cbn. by rewrite Nat.add_0_r. }
  apply Forall_cons in Hno as [Hn Hno]. cbn in Hf.
  replace (_ && _) with false; cycle 1.
  { symmetry. apply not_true_iff_false. intros H. bool_simpl. apply Hn.
    by split; [apply Z.eqb_neq|eapply bool_decide_eq_true]. }
  rewrite <- length_rec_encode, <- length_app, (assoc_L (++)), IH by (done || lia).
  rewrite dir_encode_cons, !length_app. f_equal. f_equal; [lia|].
  unfold prev_loc. rewrite last_cons. destruct (last before) as [q'|] eqn:Hq.
  - rewrite dir_encode_cons, !length_app. do 2 f_equal. lia.
  - apply last_None in Hq as ->. rewrite dir_encode_cons, length_app, length_rec_encode.
    change (dir_encode []) with (@nil Z). cbn [length]. do 2 f_equal. lia.
Qed.

(** [remove_entry] on records: the predecessor absorbs the entry's bytes; a
    first entry is only marked free. *)
Definition rec_free (r : Rec) : Rec := mkRec 0 (r_type r) (r_name r) (r_pad r).
Definition rec_absorb (q r : Rec) : Rec :=
  mkRec (r_inode q) (r_type q) (r_name q) (r_pad q ++ rec_encode r).

Definition remove_rec (before : list Rec) (r : Rec) (after : list Rec) : list Rec :=
  match last before with
  | None => rec_free r :: after
  | Some q => removelast before ++ rec_absorb q r :: after
  end.

Lemma r_size_absorb q r : r_size (rec_absorb q r) = (r_size q + r_size r)%nat.
Proof.
  unfold rec_absorb, r_size. cbn [r_name r_pad]. rewrite length_app, length_rec_encode.
  unfold r_size. lia.
Qed.

(** Overwriting the two bytes of [rec_len]. *)
Lemma set_rec_len pre r post n :
  <[(length pre + 5)%nat := n / 256]> (<[(length pre + 4)%nat := n mod 256]>
    (pre ++ rec_encode r ++ post)) =
  pre ++ le_bytes 4 (r_inode r) ++ [n mod 256; n / 256] ++
    [Z.of_nat (length (r_name r)); r_type r] ++ r_name r ++ r_pad r ++ post.
Proof.
  unfold rec_encode. by rewrite <- !(assoc_L (++)), !insert_app_r.
Qed.

Lemma u16_bytes n : 0 ≤ n < 65536 → le_bytes 2 n = [n mod 256; n / 256].
Proof. intros Hn. cbn. do 2 f_equal. apply Z.mod_small. split; [apply Z.div_pos|apply Z.div_lt_upper_bound]; lia. Qed.

Lemma u16_low_high n :
  0 ≤ n < 65536 → Z.land n 0xFF = n mod 256 ∧ Z.land (Z.shiftr n 8) 0xFF = n / 256.
Proof.
  intros Hn. change 0xFF with (Z.ones 8). rewrite !Z.land_ones, Z.shiftr_div_pow2 by lia.
  change (2 ^ 8) with 256. split; [done|]. apply Z.mod_small.
  split; [apply Z.div_pos|apply Z.div_lt_upper_bound]; lia.
Qed.

Lemma remove_entry_encode before r after name :
  Forall wf_rec (before ++ r :: after) → Forall (λ r, ¬ named name r) before → named name r →
  name ≠ bytes "." → name ≠ bytes ".." →
  Z.of_nat (length (dir_encode (before ++ r :: after))) < 65536 →
  remove_entry (dir_encode (before ++ r :: after)) name =
  Ok (dir_encode (remove_rec before r after), r_inode r).
Proof.
  intros Hwf Hno Hn Hd Hdd Hlen. unfold remove_entry, find_entry_location.
  rewrite !bool_decide_false by done. cbn [orb].
  pose proof (length_dir_encode (before ++ r :: after)) as Hl. rewrite length_app in Hl.
  rewrite (find_location_hit before r after name []) by (done || lia).
  cbn [loc_entry loc_prev loc_offset loc_rec_len entry_of de_inode length].
  unfold prev_loc, remove_rec. destruct (last before) as [q|] eqn:Hq; rewrite dir_encode_app.
  - apply last_Some in Hq as [b ->]. rewrite removelast_last. f_equal. f_equal.
    rewrite !dir_encode_app, !dir_encode_cons, <- (assoc_L (++)) in *. cbn [length] in *.
    rewrite !length_app, !length_rec_encode in *.
    change (dir_encode []) with (@nil Z) in *. cbn [length] in *. rewrite app_nil_r.
    replace (0 + (length (dir_encode b) + (r_size q + 0)) - r_size q)%nat
      with (length (dir_encode b)) by lia.
    assert (Z.of_nat (r_size q + r_size r) < 65536) as Hs by lia.
    rewrite <- Nat2Z.inj_add, wrap_small by (unfold in_width; lia).
    destruct (u16_low_high (Z.of_nat (r_size q + r_size r)) ltac:(lia)) as [-> ->].
    rewrite set_rec_len. f_equal. rewrite <- u16_bytes by lia.
    unfold rec_encode at 2. rewrite r_size_absorb. unfold rec_absorb. cbn [r_inode r_name r_pad r_type].
    by rewrite <- !(assoc_L (++)).
  - by apply last_None in Hq as ->.
Qed.

Lemma remove_entry_miss rs name :
  Forall wf_rec rs → Forall (λ r, ¬ named name r) rs → name ≠ bytes "." → name ≠ bytes ".." →
  remove_entry (dir_encode rs) name = Err "Entry not found"%string.
Proof.
  intros Hwf Hno Hd Hdd. unfold remove_entry, find_entry_location.
  rewrite !bool_decide_false by done. cbn [orb]. pose proof (length_dir_encode rs).
  by rewrite (find_location_miss rs name []) by (done || lia).
Qed.

(** [add_directory_entry] on records. *)
Lemma required_entry_size_bounds n :
  (n ≤ 255)%nat → (8 + n ≤ required_entry_size n ≤ 11 + n)%nat.
Proof.
  intros Hn.
  assert (Forall (λ n, 8 + n ≤ required_entry_size n ≤ 11 + n)%nat (seq 0 256)) as Hall
    by (apply (bool_decide_unpack _); vm_compute; exact I).
  rewrite Forall_forall in Hall. apply Hall, elem_of_seq. lia.
Qed.

Definition new_rec (ino : u32) (ft : u8) (name : list u8) (size : nat) : Rec :=
  mkRec ino ft name (replicate (size - (8 + length name)) 0).

Definition rec_shrink (r : Rec) : Rec :=
  mkRec (r_inode r) (r_type r) (r_name r)
    (take (required_entry_size (length (r_name r)) - (8 + length (r_name r))) (r_pad r)).

(** Whether a record can give up the space of a name of [n] bytes. *)
Definition room (n : nat) (r : Rec) : Prop :=
  (required_entry_size n ≤
   r_size r - (if decide (live r) then required_entry_size (length (r_name r)) else 0))%nat.

#[global] Instance room_dec n r : Decision (room n r).
Proof. unfold room. apply _. Defined.

Definition place (ino : u32) (ft : u8) (name : list u8) (r : Rec) : list Rec :=
  if decide (live r)
  then [rec_shrink r; new_rec ino ft name (r_size r - required_entry_size (length (r_name r)))]
  else [new_rec ino ft name (r_size r)].

Lemma r_size_new ino ft name size :
  (8 + length name ≤ size)%nat → r_size (new_rec ino ft name size) = size.
Proof. intros. unfold r_size, new_rec. cbn [r_name r_pad]. rewrite length_replicate. lia. Qed.

Lemma r_size_shrink r :
  (length (r_name r) ≤ 255)%nat → (required_entry_size (length (r_name r)) ≤ r_size r)%nat →
  r_size (rec_shrink r) = required_entry_size (length (r_name r)).
Proof.
  intros Hn Hs. pose proof (required_entry_size_bounds _ Hn). unfold r_size, rec_shrink in *.
  cbn [r_name r_pad]. rewrite length_take. lia.
Qed.

(** Five consecutive overwrites of the parts of a block of bytes. *)
Lemma split_header (old : list u8) n :
  (8 + n ≤ length old)%nat →
  ∃ o4 o2 x y onm opad, old = o4 ++ o2 ++ [x] ++ [y] ++ onm ++ opad ∧
    length o4 = 4%nat ∧ length o2 = 2%nat ∧ length onm = n.
Proof.
  intros Hl. do 8 (destruct old as [|? old]; [cbn in Hl; lia|]). cbn in Hl.
  exists [z; z0; z1; z2], [z3; z4], z5, z6, (take n old), (drop n old).
  cbn. rewrite take_drop, length_take. repeat split. lia.
Qed.

Lemma write_dir_entry_mid pre old post off ino ft name n :
  off = length pre → length old = n → (8 + length name ≤ n)%nat → (length name ≤ 255)%nat →
  write_dir_entry (pre ++ old ++ post) off ino (Z.of_nat n) name ft =
  Some (pre ++ rec_encode (new_rec ino ft name n) ++ post).
Proof.
  intros -> <- Hn H255. unfold write_dir_entry.
  rewrite decide_False by (rewrite !length_app; lia).
  destruct (split_header old (length name) Hn) as (o4 & o2 & x & y & onm & opad & -> & H4 & H2 & Hnm).
  rewrite wrap_small by (unfold in_width; lia). f_equal.
  unfold rec_encode. rewrite r_size_new by done.
  unfold new_rec. cbn [r_inode r_type r_name r_pad].
  rewrite Nat2Z.id. rewrite !length_app, H4, H2, Hnm.
  set (len := (4 + (2 + (length [x] + (length [y] + (length name + length opad)))))%nat).
  rewrite <- !(assoc_L (++)).
  rewrite (inserts_mid pre o4 (le_bytes 4 ino)) by (rewrite ?length_le_bytes; done).
  rewrite (assoc_L (++) pre).
  rewrite (inserts_mid _ o2) by (rewrite ?length_app, ?length_le_bytes; done).
  rewrite (assoc_L (++) (pre ++ _)). set (p6 := ((pre ++ _) ++ _)).
  assert (length p6 = length pre + 6)%nat as Hp6
    by (subst p6; rewrite !length_app, !length_le_bytes; lia).
  rewrite <- Hp6, <- (Nat.add_0_r (length p6)), insert_app_r.
  replace (length pre + 7)%nat with (length p6 + 1)%nat by lia. rewrite insert_app_r. cbn [app insert list_insert].
  change (?a :: ?b :: ?l) with ([a; b] ++ l). rewrite (assoc_L (++) p6).
  rewrite (inserts_mid _ onm) by (rewrite ?length_app; cbn; lia || done).
  rewrite (assoc_L (++) (p6 ++ _)).
  rewrite (inserts_mid _ opad)
    by (rewrite ?length_app, ?length_replicate; subst len; cbn; lia || done).
  subst p6. by rewrite <- !(assoc_L (++)).
Qed.

Lemma shrink_in_place pre r post n :
  wf_rec r → n = required_entry_size (length (r_name r)) → (n ≤ r_size r)%nat →
  <[(length pre + 5)%nat := wrap 8 (Z.shiftr (wrap 16 (Z.of_nat n)) 8)]>
    (<[(length pre + 4)%nat := wrap 8 (wrap 16 (Z.of_nat n))]> (pre ++ rec_encode r ++ post)) =
  (pre ++ rec_encode (rec_shrink r)) ++ drop (n - (8 + length (r_name r))) (r_pad r) ++ post.
Proof.
  intros Hr Hreq Hn. pose proof (required_entry_size_bounds _ (wf_name_len r Hr)).
  rewrite (wrap_small 16) by (pose proof (wf_size r Hr); unfold in_width; lia).
  destruct (u16_low_high (Z.of_nat n)) as [_ Hhi]; [pose proof (wf_size r Hr); lia|].
  change 0xFF with (Z.ones 8) in Hhi. rewrite Z.land_ones in Hhi by lia.
  unfold wrap. rewrite Hhi. change (2 ^ 8) with 256. rewrite set_rec_len.
  rewrite <- u16_bytes by (pose proof (wf_size r Hr); lia).
  unfold rec_encode. rewrite r_size_shrink by (apply wf_name_len, Hr || lia).
  rewrite <- Hreq. unfold rec_shrink. cbn [r_inode r_name r_pad r_type]. rewrite <- Hreq.
  rewrite <- !(assoc_L (++)). do 5 f_equal. by rewrite (assoc_L (++)), take_drop.
Qed.

Lemma add_entry_miss rs ino ft name : ∀ pre fuel,
  Forall wf_rec rs → Forall (λ r, ¬ room (length name) r) rs → (length rs < fuel)%nat →
  add_entry_from fuel (pre ++ dir_encode rs) ino name ft (length pre) =
  Some (Err "No space in directory"%string).
Proof.
  induction rs as [|r rs IH]; intros pre fuel Hwf Hno Hf;
    (destruct fuel as [|fuel]; [cbn in Hf; lia|]); cbn [add_entry_from].
  { rewrite app_nil_r, decide_True by lia. done. }
  apply Forall_cons in Hwf as [Hr Hwf], Hno as [Hn Hno]. cbn in Hf. unfold room in Hn.
  specialize (IH (pre ++ rec_encode r) fuel Hwf Hno ltac:(lia)).
  rewrite length_app, length_rec_encode, <- (assoc_L (++)) in IH.
  rewrite dir_encode_cons. enter_record. destruct (decide (live r)) as [Hl|Hl].
  - rewrite (proj2 (Z.eqb_neq _ _)), decide_False by done. exact IH.
  - unfold live in Hl. apply dec_stable in Hl.
    rewrite (proj2 (Z.eqb_eq _ _)), decide_False by (done || lia). exact IH.
Qed.

Lemma add_entry_here r after ino ft name pre fuel :
  wf_rec r → room (length name) r → (length name ≤ 255)%nat →
  add_entry_from (S fuel) (pre ++ dir_encode (r :: after)) ino name ft (length pre) =
  Some (Ok (pre ++ dir_encode (place ino ft name r ++ after))).
Proof.
  intros Hr Hroom H255. cbn [add_entry_from]. rewrite dir_encode_cons.
  pose proof (required_entry_size_bounds _ H255) as Hb.
  pose proof (required_entry_size_bounds _ (wf_name_len r Hr)) as Hb'.
  unfold room, place in *. destruct (decide (live r)) as [Hl|Hl]; enter_record.
  - rewrite (proj2 (Z.eqb_neq _ _)), decide_True by done.
    rewrite shrink_in_place by (done || lia).
    rewrite (wrap_small 16) by (pose proof (wf_size r Hr); unfold in_width; lia).
    rewrite (write_dir_entry_mid _ _ (dir_encode after));
      [|by rewrite length_app, length_rec_encode, r_size_shrink by (apply wf_name_len, Hr || lia)
       |unfold r_size in *; rewrite length_drop; lia|lia|done].
    cbn [fmap option_fmap option_map app]. rewrite !dir_encode_cons. by rewrite <- !(assoc_L (++)).
  - unfold live in Hl. apply dec_stable in Hl.
    rewrite (proj2 (Z.eqb_eq _ _)), decide_True by (done || lia).
    by rewrite write_dir_entry_mid by (rewrite ?length_rec_encode; done || lia).
Qed.

Lemma add_entry_hit before r after ino ft name : ∀ pre fuel,
  Forall wf_rec (before ++ r :: after) → Forall (λ r, ¬ room (length name) r) before →
  room (length name) r → (length name ≤ 255)%nat → (length before < fuel)%nat →
  add_entry_from fuel (pre ++ dir_encode (before ++ r :: after)) ino name ft (length pre) =
  Some (Ok (pre ++ dir_encode (before ++ place ino ft name r ++ after))).
Proof.
  induction before as [|q before IH]; intros pre fuel Hwf Hno Hroom H255 Hf;
    (destruct fuel as [|fuel]; [cbn in Hf; lia|]); cbn [app];
    apply Forall_cons in Hwf as [Hr Hwf]; [by apply add_entry_here|].
  apply Forall_cons in Hno as [Hn Hno]. cbn in Hf. unfold room in Hn.
  specialize (IH (pre ++ rec_encode q) fuel Hwf Hno Hroom H255 ltac:(lia)).
  rewrite length_app, length_rec_encode, <- !(assoc_L (++)) in IH.
  cbn [add_entry_from]. rewrite !dir_encode_cons. enter_record.
  destruct (decide (live q)) as [Hl|Hl].
  - rewrite (proj2 (Z.eqb_neq _ _)), decide_False by done. exact IH.
  - unfold live in Hl. apply dec_stable in Hl.
    rewrite (proj2 (Z.eqb_eq _ _)), decide_False by (done || lia). exact IH.
Qed.

(** [update_directory_entry] on records. *)
Definition rec_set_inode (ino : u32) (r : Rec) : Rec :=
  mkRec ino (r_type r) (r_name r) (r_pad r).

Lemma set_inode_in_place pre r post ino :
  list_inserts (length pre) (le_bytes 4 ino) (pre ++ rec_encode r ++ post) =
  pre ++ rec_encode (rec_set_inode ino r) ++ post.
Proof.
  unfold rec_encode. rewrite <- !(assoc_L (++)).
  rewrite inserts_mid by (rewrite ?length_le_bytes; done). done.
Qed.

Lemma update_entry_miss rs name ino : ∀ pre fuel,
  Forall wf_rec rs → Forall (λ r, ¬ named name r) rs → (length rs < fuel)%nat →
  update_entry_from fuel (pre ++ dir_encode rs) name ino (length pre) =
  Err "Entry not found"%string.
Proof.
  induction rs as [|r rs IH]; intros pre fuel Hwf Hno Hf;
    (destruct fuel as [|fuel]; [cbn in Hf; lia|]); cbn [update_entry_from].
  { rewrite app_nil_r, decide_True by lia. done. }
  apply Forall_cons in Hwf as [Hr Hwf], Hno as [Hn Hno]. cbn in Hf.
  rewrite dir_encode_cons. enter_record. rewrite slice_name_encode by done.
  replace (_ && _) with false; cycle 1.
  { symmetry. apply not_true_iff_false. intros H. bool_simpl. apply Hn.
    by split; [apply Z.eqb_neq|eapply bool_decide_eq_true]. }
  rewrite <- length_rec_encode, <- length_app, (assoc_L (++)). apply IH; [done..|lia].
Qed.

Lemma update_entry_hit before r after name ino : ∀ pre fuel,
  Forall wf_rec (before ++ r :: after) → Forall (λ r, ¬ named name r) before → named name r →
  (length before < fuel)%nat →
  update_entry_from fuel (pre ++ dir_encode (before ++ r :: after)) name ino (length pre) =
  Ok (pre ++ dir_encode (before ++ rec_set_inode ino r :: after)).
Proof.
  induction before as [|q before IH]; intros pre fuel Hwf Hno [Hl Hname] Hf;
    (destruct fuel as [|fuel]; [cbn in Hf; lia|]); cbn [update_entry_from app];
    apply Forall_cons in Hwf as [Hr Hwf]; rewrite dir_encode_cons; enter_record;
    rewrite slice_name_encode by (done || unfold r_size; lia).
  { rewrite (proj2 (Z.eqb_neq _ _)), !bool_decide_true
      by (subst; done || unfold r_size, MIN_DIR_ENTRY_SIZE; lia).
    cbn [negb andb]. by rewrite set_inode_in_place, dir_encode_cons. }
  apply Forall_cons in Hno as [Hn Hno]. cbn in Hf.
  replace (_ && _) with false; cycle 1.
  { symmetry. apply not_true_iff_false. intros H. bool_simpl. apply Hn.
    by split; [apply Z.eqb_neq|eapply bool_decide_eq_true]. }
  rewrite <- length_rec_encode, <- length_app, (assoc_L (++)), IH by (done || lia).
  by rewrite dir_encode_cons, !(assoc_L (++)).
Qed.

(** ** Directories as finite maps *)

Definition entry_pair (e : DirEntry) : list u8 * (u32 * u8) :=
  (de_name e, (de_inode e, de_file_type e)).

Definition entries_map (es : list DirEntry) : gmap (list u8) (u32 * u8) :=
  list_to_map (map entry_pair es).

(** The bytes [data] hold the directory [m]. *)
Definition dir_rep (data : list u8) (m : gmap (list u8) (u32 * u8)) : Prop :=
  ∃ rs, data = dir_encode rs ∧ Forall wf_rec rs ∧ Z.of_nat (length data) < 65536 ∧
        NoDup (map de_name (dir_entries rs)) ∧ m = entries_map (dir_entries rs).

Lemma entries_map_perm es es' :
  es ≡ₚ es' → NoDup (map de_name es) → entries_map es = entries_map es'.
Proof.
  intros Hp Hn. apply list_to_map_proper.
  - by rewrite map_map.
  - by apply Permutation_map.
Qed.

Lemma entries_map_cons e es :
  entries_map (e :: es) = <[de_name e := (de_inode e, de_file_type e)]> (entries_map es).
Proof. done. Qed.

Lemma entries_map_None es n :
  entries_map es !! n = None → n ∉ map de_name es.
Proof.
  intros Hm. apply not_elem_of_list_to_map_2 in Hm. by rewrite map_map in Hm.
Qed.

Lemma entries_map_Some es n x :
  entries_map es !! n = Some x → mkDirEntry (fst x) (snd x) n ∈ es.
Proof.
  intros Hm. apply elem_of_list_to_map_2 in Hm. apply list_elem_of_fmap in Hm as ([i t n'] & Hx & He).
  unfold entry_pair in Hx. cbn in Hx. by simplify_eq/=.
Qed.

Lemma head_filter_map es n :
  head (filter (λ e, de_name e = n) es) =
  (λ x, mkDirEntry (fst x) (snd x) n) <$> entries_map es !! n.
Proof.
  induction es as [|[i t n'] es IH]; [done|].
  rewrite filter_cons, entries_map_cons. cbn [de_name de_inode de_file_type].
  destruct (decide (n' = n)) as [->|Hne].
  - by rewrite lookup_insert_eq.
  - by rewrite lookup_insert_ne.
Qed.

Lemma dir_entries_app rs rs' : dir_entries (rs ++ rs') = dir_entries rs ++ dir_entries rs'.
Proof. unfold dir_entries. by rewrite filter_app, map_app. Qed.

Lemma dir_entries_cons r rs :
  dir_entries (r :: rs) = (if decide (live r) then [entry_of r] else []) ++ dir_entries rs.
Proof. unfold dir_entries. rewrite filter_cons. by destruct (decide (live r)). Qed.

Lemma not_named_entries rs name :
  Forall (λ r, ¬ named name r) rs → entries_map (dir_entries rs) !! name = None.
Proof.
  intros Hno. apply not_elem_of_list_to_map_1. rewrite map_map. unfold dir_entries.
  rewrite map_map. intros (r & Hn & Hr)%list_elem_of_fmap. apply list_elem_of_filter in Hr as [Hl Hr].
  rewrite Forall_forall in Hno. by apply (Hno r Hr).
Qed.

Lemma named_entry before r after name :
  Forall (λ r, ¬ named name r) before → named name r →
  entries_map (dir_entries (before ++ r :: after)) !! name = Some (r_inode r, r_type r).
Proof.
  intros Hno [Hl <-]. rewrite dir_entries_app, dir_entries_cons, decide_True by done.
  unfold entries_map. rewrite map_app, list_to_map_app, lookup_union_r by (by apply not_named_entries).
  cbn. by rewrite lookup_insert_eq.
Qed.

(** The case analysis of every operation by name. *)
Lemma lookup_split rs name :
  (Forall (λ r, ¬ named name r) rs ∧ entries_map (dir_entries rs) !! name = None) ∨
  ∃ before r after, rs = before ++ r :: after ∧ Forall (λ r, ¬ named name r) before ∧
    named name r ∧ entries_map (dir_entries rs) !! name = Some (r_inode r, r_type r).
Proof.
  destruct (split_first (named name) rs) as [Hno|(before & r & after & -> & Hno & Hr)].
  - left. by split; [|apply not_named_entries].
  - right. exists before, r, after. split; [done|]. split; [done|]. split; [done|].
    by apply named_entry.
Qed.

(** ** Well-formedness of the edits *)

Lemma wf_new ino ft name size :
  0 < ino < 2 ^ 32 → name ≠ [] → (length name ≤ 255)%nat → utf8_valid name = true →
  (required_entry_size (length name) ≤ size)%nat → Z.of_nat size < 65536 →
  wf_rec (new_rec ino ft name size).
Proof.
  intros Hi Hne H255 Hu Hs Hsz. pose proof (required_entry_size_bounds _ H255).
  split; rewrite ?r_size_new by lia; cbn; try done. unfold in_width. lia.
Qed.

Lemma wf_shrink r :
  wf_rec r → live r → wf_rec (rec_shrink r).
Proof.
  intros Hr Hl. pose proof (r_size_shrink r (wf_name_len r Hr) (wf_fits r Hr Hl)) as Hs.
  destruct Hr as [Hi Hn Hsz Hlv Hf]. specialize (Hf Hl).
  split; rewrite ?Hs; cbn; try done. lia.
Qed.

Lemma wf_place ino ft name r :
  wf_rec r → room (length name) r → 0 < ino < 2 ^ 32 → name ≠ [] → (length name ≤ 255)%nat →
  utf8_valid name = true → Forall wf_rec (place ino ft name r).
Proof.
  intros Hr Hroom Hi Hne H255 Hu. pose proof (wf_size r Hr) as Hsz. unfold room, place in *.
  destruct (decide (live r)) as [Hl|Hl]; 
    repeat first [apply Forall_nil_2 | apply Forall_cons_2];
    first [by apply wf_shrink | apply wf_new; (done || lia)].
Qed.

Lemma entries_place ino ft name r :
  0 < ino →
  dir_entries (place ino ft name r) ≡ₚ
  mkDirEntry ino ft name :: (if decide (live r) then [entry_of r] else []).
Proof.
  intros Hi. unfold place. destruct (decide (live r)) as [Hl|Hl];
    rewrite !dir_entries_cons; rewrite !decide_True by (unfold live; cbn; done || lia); cbn; [|done].
  apply perm_swap.
Qed.

Lemma size_place ino ft name r :
  wf_rec r → room (length name) r → (length name ≤ 255)%nat →
  length (dir_encode (place ino ft name r)) = r_size r.
Proof.
  intros Hr Hroom H255. pose proof (required_entry_size_bounds _ H255).
  unfold room, place in *. destruct (decide (live r)) as [Hl|Hl].
  - pose proof (wf_fits r Hr Hl). rewrite !dir_encode_cons, !length_app, !length_rec_encode.
    change (dir_encode []) with (@nil Z). cbn [length].
    rewrite r_size_shrink, r_size_new by (apply wf_name_len, Hr || lia). lia.
  - rewrite dir_encode_cons, length_app, length_rec_encode, r_size_new by lia.
    change (dir_encode []) with (@nil Z). cbn [length]. lia.
Qed.

Lemma wf_remove before r after :
  Forall wf_rec (before ++ r :: after) → live r →
  Z.of_nat (length (dir_encode (before ++ r :: after))) < 65536 →
  Forall wf_rec (remove_rec before r after) ∧
  dir_entries (before ++ r :: after) ≡ₚ entry_of r :: dir_entries (remove_rec before r after) ∧
  length (dir_encode (remove_rec before r after)) = length (dir_encode (before ++ r :: after)).
Proof.
  intros Hwf Hl Hlen. unfold remove_rec. destruct (last before) as [q|] eqn:Hq.
  - apply last_Some in Hq as [b ->]. rewrite removelast_last, <- (assoc_L (++)) in *. cbn [app] in *.
    rewrite !dir_encode_app, !dir_encode_cons, !length_app, !length_rec_encode in *.
    rewrite r_size_absorb. rewrite !Forall_app, !Forall_cons in Hwf.
    destruct Hwf as (Hb & Hq & Hr & Ha). split; [|split; [|lia]].
    + apply Forall_app. split; [done|]. apply Forall_cons. split; [|done].
      destruct Hq as [Hi Hn Hsz Hlv Hf].
      split; rewrite ?r_size_absorb; [exact Hi|exact Hn|lia|exact Hlv|].
      intros Hlq. specialize (Hf Hlq). cbn [rec_absorb r_name]. lia.
    + rewrite !dir_entries_app, !dir_entries_cons, (decide_True (P:=live r)) by done.
      change (live (rec_absorb q r)) with (live q). change (entry_of (rec_absorb q r)) with (entry_of q).
      destruct (decide (live q)); cbn; solve_Permutation.
  - apply last_None in Hq as ->. cbn [app] in *. apply Forall_cons in Hwf as [[Hi Hn Hs _ _] Ha].
    split; [|split].
    + apply Forall_cons. split; [|done]. by split.
    + rewrite !dir_entries_cons, decide_True by done. by rewrite decide_False by (unfold live; cbn; tauto).
    + by rewrite !dir_encode_cons, !length_app, !length_rec_encode.
Qed.

(** ** Refinement of the directory map *)

(** No record of the directory can give up the space of a name of [n] bytes. *)
Definition dir_full (data : list u8) (n : nat) : Prop :=
  ∃ rs, data = dir_encode rs ∧ Forall wf_rec rs ∧ Forall (λ r, ¬ room n r) rs.

(** The names the file system passes down: one to 255 bytes of UTF-8. *)
Definition valid_name (name : list u8) : Prop :=
  name ≠ [] ∧ (length name ≤ 255)%nat ∧ utf8_valid name = true.

Lemma dir_rep_intro rs' es m :
  Forall wf_rec rs' → Z.of_nat (length (dir_encode rs')) < 65536 →
  dir_entries rs' ≡ₚ es → NoDup (map de_name es) → m = entries_map es →
  dir_rep (dir_encode rs') m.
Proof.
  intros Hwf Hlen Hp Hnd ->. exists rs'. split; [done|]. split; [done|]. split; [done|].
  assert (NoDup (map de_name (dir_entries rs'))) as Hnd'.
  { eapply NoDup_Permutation_proper; [|exact Hnd]. by apply Permutation_map. }
  split; [done|]. symmetry. by apply entries_map_perm.
Qed.

Lemma find_entry_map d m :
  dir_rep d m →
  (∀ n, find_entry d n = (λ x, mkDirEntry (fst x) (snd x) n) <$> m !! n) ∧
  is_directory_empty d = bool_decide (dom m ⊆ {[bytes "."; bytes ".."]}).
Proof.
  intros (rs & -> & Hwf & _ & Hnd & ->). unfold find_entry, is_directory_empty.
  rewrite parse_directory_encode by done. split; [intros n; apply head_filter_map|].
  apply eq_bool_prop_intro. rewrite bool_decide_spec, Is_true_true, forallb_forall. split.
  - intros Hall n Hn. apply elem_of_dom in Hn as [x Hx]. apply entries_map_Some in Hx.
    apply list_elem_of_In, Hall, orb_true_iff in Hx. unfold is_dot, is_dotdot in Hx. cbn in Hx.
    rewrite !bool_decide_eq_true in Hx. set_solver.
  - intros Hs [i t n] He%list_elem_of_In. apply orb_true_iff. unfold is_dot, is_dotdot.
    rewrite !bool_decide_eq_true. cbn [de_name].
    assert (n ∈ dom (entries_map (dir_entries rs))) as Hn; [|set_solver].
    apply elem_of_dom. destruct (entries_map _ !! n) eqn:Hl; [done|].
    apply entries_map_None in Hl. exfalso. apply Hl, list_elem_of_fmap. by exists (mkDirEntry i t n).
Qed.

(** looking a name up in the bytes of a directory is looking it up in the
    map they hold, and [is_directory_empty] is true exactly when that map has
    no other name than [.] and [..]. *)
Theorem find_entry_refines d m :
  dir_rep d m →
  (∀ n, find_entry d n = (λ x, mkDirEntry (fst x) (snd x) n) <$> m !! n) ∧
  is_directory_empty d = bool_decide (dom m ⊆ {[bytes "."; bytes ".."]}).
Proof. apply find_entry_map. Qed.

Lemma add_directory_entry_cases rs ino name ft :
  Forall wf_rec rs → valid_name name →
  (∃ before r after, rs = before ++ r :: after ∧ room (length name) r ∧
     add_directory_entry (dir_encode rs) ino name ft =
     Some (Ok (dir_encode (before ++ place ino ft name r ++ after)))) ∨
  (Forall (λ r, ¬ room (length name) r) rs ∧
   add_directory_entry (dir_encode rs) ino name ft = Some (Err "No space in directory"%string)).
Proof.
  intros Hwf (Hne & H255 & Hu). unfold add_directory_entry.
  rewrite !bool_decide_false by (done || lia). cbn [orb].
  pose proof (length_dir_encode rs) as Hl.
  destruct (split_first (room (length name)) rs) as [Hno|(before & r & after & -> & Hno & Hr)].
  - right. split; [done|]. apply (add_entry_miss rs ino ft name []); [done|done|lia].
  - left. exists before, r, after. split; [done|]. split; [done|].
    rewrite length_app in Hl. apply (add_entry_hit before r after ino ft name []); [done..|lia].
Qed.

Lemma add_directory_entry_map d m ino name ft :
  dir_rep d m → valid_name name → m !! name = None → 0 < ino < 2 ^ 32 →
  (∃ d', add_directory_entry d ino name ft = Some (Ok d') ∧
     dir_rep d' (<[name := (ino, ft)]> m) ∧ length d' = length d) ∨
  (add_directory_entry d ino name ft = Some (Err "No space in directory"%string) ∧
   dir_full d (length name)).
Proof.
  intros (rs & -> & Hwf & Hlen & Hnd & ->) Hv Hfresh Hi.
  destruct (add_directory_entry_cases rs ino name ft Hwf Hv)
    as [(before & r & after & -> & Hroom & ->)|[Hno ->]]; [left|right; split; [done|by exists rs]].
  destruct Hv as (Hne & H255 & Hu).
  assert (wf_rec r) as Hr by (by apply Forall_app in Hwf as [_ [? _]%Forall_cons]).
  assert (length (dir_encode (before ++ place ino ft name r ++ after)) =
          length (dir_encode (before ++ r :: after))) as Hl.
  { rewrite !dir_encode_app, dir_encode_cons, !length_app, length_rec_encode.
    by rewrite size_place. }
  eexists. split; [done|]. split; [|done].
  apply (dir_rep_intro _ (mkDirEntry ino ft name :: dir_entries (before ++ r :: after))).
  - rewrite !Forall_app, Forall_cons in *. destruct Hwf as (? & _ & ?).
    split; [done|]. split; [by apply wf_place|done].
  - by rewrite Hl.
  - rewrite !dir_entries_app, dir_entries_cons, entries_place by lia. solve_Permutation.
  - cbn [map de_name]. apply NoDup_cons. split; [by apply entries_map_None|done].
  - done.
Qed.

(** C21: [add_directory_entry] with a fresh name never panics: either it adds
    exactly that entry, keeping the size of the data, or it reports that there
    is no space and no record has room for the name. *)
Theorem add_directory_entry_refines d m ino name ft :
  dir_rep d m → valid_name name → m !! name = None → 0 < ino < 2 ^ 32 →
  (∃ d', add_directory_entry d ino name ft = Some (Ok d') ∧
     dir_rep d' (<[name := (ino, ft)]> m) ∧ length d' = length d) ∨
  (add_directory_entry d ino name ft = Some (Err "No space in directory"%string) ∧
   dir_full d (length name)).
Proof. apply add_directory_entry_map. Qed.

(** C22: [remove_entry] removes exactly the named entry and returns its inode;
    an absent name is reported and [.] and [..] are refused. *)
Theorem remove_entry_refines d m name :
  dir_rep d m →
  if decide (name = bytes "." ∨ name = bytes "..")
  then remove_entry d name = Err "Cannot remove . or .."%string
  else match m !! name with
  | Some (ino, _) => ∃ d', remove_entry d name = Ok (d', ino) ∧
      dir_rep d' (delete name m) ∧ length d' = length d
  | None => remove_entry d name = Err "Entry not found"%string
  end.
Proof.
  intros (rs & -> & Hwf & Hlen & Hnd & ->). destruct (decide _) as [Hd|Hd].
  { unfold remove_entry. rewrite (proj2 (orb_true_iff _ _)); [done|]. by rewrite !bool_decide_eq_true. }
  apply Decidable.not_or in Hd as [Hd Hdd].
  destruct (lookup_split rs name) as [[Hno ->]|(before & r & after & -> & Hno & Hn & ->)].
  { by apply remove_entry_miss. }
  pose proof Hn as [Hl Hname].
  destruct (wf_remove before r after Hwf Hl Hlen) as (Hwf' & Hp & Hl').
  eexists. split; [by apply remove_entry_encode|]. split; [|done].
  assert (NoDup (map de_name (entry_of r :: dir_entries (remove_rec before r after)))) as Hnd'.
  { eapply NoDup_Permutation_proper; [|exact Hnd]. by apply Permutation_map. }
  eapply dir_rep_intro; [done|by rewrite Hl'|done|by apply NoDup_cons in Hnd' as []|].
  rewrite (entries_map_perm _ _ Hp Hnd), entries_map_cons. cbn [de_name entry_of].
  rewrite Hname. apply delete_insert_id, not_elem_of_list_to_map_1. rewrite map_map.
  apply NoDup_cons in Hnd' as [Hf _]. cbn [map de_name entry_of] in Hf. by rewrite Hname in Hf.
Qed.

(** [update_directory_entry] changes the inode of exactly the named entry;
    an absent name is reported. *)
Theorem update_directory_entry_refines d m name ino :
  dir_rep d m → 0 < ino < 2 ^ 32 →
  match m !! name with
  | Some (_, ft) => ∃ d', update_directory_entry d name ino = Ok d' ∧
      dir_rep d' (<[name := (ino, ft)]> m) ∧ length d' = length d
  | None => update_directory_entry d name ino = Err "Entry not found"%string
  end.
Proof.
  intros (rs & -> & Hwf & Hlen & Hnd & ->) Hi. unfold update_directory_entry.
  pose proof (length_dir_encode rs) as Hlr.
  destruct (lookup_split rs name) as [[Hno ->]|(before & r & after & -> & Hno & Hn & ->)].
  { apply (update_entry_miss rs name ino []); [done|done|lia]. }
  rewrite length_app in Hlr. pose proof Hn as [Hl <-].
  rewrite (update_entry_hit before r after (r_name r) ino []) by (done || lia).
  assert (length (dir_encode (before ++ rec_set_inode ino r :: after)) =
          length (dir_encode (before ++ r :: after))) as Hlen'.
  { by rewrite !dir_encode_app, !dir_encode_cons, !length_app, !length_rec_encode. }
  eexists. split; [done|]. split; [|done].
  rewrite dir_entries_app, dir_entries_cons, decide_True in Hnd |- * by done.
  assert (mkDirEntry ino (r_type r) (r_name r) :: dir_entries before ++ dir_entries after ≡ₚ
          dir_entries before ++ mkDirEntry ino (r_type r) (r_name r) :: dir_entries after) as Hp
    by solve_Permutation.
  assert (NoDup (map de_name (mkDirEntry ino (r_type r) (r_name r) :: dir_entries before ++ dir_entries after))) as Hnd'.
  { eapply NoDup_Permutation_proper; [by apply Permutation_map|]. rewrite map_app in Hnd |- *. exact Hnd. }
  eapply dir_rep_intro; [| |reflexivity| |].
  - rewrite !Forall_app, !Forall_cons in *. destruct Hwf as (? & [? ? ? ? ?] & ?).
    split; [done|]. split; [|done]. split; try done; [cbn; unfold in_width; lia|..];
      unfold live; cbn; auto.
  - by rewrite Hlen'.
  - rewrite dir_entries_app, dir_entries_cons, decide_True by (unfold live; cbn; lia).
    rewrite map_app in Hnd |- *. exact Hnd.
  - rewrite dir_entries_app, dir_entries_cons, (decide_True (P:=live (rec_set_inode ino r)))
      by (unfold live; cbn; lia).
    change (entry_of (rec_set_inode ino r)) with (mkDirEntry ino (r_type r) (r_name r)).
    change ([?x] ++ ?l) with (x :: l).
    rewrite <- (entries_map_perm _ _ Hp Hnd'), entries_map_cons. cbn [de_name de_inode de_file_type].
    assert (entry_of r :: dir_entries before ++ dir_entries after ≡ₚ
            dir_entries before ++ entry_of r :: dir_entries after) as Hp' by solve_Permutation.
    rewrite <- (entries_map_perm _ _ Hp'), entries_map_cons; [|exact Hnd'].
    cbn [de_name de_inode de_file_type entry_of]. by rewrite insert_insert_eq.
Qed.

Lemma required_entry_size_mono n n' :
  (n ≤ n')%nat → (n' ≤ 255)%nat → (required_entry_size n ≤ required_entry_size n')%nat.
Proof.
  intros Hn Hn'.
  assert (Forall (λ n, required_entry_size n = 4 * ((n + 11) / 4))%nat (seq 0 256)) as Hall
    by (apply (bool_decide_unpack _); vm_compute; exact I).
  rewrite Forall_forall in Hall. rewrite !Hall by (apply elem_of_seq; lia).
  apply Nat.mul_le_mono_l, Nat.Div0.div_le_mono. lia.
Qed.

Lemma remove_rec_room before r after n :
  Forall wf_rec (before ++ r :: after) → live r → (n ≤ length (r_name r))%nat →
  ∃ q, q ∈ remove_rec before r after ∧ room n q.
Proof.
  intros Hwf Hl Hn. rewrite Forall_app, Forall_cons in Hwf. destruct Hwf as (Hb & Hr & _).
  pose proof (wf_fits r Hr Hl). pose proof (required_entry_size_mono _ _ Hn (wf_name_len r Hr)).
  unfold remove_rec. destruct (last before) as [q|] eqn:Hq.
  - exists (rec_absorb q r). split; [set_solver|]. apply last_Some in Hq as [b ->].
    apply Forall_app in Hb as [_ [Hq _]%Forall_cons].
    unfold room. rewrite r_size_absorb. change (live (rec_absorb q r)) with (live q).
    destruct (decide (live q)) as [Hlq|Hlq]; [|lia]. pose proof (wf_fits q Hq Hlq).
    cbn [rec_absorb r_name]. lia.
  - exists (rec_free r). split; [set_solver|]. unfold room.
    rewrite decide_False by (unfold live; cbn; tauto). change (r_size (rec_free r)) with (r_size r). lia.
Qed.

(** the space of a removed entry can be used again: after a removal, a
    name that is not longer than the removed one always fits, so a rename
    inside a directory to a name of at most the same length cannot fail for
    lack of space. *)
Theorem removed_space_reusable d m name d' ino ino' name' ft :
  dir_rep d m → remove_entry d name = Ok (d', ino) →
  valid_name name' → (length name' ≤ length name)%nat →
  ∃ d'', add_directory_entry d' ino' name' ft = Some (Ok d'') ∧
         length d'' = length d.
Proof.
  intros (rs & -> & Hwf & Hlen & Hnd & ->) Hrm Hv Hle.
  unfold remove_entry in Hrm. destruct (decide (name = bytes "." ∨ name = bytes "..")) as [Hd|Hd].
  { rewrite (proj2 (orb_true_iff _ _)) in Hrm; [done|]. by rewrite !bool_decide_eq_true. }
  fold (remove_entry (dir_encode rs) name) in Hrm. apply Decidable.not_or in Hd as [Hd Hdd].
  destruct (lookup_split rs name) as [[Hno _]|(before & r & after & -> & Hno & [Hl Hname] & _)].
  { by rewrite remove_entry_miss in Hrm. }
  rewrite (remove_entry_encode before r after) in Hrm by done. simplify_eq.
  destruct (wf_remove before r after Hwf Hl Hlen) as (Hwf' & _ & Hl').
  destruct (add_directory_entry_cases _ ino' name' ft Hwf' Hv)
    as [(b & q & a & Heq & Hroom & ->)|[Hno' _]].
  - eexists. split; [done|]. rewrite <- Hl', Heq. rewrite Heq in Hwf'.
    apply Forall_app in Hwf' as [_ [Hq _]%Forall_cons]. destruct Hv as (_ & H255 & _).
    rewrite !dir_encode_app, dir_encode_cons, !length_app, length_rec_encode.
    by rewrite size_place.
  - destruct (remove_rec_room before r after (length name') Hwf Hl Hle) as (q & Hq & Hroom).
    rewrite Forall_forall in Hno'. by destruct (Hno' q Hq).
Qed.

(** ** Witnesses *)

Definition sample_recs : list Rec :=
  [mkRec 2 EXT2_FT_DIR (bytes ".") (replicate 3 0);
   mkRec 2 EXT2_FT_DIR (bytes "..") (replicate 2 0);
   mkRec 12 EXT2_FT_REG_FILE (bytes "motd") (replicate 28 0)].

Definition sample_dir : list u8 := dir_encode sample_recs.
Definition sample_map : gmap (list u8) (u32 * u8) := entries_map (dir_entries sample_recs).

Lemma sample_wf : Forall wf_rec sample_recs.
Proof.
  unfold sample_recs.
  repeat first [apply Forall_nil_2 | apply Forall_cons_2];
    (split; [split; by vm_compute|cbn; lia|by vm_compute|by vm_compute|vm_compute; lia]).
Qed.

Lemma sample_rep : dir_rep sample_dir sample_map.
Proof.
  exists sample_recs. split; [done|]. split; [apply sample_wf|].
  split; [by vm_compute|]. split; [|done]. apply (bool_decide_unpack _). vm_compute. exact I.
Qed.

Lemma find_entry_refines_witness :
  find_entry sample_dir (bytes "motd") = Some (mkDirEntry 12 EXT2_FT_REG_FILE (bytes "motd")).
Proof. rewrite (proj1 (find_entry_refines _ _ sample_rep)). vm_compute. reflexivity. Defined.

Lemma add_directory_entry_refines_witness :
  ∃ d', add_directory_entry sample_dir 13 (bytes "log") EXT2_FT_REG_FILE = Some (Ok d') ∧
    dir_rep d' (<[bytes "log" := (13, EXT2_FT_REG_FILE)]> sample_map).
Proof.
  destruct (add_directory_entry_refines sample_dir sample_map 13 (bytes "log") EXT2_FT_REG_FILE)
    as [(d' & H & Hr & _)|[H _]].
  - apply sample_rep.
  - split; [done|]. split; [cbn; lia|by vm_compute].
  - by vm_compute.
  - lia.
  - by exists d'.
  - exfalso. vm_compute in H. discriminate H.
Defined.

Lemma remove_entry_refines_witness :
  ∃ d', remove_entry sample_dir (bytes "motd") = Ok (d', 12) ∧
    dir_rep d' (delete (bytes "motd") sample_map).
Proof.
  destruct (remove_entry_refines sample_dir sample_map (bytes "motd") sample_rep) as (d' & H & Hr & _).
  by exists d'.
Defined.

Lemma update_directory_entry_refines_witness :
  ∃ d', update_directory_entry sample_dir (bytes "..") 14 = Ok d' ∧
    dir_rep d' (<[bytes ".." := (14, EXT2_FT_DIR)]> sample_map).
Proof.
  destruct (update_directory_entry_refines sample_dir sample_map (bytes "..") 14 sample_rep)
    as (d' & H & Hr & _); [lia|]. by exists d'.
Defined.

Lemma removed_space_reusable_witness :
  ∃ d' d'', remove_entry sample_dir (bytes "motd") = Ok (d', 12) ∧
    add_directory_entry d' 12 (bytes "issu") EXT2_FT_REG_FILE = Some (Ok d'').
Proof.
  destruct (remove_entry sample_dir (bytes "motd")) as [[d' i]|e] eqn:H; [|vm_compute in H; discriminate H].
  destruct (removed_space_reusable sample_dir sample_map (bytes "motd") d' i 12 (bytes "issu")
              EXT2_FT_REG_FILE sample_rep H) as (d'' & Ha & _).
  - split; [done|]. split; [cbn; lia|by vm_compute].
  - cbn; lia.
  - exists d', d''. split; [|done]. f_equal. f_equal. vm_compute in H. by simplify_eq.
Defined.
