(* ===== verification/Ext2Layout.v ===== *)
(** * On-disk structures of ext2

    Model of the packed structures of [kernel/src/fs/ext2]: the superblock
    ([superblock.rs]), the block group descriptor ([block_group.rs]) and the
    inode ([inode.rs]), with the accessors of the superblock and the inode.

    A packed structure is the list of its integer fields laid out in
    declaration order, little-endian; [pack] and [unpack] do that for a list of
    widths.  The theorems give the round trips between a structure and its
    bytes. *)

From S2P Require Import Prelude Bytes.

(** ** Packed integers *)

Fixpoint pack (ws : list nat) (vs : list Z) : list u8 :=
  match ws, vs with
  | w :: ws, v :: vs => le_bytes w v ++ pack ws vs
  | _, _ => []
  end.

Fixpoint unpack (ws : list nat) (bs : list u8) : list Z :=
  match ws with
  | [] => []
  | w :: ws => le_value (take w bs) :: unpack ws (drop w bs)
  end.

(** A value of a field of [w] bytes. *)
Definition fits (w : nat) (v : Z) : Prop := in_width (8 * Z.of_nat w) v.

Lemma fits_bound w v : fits w v → 0 ≤ v < 256 ^ Z.of_nat w.
Proof.
  unfold fits, in_width. replace (2 ^ (8 * Z.of_nat w)) with (256 ^ Z.of_nat w); [done|].
  by rewrite Z.pow_mul_r by lia.
Qed.

Lemma length_pack ws vs : length ws = length vs → length (pack ws vs) = sum_list ws.
Proof.
  revert vs. induction ws as [|w ws IH]; intros [|v vs] Hl; simplify_eq/=; [done|].
  by rewrite length_app, length_le_bytes, IH.
Qed.

Lemma pack_byte ws vs : byte_list (pack ws vs).
Proof.
  revert vs. induction ws as [|w ws IH]; intros [|v vs]; cbn; try by constructor.
  apply Forall_app. split; [apply le_bytes_byte|apply IH].
Qed.

Lemma unpack_pack ws vs rest :
  Forall2 fits ws vs → unpack ws (pack ws vs ++ rest) = vs.
Proof.
  induction 1 as [|w v ws vs Hf _ IH]; [done|]. cbn [pack unpack].
  rewrite <- (assoc_L (++)), take_app_length', drop_app_length' by (by rewrite length_le_bytes).
  rewrite IH, le_value_bytes, Z.mod_small by (by apply fits_bound). done.
Qed.

Lemma pack_unpack ws bs :
  byte_list bs → (sum_list ws ≤ length bs)%nat → pack ws (unpack ws bs) = take (sum_list ws) bs.
Proof.
  revert bs. induction ws as [|w ws IH]; intros bs Hb Hl; [done|].
  change (sum_list (w :: ws)) with (w + sum_list ws)%nat in *. cbn [pack unpack]. rewrite IH; [|by apply Forall_drop|rewrite length_drop; lia].
  rewrite <- take_take_drop. f_equal.
  rewrite <- (le_bytes_value (take w bs)) at 2 by (by apply Forall_take).
  by rewrite length_take_le by lia.
Qed.

Lemma unpack_fits ws bs : byte_list bs → (sum_list ws ≤ length bs)%nat → Forall2 fits ws (unpack ws bs).
Proof.
  revert bs. induction ws as [|w ws IH]; intros bs Hb Hl; [constructor|].
  change (sum_list (w :: ws)) with (w + sum_list ws)%nat in *. cbn [unpack]. constructor.
  - pose proof (le_value_bound (take w bs) (Forall_take _ _ _ Hb)) as Hv.
    rewrite length_take_le in Hv by lia. unfold fits, in_width.
    by rewrite Z.pow_mul_r by lia.
  - apply IH; [by apply Forall_drop|rewrite length_drop; lia].
Qed.

(** ** The superblock *)

Definition EXT2_SUPER_MAGIC : u16 := 0xEF53.
Definition SUPERBLOCK_OFFSET : Z := 1024.

Record Ext2Superblock := mkSb {
  s_inodes_count : u32;
  s_blocks_count : u32;
  s_r_blocks_count : u32;
  s_free_blocks_count : u32;
  s_free_inodes_count : u32;
  s_first_data_block : u32;
  s_log_block_size : u32;
  s_log_frag_size : u32;
  s_blocks_per_group : u32;
  s_frags_per_group : u32;
  s_inodes_per_group : u32;
  s_mtime : u32;
  s_wtime : u32;
  s_mnt_count : u16;
  s_max_mnt_count : u16;
  s_magic : u16;
  s_state : u16;
  s_errors : u16;
  s_minor_rev_level : u16;
  s_lastcheck : u32;
  s_checkinterval : u32;
  s_creator_os : u32;
  s_rev_level : u32;
  s_def_resuid : u16;
  s_def_resgid : u16;
  s_first_ino : u32;
  s_inode_size : u16;
  s_block_group_nr : u16;
  s_feature_compat : u32;
  s_feature_incompat : u32;
  s_feature_ro_compat : u32;
  s_uuid : list u8;        (* [u8; 16] *)
  s_volume_name : list u8; (* [u8; 16] *)
  s_reserved : list u8;    (* [u8; 788] *)
}.

Definition SB_WIDTHS : list nat :=
  replicate 13 4%nat ++ replicate 6 2%nat ++ replicate 4 4%nat ++ [2; 2; 4; 2; 2; 4; 4; 4]%nat.

(** [mem::size_of::<Ext2Superblock>()]: the packed size of the fields. *)
Definition SB_SIZE : nat := 924.

Definition Ext2Superblock_fields (sb : Ext2Superblock) : list Z :=
  [s_inodes_count sb; s_blocks_count sb; s_r_blocks_count sb; s_free_blocks_count sb;
   s_free_inodes_count sb; s_first_data_block sb; s_log_block_size sb; s_log_frag_size sb;
   s_blocks_per_group sb; s_frags_per_group sb; s_inodes_per_group sb; s_mtime sb; s_wtime sb;
   s_mnt_count sb; s_max_mnt_count sb; s_magic sb; s_state sb; s_errors sb;
   s_minor_rev_level sb; s_lastcheck sb; s_checkinterval sb; s_creator_os sb; s_rev_level sb;
   s_def_resuid sb; s_def_resgid sb; s_first_ino sb; s_inode_size sb; s_block_group_nr sb;
   s_feature_compat sb; s_feature_incompat sb; s_feature_ro_compat sb].

(** The structure viewed as raw bytes ([slice::from_raw_parts]). *)
Definition Ext2Superblock_to_bytes (sb : Ext2Superblock) : list u8 :=
  pack SB_WIDTHS (Ext2Superblock_fields sb) ++ s_uuid sb ++ s_volume_name sb ++ s_reserved sb.

(** [ptr::read_unaligned] of at least [SB_SIZE] bytes. *)
Definition Ext2Superblock_of_bytes (bs : list u8) : Ext2Superblock :=
  let v i := nth i (unpack SB_WIDTHS bs) 0 in
  mkSb (v 0%nat) (v 1%nat) (v 2%nat) (v 3%nat) (v 4%nat) (v 5%nat) (v 6%nat) (v 7%nat) (v 8%nat)
    (v 9%nat) (v 10%nat) (v 11%nat) (v 12%nat) (v 13%nat) (v 14%nat) (v 15%nat) (v 16%nat)
    (v 17%nat) (v 18%nat) (v 19%nat) (v 20%nat) (v 21%nat) (v 22%nat) (v 23%nat) (v 24%nat)
    (v 25%nat) (v 26%nat) (v 27%nat) (v 28%nat) (v 29%nat) (v 30%nat)
    (take 16 (drop 104 bs)) (take 16 (drop 120 bs)) (take 788 (drop 136 bs)).

Definition Ext2Superblock_from_bytes (bs : list u8) : option Ext2Superblock :=
  if decide (length bs < SB_SIZE)%nat then None else Some (Ext2Superblock_of_bytes bs).

Definition Ext2Superblock_is_valid (sb : Ext2Superblock) : bool := s_magic sb =? EXT2_SUPER_MAGIC.

(** [1024usize << s_log_block_size]: the shift amount is taken modulo 64. *)
Definition block_size (sb : Ext2Superblock) : Z :=
  wrap 64 (Z.shiftl 1024 (s_log_block_size sb mod 64)).

(** [None]: division by zero. *)
Definition block_group_count (sb : Ext2Superblock) : option u32 :=
  if s_blocks_per_group sb =? 0 then None
  else Some (wrap 32 (s_blocks_count sb + s_blocks_per_group sb - 1) / s_blocks_per_group sb).

Definition inode_size (sb : Ext2Superblock) : Z :=
  if s_rev_level sb =? 0 then 128 else s_inode_size sb.

Definition set_s_free_blocks_count (n : u32) (sb : Ext2Superblock) : Ext2Superblock :=
  mkSb (s_inodes_count sb) (s_blocks_count sb) (s_r_blocks_count sb) n
    (s_free_inodes_count sb) (s_first_data_block sb) (s_log_block_size sb) (s_log_frag_size sb)
    (s_blocks_per_group sb) (s_frags_per_group sb) (s_inodes_per_group sb) (s_mtime sb)
    (s_wtime sb) (s_mnt_count sb) (s_max_mnt_count sb) (s_magic sb) (s_state sb) (s_errors sb)
    (s_minor_rev_level sb) (s_lastcheck sb) (s_checkinterval sb) (s_creator_os sb)
    (s_rev_level sb) (s_def_resuid sb) (s_def_resgid sb) (s_first_ino sb) (s_inode_size sb)
    (s_block_group_nr sb) (s_feature_compat sb) (s_feature_incompat sb) (s_feature_ro_compat sb)
    (s_uuid sb) (s_volume_name sb) (s_reserved sb).

Definition set_s_free_inodes_count (n : u32) (sb : Ext2Superblock) : Ext2Superblock :=
  mkSb (s_inodes_count sb) (s_blocks_count sb) (s_r_blocks_count sb) (s_free_blocks_count sb)
    n (s_first_data_block sb) (s_log_block_size sb) (s_log_frag_size sb)
    (s_blocks_per_group sb) (s_frags_per_group sb) (s_inodes_per_group sb) (s_mtime sb)
    (s_wtime sb) (s_mnt_count sb) (s_max_mnt_count sb) (s_magic sb) (s_state sb) (s_errors sb)
    (s_minor_rev_level sb) (s_lastcheck sb) (s_checkinterval sb) (s_creator_os sb)
    (s_rev_level sb) (s_def_resuid sb) (s_def_resgid sb) (s_first_ino sb) (s_inode_size sb)
    (s_block_group_nr sb) (s_feature_compat sb) (s_feature_incompat sb) (s_feature_ro_compat sb)
    (s_uuid sb) (s_volume_name sb) (s_reserved sb).

Definition decrement_free_inodes (sb : Ext2Superblock) : Ext2Superblock :=
  if 0 <? s_free_inodes_count sb
  then set_s_free_inodes_count (s_free_inodes_count sb - 1) sb else sb.

Definition decrement_free_blocks (sb : Ext2Superblock) : Ext2Superblock :=
  if 0 <? s_free_blocks_count sb
  then set_s_free_blocks_count (s_free_blocks_count sb - 1) sb else sb.

Definition increment_free_inodes (sb : Ext2Superblock) : Ext2Superblock :=
  set_s_free_inodes_count (wrap 32 (s_free_inodes_count sb + 1)) sb.

Definition increment_free_blocks (count : u32) (sb : Ext2Superblock) : Ext2Superblock :=
  set_s_free_blocks_count (wrap 32 (s_free_blocks_count sb + count)) sb.

(** ** Block group descriptors *)

Record Ext2BlockGroupDesc := mkBg {
  bg_block_bitmap : u32;
  bg_inode_bitmap : u32;
  bg_inode_table : u32;
  bg_free_blocks_count : u16;
  bg_free_inodes_count : u16;
  bg_used_dirs_count : u16;
  bg_pad : u16;
  bg_reserved : list u8; (* [u8; 12] *)
}.

Definition BG_WIDTHS : list nat := [4; 4; 4; 2; 2; 2; 2]%nat.
Definition BG_SIZE : nat := 32.

Definition Ext2BlockGroupDesc_fields (bg : Ext2BlockGroupDesc) : list Z :=
  [bg_block_bitmap bg; bg_inode_bitmap bg; bg_inode_table bg; bg_free_blocks_count bg;
   bg_free_inodes_count bg; bg_used_dirs_count bg; bg_pad bg].

Definition Ext2BlockGroupDesc_to_bytes (bg : Ext2BlockGroupDesc) : list u8 :=
  pack BG_WIDTHS (Ext2BlockGroupDesc_fields bg) ++ bg_reserved bg.

Definition Ext2BlockGroupDesc_of_bytes (bs : list u8) : Ext2BlockGroupDesc :=
  let v i := nth i (unpack BG_WIDTHS bs) 0 in
  mkBg (v 0%nat) (v 1%nat) (v 2%nat) (v 3%nat) (v 4%nat) (v 5%nat) (v 6%nat)
    (take 12 (drop 20 bs)).

Definition set_bg_free_blocks_count (n : u16) (bg : Ext2BlockGroupDesc) : Ext2BlockGroupDesc :=
  mkBg (bg_block_bitmap bg) (bg_inode_bitmap bg) (bg_inode_table bg) n
    (bg_free_inodes_count bg) (bg_used_dirs_count bg) (bg_pad bg) (bg_reserved bg).

Definition set_bg_free_inodes_count (n : u16) (bg : Ext2BlockGroupDesc) : Ext2BlockGroupDesc :=
  mkBg (bg_block_bitmap bg) (bg_inode_bitmap bg) (bg_inode_table bg) (bg_free_blocks_count bg)
    n (bg_used_dirs_count bg) (bg_pad bg) (bg_reserved bg).

Definition set_bg_used_dirs_count (n : u16) (bg : Ext2BlockGroupDesc) : Ext2BlockGroupDesc :=
  mkBg (bg_block_bitmap bg) (bg_inode_bitmap bg) (bg_inode_table bg) (bg_free_blocks_count bg)
    (bg_free_inodes_count bg) n (bg_pad bg) (bg_reserved bg).

(** ** Inodes *)

Definition EXT2_S_IFSOCK : u16 := 0xC000.
Definition EXT2_S_IFLNK : u16 := 0xA000.
Definition EXT2_S_IFREG : u16 := 0x8000.
Definition EXT2_S_IFBLK : u16 := 0x6000.
Definition EXT2_S_IFDIR : u16 := 0x4000.
Definition EXT2_S_IFCHR : u16 := 0x2000.
Definition EXT2_S_IFIFO : u16 := 0x1000.
Definition EXT2_S_IFMT : u16 := 0xF000.
Definition EXT2_S_PERM_MASK : u16 := 0x0FFF.

Definition EXT2_ROOT_INO : u32 := 2.
Definition EXT2_BAD_INO : u32 := 1.
Definition EXT2_FIRST_INO : u32 := 11.

Record Ext2Inode := mkInode {
  i_mode : u16;
  i_uid : u16;
  i_size : u32;
  i_atime : u32;
  i_ctime : u32;
  i_mtime : u32;
  i_dtime : u32;
  i_gid : u16;
  i_links_count : u16;
  i_blocks : u32;
  i_flags : u32;
  i_osd1 : u32;
  i_block : list u32; (* [u32; 15] *)
  i_generation : u32;
  i_file_acl : u32;
  i_dir_acl : u32;
  i_faddr : u32;
  i_osd2 : list u8; (* [u8; 12] *)
}.

Definition INODE_HEAD_WIDTHS : list nat := [2; 2; 4; 4; 4; 4; 4; 2; 2; 4; 4; 4]%nat.
Definition INODE_WIDTHS : list nat := INODE_HEAD_WIDTHS ++ replicate 15 4%nat ++ [4; 4; 4; 4]%nat.
Definition INODE_SIZE : nat := 128.

Definition Ext2Inode_fields (i : Ext2Inode) : list Z :=
  [i_mode i; i_uid i; i_size i; i_atime i; i_ctime i; i_mtime i; i_dtime i; i_gid i;
   i_links_count i; i_blocks i; i_flags i; i_osd1 i] ++ i_block i ++
  [i_generation i; i_file_acl i; i_dir_acl i; i_faddr i].

Definition Ext2Inode_to_bytes (i : Ext2Inode) : list u8 :=
  pack INODE_WIDTHS (Ext2Inode_fields i) ++ i_osd2 i.

Definition Ext2Inode_of_bytes (bs : list u8) : Ext2Inode :=
  let f := unpack INODE_WIDTHS bs in
  let v i := nth i f 0 in
  mkInode (v 0%nat) (v 1%nat) (v 2%nat) (v 3%nat) (v 4%nat) (v 5%nat) (v 6%nat) (v 7%nat)
    (v 8%nat) (v 9%nat) (v 10%nat) (v 11%nat) (take 15 (drop 12 f)) (v 27%nat) (v 28%nat)
    (v 29%nat) (v 30%nat) (take 12 (drop 116 bs)).

(** [None]: the assertion on the length fails. *)
Definition Ext2Inode_from_bytes (bs : list u8) : option Ext2Inode :=
  if decide (length bs = INODE_SIZE) then Some (Ext2Inode_of_bytes bs) else None.

Inductive FileType :=
  | Regular
  | Directory
  | CharDevice
  | BlockDeviceFile
  | Fifo
  | Socket
  | SymLink
  | Unknown.

#[global] Instance FileType_eq_dec : EqDecision FileType.
Proof. solve_decision. Defined.

Definition file_type (i : Ext2Inode) : FileType :=
  let t := Z.land (i_mode i) EXT2_S_IFMT in
  if t =? EXT2_S_IFREG then Regular
  else if t =? EXT2_S_IFDIR then Directory
  else if t =? EXT2_S_IFCHR then CharDevice
  else if t =? EXT2_S_IFBLK then BlockDeviceFile
  else if t =? EXT2_S_IFIFO then Fifo
  else if t =? EXT2_S_IFSOCK then Socket
  else if t =? EXT2_S_IFLNK then SymLink
  else Unknown.

Definition is_dir (i : Ext2Inode) : bool := bool_decide (file_type i = Directory).
Definition is_file (i : Ext2Inode) : bool := bool_decide (file_type i = Regular).
Definition is_symlink (i : Ext2Inode) : bool := bool_decide (file_type i = SymLink).

(** [Ext2Inode::size] *)
Definition inode_file_size (i : Ext2Inode) : u64 :=
  if is_file i then Z.lor (Z.shiftl (i_dir_acl i) 32) (i_size i) else i_size i.

Definition permissions (i : Ext2Inode) : u16 := Z.land (i_mode i) EXT2_S_PERM_MASK.

(** Field updates. *)
Definition set_times (a c m : u32) (i : Ext2Inode) : Ext2Inode :=
  mkInode (i_mode i) (i_uid i) (i_size i) a c m (i_dtime i) (i_gid i) (i_links_count i)
    (i_blocks i) (i_flags i) (i_osd1 i) (i_block i) (i_generation i) (i_file_acl i) (i_dir_acl i)
    (i_faddr i) (i_osd2 i).

Definition set_links_dtime (links : u16) (dtime : u32) (i : Ext2Inode) : Ext2Inode :=
  mkInode (i_mode i) (i_uid i) (i_size i) (i_atime i) (i_ctime i) (i_mtime i) dtime (i_gid i) links
    (i_blocks i) (i_flags i) (i_osd1 i) (i_block i) (i_generation i) (i_file_acl i) (i_dir_acl i)
    (i_faddr i) (i_osd2 i).

Definition set_size_blocks (size blocks : u32) (ptrs : list u32) (dir_acl : u32) (i : Ext2Inode)
    : Ext2Inode :=
  mkInode (i_mode i) (i_uid i) size (i_atime i) (i_ctime i) (i_mtime i) (i_dtime i) (i_gid i)
    (i_links_count i) blocks (i_flags i) (i_osd1 i) ptrs (i_generation i) (i_file_acl i) dir_acl
    (i_faddr i) (i_osd2 i).

(** [update_timestamps], with the time [now] the call reads. *)
Definition update_timestamps (now : u32) (update_atime update_mtime update_ctime : bool)
    (i : Ext2Inode) : Ext2Inode :=
  set_times (if update_atime then now else i_atime i) (if update_ctime then now else i_ctime i)
    (if update_mtime then now else i_mtime i) i.

(** The constructors, with the time [now] they read. *)
Definition new_regular_file (now : u32) (mode : u16) : Ext2Inode :=
  mkInode (Z.lor EXT2_S_IFREG (Z.land mode 0x1FF)) 0 0 now now now 0 0 1 0 0 0 (replicate 15 0)
    0 0 0 0 (replicate 12 0).

Definition new_directory (now : u32) (mode : u16) : Ext2Inode :=
  mkInode (Z.lor EXT2_S_IFDIR (Z.land mode 0x1FF)) 0 0 now now now 0 0 2 0 0 0 (replicate 15 0)
    0 0 0 0 (replicate 12 0).

(** The [i_block] array as the bytes of its memory, and back. *)
Definition block_bytes (ptrs : list u32) : list u8 := pack (replicate 15 4%nat) ptrs.
Definition bytes_block (bs : list u8) : list u32 := unpack (replicate 15 4%nat) bs.

Definition new_symlink (now : u32) (target : list u8) : Ext2Inode :=
  let ptrs :=
    if decide (length target ≤ 60)%nat
    then bytes_block (list_inserts 0 target (block_bytes (replicate 15 0)))
    else replicate 15 0 in
  mkInode (Z.lor EXT2_S_IFLNK 0x1FF) 0 (wrap 32 (Z.of_nat (length target))) now now now 0 0 1 0 0 0
    ptrs 0 0 0 0 (replicate 12 0).

(** ** Well-typed structures and round trips *)

Record sb_typed (sb : Ext2Superblock) : Prop := {
  sbt_fields : Forall2 fits SB_WIDTHS (Ext2Superblock_fields sb);
  sbt_uuid : length (s_uuid sb) = 16%nat;
  sbt_name : length (s_volume_name sb) = 16%nat;
  sbt_reserved : length (s_reserved sb) = 788%nat;
}.

Record bg_typed (bg : Ext2BlockGroupDesc) : Prop := {
  bgt_fields : Forall2 fits BG_WIDTHS (Ext2BlockGroupDesc_fields bg);
  bgt_reserved : length (bg_reserved bg) = 12%nat;
}.

Record inode_typed (i : Ext2Inode) : Prop := {
  it_fields : Forall2 fits INODE_WIDTHS (Ext2Inode_fields i);
  it_block : length (i_block i) = 15%nat;
  it_osd2 : length (i_osd2 i) = 12%nat;
}.

(** A list of known length is the list of its elements. *)
Ltac explode l :=
  repeat (let x := fresh "x" in destruct l as [|x l]; [discriminate|]);
  destruct l; [|discriminate].

Lemma length_sb_bytes sb : sb_typed sb → length (Ext2Superblock_to_bytes sb) = SB_SIZE.
Proof.
  intros [Hf Hu Hn Hr]. unfold Ext2Superblock_to_bytes.
  rewrite !length_app, length_pack, Hu, Hn, Hr by (by eapply Forall2_length). done.
Qed.

Lemma length_bg_bytes bg : bg_typed bg → length (Ext2BlockGroupDesc_to_bytes bg) = BG_SIZE.
Proof.
  intros [Hf Hr]. unfold Ext2BlockGroupDesc_to_bytes.
  rewrite length_app, length_pack, Hr by (by eapply Forall2_length). done.
Qed.

Lemma length_inode_bytes i : inode_typed i → length (Ext2Inode_to_bytes i) = INODE_SIZE.
Proof.
  intros [Hf Hb Ho]. unfold Ext2Inode_to_bytes.
  rewrite length_app, length_pack, Ho by (by eapply Forall2_length). done.
Qed.

Lemma sb_of_to_bytes sb rest :
  sb_typed sb → Ext2Superblock_of_bytes (Ext2Superblock_to_bytes sb ++ rest) = sb.
Proof.
  intros [Hf Hu Hn Hr]. unfold Ext2Superblock_of_bytes, Ext2Superblock_to_bytes.
  pose proof (length_pack _ _ (Forall2_length _ _ _ Hf)) as Hl. change (sum_list _) with 104%nat in Hl.
  rewrite <- !(assoc_L (++)), unpack_pack by done.
  rewrite take_drop_mid by (rewrite ?Hl; done).
  rewrite (assoc_L (++) (pack _ _)), take_drop_mid by (rewrite ?length_app, ?Hl, ?Hu; done).
  rewrite (assoc_L (++) (_ ++ _)), take_drop_mid by (rewrite ?length_app, ?Hl, ?Hu, ?Hn; done).
  by destruct sb.
Qed.

Lemma bg_of_to_bytes bg rest :
  bg_typed bg → Ext2BlockGroupDesc_of_bytes (Ext2BlockGroupDesc_to_bytes bg ++ rest) = bg.
Proof.
  intros [Hf Hr]. unfold Ext2BlockGroupDesc_of_bytes, Ext2BlockGroupDesc_to_bytes.
  pose proof (length_pack _ _ (Forall2_length _ _ _ Hf)) as Hl. change (sum_list _) with 20%nat in Hl.
  rewrite <- !(assoc_L (++)), unpack_pack by done.
  rewrite take_drop_mid by (rewrite ?Hl; done). by destruct bg.
Qed.

Lemma inode_of_to_bytes i rest :
  inode_typed i → Ext2Inode_of_bytes (Ext2Inode_to_bytes i ++ rest) = i.
Proof.
  intros [Hf Hb Ho]. unfold Ext2Inode_of_bytes, Ext2Inode_to_bytes.
  pose proof (length_pack _ _ (Forall2_length _ _ _ Hf)) as Hl. change (sum_list _) with 116%nat in Hl.
  rewrite <- !(assoc_L (++)), unpack_pack by done.
  rewrite take_drop_mid by (rewrite ?Hl; done).
  destruct i as [? ? ? ? ? ? ? ? ? ? ? ? ptrs ? ? ? ? ?]. cbn in Hb. explode ptrs. done.
Qed.

Lemma length_unpack ws bs : length (unpack ws bs) = length ws.
Proof. revert bs. induction ws; intros bs; cbn; [done|]. by f_equal. Qed.

Lemma inode_fields_of_bytes bs : Ext2Inode_fields (Ext2Inode_of_bytes bs) = unpack INODE_WIDTHS bs.
Proof.
  unfold Ext2Inode_fields, Ext2Inode_of_bytes. cbn -[unpack INODE_WIDTHS nth take drop].
  pose proof (length_unpack INODE_WIDTHS bs) as Hl. change (length INODE_WIDTHS) with 31%nat in Hl.
  generalize dependent (unpack INODE_WIDTHS bs). intros f Hl. explode f. done.
Qed.

Lemma inode_of_bytes_typed bs :
  byte_list bs → (128 ≤ length bs)%nat → inode_typed (Ext2Inode_of_bytes bs).
Proof.
  intros Hb Hl. split.
  - rewrite inode_fields_of_bytes. apply unpack_fits; [done|]. change (sum_list _) with 116%nat. lia.
  - unfold Ext2Inode_of_bytes. cbn [i_block]. rewrite length_take, length_drop, length_unpack. done.
  - unfold Ext2Inode_of_bytes. cbn [i_osd2]. rewrite length_take, length_drop. lia.
Qed.

(** the byte image of an inode and the inode it decodes to determine each
    other: decoding the bytes of a well-typed inode gives it back, whatever
    follows them on disk, and every 128 bytes are the image of exactly the
    well-typed inode they decode to. *)
Theorem Ext2Inode_bytes_roundtrip :
  (∀ i rest, inode_typed i → Ext2Inode_of_bytes (Ext2Inode_to_bytes i ++ rest) = i) ∧
  (∀ bs, byte_list bs → length bs = 128%nat →
     ∃ i, Ext2Inode_from_bytes bs = Some i ∧ inode_typed i ∧ Ext2Inode_to_bytes i = bs).
Proof.
  split; [apply inode_of_to_bytes|]. intros bs Hb Hl. exists (Ext2Inode_of_bytes bs).
  unfold Ext2Inode_from_bytes. rewrite decide_True by done. split; [done|].
  split; [apply inode_of_bytes_typed; [done|lia]|].
  unfold Ext2Inode_to_bytes. rewrite inode_fields_of_bytes, pack_unpack by (done || rewrite Hl; cbn; lia).
  change (sum_list INODE_WIDTHS) with 116%nat. cbn [i_osd2 Ext2Inode_of_bytes].
  rewrite take_take_drop. apply take_ge. lia.
Qed.

(** the packed superblock is 924 bytes long, not the 1024 bytes of the
    on-disk structure it stands for; what [write_to] puts in the buffer
    decodes to the same superblock. *)
Theorem Ext2Superblock_roundtrip sb rest :
  sb_typed sb →
  length (Ext2Superblock_to_bytes sb) = 924%nat ∧
  Ext2Superblock_from_bytes (Ext2Superblock_to_bytes sb ++ rest) = Some sb.
Proof.
  intros Ht. pose proof (length_sb_bytes sb Ht) as Hl. split; [done|].
  unfold Ext2Superblock_from_bytes. rewrite decide_False by (rewrite length_app, Hl; lia).
  by rewrite sb_of_to_bytes.
Qed.

(** ** Typing of the constructors and updates *)

Lemma lor_fits2 a b : fits 2 a → fits 2 b → fits 2 (Z.lor a b).
Proof.
  unfold fits. intros Ha Hb. apply testbit_in_width; [lia|apply Z.lor_nonneg; unfold in_width in *; lia|].
  intros i Hi. rewrite Z.lor_spec.
  by rewrite !(in_width_testbit (8 * Z.of_nat 2)) by (done || lia).
Qed.

Lemma land_fits2 a b : fits 2 b → 0 ≤ a → fits 2 (Z.land a b).
Proof.
  unfold fits. intros Hb Ha. apply testbit_in_width; [lia|apply Z.land_nonneg; lia|].
  intros i Hi. rewrite Z.land_spec, (in_width_testbit (8 * Z.of_nat 2) b i) by (done || lia). apply andb_false_r.
Qed.

Ltac fits_tac :=
  repeat first [apply Forall2_cons_2 | apply Forall2_nil_2 | apply Forall_cons_2 | apply Forall_nil_2];
  try done; try (split; lia).

Lemma length_zero_block : length (block_bytes (replicate 15 0)) = 60%nat.
Proof. done. Qed.

Lemma fast_target_bytes target :
  (length target ≤ 60)%nat →
  list_inserts 0 target (block_bytes (replicate 15 0)) =
  target ++ drop (length target) (block_bytes (replicate 15 0)).
Proof.
  intros Hl. rewrite <- (take_drop (length target) (block_bytes (replicate 15 0))) at 1.
  apply (inserts_mid []); [done|]. rewrite length_take, length_zero_block. lia.
Qed.

Lemma symlink_block_typed target :
  byte_list target → (length target ≤ 60)%nat →
  Forall (fits 4) (bytes_block (list_inserts 0 target (block_bytes (replicate 15 0)))).
Proof.
  intros Hb Hl. rewrite fast_target_bytes by done.
  assert (byte_list (target ++ drop (length target) (block_bytes (replicate 15 0)))) as Hbl.
  { apply Forall_app. split; [done|]. apply Forall_drop, pack_byte. }
  pose proof (unpack_fits (replicate 15 4%nat) _ Hbl) as Hf.
  rewrite length_app, length_drop, length_zero_block in Hf.
  specialize (Hf ltac:(cbn; lia)). unfold bytes_block.
  rewrite Forall_lookup. intros i x Hx.
  destruct (Forall2_lookup_r _ _ _ _ _ Hf Hx) as (w & Hw & Hfw).
  apply lookup_replicate in Hw as [-> _]. done.
Qed.

Lemma inode_typed_intro i :
  Forall2 fits INODE_HEAD_WIDTHS
    [i_mode i; i_uid i; i_size i; i_atime i; i_ctime i; i_mtime i; i_dtime i; i_gid i;
     i_links_count i; i_blocks i; i_flags i; i_osd1 i] →
  Forall (fits 4) (i_block i) → length (i_block i) = 15%nat →
  Forall (fits 4) [i_generation i; i_file_acl i; i_dir_acl i; i_faddr i] →
  length (i_osd2 i) = 12%nat → inode_typed i.
Proof.
  intros Hh Hb Hl Ht Ho. split; [|done|done]. unfold INODE_WIDTHS, Ext2Inode_fields.
  apply Forall2_app; [done|]. apply Forall2_app.
  - rewrite <- Hl. by apply Forall2_replicate_l.
  - change ([4; 4; 4; 4]%nat) with (replicate 4 4%nat). by apply Forall2_replicate_l.
Qed.

Lemma mode_typed mode m' : fits 2 mode → fits 2 m' → fits 2 (Z.lor m' (Z.land mode 0x1FF)).
Proof. intros Hmode Hm'. apply lor_fits2; [done|]. apply land_fits2; [by split|]. apply Hmode. Qed.

Lemma regular_file_typed now mode :
  fits 4 now → fits 2 mode → inode_typed (new_regular_file now mode).
Proof.
  intros Hnow Hmode. apply inode_typed_intro; [|by apply Forall_replicate|done| |done]; cbn; fits_tac.
  apply mode_typed; [done|by split].
Qed.

Lemma update_timestamps_typed now i a m c :
  fits 4 now → inode_typed i → inode_typed (update_timestamps now a m c i).
Proof.
  intros Hnow [Hf Hb Ho]. split; [|done|done]. destruct i. unfold Ext2Inode_fields in *. cbn in *.
  repeat match goal with H : Forall2 _ (_ :: _) (_ :: _) |- _ => apply Forall2_cons in H as [? H] end.
  repeat apply Forall2_cons_2; try done; by case_match.
Qed.
