(* ===== verification/Ext2Core.v ===== *)
(** * ext2: device access, group descriptors and allocation

    Model of the parts of [kernel/src/fs/ext2] that talk to the block device:
    block transfers ([file.rs]), the superblock and the descriptor table on
    disk ([superblock.rs], [block_group.rs]), the bitmap allocators
    ([allocate_block], [free_block], [allocate_inode], [free_inode_bitmap])
    and the inode table ([Ext2Inode::read_from], [write_to]).

    The operations run in the monad [M]: a state [Ext2Fs] (superblock, block
    groups, device), an error value for [Result], and [None] for a panic.  An
    error keeps the changes already made to the device, as in the source.  The
    wall clock is a stream of readings in the state. *)

From S2P Require Import Prelude Bytes BlockDev Ext2Layout.

(** ** The state and the monad *)

Record Ext2Fs (D : Type) := mkFs {
  superblock : Ext2Superblock;
  block_groups : list Ext2BlockGroupDesc;
  device : D;
  mount_id : Z;
  clock : nat → i64;
}.
Arguments mkFs {D}.
Arguments superblock {D}.
Arguments block_groups {D}.
Arguments device {D}.
Arguments mount_id {D}.
Arguments clock {D}.

Definition set_device {D} (d : D) (s : Ext2Fs D) : Ext2Fs D :=
  mkFs (superblock s) (block_groups s) d (mount_id s) (clock s).
Definition set_block_groups {D} (bgs : list Ext2BlockGroupDesc) (s : Ext2Fs D) : Ext2Fs D :=
  mkFs (superblock s) bgs (device s) (mount_id s) (clock s).
Definition set_superblock {D} (sb : Ext2Superblock) (s : Ext2Fs D) : Ext2Fs D :=
  mkFs sb (block_groups s) (device s) (mount_id s) (clock s).
Definition set_clock {D} (c : nat → i64) (s : Ext2Fs D) : Ext2Fs D :=
  mkFs (superblock s) (block_groups s) (device s) (mount_id s) c.

Definition M (D E A : Type) : Type := Ext2Fs D → option (result A E * Ext2Fs D).

#[global] Instance M_ret {D E} : MRet (M D E) := λ A a s, Some (Ok a, s).
#[global] Instance M_bind {D E} : MBind (M D E) := λ A B k m s,
  match m s with
  | None => None
  | Some (Err e, s) => Some (Err e, s)
  | Some (Ok a, s) => k a s
  end.

Definition throw {D E A} (e : E) : M D E A := λ s, Some (Err e, s).
Definition panic {D E A} : M D E A := λ _, None.
Definition gets {D E A} (f : Ext2Fs D → A) : M D E A := λ s, Some (Ok (f s), s).
Definition modify {D E} (f : Ext2Fs D → Ext2Fs D) : M D E unit := λ s, Some (Ok tt, f s).
Definition map_err {D E E' A} (f : E → E') (m : M D E A) : M D E' A := λ s,
  match m s with None => None | Some (r, s) => Some (res_map_err f r, s) end.
(** [m.map_err(|_| e)] *)
Definition or_err {D E E' A} (e : E') (m : M D E A) : M D E' A := map_err (λ _, e) m.
(** The [Result] of a call as a value. *)
Definition attempt {D E E' A} (m : M D E A) : M D E' (result A E) := λ s,
  match m s with None => None | Some (r, s) => Some (Ok r, s) end.
Definition lift_option {D E A} (o : option A) : M D E A :=
  match o with Some a => mret a | None => panic end.
Definition lift_result {D E A} (r : result A E) : M D E A :=
  match r with Ok a => mret a | Err e => throw e end.

(** [assert]-like guard: index or slice bound, division by zero. *)
Definition require {D E} (b : bool) : M D E unit := if b then mret () else panic.

(** [for i in a..a + n] threading an accumulator. *)
Fixpoint for_range {D E A} (n i : nat) (f : nat → A → M D E A) (a : A) : M D E A :=
  match n with
  | O => mret a
  | S n => a ← f i a; for_range n (S i) f a
  end.

(** [crate::time::current_unix_time() as u32] *)
Definition current_unix_time {D E} : M D E u32 := λ s,
  Some (Ok (wrap 32 (clock s 0%nat)), set_clock (λ n, clock s (S n)) s).

Section ext2.
Context {D : Type} `{BlockDevice D}.

(** ** Block transfers *)

Definition dev_read (n : u64) : M D BlockError (list u8) := λ s,
  Some (read_block (device s) n, s).

Definition dev_write (n : u64) (b : list u8) : M D BlockError unit := λ s,
  let '(d, r) := write_block (device s) n b in Some (r, set_device d s).

(** [device.block_size()], by which every caller divides. *)
Definition dev_bs {E} : M D E Z :=
  dbs ← gets (λ s, dev_block_size (device s)); require (0 <? dbs);; mret dbs.

(** A block-sized slice of a zeroed [[u8; 4096]] on the stack. *)
Definition stack_slice {E} (bs : Z) : M D E (list u8) :=
  require (bs <=? 4096);; mret (replicate (Z.to_nat bs) 0).

Definition read_ext2_blocks (ext2_block_num : u32) (ext2_block_count ext2_block_size : Z)
    (buf : list u8) : M D BlockError (list u8) :=
  dbs ← dev_bs;
  let device_blocks_per_ext2_block := ext2_block_size / dbs in
  let start_device_block := wrap 64 (ext2_block_num * device_blocks_per_ext2_block) in
  let total_device_blocks := wrap 64 (ext2_block_count * device_blocks_per_ext2_block) in
  let byte_count := wrap 64 (ext2_block_count * ext2_block_size) in
  if Z.of_nat (length buf) <? byte_count then throw IoError
  else
    d ← gets device;
    filled ← lift_result (read_blocks d start_device_block total_device_blocks
                            (take (Z.to_nat byte_count) buf));
    mret (list_inserts 0 filled buf).

Definition read_ext2_block (ext2_block_num : u32) (ext2_block_size : Z) (buf : list u8)
    : M D BlockError (list u8) :=
  read_ext2_blocks ext2_block_num 1 ext2_block_size buf.

(** [device.write_block(start + i, &buf[i * dbs..(i + 1) * dbs])?] *)
Definition write_step (start : u64) (dbs : Z) (buf : list u8) (i : nat) (_ : unit)
    : M D BlockError unit :=
  require (bool_decide (S i * Z.to_nat dbs ≤ length buf)%nat);;
  dev_write (wrap 64 (start + Z.of_nat i))
    (take (Z.to_nat dbs) (drop (i * Z.to_nat dbs) buf)).

(** [device.read_block(start + i, &mut buf[i * dbs..(i + 1) * dbs])?] *)
Definition read_step (start : u64) (dbs : Z) (i : nat) (buf : list u8)
    : M D BlockError (list u8) :=
  require (bool_decide (S i * Z.to_nat dbs ≤ length buf)%nat);;
  data ← dev_read (wrap 64 (start + Z.of_nat i));
  mret (list_inserts (i * Z.to_nat dbs) data buf).

Definition write_ext2_block (ext2_block_num : u32) (ext2_block_size : Z) (buf : list u8)
    : M D BlockError unit :=
  dbs ← dev_bs;
  let device_blocks_per_ext2_block := ext2_block_size / dbs in
  let start_device_block := wrap 64 (ext2_block_num * device_blocks_per_ext2_block) in
  for_range (Z.to_nat device_blocks_per_ext2_block) 0 (write_step start_device_block dbs buf) ().

(** ** The superblock on disk *)

(** Device blocks [start .. start + n] into a 4096-byte buffer. *)
Definition read_span (start : u64) (n : nat) (dbs : Z) (buf : list u8)
    : M D BlockError (list u8) :=
  for_range n 0 (read_step start dbs) buf.

Definition write_span (start : u64) (n : nat) (dbs : Z) (buf : list u8) : M D BlockError unit :=
  for_range n 0 (write_step start dbs buf) ().

(** Start block, offset in it and number of device blocks of the superblock. *)
Definition sb_span (dbs : Z) : u64 * Z * Z :=
  let offset_in_block := SUPERBLOCK_OFFSET mod dbs in
  let bytes_needed := offset_in_block + Z.of_nat SB_SIZE in
  (SUPERBLOCK_OFFSET / dbs, offset_in_block, (bytes_needed + dbs - 1) / dbs).

Definition Ext2Superblock_read_from : M D BlockError Ext2Superblock :=
  dbs ← dev_bs;
  let '(start_block, offset_in_block, blocks_needed) := sb_span dbs in
  buffer ← read_span start_block (Z.to_nat blocks_needed) dbs (replicate 4096 0);
  require (offset_in_block + Z.of_nat SB_SIZE <=? 4096);;
  let sb := Ext2Superblock_of_bytes (take SB_SIZE (drop (Z.to_nat offset_in_block) buffer)) in
  if negb (Ext2Superblock_is_valid sb) then throw IoError else mret sb.

Definition Ext2Superblock_write_to (sb : Ext2Superblock) : M D BlockError unit :=
  dbs ← dev_bs;
  let '(start_block, offset_in_block, blocks_needed) := sb_span dbs in
  buffer ← read_span start_block (Z.to_nat blocks_needed) dbs (replicate 4096 0);
  require (offset_in_block + Z.of_nat SB_SIZE <=? 4096);;
  write_span start_block (Z.to_nat blocks_needed) dbs
    (list_inserts (Z.to_nat offset_in_block) (Ext2Superblock_to_bytes sb) buffer).

(** ** The descriptor table on disk *)

Definition bgdt_block (bs : Z) : Z := if bs =? 1024 then 2 else 1.

Definition bgdt_blocks (bs : Z) (count : nat) : Z :=
  (Z.of_nat (count * BG_SIZE) + bs - 1) / bs.

Definition Ext2BlockGroupDesc_read_table (sb : Ext2Superblock)
    : M D BlockError (list Ext2BlockGroupDesc) :=
  let bs := block_size sb in
  require (0 <? bs);;
  bg_count ← lift_option (block_group_count sb);
  let n := bgdt_blocks bs (Z.to_nat bg_count) in
  dbs ← dev_bs;
  let per := bs / dbs in
  buffer ← for_range (Z.to_nat n) 0 (λ i buf,
      let start_device_block := (bgdt_block bs + Z.of_nat i) * per in
      for_range (Z.to_nat per) 0 (λ j buf,
        data ← dev_read (wrap 64 (start_device_block + Z.of_nat j));
        mret (list_inserts (i * Z.to_nat bs + j * Z.to_nat dbs) data buf)) buf)
    (replicate (Z.to_nat (n * bs)) 0);
  mret (map (λ i, Ext2BlockGroupDesc_of_bytes (take BG_SIZE (drop (i * BG_SIZE) buffer)))
          (seq 0 (Z.to_nat bg_count))).

Definition Ext2BlockGroupDesc_write_table (sb : Ext2Superblock)
    (descriptors : list Ext2BlockGroupDesc) : M D BlockError unit :=
  let bs := block_size sb in
  require (0 <? bs);;
  let n := bgdt_blocks bs (length descriptors) in
  dbs ← dev_bs;
  let per := bs / dbs in
  let buffer := list_inserts 0 (concat (map Ext2BlockGroupDesc_to_bytes descriptors))
                  (replicate (Z.to_nat (n * bs)) 0) in
  for_range (Z.to_nat n) 0 (λ i _,
    let start_device_block := (bgdt_block bs + Z.of_nat i) * per in
    for_range (Z.to_nat per) 0 (λ j _,
      dev_write (wrap 64 (start_device_block + Z.of_nat j))
        (take (Z.to_nat dbs) (drop (i * Z.to_nat bs + j * Z.to_nat dbs) buffer))) ()) ().

(** ** Bitmaps *)

Definition bit_mask (local : Z) : Z := Z.shiftl 1 (local mod 8).
Definition bitmap_byte (bitmap : list u8) (local : Z) : u8 := nth (Z.to_nat (local / 8)) bitmap 0.

Definition bit_is_free (bitmap : list u8) (local : Z) : bool :=
  Z.land (bitmap_byte bitmap local) (bit_mask local) =? 0.

Definition bitmap_set (bitmap : list u8) (local : Z) : list u8 :=
  <[Z.to_nat (local / 8) := Z.lor (bitmap_byte bitmap local) (bit_mask local)]> bitmap.

Definition bitmap_clear (bitmap : list u8) (local : Z) : list u8 :=
  <[Z.to_nat (local / 8) := Z.land (bitmap_byte bitmap local) (wnot 8 (bit_mask local))]> bitmap.

(** The scan of [allocate_block] over one group: bits [local ..], until the
    group's last bit ([n] left) or the end of the bitmap block. *)
Fixpoint find_free_block (n : nat) (bitmap : list u8) (bs local : Z) : option Z :=
  match n with
  | O => None
  | S n =>
      if bs <=? local / 8 then None
      else if bit_is_free bitmap local then Some local
      else find_free_block n bitmap bs (local + 1)
  end.

Definition set_group (i : nat) (f : Ext2BlockGroupDesc → Ext2BlockGroupDesc)
    (s : Ext2Fs D) : Ext2Fs D :=
  set_block_groups (alter f i (block_groups s)) s.

Fixpoint allocate_block_in (bgs : list Ext2BlockGroupDesc) (bg_index : nat) : M D string u32 :=
  match bgs with
  | [] => throw "No free blocks available"%string
  | bg :: rest =>
      let free_blocks := bg_free_blocks_count bg in
      if free_blocks =? 0 then allocate_block_in rest (S bg_index)
      else
        sb ← gets superblock;
        let bs := block_size sb in
        slice ← stack_slice bs;
        bitmap ← or_err "Failed to read block bitmap"%string
                   (read_ext2_block (bg_block_bitmap bg) bs slice);
        match find_free_block (Z.to_nat (s_blocks_per_group sb)) bitmap bs 0 with
        | None => allocate_block_in rest (S bg_index)
        | Some local_block =>
            let global_block :=
              wrap 32 (s_first_data_block sb + Z.of_nat bg_index * s_blocks_per_group sb
                       + local_block) in
            or_err "Failed to write block bitmap"%string
              (write_ext2_block (bg_block_bitmap bg) bs (bitmap_set bitmap local_block));;
            modify (set_group bg_index (set_bg_free_blocks_count (free_blocks - 1)));;
            or_err "Failed to zero allocated block"%string
              (write_ext2_block global_block bs (replicate (Z.to_nat bs) 0));;
            mret global_block
        end
  end.

Definition allocate_block : M D string u32 :=
  bgs ← gets block_groups; allocate_block_in bgs 0.

Definition free_block (block_num : u32) : M D string unit :=
  sb ← gets superblock;
  let bs := block_size sb in
  if block_num <? s_first_data_block sb
  then throw "Invalid block number (below first data block)"%string
  else
    let adjusted_block := block_num - s_first_data_block sb in
    require (negb (s_blocks_per_group sb =? 0));;
    let bg_index := Z.to_nat (adjusted_block / s_blocks_per_group sb) in
    let local_block := adjusted_block mod s_blocks_per_group sb in
    bgs ← gets block_groups;
    match bgs !! bg_index with
    | None => throw "Block number out of range"%string
    | Some bg =>
        slice ← stack_slice bs;
        bitmap ← or_err "Failed to read block bitmap"%string
                   (read_ext2_block (bg_block_bitmap bg) bs slice);
        let bitmap := if local_block / 8 <? bs then bitmap_clear bitmap local_block else bitmap in
        or_err "Failed to write block bitmap"%string
          (write_ext2_block (bg_block_bitmap bg) bs bitmap);;
        modify (set_group bg_index
          (set_bg_free_blocks_count (wrap 16 (bg_free_blocks_count bg + 1))))
    end.

(** The scan of [allocate_inode]: reserved inodes are skipped before the
    bitmap bound is looked at. *)
Fixpoint find_free_inode (n : nat) (bitmap : list u8) (bs first_ino base local : Z) : option Z :=
  match n with
  | O => None
  | S n =>
      if wrap 32 (base + local + 1) <? first_ino
      then find_free_inode n bitmap bs first_ino base (local + 1)
      else if bs <=? local / 8 then None
      else if bit_is_free bitmap local then Some local
      else find_free_inode n bitmap bs first_ino base (local + 1)
  end.

Fixpoint allocate_inode_in (bgs : list Ext2BlockGroupDesc) (bg_index : nat) : M D string u32 :=
  match bgs with
  | [] => throw "No free inodes available"%string
  | bg :: rest =>
      let free_inodes := bg_free_inodes_count bg in
      if free_inodes =? 0 then allocate_inode_in rest (S bg_index)
      else
        sb ← gets superblock;
        let bs := block_size sb in
        let first_ino := if s_rev_level sb =? 0 then EXT2_FIRST_INO else s_first_ino sb in
        let base := Z.of_nat bg_index * s_inodes_per_group sb in
        slice ← stack_slice bs;
        bitmap ← or_err "Failed to read inode bitmap"%string
                   (read_ext2_block (bg_inode_bitmap bg) bs slice);
        match find_free_inode (Z.to_nat (s_inodes_per_group sb)) bitmap bs first_ino base 0 with
        | None => allocate_inode_in rest (S bg_index)
        | Some local_inode =>
            or_err "Failed to write inode bitmap"%string
              (write_ext2_block (bg_inode_bitmap bg) bs (bitmap_set bitmap local_inode));;
            modify (set_group bg_index (set_bg_free_inodes_count (free_inodes - 1)));;
            mret (wrap 32 (base + local_inode + 1))
        end
  end.

Definition allocate_inode : M D string u32 :=
  bgs ← gets block_groups; allocate_inode_in bgs 0.

Definition free_inode_bitmap (inode_num : u32) : M D string unit :=
  sb ← gets superblock;
  let bs := block_size sb in
  let inode_index := wrap 32 (inode_num - 1) in
  require (negb (s_inodes_per_group sb =? 0));;
  let bg_index := Z.to_nat (inode_index / s_inodes_per_group sb) in
  let local_index := inode_index mod s_inodes_per_group sb in
  bgs ← gets block_groups;
  bg ← lift_option (bgs !! bg_index);
  slice ← stack_slice bs;
  bitmap ← or_err "Failed to read inode bitmap"%string
             (read_ext2_block (bg_inode_bitmap bg) bs slice);
  let bitmap := if local_index / 8 <? bs then bitmap_clear bitmap local_index else bitmap in
  or_err "Failed to write inode bitmap"%string (write_ext2_block (bg_inode_bitmap bg) bs bitmap);;
  modify (set_group bg_index (set_bg_free_inodes_count (wrap 16 (bg_free_inodes_count bg + 1)))).

(** ** The inode table *)

(** First device block, device blocks and byte offset of an inode: the
    address computation of [read_from] and [write_to]. *)
Definition inode_location {E} (inode_num : u32) (dbs : Z) : M D E (u64 * Z * Z) :=
  sb ← gets superblock;
  bgs ← gets block_groups;
  let inode_index := wrap 32 (inode_num - 1) in
  require (negb (s_inodes_per_group sb =? 0));;
  let local_index := inode_index mod s_inodes_per_group sb in
  bg ← lift_option (bgs !! Z.to_nat (inode_index / s_inodes_per_group sb));
  let byte_offset := wrap 32 (local_index * inode_size sb) in
  let ext2_block_size := wrap 32 (Z.shiftl 1024 (s_log_block_size sb mod 32)) in
  require (negb (ext2_block_size =? 0));;
  let target_ext2_block := wrap 32 (bg_inode_table bg + byte_offset / ext2_block_size) in
  let per := ext2_block_size / dbs in
  mret (wrap 64 (target_ext2_block * per), per, byte_offset mod ext2_block_size).

Definition Ext2Inode_read_from (inode_num : u32) : M D BlockError Ext2Inode :=
  dbs ← dev_bs;
  '(start, per, off) ← inode_location inode_num dbs;
  buf ← read_span start (Z.to_nat per) dbs (replicate 4096 0);
  require (off + 128 <=? 4096);;
  mret (Ext2Inode_of_bytes (take INODE_SIZE (drop (Z.to_nat off) buf))).

Definition Ext2Inode_write_to (inode_num : u32) (inode : Ext2Inode) : M D BlockError unit :=
  dbs ← dev_bs;
  '(start, per, off) ← inode_location inode_num dbs;
  buf ← read_span start (Z.to_nat per) dbs (replicate 4096 0);
  require (off + 128 <=? 4096);;
  write_span start (Z.to_nat per) dbs
    (list_inserts (Z.to_nat off) (Ext2Inode_to_bytes inode) buf).
End ext2.
