(* ===== verification/Ext2Blocks.v ===== *)
(** * ext2 blocks on a device

    The file system only looks at the device through whole ext2 blocks.
    [block_data] is the content of an ext2 block; this file shows that the
    transfer functions of [Ext2Core] read and write exactly that, against the
    laws of [BlockDevice], and that an inode written to the inode table is
    read back unchanged while every other inode stays as it was. *)

From S2P Require Import Prelude Bytes BlockDev Ext2Layout Ext2Core.

(** ** Running monadic programs *)

Section run.
Context {D E : Type}.
Implicit Types s : Ext2Fs D.

Lemma bind_ok {A B} (m : M D E A) (k : A → M D E B) s a s' :
  m s = Some (Ok a, s') → (m ≫= k) s = k a s'.
Proof. intros Hm. unfold mbind, M_bind. by rewrite Hm. Qed.

Lemma bind_err {A B} (m : M D E A) (k : A → M D E B) s e s' :
  m s = Some (Err e, s') → (m ≫= k) s = Some (Err e, s').
Proof. intros Hm. unfold mbind, M_bind. by rewrite Hm. Qed.

Lemma bind_Ok_inv {A B} (m : M D E A) (k : A → M D E B) s b s' :
  (m ≫= k) s = Some (Ok b, s') →
  ∃ a s1, m s = Some (Ok a, s1) ∧ k a s1 = Some (Ok b, s').
Proof.
  unfold mbind, M_bind. intros Hm. destruct (m s) as [[[a|e] s1]|]; try done. by exists a, s1.
Qed.

Lemma require_true b s : b = true → require (E:=E) b s = Some (Ok tt, s).
Proof. by intros ->. Qed.

Lemma or_err_ok {E' A} (e : E') (m : M D E A) s a s' :
  m s = Some (Ok a, s') → or_err e m s = Some (Ok a, s').
Proof. intros Hm. unfold or_err, map_err. by rewrite Hm. Qed.

Lemma or_err_Ok_inv {E' A} (e : E') (m : M D E A) s a s' :
  or_err e m s = Some (Ok a, s') → m s = Some (Ok a, s').
Proof.
  unfold or_err, map_err. intros Hm. destruct (m s) as [[[|] ?]|]; by simplify_eq/=.
Qed.
End run.

(** Step over a command that is known to succeed without changing the state. *)
Ltac mstep :=
  match goal with
  | |- context [(gets ?f ≫= ?k) ?s] => rewrite (bind_ok (gets f) k s (f s) s) by reflexivity
  | |- context [(require ?b ≫= ?k) ?s] =>
      rewrite (bind_ok (require b) k s () s) by (apply require_true; first [assumption | lia | done])
  | |- context [(mret ?a ≫= ?k) ?s] => rewrite (bind_ok (mret a) k s a s) by reflexivity
  end.

Section blocks.
Context {D : Type} `{BlockDevice D, !BlockDeviceLaws D}.
Implicit Types (s : Ext2Fs D) (d : D).

(** ** Sequences of device blocks *)

Fixpoint read_seq (d : D) (start : u64) (n : nat) : result (list u8) BlockError :=
  match n with
  | O => Ok []
  | S n =>
      match read_block d start with
      | Err e => Err e
      | Ok b => match read_seq d (start + 1) n with Err e => Err e | Ok bs => Ok (b ++ bs) end
      end
  end.

Lemma read_seq_length d start n data :
  read_seq d start n = Ok data → Z.of_nat (length data) = Z.of_nat n * dev_block_size d.
Proof.
  revert start data. induction n as [|n IH]; intros start data Hr; simplify_eq/=; [done|].
  destruct (read_block d start) as [b|] eqn:Hb; [|done].
  destruct (read_seq d (start + 1) n) as [bs|] eqn:Hs; simplify_eq.
  rewrite length_app, Nat2Z.inj_add, (IH _ _ Hs), (read_block_length d start b Hb). lia.
Qed.

Lemma read_seq_ext d d' start n :
  (∀ i, start ≤ i < start + Z.of_nat n → read_block d' i = read_block d i) →
  read_seq d' start n = read_seq d start n.
Proof.
  revert start. induction n as [|n IH]; intros start Hext; [done|]. cbn.
  rewrite Hext, IH by (intros; try apply Hext; lia). done.
Qed.

(** The default [read_blocks] reads the sequence into the buffer. *)
Lemma read_blocks_from_seq d start n : ∀ i buf,
  0 ≤ start → start + Z.of_nat (i + n) < 2 ^ 64 →
  (Z.to_nat (dev_block_size d) * (i + n) ≤ length buf)%nat →
  read_blocks_from d start n i buf =
  match read_seq d (start + Z.of_nat i) n with
  | Ok data => Ok (list_inserts (i * Z.to_nat (dev_block_size d)) data buf)
  | Err e => Err e
  end.
Proof.
  pose proof (dev_block_size_pos d) as Hp.
  induction n as [|n IH]; intros i buf H0 Hw Hl; [done|]. cbn [read_blocks_from read_seq].
  rewrite wrap_small by (unfold in_width; lia).
  destruct (read_block d (start + Z.of_nat i)) as [b|e] eqn:Hb; [|done].
  pose proof (read_block_length _ _ _ Hb) as Hlb.
  rewrite IH by (rewrite ?length_inserts; lia).
  replace (start + Z.of_nat (S i)) with (start + Z.of_nat i + 1) by lia.
  destruct (read_seq d (start + Z.of_nat i + 1) n) as [bs|] eqn:Hs; [|done]. f_equal.
  pose proof (read_seq_length _ _ _ _ Hs) as Hls.
  replace (S i * Z.to_nat (dev_block_size d))%nat
    with (i * Z.to_nat (dev_block_size d) + length b)%nat by lia.
  rewrite <- (take_drop (i * Z.to_nat (dev_block_size d)) buf).
  set (p := take _ buf). set (q := drop _ buf).
  assert (length p = i * Z.to_nat (dev_block_size d))%nat as Hlp by (apply length_take_le; nia).
  assert (length b + length bs ≤ length q)%nat as Hlq by (unfold q; rewrite length_drop; nia).
  rewrite <- (take_drop (length b) q), <- (take_drop (length bs) (drop (length b) q)).
  rewrite !(inserts_mid p) by (rewrite ?length_take; lia).
  rewrite (assoc_L (++) p b), inserts_mid by (rewrite ?length_app, ?length_take, ?length_drop; lia).
  rewrite !(assoc_L (++) (take _ _)), <- (assoc_L (++) p).
  rewrite (inserts_mid p) by (rewrite ?length_app, ?length_take, ?length_drop; lia).
  by rewrite <- !(assoc_L (++)).
Qed.

Lemma read_seq_app d start n m :
  read_seq d start (n + m) =
  match read_seq d start n with
  | Err e => Err e
  | Ok a => match read_seq d (start + Z.of_nat n) m with Err e => Err e | Ok b => Ok (a ++ b) end
  end.
Proof.
  revert start. induction n as [|n IH]; intros start; cbn [read_seq Nat.add].
  - rewrite Z.add_0_r. by destruct (read_seq d start m).
  - destruct (read_block d start) as [a|]; [|done]. rewrite IH.
    replace (start + 1 + Z.of_nat n) with (start + Z.of_nat (S n)) by lia.
    destruct (read_seq d (start + 1) n) as [b|]; [|done].
    destruct (read_seq d (start + Z.of_nat (S n)) m) as [c|]; [|done]. by rewrite (assoc_L (++)).
Qed.

Lemma read_step_run start dbs i buf s :
  (S i * Z.to_nat dbs ≤ length buf)%nat →
  read_step start dbs i buf s =
  Some (match read_block (device s) (wrap 64 (start + Z.of_nat i)) with
        | Ok data => Ok (list_inserts (i * Z.to_nat dbs) data buf)
        | Err e => Err e
        end, s).
Proof.
  intros Hl. unfold read_step. rewrite bool_decide_true by done. unfold mbind, M_bind, dev_read. cbn.
  by destruct (read_block _ _).
Qed.

Lemma write_step_run start dbs buf i s :
  (S i * Z.to_nat dbs ≤ length buf)%nat →
  write_step start dbs buf i () s =
  let '(d, r) := write_block (device s) (wrap 64 (start + Z.of_nat i))
                   (take (Z.to_nat dbs) (drop (i * Z.to_nat dbs) buf)) in
  Some (r, set_device d s).
Proof.
  intros Hl. unfold write_step. rewrite bool_decide_true by done. done.
Qed.

Lemma read_span_run start n dbs : ∀ i buf s,
  dbs = dev_block_size (device s) → (Z.to_nat dbs * (i + n) ≤ length buf)%nat →
  for_range n i (read_step start dbs) buf s =
  Some (read_blocks_from (device s) start n i buf, s).
Proof.
  induction n as [|n IH]; intros i buf s Hd Hl; [done|]. cbn [for_range read_blocks_from].
  unfold mbind, M_bind. rewrite read_step_run by nia. destruct (read_block (device s) _) as [data|e]; [|done].
  rewrite IH by (done || rewrite length_inserts; lia). by rewrite <- Hd.
Qed.

(** The loop of every block write. *)
Lemma write_loop_run start n dbs buf : ∀ i s,
  dbs = dev_block_size (device s) → (Z.to_nat dbs * (i + n) ≤ length buf)%nat →
  0 ≤ start → start + Z.of_nat (i + n) < 2 ^ 64 →
  ∃ d' r, for_range n i (write_step start dbs buf) () s = Some (r, set_device d' s) ∧
    dev_block_size d' = dbs ∧ num_blocks d' = num_blocks (device s) ∧
    (r = Ok tt →
     read_seq d' (start + Z.of_nat i) n =
       Ok (take (n * Z.to_nat dbs) (drop (i * Z.to_nat dbs) buf)) ∧
     ∀ j, j < start + Z.of_nat i ∨ start + Z.of_nat (i + n) ≤ j →
       read_block d' j = read_block (device s) j).
Proof.
  induction n as [|n IH]; intros i s Hd Hl H0 Hw.
  { exists (device s), (Ok tt). split; [by destruct s|]. by rewrite Hd. }
  cbn [for_range]. unfold mbind, M_bind. rewrite write_step_run by nia.
  rewrite wrap_small by (unfold in_width; lia).
  set (chunk := take (Z.to_nat dbs) _).
  assert (Z.of_nat (length chunk) = dbs) as Hlc.
  { pose proof (dev_block_size_pos (device s)). unfold chunk. rewrite length_take, length_drop. nia. }
  pose proof (dev_block_size_write (device s) (start + Z.of_nat i) chunk) as Hb.
  pose proof (num_blocks_write (device s) (start + Z.of_nat i) chunk) as Hn.
  destruct (write_block (device s) (start + Z.of_nat i) chunk) as [d1 r1] eqn:Hw1.
  cbn [fst] in Hb, Hn. destruct r1 as [[]|e]; cycle 1.
  { exists d1, (Err e). split; [done|]. split; [congruence|]. done. }
  destruct (IH (S i) (set_device d1 s) ltac:(cbn; congruence) ltac:(lia) H0 ltac:(lia))
    as (d' & r & -> & Hd' & Hn' & Hok).
  exists d', r. split; [by destruct s|]. split; [done|]. cbn in Hn'. split; [congruence|].
  intros ->. destruct (Hok eq_refl) as [Hseq Hrest]. cbn in Hrest. split.
  - cbn [read_seq]. rewrite Hrest by lia. rewrite (read_block_write _ _ _ _ Hw1) by (by rewrite <- Hd).
    replace (start + Z.of_nat i + 1) with (start + Z.of_nat (S i)) by lia. rewrite Hseq. f_equal.
    unfold chunk. rewrite (Nat.mul_succ_l n), (Nat.add_comm (n * _)).
    replace (S i * Z.to_nat dbs)%nat with (i * Z.to_nat dbs + Z.to_nat dbs)%nat by lia.
    by rewrite <- drop_drop, take_take_drop.
  - intros j Hj. rewrite Hrest by lia. apply (read_block_write_ne _ _ _ _ _ Hw1). lia.
Qed.

(** ** Blocks of the file system *)

Definition bsize (s : Ext2Fs D) : Z := block_size (superblock s).
(** Device blocks per ext2 block. *)
Definition per (s : Ext2Fs D) : Z := bsize s / dev_block_size (device s).

(** The geometry every mounted file system has: 1, 2 or 4 KiB blocks, a whole
    number of device blocks each. *)
Record geom (s : Ext2Fs D) : Prop := {
  g_log : 0 ≤ s_log_block_size (superblock s) ≤ 2;
  g_div : (dev_block_size (device s) | bsize s);
}.

Definition block_data (s : Ext2Fs D) (n : u32) : result (list u8) BlockError :=
  read_seq (device s) (n * per s) (Z.to_nat (per s)).

Lemma geom_bsize s : geom s → bsize s = 1024 ∨ bsize s = 2048 ∨ bsize s = 4096.
Proof.
  intros [Hl _]. unfold bsize, block_size.
  assert (s_log_block_size (superblock s) = 0 ∨ s_log_block_size (superblock s) = 1 ∨
          s_log_block_size (superblock s) = 2) as [->|[->| ->]] by lia; vm_compute; auto.
Qed.

Lemma geom_per s : geom s →
  0 < per s ≤ 4096 ∧ per s * dev_block_size (device s) = bsize s ∧
  (Z.to_nat (per s) * Z.to_nat (dev_block_size (device s)) = Z.to_nat (bsize s))%nat.
Proof.
  intros Hg. pose proof (geom_bsize s Hg) as Hb. destruct Hg as [_ [k Hk]].
  pose proof (dev_block_size_pos (device s)) as Hp.
  assert (per s = k) as -> by (unfold per; rewrite Hk; apply Z.div_mul; lia).
  split; [nia|]. split; [done|]. rewrite Hk. nia.
Qed.

Lemma block_data_length s n b :
  geom s → block_data s n = Ok b → length b = Z.to_nat (bsize s).
Proof.
  intros Hg Hr. apply read_seq_length in Hr. destruct (geom_per s Hg) as (? & ? & ?). nia.
Qed.

Lemma dev_bs_run {E} s : dev_bs (E:=E) s = Some (Ok (dev_block_size (device s)), s).
Proof.
  unfold dev_bs. mstep. pose proof (dev_block_size_pos (device s)). by mstep.
Qed.

(** [read_ext2_blocks] on a buffer of the right size. *)
Lemma read_ext2_blocks_run n count buf s :
  geom s → 0 ≤ n → 0 ≤ count → n + count ≤ 2 ^ 32 →
  Z.of_nat (length buf) = count * bsize s →
  read_ext2_blocks n count (bsize s) buf s =
  Some (read_seq (device s) (n * per s) (Z.to_nat (count * per s)), s).
Proof.
  intros Hg Hn Hc Hw Hl. destruct (geom_per s Hg) as (Hper & Hpb & Hpn).
  pose proof (geom_bsize s Hg) as Hb. unfold read_ext2_blocks.
  rewrite (bind_ok _ _ _ _ _ (dev_bs_run s)). fold (per s).
  rewrite !wrap_small by (unfold in_width; nia).
  rewrite (proj2 (Z.ltb_ge _ _)) by lia. mstep. rewrite take_ge by lia.
  assert (read_blocks (device s) (n * per s) (count * per s) buf =
          read_seq (device s) (n * per s) (Z.to_nat (count * per s))) as Hr.
  { unfold read_blocks, saturating_mul. rewrite (proj2 (Z.ltb_ge _ _)) by nia.
    rewrite read_blocks_from_seq by nia. cbn [Z.of_nat Nat.mul]. rewrite Z.add_0_r.
    destruct (read_seq _ _ _) as [data|] eqn:Hs; [|done]. f_equal. apply inserts_all.
    apply read_seq_length in Hs. nia. }
  rewrite Hr. destruct (read_seq _ _ _) as [data|] eqn:Hs; [|done]. cbn [lift_result]. mstep.
  unfold mret, M_ret. do 3 f_equal. apply inserts_all. apply read_seq_length in Hs. nia.
Qed.

Lemma read_ext2_block_run n buf s :
  geom s → in_width 32 n → length buf = Z.to_nat (bsize s) →
  read_ext2_block n (bsize s) buf s = Some (block_data s n, s).
Proof.
  intros Hg Hn Hl. pose proof (geom_bsize s Hg). unfold read_ext2_block.
  rewrite read_ext2_blocks_run by (done || unfold in_width in *; lia).
  by rewrite Z.mul_1_l.
Qed.

Lemma stack_slice_run {E} s :
  geom s → stack_slice (E:=E) (bsize s) s = Some (Ok (replicate (Z.to_nat (bsize s)) 0), s).
Proof. intros Hg. pose proof (geom_bsize s Hg). unfold stack_slice. by mstep. Qed.

(** Only the device changes, and its shape does not. *)
Definition same_shape (s s' : Ext2Fs D) : Prop :=
  superblock s' = superblock s ∧ dev_block_size (device s') = dev_block_size (device s) ∧
  num_blocks (device s') = num_blocks (device s).

Lemma same_shape_refl s : same_shape s s.
Proof. done. Qed.
Lemma same_shape_trans s1 s2 s3 : same_shape s1 s2 → same_shape s2 s3 → same_shape s1 s3.
Proof. unfold same_shape. intuition congruence. Qed.

Lemma same_shape_sym s s' : same_shape s s' → same_shape s' s.
Proof. unfold same_shape. intuition congruence. Qed.
Lemma same_shape_bsize s s' : same_shape s s' → bsize s' = bsize s.
Proof. intros [Hs _]. unfold bsize. by rewrite Hs. Qed.
Lemma same_shape_per s s' : same_shape s s' → per s' = per s.
Proof. intros (Hs & Hd & _). unfold per, bsize. by rewrite Hs, Hd. Qed.
Lemma same_shape_geom s s' : same_shape s s' → geom s → geom s'.
Proof. intros (Hs & Hd & _) [Hl Hv]. split; unfold bsize; by rewrite Hs, ?Hd. Qed.

(** A block write that completes changes exactly that block. *)
Lemma write_ext2_block_run n buf s :
  geom s → in_width 32 n → length buf = Z.to_nat (bsize s) →
  ∃ d' r, write_ext2_block n (bsize s) buf s = Some (r, set_device d' s) ∧
    same_shape s (set_device d' s) ∧
    (r = Ok tt → block_data (set_device d' s) n = Ok buf ∧
       ∀ n', in_width 32 n' → n' ≠ n → block_data (set_device d' s) n' = block_data s n').
Proof.
  intros Hg Hn Hl. destruct (geom_per s Hg) as (Hper & Hpb & Hpn). unfold in_width in *.
  unfold write_ext2_block. rewrite (bind_ok _ _ _ _ _ (dev_bs_run s)). fold (per s).
  rewrite wrap_small by (unfold in_width; nia).
  destruct (write_loop_run (n * per s) (Z.to_nat (per s)) (dev_block_size (device s)) buf 0 s)
    as (d' & r & -> & Hd & Hnb & Hok); [done|nia|nia|nia|].
  assert (same_shape s (set_device d' s)) as Hss by (split; [done|split; [done|done]]).
  exists d', r. split; [done|]. split; [done|]. intros Hr. destruct (Hok Hr) as [Hseq Hrest].
  unfold block_data. rewrite (same_shape_per _ _ Hss). cbn [device set_device].
  rewrite Z.add_0_r in Hseq. split.
  - rewrite Hseq. cbn [Nat.mul drop]. f_equal. apply take_ge. lia.
  - intros n' Hn' Hne. apply read_seq_ext. intros i Hi. apply Hrest. nia.
Qed.

Lemma write_ext2_block_ok n buf s s' :
  geom s → in_width 32 n → length buf = Z.to_nat (bsize s) →
  write_ext2_block n (bsize s) buf s = Some (Ok tt, s') →
  s' = set_device (device s') s ∧ same_shape s s' ∧ block_data s' n = Ok buf ∧
  ∀ n', in_width 32 n' → n' ≠ n → block_data s' n' = block_data s n'.
Proof.
  intros Hg Hn Hl Hw. destruct (write_ext2_block_run n buf s Hg Hn Hl) as (d' & r & Hw' & Hss & Hok).
  rewrite Hw' in Hw. simplify_eq. destruct (Hok eq_refl). by split.
Qed.

(** ** The inode table *)

Definition inode_group (s : Ext2Fs D) (n : u32) : Z := (n - 1) / s_inodes_per_group (superblock s).

(** Byte offset of an inode in the table of its group. *)
Definition inode_byte (s : Ext2Fs D) (n : u32) : Z :=
  (n - 1) mod s_inodes_per_group (superblock s) * inode_size (superblock s).

Definition inode_block (s : Ext2Fs D) (bg : Ext2BlockGroupDesc) (n : u32) : u32 :=
  bg_inode_table bg + inode_byte s n / bsize s.
Definition inode_off (s : Ext2Fs D) (n : u32) : Z := inode_byte s n mod bsize s.

(** Blocks of one group's table. *)
Definition itable_len (s : Ext2Fs D) : Z :=
  (s_inodes_per_group (superblock s) * inode_size (superblock s) + bsize s - 1) / bsize s.

(** Inodes of at least 128 bytes that do not straddle blocks, in tables that
    do not overlap. *)
Record itable (s : Ext2Fs D) : Prop := {
  it_ipg : 0 < s_inodes_per_group (superblock s);
  it_size : 128 ≤ inode_size (superblock s);
  it_div : (inode_size (superblock s) | bsize s);
  it_bytes : s_inodes_per_group (superblock s) * inode_size (superblock s) < 2 ^ 32;
  it_range i bg : block_groups s !! i = Some bg →
    0 ≤ bg_inode_table bg ∧ bg_inode_table bg + itable_len s ≤ 2 ^ 32;
  it_disjoint i j bg bg' : block_groups s !! i = Some bg → block_groups s !! j = Some bg' →
    i ≠ j → bg_inode_table bg + itable_len s ≤ bg_inode_table bg' ∨
            bg_inode_table bg' + itable_len s ≤ bg_inode_table bg;
}.

Definition valid_inode (s : Ext2Fs D) (n : u32) (bg : Ext2BlockGroupDesc) : Prop :=
  1 ≤ n < 2 ^ 32 ∧ block_groups s !! Z.to_nat (inode_group s n) = Some bg.

Lemma inode_byte_bound s n :
  itable s → 0 ≤ inode_byte s n ∧ inode_byte s n + inode_size (superblock s) ≤
    s_inodes_per_group (superblock s) * inode_size (superblock s).
Proof.
  intros [Hi Hs _ _ _ _]. unfold inode_byte.
  pose proof (Z.mod_pos_bound (n - 1) _ Hi). nia.
Qed.

Lemma inode_off_bound s n :
  geom s → itable s → 0 ≤ inode_off s n ∧ inode_off s n + inode_size (superblock s) ≤ bsize s.
Proof.
  intros Hg Hit. pose proof (geom_bsize s Hg). destruct Hit as [Hi Hs [k Hk] _ _ _].
  unfold inode_off, inode_byte. rewrite Hk.
  set (x := (n - 1) mod s_inodes_per_group (superblock s)).
  assert (0 < k) by nia.
  rewrite Zmult_mod_distr_r. pose proof (Z.mod_pos_bound x k ltac:(lia)). nia.
Qed.

Lemma inode_block_bound s n bg :
  geom s → itable s → valid_inode s n bg →
  bg_inode_table bg ≤ inode_block s bg n < bg_inode_table bg + itable_len s ∧
  in_width 32 (inode_block s bg n).
Proof.
  intros Hg Hit [Hn Hbg]. pose proof (geom_bsize s Hg) as Hb.
  pose proof (inode_byte_bound s n Hit) as [H0 H1]. pose proof (it_size s Hit).
  destruct (it_range s Hit _ _ Hbg) as [Ht0 Ht1].
  assert (0 ≤ inode_byte s n / bsize s < itable_len s) as Hq.
  { split; [apply Z.div_pos; lia|]. unfold itable_len.
    assert (inode_byte s n / bsize s + 1 ≤ (s_inodes_per_group (superblock s) *
      inode_size (superblock s) + bsize s - 1) / bsize s) as Hle; [|lia].
    rewrite <- Z.div_add by lia. apply Z.div_le_mono; lia. }
  unfold inode_block, in_width. lia.
Qed.

Lemma ext2_block_size_u32 s :
  geom s → wrap 32 (Z.shiftl 1024 (s_log_block_size (superblock s) mod 32)) = bsize s.
Proof.
  intros [Hl _]. unfold bsize, block_size.
  by assert (s_log_block_size (superblock s) = 0 ∨ s_log_block_size (superblock s) = 1 ∨
             s_log_block_size (superblock s) = 2) as [->|[->| ->]] by lia.
Qed.

Lemma inode_location_run {E} s n bg :
  geom s → itable s → valid_inode s n bg →
  inode_location (E:=E) n (dev_block_size (device s)) s =
  Some (Ok (inode_block s bg n * per s, per s, inode_off s n), s).
Proof.
  intros Hg Hit Hv. pose proof (geom_bsize s Hg) as Hb. destruct (geom_per s Hg) as (Hper & _ & _).
  pose proof (inode_block_bound s n bg Hg Hit Hv) as [_ Hw]. destruct Hv as [Hn Hbg].
  pose proof (inode_byte_bound s n Hit) as [H0 H1]. pose proof (it_ipg s Hit).
  pose proof (it_bytes s Hit). pose proof (it_size s Hit). unfold inode_group in Hbg.
  unfold inode_location. do 2 mstep. rewrite (wrap_small 32 (n - 1)) by (unfold in_width; lia).
  rewrite (bind_ok _ _ s tt s)
    by (apply require_true, negb_true_iff, Z.eqb_neq; lia).
  rewrite Hbg. cbn [lift_option]. mstep. rewrite ext2_block_size_u32 by done.
  rewrite (bind_ok _ _ s tt s) by (apply require_true, negb_true_iff, Z.eqb_neq; lia).
  fold (inode_byte s n). rewrite (wrap_small 32 (inode_byte s n)) by (unfold in_width; lia).
  unfold inode_block in *. rewrite (wrap_small 32 (_ + _)) by done. fold (per s).
  rewrite wrap_small by (unfold in_width in *; nia). done.
Qed.

Lemma read_span_block s n :
  geom s → in_width 32 n →
  read_span (n * per s) (Z.to_nat (per s)) (dev_block_size (device s)) (replicate 4096 0) s =
  Some (match block_data s n with
        | Ok b => Ok (b ++ replicate (4096 - Z.to_nat (bsize s)) 0)
        | Err e => Err e
        end, s).
Proof.
  intros Hg Hn. destruct (geom_per s Hg) as (Hper & Hpb & Hpn).
  pose proof (geom_bsize s Hg) as Hb. unfold in_width in Hn.
  unfold read_span. rewrite read_span_run by (done || rewrite length_replicate; lia).
  rewrite read_blocks_from_seq by (rewrite ?length_replicate; nia).
  rewrite Z.add_0_r. unfold block_data. destruct (read_seq _ _ _) as [b|e] eqn:Hr; [|done].
  apply read_seq_length in Hr. do 3 f_equal. cbn [Nat.mul].
  replace 4096%nat with (length b + (4096 - Z.to_nat (bsize s)))%nat at 1 by nia.
  rewrite replicate_add, <- (app_nil_l (_ ++ _)), inserts_mid by (rewrite ?length_replicate; done).
  done.
Qed.

(** [Ext2Inode_read_from] decodes the inode's slot. *)
Lemma inode_read_run s n bg :
  geom s → itable s → valid_inode s n bg →
  Ext2Inode_read_from n s =
  Some (match block_data s (inode_block s bg n) with
        | Ok b => Ok (Ext2Inode_of_bytes (take 128 (drop (Z.to_nat (inode_off s n)) b)))
        | Err e => Err e
        end, s).
Proof.
  intros Hg Hit Hv. pose proof (inode_block_bound s n bg Hg Hit Hv) as [_ Hw].
  pose proof (inode_off_bound s n Hg Hit) as [Ho Ho']. pose proof (it_size s Hit).
  pose proof (geom_bsize s Hg) as Hb. unfold Ext2Inode_read_from.
  rewrite (bind_ok _ _ _ _ _ (dev_bs_run s)), (bind_ok _ _ _ _ _ (inode_location_run s n bg Hg Hit Hv)).
  pose proof (read_span_block s (inode_block s bg n) Hg Hw) as Hr.
  destruct (block_data s (inode_block s bg n)) as [b|e] eqn:Hd;
    [|by rewrite (bind_err _ _ _ _ _ Hr)].
  rewrite (bind_ok _ _ _ _ _ Hr). mstep. unfold mret, M_ret. do 4 f_equal.
  pose proof (block_data_length s _ b Hg Hd). unfold INODE_SIZE.
  rewrite drop_app_le, take_app_le by (rewrite ?length_drop; lia). done.
Qed.

Lemma write_span_block s n buf :
  geom s → in_width 32 n → (Z.to_nat (bsize s) ≤ length buf)%nat →
  ∃ d' r, write_span (n * per s) (Z.to_nat (per s)) (dev_block_size (device s)) buf s =
      Some (r, set_device d' s) ∧
    same_shape s (set_device d' s) ∧
    (r = Ok tt → block_data (set_device d' s) n = Ok (take (Z.to_nat (bsize s)) buf) ∧
       ∀ n', in_width 32 n' → n' ≠ n → block_data (set_device d' s) n' = block_data s n').
Proof.
  intros Hg Hn Hl. destruct (geom_per s Hg) as (Hper & Hpb & Hpn). unfold in_width in *.
  destruct (write_loop_run (n * per s) (Z.to_nat (per s)) (dev_block_size (device s)) buf 0 s)
    as (d' & r & Hrun & Hd & Hnb & Hok); [done|nia|nia|nia|].
  assert (same_shape s (set_device d' s)) as Hss by (split; [done|split; [done|done]]).
  exists d', r. split; [done|]. split; [done|]. intros Hr. destruct (Hok Hr) as [Hseq Hrest].
  unfold block_data. rewrite (same_shape_per _ _ Hss). cbn [device set_device].
  rewrite Z.add_0_r in Hseq. split.
  - rewrite Hseq. cbn [Nat.mul drop]. by rewrite Hpn.
  - intros n' Hn' Hne. apply read_seq_ext. intros i Hi. apply Hrest. nia.
Qed.

(** The slot of an inode in its block. *)
Definition put_inode (i : Ext2Inode) (off : Z) (b : list u8) : list u8 :=
  list_inserts (Z.to_nat off) (Ext2Inode_to_bytes i) b.

(** The write of an inode is the write of its block. *)
Lemma inode_write_span s n bg i b :
  geom s → itable s → valid_inode s n bg → inode_typed i →
  block_data s (inode_block s bg n) = Ok b →
  length (put_inode i (inode_off s n) b) = Z.to_nat (bsize s) ∧
  Ext2Inode_write_to n i s =
  write_span (inode_block s bg n * per s) (Z.to_nat (per s)) (dev_block_size (device s))
    (put_inode i (inode_off s n) b ++ replicate (4096 - Z.to_nat (bsize s)) 0) s.
Proof.
  intros Hg Hit Hv Hi Hd. pose proof (inode_block_bound s n bg Hg Hit Hv) as [_ Hw].
  pose proof (inode_off_bound s n Hg Hit) as [Ho Ho']. pose proof (it_size s Hit).
  pose proof (geom_bsize s Hg) as Hb. pose proof (block_data_length s _ b Hg Hd) as Hlb.
  pose proof (length_inode_bytes i Hi) as Hli. unfold INODE_SIZE in Hli.
  split; [unfold put_inode; by rewrite length_inserts|]. unfold Ext2Inode_write_to.
  rewrite (bind_ok _ _ _ _ _ (dev_bs_run s)), (bind_ok _ _ _ _ _ (inode_location_run s n bg Hg Hit Hv)).
  pose proof (read_span_block s (inode_block s bg n) Hg Hw) as Hr. rewrite Hd in Hr.
  rewrite (bind_ok _ _ _ _ _ Hr). mstep. by rewrite inserts_app_l by lia.
Qed.

Lemma inode_write_run s n bg i b :
  geom s → itable s → valid_inode s n bg → inode_typed i →
  block_data s (inode_block s bg n) = Ok b →
  ∃ d' r, Ext2Inode_write_to n i s = Some (r, set_device d' s) ∧ same_shape s (set_device d' s) ∧
    (r = Ok tt →
     block_data (set_device d' s) (inode_block s bg n) = Ok (put_inode i (inode_off s n) b) ∧
     ∀ n', in_width 32 n' → n' ≠ inode_block s bg n →
       block_data (set_device d' s) n' = block_data s n').
Proof.
  intros Hg Hit Hv Hi Hd. pose proof (inode_block_bound s n bg Hg Hit Hv) as [_ Hw].
  destruct (inode_write_span s n bg i b Hg Hit Hv Hi Hd) as [Hlp ->].
  destruct (write_span_block s (inode_block s bg n)
              (put_inode i (inode_off s n) b ++ replicate (4096 - Z.to_nat (bsize s)) 0))
    as (d' & r & -> & Hss & Hok); [done|done|rewrite length_app; lia|].
  exists d', r. split; [done|]. split; [done|]. intros ->. destruct (Hok eq_refl) as [Hbd Hfr].
  rewrite take_app_length' in Hbd by done. done.
Qed.

Lemma put_inode_same i off b :
  inode_typed i → 0 ≤ off → (Z.to_nat off + 128 ≤ length b)%nat →
  Ext2Inode_of_bytes (take 128 (drop (Z.to_nat off) (put_inode i off b))) = i.
Proof.
  intros Hi Ho Hl. pose proof (length_inode_bytes i Hi) as Hli. unfold INODE_SIZE in Hli.
  unfold put_inode. rewrite <- (take_drop (Z.to_nat off) b), <- (take_drop 128 (drop _ b)).
  rewrite inserts_mid by (rewrite ?length_take, ?length_drop; lia).
  rewrite take_drop_mid by (rewrite ?length_take; lia).
  rewrite <- (app_nil_r (Ext2Inode_to_bytes i)). by apply inode_of_to_bytes.
Qed.

Lemma put_inode_other i off off' b :
  inode_typed i → 0 ≤ off → 0 ≤ off' → (Z.to_nat off + 128 ≤ length b)%nat →
  off' + 128 ≤ off ∨ off + 128 ≤ off' →
  take 128 (drop (Z.to_nat off') (put_inode i off b)) = take 128 (drop (Z.to_nat off') b).
Proof.
  intros Hi Ho Ho' Hl Hd. pose proof (length_inode_bytes i Hi) as Hli. unfold INODE_SIZE in Hli.
  assert (∃ p q r, b = p ++ q ++ r ∧ length p = Z.to_nat off ∧ length q = 128%nat)
    as (p & q & r & -> & Hp & Hq).
  { exists (take (Z.to_nat off) b), (take 128 (drop (Z.to_nat off) b)), (drop 128 (drop (Z.to_nat off) b)).
    rewrite !take_drop, !length_take, length_drop. split; [done|lia]. }
  unfold put_inode. rewrite inserts_mid by lia. destruct Hd as [Hd|Hd].
  - by rewrite !drop_app_le, !take_app_le by (rewrite ?length_drop; lia).
  - rewrite !(drop_app_ge p) by lia. rewrite !drop_app_ge by lia. by rewrite Hli, Hq.
Qed.

(** Two inodes of the same block have disjoint slots. *)
Lemma inode_slots_disjoint s n m bg bg' :
  geom s → itable s → valid_inode s n bg → valid_inode s m bg' → n ≠ m →
  inode_block s bg n = inode_block s bg' m →
  inode_off s m + 128 ≤ inode_off s n ∨ inode_off s n + 128 ≤ inode_off s m.
Proof.
  intros Hg Hit Hn Hm Hne Heq. pose proof (geom_bsize s Hg) as Hb.
  pose proof (inode_block_bound s n bg Hg Hit Hn) as [Hrn _].
  pose proof (inode_block_bound s m bg' Hg Hit Hm) as [Hrm _].
  destruct Hn as [Hn Hbg], Hm as [Hm Hbg'].
  pose proof (it_ipg s Hit) as Hipg. pose proof (it_size s Hit) as Hsz.
  assert (0 ≤ inode_group s n ∧ 0 ≤ inode_group s m) as [Hgn Hgm]
    by (unfold inode_group; split; apply Z.div_pos; lia).
  destruct (decide (inode_group s n = inode_group s m)) as [Hsame|Hdiff]; cycle 1.
  { destruct (it_disjoint s Hit _ _ _ _ Hbg Hbg'); lia. }
  rewrite Hsame in Hbg. simplify_eq. unfold inode_block in Heq.
  assert (inode_byte s n / bsize s = inode_byte s m / bsize s) as Hq by lia.
  pose proof (Z.div_mod (inode_byte s n) (bsize s) ltac:(lia)) as Hdn.
  pose proof (Z.div_mod (inode_byte s m) (bsize s) ltac:(lia)) as Hdm.
  fold (inode_off s n) in Hdn. fold (inode_off s m) in Hdm.
  unfold inode_group in Hsame. unfold inode_byte in Hdn, Hdm, Hq.
  pose proof (Z.div_mod (n - 1) (s_inodes_per_group (superblock s)) ltac:(lia)).
  pose proof (Z.div_mod (m - 1) (s_inodes_per_group (superblock s)) ltac:(lia)). nia.
Qed.

Lemma inode_block_shape s s' n bg :
  same_shape s s' → inode_block s' bg n = inode_block s bg n ∧ inode_off s' n = inode_off s n.
Proof.
  intros Hss. unfold inode_block, inode_off, inode_byte. rewrite (same_shape_bsize _ _ Hss).
  destruct Hss as (-> & _). done.
Qed.

Lemma itable_shape s s' :
  same_shape s s' → block_groups s' = block_groups s → itable s → itable s'.
Proof.
  intros Hss Hbg [H1 H2 H3 H4 H5 H6].
  assert (itable_len s' = itable_len s) as Hlen.
  { unfold itable_len. rewrite (same_shape_bsize _ _ Hss). by destruct Hss as (-> & _). }
  pose proof Hss as (Hsb & _).
  split; rewrite ?Hlen, ?Hbg, ?(same_shape_bsize _ _ Hss), ?Hsb; done.
Qed.

Lemma valid_inode_shape s s' n bg :
  same_shape s s' → block_groups s' = block_groups s → valid_inode s n bg → valid_inode s' n bg.
Proof.
  intros (Hsb & _) Hbg [Hn Hl]. split; [done|]. unfold inode_group in *. by rewrite Hsb, Hbg.
Qed.

(** An inode written to the inode table. *)
Lemma inode_write_read s n bg i s' :
  geom s → itable s → valid_inode s n bg → inode_typed i →
  Ext2Inode_write_to n i s = Some (Ok tt, s') →
  Ext2Inode_read_from n s' = Some (Ok i, s') ∧
  (∀ m bg', valid_inode s m bg' → m ≠ n →
     fst <$> Ext2Inode_read_from m s' = fst <$> Ext2Inode_read_from m s) ∧
  (∀ b, in_width 32 b → b ≠ inode_block s bg n → block_data s' b = block_data s b).
Proof.
  intros Hg Hit Hv Hi Hw.
  assert (∃ b, block_data s (inode_block s bg n) = Ok b) as [b Hb].
  { destruct (block_data s (inode_block s bg n)) as [b|e] eqn:Hd; [by exists b|exfalso].
    pose proof (inode_block_bound s n bg Hg Hit Hv) as [_ Hwd]. unfold Ext2Inode_write_to in Hw.
    rewrite (bind_ok _ _ _ _ _ (dev_bs_run s)), (bind_ok _ _ _ _ _ (inode_location_run s n bg Hg Hit Hv)) in Hw.
    pose proof (read_span_block s (inode_block s bg n) Hg Hwd) as Hr. rewrite Hd in Hr.
    by rewrite (bind_err _ _ _ _ _ Hr) in Hw. }
  destruct (inode_write_run s n bg i b Hg Hit Hv Hi Hb) as (d' & r & Hw' & Hss & Hok).
  rewrite Hw' in Hw. simplify_eq. destruct (Hok eq_refl) as [Hbd Hfr].
  set (s' := set_device d' s) in *.
  assert (geom s') as Hg' by (by eapply same_shape_geom).
  assert (itable s') as Hit' by (by apply (itable_shape s)).
  pose proof (inode_off_bound s n Hg Hit) as [Ho Ho']. pose proof (it_size s Hit).
  pose proof (block_data_length s _ b Hg Hb) as Hlb. pose proof (geom_bsize s Hg) as Hbs.
  split; [|split; [|done]].
  - rewrite (inode_read_run s' n bg) by (done || by apply (valid_inode_shape s)).
    destruct (inode_block_shape s s' n bg Hss) as [-> ->]. rewrite Hbd.
    by rewrite put_inode_same by (done || lia).
  - intros m bg' Hm Hne. rewrite (inode_read_run s m bg') by done.
    rewrite (inode_read_run s' m bg') by (done || by apply (valid_inode_shape s)).
    destruct (inode_block_shape s s' m bg' Hss) as [-> ->]. cbn.
    pose proof (inode_block_bound s m bg' Hg Hit Hm) as [_ Hwm].
    destruct (decide (inode_block s bg' m = inode_block s bg n)) as [Heq|Hneq]; [|by rewrite Hfr].
    rewrite Heq, Hbd, Hb. pose proof (inode_off_bound s m Hg Hit) as [Hmo _].
    rewrite put_inode_other; [done|done|lia|lia|lia|].
    apply (inode_slots_disjoint s n m bg bg'); done.
Qed.

(** an inode written to the inode table is read back unchanged, every
    other inode reads as before, and no block outside the one that holds the
    inode changes. *)
Theorem inode_table_roundtrip s n bg i s' :
  geom s → itable s → valid_inode s n bg → inode_typed i →
  Ext2Inode_write_to n i s = Some (Ok tt, s') →
  Ext2Inode_read_from n s' = Some (Ok i, s') ∧
  (∀ m bg', valid_inode s m bg' → m ≠ n →
     fst <$> Ext2Inode_read_from m s' = fst <$> Ext2Inode_read_from m s) ∧
  (∀ b, in_width 32 b → b ≠ inode_block s bg n → block_data s' b = block_data s b).
Proof. apply inode_write_read. Qed.
End blocks.

(** ** Transfers on a reliable device *)

Section reliable.
Context {D : Type} `{BlockDevice D, !BlockDeviceLaws D, !ReliableDevice D}.
Implicit Types (s : Ext2Fs D).

Definition on_device (s : Ext2Fs D) (n : u32) : Prop := (n + 1) * per s ≤ num_blocks (device s).

Lemma on_device_shape s s' n : same_shape s s' → on_device s n → on_device s' n.
Proof.
  intros Hss Hn. unfold on_device. rewrite (same_shape_per _ _ Hss).
  by destruct Hss as (_ & _ & ->).
Qed.

Lemma write_loop_ok start n dbs buf : ∀ i s,
  dbs = dev_block_size (device s) → (Z.to_nat dbs * (i + n) ≤ length buf)%nat →
  0 ≤ start → start + Z.of_nat (i + n) < 2 ^ 64 →
  start + Z.of_nat (i + n) ≤ num_blocks (device s) →
  ∃ s', for_range n i (write_step start dbs buf) () s = Some (Ok tt, s').
Proof.
  induction n as [|n IH]; intros i s Hd Hl H0 Hw Hn; [by exists s|].
  cbn [for_range]. unfold mbind, M_bind. rewrite write_step_run by nia.
  rewrite wrap_small by (unfold in_width; lia). set (chunk := take _ _).
  assert (Z.of_nat (length chunk) = dev_block_size (device s)) as Hlc.
  { pose proof (dev_block_size_pos (device s)). rewrite <- Hd in *. unfold chunk.
    rewrite length_take, length_drop. nia. }
  pose proof (write_block_ok (device s) (start + Z.of_nat i) chunk) as Hok.
  specialize (Hok ltac:(lia) Hlc).
  pose proof (dev_block_size_write (device s) (start + Z.of_nat i) chunk) as Hb.
  pose proof (num_blocks_write (device s) (start + Z.of_nat i) chunk) as Hnb.
  destruct (write_block (device s) (start + Z.of_nat i) chunk) as [d1 r1]. cbn in *. subst r1.
  apply IH; cbn; try lia.
Qed.

Lemma write_ext2_block_reliable n buf s :
  geom s → in_width 32 n → length buf = Z.to_nat (bsize s) → on_device s n →
  ∃ s', write_ext2_block n (bsize s) buf s = Some (Ok tt, s').
Proof.
  intros Hg Hn Hl Hon. destruct (geom_per s Hg) as (Hper & Hpb & Hpn). unfold in_width, on_device in *.
  unfold write_ext2_block. rewrite (bind_ok _ _ _ _ _ (dev_bs_run s)). fold (per s).
  rewrite wrap_small by (unfold in_width; nia).
  apply write_loop_ok; [done|nia|nia|nia|nia].
Qed.

Lemma read_seq_ok (d : D) start n :
  0 ≤ start → start + Z.of_nat n ≤ num_blocks d → ∃ data, read_seq d start n = Ok data.
Proof.
  revert start. induction n as [|n IH]; intros start H0 Hn; [by exists []|]. cbn [read_seq].
  pose proof (read_block_ok d start) as Hr. specialize (Hr ltac:(lia)).
  destruct (read_block d start) as [b|]; [|done].
  destruct (IH (start + 1) ltac:(lia) ltac:(lia)) as [data ->]. by exists (b ++ data).
Qed.

Lemma block_data_ok s n : geom s → 0 ≤ n → on_device s n → ∃ b, block_data s n = Ok b.
Proof.
  intros Hg Hn Hon. destruct (geom_per s Hg) as (Hper & _ & _). unfold on_device in Hon.
  apply read_seq_ok; nia.
Qed.

Lemma write_span_reliable n buf s :
  geom s → in_width 32 n → (Z.to_nat (bsize s) ≤ length buf)%nat → on_device s n →
  ∃ s', write_span (n * per s) (Z.to_nat (per s)) (dev_block_size (device s)) buf s = Some (Ok tt, s').
Proof.
  intros Hg Hn Hl Hon. destruct (geom_per s Hg) as (Hper & Hpb & Hpn). unfold in_width, on_device in *.
  apply write_loop_ok; [done|nia|nia|nia|nia].
Qed.

Lemma inode_write_reliable n bg i s :
  geom s → itable s → valid_inode s n bg → inode_typed i → on_device s (inode_block s bg n) →
  ∃ s', Ext2Inode_write_to n i s = Some (Ok tt, s').
Proof.
  intros Hg Hit Hv Hi Hon. pose proof (inode_block_bound s n bg Hg Hit Hv) as [_ Hw].
  destruct (block_data_ok s (inode_block s bg n) Hg (proj1 Hw) Hon) as [b Hb].
  destruct (inode_write_span s n bg i b Hg Hit Hv Hi Hb) as [Hlp ->].
  apply write_span_reliable; [done|done|rewrite length_app; lia|done].
Qed.
End reliable.
