(* ===== verification/Ext2File.v ===== *)
(** * ext2: file contents

    Model of [kernel/src/fs/ext2/file.rs]: the map from the logical blocks of
    a file to disk blocks through the direct and the single, double and triple
    indirect pointers ([get_block_num], [set_block_num]), and reading and
    writing ranges of a file ([read_file_range] with its coalescing of
    consecutive blocks, [write_file_range]).

    The loops of [read_file_range] run with one unit of fuel per logical
    block; every iteration advances by at least one block, and the files the
    theorems speak of have fewer than 2^32 blocks, the range of the block
    counters of the source. *)

From S2P Require Import Prelude Bytes BlockDev Ext2Layout Ext2Core.

Definition DIRECT_BLOCKS : Z := 12.
Definition SINGLE_INDIRECT : nat := 12.
Definition DOUBLE_INDIRECT : nat := 13.
Definition TRIPLE_INDIRECT : nat := 14.

(** [if block_num == 0 { None } else { Some(block_num) }] *)
Definition some_block (b : u32) : option u32 := if b =? 0 then None else Some b.

Definition set_i_block (n : nat) (b : u32) (i : Ext2Inode) : Ext2Inode :=
  set_size_blocks (i_size i) (i_blocks i) (<[n := b]> (i_block i)) (i_dir_acl i) i.
Definition set_i_blocks (b : u32) (i : Ext2Inode) : Ext2Inode :=
  set_size_blocks (i_size i) b (i_block i) (i_dir_acl i) i.
Definition set_i_size (sz : u32) (i : Ext2Inode) : Ext2Inode :=
  set_size_blocks sz (i_blocks i) (i_block i) (i_dir_acl i) i.

Section file.
Context {D : Type} `{BlockDevice D}.

(** ** Indirect blocks *)

Definition read_indirect_block (block_num : u32) (bs : Z) : M D BlockError (list u32) :=
  slice ← stack_slice bs;
  buf ← read_ext2_block block_num bs slice;
  mret (unpack (replicate (Z.to_nat (bs / 4)) 4%nat) buf).

Definition write_indirect_block (block_num : u32) (bs : Z) (pointers : list u32)
    : M D BlockError unit :=
  slice ← stack_slice bs;
  let num_pointers := Nat.min (length pointers) (Z.to_nat (bs / 4)) in
  write_ext2_block block_num bs
    (list_inserts 0 (pack (replicate num_pointers 4%nat) pointers) slice).

(** [pointers[index]] *)
Definition ptr_at {E} (pointers : list u32) (index : Z) : M D E u32 :=
  lift_option (pointers !! Z.to_nat index).

Definition set_ptr {E} (pointers : list u32) (index : Z) (b : u32) : M D E (list u32) :=
  require (bool_decide (Z.to_nat index < length pointers)%nat);;
  mret (<[Z.to_nat index := b]> pointers).

(** ** From logical to physical blocks *)

Definition get_block_num (inode : Ext2Inode) (logical_block : u32)
    : M D BlockError (option u32) :=
  sb ← gets superblock;
  let bs := block_size sb in
  let ptrs_per_block := wrap 32 (bs / 4) in
  if logical_block <? DIRECT_BLOCKS then
    b ← ptr_at (i_block inode) logical_block; mret (some_block b)
  else
    let double_indirect_count := wrap 32 (ptrs_per_block * ptrs_per_block) in
    if logical_block <? wrap 32 (DIRECT_BLOCKS + ptrs_per_block) then
      single_indirect_ptr ← ptr_at (i_block inode) (Z.of_nat SINGLE_INDIRECT);
      if single_indirect_ptr =? 0 then mret None
      else
        let index_in_indirect := logical_block - DIRECT_BLOCKS in
        indirect_blocks ← read_indirect_block single_indirect_ptr bs;
        b ← ptr_at indirect_blocks index_in_indirect; mret (some_block b)
    else if logical_block <? wrap 32 (DIRECT_BLOCKS + ptrs_per_block + double_indirect_count) then
      double_indirect_ptr ← ptr_at (i_block inode) (Z.of_nat DOUBLE_INDIRECT);
      if double_indirect_ptr =? 0 then mret None
      else
        let index_in_double := wrap 32 (logical_block - DIRECT_BLOCKS - ptrs_per_block) in
        require (negb (ptrs_per_block =? 0));;
        first_level_blocks ← read_indirect_block double_indirect_ptr bs;
        second_level_ptr ← ptr_at first_level_blocks (index_in_double / ptrs_per_block);
        if second_level_ptr =? 0 then mret None
        else
          second_level_blocks ← read_indirect_block second_level_ptr bs;
          b ← ptr_at second_level_blocks (index_in_double mod ptrs_per_block);
          mret (some_block b)
    else
      triple_indirect_ptr ← ptr_at (i_block inode) (Z.of_nat TRIPLE_INDIRECT);
      if triple_indirect_ptr =? 0 then mret None
      else
        let index_in_triple :=
          wrap 32 (logical_block - DIRECT_BLOCKS - ptrs_per_block - double_indirect_count) in
        require (negb (double_indirect_count =? 0));;
        first_level_blocks ← read_indirect_block triple_indirect_ptr bs;
        second_level_ptr ← ptr_at first_level_blocks (index_in_triple / double_indirect_count);
        if second_level_ptr =? 0 then mret None
        else
          second_level_blocks ← read_indirect_block second_level_ptr bs;
          third_level_ptr ← ptr_at second_level_blocks
                              (index_in_triple / ptrs_per_block mod ptrs_per_block);
          if third_level_ptr =? 0 then mret None
          else
            third_level_blocks ← read_indirect_block third_level_ptr bs;
            b ← ptr_at third_level_blocks (index_in_triple mod ptrs_per_block);
            mret (some_block b).

(** The pointer stored in slot [slot] of the inode, allocating the indirect
    block when there is none; [super::block_group::allocate_block] with its
    error mapped to [IoError]. *)
Definition inode_ptr_or_allocate (inode : Ext2Inode) (slot : nat)
    : M D BlockError (u32 * Ext2Inode) :=
  p ← ptr_at (i_block inode) (Z.of_nat slot);
  if p =? 0 then
    p ← or_err IoError allocate_block; mret (p, set_i_block slot p inode)
  else mret (p, inode).

(** The pointer at [index] of the indirect block [block], allocating the
    block it should point to (and writing the indirect block back). *)
Definition child_or_allocate (block : u32) (bs : Z) (index : Z) : M D BlockError u32 :=
  blocks ← read_indirect_block block bs;
  p ← ptr_at blocks index;
  if p =? 0 then
    p ← or_err IoError allocate_block;
    blocks ← set_ptr blocks index p;
    write_indirect_block block bs blocks;;
    mret p
  else mret p.

(** Read the indirect block, modify it, write it back. *)
Definition store_ptr (block : u32) (bs : Z) (index : Z) (physical_block : u32)
    : M D BlockError unit :=
  blocks ← read_indirect_block block bs;
  blocks ← set_ptr blocks index physical_block;
  write_indirect_block block bs blocks.

Definition set_block_num (inode : Ext2Inode) (logical_block physical_block : u32)
    : M D BlockError Ext2Inode :=
  sb ← gets superblock;
  let bs := block_size sb in
  let ptrs_per_block := wrap 32 (bs / 4) in
  if logical_block <? DIRECT_BLOCKS then
    mret (set_i_block (Z.to_nat logical_block) physical_block inode)
  else if logical_block <? wrap 32 (DIRECT_BLOCKS + ptrs_per_block) then
    '(single, inode) ← inode_ptr_or_allocate inode SINGLE_INDIRECT;
    store_ptr single bs (logical_block - DIRECT_BLOCKS) physical_block;;
    mret inode
  else
    let double_indirect_count := wrap 32 (ptrs_per_block * ptrs_per_block) in
    if logical_block <? wrap 32 (DIRECT_BLOCKS + ptrs_per_block + double_indirect_count) then
      '(double, inode) ← inode_ptr_or_allocate inode DOUBLE_INDIRECT;
      let index_in_double := wrap 32 (logical_block - DIRECT_BLOCKS - ptrs_per_block) in
      require (negb (ptrs_per_block =? 0));;
      second ← child_or_allocate double bs (index_in_double / ptrs_per_block);
      store_ptr second bs (index_in_double mod ptrs_per_block) physical_block;;
      mret inode
    else
      '(triple, inode) ← inode_ptr_or_allocate inode TRIPLE_INDIRECT;
      let index_in_triple :=
        wrap 32 (logical_block - DIRECT_BLOCKS - ptrs_per_block - double_indirect_count) in
      require (negb (double_indirect_count =? 0));;
      second ← child_or_allocate triple bs (index_in_triple / double_indirect_count);
      third ← child_or_allocate second bs (index_in_triple / ptrs_per_block mod ptrs_per_block);
      store_ptr third bs (index_in_triple mod ptrs_per_block) physical_block;;
      mret inode.

(** ** Reading *)

(** The closure [physical_for] of [read_file_range], with the cached single
    indirect block. *)
Definition physical_for (inode : Ext2Inode) (cache : option (list u32)) (ptrs_per_block : Z)
    (logical : u32) : M D BlockError (option u32) :=
  if logical <? DIRECT_BLOCKS then
    b ← ptr_at (i_block inode) logical; mret (some_block b)
  else if logical - DIRECT_BLOCKS <? ptrs_per_block then
    match cache with
    | Some ptrs => b ← ptr_at ptrs (logical - DIRECT_BLOCKS); mret (some_block b)
    | None => mret None
    end
  else get_block_num inode logical.

(** The inner [while]: how many blocks from [logical] on are consecutive on
    disk after [block_num], starting from [run_len] with at most [fuel] more. *)
Fixpoint run_length (fuel : nat) (phys : u32 → M D BlockError (option u32))
    (max_run_blocks logical end_block block_num run_len : Z) : M D BlockError Z :=
  match fuel with
  | O => mret run_len
  | S fuel =>
      if (run_len <? max_run_blocks) && (wrap 32 (logical + run_len) <? end_block) then
        next ← phys (wrap 32 (logical + run_len));
        if bool_decide (next = Some (wrap 32 (block_num + run_len)))
        then run_length fuel phys max_run_blocks logical end_block block_num (run_len + 1)
        else mret run_len
      else mret run_len
  end.

(** The part of a block the range [offset, end_offset) covers. *)
Definition in_block (offset end_offset bs : Z) (logical : u32) : Z * Z :=
  let block_offset := logical * bs in
  (if block_offset <? offset then offset mod bs else 0,
   if end_offset <? block_offset + bs then end_offset - block_offset else bs).

Definition sub_slice (a b : Z) (l : list u8) : list u8 :=
  take (Z.to_nat (b - a)) (drop (Z.to_nat a) l).

(** The bytes of the range in the [run_len] blocks read into [run_buf]. *)
Definition run_bytes (offset end_offset bs : Z) (logical run_len : Z) (run_buf : list u8)
    : list u8 :=
  concat (map (λ run_index : nat,
    let '(a, b) := in_block offset end_offset bs (wrap 32 (logical + Z.of_nat run_index)) in
    sub_slice (Z.of_nat run_index * bs + a) (Z.of_nat run_index * bs + b) run_buf)
    (seq 0 (Z.to_nat run_len))).

Fixpoint read_loop (fuel : nat) (phys : u32 → M D BlockError (option u32))
    (offset end_offset bs max_run_blocks end_block logical : Z) (result : list u8)
    : M D BlockError (list u8) :=
  match fuel with
  | O => mret result
  | S fuel =>
      if logical <? end_block then
        physical_block ← phys logical;
        match physical_block with
        | Some block_num =>
            run_len ← run_length (Z.to_nat max_run_blocks) phys max_run_blocks logical end_block
                        block_num 1;
            run_buf ← read_ext2_blocks block_num run_len bs
                        (replicate (Z.to_nat (run_len * bs)) 0);
            read_loop fuel phys offset end_offset bs max_run_blocks end_block
              (wrap 32 (logical + run_len))
              (result ++ run_bytes offset end_offset bs logical run_len run_buf)
        | None =>
            slice ← stack_slice bs;
            let '(a, b) := in_block offset end_offset bs logical in
            read_loop fuel phys offset end_offset bs max_run_blocks end_block
              (wrap 32 (logical + 1)) (result ++ sub_slice a b slice)
        end
      else mret result
  end.

Definition read_file_range (inode : Ext2Inode) (offset : u64) (length : Z)
    : M D BlockError (list u8) :=
  let file_size := inode_file_size inode in
  if file_size <=? offset then mret []
  else
    let actual_length := Z.min length (file_size - offset) in
    if actual_length =? 0 then mret []
    else
      sb ← gets superblock;
      let bs := block_size sb in
      require (0 <? bs);;
      let start_block := wrap 32 (offset / bs) in
      let end_offset := offset + actual_length in
      let end_block := wrap 32 ((end_offset + bs - 1) / bs) in
      let ptrs_per_block := wrap 32 (bs / 4) in
      single ← ptr_at (i_block inode) (Z.of_nat SINGLE_INDIRECT);
      single_indirect_cache ←
        (if (DIRECT_BLOCKS <? end_block) && negb (single =? 0)
         then ptrs ← read_indirect_block single bs; mret (Some ptrs) else mret None);
      read_loop (Z.to_nat (end_block - start_block))
        (physical_for inode single_indirect_cache ptrs_per_block)
        offset end_offset bs (Z.max 1 (65536 / bs)) end_block start_block [].

Definition read_file (inode : Ext2Inode) : M D BlockError (list u8) :=
  if inode_file_size inode =? 0 then mret []
  else read_file_range inode 0 (inode_file_size inode).

(** ** Writing *)

(** One iteration of the loop of [write_file_range]: the physical block,
    allocated if there is none, then a read-modify-write of the covered part.
    [block_buf] is the buffer shared by the iterations. *)
Definition physical_or_allocate (bs : Z) (inode : Ext2Inode) (logical_block : u32)
    : M D BlockError (u32 * Ext2Inode) :=
  physical ← get_block_num inode logical_block;
  match physical with
  | Some block_num => mret (block_num, inode)
  | None =>
      new_block ← or_err IoError allocate_block;
      inode ← set_block_num inode logical_block new_block;
      let sectors_per_block := wrap 32 (bs / 512) in
      mret (new_block, set_i_blocks (wrap 32 (i_blocks inode + sectors_per_block)) inode)
  end.

Definition write_one_block (bs offset end_offset : Z) (data : list u8) (logical_block : u32)
    (st : Ext2Inode * Z * list u8) : M D BlockError (Ext2Inode * Z * list u8) :=
  let '(inode, data_pos, block_buf) := st in
  '(physical_block, inode) ← physical_or_allocate bs inode logical_block;
  let '(start_in_block, end_in_block) := in_block offset end_offset bs logical_block in
  let bytes_to_write := end_in_block - start_in_block in
  require (bs <=? 4096);;
  block_buf ← (if negb (start_in_block =? 0) || negb (end_in_block =? bs)
               then read_ext2_block physical_block bs block_buf else mret block_buf);
  require ((start_in_block <=? end_in_block) &&
           (data_pos + bytes_to_write <=? Z.of_nat (length data)));;
  let block_buf :=
    list_inserts (Z.to_nat start_in_block)
      (sub_slice data_pos (data_pos + bytes_to_write) data) block_buf in
  write_ext2_block physical_block bs block_buf;;
  mret (inode, data_pos + bytes_to_write, block_buf).

Definition write_file_range (inode : Ext2Inode) (offset : u64) (data : list u8)
    : M D BlockError Ext2Inode :=
  if bool_decide (data = []) then mret inode
  else
    sb ← gets superblock;
    let bs := block_size sb in
    require (0 <? bs);;
    let start_block := wrap 32 (offset / bs) in
    let end_offset := wrap 64 (offset + Z.of_nat (length data)) in
    let end_block := wrap 32 (wrap 64 (end_offset + bs - 1) / bs) in
    '(inode, _, _) ← for_range (Z.to_nat (end_block - start_block)) 0 (λ i,
        write_one_block bs offset end_offset data (start_block + Z.of_nat i))
      (inode, 0, replicate (Z.to_nat bs) 0);
    let inode :=
      if inode_file_size inode <? end_offset then set_i_size (wrap 32 end_offset) inode
      else inode in
    now ← current_unix_time;
    mret (update_timestamps now false true true inode).

Definition write_file (inode : Ext2Inode) (data : list u8) : M D BlockError Ext2Inode :=
  write_file_range inode 0 data.
End file.
