(* ===== verification/Ext2Fs.v ===== *)
(** * ext2: the mounted file system

    Model of [kernel/src/fs/ext2/mod.rs] (the methods of [Ext2Fs]) and of the
    link-count functions of [inode.rs]: path resolution with symbolic links,
    reading and writing files, and the namespace operations (create, truncate,
    unlink, rename, mkdir, rmdir, link, symlink).

    Each method is one program of the monad [M] of [Ext2Core], in the order of
    the source: what has been written when an error is returned stays written.
    Path resolution recurses on the number of symbolic links still allowed. *)

From S2P Require Import Prelude Bytes BlockDev Ext2Layout Ext2Core Ext2Dir Ext2File.

(** ** Paths *)

Definition SLASH : u8 := 47.

(** [path.starts_with('/')] *)
Definition is_absolute (path : list u8) : bool :=
  match path with c :: _ => c =? SLASH | [] => false end.

(** [path.split('/').filter(|s| !s.is_empty())] *)
Fixpoint split_slash (path : list u8) (cur : list u8) : list (list u8) :=
  match path with
  | [] => [cur]
  | c :: path =>
      if c =? SLASH then cur :: split_slash path [] else split_slash path (cur ++ [c])
  end.

Definition components (path : list u8) : list (list u8) :=
  filter (λ c, c ≠ []) (split_slash path []).

(** ["/" followed by the components separated by '/'] *)
Fixpoint join_rest (cs : list (list u8)) : list u8 :=
  match cs with
  | [] => []
  | c :: cs => SLASH :: c ++ join_rest cs
  end.

Definition join_path (cs : list (list u8)) : list u8 :=
  match cs with
  | [] => [SLASH]
  | c :: cs => SLASH :: c ++ join_rest cs
  end.

(** [path.rfind('/')] *)
Fixpoint rfind_slash (path : list u8) (i : nat) : option nat :=
  match path with
  | [] => None
  | c :: path =>
      match rfind_slash path (S i) with
      | Some k => Some k
      | None => if c =? SLASH then Some i else None
      end
  end.

(** The parent path and the last name of an absolute path. *)
Definition split_parent (path : list u8) : option (list u8 * list u8) :=
  match rfind_slash path 0 with
  | Some O => Some ([SLASH], drop 1 path)
  | Some idx => Some (take idx path, drop (S idx) path)
  | None => None
  end.

Definition dots (name : list u8) : bool :=
  bool_decide (name = bytes ".") || bool_decide (name = bytes "..").

Definition has_slash (name : list u8) : bool := existsb (λ c, c =? SLASH) name.

Definition bad_length (name : list u8) : bool :=
  bool_decide (name = []) || bool_decide (255 < length name)%nat.

(** [path.ends_with(suffix)] *)
Definition ends_with (path suffix : list u8) : bool :=
  bool_decide (drop (length path - length suffix) path = suffix) &&
  bool_decide (length suffix ≤ length path)%nat.

Definition MAX_SYMLINK_DEPTH : nat := 8.

(** [strip_home_prefix] and [is_home_path] *)
Definition strip_home_prefix (path : list u8) : list u8 :=
  if bool_decide (path = bytes "/home") || bool_decide (path = bytes "/home/") then [SLASH]
  else if bool_decide (take 6 path = bytes "/home/") then drop 5 path
  else path.

Definition is_home_path (home_mounted : bool) (path : list u8) : bool :=
  (bool_decide (path = bytes "/home") || bool_decide (take 6 path = bytes "/home/")) &&
  home_mounted.

Section fs.
Context {D : Type} `{BlockDevice D}.
Abbreviation MS := (M D string).

(** [Ext2Fs::new] on a device *)
Definition Ext2Fs_new (device : D) (mount_id : Z) (now : nat → i64)
    : option (result (Ext2Fs D) string) :=
  let blank := mkFs (Ext2Superblock_of_bytes []) [] device mount_id now in
  match or_err "Failed to read ext2 superblock"%string Ext2Superblock_read_from blank with
  | None => None
  | Some (Err e, _) => Some (Err e)
  | Some (Ok sb, s) =>
      if negb (Ext2Superblock_is_valid sb) then Some (Err "Invalid ext2 magic number"%string)
      else
        match or_err "Failed to read block group descriptors"%string
                (Ext2BlockGroupDesc_read_table sb) s with
        | None => None
        | Some (Err e, _) => Some (Err e)
        | Some (Ok bgs, s) =>
            Some (Ok (mkFs sb bgs (Ext2Core.device s) mount_id (clock s)))
        end
  end.

(** ** Inodes and directories *)

Definition read_inode (inode_num : u32) : MS Ext2Inode :=
  or_err "Failed to read inode"%string (Ext2Inode_read_from inode_num).

Definition write_inode (inode_num : u32) (inode : Ext2Inode) : MS unit :=
  or_err "Failed to write inode"%string (Ext2Inode_write_to inode_num inode).

Definition read_directory (inode : Ext2Inode) : MS (list u8) :=
  if negb (is_dir inode) then throw "Not a directory"%string
  else or_err "Failed to read directory data"%string (read_file inode).

Definition lookup_in_dir (dir_inode : Ext2Inode) (name : list u8) : MS (option u32) :=
  dir_data ← read_directory dir_inode;
  mret (de_inode <$> find_entry dir_data name).

Definition read_symlink (inode_num : u32) : MS (list u8) :=
  inode ← read_inode inode_num;
  if negb (is_symlink inode) then throw "Not a symbolic link"%string
  else
    let target_len := i_size inode in
    if target_len =? 0 then throw "Empty symlink target"%string
    else
      target_bytes ←
        (if (i_blocks inode =? 0) && (target_len <=? 60)
         then mret (take (Z.to_nat target_len) (block_bytes (i_block inode)))
         else
           block_num ← ptr_at (i_block inode) 0;
           if block_num =? 0 then throw "Symlink has no data block"%string
           else
             sb ← gets superblock;
             let bs := block_size sb in
             slice ← stack_slice bs;
             buf ← or_err "Failed to read symlink data block"%string
                     (read_ext2_block block_num bs slice);
             require (target_len <=? 4096);;
             mret (take (Z.to_nat target_len) (buf ++ replicate (4096 - length buf) 0)));
      if utf8_valid target_bytes then mret target_bytes
      else throw "Invalid UTF-8 in symlink target"%string.

(** ** Path resolution *)

(** The loop over the components: [seen] are the components before [i]. *)
Fixpoint walk (recur : list u8 → MS u32) (follow_final : bool) (seen cs : list (list u8))
    (current : u32) : MS u32 :=
  match cs with
  | [] => mret current
  | component :: rest =>
      current_inode ← read_inode current;
      if negb (is_dir current_inode) then throw "Not a directory in path"%string
      else
        found ← lookup_in_dir current_inode component;
        match found with
        | None => throw "Path component not found"%string
        | Some inode_num =>
            resolved_inode ← read_inode inode_num;
            let is_final := bool_decide (rest = []) in
            if is_symlink resolved_inode && (follow_final || negb is_final) then
              target ← read_symlink inode_num;
              let remaining := if is_final then [] else join_path rest in
              if is_absolute target then recur (target ++ remaining)
              else recur (join_path seen ++ [SLASH] ++ target ++ remaining)
            else walk recur follow_final (seen ++ [component]) rest inode_num
        end
  end.

(** [allowed] is [MAX_SYMLINK_DEPTH + 1 - depth]. *)
Fixpoint resolve_path_impl (allowed : nat) (path : list u8) (follow_final : bool) : MS u32 :=
  match allowed with
  | O => throw "Too many levels of symbolic links"%string
  | S allowed =>
      if negb (is_absolute path) then throw "Path must be absolute"%string
      else walk (λ p, resolve_path_impl allowed p follow_final) follow_final [] (components path)
             EXT2_ROOT_INO
  end.

Definition resolve_path (path : list u8) : MS u32 :=
  resolve_path_impl (S MAX_SYMLINK_DEPTH) path true.

Definition resolve_path_no_follow (path : list u8) : MS u32 :=
  resolve_path_impl (S MAX_SYMLINK_DEPTH) path false.

(** [self.resolve_path(path).is_ok()] *)
Definition path_exists (path : list u8) : MS bool :=
  r ← attempt (resolve_path path); mret (is_ok r).

(** ** File contents *)

Definition read_file_content (inode : Ext2Inode) : MS (list u8) :=
  or_err "Failed to read file content"%string (read_file inode).

Definition Ext2Fs_read_file_range (inode : Ext2Inode) (offset : u64) (len : Z) : MS (list u8) :=
  or_err "Failed to read file range"%string (read_file_range inode offset len).

Definition Ext2Fs_write_file_range (inode_num : u32) (offset : u64) (data : list u8) : MS Z :=
  if bool_decide (data = []) then mret 0
  else
    inode ← read_inode inode_num;
    if negb (is_file inode) then throw "Not a regular file"%string
    else
      inode ← or_err "Failed to write file data"%string (write_file_range inode offset data);
      or_err "Failed to write inode"%string (Ext2Inode_write_to inode_num inode);;
      mret (Z.of_nat (length data)).

(** The direct blocks of a directory, written back from its data. *)
Fixpoint write_directory_blocks (bs : Z) (ptrs : list u32) (data : list u8) : MS unit :=
  match ptrs with
  | [] => mret ()
  | block_num :: ptrs =>
      if bool_decide (data = []) then mret ()
      else if block_num =? 0 then mret ()
      else
        slice ← stack_slice bs;
        or_err "Failed to write directory block"%string
          (write_ext2_block block_num bs (list_inserts 0 (take (Z.to_nat bs) data) slice));;
        write_directory_blocks bs ptrs (drop (Z.to_nat bs) data)
  end.

Definition write_directory_data (dir_inode_num : u32) (data : list u8) : MS unit :=
  inode ← read_inode dir_inode_num;
  if negb (is_dir inode) then throw "Not a directory"%string
  else
    sb ← gets superblock;
    write_directory_blocks (block_size sb) (take 12 (i_block inode)) data.

(** ** Shared steps of the namespace operations *)

(** [add_directory_entry(...)?] on the data of a directory *)
Definition add_entry (dir_data : list u8) (ino : u32) (name : list u8) (ft : u8) : MS (list u8) :=
  r ← lift_option (add_directory_entry dir_data ino name ft); lift_result r.

Definition remove_entry_m (dir_data name : list u8) : MS (list u8) :=
  '(data, _) ← lift_result (remove_entry dir_data name); mret data.

(** The parent's new timestamps, its data and its inode. *)
Definition commit_parent (msg : string) (parent_num : u32) (parent : Ext2Inode)
    (dir_data : list u8) : MS unit :=
  now ← current_unix_time;
  let parent := update_timestamps now false true true parent in
  write_directory_data parent_num dir_data;;
  or_err msg (Ext2Inode_write_to parent_num parent).

Definition commit_superblock (msg : string) (f : Ext2Superblock → Ext2Superblock) : MS unit :=
  modify (λ s, set_superblock (f (superblock s)) s);;
  sb ← gets superblock;
  or_err msg (Ext2Superblock_write_to sb).

Definition commit_groups : MS unit :=
  sb ← gets superblock;
  bgs ← gets block_groups;
  or_err "Failed to write block group descriptors"%string (Ext2BlockGroupDesc_write_table sb bgs).

(** ** Link counts *)

(** The blocks of slots [0..12] and the three indirect blocks themselves. *)
Fixpoint free_slots (ptrs : list u32) (freed : Z) : MS Z :=
  match ptrs with
  | [] => mret freed
  | block_num :: ptrs =>
      if negb (block_num =? 0) then
        free_block block_num;; free_slots ptrs (wrap 32 (freed + 1))
      else free_slots ptrs freed
  end.

Definition free_inode_blocks (inode : Ext2Inode) : MS Z := free_slots (i_block inode) 0.

(** The recursive deallocators of [inode.rs]. *)
Fixpoint free_pointers (free : u32 → MS Z) (ptrs : list u32) (freed : Z) : MS Z :=
  match ptrs with
  | [] => mret freed
  | p :: ptrs =>
      if negb (p =? 0) then n ← free p; free_pointers free ptrs (wrap 32 (freed + n))
      else free_pointers free ptrs freed
  end.

Definition pointers_of (msg : string) (block : u32) (bs : Z) : MS (list u32) :=
  slice ← stack_slice bs;
  buf ← or_err msg (read_ext2_block block bs slice);
  mret (unpack (replicate (Z.to_nat (bs / 4)) 4%nat) buf).

Definition free_indirect_block (indirect_block : u32) (bs : Z) : MS Z :=
  ptrs ← pointers_of "Failed to read indirect block" indirect_block bs;
  free_pointers (λ p, free_block p;; mret 1) ptrs 0.

Definition free_double_indirect_block (double_indirect_block : u32) (bs : Z) : MS Z :=
  ptrs ← pointers_of "Failed to read double indirect block" double_indirect_block bs;
  free_pointers (λ p, n ← free_indirect_block p bs; free_block p;; mret (wrap 32 (n + 1))) ptrs 0.

Definition free_triple_indirect_block (triple_indirect_block : u32) (bs : Z) : MS Z :=
  ptrs ← pointers_of "Failed to read triple indirect block" triple_indirect_block bs;
  free_pointers (λ p, n ← free_double_indirect_block p bs; free_block p;; mret (wrap 32 (n + 1)))
    ptrs 0.

Definition decrement_inode_links (inode_num : u32) : MS u16 :=
  inode ← read_inode inode_num;
  let new_links := Z.max 0 (i_links_count inode - 1) in
  inode ← (if new_links =? 0 then
             now ← current_unix_time;
             let inode := set_links_dtime new_links now inode in
             free_inode_blocks inode;;
             free_inode_bitmap inode_num;;
             mret inode
           else mret (set_links_dtime new_links (i_dtime inode) inode));
  or_err "Failed to write inode"%string (Ext2Inode_write_to inode_num inode);;
  mret new_links.

Definition increment_inode_links (inode_num : u32) : MS u16 :=
  inode ← read_inode inode_num;
  let new_links := Z.min 65535 (i_links_count inode + 1) in
  now ← current_unix_time;
  let inode := update_timestamps now false false true
                 (set_links_dtime new_links (i_dtime inode) inode) in
  or_err "Failed to write inode"%string (Ext2Inode_write_to inode_num inode);;
  mret new_links.

(** ** Files *)

Definition create_file (parent_inode_num : u32) (name : list u8) (mode : u16) : MS u32 :=
  if bad_length name then throw "Invalid filename length"%string
  else if has_slash name || dots name then throw "Invalid filename"%string
  else
    parent_inode ← read_inode parent_inode_num;
    if negb (is_dir parent_inode) then throw "Parent is not a directory"%string
    else
      dir_data ← read_directory parent_inode;
      if bool_decide (is_Some (find_entry dir_data name)) then throw "File already exists"%string
      else
        new_inode_num ← allocate_inode;
        now ← current_unix_time;
        or_err "Failed to write new inode"%string
          (Ext2Inode_write_to new_inode_num (new_regular_file now mode));;
        dir_data ← add_entry dir_data new_inode_num name EXT2_FT_REG_FILE;
        commit_parent "Failed to write parent inode" parent_inode_num parent_inode dir_data;;
        commit_superblock "Failed to write superblock" decrement_free_inodes;;
        commit_groups;;
        mret new_inode_num.

(** The direct blocks of [truncate_file]: errors are ignored. *)
Fixpoint truncate_slots (ptrs : list u32) (freed : Z) : MS Z :=
  match ptrs with
  | [] => mret freed
  | block_num :: ptrs =>
      if negb (block_num =? 0) then
        r ← attempt (free_block block_num);
        truncate_slots ptrs (if is_ok r then freed + 1 else freed)
      else truncate_slots ptrs freed
  end.

Definition truncate_file (inode_num : u32) : MS unit :=
  inode ← read_inode inode_num;
  if negb (is_file inode) then throw "Not a regular file"%string
  else
    blocks_freed ← truncate_slots (take 12 (i_block inode)) 0;
    let inode := set_size_blocks 0 0 (replicate 15 0) 0 inode in
    now ← current_unix_time;
    or_err "Failed to write truncated inode"%string
      (Ext2Inode_write_to inode_num (update_timestamps now false true true inode));;
    if 0 <? blocks_freed
    then commit_superblock "Failed to write superblock after truncate"
           (increment_free_blocks blocks_freed)
    else mret ().

Definition unlink_file (path : list u8) : MS unit :=
  if negb (is_absolute path) then throw "Path must be absolute"%string
  else
    '(parent_path, filename) ← lift_result (ok_or (split_parent path) "Invalid path"%string);
    if bool_decide (filename = []) || dots filename then throw "Invalid filename"%string
    else
      parent_inode_num ← resolve_path parent_path;
      parent_inode ← read_inode parent_inode_num;
      if negb (is_dir parent_inode) then throw "Parent is not a directory"%string
      else
        dir_data ← read_directory parent_inode;
        entry ← lift_result (ok_or (find_entry dir_data filename) "File not found"%string);
        let target_inode_num := de_inode entry in
        target_inode ← read_inode target_inode_num;
        if is_dir target_inode then throw "Cannot unlink directory (use rmdir)"%string
        else
          sb ← gets superblock;
          let sectors_per_block := wrap 32 (block_size sb / 512) in
          require (negb ((i_links_count target_inode =? 1) && (sectors_per_block =? 0)));;
          let blocks_to_free :=
            if i_links_count target_inode =? 1
            then i_blocks target_inode / sectors_per_block else 0 in
          dir_data ← remove_entry_m dir_data filename;
          commit_parent "Failed to write parent inode" parent_inode_num parent_inode dir_data;;
          new_links ← decrement_inode_links target_inode_num;
          if new_links =? 0 then
            commit_superblock "Failed to write superblock" (λ sb,
              let sb := increment_free_inodes sb in
              if 0 <? blocks_to_free then increment_free_blocks blocks_to_free sb else sb);;
            commit_groups
          else mret ().

(** ** Directories *)

(** The initial block of a directory: [.] and [..]. *)
Definition new_dir_block (bs : Z) (self parent : u32) : list u8 :=
  list_inserts 0
    (le_bytes 4 self ++ le_bytes 2 12 ++ [1; EXT2_FT_DIR] ++ bytes "." ++ [0; 0; 0] ++
     le_bytes 4 parent ++ le_bytes 2 (wrap 16 (bs - 12)) ++ [2; EXT2_FT_DIR] ++ bytes "..")
    (replicate (Z.to_nat bs) 0).

Definition create_directory (path : list u8) (mode : u16) : MS u32 :=
  if negb (is_absolute path) then throw "Path must be absolute"%string
  else
    '(parent_path, dirname) ← lift_result (ok_or (split_parent path) "Invalid path"%string);
    if bad_length dirname then throw "Invalid directory name length"%string
    else if has_slash dirname || dots dirname then throw "Invalid directory name"%string
    else
      parent_inode_num ← resolve_path parent_path;
      parent_inode ← read_inode parent_inode_num;
      if negb (is_dir parent_inode) then throw "Parent is not a directory"%string
      else
        parent_dir_data ← read_directory parent_inode;
        if bool_decide (is_Some (find_entry parent_dir_data dirname))
        then throw "Directory already exists"%string
        else
          new_inode_num ← allocate_inode;
          new_block ← allocate_block;
          now ← current_unix_time;
          sb ← gets superblock;
          let bs := block_size sb in
          let new_inode :=
            set_size_blocks (wrap 32 bs) (wrap 32 (bs / 512))
              (<[0%nat := new_block]> (i_block (new_directory now mode))) 0
              (new_directory now mode) in
          require (bs <=? 4096);;
          or_err "Failed to write directory data block"%string
            (write_ext2_block new_block bs (new_dir_block bs new_inode_num parent_inode_num));;
          or_err "Failed to write new directory inode"%string
            (Ext2Inode_write_to new_inode_num new_inode);;
          parent_dir_data ← add_entry parent_dir_data new_inode_num dirname EXT2_FT_DIR;
          let parent_inode :=
            set_links_dtime (wrap 16 (i_links_count parent_inode + 1)) (i_dtime parent_inode)
              parent_inode in
          commit_parent "Failed to write parent inode" parent_inode_num parent_inode
            parent_dir_data;;
          commit_superblock "Failed to write superblock"
            (λ sb, decrement_free_blocks (decrement_free_inodes sb));;
          require (negb (s_inodes_per_group sb =? 0));;
          let bg_index := Z.to_nat (wrap 32 (new_inode_num - 1) / s_inodes_per_group sb) in
          modify (set_group bg_index (λ bg,
            set_bg_used_dirs_count (wrap 16 (bg_used_dirs_count bg + 1)) bg));;
          commit_groups;;
          mret new_inode_num.

Definition remove_directory (path : list u8) : MS unit :=
  if negb (is_absolute path) then throw "Path must be absolute"%string
  else if bool_decide (path = [SLASH]) then throw "Cannot remove root directory"%string
  else
    '(parent_path, dir_name) ← lift_result (ok_or (split_parent path) "Invalid path"%string);
    if bool_decide (dir_name = []) || dots dir_name then throw "Invalid directory name"%string
    else
      target_inode_num ← resolve_path path;
      target_inode ← read_inode target_inode_num;
      if negb (is_dir target_inode) then throw "Not a directory"%string
      else
        dir_data ← read_directory target_inode;
        if negb (is_directory_empty dir_data) then throw "Directory not empty"%string
        else
          parent_inode_num ← resolve_path parent_path;
          parent_inode ← read_inode parent_inode_num;
          if negb (is_dir parent_inode) then throw "Parent is not a directory"%string
          else
            parent_dir_data ← read_directory parent_inode;
            parent_dir_data ← remove_entry_m parent_dir_data dir_name;
            commit_parent "Failed to write parent inode" parent_inode_num
              (set_links_dtime (Z.max 0 (i_links_count parent_inode - 1)) (i_dtime parent_inode)
                 parent_inode) parent_dir_data;;
            free_slots (take 12 (i_block target_inode)) 0;;
            decrement_inode_links target_inode_num;;
            commit_superblock "Failed to write superblock" increment_free_inodes;;
            commit_groups.

(** ** Links and renaming *)

Definition create_hard_link (oldpath newpath : list u8) : MS unit :=
  if negb (is_absolute oldpath) || negb (is_absolute newpath)
  then throw "Paths must be absolute"%string
  else
    source_inode_num ← resolve_path oldpath;
    source_inode ← read_inode source_inode_num;
    if is_dir source_inode then throw "Cannot create hard link to directory"%string
    else
      '(new_parent_path, new_filename) ←
        lift_result (ok_or (split_parent newpath) "Invalid newpath"%string);
      if bad_length new_filename then throw "Invalid filename length"%string
      else if has_slash new_filename || dots new_filename then throw "Invalid filename"%string
      else
        new_parent_inode_num ← resolve_path new_parent_path;
        new_parent_inode ← read_inode new_parent_inode_num;
        if negb (is_dir new_parent_inode) then throw "Parent is not a directory"%string
        else
          exists_ ← path_exists newpath;
          if (exists_ : bool) then throw "Destination already exists"%string
          else
            dir_data ← read_directory new_parent_inode;
            dir_data ← add_entry dir_data source_inode_num new_filename EXT2_FT_REG_FILE;
            commit_parent "Failed to write parent inode" new_parent_inode_num new_parent_inode
              dir_data;;
            increment_inode_links source_inode_num;;
            mret ().

Definition create_symlink (target linkpath : list u8) : MS unit :=
  if negb (is_absolute linkpath) then throw "Path must be absolute"%string
  else
    '(parent_path, link_name) ← lift_result (ok_or (split_parent linkpath) "Invalid path"%string);
    if bad_length link_name then throw "Invalid filename length"%string
    else if has_slash link_name || dots link_name then throw "Invalid filename"%string
    else if bool_decide (target = []) then throw "Symlink target cannot be empty"%string
    else
      parent_inode_num ← resolve_path parent_path;
      parent_inode ← read_inode parent_inode_num;
      if negb (is_dir parent_inode) then throw "Parent is not a directory"%string
      else
        exists_ ← path_exists linkpath;
        if (exists_ : bool) then throw "File already exists"%string
        else
          new_inode_num ← allocate_inode;
          now ← current_unix_time;
          let new_inode := new_symlink now target in
          new_inode ← (if bool_decide (60 < length target)%nat then
              block_num ← allocate_block;
              sb ← gets superblock;
              let bs := block_size sb in
              require (bool_decide (length target ≤ 4096)%nat);;
              slice ← stack_slice bs;
              or_err "Failed to write symlink target block"%string
                (write_ext2_block block_num bs (list_inserts 0 target slice));;
              mret (set_size_blocks (i_size new_inode) (wrap 32 (bs / 512))
                      (<[0%nat := block_num]> (i_block new_inode)) 0 new_inode)
            else mret new_inode);
          or_err "Failed to write symlink inode"%string
            (Ext2Inode_write_to new_inode_num new_inode);;
          dir_data ← read_directory parent_inode;
          dir_data ← add_entry dir_data new_inode_num link_name EXT2_FT_SYMLINK;
          commit_parent "Failed to write parent inode" parent_inode_num parent_inode dir_data;;
          commit_superblock "Failed to write superblock" decrement_free_inodes;;
          commit_groups.

(** The two halves of [rename_file] after the checks. *)
Definition rename_same_dir (parent_num : u32) (parent : Ext2Inode) (data : list u8)
    (source : u32) (new_filename : list u8) (ft : u8) : MS unit :=
  data ← add_entry data source new_filename ft;
  commit_parent "Failed to write parent inode" parent_num parent data.

Definition rename_across (old_num new_num : u32) (old_parent new_parent : Ext2Inode)
    (old_data new_data : list u8) (source : u32) (source_inode : Ext2Inode)
    (new_filename : list u8) (ft : u8) : MS unit :=
  new_data ← add_entry new_data source new_filename ft;
  now1 ← current_unix_time;
  now2 ← current_unix_time;
  write_directory_data old_num old_data;;
  write_directory_data new_num new_data;;
  or_err "Failed to write old parent inode"%string
    (Ext2Inode_write_to old_num (update_timestamps now1 false true true old_parent));;
  or_err "Failed to write new parent inode"%string
    (Ext2Inode_write_to new_num (update_timestamps now2 false true true new_parent));;
  if is_dir source_inode then
    source_data ← read_directory source_inode;
    source_data ← lift_result (update_directory_entry source_data (bytes "..") new_num);
    write_directory_data source source_data
  else mret ().

(** The checks on an existing destination, and its removal. *)
Definition rename_replace (newpath : list u8) (source_is_dir : bool) : MS unit :=
  dest_exists ← path_exists newpath;
  if (dest_exists : bool) then
    dest_inode_num ← resolve_path newpath;
    dest_inode ← read_inode dest_inode_num;
    if is_dir dest_inode then
      if negb source_is_dir then throw "Destination is a directory"%string
      else throw "Destination directory exists"%string
    else if source_is_dir then throw "Destination is a file but source is a directory"%string
    else unlink_file newpath
  else mret ().

Definition rename_file (oldpath newpath : list u8) : MS unit :=
  if negb (is_absolute oldpath) || negb (is_absolute newpath)
  then throw "Paths must be absolute"%string
  else if ends_with oldpath (bytes "/.") || ends_with oldpath (bytes "/..")
  then throw "Cannot rename . or .."%string
  else
    '(old_parent_path, old_filename) ←
      lift_result (ok_or (split_parent oldpath) "Invalid oldpath"%string);
    '(new_parent_path, new_filename) ←
      lift_result (ok_or (split_parent newpath) "Invalid newpath"%string);
    if bool_decide (old_filename = []) || bool_decide (new_filename = [])
    then throw "Invalid filename"%string
    else if dots old_filename || dots new_filename then throw "Cannot rename . or .."%string
    else if bool_decide (oldpath = newpath) then mret ()
    else
      source_inode_num ← resolve_path oldpath;
      source_inode ← read_inode source_inode_num;
      let source_file_type := if is_dir source_inode then EXT2_FT_DIR else EXT2_FT_REG_FILE in
      old_parent_num ← resolve_path old_parent_path;
      new_parent_num ← resolve_path new_parent_path;
      old_parent_inode ← read_inode old_parent_num;
      new_parent_inode ← read_inode new_parent_num;
      if negb (is_dir old_parent_inode) || negb (is_dir new_parent_inode)
      then throw "Parent is not a directory"%string
      else
        rename_replace newpath (is_dir source_inode);;
        old_parent_data ← read_directory old_parent_inode;
        new_parent_data ← (if old_parent_num =? new_parent_num then mret old_parent_data
                           else read_directory new_parent_inode);
        old_parent_data ← remove_entry_m old_parent_data old_filename;
        if old_parent_num =? new_parent_num
        then rename_same_dir old_parent_num old_parent_inode old_parent_data source_inode_num
               new_filename source_file_type
        else rename_across old_parent_num new_parent_num old_parent_inode new_parent_inode
               old_parent_data new_parent_data source_inode_num source_inode new_filename
               source_file_type.
End fs.
