(* ===== verification/Ext2Alloc.v ===== *)
(** * ext2: correctness of the block allocator

    The bitmaps of the groups on disk are read as one set of free blocks
    ([block_free]).  Under the invariant [alloc_wf] (readable, distinct
    bitmaps that mark themselves as used, and free counts that agree with the
    bitmaps), [allocate_block] takes the lowest free block out of the set,
    zeroes it and touches nothing else; it fails only when the set is empty;
    [free_block] puts a block back; both keep the invariant. *)

From S2P Require Import Prelude Bytes BlockDev Ext2Layout Ext2Core Ext2Blocks.

(** ** Bitmaps as sets of bits *)

Lemma bit_mask_spec local : 0 ≤ local → bit_mask local = 2 ^ (local mod 8).
Proof. intros. unfold bit_mask. by rewrite Z.shiftl_1_l. Qed.

Lemma land_pow2_eq0 x k : 0 ≤ k → (Z.land x (2 ^ k) =? 0) = negb (Z.testbit x k).
Proof.
  intros Hk. destruct (Z.testbit x k) eqn:Hb; cbn.
  - apply Z.eqb_neq. intros H0. assert (Z.testbit (Z.land x (2 ^ k)) k = true) as Ht.
    { by rewrite Z.land_spec, Hb, Z.pow2_bits_true. }
    by rewrite H0, Z.bits_0 in Ht.
  - apply Z.eqb_eq. apply Z.bits_inj'. intros i Hi. rewrite Z.land_spec, Z.bits_0, Z.pow2_bits_eqb by done.
    destruct (Z.eqb_spec k i) as [->|]; [by rewrite Hb|apply andb_false_r].
Qed.

Definition bit (bm : list u8) (l : Z) : bool := Z.testbit (bitmap_byte bm l) (l mod 8).

Lemma bit_is_free_bit bm l : 0 ≤ l → bit_is_free bm l = negb (bit bm l).
Proof.
  intros Hl. unfold bit_is_free. rewrite bit_mask_spec by done.
  apply land_pow2_eq0. by apply Z.mod_pos_bound.
Qed.

(** Bit positions covered by a bitmap. *)
Definition covered (bm : list u8) (l : Z) : Prop := 0 ≤ l < 8 * Z.of_nat (length bm).

Lemma covered_index bm l : covered bm l → (Z.to_nat (l / 8) < length bm)%nat.
Proof.
  intros [H0 H1]. pose proof (Z.div_lt_upper_bound l 8 (Z.of_nat (length bm)) ltac:(lia) H1).
  pose proof (Z.div_pos l 8 H0 ltac:(lia)). lia.
Qed.

Lemma byte_at_insert bm l l' x :
  covered bm l → 0 ≤ l' →
  bitmap_byte (<[Z.to_nat (l / 8) := x]> bm) l' = if l / 8 =? l' / 8 then x else bitmap_byte bm l'.
Proof.
  intros Hc Hl'. pose proof (covered_index bm l Hc) as Hi. pose proof Hc as [H0 _].
  pose proof (Z.div_pos l 8 H0 ltac:(lia)). pose proof (Z.div_pos l' 8 Hl' ltac:(lia)).
  unfold bitmap_byte. rewrite !nth_lookup. destruct (Z.eqb_spec (l / 8) (l' / 8)) as [<-|Hne].
  - rewrite list_lookup_insert_eq; [done|]. by apply covered_index.
  - rewrite list_lookup_insert_ne; [done|lia].
Qed.

Lemma same_bit l l' : 0 ≤ l → 0 ≤ l' → l / 8 = l' / 8 → l mod 8 = l' mod 8 → l = l'.
Proof. intros. rewrite (Z.div_mod l 8), (Z.div_mod l' 8) by lia. congruence. Qed.

Lemma bit_set bm l l' :
  covered bm l → 0 ≤ l' → bit (bitmap_set bm l) l' = (l =? l') || bit bm l'.
Proof.
  intros Hc Hl'. pose proof Hc as [H0 _]. unfold bit, bitmap_set.
  rewrite byte_at_insert by done. pose proof (Z.mod_pos_bound l 8 ltac:(lia)).
  pose proof (Z.mod_pos_bound l' 8 ltac:(lia)).
  destruct (Z.eqb_spec (l / 8) (l' / 8)) as [Hq|Hq]; cycle 1.
  { destruct (Z.eqb_spec l l') as [->|]; [done|done]. }
  assert (bitmap_byte bm l = bitmap_byte bm l') as -> by (unfold bitmap_byte; by rewrite Hq).
  rewrite bit_mask_spec, Z.lor_spec, Z.pow2_bits_eqb by lia. rewrite orb_comm. f_equal.
  destruct (Z.eqb_spec (l mod 8) (l' mod 8)) as [Hm|Hm]; symmetry;
    [apply Z.eqb_eq|apply Z.eqb_neq].
  - by apply same_bit.
  - congruence.
Qed.

Lemma bit_clear bm l l' :
  covered bm l → 0 ≤ l' → bit (bitmap_clear bm l) l' = negb (l =? l') && bit bm l'.
Proof.
  intros Hc Hl'. pose proof Hc as [H0 _]. unfold bit, bitmap_clear.
  rewrite byte_at_insert by done. pose proof (Z.mod_pos_bound l 8 ltac:(lia)).
  pose proof (Z.mod_pos_bound l' 8 ltac:(lia)).
  destruct (Z.eqb_spec (l / 8) (l' / 8)) as [Hq|Hq]; cycle 1.
  { destruct (Z.eqb_spec l l') as [->|]; [done|done]. }
  assert (bitmap_byte bm l = bitmap_byte bm l') as -> by (unfold bitmap_byte; by rewrite Hq).
  rewrite bit_mask_spec, Z.land_spec, wnot_testbit by
    (lia || (unfold in_width; split; [lia|]; apply Z.pow_lt_mono_r; lia)).
  rewrite bool_decide_true, Z.pow2_bits_eqb by lia. cbn. rewrite andb_comm. do 2 f_equal.
  destruct (Z.eqb_spec (l mod 8) (l' mod 8)) as [Hm|Hm]; symmetry;
    [apply Z.eqb_eq|apply Z.eqb_neq].
  - by apply same_bit.
  - congruence.
Qed.

Lemma length_bitmap_set bm l : length (bitmap_set bm l) = length bm.
Proof. apply length_insert. Qed.
Lemma length_bitmap_clear bm l : length (bitmap_clear bm l) = length bm.
Proof. apply length_insert. Qed.

Lemma bitmap_set_free bm l l' :
  covered bm l → 0 ≤ l' → bit_is_free (bitmap_set bm l) l' = negb (l =? l') && bit_is_free bm l'.
Proof. intros. pose proof H as [? _]. rewrite !bit_is_free_bit, bit_set by done. by rewrite negb_orb. Qed.

Lemma bitmap_clear_free bm l l' :
  covered bm l → 0 ≤ l' → bit_is_free (bitmap_clear bm l) l' = (l =? l') || bit_is_free bm l'.
Proof.
  intros. pose proof H as [? _]. rewrite !bit_is_free_bit, bit_clear by done.
  by rewrite negb_andb, negb_involutive.
Qed.

(** Number of free bits among the first [n]. *)
Fixpoint count_free (bm : list u8) (n : nat) : Z :=
  match n with
  | O => 0
  | S n => count_free bm n + (if bit_is_free bm (Z.of_nat n) then 1 else 0)
  end.

Lemma count_free_bounds bm n : 0 ≤ count_free bm n ≤ Z.of_nat n.
Proof. induction n as [|n IH]; cbn [count_free]; [lia|]. case_match; lia. Qed.

Lemma count_free_zero bm n l :
  count_free bm n = 0 → 0 ≤ l < Z.of_nat n → bit_is_free bm l = false.
Proof.
  induction n as [|n IH]; cbn [count_free]; [lia|]. intros Hc Hl.
  pose proof (count_free_bounds bm n). destruct (bit_is_free bm (Z.of_nat n)) eqn:Hf; [lia|].
  destruct (decide (l = Z.of_nat n)) as [->|]; [done|]. apply IH; lia.
Qed.

Lemma count_free_pos bm n l :
  0 ≤ l < Z.of_nat n → bit_is_free bm l = true → 0 < count_free bm n.
Proof.
  intros Hl Hf. pose proof (count_free_bounds bm n).
  destruct (decide (count_free bm n = 0)) as [H0|]; [|lia].
  by rewrite (count_free_zero bm n l H0 Hl) in Hf.
Qed.

(** Changing one bit changes the count by one. *)
Lemma count_free_change bm bm' n l (b : bool) :
  0 ≤ l → (∀ l', 0 ≤ l' → l' ≠ l → bit_is_free bm' l' = bit_is_free bm l') →
  bit_is_free bm l = b → bit_is_free bm' l = negb b →
  count_free bm' n = count_free bm n + (if decide (l < Z.of_nat n) then (if b then -1 else 1) else 0).
Proof.
  intros Hl Hsame Hb Hb'. induction n as [|n IH]; cbn [count_free].
  { rewrite decide_False by lia. done. }
  rewrite IH. destruct (decide (l = Z.of_nat n)) as [->|Hne].
  - rewrite decide_False, decide_True, Hb, Hb' by lia. destruct b; cbn; lia.
  - rewrite Hsame by lia. destruct (decide (l < Z.of_nat n)).
    + rewrite (decide_True (P:=l < Z.of_nat (S n))) by lia. lia.
    + rewrite (decide_False (P:=l < Z.of_nat (S n))) by lia. lia.
Qed.

Lemma find_free_block_spec n bm bs local :
  0 ≤ local → local + Z.of_nat n ≤ 8 * bs →
  match find_free_block n bm bs local with
  | Some l => local ≤ l < local + Z.of_nat n ∧ bit_is_free bm l = true ∧
              ∀ l', local ≤ l' < l → bit_is_free bm l' = false
  | None => ∀ l', local ≤ l' < local + Z.of_nat n → bit_is_free bm l' = false
  end.
Proof.
  revert local. induction n as [|n IH]; intros local Hl Hb; cbn [find_free_block]; [lia|].
  assert (local / 8 < bs) as Hq by (apply Z.div_lt_upper_bound; lia).
  rewrite (proj2 (Z.leb_gt _ _)) by done. destruct (bit_is_free bm local) eqn:Hf; [split; [lia|]; split; [done|lia]|].
  specialize (IH (local + 1) ltac:(lia) ltac:(lia)).
  destruct (find_free_block n bm bs (local + 1)) as [l|].
  - destruct IH as (? & ? & Hlow). split; [lia|]. split; [done|]. intros l' Hl'.
    destruct (decide (l' = local)) as [->|]; [done|]. apply Hlow. lia.
  - intros l' Hl'. destruct (decide (l' = local)) as [->|]; [done|]. apply IH. lia.
Qed.

(** ** The set of free blocks *)

Section alloc.
Context {D : Type} `{BlockDevice D, !BlockDeviceLaws D, !ReliableDevice D}.
Implicit Types (s : Ext2Fs D) (b : u32).

Definition bpg (s : Ext2Fs D) : Z := s_blocks_per_group (superblock s).
Definition first_block (s : Ext2Fs D) : Z := s_first_data_block (superblock s).

Definition block_group_of (s : Ext2Fs D) (b : u32) : nat :=
  Z.to_nat ((b - first_block s) / bpg s).
Definition local_of (s : Ext2Fs D) (b : u32) : Z := (b - first_block s) mod bpg s.

(** The blocks the groups describe. *)
Definition data_range (s : Ext2Fs D) (b : u32) : Prop :=
  first_block s ≤ b < first_block s + Z.of_nat (length (block_groups s)) * bpg s.

Definition block_free (s : Ext2Fs D) (b : u32) : bool :=
  match block_groups s !! block_group_of s b with
  | Some bg =>
      match block_data s (bg_block_bitmap bg) with
      | Ok bm => bit_is_free bm (local_of s b)
      | Err _ => false
      end
  | None => false
  end.

Definition is_bitmap (s : Ext2Fs D) (b : u32) : Prop :=
  ∃ i bg, block_groups s !! i = Some bg ∧ bg_block_bitmap bg = b.

Record group_wf (s : Ext2Fs D) (i : nat) (bg : Ext2BlockGroupDesc) (bm : list u8) : Prop := {
  gw_bitmap : in_width 32 (bg_block_bitmap bg);
  gw_data : block_data s (bg_block_bitmap bg) = Ok bm;
  gw_count : bg_free_blocks_count bg = count_free bm (Z.to_nat (bpg s));
  gw_used : data_range s (bg_block_bitmap bg) ∧ block_free s (bg_block_bitmap bg) = false;
}.

Record alloc_wf (s : Ext2Fs D) : Prop := {
  aw_geom : geom s;
  aw_bpg : 0 < bpg s ≤ 8 * bsize s;
  aw_range : 0 ≤ first_block s ∧
    first_block s + Z.of_nat (length (block_groups s)) * bpg s ≤ 2 ^ 32;
  aw_group i bg : block_groups s !! i = Some bg → ∃ bm, group_wf s i bg bm;
  aw_distinct i j bg bg' : block_groups s !! i = Some bg → block_groups s !! j = Some bg' →
    bg_block_bitmap bg = bg_block_bitmap bg' → i = j;
  aw_device b : data_range s b → block_free s b = true ∨ is_bitmap s b → on_device s b;
}.

(** Block [l] of group [i]. *)
Definition nth_block (s : Ext2Fs D) (i : nat) (l : Z) : u32 :=
  first_block s + Z.of_nat i * bpg s + l.

Lemma nth_block_group s i l :
  0 < bpg s → 0 ≤ l < bpg s → block_group_of s (nth_block s i l) = i ∧ local_of s (nth_block s i l) = l.
Proof.
  intros Hb Hl. unfold block_group_of, local_of, nth_block.
  replace (first_block s + Z.of_nat i * bpg s + l - first_block s) with (l + Z.of_nat i * bpg s) by lia.
  rewrite Z.div_add, Z.mod_add, Z.div_small, Z.mod_small by lia. split; lia.
Qed.

Lemma block_split s b :
  0 < bpg s → data_range s b →
  b = nth_block s (block_group_of s b) (local_of s b) ∧ 0 ≤ local_of s b < bpg s ∧
  (block_group_of s b < length (block_groups s))%nat.
Proof.
  intros Hb [H0 H1]. unfold block_group_of, local_of, nth_block.
  pose proof (Z.div_mod (b - first_block s) (bpg s) ltac:(lia)).
  pose proof (Z.mod_pos_bound (b - first_block s) (bpg s) Hb).
  pose proof (Z.div_pos (b - first_block s) (bpg s) ltac:(lia) Hb).
  pose proof (Z.div_lt_upper_bound (b - first_block s) (bpg s) (Z.of_nat (length (block_groups s))) Hb ltac:(lia)).
  split; [lia|]. split; lia.
Qed.

Lemma block_free_nth s i bg bm l :
  0 < bpg s → 0 ≤ l < bpg s → block_groups s !! i = Some bg →
  block_data s (bg_block_bitmap bg) = Ok bm →
  block_free s (nth_block s i l) = bit_is_free bm l.
Proof.
  intros Hb Hl Hbg Hd. unfold block_free. destruct (nth_block_group s i l Hb Hl) as [-> ->].
  by rewrite Hbg, Hd.
Qed.

Lemma nth_block_range s i l :
  0 < bpg s → 0 ≤ l < bpg s → (i < length (block_groups s))%nat → data_range s (nth_block s i l).
Proof. intros Hb Hl Hi. unfold data_range, nth_block. nia. Qed.

Lemma bitmap_covered s i bg bm l :
  alloc_wf s → group_wf s i bg bm → 0 ≤ l < bpg s → covered bm l.
Proof.
  intros Hwf Hg Hl. unfold covered.
  rewrite (block_data_length s _ bm (aw_geom s Hwf) (gw_data _ _ _ _ Hg)).
  pose proof (aw_bpg s Hwf). pose proof (geom_bsize s (aw_geom s Hwf)). lia.
Qed.

(** ** One bit of one group changes

    Both operations rewrite the bitmap of group [i] and adjust its count;
    allocation also writes the allocated block. *)

Record bit_change (s s' : Ext2Fs D) (i : nat) (bg : Ext2BlockGroupDesc) (bm bm' : list u8)
    (l : Z) (n : Z) : Prop := {
  bc_group : block_groups s !! i = Some bg;
  bc_bm : group_wf s i bg bm;
  bc_local : 0 ≤ l < bpg s;
  bc_shape : same_shape s s';
  bc_groups : block_groups s' = alter (set_bg_free_blocks_count n) i (block_groups s);
  bc_data : block_data s' (bg_block_bitmap bg) = Ok bm';
  bc_length : length bm' = length bm;
  bc_frame b : in_width 32 b → b ≠ bg_block_bitmap bg → b ≠ nth_block s i l →
    block_data s' b = block_data s b;
  bc_bits l' : 0 ≤ l' → l' ≠ l → bit_is_free bm' l' = bit_is_free bm l';
  bc_flip : bit_is_free bm' l = negb (bit_is_free bm l);
  bc_count : n = bg_free_blocks_count bg + (if bit_is_free bm l then -1 else 1);
}.

Section change.
Context (s s' : Ext2Fs D) (i : nat) (bg : Ext2BlockGroupDesc) (bm bm' : list u8) (l n : Z).
Context (Hwf : alloc_wf s) (Hc : bit_change s s' i bg bm bm' l n).
Context (Hnob : ¬ is_bitmap s (nth_block s i l)).

Lemma change_bpg : bpg s' = bpg s ∧ first_block s' = first_block s ∧
  length (block_groups s') = length (block_groups s).
Proof using Hc.
  unfold bpg, first_block. rewrite (bc_groups _ _ _ _ _ _ _ _ Hc), length_alter.
  by destruct (bc_shape _ _ _ _ _ _ _ _ Hc) as (-> & _).
Qed.

Lemma change_group j bg' :
  block_groups s' !! j = Some bg' →
  ∃ bg0, block_groups s !! j = Some bg0 ∧ bg_block_bitmap bg' = bg_block_bitmap bg0 ∧
    (j ≠ i → bg' = bg0) ∧ (j = i → bg' = set_bg_free_blocks_count n bg).
Proof using Hc.
  rewrite (bc_groups _ _ _ _ _ _ _ _ Hc). destruct (decide (j = i)) as [->|Hne].
  - rewrite list_lookup_alter_eq, (bc_group _ _ _ _ _ _ _ _ Hc). cbn. intros [= <-].
    exists bg. split; [done|]. by split; [|split].
  - rewrite list_lookup_alter_ne by done. intros Hj. exists bg'. by split; [|split; [|split]].
Qed.

Lemma change_bitmap_data j bg0 :
  block_groups s !! j = Some bg0 → j ≠ i →
  block_data s' (bg_block_bitmap bg0) = block_data s (bg_block_bitmap bg0).
Proof using Hc Hwf Hnob.
  intros Hj Hne. destruct (aw_group s Hwf j bg0 Hj) as [bm0 Hg0].
  apply (bc_frame _ _ _ _ _ _ _ _ Hc).
  - apply (gw_bitmap _ _ _ _ Hg0).
  - intros Heq. apply Hne, (aw_distinct s Hwf j i bg0 bg Hj (bc_group _ _ _ _ _ _ _ _ Hc) Heq).
  - intros Heq. apply Hnob. exists j, bg0. done.
Qed.

(** The free set changes exactly at the block. *)
Lemma change_block_free b :
  data_range s b →
  block_free s' b = if b =? nth_block s i l then negb (block_free s b) else block_free s b.
Proof using Hc Hwf Hnob.
  intros Hr. pose proof (proj1 (aw_bpg s Hwf)) as Hb. destruct change_bpg as (Hbpg & Hfirst & Hlen).
  destruct (block_split s b Hb Hr) as (Heq & Hl & Hi).
  set (j := block_group_of s b) in *. set (l' := local_of s b) in *.
  destruct (lookup_lt_is_Some_2 _ _ Hi) as [bg0 Hj]. destruct (aw_group s Hwf j bg0 Hj) as [bm0 Hg0].
  assert (∃ bg', block_groups s' !! j = Some bg' ∧ bg_block_bitmap bg' = bg_block_bitmap bg0) as (bg' & Hj' & Hbb).
  { destruct (lookup_lt_is_Some_2 (block_groups s') j ltac:(lia)) as [bg' Hj'].
    destruct (change_group j bg' Hj') as (bg1 & Hj1 & Hbb & _). exists bg'. split; [done|]. congruence. }
  assert (nth_block s j l' = nth_block s' j l') as Hnth by (unfold nth_block; by rewrite Hbpg, Hfirst).
  destruct (decide (j = i)) as [Hji|Hji].
  - assert (bg0 = bg) as -> by (pose proof (bc_group _ _ _ _ _ _ _ _ Hc); congruence).
    assert (block_free s' b = bit_is_free bm' l') as ->.
    { rewrite Heq, Hnth. apply (block_free_nth s' j bg'); [lia|lia|done|].
      rewrite Hbb. apply (bc_data _ _ _ _ _ _ _ _ Hc). }
    assert (block_free s b = bit_is_free bm l') as ->.
    { rewrite Heq. apply (block_free_nth s j bg); [lia|lia|done|].
      apply (gw_data _ _ _ _ (bc_bm _ _ _ _ _ _ _ _ Hc)). }
    destruct (decide (l' = l)) as [Hll|Hll].
    + rewrite (proj2 (Z.eqb_eq _ _)) by (rewrite Heq, Hji, Hll; done).
      rewrite Hll. apply (bc_flip _ _ _ _ _ _ _ _ Hc).
    + rewrite (proj2 (Z.eqb_neq _ _)) by (rewrite Heq, Hji; unfold nth_block; lia).
      apply (bc_bits _ _ _ _ _ _ _ _ Hc); lia.
  - rewrite (proj2 (Z.eqb_neq _ _)); cycle 1.
    { intros Hbn. apply Hji. rewrite Hbn in Heq.
      pose proof (proj1 (nth_block_group s i l Hb (bc_local _ _ _ _ _ _ _ _ Hc))) as Hgi.
      pose proof (proj1 (nth_block_group s j l' Hb Hl)) as Hgj. congruence. }
    rewrite Heq at 1. rewrite Hnth, Heq, <- Heq.
    rewrite (block_free_nth s' j bg' bm0) by
      (try lia; try done; rewrite Hbb, (change_bitmap_data j bg0 Hj Hji); apply (gw_data _ _ _ _ Hg0)).
    rewrite Heq. symmetry. apply (block_free_nth s j bg0 bm0); [lia|lia|done|apply (gw_data _ _ _ _ Hg0)].
Qed.

Lemma change_data_range b : data_range s' b ↔ data_range s b.
Proof using Hc. unfold data_range. by destruct change_bpg as (-> & -> & ->). Qed.

Lemma change_is_bitmap b : is_bitmap s' b → is_bitmap s b.
Proof using Hc.
  intros (j & bg' & Hj & <-). destruct (change_group j bg' Hj) as (bg0 & Hj0 & -> & _).
  by exists j, bg0.
Qed.

Lemma change_bitmap_used j bg0 :
  block_groups s !! j = Some bg0 → block_free s' (bg_block_bitmap bg0) = false.
Proof using Hc Hwf Hnob.
  intros Hj. destruct (aw_group s Hwf j bg0 Hj) as [bm0 Hg0]. destruct (gw_used _ _ _ _ Hg0) as [Hr Hu].
  rewrite change_block_free by done. rewrite (proj2 (Z.eqb_neq _ _)); [done|].
  intros Heq. apply Hnob. by exists j, bg0.
Qed.

Lemma change_count : count_free bm' (Z.to_nat (bpg s)) = n.
Proof using Hc Hwf.
  pose proof (bc_local _ _ _ _ _ _ _ _ Hc) as Hl.
  rewrite (count_free_change bm bm' _ l (bit_is_free bm l));
    [|lia|apply (bc_bits _ _ _ _ _ _ _ _ Hc)|done|apply (bc_flip _ _ _ _ _ _ _ _ Hc)].
  rewrite decide_True by lia. rewrite (bc_count _ _ _ _ _ _ _ _ Hc).
  by rewrite (gw_count _ _ _ _ (bc_bm _ _ _ _ _ _ _ _ Hc)).
Qed.

Lemma change_group_wf j bg' :
  block_groups s' !! j = Some bg' → ∃ bm0, group_wf s' j bg' bm0.
Proof using Hc Hwf Hnob.
  intros Hj. destruct (change_group j bg' Hj) as (bg0 & Hj0 & Hbb & Hne & Heq).
  destruct (aw_group s Hwf j bg0 Hj0) as [bm0 Hg0]. destruct change_bpg as (Hbpg & _).
  exists (if decide (j = i) then bm' else bm0). split.
  - rewrite Hbb. apply (gw_bitmap _ _ _ _ Hg0).
  - rewrite Hbb. destruct (decide (j = i)) as [->|Hji].
    + pose proof (bc_group _ _ _ _ _ _ _ _ Hc). simplify_eq. apply (bc_data _ _ _ _ _ _ _ _ Hc).
    + rewrite (change_bitmap_data j bg0) by done. apply (gw_data _ _ _ _ Hg0).
  - rewrite Hbpg. destruct (decide (j = i)) as [->|Hji].
    + rewrite (Heq eq_refl). by rewrite change_count.
    + rewrite (Hne Hji). apply (gw_count _ _ _ _ Hg0).
  - rewrite Hbb, change_data_range. destruct (gw_used _ _ _ _ Hg0) as [Hr _]. split; [done|].
    by apply (change_bitmap_used j).
Qed.

(** The invariant survives when the block lies on the device. *)
Lemma change_alloc_wf : on_device s (nth_block s i l) → alloc_wf s'.
Proof using Hc Hwf Hnob.
  intros Hon. pose proof (bc_shape _ _ _ _ _ _ _ _ Hc) as Hss. destruct change_bpg as (Hbpg & Hf & Hlen).
  split.
  - by apply (same_shape_geom s), aw_geom.
  - rewrite Hbpg, (same_shape_bsize _ _ Hss). apply (aw_bpg s Hwf).
  - rewrite Hf, Hlen, Hbpg. apply (aw_range s Hwf).
  - apply change_group_wf.
  - intros j k bgj bgk Hj Hk Heq.
    destruct (change_group j bgj Hj) as (bg1 & Hj1 & Hb1 & _).
    destruct (change_group k bgk Hk) as (bg2 & Hk2 & Hb2 & _).
    apply (aw_distinct s Hwf j k bg1 bg2); [done|done|congruence].
  - intros b Hr Hfree. rewrite change_data_range in Hr. apply (on_device_shape s s' b Hss).
    destruct Hfree as [Hfree|Hbm%change_is_bitmap]; [|by apply (aw_device s Hwf); auto].
    rewrite change_block_free in Hfree by done.
    destruct (Z.eqb_spec b (nth_block s i l)) as [->|]; [done|]. apply (aw_device s Hwf); auto.
Qed.
End change.

(** ** Allocation *)

(** What a successful allocation of [b] does. *)
Record allocated (s s' : Ext2Fs D) (b : u32) : Prop := {
  al_range : data_range s b;
  al_free : block_free s b = true;
  al_lowest b' : data_range s b' → b' < b → block_free s b' = false;
  al_set b' : data_range s b' → block_free s' b' = if b' =? b then false else block_free s b';
  al_zero : block_data s' b = Ok (replicate (Z.to_nat (bsize s)) 0);
  al_frame b' : in_width 32 b' → b' ≠ b → ¬ is_bitmap s b' → block_data s' b' = block_data s b';
  al_shape : same_shape s s';
  al_groups : length (block_groups s') = length (block_groups s);
  al_bitmaps b' : is_bitmap s' b' ↔ is_bitmap s b';
  al_wf : alloc_wf s';
  al_other : mount_id s' = mount_id s ∧ clock s' = clock s;
}.

(** No block of the first [k] groups is free. *)
Definition none_free_below (s : Ext2Fs D) (k : nat) : Prop :=
  ∀ i bg bm l, (i < k)%nat → block_groups s !! i = Some bg → group_wf s i bg bm →
    0 ≤ l < bpg s → bit_is_free bm l = false.

Lemma none_free_blocks s k b :
  alloc_wf s → none_free_below s k → data_range s b → (block_group_of s b < k)%nat →
  block_free s b = false.
Proof.
  intros Hwf Hnone Hr Hk. pose proof (proj1 (aw_bpg s Hwf)) as Hb.
  destruct (block_split s b Hb Hr) as (Heq & Hl & Hi).
  destruct (lookup_lt_is_Some_2 _ _ Hi) as [bg Hbg]. destruct (aw_group s Hwf _ bg Hbg) as [bm Hg].
  rewrite Heq, (block_free_nth s _ bg bm) by (lia || done || apply (gw_data _ _ _ _ Hg)).
  by apply (Hnone (block_group_of s b) bg bm).
Qed.

Lemma block_data_groups s f i b : block_data (set_group i f s) b = block_data s b.
Proof. done. Qed.

Lemma same_shape_group s f i : same_shape s (set_group i f s).
Proof. done. Qed.

(** The writes of [allocate_block] once a free bit is found. *)
Lemma allocate_steps s i bg bm l :
  alloc_wf s → block_groups s !! i = Some bg → group_wf s i bg bm → 0 ≤ l < bpg s →
  bit_is_free bm l = true →
  ∃ s', (or_err "Failed to write block bitmap"%string
           (write_ext2_block (bg_block_bitmap bg) (bsize s) (bitmap_set bm l));;
         modify (set_group i (set_bg_free_blocks_count (bg_free_blocks_count bg - 1)));;
         or_err "Failed to zero allocated block"%string
           (write_ext2_block (nth_block s i l) (bsize s) (replicate (Z.to_nat (bsize s)) 0));;
         mret (nth_block s i l)) s = Some (Ok (nth_block s i l), s') ∧
    bit_change s s' i bg bm (bitmap_set bm l) l (bg_free_blocks_count bg - 1) ∧
    block_data s' (nth_block s i l) = Ok (replicate (Z.to_nat (bsize s)) 0) ∧
    mount_id s' = mount_id s ∧ clock s' = clock s.
Proof.
  intros Hwf Hbg Hg Hl Hfree. pose proof (aw_geom s Hwf) as Hgeo. pose proof (proj1 (aw_bpg s Hwf)) as Hb.
  set (b := nth_block s i l).
  assert (data_range s b) as Hr
    by (apply nth_block_range; [done|done|by eapply lookup_lt_Some]).
  assert (block_free s b = true) as Hbf
    by (unfold b; rewrite (block_free_nth s i bg bm) by (done || apply (gw_data _ _ _ _ Hg)); done).
  destruct (gw_used _ _ _ _ Hg) as [Hbr Hbu].
  assert (b ≠ bg_block_bitmap bg) as Hne by congruence.
  assert (in_width 32 b) as Hw
    by (destruct (aw_range s Hwf); unfold data_range in Hr; unfold in_width; lia).
  assert (length (bitmap_set bm l) = Z.to_nat (bsize s)) as Hls.
  { rewrite length_bitmap_set. apply (block_data_length s (bg_block_bitmap bg)); [done|apply (gw_data _ _ _ _ Hg)]. }
  destruct (write_ext2_block_reliable (bg_block_bitmap bg) (bitmap_set bm l) s) as [s1 H1];
    [done|apply (gw_bitmap _ _ _ _ Hg)|done|apply (aw_device s Hwf); [done|right; by exists i, bg]|].
  destruct (write_ext2_block_ok _ _ _ _ Hgeo (gw_bitmap _ _ _ _ Hg) Hls H1) as (Hs1 & Hss1 & Hd1 & Hf1).
  set (s2 := set_group i (set_bg_free_blocks_count (bg_free_blocks_count bg - 1)) s1).
  assert (same_shape s s2) as Hss2 by (by eapply same_shape_trans).
  assert (geom s2) as Hg2 by (by eapply same_shape_geom).
  assert (length (replicate (Z.to_nat (bsize s)) 0) = Z.to_nat (bsize s2)) as Hlz
    by (rewrite length_replicate; by rewrite (same_shape_bsize _ _ Hss2)).
  destruct (write_ext2_block_reliable b (replicate (Z.to_nat (bsize s)) 0) s2) as [s3 H3];
    [done|done|done|apply (on_device_shape s s2 b Hss2), (aw_device s Hwf); [done|by left]|].
  destruct (write_ext2_block_ok _ _ _ _ Hg2 Hw Hlz H3) as (Hs3 & Hss3 & Hd3 & Hf3).
  rewrite (same_shape_bsize _ _ Hss2) in H3.
  exists s3. split; [|split; [|split; [done|]]].
  - rewrite (bind_ok _ _ _ _ _ (or_err_ok _ _ _ _ _ H1)).
    rewrite (bind_ok _ _ s1 () s2) by done. by rewrite (bind_ok _ _ _ _ _ (or_err_ok _ _ _ _ _ H3)).
  - split; try done.
    + by eapply same_shape_trans.
    + rewrite Hs3. cbn. by rewrite Hs1.
    + rewrite Hf3 by (try apply (gw_bitmap _ _ _ _ Hg); congruence). done.
    + apply length_bitmap_set.
    + intros b' Hb' Hn1 Hn2. rewrite Hf3 by done. unfold s2. rewrite block_data_groups. by apply Hf1.
    + intros l' Hl' Hnl. rewrite bitmap_set_free by (lia || by eapply bitmap_covered).
      by rewrite (proj2 (Z.eqb_neq _ _)) by congruence.
    + rewrite bitmap_set_free by (lia || by eapply bitmap_covered). by rewrite Z.eqb_refl, Hfree.
    + rewrite Hfree. lia.
  - rewrite Hs3. cbn. by rewrite Hs1.
Qed.

(** From the changed bit to the contract of an allocation. *)
Lemma change_allocated s s' i bg bm bm' l n :
  alloc_wf s → bit_change s s' i bg bm bm' l n → bit_is_free bm l = true →
  none_free_below s i → (∀ l', 0 ≤ l' < l → bit_is_free bm l' = false) →
  block_data s' (nth_block s i l) = Ok (replicate (Z.to_nat (bsize s)) 0) →
  mount_id s' = mount_id s ∧ clock s' = clock s →
  allocated s s' (nth_block s i l).
Proof.
  intros Hwf Hc Hfree Hbelow Hlow Hz Hoth. pose proof (proj1 (aw_bpg s Hwf)) as Hb.
  pose proof (bc_group _ _ _ _ _ _ _ _ Hc) as Hbg. pose proof (bc_bm _ _ _ _ _ _ _ _ Hc) as Hg.
  pose proof (bc_local _ _ _ _ _ _ _ _ Hc) as Hl.
  set (b := nth_block s i l) in *.
  assert (data_range s b) as Hr
    by (apply nth_block_range; [done|done|by eapply lookup_lt_Some]).
  assert (block_free s b = true) as Hbf
    by (unfold b; rewrite (block_free_nth s i bg bm) by (done || apply (gw_data _ _ _ _ Hg)); done).
  assert (¬ is_bitmap s b) as Hnob.
  { intros (j & bgj & Hj & Heq). destruct (aw_group s Hwf j bgj Hj) as [bmj Hgj].
    destruct (gw_used _ _ _ _ Hgj) as [_ Hu]. congruence. }
  split; try done.
  - intros b' Hr' Hlt. destruct (block_split s b' Hb Hr') as (Heq & Hl' & Hi').
    destruct (decide (block_group_of s b' = i)) as [Hi|Hi].
    + rewrite Heq, Hi, (block_free_nth s i bg bm) by (done || apply (gw_data _ _ _ _ Hg)).
      apply Hlow. rewrite Hi in Heq. unfold b, nth_block in *. lia.
    + apply (none_free_blocks s i); [done|done|done|].
      rewrite Heq in Hlt. unfold b, nth_block in Hlt. nia.
  - intros b' Hr'. rewrite (change_block_free s s' i bg bm bm' l n Hwf Hc Hnob b' Hr'). fold b.
    destruct (Z.eqb_spec b' b) as [->|]; [|done]. by rewrite Hbf.
  - intros b' Hw' Hne Hnb'. apply (bc_frame _ _ _ _ _ _ _ _ Hc); [done| |done].
    intros ->. apply Hnb'. by exists i, bg.
  - apply (bc_shape _ _ _ _ _ _ _ _ Hc).
  - by rewrite (bc_groups _ _ _ _ _ _ _ _ Hc), length_alter.
  - intros b'. split; [by eapply change_is_bitmap|]. intros (j & bgj & Hj & <-).
    destruct (lookup_lt_is_Some_2 (block_groups s') j) as [bg' Hj'].
    { rewrite (bc_groups _ _ _ _ _ _ _ _ Hc), length_alter. by eapply lookup_lt_Some. }
    destruct (change_group s s' i bg bm bm' l n Hc j bg' Hj') as (bg0 & Hj0 & Hbb & _).
    exists j, bg'. split; [done|]. by simplify_eq.
  - apply (change_alloc_wf s s' i bg bm bm' l n Hwf Hc Hnob). apply (aw_device s Hwf); auto.
Qed.

Lemma none_free_extend s i bg bm :
  alloc_wf s → none_free_below s i → block_groups s !! i = Some bg → group_wf s i bg bm →
  (∀ l, 0 ≤ l < bpg s → bit_is_free bm l = false) → none_free_below s (S i).
Proof.
  intros Hwf Hn Hbg Hg Hall j bgj bmj l Hj Hbj Hgj Hl. destruct (decide (j = i)) as [->|Hne].
  - simplify_eq. pose proof (gw_data _ _ _ _ Hg). pose proof (gw_data _ _ _ _ Hgj).
    assert (bmj = bm) as -> by congruence. by apply Hall.
  - apply (Hn j bgj bmj); (done || lia).
Qed.

Lemma allocate_block_in_run s : alloc_wf s → ∀ bgs pre,
  block_groups s = pre ++ bgs → none_free_below s (length pre) →
  (∃ b s', allocate_block_in bgs (length pre) s = Some (Ok b, s') ∧ allocated s s' b) ∨
  (allocate_block_in bgs (length pre) s = Some (Err "No free blocks available"%string, s) ∧
   none_free_below s (length (block_groups s))).
Proof.
  intros Hwf. pose proof (aw_geom s Hwf) as Hgeo. pose proof (aw_bpg s Hwf) as Hb.
  induction bgs as [|bg bgs IH]; intros pre Heq Hnone; cbn [allocate_block_in].
  { right. split; [done|]. by rewrite Heq, app_nil_r. }
  set (i := length pre) in *.
  assert (block_groups s !! i = Some bg) as Hbg by (rewrite Heq; by apply list_lookup_middle).
  destruct (aw_group s Hwf i bg Hbg) as [bm Hg].
  assert (none_free_below s (S i) →
    (∃ b s', allocate_block_in bgs (S i) s = Some (Ok b, s') ∧ allocated s s' b) ∨
    (allocate_block_in bgs (S i) s = Some (Err "No free blocks available"%string, s) ∧
     none_free_below s (length (block_groups s)))) as Hnext.
  { intros Hn'. specialize (IH (pre ++ [bg])). rewrite length_app, Nat.add_1_r in IH.
    apply IH; [|done]. by rewrite <- (assoc_L (++)). }
  destruct (Z.eqb_spec (bg_free_blocks_count bg) 0) as [H0|H0].
  { apply Hnext. eapply none_free_extend; [done..|]. intros l Hl.
    apply (count_free_zero bm (Z.to_nat (bpg s))); [|lia]. by rewrite <- (gw_count _ _ _ _ Hg). }
  mstep. fold (bsize s). rewrite (bind_ok _ _ _ _ _ (stack_slice_run s Hgeo)).
  rewrite (bind_ok _ _ s bm s); cycle 1.
  { apply or_err_ok. rewrite read_ext2_block_run; [by rewrite (gw_data _ _ _ _ Hg)|done| |].
    - apply (gw_bitmap _ _ _ _ Hg).
    - apply length_replicate. }
  fold (bpg s) (first_block s).
  pose proof (find_free_block_spec (Z.to_nat (bpg s)) bm (bsize s) 0 ltac:(lia) ltac:(lia)) as Hfind.
  destruct (find_free_block (Z.to_nat (bpg s)) bm (bsize s) 0) as [l|]; cycle 1.
  { apply Hnext. eapply none_free_extend; [done..|]. intros l Hl. apply Hfind. lia. }
  destruct Hfind as (Hl & Hfree & Hlow). left.
  assert (0 ≤ l < bpg s) as Hl' by lia.
  rewrite (wrap_small 32); cycle 1.
  { pose proof (nth_block_range s i l (proj1 Hb) Hl' ltac:(by eapply lookup_lt_Some)) as Hr.
    destruct (aw_range s Hwf). unfold data_range, nth_block, in_width in *. lia. }
  destruct (allocate_steps s i bg bm l Hwf Hbg Hg Hl' Hfree) as (s' & Hrun & Hc & Hz & Ho).
  exists (nth_block s i l), s'. split; [exact Hrun|]. by eapply change_allocated.
Qed.

Lemma allocate_block_run s :
  alloc_wf s →
  (∃ b s', allocate_block s = Some (Ok b, s') ∧ allocated s s' b) ∨
  (allocate_block s = Some (Err "No free blocks available"%string, s) ∧
   ∀ b, data_range s b → block_free s b = false).
Proof.
  intros Hwf. unfold allocate_block. mstep.
  destruct (allocate_block_in_run s Hwf (block_groups s) []) as [Hok|[Herr Hnone]]; [done| |by left|].
  - intros i bg bm l Hi. cbn in Hi. lia.
  - right. split; [exact Herr|]. intros b Hr.
    apply (none_free_blocks s (length (block_groups s))); [done|done|done|].
    by apply (block_split s b (proj1 (aw_bpg s Hwf)) Hr).
Qed.

(** C16: the block allocator is exact.  On a consistent file system it either
    returns the lowest free block, having removed exactly that block from the
    free set, zeroed it and left every other block but the bitmap alone, or
    reports that there is none, and then no block is free.  The bitmaps and
    the free counts stay consistent. *)
Theorem allocate_block_exact s :
  alloc_wf s →
  (∃ b s', allocate_block s = Some (Ok b, s') ∧ allocated s s' b) ∨
  (allocate_block s = Some (Err "No free blocks available"%string, s) ∧
   ∀ b, data_range s b → block_free s b = false).
Proof. apply allocate_block_run. Qed.

(** ** Freeing *)

(** The bitmap without the bit of [b], written back. *)
Lemma free_block_change s b :
  alloc_wf s → data_range s b → block_free s b = false →
  let i := block_group_of s b in
  let l := local_of s b in
  ∃ s' bg bm, free_block b s = Some (Ok tt, s') ∧ bit_is_free bm l = false ∧
    bit_change s s' i bg bm (bitmap_clear bm l) l (bg_free_blocks_count bg + 1) ∧
    (∀ b', in_width 32 b' → b' ≠ bg_block_bitmap bg → block_data s' b' = block_data s b') ∧
    b = nth_block s i l.
Proof.
  intros Hwf Hr Hused i l. pose proof (aw_geom s Hwf) as Hgeo. pose proof (aw_bpg s Hwf) as Hb.
  destruct (block_split s b (proj1 Hb) Hr) as (Heq & Hl & Hi). fold i l in Heq, Hl, Hi.
  destruct (lookup_lt_is_Some_2 _ _ Hi) as [bg Hbg]. destruct (aw_group s Hwf i bg Hbg) as [bm Hg].
  assert (bit_is_free bm l = false) as Hbit.
  { rewrite Heq, (block_free_nth s i bg bm) in Hused by (done || lia || apply (gw_data _ _ _ _ Hg)). done. }
  pose proof (bitmap_covered s i bg bm l Hwf Hg Hl) as Hcov.
  assert (length (bitmap_clear bm l) = Z.to_nat (bsize s)) as Hls.
  { rewrite length_bitmap_clear. apply (block_data_length s (bg_block_bitmap bg)); [done|apply (gw_data _ _ _ _ Hg)]. }
  destruct (gw_used _ _ _ _ Hg) as [Hbr _].
  destruct (write_ext2_block_reliable (bg_block_bitmap bg) (bitmap_clear bm l) s) as [s1 H1];
    [done|apply (gw_bitmap _ _ _ _ Hg)|done|apply (aw_device s Hwf); [done|right; by exists i, bg]|].
  destruct (write_ext2_block_ok _ _ _ _ Hgeo (gw_bitmap _ _ _ _ Hg) Hls H1) as (Hs1 & Hss1 & Hd1 & Hf1).
  pose proof (count_free_bounds bm (Z.to_nat (bpg s))) as Hcb. rewrite <- (gw_count _ _ _ _ Hg) in Hcb.
  exists (set_group i (set_bg_free_blocks_count (bg_free_blocks_count bg + 1)) s1), bg, bm.
  set (s' := set_group i _ s1).
  assert (bit_change s s' i bg bm (bitmap_clear bm l) l (bg_free_blocks_count bg + 1)) as Hc.
  { split; try done.
    - cbn. by rewrite Hs1.
    - apply length_bitmap_clear.
    - intros b' Hw Hn1 Hn2. unfold s'. rewrite block_data_groups. by apply Hf1.
    - intros l' Hl' Hne. rewrite bitmap_clear_free by (lia || done).
      by rewrite (proj2 (Z.eqb_neq _ _)) by congruence.
    - rewrite bitmap_clear_free by (lia || done). by rewrite Z.eqb_refl, Hbit.
    - by rewrite Hbit. }
  split; [|split; [done|split; [done|split; [apply Hf1|done]]]].
  unfold free_block. mstep. fold (bsize s) (first_block s) (bpg s).
  rewrite (proj2 (Z.ltb_ge _ _)) by (by destruct Hr).
  rewrite (bind_ok _ _ s tt s) by (apply require_true, negb_true_iff, Z.eqb_neq; lia).
  mstep. fold (block_group_of s b) (local_of s b) i l. rewrite Hbg.
  rewrite (bind_ok _ _ _ _ _ (stack_slice_run s Hgeo)), (bind_ok _ _ s bm s); cycle 1.
  { apply or_err_ok. rewrite read_ext2_block_run; [by rewrite (gw_data _ _ _ _ Hg)|done| |].
    - apply (gw_bitmap _ _ _ _ Hg).
    - apply length_replicate. }
  rewrite (proj2 (Z.ltb_lt _ _)) by (apply Z.div_lt_upper_bound; lia).
  rewrite (bind_ok _ _ _ _ _ (or_err_ok _ _ _ _ _ H1)).
  assert (bg_free_blocks_count bg + 1 < 65536) as Hsmall; [|by rewrite wrap_small by (unfold in_width; lia)].
  pose proof (change_count s s' i bg bm _ l _ Hwf Hc) as Hcc.
  pose proof (count_free_bounds (bitmap_clear bm l) (Z.to_nat (bpg s))). pose proof (geom_bsize s Hgeo). lia.
Qed.

Record freed (s s' : Ext2Fs D) (b : u32) : Prop := {
  fb_wf : alloc_wf s';
  fb_shape : same_shape s s';
  fb_set b' : data_range s b' → block_free s' b' = if b' =? b then true else block_free s b';
  fb_frame b' : in_width 32 b' → ¬ is_bitmap s b' → block_data s' b' = block_data s b';
}.

Lemma free_block_run s b :
  alloc_wf s → data_range s b → block_free s b = false → ¬ is_bitmap s b → on_device s b →
  ∃ s', free_block b s = Some (Ok tt, s') ∧ freed s s' b.
Proof.
  intros Hwf Hr Hused Hnob Hon.
  destruct (free_block_change s b Hwf Hr Hused) as (s' & bg & bm & Hrun & Hbit & Hc & Hf & Heq).
  exists s'. split; [done|]. rewrite Heq in Hnob, Hon. split.
  - by eapply change_alloc_wf.
  - apply (bc_shape _ _ _ _ _ _ _ _ Hc).
  - intros b' Hr'. rewrite (change_block_free _ _ _ _ _ _ _ _ Hwf Hc Hnob b' Hr'), <- Heq.
    destruct (Z.eqb_spec b' b) as [->|]; [by rewrite Hused|done].
  - intros b' Hw Hnb. apply (Hf b' Hw). intros ->. apply Hnb. exists (block_group_of s b), bg.
    split; [apply (bc_group _ _ _ _ _ _ _ _ Hc)|done].
Qed.

(** C40: freeing a used data block of a consistent file system, not one that
    holds a bitmap, succeeds and puts exactly that block back in the free set:
    the bitmaps and the free counts stay consistent, and no block but the
    bitmaps changes on disk. *)
Theorem free_block_exact s b :
  alloc_wf s → data_range s b → block_free s b = false → ¬ is_bitmap s b → on_device s b →
  ∃ s', free_block b s = Some (Ok tt, s') ∧ alloc_wf s' ∧ same_shape s s' ∧
    (∀ b', data_range s b' → block_free s' b' = if b' =? b then true else block_free s b') ∧
    (∀ b', in_width 32 b' → ¬ is_bitmap s b' → block_data s' b' = block_data s b').
Proof.
  intros Hwf Hr Hu Hb Hd. destruct (free_block_run s b Hwf Hr Hu Hb Hd) as (s' & Hrun & []).
  by exists s'.
Qed.
End alloc.
