(* ===== verification/Ext2Map.v ===== *)
(** * ext2: the block map of a file

    The inode's fifteen pointers and the indirect blocks form a tree.
    [node s ino a] is the block at address [a] (a slot of the inode and a path
    of pointer indices); [tree_wf] says that the blocks of the tree are
    allocated, distinct and readable.  The file shows that [get_block_num]
    follows the route of a logical block ([route]) and that linking a fresh
    block into the tree, as [set_block_num] does level by level, changes
    exactly one address. *)

From S2P Require Import Prelude Bytes BlockDev Ext2Layout Ext2Core Ext2Blocks Ext2Alloc Ext2File.

(** ** Packed pointers *)

Lemma length_pack_ptrs n ps : length ps = n → length (pack (replicate n 4%nat) ps) = (4 * n)%nat.
Proof.
  intros <-. rewrite length_pack by (by rewrite length_replicate).
  induction ps as [|p ps IH]; [done|]. cbn [length replicate].
  change (sum_list (4%nat :: ?l)) with (4 + sum_list l)%nat. rewrite IH. lia.
Qed.

Lemma sum_replicate4 n : sum_list (replicate n 4%nat) = (4 * n)%nat.
Proof.
  induction n as [|n IH]; [done|]. cbn [replicate].
  change (sum_list (4%nat :: ?l)) with (4 + sum_list l)%nat. rewrite IH. lia.
Qed.

Lemma unpack_pack_ptrs n ps :
  length ps = n → Forall (in_width 32) ps →
  unpack (replicate n 4%nat) (pack (replicate n 4%nat) ps) = ps.
Proof.
  intros <- Hf. rewrite <- (app_nil_r (pack _ _)). apply unpack_pack. by apply Forall2_replicate_l.
Qed.

Lemma unpack_ptrs_width n bs :
  byte_list bs → (4 * n ≤ length bs)%nat → Forall (in_width 32) (unpack (replicate n 4%nat) bs).
Proof.
  intros Hb Hl. pose proof (unpack_fits (replicate n 4%nat) bs Hb) as Hf.
  rewrite sum_replicate4 in Hf. specialize (Hf Hl). apply Forall_lookup. intros i x Hx.
  destruct (Forall2_lookup_r _ _ _ _ _ Hf Hx) as (w & Hw & Hfw).
  apply lookup_replicate in Hw as [-> _]. done.
Qed.

Lemma unpack_zeros n m : (4 * n ≤ m)%nat → unpack (replicate n 4%nat) (replicate m 0) = replicate n 0.
Proof.
  revert m. induction n as [|n IH]; intros m Hm; [done|]. cbn [replicate unpack].
  rewrite take_replicate, drop_replicate, IH by lia.
  replace (4 `min` m)%nat with 4%nat by lia. done.
Qed.

Section map.
Context {D : Type} `{BlockDevice D, !BlockDeviceLaws D, !ReliableDevice D}.
Implicit Types (s : Ext2Fs D) (b v : u32).

(** Pointers per indirect block. *)
Definition ppb (s : Ext2Fs D) : Z := bsize s / 4.

Lemma ppb_bounds s : geom s → 256 ≤ ppb s ≤ 1024 ∧ 4 * ppb s = bsize s ∧ wrap 32 (ppb s) = ppb s.
Proof.
  intros Hg. unfold ppb. destruct (geom_bsize s Hg) as [->|[->| ->]]; vm_compute; split; auto;
    split; congruence.
Qed.

Definition ptrs_of (s : Ext2Fs D) (b : u32) : list u32 :=
  match block_data s b with
  | Ok d => unpack (replicate (Z.to_nat (ppb s)) 4%nat) d
  | Err _ => []
  end.

Definition ptr_in (s : Ext2Fs D) (b : u32) (i : Z) : u32 := nth (Z.to_nat i) (ptrs_of s b) 0.

(** ** Addresses and nodes *)

Definition addr : Type := nat * list Z.

Definition depth (slot : nat) : nat := (slot - 11)%nat.

Definition valid_addr (s : Ext2Fs D) (a : addr) : Prop :=
  (fst a < 15)%nat ∧ (length (snd a) ≤ depth (fst a))%nat ∧
  Forall (λ i, 0 ≤ i < ppb s) (snd a).

Definition interior (a : addr) : Prop := (length (snd a) < depth (fst a))%nat.

Fixpoint descend (s : Ext2Fs D) (p : u32) (path : list Z) : u32 :=
  match path with
  | [] => p
  | i :: path => if p =? 0 then 0 else descend s (ptr_in s p i) path
  end.

Definition node (s : Ext2Fs D) (ino : Ext2Inode) (a : addr) : u32 :=
  descend s (nth (fst a) (i_block ino) 0) (snd a).

Lemma descend_0 s path : descend s 0 path = 0.
Proof. by destruct path. Qed.

Lemma descend_app s p q r : descend s p (q ++ r) = descend s (descend s p q) r.
Proof.
  revert p. induction q as [|i q IH]; intros p; [done|]. cbn.
  destruct (p =? 0); [by rewrite descend_0|apply IH].
Qed.

Lemma descend_snoc s p q i :
  descend s p (q ++ [i]) = if descend s p q =? 0 then 0 else ptr_in s (descend s p q) i.
Proof. by rewrite descend_app. Qed.

(** A block in use that holds neither a bitmap nor anything outside the
    device. *)
Record good (s : Ext2Fs D) (b : u32) : Prop := {
  gd_range : data_range s b;
  gd_used : block_free s b = false;
  gd_bitmap : ¬ is_bitmap s b;
  gd_device : on_device s b;
}.

Record tree_wf (s : Ext2Fs D) (ino : Ext2Inode) : Prop := {
  tw_slots : length (i_block ino) = 15%nat;
  tw_good a : valid_addr s a → node s ino a ≠ 0 → good s (node s ino a);
  tw_inj a a' : valid_addr s a → valid_addr s a' → node s ino a ≠ 0 →
    node s ino a = node s ino a' → a = a';
  tw_bytes a d : valid_addr s a → interior a → node s ino a ≠ 0 →
    block_data s (node s ino a) = Ok d → byte_list d;
}.

Lemma good_width s b : alloc_wf s → good s b → in_width 32 b.
Proof.
  intros Hwf Hg. destruct (gd_range s b Hg). destruct (aw_range s Hwf). unfold in_width. lia.
Qed.

Lemma good_read s b : alloc_wf s → good s b → ∃ d, block_data s b = Ok d.
Proof.
  intros Hwf Hg. pose proof (good_width s b Hwf Hg) as [? _].
  apply block_data_ok; [apply (aw_geom s Hwf)|done|apply (gd_device s b Hg)].
Qed.

Lemma ptrs_of_length s b d :
  geom s → block_data s b = Ok d → length (ptrs_of s b) = Z.to_nat (ppb s).
Proof. intros Hg Hd. unfold ptrs_of. by rewrite Hd, length_unpack, length_replicate. Qed.

Lemma interior_ptrs_width s ino a :
  alloc_wf s → tree_wf s ino → valid_addr s a → interior a → node s ino a ≠ 0 →
  Forall (in_width 32) (ptrs_of s (node s ino a)).
Proof.
  intros Hwf Ht Ha Hi Hn. pose proof (tw_good s ino Ht a Ha Hn) as Hgd.
  destruct (good_read s _ Hwf Hgd) as [d Hd]. unfold ptrs_of. rewrite Hd.
  pose proof (aw_geom s Hwf) as Hg. pose proof (ppb_bounds s Hg) as (? & ? & _).
  apply unpack_ptrs_width; [by apply (tw_bytes s ino Ht a)|].
  rewrite (block_data_length s _ d Hg Hd). lia.
Qed.

(** ** The route of a logical block *)

(** Blocks a file can have. *)
Definition max_blocks (s : Ext2Fs D) : Z := 12 + ppb s + ppb s * ppb s + ppb s * ppb s * ppb s.

Definition route (s : Ext2Fs D) (L : Z) : addr :=
  let P := ppb s in
  if L <? 12 then (Z.to_nat L, [])
  else if L <? 12 + P then (12%nat, [L - 12])
  else if L <? 12 + P + P * P then
    let x := L - 12 - P in (13%nat, [x / P; x mod P])
  else
    let x := L - 12 - P - P * P in (14%nat, [x / (P * P); x / P mod P; x mod P]).

Definition file_block (s : Ext2Fs D) (ino : Ext2Inode) (L : Z) : u32 := node s ino (route s L).

Lemma route_valid s L :
  geom s → 0 ≤ L < max_blocks s →
  valid_addr s (route s L) ∧ length (snd (route s L)) = depth (fst (route s L)).
Proof.
  intros Hg HL. destruct (ppb_bounds s Hg) as (HP & _ & _). unfold max_blocks in HL. unfold route.
  set (P := ppb s) in *.
  destruct (Z.ltb_spec L 12); [|destruct (Z.ltb_spec L (12 + P));
    [|destruct (Z.ltb_spec L (12 + P + P * P))]]; unfold valid_addr, depth; cbn [fst snd length].
  - split; [|lia]. split; [lia|]. split; [lia|constructor].
  - split; [|done]. split; [lia|]. split; [lia|]. fold P. repeat constructor; lia.
  - split; [|done]. split; [lia|]. split; [lia|]. fold P.
    pose proof (Z.mod_pos_bound (L - 12 - P) P ltac:(lia)).
    pose proof (Z.div_pos (L - 12 - P) P ltac:(lia) ltac:(lia)).
    pose proof (Z.div_lt_upper_bound (L - 12 - P) P P ltac:(lia) ltac:(lia)).
    repeat constructor; lia.
  - split; [|done]. split; [lia|]. split; [lia|]. fold P.
    set (x := L - 12 - P - P * P).
    pose proof (Z.mod_pos_bound x P ltac:(lia)). pose proof (Z.mod_pos_bound (x / P) P ltac:(lia)).
    pose proof (Z.div_pos x (P * P) ltac:(lia) ltac:(nia)).
    pose proof (Z.div_lt_upper_bound x (P * P) P ltac:(nia) ltac:(lia)).
    repeat constructor; lia.
Qed.

Lemma div_mod_inj x y P : 0 < P → x / P = y / P → x mod P = y mod P → x = y.
Proof. intros HP Hd Hm. rewrite (Z.div_mod x P), (Z.div_mod y P) by lia. congruence. Qed.

Lemma route_inj s L L' :
  geom s → 0 ≤ L < max_blocks s → 0 ≤ L' < max_blocks s → route s L = route s L' → L = L'.
Proof.
  intros Hg HL HL' Heq. destruct (ppb_bounds s Hg) as (HP & _ & _). unfold route in Heq.
  set (P := ppb s) in *.
  destruct (Z.ltb_spec L 12), (Z.ltb_spec L' 12); simplify_eq; try lia.
  all: destruct (Z.ltb_spec L (12 + P)), (Z.ltb_spec L' (12 + P)); simplify_eq; try lia.
  all: destruct (Z.ltb_spec L (12 + P + P * P)), (Z.ltb_spec L' (12 + P + P * P)); try discriminate Heq.
  - injection Heq as Hq Hm. assert (L - 12 - P = L' - 12 - P); [|lia].
    by apply (div_mod_inj _ _ P); [lia|..].
  - injection Heq as Hq1 Hq2 Hm. assert (L - 12 - P - P * P = L' - 12 - P - P * P); [|lia].
    apply (div_mod_inj _ _ P); [lia| |done]. apply (div_mod_inj _ _ P); [lia| |done].
    by rewrite !Z.div_div by lia.
Qed.

(** ** [get_block_num] follows the route *)

Lemma read_indirect_run s b :
  alloc_wf s → good s b →
  read_indirect_block b (bsize s) s = Some (Ok (ptrs_of s b), s) ∧
  length (ptrs_of s b) = Z.to_nat (ppb s).
Proof.
  intros Hwf Hgd. pose proof (aw_geom s Hwf) as Hg. destruct (good_read s b Hwf Hgd) as [d Hd].
  split; [|by eapply ptrs_of_length]. unfold read_indirect_block.
  rewrite (bind_ok _ _ _ _ _ (stack_slice_run s Hg)), (bind_ok _ _ s d s).
  - unfold ptrs_of. by rewrite Hd.
  - rewrite read_ext2_block_run by (done || by apply (good_width s) || apply length_replicate).
    by rewrite Hd.
Qed.

Lemma ptr_at_run {E} s (ps : list u32) i :
  0 ≤ i < Z.of_nat (length ps) → ptr_at (E:=E) ps i s = Some (Ok (nth (Z.to_nat i) ps 0), s).
Proof.
  intros Hi. unfold ptr_at. destruct (lookup_lt_is_Some_2 ps (Z.to_nat i) ltac:(lia)) as [x Hx].
  rewrite Hx. cbn. by rewrite (nth_lookup_Some _ _ _ _ Hx).
Qed.

Lemma ptr_in_run {E} s b i :
  length (ptrs_of s b) = Z.to_nat (ppb s) → 0 ≤ i < ppb s →
  ptr_at (E:=E) (ptrs_of s b) i s = Some (Ok (ptr_in s b i), s).
Proof. intros Hl Hi. apply ptr_at_run. lia. Qed.

Lemma slot_run {E} s ino slot :
  tree_wf s ino → (slot < 15)%nat →
  ptr_at (E:=E) (i_block ino) (Z.of_nat slot) s = Some (Ok (node s ino (slot, [])), s).
Proof.
  intros Ht Hs. rewrite ptr_at_run by (rewrite (tw_slots s ino Ht); lia).
  unfold node. cbn. by rewrite Nat2Z.id.
Qed.

Lemma valid_prefix s slot q r : valid_addr s (slot, q ++ r) → valid_addr s (slot, q).
Proof.
  intros (? & Hl & Hf). cbn in *. rewrite length_app in Hl. apply Forall_app in Hf as [? _].
  split; [done|]. cbn. split; [lia|done].
Qed.

Lemma read_child s ino slot q i :
  alloc_wf s → tree_wf s ino → valid_addr s (slot, q ++ [i]) → node s ino (slot, q) ≠ 0 →
  let b := node s ino (slot, q) in
  read_indirect_block b (bsize s) s = Some (Ok (ptrs_of s b), s) ∧
  (∀ E, ptr_at (E:=E) (ptrs_of s b) i s = Some (Ok (node s ino (slot, q ++ [i])), s)) ∧
  length (ptrs_of s b) = Z.to_nat (ppb s) ∧ 0 ≤ i < ppb s.
Proof.
  intros Hwf Ht Hv Hn b. pose proof (valid_prefix s slot q [i] Hv) as Hq.
  destruct (read_indirect_run s _ Hwf (tw_good s ino Ht _ Hq Hn)) as [Hr Hl]. fold b in Hr, Hl.
  assert (0 ≤ i < ppb s) as Hi.
  { destruct Hv as (_ & _ & Hf). cbn in Hf. apply Forall_app in Hf as [_ Hi]. by inversion Hi. }
  split; [done|]. split; [|done]. intros E. rewrite ptr_in_run by done.
  unfold node. cbn [fst snd]. rewrite descend_snoc.
  by rewrite (proj2 (Z.eqb_neq _ _)) by done.
Qed.

(** One level down: reading the pointer at [i] of the node at [(slot, q)]. *)
Lemma child_run {A} s ino slot q i (k : u32 → M D BlockError A) :
  alloc_wf s → tree_wf s ino → valid_addr s (slot, q ++ [i]) → node s ino (slot, q) ≠ 0 →
  (ptrs ← read_indirect_block (node s ino (slot, q)) (bsize s); p ← ptr_at ptrs i; k p) s =
  k (node s ino (slot, q ++ [i])) s.
Proof.
  intros Hwf Ht Hv Hn. destruct (read_child s ino slot q i Hwf Ht Hv Hn) as (Hr & Hp & _).
  by rewrite (bind_ok _ _ _ _ _ Hr), (bind_ok _ _ _ _ _ (Hp _)).
Qed.

Lemma node_snoc s ino slot q i : node s ino (slot, q) = 0 → node s ino (slot, q ++ [i]) = 0.
Proof. unfold node. cbn [fst snd]. intros Hz. by rewrite descend_snoc, Hz. Qed.

Lemma some_block_0 : some_block 0 = None.
Proof. done. Qed.

Ltac zero_node H := let Hn := fresh in pose proof H as Hn; cbn [app] in Hn; rewrite Hn; done.

Lemma get_block_num_run s ino L :
  alloc_wf s → tree_wf s ino → 0 ≤ L < max_blocks s →
  get_block_num ino L s = Some (Ok (some_block (file_block s ino L)), s).
Proof.
  intros Hwf Ht HL. pose proof (aw_geom s Hwf) as Hg. destruct (ppb_bounds s Hg) as (HP & H4 & HwP).
  pose proof (route_valid s L Hg HL) as [Hv _]. unfold file_block, route in *.
  unfold max_blocks in HL. unfold get_block_num. mstep. fold (bsize s). fold (ppb s).
  rewrite HwP. unfold DIRECT_BLOCKS, SINGLE_INDIRECT, DOUBLE_INDIRECT, TRIPLE_INDIRECT. set (P := ppb s) in *.
  destruct (Z.ltb_spec L 12).
  { replace L with (Z.of_nat (Z.to_nat L)) at 1 by lia.
    by rewrite (bind_ok _ _ _ _ _ (slot_run s ino (Z.to_nat L) Ht ltac:(lia))). }
  rewrite (wrap_small 32 (12 + P)) by (unfold in_width; lia).
  rewrite (wrap_small 32 (P * P)) by (unfold in_width; nia).
  destruct (Z.ltb_spec L (12 + P)).
  { rewrite (bind_ok _ _ _ _ _ (slot_run s ino 12 Ht ltac:(lia))).
    destruct (Z.eqb_spec (node s ino (12%nat, [])) 0) as [Hz|Hz].
    - zero_node (node_snoc s ino 12 [] (L - 12) Hz).
    - exact (child_run s ino 12 [] (L - 12) (λ b, mret (some_block b)) Hwf Ht Hv Hz). }
  rewrite (wrap_small 32 (12 + P + P * P)) by (unfold in_width; nia).
  destruct (Z.ltb_spec L (12 + P + P * P)).
  { rewrite (bind_ok _ _ _ _ _ (slot_run s ino 13 Ht ltac:(lia))).
    rewrite (wrap_small 32 (L - 12 - P)) by (unfold in_width; nia). set (x := L - 12 - P) in *.
    destruct (Z.eqb_spec (node s ino (13%nat, [])) 0) as [Hz|Hz].
    { zero_node (node_snoc s ino 13 [x / P] (x mod P) (node_snoc s ino 13 [] (x / P) Hz)). }
    rewrite (bind_ok _ _ s tt s) by (apply require_true, negb_true_iff, Z.eqb_neq; lia).
    rewrite (child_run s ino 13 [] (x / P) _ Hwf Ht (valid_prefix s 13 [x / P] [x mod P] Hv) Hz).
    destruct (Z.eqb_spec (node s ino (13%nat, [] ++ [x / P])) 0) as [Hz1|Hz1].
    - zero_node (node_snoc s ino 13 [x / P] (x mod P) Hz1).
    - exact (child_run s ino 13 [x / P] (x mod P) (λ b, mret (some_block b)) Hwf Ht Hv Hz1). }
  rewrite (bind_ok _ _ _ _ _ (slot_run s ino 14 Ht ltac:(lia))).
  rewrite (wrap_small 32 (L - 12 - P - P * P)) by (unfold in_width; nia).
  set (x := L - 12 - P - P * P) in *.
  destruct (Z.eqb_spec (node s ino (14%nat, [])) 0) as [Hz|Hz].
  { zero_node (node_snoc s ino 14 [x / (P * P); x / P mod P] (x mod P)
      (node_snoc s ino 14 [x / (P * P)] (x / P mod P) (node_snoc s ino 14 [] (x / (P * P)) Hz))). }
  rewrite (bind_ok _ _ s tt s) by (apply require_true, negb_true_iff, Z.eqb_neq; nia).
  rewrite (child_run s ino 14 [] (x / (P * P)) _ Hwf Ht
    (valid_prefix s 14 [x / (P * P)] [x / P mod P; x mod P] Hv) Hz).
  destruct (Z.eqb_spec (node s ino (14%nat, [] ++ [x / (P * P)])) 0) as [Hz1|Hz1].
  { zero_node (node_snoc s ino 14 [x / (P * P); x / P mod P] (x mod P)
      (node_snoc s ino 14 [x / (P * P)] (x / P mod P) Hz1)). }
  rewrite (child_run s ino 14 [x / (P * P)] (x / P mod P) _ Hwf Ht
    (valid_prefix s 14 [x / (P * P); x / P mod P] [x mod P] Hv) Hz1).
  destruct (Z.eqb_spec (node s ino (14%nat, [x / (P * P)] ++ [x / P mod P])) 0) as [Hz2|Hz2].
  - zero_node (node_snoc s ino 14 [x / (P * P); x / P mod P] (x mod P) Hz2).
  - exact (child_run s ino 14 [x / (P * P); x / P mod P] (x mod P) (λ b, mret (some_block b)) Hwf Ht Hv Hz2).
Qed.

Lemma ptr_at_out {E} s (ps : list u32) i :
  Z.of_nat (length ps) ≤ i → ptr_at (E:=E) ps i s = None.
Proof. intros Hi. unfold ptr_at. by rewrite (lookup_ge_None_2 ps) by lia. Qed.

(** The first index computed for a block beyond the capacity. *)
Lemma beyond_index s L :
  geom s → max_blocks s ≤ L → in_width 32 L →
  let P := ppb s in
  wrap 32 (P * P) = P * P ∧ (L <? 12) = false ∧ (L <? wrap 32 (12 + P)) = false ∧
  (L <? wrap 32 (12 + P + P * P)) = false ∧
  ppb s ≤ wrap 32 (L - 12 - P - P * P) / (P * P).
Proof.
  intros Hg HL HwL P. destruct (ppb_bounds s Hg) as (HP & _ & _). unfold max_blocks in HL. fold P in HP, HL |- *.
  unfold in_width in HwL.
  rewrite (wrap_small 32 (P * P)), (wrap_small 32 (12 + P)), (wrap_small 32 (12 + P + P * P)),
    (wrap_small 32 (L - 12 - P - P * P)) by (unfold in_width; nia).
  rewrite !Z.ltb_ge. repeat split; try nia. apply Z.div_le_lower_bound; nia.
Qed.

Lemma get_block_num_beyond s ino L :
  alloc_wf s → tree_wf s ino → max_blocks s ≤ L → in_width 32 L →
  get_block_num ino L s = if node s ino (14%nat, []) =? 0 then Some (Ok None, s) else None.
Proof.
  intros Hwf Ht HL HwL. pose proof (aw_geom s Hwf) as Hg. destruct (ppb_bounds s Hg) as (HP & H4 & HwP).
  destruct (beyond_index s L Hg HL HwL) as (HPP & H1 & H2 & H3 & Hidx).
  unfold get_block_num. mstep. fold (bsize s). fold (ppb s). rewrite HwP.
  unfold DIRECT_BLOCKS, TRIPLE_INDIRECT. rewrite HPP, H1, H2, H3.
  rewrite (bind_ok _ _ _ _ _ (slot_run s ino 14 Ht ltac:(lia))).
  destruct (Z.eqb_spec (node s ino (14%nat, [])) 0) as [Hz|Hz]; [done|].
  rewrite (bind_ok _ _ s tt s) by (apply require_true, negb_true_iff, Z.eqb_neq; nia).
  assert (valid_addr s (14%nat, [])) as Hv by (split; [cbn; lia|split; [cbn; lia|constructor]]).
  destruct (read_indirect_run s _ Hwf (tw_good s ino Ht _ Hv Hz)) as [Hr Hl].
  rewrite (bind_ok _ _ _ _ _ Hr). unfold mbind, M_bind. by rewrite ptr_at_out by lia.
Qed.

(** ** Writing one block *)

Record wrote (s s' : Ext2Fs D) (b : u32) : Prop := {
  wr_shape : same_shape s s';
  wr_groups : block_groups s' = block_groups s;
  wr_frame b' : in_width 32 b' → b' ≠ b → block_data s' b' = block_data s b';
  wr_other : mount_id s' = mount_id s ∧ clock s' = clock s;
}.

Lemma write_block_wrote s b buf :
  alloc_wf s → good s b → length buf = Z.to_nat (bsize s) →
  ∃ s', write_ext2_block b (bsize s) buf s = Some (Ok tt, s') ∧ wrote s s' b ∧
        block_data s' b = Ok buf.
Proof.
  intros Hwf Hgd Hl. pose proof (aw_geom s Hwf) as Hg. pose proof (good_width s b Hwf Hgd) as Hw.
  destruct (write_ext2_block_reliable b buf s Hg Hw Hl (gd_device s b Hgd)) as [s' Hs'].
  destruct (write_ext2_block_ok b buf s s' Hg Hw Hl Hs') as (Heq & Hss & Hd & Hf).
  exists s'. split; [done|]. split; [|done]. by split; [|rewrite Heq|done|rewrite Heq].
Qed.

Section wrote.
Context (s s' : Ext2Fs D) (b : u32) (Hwf : alloc_wf s) (Hw : wrote s s' b) (Hnob : ¬ is_bitmap s b).

Lemma wrote_sizes : bpg s' = bpg s ∧ first_block s' = first_block s ∧ bsize s' = bsize s ∧ ppb s' = ppb s.
Proof using Hw.
  destruct (wr_shape _ _ _ Hw) as (Hsb & _). unfold bpg, first_block, ppb, bsize. by rewrite Hsb.
Qed.

Lemma wrote_bitmap b' : is_bitmap s' b' ↔ is_bitmap s b'.
Proof using Hw. unfold is_bitmap. by rewrite (wr_groups _ _ _ Hw). Qed.

Lemma wrote_range b' : data_range s' b' ↔ data_range s b'.
Proof using Hw.
  unfold data_range. destruct wrote_sizes as (-> & -> & _). by rewrite (wr_groups _ _ _ Hw).
Qed.

Lemma wrote_bitmap_data i bg :
  block_groups s !! i = Some bg →
  block_data s' (bg_block_bitmap bg) = block_data s (bg_block_bitmap bg).
Proof using Hwf Hw Hnob.
  intros Hi. destruct (aw_group s Hwf i bg Hi) as [bm Hg].
  apply (wr_frame _ _ _ Hw); [apply (gw_bitmap _ _ _ _ Hg)|].
  intros Heq. apply Hnob. by exists i, bg.
Qed.

Lemma wrote_free b' : block_free s' b' = block_free s b'.
Proof using Hwf Hw Hnob.
  unfold block_free, block_group_of, local_of. destruct wrote_sizes as (-> & -> & _).
  rewrite (wr_groups _ _ _ Hw). destruct (block_groups s !! _) as [bg|] eqn:Hi; [|done].
  by rewrite (wrote_bitmap_data _ _ Hi).
Qed.

Lemma wrote_alloc_wf : alloc_wf s'.
Proof using Hwf Hw Hnob.
  pose proof (wr_shape _ _ _ Hw) as Hss. destruct wrote_sizes as (Hb & Hf & Hbs & _).
  split.
  - by apply (same_shape_geom s), aw_geom.
  - rewrite Hb, Hbs. apply (aw_bpg s Hwf).
  - rewrite Hb, Hf, (wr_groups _ _ _ Hw). apply (aw_range s Hwf).
  - intros i bg Hi. rewrite (wr_groups _ _ _ Hw) in Hi. destruct (aw_group s Hwf i bg Hi) as [bm Hg].
    exists bm. split; [apply (gw_bitmap _ _ _ _ Hg)| | |].
    + rewrite (wrote_bitmap_data i bg Hi). apply (gw_data _ _ _ _ Hg).
    + rewrite Hb. apply (gw_count _ _ _ _ Hg).
    + rewrite wrote_range, wrote_free. apply (gw_used _ _ _ _ Hg).
  - intros i j bg bg'. rewrite (wr_groups _ _ _ Hw). apply (aw_distinct s Hwf).
  - intros b'. rewrite wrote_range, wrote_free, wrote_bitmap. intros Hr Hor.
    by apply (on_device_shape s s' b' Hss), (aw_device s Hwf).
Qed.

Lemma wrote_good b' : good s b' → good s' b'.
Proof using Hwf Hw Hnob.
  intros [H1 H2 H3 H4]. split.
  - by rewrite wrote_range.
  - by rewrite wrote_free.
  - by rewrite wrote_bitmap.
  - by apply (on_device_shape s s' b' (wr_shape _ _ _ Hw)).
Qed.
End wrote.

(** ** Allocation seen from a tree *)

Section allocated.
Context (s s' : Ext2Fs D) (v : u32) (Hwf : alloc_wf s) (Ha : allocated s s' v).

Lemma allocated_not_bitmap : ¬ is_bitmap s v.
Proof using Hwf Ha.
  intros (i & bg & Hi & <-). destruct (aw_group s Hwf i bg Hi) as [bm Hg].
  destruct (gw_used _ _ _ _ Hg) as [_ Hu]. by rewrite (al_free _ _ _ Ha) in Hu.
Qed.

Lemma allocated_range b : data_range s' b ↔ data_range s b.
Proof using Ha.
  unfold data_range, first_block, bpg. rewrite (al_groups _ _ _ Ha). by destruct (al_shape _ _ _ Ha) as (-> & _).
Qed.

Lemma allocated_good b : good s b → good s' b ∧ block_data s' b = block_data s b ∧ b ≠ v.
Proof using Hwf Ha.
  intros Hgd. pose proof Hgd as [H1 H2 H3 H4].
  assert (b ≠ v) as Hne by (intros ->; by rewrite (al_free _ _ _ Ha) in H2).
  split; [|split; [|done]].
  - split.
    + by rewrite allocated_range.
    + rewrite (al_set _ _ _ Ha) by done. by rewrite (proj2 (Z.eqb_neq _ _)) by done.
    + by rewrite (al_bitmaps _ _ _ Ha).
    + by apply (on_device_shape s s' b (al_shape _ _ _ Ha)).
  - apply (al_frame _ _ _ Ha); [by apply (good_width s)|done|done].
Qed.

Lemma allocated_fresh_good : good s' v.
Proof using Hwf Ha.
  split.
  - rewrite allocated_range. apply (al_range _ _ _ Ha).
  - rewrite (al_set _ _ _ Ha) by apply (al_range _ _ _ Ha). by rewrite Z.eqb_refl.
  - rewrite (al_bitmaps _ _ _ Ha). apply allocated_not_bitmap.
  - apply (on_device_shape s s' v (al_shape _ _ _ Ha)), (aw_device s Hwf).
    + apply (al_range _ _ _ Ha).
    + left. apply (al_free _ _ _ Ha).
Qed.
End allocated.

(** ** The tree under changes *)

(** Same tree in a state where the interior blocks hold the same data. *)
Lemma node_ext s s' ino :
  ppb s' = ppb s →
  (∀ a, valid_addr s a → interior a → node s ino a ≠ 0 →
     block_data s' (node s ino a) = block_data s (node s ino a)) →
  ∀ a, valid_addr s a → node s' ino a = node s ino a.
Proof.
  intros HP Hext [slot q]. induction q as [|i q IH] using rev_ind; intros Hv; [done|].
  unfold node in *. cbn [fst snd] in *. rewrite !descend_snoc.
  pose proof (valid_prefix s slot q [i] Hv) as Hq. rewrite (IH Hq).
  destruct (Z.eqb_spec (descend s (nth slot (i_block ino) 0) q) 0) as [|Hn]; [done|].
  unfold ptr_in, ptrs_of. pose proof (Hext (slot, q) Hq) as He. cbn [fst snd] in He.
  rewrite He, HP; [done| |done].
  destruct Hv as (_ & Hl & _). cbn in Hl. rewrite length_app in Hl. unfold interior. cbn in *. lia.
Qed.

Lemma valid_addr_ppb s s' a : ppb s' = ppb s → valid_addr s' a ↔ valid_addr s a.
Proof. intros HP. unfold valid_addr. by rewrite HP. Qed.

Lemma tree_wf_ext s s' ino :
  ppb s' = ppb s → tree_wf s ino →
  (∀ a, valid_addr s a → node s ino a ≠ 0 → good s' (node s ino a)) →
  (∀ a, valid_addr s a → interior a → node s ino a ≠ 0 →
     block_data s' (node s ino a) = block_data s (node s ino a)) →
  tree_wf s' ino.
Proof.
  intros HP Ht Hgood Hext. pose proof (node_ext s s' ino HP Hext) as Hnode.
  split; [apply (tw_slots s ino Ht)|..].
  - intros a Ha Hn. rewrite (valid_addr_ppb s s') in Ha by done. rewrite Hnode in * by done. by apply Hgood.
  - intros a a' Ha Ha'. rewrite (valid_addr_ppb s s') in Ha, Ha' by done. rewrite !Hnode by done.
    by apply (tw_inj s ino Ht).
  - intros a d Ha Hi. rewrite (valid_addr_ppb s s') in Ha by done. rewrite Hnode by done. intros Hn.
    rewrite Hext by done. by apply (tw_bytes s ino Ht).
Qed.

(** A block outside the tree that is allocated and zeroed. *)
Record fresh (s : Ext2Fs D) (ino : Ext2Inode) (v : u32) : Prop := {
  fr_good : good s v;
  fr_nonzero : v ≠ 0;
  fr_zero : block_data s v = Ok (replicate (Z.to_nat (bsize s)) 0);
  fr_out a : valid_addr s a → node s ino a ≠ v;
}.

(** The tree after linking [v] at an address that was a hole. *)
Definition linked_node (s : Ext2Fs D) (ino : Ext2Inode) (a0 : addr) (v : u32) (a : addr) : u32 :=
  if decide (a = a0) then v else node s ino a.

Lemma node_below s ino slot q r : node s ino (slot, q) = 0 → node s ino (slot, q ++ r) = 0.
Proof. unfold node. cbn [fst snd]. intros Hz. by rewrite descend_app, Hz, descend_0. Qed.

Lemma zero_ptrs s v i :
  geom s → block_data s v = Ok (replicate (Z.to_nat (bsize s)) 0) → ptr_in s v i = 0.
Proof.
  intros Hg Hz. unfold ptr_in, ptrs_of. rewrite Hz. destruct (ppb_bounds s Hg) as (_ & H4 & _).
  rewrite unpack_zeros by lia. rewrite nth_lookup. destruct (replicate _ 0 !! Z.to_nat i) eqn:Hi; [|done].
  by apply lookup_replicate in Hi as [-> _].
Qed.

Lemma descend_zero s v r :
  geom s → block_data s v = Ok (replicate (Z.to_nat (bsize s)) 0) → r ≠ [] → descend s v r = 0.
Proof.
  intros Hg Hz Hr. destruct r as [|i r]; [done|]. cbn. destruct (v =? 0); [done|].
  by rewrite (zero_ptrs s v i Hg Hz), descend_0.
Qed.

Lemma linked_tree_wf s s' ino ino' a0 v :
  tree_wf s ino → fresh s ino v → valid_addr s a0 → node s ino a0 = 0 → ppb s' = ppb s →
  length (i_block ino') = 15%nat →
  (∀ a, valid_addr s a → node s' ino' a = linked_node s ino a0 v a) →
  (∀ b, good s b → good s' b) → (∀ d, block_data s' v = Ok d → byte_list d) →
  (∀ a d, valid_addr s a → interior a → node s ino a ≠ 0 →
     block_data s' (node s ino a) = Ok d → byte_list d) →
  tree_wf s' ino'.
Proof.
  intros Ht Hf Hv0 Hz0 HP Hl Hnode Hgood Hbv Hbytes. split; [done|..].
  - intros a Ha. rewrite (valid_addr_ppb s s') in Ha by done. rewrite Hnode by done.
    unfold linked_node. case_decide; intros Hn; apply Hgood; [apply (fr_good s ino v Hf)|].
    by apply (tw_good s ino Ht).
  - intros a a' Ha Ha'. rewrite (valid_addr_ppb s s') in Ha, Ha' by done. rewrite !Hnode by done.
    unfold linked_node. intros Hn Heq. destruct (decide (a = a0)), (decide (a' = a0)); try congruence.
    + by destruct (fr_out s ino v Hf a' Ha').
    + by destruct (fr_out s ino v Hf a Ha).
    + by apply (tw_inj s ino Ht).
  - intros a d Ha Hi. rewrite (valid_addr_ppb s s') in Ha by done. rewrite Hnode by done.
    unfold linked_node. case_decide; intros Hn; [apply Hbv|by apply Hbytes].
Qed.

(** Linking into a slot of the inode. *)
Lemma link_slot s ino slot v :
  geom s → tree_wf s ino → fresh s ino v → (slot < 15)%nat → node s ino (slot, []) = 0 →
  (∀ a, valid_addr s a → node s (set_i_block slot v ino) a = linked_node s ino (slot, []) v a) ∧
  tree_wf s (set_i_block slot v ino).
Proof.
  intros Hg Ht Hf Hs Hz.
  assert (∀ a, valid_addr s a →
    node s (set_i_block slot v ino) a = linked_node s ino (slot, []) v a) as Hnode.
  { intros [slot' r] Ha. unfold linked_node, node at 1. cbn [fst snd set_i_block set_size_blocks i_block].
    destruct (decide (slot' = slot)) as [->|Hne].
    - rewrite nth_lookup, list_lookup_insert_eq by (rewrite (tw_slots s ino Ht); done). cbn.
      destruct (decide ((slot, r) =@{addr} (slot, []))) as [[= ->]|Hr]; [done|].
      rewrite (descend_zero s v r) by (done || apply (fr_zero s ino v Hf) || congruence).
      symmetry. apply (node_below s ino slot [] r Hz).
    - rewrite decide_False by congruence. by rewrite nth_lookup, list_lookup_insert_ne, <- nth_lookup. }
  split; [done|].
  apply (linked_tree_wf s s ino _ (slot, []) v); try done.
  - split; [done|]. cbn. split; [lia|constructor].
  - cbn. rewrite length_insert. apply (tw_slots s ino Ht).
  - intros d. rewrite (fr_zero s ino v Hf). intros [= <-]. by apply Forall_replicate.
  - intros a d Ha Hi Hn. by apply (tw_bytes s ino Ht).
Qed.

(** Linking into an indirect block. *)
Lemma link_ptr s s' ino slot q i v d :
  alloc_wf s → tree_wf s ino → fresh s ino v → valid_addr s (slot, q ++ [i]) →
  node s ino (slot, q) ≠ 0 → node s ino (slot, q ++ [i]) = 0 →
  wrote s s' (node s ino (slot, q)) →
  block_data s' (node s ino (slot, q)) = Ok d → byte_list d →
  (∀ j, 0 ≤ j < ppb s → ptr_in s' (node s ino (slot, q)) j =
     if j =? i then v else ptr_in s (node s ino (slot, q)) j) →
  (∀ a, valid_addr s a → node s' ino a = linked_node s ino (slot, q ++ [i]) v a) ∧
  tree_wf s' ino.
Proof.
  intros Hwf Ht Hf Hv Hn Hz Hw Hd Hdb Hptr. pose proof (valid_prefix s slot q [i] Hv) as Hvq.
  set (b := node s ino (slot, q)) in *. pose proof (tw_good s ino Ht _ Hvq Hn) as Hgb.
  pose proof (gd_bitmap s b Hgb) as Hnob. pose proof (aw_geom s Hwf) as Hg.
  destruct (wrote_sizes s s' b Hw) as (_ & _ & Hbs & HP).
  assert (v ≠ b) as Hvb by (intros Heq; by apply (fr_out s ino v Hf (slot, q))).
  assert (block_data s' v = Ok (replicate (Z.to_nat (bsize s')) 0)) as Hzv.
  { rewrite (wr_frame _ _ _ Hw) by (done || apply (good_width s), fr_good with ino; done).
    rewrite Hbs. apply (fr_zero s ino v Hf). }
  assert (∀ a, valid_addr s a → node s' ino a = linked_node s ino (slot, q ++ [i]) v a) as Hnode.
  { intros [slot' r]. induction r as [|j r IH] using rev_ind; intros Ha.
    - unfold linked_node. rewrite decide_False; [done|]. intros [= _ Heq]. by destruct q.
    - pose proof (valid_prefix s slot' r [j] Ha) as Hr. specialize (IH Hr).
      assert (0 ≤ j < ppb s) as Hj.
      { destruct Ha as (_ & _ & Hfa). cbn in Hfa. apply Forall_app in Hfa as [_ Hi]. by inversion Hi. }
      unfold node at 1. cbn [fst snd]. rewrite descend_snoc. fold (node s' ino (slot', r)).
      change (descend s' (nth slot' (i_block ino) 0) r) with (node s' ino (slot', r)). rewrite IH.
      unfold linked_node. destruct (decide ((slot', r) =@{addr} (slot, q ++ [i]))) as [[= -> ->]|Hne1].
      + rewrite decide_False by (intros [= Heq]; apply (f_equal length) in Heq; rewrite !length_app in Heq; cbn in Heq; lia).
        rewrite (proj2 (Z.eqb_neq _ _)) by apply (fr_nonzero s ino v Hf).
        rewrite (zero_ptrs s' v j) by (done || by apply (same_shape_geom s s' (wr_shape _ _ _ Hw))).
        symmetry. by apply node_below.
      + assert (node s ino (slot', r ++ [j]) = if node s ino (slot', r) =? 0 then 0
          else ptr_in s (node s ino (slot', r)) j) as Hsn by (unfold node; cbn; apply descend_snoc).
        rewrite Hsn. destruct (Z.eqb_spec (node s ino (slot', r)) 0) as [H0|H0].
        { rewrite decide_False; [done|]. intros [= -> [-> ->]%app_inj_tail]. done. }
        destruct (decide ((slot', r) = (slot, q))) as [[= -> ->]|Hne2].
        * fold b. rewrite Hptr by done. destruct (Z.eqb_spec j i) as [->|Hji].
          -- by rewrite decide_True.
          -- rewrite decide_False; [done|]. intros [= [? ?]%app_inj_tail]. done.
        * rewrite decide_False by (intros [= -> [-> ->]%app_inj_tail]; done).
          unfold ptr_in, ptrs_of. rewrite HP, (wr_frame _ _ _ Hw); [done| |].
          -- by apply (good_width s), (tw_good s ino Ht).
          -- intros Heq. apply Hne2. by apply (tw_inj s ino Ht). }
  split; [done|]. apply (linked_tree_wf s s' ino ino (slot, q ++ [i]) v); try done.
  - apply (tw_slots s ino Ht).
  - by apply (wrote_good s s' b).
  - intros d'. rewrite Hzv. intros [= <-]. by apply Forall_replicate.
  - intros a d' Ha Hi Hna. destruct (decide (node s ino a = b)) as [->|Hne]; [by rewrite Hd; intros [= <-]|].
    rewrite (wr_frame _ _ _ Hw) by (done || by apply (good_width s), (tw_good s ino Ht)).
    by apply (tw_bytes s ino Ht).
Qed.

(** ** Growing the tree towards an address *)

Definition on_route (t a : addr) : Prop := fst a = fst t ∧ ∃ r, snd t = snd a ++ r.

(** Block 0, the encoding of a hole, is never handed out. *)
Definition zero_reserved (s : Ext2Fs D) : Prop := data_range s 0 → block_free s 0 = false.

(** [s'] and [ino'] extend the tree by newly allocated indirect blocks on the
    way to [t]; nothing else of the file changes. *)
Record grown (t : addr) (s : Ext2Fs D) (ino : Ext2Inode) (s' : Ext2Fs D) (ino' : Ext2Inode)
    : Prop := {
  gr_wf : alloc_wf s';
  gr_tree : tree_wf s' ino';
  gr_shape : same_shape s s';
  gr_groups : length (block_groups s') = length (block_groups s);
  gr_free b : data_range s b → block_free s' b = true → block_free s b = true;
  gr_keep a : valid_addr s a → node s ino a ≠ 0 → node s' ino' a = node s ino a;
  gr_new a : valid_addr s a → node s' ino' a ≠ node s ino a →
    on_route t a ∧ interior a ∧ ¬ good s (node s' ino' a);
  gr_good b : good s b → good s' b;
  gr_data b : good s b → (∀ a, valid_addr s a → interior a → node s ino a ≠ b) →
    block_data s' b = block_data s b;
  gr_inode : ∃ ptrs, ino' = set_size_blocks (i_size ino) (i_blocks ino) ptrs (i_dir_acl ino) ino;
  gr_other : mount_id s' = mount_id s ∧ clock s' = clock s;
}.

Lemma grown_ppb t s ino s' ino' : grown t s ino s' ino' → ppb s' = ppb s.
Proof. intros Hg. unfold ppb. by rewrite (same_shape_bsize _ _ (gr_shape _ _ _ _ _ Hg)). Qed.

Lemma set_size_blocks_same ino :
  ino = set_size_blocks (i_size ino) (i_blocks ino) (i_block ino) (i_dir_acl ino) ino.
Proof. by destruct ino. Qed.

Lemma grown_refl t s ino : alloc_wf s → tree_wf s ino → grown t s ino s ino.
Proof.
  intros Hwf Ht. split; try done. exists (i_block ino). apply set_size_blocks_same.
Qed.

Lemma grown_trans t s1 i1 s2 i2 s3 i3 :
  grown t s1 i1 s2 i2 → grown t s2 i2 s3 i3 → grown t s1 i1 s3 i3.
Proof.
  intros G1 G2. pose proof (grown_ppb _ _ _ _ _ G1) as HP.
  assert (∀ a, valid_addr s1 a ↔ valid_addr s2 a) as Hv by (intros a; by rewrite (valid_addr_ppb s1 s2)).
  assert (∀ b, data_range s1 b ↔ data_range s2 b) as Hr.
  { intros b. unfold data_range, first_block, bpg. rewrite (gr_groups _ _ _ _ _ G1).
    by destruct (gr_shape _ _ _ _ _ G1) as (-> & _). }
  split.
  - apply (gr_wf _ _ _ _ _ G2).
  - apply (gr_tree _ _ _ _ _ G2).
  - eapply same_shape_trans; [apply (gr_shape _ _ _ _ _ G1)|apply (gr_shape _ _ _ _ _ G2)].
  - by rewrite (gr_groups _ _ _ _ _ G2), (gr_groups _ _ _ _ _ G1).
  - intros b Hb Hf. apply (gr_free _ _ _ _ _ G1 b Hb), (gr_free _ _ _ _ _ G2 b); [by apply Hr|done].
  - intros a Ha Hn. pose proof (gr_keep _ _ _ _ _ G1 a Ha Hn) as Hk.
    rewrite (gr_keep _ _ _ _ _ G2 a) by (by apply Hv || congruence). done.
  - intros a Ha Hn. destruct (decide (node s2 i2 a = node s1 i1 a)) as [Heq|Hne].
    + destruct (gr_new _ _ _ _ _ G2 a) as (H1 & H2 & H3); [by apply Hv|congruence|].
      split; [done|]. split; [done|]. intros Hg. by apply H3, (gr_good _ _ _ _ _ G1).
    + destruct (gr_new _ _ _ _ _ G1 a Ha Hne) as (H1 & H2 & H3).
      split; [done|]. split; [done|]. rewrite (gr_keep _ _ _ _ _ G2 a) by
        (first [by apply Hv | intros H0; rewrite H0 in Hne; apply Hne; symmetry;
           destruct (decide (node s1 i1 a = 0)) as [|Hn0]; [done|];
           by rewrite <- (gr_keep _ _ _ _ _ G1 a Ha Hn0) in Hn0]). done.
  - intros b Hb. by apply (gr_good _ _ _ _ _ G2), (gr_good _ _ _ _ _ G1).
  - intros b Hb Hni. rewrite (gr_data _ _ _ _ _ G2).
    + by apply (gr_data _ _ _ _ _ G1).
    + by apply (gr_good _ _ _ _ _ G1).
    + intros a Ha Hi Heq. apply Hv in Ha.
      destruct (decide (node s2 i2 a = node s1 i1 a)) as [Heq'|Hne]; [by apply (Hni a Ha Hi); congruence|].
      destruct (gr_new _ _ _ _ _ G1 a Ha Hne) as (_ & _ & H3). by rewrite Heq in H3.
  - destruct (gr_inode _ _ _ _ _ G1) as [p1 ->], (gr_inode _ _ _ _ _ G2) as [p2 ->]. by exists p2.
  - destruct (gr_other _ _ _ _ _ G1), (gr_other _ _ _ _ _ G2). split; congruence.
Qed.

(** Allocating a block without linking it. *)
Lemma allocated_tree s s' ino v :
  alloc_wf s → tree_wf s ino → zero_reserved s → allocated s s' v →
  tree_wf s' ino ∧ fresh s' ino v ∧ zero_reserved s' ∧
  (∀ a, valid_addr s a → node s' ino a = node s ino a).
Proof.
  intros Hwf Ht Hz Ha.
  assert (ppb s' = ppb s) as HP by (unfold ppb; by rewrite (same_shape_bsize _ _ (al_shape _ _ _ Ha))).
  assert (∀ a, valid_addr s a → node s ino a ≠ 0 →
    good s' (node s ino a) ∧ block_data s' (node s ino a) = block_data s (node s ino a) ∧
    node s ino a ≠ v) as Hgn.
  { intros a Hv Hn. by apply (allocated_good s s' v Hwf Ha), (tw_good s ino Ht). }
  assert (∀ a, valid_addr s a → node s' ino a = node s ino a) as Hnode.
  { apply node_ext; [done|]. intros a Hv _ Hn. by apply Hgn. }
  assert (v ≠ 0) as Hv0.
  { intros ->. pose proof (Hz (al_range _ _ _ Ha)) as H0. by rewrite (al_free _ _ _ Ha) in H0. }
  split; [|split; [|split; [|done]]].
  - apply (tree_wf_ext s s' ino HP Ht); [intros a Hv Hn; by apply Hgn|intros a Hv _ Hn; by apply Hgn].
  - split; [by apply (allocated_fresh_good s)|done| |].
    + rewrite (same_shape_bsize _ _ (al_shape _ _ _ Ha)). apply (al_zero _ _ _ Ha).
    + intros a Hv Heq. rewrite (valid_addr_ppb s s') in Hv by done. rewrite Hnode in Heq by done.
      destruct (decide (node s ino a = 0)) as [H0|Hn]; [congruence|]. by apply (Hgn a Hv Hn).
  - intros Hr. rewrite (allocated_range s s' v) in Hr by done. rewrite (al_set _ _ _ Ha) by done.
    case_match; [done|]. by apply Hz.
Qed.
End map.
