(* ===== verification/Ext2Write.v ===== *)
(** * ext2: writing a file

    Builds on the tree of [Ext2Map]: what [set_block_num] and
    [write_file_range] do to the block map and to the bytes of a file, and
    that a range written is read back, with every other byte unchanged. *)

From S2P Require Import Prelude Bytes BlockDev Ext2Layout Ext2Core Ext2Blocks Ext2Alloc Ext2File Ext2Map.

Section write.
Context {D : Type} `{BlockDevice D, !BlockDeviceLaws D, !ReliableDevice D}.
Implicit Types (s : Ext2Fs D) (b v : u32).

(** ** Storing pointers *)

Lemma write_indirect_run s b ptrs :
  alloc_wf s → good s b → length ptrs = Z.to_nat (ppb s) → Forall (in_width 32) ptrs →
  ∃ s' d, write_indirect_block b (bsize s) ptrs s = Some (Ok tt, s') ∧ wrote s s' b ∧
    block_data s' b = Ok d ∧ byte_list d ∧ ptrs_of s' b = ptrs.
Proof.
  intros Hwf Hgd Hl Hw. pose proof (aw_geom s Hwf) as Hg. destruct (ppb_bounds s Hg) as (HP & H4 & _).
  set (d := pack (replicate (Z.to_nat (ppb s)) 4%nat) ptrs).
  assert (length d = Z.to_nat (bsize s)) as Hld by (unfold d; rewrite length_pack_ptrs by done; lia).
  destruct (write_block_wrote s b d Hwf Hgd Hld) as (s' & Hrun & Hwr & Hd).
  exists s', d. unfold write_indirect_block. rewrite (bind_ok _ _ _ _ _ (stack_slice_run s Hg)).
  fold (ppb s). rewrite Hl, Nat.min_id, inserts_all by (by rewrite length_replicate).
  split; [done|]. split; [done|]. split; [done|]. split; [apply pack_byte|].
  unfold ptrs_of. destruct (wrote_sizes s s' b Hwr) as (_ & _ & _ & ->). rewrite Hd.
  by apply unpack_pack_ptrs.
Qed.

Lemma set_ptr_run {E} s (ps : list u32) i v :
  0 ≤ i < Z.of_nat (length ps) → set_ptr (E:=E) ps i v s = Some (Ok (<[Z.to_nat i := v]> ps), s).
Proof. intros Hi. unfold set_ptr. rewrite bool_decide_true by lia. done. Qed.

Lemma nth_insert (ps : list Z) i j v :
  0 ≤ i < Z.of_nat (length ps) → 0 ≤ j →
  nth (Z.to_nat j) (<[Z.to_nat i := v]> ps) 0 = if j =? i then v else nth (Z.to_nat j) ps 0.
Proof.
  intros Hi Hj. rewrite !nth_lookup. destruct (Z.eqb_spec j i) as [->|Hne].
  - by rewrite list_lookup_insert_eq by lia.
  - by rewrite list_lookup_insert_ne by lia.
Qed.

Lemma store_ptr_run s ino slot q i v :
  alloc_wf s → tree_wf s ino → valid_addr s (slot, q ++ [i]) → node s ino (slot, q) ≠ 0 →
  in_width 32 v →
  ∃ s' d, store_ptr (node s ino (slot, q)) (bsize s) i v s = Some (Ok tt, s') ∧
    wrote s s' (node s ino (slot, q)) ∧ block_data s' (node s ino (slot, q)) = Ok d ∧
    byte_list d ∧
    ∀ j, 0 ≤ j < ppb s → ptr_in s' (node s ino (slot, q)) j =
      if j =? i then v else ptr_in s (node s ino (slot, q)) j.
Proof.
  intros Hwf Ht Hv Hn Hw. pose proof (valid_prefix s slot q [i] Hv) as Hvq.
  pose proof (tw_good s ino Ht _ Hvq Hn) as Hgd. set (b := node s ino (slot, q)) in *.
  destruct (read_indirect_run s b Hwf Hgd) as [Hr Hl].
  assert (0 ≤ i < ppb s) as Hi.
  { destruct Hv as (_ & _ & Hf). cbn in Hf. apply Forall_app in Hf as [_ Hi]. by inversion Hi. }
  assert (interior (slot, q)) as Hint.
  { destruct Hv as (_ & Hlen & _). cbn in Hlen. rewrite length_app in Hlen. unfold interior. cbn in *. lia. }
  pose proof (interior_ptrs_width s ino (slot, q) Hwf Ht Hvq Hint Hn) as Hpw. fold b in Hpw.
  destruct (write_indirect_run s b (<[Z.to_nat i := v]> (ptrs_of s b))) as (s' & d & Hrun & Hwr & Hd & Hdb & Hps);
    [done|done|by rewrite length_insert|by apply Forall_insert|].
  exists s', d. split; [|split; [done|split; [done|split; [done|]]]].
  - unfold store_ptr. rewrite (bind_ok _ _ _ _ _ Hr).
    by erewrite bind_ok by (apply set_ptr_run; lia).
  - intros j Hj. unfold ptr_in. rewrite Hps. apply nth_insert; lia.
Qed.

(** [v] is linked at the address [a0], nothing else changes. *)
Record linked (s : Ext2Fs D) (ino : Ext2Inode) (a0 : addr) (v : u32) (s' : Ext2Fs D)
    (ino' : Ext2Inode) : Prop := {
  lk_wf : alloc_wf s';
  lk_tree : tree_wf s' ino';
  lk_shape : same_shape s s';
  lk_groups : length (block_groups s') = length (block_groups s);
  lk_free b : block_free s' b = block_free s b;
  lk_good b : good s b → good s' b;
  lk_data b : good s b → (∀ a, valid_addr s a → interior a → node s ino a ≠ b) →
    block_data s' b = block_data s b;
  lk_node a : valid_addr s a → node s' ino' a = linked_node s ino a0 v a;
  lk_inode : ∃ ptrs, ino' = set_size_blocks (i_size ino) (i_blocks ino) ptrs (i_dir_acl ino) ino;
  lk_other : mount_id s' = mount_id s ∧ clock s' = clock s;
}.

Lemma linked_slot s ino slot v :
  alloc_wf s → tree_wf s ino → fresh s ino v → (slot < 15)%nat → node s ino (slot, []) = 0 →
  linked s ino (slot, []) v s (set_i_block slot v ino).
Proof.
  intros Hwf Ht Hf Hs Hn. destruct (link_slot s ino slot v (aw_geom s Hwf) Ht Hf Hs Hn) as [HA HB].
  split; try done. by exists (<[slot := v]> (i_block ino)).
Qed.

Lemma valid_interior s slot q i : valid_addr s (slot, q ++ [i]) → interior (slot, q).
Proof.
  intros (_ & Hl & _). cbn in Hl. rewrite length_app in Hl. unfold interior. cbn in *. lia.
Qed.

Lemma store_ptr_linked s ino slot q i v :
  alloc_wf s → tree_wf s ino → fresh s ino v → valid_addr s (slot, q ++ [i]) →
  node s ino (slot, q) ≠ 0 → node s ino (slot, q ++ [i]) = 0 →
  ∃ s', store_ptr (node s ino (slot, q)) (bsize s) i v s = Some (Ok tt, s') ∧
        linked s ino (slot, q ++ [i]) v s' ino.
Proof.
  intros Hwf Ht Hf Hv Hn H0. pose proof (valid_prefix s slot q [i] Hv) as Hvq.
  pose proof (tw_good s ino Ht _ Hvq Hn) as Hgd. pose proof (gd_bitmap s _ Hgd) as Hnob.
  destruct (store_ptr_run s ino slot q i v) as (s' & d & Hst & Hwr & Hd & Hdb & Hptr); try done.
  { apply (good_width s), (fr_good s ino v Hf). done. }
  destruct (link_ptr s s' ino slot q i v d) as [HA HB]; try done.
  exists s'. split; [done|]. split; try done.
  - by apply (wrote_alloc_wf s s' _ Hwf Hwr).
  - apply (wr_shape _ _ _ Hwr).
  - by rewrite (wr_groups _ _ _ Hwr).
  - by apply (wrote_free s s' _ Hwf Hwr).
  - by apply (wrote_good s s' _ Hwf Hwr).
  - intros b Hb Hni. apply (wr_frame _ _ _ Hwr); [by apply (good_width s)|].
    intros ->. by apply (Hni (slot, q)); [|eapply valid_interior|].
  - exists (i_block ino). apply set_size_blocks_same.
  - apply (wr_other _ _ _ Hwr).
Qed.

(** ** Allocating indirect blocks *)

(** No block can be allocated. *)
Definition disk_full (s : Ext2Fs D) : Prop := ∀ b, data_range s b → block_free s b = false.

Lemma allocated_ppb s s1 v : allocated s s1 v → ppb s1 = ppb s.
Proof. intros Ha. unfold ppb. by rewrite (same_shape_bsize _ _ (al_shape _ _ _ Ha)). Qed.

Lemma grown_link t s s1 ino s2 ino2 a0 v :
  alloc_wf s → tree_wf s ino → zero_reserved s → allocated s s1 v →
  valid_addr s a0 → interior a0 → on_route t a0 → node s ino a0 = 0 →
  linked s1 ino a0 v s2 ino2 →
  grown t s ino s2 ino2 ∧ v = node s2 ino2 a0 ∧ v ≠ 0.
Proof.
  intros Hwf Ht Hz Ha Hv0 Hint Hroute Hn0 Hlk. pose proof (allocated_ppb s s1 v Ha) as HP.
  destruct (allocated_tree s s1 ino v Hwf Ht Hz Ha) as (Ht1 & Hf1 & Hz1 & Hn1).
  assert (∀ a, valid_addr s a → node s2 ino2 a = if decide (a = a0) then v else node s ino a) as Hnode.
  { intros a Hva. rewrite (lk_node _ _ _ _ _ _ Hlk) by (by rewrite (valid_addr_ppb s s1)).
    unfold linked_node. case_decide; [done|]. by apply Hn1. }
  split; [|split; [by rewrite Hnode, decide_True|apply (fr_nonzero s1 ino v Hf1)]].
  split.
  - apply (lk_wf _ _ _ _ _ _ Hlk).
  - apply (lk_tree _ _ _ _ _ _ Hlk).
  - eapply same_shape_trans; [apply (al_shape _ _ _ Ha)|apply (lk_shape _ _ _ _ _ _ Hlk)].
  - by rewrite (lk_groups _ _ _ _ _ _ Hlk), (al_groups _ _ _ Ha).
  - intros b Hr. rewrite (lk_free _ _ _ _ _ _ Hlk), (al_set _ _ _ Ha) by done. by destruct (b =? v).
  - intros a Hva Hn. rewrite Hnode by done. case_decide; congruence.
  - intros a Hva Hne. rewrite Hnode in * by done. case_decide as Heq; [subst a|done].
    split; [done|]. split; [done|]. intros Hg. pose proof (gd_used s v Hg) as Hu.
    by rewrite (al_free _ _ _ Ha) in Hu.
  - intros b Hg. by apply (lk_good _ _ _ _ _ _ Hlk), (allocated_good s s1 v Hwf Ha).
  - intros b Hg Hni. destruct (allocated_good s s1 v Hwf Ha b Hg) as (Hg1 & Hd1 & _).
    rewrite (lk_data _ _ _ _ _ _ Hlk); [done|done|].
    intros a. rewrite (valid_addr_ppb s s1) by done. intros Hva. rewrite Hn1 by done. by apply Hni.
  - apply (lk_inode _ _ _ _ _ _ Hlk).
  - destruct (lk_other _ _ _ _ _ _ Hlk) as [-> ->]. apply (al_other _ _ _ Ha).
Qed.

Lemma inode_ptr_run t s ino slot :
  alloc_wf s → tree_wf s ino → zero_reserved s → (12 ≤ slot < 15)%nat → on_route t (slot, []) →
  ∃ r s', inode_ptr_or_allocate ino slot s = Some (r, s') ∧
    match r with
    | Ok (p, ino') => grown t s ino s' ino' ∧ p = node s' ino' (slot, []) ∧ p ≠ 0
    | Err e => e = IoError ∧ disk_full s'
    end.
Proof.
  intros Hwf Ht Hz Hs Hroute. unfold inode_ptr_or_allocate.
  rewrite (bind_ok _ _ _ _ _ (slot_run s ino slot Ht ltac:(lia))).
  destruct (Z.eqb_spec (node s ino (slot, [])) 0) as [H0|H0]; cycle 1.
  { eexists _, s. split; [done|]. cbn. split; [by apply grown_refl|done]. }
  destruct (allocate_block_run s Hwf) as [(v & s1 & Hrun & Ha)|[Hrun Hfull]]; cycle 1.
  { exists (Err IoError), s. split; [|done]. unfold or_err, map_err, mbind, M_bind. by rewrite Hrun. }
  destruct (allocated_tree s s1 ino v Hwf Ht Hz Ha) as (Ht1 & Hf1 & Hz1 & Hn1).
  assert (valid_addr s (slot, [])) as Hv by (split; [cbn; lia|split; [cbn; lia|constructor]]).
  exists (Ok (v, set_i_block slot v ino)), s1.
  split; [by rewrite (bind_ok _ _ _ _ _ (or_err_ok _ _ _ _ _ Hrun))|].
  apply (grown_link t s s1 ino s1 _ (slot, []) v); try done.
  - unfold interior, depth. cbn. lia.
  - apply linked_slot; try done; [apply (al_wf _ _ _ Ha)|lia].
Qed.

Lemma store_ptr_of s b bs ptrs i v :
  read_indirect_block b bs s = Some (Ok ptrs, s) →
  store_ptr b bs i v s = (blocks ← set_ptr ptrs i v; write_indirect_block b bs blocks) s.
Proof. intros Hr. unfold store_ptr. by rewrite (bind_ok _ _ _ _ _ Hr). Qed.

Lemma child_or_allocate_run t s ino slot q i :
  alloc_wf s → tree_wf s ino → zero_reserved s → valid_addr s (slot, q ++ [i]) →
  interior (slot, q ++ [i]) → on_route t (slot, q ++ [i]) → node s ino (slot, q) ≠ 0 →
  ∃ r s', child_or_allocate (node s ino (slot, q)) (bsize s) i s = Some (r, s') ∧
    match r with
    | Ok p => grown t s ino s' ino ∧ p = node s' ino (slot, q ++ [i]) ∧ p ≠ 0
    | Err e => e = IoError ∧ disk_full s'
    end.
Proof.
  intros Hwf Ht Hz Hv Hint Hroute Hn. unfold child_or_allocate.
  destruct (read_child s ino slot q i Hwf Ht Hv Hn) as (Hr & Hp & Hl & Hi).
  rewrite (bind_ok _ _ _ _ _ Hr), (bind_ok _ _ _ _ _ (Hp _)).
  destruct (Z.eqb_spec (node s ino (slot, q ++ [i])) 0) as [H0|H0]; cycle 1.
  { eexists _, s. split; [done|]. cbn. split; [by apply grown_refl|done]. }
  destruct (allocate_block_run s Hwf) as [(v & s1 & Hrun & Ha)|[Hrun Hfull]]; cycle 1.
  { exists (Err IoError), s. split; [|done]. unfold or_err, map_err, mbind, M_bind. by rewrite Hrun. }
  destruct (allocated_tree s s1 ino v Hwf Ht Hz Ha) as (Ht1 & Hf1 & Hz1 & Hn1).
  pose proof (al_wf _ _ _ Ha) as Hwf1. pose proof (valid_prefix s slot q [i] Hv) as Hvq.
  pose proof (allocated_ppb s s1 v Ha) as HP.
  destruct (allocated_good s s1 v Hwf Ha _ (tw_good s ino Ht _ Hvq Hn)) as (Hg1 & Hd1 & _).
  destruct (store_ptr_linked s1 ino slot q i v) as (s2 & Hst & Hlk);
    [done|done|done|by rewrite (valid_addr_ppb s s1)|by rewrite Hn1|by rewrite Hn1|].
  rewrite Hn1 in Hst by done.
  rewrite (store_ptr_of s1 _ _ (ptrs_of s (node s ino (slot, q)))) in Hst; cycle 1.
  { destruct (read_indirect_run s1 _ Hwf1 Hg1) as [-> _]. unfold ptrs_of. by rewrite Hd1, HP. }
  rewrite (same_shape_bsize _ _ (al_shape _ _ _ Ha)) in Hst.
  exists (Ok v), s2. split; [|by apply (grown_link t s s1 ino s2 ino (slot, q ++ [i]) v)].
  rewrite (bind_ok _ _ _ _ _ (or_err_ok _ _ _ _ _ Hrun)).
  pose proof (set_ptr_run (E:=BlockError) s1 (ptrs_of s (node s ino (slot, q))) i v) as Hset.
  specialize (Hset ltac:(lia)). rewrite (bind_ok _ _ _ _ _ Hset) in Hst.
  rewrite (bind_ok _ _ _ _ _ Hset).
  by rewrite (bind_ok _ _ _ _ _ Hst).
Qed.

(** What is fresh stays fresh while the tree grows. *)
Lemma fresh_grown t s ino s' ino' v : fresh s ino v → grown t s ino s' ino' → fresh s' ino' v.
Proof.
  intros [H1 H2 H3 H4] G. split; [by apply (gr_good _ _ _ _ _ G)|done|..].
  - rewrite (same_shape_bsize _ _ (gr_shape _ _ _ _ _ G)), <- H3.
    apply (gr_data _ _ _ _ _ G); [done|]. intros a Ha _. by apply H4.
  - intros a Ha Heq. rewrite (valid_addr_ppb s s') in Ha by (by eapply grown_ppb).
    destruct (decide (node s' ino' a = node s ino a)) as [He|Hne]; [by apply (H4 a Ha); congruence|].
    destruct (gr_new _ _ _ _ _ G a Ha Hne) as (_ & _ & Hb). by rewrite Heq in Hb.
Qed.

Lemma grown_range t s ino s' ino' b : grown t s ino s' ino' → data_range s' b ↔ data_range s b.
Proof.
  intros G. unfold data_range, first_block, bpg. rewrite (gr_groups _ _ _ _ _ G).
  by destruct (gr_shape _ _ _ _ _ G) as (-> & _).
Qed.

Lemma zero_reserved_grown t s ino s' ino' :
  zero_reserved s → grown t s ino s' ino' → zero_reserved s'.
Proof.
  intros Hz G Hr. rewrite (grown_range _ _ _ _ _ _ G) in Hr.
  destruct (block_free s' 0) eqn:Hf; [|done].
  rewrite <- (Hz Hr). symmetry. by apply (gr_free _ _ _ _ _ G).
Qed.

(** ** [set_block_num] *)

Lemma grown_leaf t s ino s' ino' a :
  grown t s ino s' ino' → valid_addr s a → ¬ interior a → node s' ino' a = node s ino a.
Proof.
  intros G Hv Hni. destruct (decide (node s' ino' a = node s ino a)) as [|Hne]; [done|].
  by destruct (gr_new _ _ _ _ _ G a Hv Hne) as (_ & Hi & _).
Qed.

(** The last step: store the pointer in the indirect block reached. *)
Lemma store_leaf s ino s1 ino1 slot q i v :
  tree_wf s ino → fresh s ino v → valid_addr s (slot, q ++ [i]) → ¬ interior (slot, q ++ [i]) →
  node s ino (slot, q ++ [i]) = 0 →
  grown (slot, q ++ [i]) s ino s1 ino1 → node s1 ino1 (slot, q) ≠ 0 →
  ∃ s', (store_ptr (node s1 ino1 (slot, q)) (bsize s) i v;; mret ino1) s1 = Some (Ok ino1, s') ∧
        linked s1 ino1 (slot, q ++ [i]) v s' ino1.
Proof.
  intros Ht Hf Hv Hni H0 G Hn. pose proof (grown_ppb _ _ _ _ _ G) as HP.
  destruct (store_ptr_linked s1 ino1 slot q i v) as (s' & Hst & Hlk); [apply (gr_wf _ _ _ _ _ G)|
    apply (gr_tree _ _ _ _ _ G)|by eapply fresh_grown|by rewrite (valid_addr_ppb s s1)|done| |].
  { by rewrite (grown_leaf _ _ _ _ _ _ G Hv Hni). }
  rewrite (same_shape_bsize _ _ (gr_shape _ _ _ _ _ G)) in Hst.
  exists s'. split; [|done]. by rewrite (bind_ok _ _ _ _ _ Hst).
Qed.

(** One more level on the way. *)
Lemma grow_child t s ino s1 ino1 slot q i :
  zero_reserved s → valid_addr s (slot, q ++ [i]) → interior (slot, q ++ [i]) →
  on_route t (slot, q ++ [i]) → grown t s ino s1 ino1 → node s1 ino1 (slot, q) ≠ 0 →
  ∃ r s', child_or_allocate (node s1 ino1 (slot, q)) (bsize s) i s1 = Some (r, s') ∧
    match r with
    | Ok p => grown t s ino s' ino1 ∧ p = node s' ino1 (slot, q ++ [i]) ∧ p ≠ 0
    | Err e => e = IoError ∧ disk_full s'
    end.
Proof.
  intros Hz Hv Hint Hr G Hn. pose proof (grown_ppb _ _ _ _ _ G) as HP.
  destruct (child_or_allocate_run t s1 ino1 slot q i) as (r & s' & Hrun & Hres);
    [apply (gr_wf _ _ _ _ _ G)|apply (gr_tree _ _ _ _ _ G)|by eapply zero_reserved_grown|
     by rewrite (valid_addr_ppb s s1)|done|done|done|].
  rewrite (same_shape_bsize _ _ (gr_shape _ _ _ _ _ G)) in Hrun.
  exists r, s'. split; [done|]. destruct r as [p|e]; [|done].
  destruct Hres as (G' & ? & ?). split; [by eapply grown_trans|done].
Qed.

Definition placed (s : Ext2Fs D) (ino : Ext2Inode) (L : Z) (v : u32)
    (r : result Ext2Inode BlockError) (s' : Ext2Fs D) : Prop :=
  match r with
  | Ok ino' => ∃ s1 ino1, grown (route s L) s ino s1 ino1 ∧ linked s1 ino1 (route s L) v s' ino'
  | Err e => e = IoError ∧ disk_full s'
  end.

Lemma bind_err_run {E A B} (m : M D E A) (k : A → M D E B) s e s' :
  m s = Some (Err e, s') → (m ≫= k) s = Some (Err e, s').
Proof. intros Hm. unfold mbind, M_bind. by rewrite Hm. Qed.

Section set_block.
Context (s : Ext2Fs D) (ino : Ext2Inode) (L v : Z).
Context (Hwf : alloc_wf s) (Ht : tree_wf s ino) (Hz : zero_reserved s) (Hf : fresh s ino v).
Context (HL : 0 ≤ L < max_blocks s) (Hhole : file_block s ino L = 0).

Lemma place_single i :
  route s L = (12%nat, [i]) →
  ∃ r s', ('(single, inode) ← inode_ptr_or_allocate ino 12;
           store_ptr single (bsize s) i v;; mret inode) s = Some (r, s') ∧ placed s ino L v r s'.
Proof using Type*.
  intros Hr. pose proof (aw_geom s Hwf) as Hg. unfold file_block in Hhole.
  destruct (route_valid s L Hg HL) as [Hv _]. unfold placed. rewrite Hr in *.
  destruct (inode_ptr_run (12%nat, [i]) s ino 12) as (r & s1 & Hrun & Hres);
    [done|done|done|lia|by split; [|exists [i]]|].
  destruct r as [[p ino1]|e]; [|by exists (Err e), s1; rewrite (bind_err_run _ _ _ _ _ Hrun)].
  destruct Hres as (G & -> & Hp). rewrite (bind_ok _ _ _ _ _ Hrun).
  destruct (store_leaf s ino s1 ino1 12 [] i v) as (s' & Hst & Hlk); try done.
  { unfold interior. cbn. lia. }
  exists (Ok ino1), s'. split; [done|]. by exists s1, ino1.
Qed.

Lemma place_double i j :
  route s L = (13%nat, [i; j]) →
  ∃ r s', ('(double, inode) ← inode_ptr_or_allocate ino 13;
           second ← child_or_allocate double (bsize s) i;
           store_ptr second (bsize s) j v;; mret inode) s = Some (r, s') ∧ placed s ino L v r s'.
Proof using Type*.
  intros Hr. pose proof (aw_geom s Hwf) as Hg. unfold file_block in Hhole.
  destruct (route_valid s L Hg HL) as [Hv _]. unfold placed. rewrite Hr in *.
  destruct (inode_ptr_run (13%nat, [i; j]) s ino 13) as (r & s1 & Hrun & Hres);
    [done|done|done|lia|by split; [|exists [i; j]]|].
  destruct r as [[p ino1]|e]; [|by exists (Err e), s1; rewrite (bind_err_run _ _ _ _ _ Hrun)].
  destruct Hres as (G & -> & Hp). rewrite (bind_ok _ _ _ _ _ Hrun).
  destruct (grow_child (13%nat, [i; j]) s ino s1 ino1 13 [] i) as (r & s2 & Hrun2 & Hres);
    [done|apply (valid_prefix s 13 [i] [j] Hv)|unfold interior; cbn; lia|by split; [|exists [j]]|done|done|].
  destruct r as [p|e]; [|by exists (Err e), s2; rewrite (bind_err_run _ _ _ _ _ Hrun2)].
  destruct Hres as (G2 & -> & Hp2). rewrite (bind_ok _ _ _ _ _ Hrun2).
  destruct (store_leaf s ino s2 ino1 13 [i] j v) as (s' & Hst & Hlk); try done.
  { unfold interior. cbn. lia. }
  exists (Ok ino1), s'. split; [done|]. by exists s2, ino1.
Qed.

Lemma place_triple i j k :
  route s L = (14%nat, [i; j; k]) →
  ∃ r s', ('(triple, inode) ← inode_ptr_or_allocate ino 14;
           second ← child_or_allocate triple (bsize s) i;
           third ← child_or_allocate second (bsize s) j;
           store_ptr third (bsize s) k v;; mret inode) s = Some (r, s') ∧ placed s ino L v r s'.
Proof using Type*.
  intros Hr. pose proof (aw_geom s Hwf) as Hg. unfold file_block in Hhole.
  destruct (route_valid s L Hg HL) as [Hv _]. unfold placed. rewrite Hr in *.
  destruct (inode_ptr_run (14%nat, [i; j; k]) s ino 14) as (r & s1 & Hrun & Hres);
    [done|done|done|lia|by split; [|exists [i; j; k]]|].
  destruct r as [[p ino1]|e]; [|by exists (Err e), s1; rewrite (bind_err_run _ _ _ _ _ Hrun)].
  destruct Hres as (G & -> & Hp). rewrite (bind_ok _ _ _ _ _ Hrun).
  destruct (grow_child (14%nat, [i; j; k]) s ino s1 ino1 14 [] i) as (r & s2 & Hrun2 & Hres);
    [done|apply (valid_prefix s 14 [i] [j; k] Hv)|unfold interior; cbn; lia|by split; [|exists [j; k]]|done|done|].
  destruct r as [p|e]; [|by exists (Err e), s2; rewrite (bind_err_run _ _ _ _ _ Hrun2)].
  destruct Hres as (G2 & -> & Hp2). rewrite (bind_ok _ _ _ _ _ Hrun2).
  destruct (grow_child (14%nat, [i; j; k]) s ino s2 ino1 14 [i] j) as (r & s3 & Hrun3 & Hres);
    [done|apply (valid_prefix s 14 [i; j] [k] Hv)|unfold interior; cbn; lia|by split; [|exists [k]]|done|done|].
  destruct r as [p|e]; [|by exists (Err e), s3; rewrite (bind_err_run _ _ _ _ _ Hrun3)].
  destruct Hres as (G3 & -> & Hp3). rewrite (bind_ok _ _ _ _ _ Hrun3).
  destruct (store_leaf s ino s3 ino1 14 [i; j] k v) as (s' & Hst & Hlk); try done.
  { unfold interior. cbn. lia. }
  exists (Ok ino1), s'. split; [done|]. by exists s3, ino1.
Qed.

Lemma set_block_num_run :
  ∃ r s', set_block_num ino L v s = Some (r, s') ∧ placed s ino L v r s'.
Proof using Type*.
  pose proof (aw_geom s Hwf) as Hg. destruct (ppb_bounds s Hg) as (HP & H4 & HwP).
  pose proof place_single as PS. pose proof place_double as PD. pose proof place_triple as PT.
  pose proof HL as HL'. unfold max_blocks in HL'.
  unfold set_block_num. mstep. fold (bsize s). fold (ppb s). rewrite HwP.
  unfold DIRECT_BLOCKS, SINGLE_INDIRECT, DOUBLE_INDIRECT, TRIPLE_INDIRECT.
  assert (route s L = route s L) as Hr by done. unfold route at 2 in Hr. set (P := ppb s) in *.
  destruct (Z.ltb_spec L 12).
  { exists (Ok (set_i_block (Z.to_nat L) v ino)), s. split; [done|]. exists s, ino. rewrite Hr.
    split; [by apply grown_refl|]. unfold file_block in Hhole. rewrite Hr in Hhole.
    apply linked_slot; (done || lia). }
  rewrite (wrap_small 32 (12 + P)) by (unfold in_width; lia).
  rewrite (wrap_small 32 (P * P)) by (unfold in_width; nia).
  destruct (Z.ltb_spec L (12 + P)); [by apply PS|].
  rewrite (wrap_small 32 (12 + P + P * P)) by (unfold in_width; nia).
  destruct (Z.ltb_spec L (12 + P + P * P)).
  { rewrite (wrap_small 32 (L - 12 - P)) by (unfold in_width; nia).
    rewrite (proj2 (Z.eqb_neq P 0)) by lia. by apply PD. }
  rewrite (wrap_small 32 (L - 12 - P - P * P)) by (unfold in_width; nia).
  rewrite (proj2 (Z.eqb_neq (P * P) 0)) by nia. by apply PT.
Qed.
End set_block.

(** ** What writing the logical blocks of [R] may change *)

Record advanced (R : Z → Prop) (s : Ext2Fs D) (ino : Ext2Inode) (s' : Ext2Fs D)
    (ino' : Ext2Inode) : Prop := {
  ad_wf : alloc_wf s';
  ad_tree : tree_wf s' ino';
  ad_zero : zero_reserved s';
  ad_shape : same_shape s s';
  ad_groups : length (block_groups s') = length (block_groups s);
  ad_free b : data_range s b → block_free s' b = true → block_free s b = true;
  ad_keep a : valid_addr s a → node s ino a ≠ 0 → node s' ino' a = node s ino a;
  ad_new a : valid_addr s a → node s' ino' a ≠ node s ino a → ¬ good s (node s' ino' a);
  ad_block L : 0 ≤ L < max_blocks s → ¬ R L → file_block s' ino' L = file_block s ino L;
  ad_good b : good s b → good s' b;
  ad_data b : good s b → (∀ a, valid_addr s a → interior a → node s ino a ≠ b) →
    (∀ L, 0 ≤ L < max_blocks s → R L → file_block s ino L ≠ b) →
    block_data s' b = block_data s b;
  ad_inode : ∃ blocks ptrs, ino' = set_size_blocks (i_size ino) blocks ptrs (i_dir_acl ino) ino;
  ad_mount : mount_id s' = mount_id s;
}.

Lemma advanced_ppb R s ino s' ino' : advanced R s ino s' ino' → ppb s' = ppb s.
Proof. intros A. unfold ppb. by rewrite (same_shape_bsize _ _ (ad_shape _ _ _ _ _ A)). Qed.

Lemma max_blocks_ppb s s' : ppb s' = ppb s → max_blocks s' = max_blocks s.
Proof. intros HP. unfold max_blocks. by rewrite HP. Qed.

Lemma route_ppb s s' L : ppb s' = ppb s → route s' L = route s L.
Proof. intros HP. unfold route. by rewrite HP. Qed.

Lemma advanced_refl R s ino :
  alloc_wf s → tree_wf s ino → zero_reserved s → advanced R s ino s ino.
Proof.
  intros Hwf Ht Hz. split; try done. exists (i_blocks ino), (i_block ino). apply set_size_blocks_same.
Qed.

Lemma advanced_weaken (R R' : Z → Prop) s ino s' ino' :
  (∀ L, R L → R' L) → advanced R s ino s' ino' → advanced R' s ino s' ino'.
Proof.
  intros HR []. split; try done; intros; first [eauto | apply ad_data0; naive_solver].
Qed.

Lemma advanced_trans R s1 i1 s2 i2 s3 i3 :
  advanced R s1 i1 s2 i2 → advanced R s2 i2 s3 i3 → advanced R s1 i1 s3 i3.
Proof.
  intros A1 A2. pose proof (advanced_ppb _ _ _ _ _ A1) as HP.
  assert (∀ a, valid_addr s1 a → valid_addr s2 a) as Hv by (intros a; by rewrite (valid_addr_ppb s1 s2)).
  assert (∀ b, data_range s1 b → data_range s2 b) as Hr.
  { intros b. unfold data_range, first_block, bpg. rewrite (ad_groups _ _ _ _ _ A1).
    by destruct (ad_shape _ _ _ _ _ A1) as (-> & _). }
  assert (∀ a b, valid_addr s1 a → good s1 b → node s2 i2 a = b → node s1 i1 a = b) as Hback.
  { intros a b Ha Hb Heq. destruct (decide (node s2 i2 a = node s1 i1 a)) as [|Hne]; [congruence|].
    destruct (ad_new _ _ _ _ _ A1 a Ha Hne). by rewrite Heq. }
  split.
  - apply (ad_wf _ _ _ _ _ A2).
  - apply (ad_tree _ _ _ _ _ A2).
  - apply (ad_zero _ _ _ _ _ A2).
  - eapply same_shape_trans; [apply (ad_shape _ _ _ _ _ A1)|apply (ad_shape _ _ _ _ _ A2)].
  - by rewrite (ad_groups _ _ _ _ _ A2), (ad_groups _ _ _ _ _ A1).
  - intros b Hb Hf. apply (ad_free _ _ _ _ _ A1 b Hb), (ad_free _ _ _ _ _ A2 b); auto.
  - intros a Ha Hn. pose proof (ad_keep _ _ _ _ _ A1 a Ha Hn) as Hk.
    rewrite (ad_keep _ _ _ _ _ A2 a) by (auto || congruence). done.
  - intros a Ha Hne Hg. pose proof (Hback a _ Ha Hg) as Hb.
    destruct (decide (node s3 i3 a = node s2 i2 a)) as [Heq|Hne']; [by apply Hne; rewrite Hb|].
    by apply (ad_new _ _ _ _ _ A2 a (Hv a Ha) Hne'), (ad_good _ _ _ _ _ A1).
  - intros L HL HR. rewrite (ad_block _ _ _ _ _ A2) by (rewrite ?(max_blocks_ppb s1) by done; done).
    by apply (ad_block _ _ _ _ _ A1).
  - intros b Hb. by apply (ad_good _ _ _ _ _ A2), (ad_good _ _ _ _ _ A1).
  - intros b Hb Hni HnR. rewrite (ad_data _ _ _ _ _ A2).
    + by apply (ad_data _ _ _ _ _ A1).
    + by apply (ad_good _ _ _ _ _ A1).
    + intros a Ha Hi Heq. rewrite (valid_addr_ppb s1 s2) in Ha by done. by apply (Hni a Ha Hi), Hback.
    + intros L HL HR Heq. rewrite (max_blocks_ppb s1) in HL by done. apply (HnR L HL HR).
      unfold file_block in *. rewrite (route_ppb s1) in Heq by done. apply Hback; [|done|done].
      apply (route_valid s1 L); [|done]. apply (same_shape_geom s2 s1 (same_shape_sym _ _ (ad_shape _ _ _ _ _ A1))).
      apply (aw_geom _ (ad_wf _ _ _ _ _ A1)).
  - destruct (ad_inode _ _ _ _ _ A1) as (b1 & p1 & ->), (ad_inode _ _ _ _ _ A2) as (b2 & p2 & ->).
    by exists b2, p2.
  - by rewrite (ad_mount _ _ _ _ _ A2), (ad_mount _ _ _ _ _ A1).
Qed.

(** ** The contents of a file *)

Definition blk (s : Ext2Fs D) (ino : Ext2Inode) (L : Z) : list u8 :=
  if file_block s ino L =? 0 then replicate (Z.to_nat (bsize s)) 0
  else match block_data s (file_block s ino L) with Ok d => d | Err _ => [] end.

Lemma leaf_valid s L :
  geom s → 0 ≤ L < max_blocks s → valid_addr s (route s L) ∧ ¬ interior (route s L).
Proof.
  intros Hg HL. destruct (route_valid s L Hg HL) as [Hv Hl]. split; [done|]. unfold interior. lia.
Qed.

Lemma file_block_good s ino L :
  alloc_wf s → tree_wf s ino → 0 ≤ L < max_blocks s → file_block s ino L ≠ 0 →
  good s (file_block s ino L).
Proof.
  intros Hwf Ht HL Hn. by apply (tw_good s ino Ht), Hn; apply leaf_valid; [apply aw_geom|].
Qed.

Lemma file_block_not_interior s ino L a :
  alloc_wf s → tree_wf s ino → 0 ≤ L < max_blocks s → file_block s ino L ≠ 0 →
  valid_addr s a → interior a → node s ino a ≠ file_block s ino L.
Proof.
  intros Hwf Ht HL Hn Ha Hi Heq. destruct (leaf_valid s L (aw_geom s Hwf) HL) as [Hv Hl].
  assert (a = route s L) as ->; [|done].
  apply (tw_inj s ino Ht); [done|done| |done]. unfold file_block in *. congruence.
Qed.

Lemma file_block_inj s ino L L' :
  alloc_wf s → tree_wf s ino → 0 ≤ L < max_blocks s → 0 ≤ L' < max_blocks s →
  file_block s ino L ≠ 0 → file_block s ino L = file_block s ino L' → L = L'.
Proof.
  intros Hwf Ht HL HL' Hn Heq. pose proof (aw_geom s Hwf) as Hg.
  apply (route_inj s); [done|done|done|]. apply (tw_inj s ino Ht); [|  |done|done]; by apply leaf_valid.
Qed.

Lemma blk_length s ino L :
  alloc_wf s → tree_wf s ino → 0 ≤ L < max_blocks s → length (blk s ino L) = Z.to_nat (bsize s).
Proof.
  intros Hwf Ht HL. unfold blk. destruct (Z.eqb_spec (file_block s ino L) 0); [apply length_replicate|].
  destruct (good_read s _ Hwf (file_block_good s ino L Hwf Ht HL n)) as [d Hd]. rewrite Hd.
  by apply (block_data_length s (file_block s ino L) d (aw_geom s Hwf)).
Qed.

Lemma blk_advanced R s ino s' ino' L :
  alloc_wf s → tree_wf s ino → advanced R s ino s' ino' → 0 ≤ L < max_blocks s → ¬ R L →
  blk s' ino' L = blk s ino L.
Proof.
  intros Hwf Ht A HL HR. unfold blk. rewrite (ad_block _ _ _ _ _ A) by done.
  rewrite (same_shape_bsize _ _ (ad_shape _ _ _ _ _ A)).
  destruct (Z.eqb_spec (file_block s ino L) 0) as [|Hn]; [done|].
  rewrite (ad_data _ _ _ _ _ A); [done|by apply file_block_good| |].
  - intros a Ha Hi. by apply file_block_not_interior.
  - intros L' HL' HR' Heq. by rewrite (file_block_inj s ino L L' Hwf Ht HL HL' Hn (eq_sym Heq)) in HR.
Qed.

(** ** Finding or allocating the block to write *)

Lemma tree_wf_iblock s ino ino' : i_block ino' = i_block ino → tree_wf s ino → tree_wf s ino'.
Proof.
  intros Hb [H1 H2 H3 H4]. assert (∀ a, node s ino' a = node s ino a) as Hn by (intros a; unfold node; by rewrite Hb).
  split; [by rewrite Hb|..].
  - intros a. rewrite Hn. apply H2.
  - intros a a'. rewrite !Hn. apply H3.
  - intros a d. rewrite !Hn. apply H4.
Qed.

Lemma advanced_allocated s ino L v s1 s2 ino2 s3 ino3 blocks :
  alloc_wf s → tree_wf s ino → zero_reserved s → 0 ≤ L < max_blocks s → file_block s ino L = 0 →
  allocated s s1 v → grown (route s L) s1 ino s2 ino2 → linked s2 ino2 (route s L) v s3 ino3 →
  advanced (eq L) s ino s3 (set_i_blocks blocks ino3).
Proof.
  intros Hwf Ht Hz HL Hhole Ha G Hlk. pose proof (aw_geom s Hwf) as Hg.
  destruct (allocated_tree s s1 ino v Hwf Ht Hz Ha) as (Ht1 & Hf1 & Hz1 & Hn1).
  pose proof (allocated_ppb s s1 v Ha) as HP1. pose proof (grown_ppb _ _ _ _ _ G) as HP2.
  assert (∀ a, valid_addr s a → valid_addr s1 a ∧ valid_addr s2 a) as Hv.
  { intros a. rewrite (valid_addr_ppb s s1), (valid_addr_ppb s s2) by congruence. done. }
  assert (∀ a, valid_addr s a → node s3 (set_i_blocks blocks ino3) a =
    if decide (a = route s L) then v else node s2 ino2 a) as Hnode.
  { intros a Hva. change (node s3 (set_i_blocks blocks ino3) a) with (node s3 ino3 a).
    by rewrite (lk_node _ _ _ _ _ _ Hlk) by (by apply Hv). }
  assert (∀ b, data_range s b → block_free s3 b = true → block_free s b = true) as Hfree.
  { intros b Hb. rewrite (lk_free _ _ _ _ _ _ Hlk). intros Hf2.
    apply (gr_free _ _ _ _ _ G) in Hf2; [|by rewrite (allocated_range s s1 v)].
    rewrite (al_set _ _ _ Ha) in Hf2 by done. by destruct (b =? v). }
  assert (data_range s3 0 → data_range s 0) as Hr0.
  { rewrite <- (allocated_range s s1 v Ha), <- (grown_range _ _ _ _ _ _ G).
    unfold data_range, first_block, bpg. rewrite (lk_groups _ _ _ _ _ _ Hlk).
    by destruct (lk_shape _ _ _ _ _ _ Hlk) as (-> & _). }
  split.
  - apply (lk_wf _ _ _ _ _ _ Hlk).
  - eapply tree_wf_iblock, (lk_tree _ _ _ _ _ _ Hlk). done.
  - intros Hr%Hr0. destruct (block_free s3 0) eqn:Hf0; [|done]. rewrite <- (Hz Hr). symmetry. by apply Hfree.
  - eapply same_shape_trans; [apply (al_shape _ _ _ Ha)|].
    eapply same_shape_trans; [apply (gr_shape _ _ _ _ _ G)|apply (lk_shape _ _ _ _ _ _ Hlk)].
  - by rewrite (lk_groups _ _ _ _ _ _ Hlk), (gr_groups _ _ _ _ _ G), (al_groups _ _ _ Ha).
  - done.
  - intros a Hva Hn. rewrite Hnode by done. case_decide as He; [by subst a|].
    rewrite <- Hn1 in Hn |- * by done. apply (gr_keep _ _ _ _ _ G); [by apply Hv|done].
  - intros a Hva. rewrite Hnode by done. case_decide as He; intros Hne Hgd.
    + apply (gd_used s v) in Hgd. by rewrite (al_free _ _ _ Ha) in Hgd.
    + rewrite <- Hn1 in Hne by done. apply (gr_new _ _ _ _ _ G a) in Hne as (_ & _ & Hng); [|by apply Hv].
      by apply Hng, (allocated_good s s1 v Hwf Ha).
  - intros L' HL' Hne. unfold file_block. rewrite (route_ppb s s3) by
      (rewrite <- HP1, <- HP2; unfold ppb; by rewrite (same_shape_bsize _ _ (lk_shape _ _ _ _ _ _ Hlk))).
    destruct (leaf_valid s L' Hg HL') as [Hv' Hl']. rewrite Hnode by done.
    rewrite decide_False by (intros He; by apply Hne, (route_inj s)).
    rewrite (grown_leaf _ _ _ _ _ _ G) by (done || by apply Hv). by apply Hn1.
  - intros b Hb. apply (lk_good _ _ _ _ _ _ Hlk), (gr_good _ _ _ _ _ G).
    by apply (allocated_good s s1 v Hwf Ha).
  - intros b Hb Hni _. destruct (allocated_good s s1 v Hwf Ha b Hb) as (Hb1 & Hd1 & _).
    assert (∀ a, valid_addr s1 a → interior a → node s1 ino a ≠ b) as Hni1.
    { intros a. rewrite (valid_addr_ppb s s1) by done. intros Hva. rewrite Hn1 by done. by apply Hni. }
    rewrite (lk_data _ _ _ _ _ _ Hlk), (gr_data _ _ _ _ _ G), Hd1; [done|done|done|by apply (gr_good _ _ _ _ _ G)|].
    intros a Hva Hi Heq. rewrite (valid_addr_ppb s1 s2) in Hva by done.
    destruct (decide (node s2 ino2 a = node s1 ino a)) as [He|Hne]; [by apply (Hni1 a Hva Hi); congruence|].
    destruct (gr_new _ _ _ _ _ G a Hva Hne) as (_ & _ & Hng). by rewrite Heq in Hng.
  - destruct (lk_inode _ _ _ _ _ _ Hlk) as [p2 ->], (gr_inode _ _ _ _ _ G) as [p1 ->].
    by exists blocks, p2.
  - destruct (lk_other _ _ _ _ _ _ Hlk) as [-> _], (gr_other _ _ _ _ _ G) as [-> _]. apply (al_other _ _ _ Ha).
Qed.

Definition write_failed (s : Ext2Fs D) (e : BlockError) : Prop := e = IoError ∧ disk_full s.

Lemma physical_or_allocate_run s ino L :
  alloc_wf s → tree_wf s ino → zero_reserved s → 0 ≤ L < max_blocks s →
  ∃ r s', physical_or_allocate (bsize s) ino L s = Some (r, s') ∧
    match r with
    | Ok (b, ino') => advanced (eq L) s ino s' ino' ∧ b = file_block s' ino' L ∧ b ≠ 0 ∧
        blk s' ino' L = blk s ino L
    | Err e => write_failed s' e
    end.
Proof.
  intros Hwf Ht Hz HL. unfold physical_or_allocate.
  rewrite (bind_ok _ _ _ _ _ (get_block_num_run s ino L Hwf Ht HL)). unfold some_block.
  destruct (Z.eqb_spec (file_block s ino L) 0) as [H0|H0]; cycle 1.
  { eexists _, s. split; [done|]. cbn. split; [by apply advanced_refl|done]. }
  destruct (allocate_block_run s Hwf) as [(v & s1 & Hrun & Ha)|[Hrun Hfull]]; cycle 1.
  { exists (Err IoError), s. split; [|done]. unfold or_err, map_err, mbind, M_bind. by rewrite Hrun. }
  destruct (allocated_tree s s1 ino v Hwf Ht Hz Ha) as (Ht1 & Hf1 & Hz1 & Hn1).
  pose proof (allocated_ppb s s1 v Ha) as HP. destruct (leaf_valid s L (aw_geom s Hwf) HL) as [Hv Hleaf].
  rewrite (bind_ok _ _ _ _ _ (or_err_ok _ _ _ _ _ Hrun)).
  destruct (set_block_num_run s1 ino L v) as (r & s3 & Hset & Hpl);
    [apply (al_wf _ _ _ Ha)|done|done|done|by rewrite (max_blocks_ppb s)|
     by unfold file_block; rewrite (route_ppb s), Hn1|].
  destruct r as [ino3|e]; [|by exists (Err e), s3; rewrite (bind_err_run _ _ _ _ _ Hset)].
  destruct Hpl as (s2 & ino2 & G & Hlk). rewrite (route_ppb s) in G, Hlk by done.
  rewrite (bind_ok _ _ _ _ _ Hset). cbn zeta. eexists _, s3. split; [done|].
  pose proof (advanced_allocated s ino L v s1 s2 ino2 s3 ino3
    (wrap 32 (i_blocks ino3 + wrap 32 (bsize s / 512))) Hwf Ht Hz HL H0 Ha G Hlk) as A.
  split; [exact A|]. set (ino' := set_i_blocks _ ino3) in *.
  pose proof (fresh_grown _ _ _ _ _ v Hf1 G) as Hf2. pose proof (grown_ppb _ _ _ _ _ G) as HP2.
  assert (file_block s3 ino' L = v) as Hv3.
  { unfold file_block. rewrite (route_ppb s) by (by eapply advanced_ppb).
    change (node s3 ino' (route s L)) with (node s3 ino3 (route s L)).
    rewrite (lk_node _ _ _ _ _ _ Hlk) by (rewrite (valid_addr_ppb s s2) by congruence; done).
    unfold linked_node. by rewrite decide_True. }
  rewrite Hv3. split; [done|]. split; [apply (fr_nonzero _ _ _ Hf2)|].
  unfold blk. rewrite Hv3, H0, (proj2 (Z.eqb_neq v 0)) by apply (fr_nonzero _ _ _ Hf2). cbn.
  rewrite (lk_data _ _ _ _ _ _ Hlk), (fr_zero _ _ _ Hf2).
  - by rewrite (same_shape_bsize _ _ (gr_shape _ _ _ _ _ G)), (same_shape_bsize _ _ (al_shape _ _ _ Ha)).
  - apply (fr_good _ _ _ Hf2).
  - intros a Hva _. by apply (fr_out _ _ _ Hf2).
Qed.

(** ** Writing the data *)

Lemma wrote_advanced s s' ino L buf :
  alloc_wf s → tree_wf s ino → zero_reserved s → 0 ≤ L < max_blocks s → file_block s ino L ≠ 0 →
  wrote s s' (file_block s ino L) → block_data s' (file_block s ino L) = Ok buf →
  advanced (eq L) s ino s' ino ∧ blk s' ino L = buf.
Proof.
  intros Hwf Ht Hz HL Hn Hw Hd. pose proof (file_block_good s ino L Hwf Ht HL Hn) as Hgd.
  pose proof (gd_bitmap s _ Hgd) as Hnob. destruct (wrote_sizes s s' _ Hw) as (Hb & Hfb & Hbs & HP).
  assert (∀ a, valid_addr s a → interior a → node s ino a ≠ 0 →
    block_data s' (node s ino a) = block_data s (node s ino a)) as Hext.
  { intros a Ha Hi Hna. apply (wr_frame _ _ _ Hw); [by apply (good_width s), (tw_good s ino Ht)|].
    by apply file_block_not_interior. }
  pose proof (node_ext s s' ino HP Hext) as Hnode.
  assert (file_block s' ino L = file_block s ino L) as Hfbk.
  { unfold file_block. rewrite (route_ppb s) by done. by apply Hnode, leaf_valid; [apply aw_geom|]. }
  split; [|unfold blk; rewrite Hfbk, Hd; by rewrite (proj2 (Z.eqb_neq _ 0))].
  split; try (intros; done).
  - by apply (wrote_alloc_wf s s' _ Hwf Hw).
  - apply (tree_wf_ext s s' ino HP Ht); [|done]. intros a Ha Hna.
    by apply (wrote_good s s' _ Hwf Hw Hnob), (tw_good s ino Ht).
  - unfold zero_reserved. by rewrite (wrote_range s s' _ Hw), (wrote_free s s' _ Hwf Hw Hnob).
  - apply (wr_shape _ _ _ Hw).
  - by rewrite (wr_groups _ _ _ Hw).
  - intros b _. by rewrite (wrote_free s s' _ Hwf Hw Hnob).
  - intros a Ha _. by apply Hnode.
  - intros a Ha Hne. by rewrite Hnode in Hne.
  - intros L' HL' _. unfold file_block. rewrite (route_ppb s) by done.
    by apply Hnode, leaf_valid; [apply aw_geom|].
  - by apply (wrote_good s s' _ Hwf Hw Hnob).
  - intros b Hgb _ HR. apply (wr_frame _ _ _ Hw); [by apply (good_width s)|]. intros ->. by apply (HR L).
  - exists (i_blocks ino), (i_block ino). apply set_size_blocks_same.
  - apply (wr_other _ _ _ Hw).
Qed.

Lemma in_block_spec bs off en L :
  0 < bs → 0 ≤ off < en → off < (L + 1) * bs → L * bs < en →
  in_block off en bs L = (Z.max 0 (off - L * bs), Z.min bs (en - L * bs)).
Proof.
  intros Hbs Ho HL1 HL2. unfold in_block. f_equal.
  - destruct (Z.ltb_spec (L * bs) off); [|lia]. rewrite Z.max_r by lia.
    rewrite <- (Z.mod_small (off - L * bs) bs) by lia. rewrite <- (Z_mod_plus_full off (- L) bs). f_equal. lia.
  - destruct (Z.ltb_spec en (L * bs + bs)); lia.
Qed.

Lemma sub_slice_length a b (l : list u8) :
  0 ≤ a ≤ b → b ≤ Z.of_nat (length l) → length (sub_slice a b l) = Z.to_nat (b - a).
Proof. intros Ha Hb. unfold sub_slice. rewrite length_take, length_drop. lia. Qed.

Lemma nth_sub_slice a b (l : list u8) j :
  0 ≤ a → 0 ≤ j < b - a → nth (Z.to_nat j) (sub_slice a b l) 0 = nth (Z.to_nat (a + j)) l 0.
Proof.
  intros Ha Hj. unfold sub_slice. rewrite !nth_lookup, lookup_take, decide_True by lia.
  rewrite lookup_drop. do 2 f_equal. lia.
Qed.

Lemma nth_inserts a (k l : list u8) j :
  0 ≤ a → a + Z.of_nat (length k) ≤ Z.of_nat (length l) → 0 ≤ j →
  nth (Z.to_nat j) (list_inserts (Z.to_nat a) k l) 0 =
  if (a <=? j) && (j <? a + Z.of_nat (length k)) then nth (Z.to_nat (j - a)) k 0
  else nth (Z.to_nat j) l 0.
Proof.
  intros Ha Hk Hj. rewrite !nth_lookup.
  destruct (Z.leb_spec a j); [destruct (Z.ltb_spec j (a + Z.of_nat (length k)))|]; cbn.
  - rewrite list_lookup_inserts by lia. do 2 f_equal. lia.
  - by rewrite list_lookup_inserts_ge by lia.
  - by rewrite list_lookup_inserts_lt by lia.
Qed.

(** ** The limit of the block map *)

(** C39: [get_block_num] is total on the blocks the map can address (12 direct
    ones and one, two and three levels of indirection) and follows the
    pointers there; beyond that capacity it panics on an out-of-range index
    exactly when the file has a triple indirect block, and reports a hole
    otherwise. *)
Theorem get_block_num_bounds s ino L :
  alloc_wf s → tree_wf s ino → in_width 32 L →
  get_block_num ino L s =
  if L <? max_blocks s then Some (Ok (some_block (file_block s ino L)), s)
  else if node s ino (14%nat, []) =? 0 then Some (Ok None, s) else None.
Proof.
  intros Hwf Ht HL. destruct (Z.ltb_spec L (max_blocks s)).
  - apply get_block_num_run; [done|done|]. split; [apply HL|done].
  - by apply get_block_num_beyond.
Qed.

Lemma set_block_num_beyond s ino L v :
  alloc_wf s → tree_wf s ino → zero_reserved s → max_blocks s ≤ L → in_width 32 L →
  set_block_num ino L v s = None ∨
  ∃ s', set_block_num ino L v s = Some (Err IoError, s') ∧ disk_full s'.
Proof.
  intros Hwf Ht Hz HL HwL. pose proof (aw_geom s Hwf) as Hg. destruct (ppb_bounds s Hg) as (HPb & H4 & HwP).
  destruct (beyond_index s L Hg HL HwL) as (HPP & H1 & H2 & H3 & Hidx).
  unfold set_block_num. mstep. fold (bsize s). fold (ppb s). rewrite HwP.
  unfold DIRECT_BLOCKS, TRIPLE_INDIRECT. rewrite HPP, H1, H2, H3.
  destruct (inode_ptr_run (14%nat, []) s ino 14) as (r & s2 & Hrun2 & Hres);
    [done|done|done|lia|by split; [|exists []]|].
  destruct r as [[p ino2]|e].
  - left. destruct Hres as (G & -> & Hp). rewrite (bind_ok _ _ _ _ _ Hrun2).
    rewrite (bind_ok _ _ s2 tt s2) by (apply require_true, negb_true_iff, Z.eqb_neq; nia).
    assert (valid_addr s2 (14%nat, [])) as Hv by (split; [cbn; lia|split; [cbn; lia|constructor]]).
    destruct (read_indirect_run s2 _ (gr_wf _ _ _ _ _ G) (tw_good _ _ (gr_tree _ _ _ _ _ G) _ Hv Hp)) as [Hr Hl].
    rewrite (same_shape_bsize _ _ (gr_shape _ _ _ _ _ G)) in Hr. rewrite (grown_ppb _ _ _ _ _ G) in Hl.
    unfold child_or_allocate, mbind, M_bind. rewrite Hr. by rewrite ptr_at_out by lia.
  - right. destruct Hres as [-> Hfull]. exists s2. by rewrite (bind_err_run _ _ _ _ _ Hrun2).
Qed.

(** writing a block beyond the capacity of the block map (an offset of
    about 16 GiB with 1 KiB blocks) never reports an error of its own: unless
    the disk is full it panics, whatever the file. *)
Theorem write_beyond_capacity_panics s ino L :
  alloc_wf s → tree_wf s ino → zero_reserved s → max_blocks s ≤ L → in_width 32 L →
  physical_or_allocate (bsize s) ino L s = None ∨
  ∃ s', physical_or_allocate (bsize s) ino L s = Some (Err IoError, s') ∧ disk_full s'.
Proof.
  intros Hwf Ht Hz HL HwL. pose proof (get_block_num_beyond s ino L Hwf Ht HL HwL) as Hget.
  unfold physical_or_allocate. destruct (Z.eqb_spec (node s ino (14%nat, [])) 0) as [H0|H0]; cycle 1.
  { left. unfold mbind, M_bind. by rewrite Hget. }
  rewrite (bind_ok _ _ _ _ _ Hget).
  destruct (allocate_block_run s Hwf) as [(v & s1 & Hrun & Ha)|[Hrun Hfull]]; cycle 1.
  { right. exists s. split; [|done]. unfold or_err, map_err, mbind, M_bind. by rewrite Hrun. }
  rewrite (bind_ok _ _ _ _ _ (or_err_ok _ _ _ _ _ Hrun)).
  destruct (allocated_tree s s1 ino v Hwf Ht Hz Ha) as (Ht1 & Hf1 & Hz1 & Hn1).
  destruct (set_block_num_beyond s1 ino L v (al_wf _ _ _ Ha) Ht1 Hz1) as [Hnone|(s2 & Herr & Hfull)];
    [by rewrite (max_blocks_ppb s) by (by eapply allocated_ppb)|done| |].
  - left. unfold mbind, M_bind. by rewrite Hnone.
  - right. exists s2. split; [|done]. by rewrite (bind_err_run _ _ _ _ _ Herr).
Qed.
End write.
