(* ===== verification/Ext2Range.v ===== *)
(** * ext2: the bytes of a file

    [file_byte] is the abstract contents of a file: the byte at an offset,
    zero in a hole. [write_file_range] stores a range of bytes and changes no
    other byte of any file; [read_file_range] returns the bytes of a range,
    in spite of its cache and of the coalescing of consecutive blocks. *)

From S2P Require Import Prelude Bytes BlockDev Ext2Layout Ext2Core Ext2Blocks Ext2Alloc Ext2File Ext2Map Ext2Write.

Section range.
Context {D : Type} `{BlockDevice D, !BlockDeviceLaws D, !ReliableDevice D}.
Implicit Types (s : Ext2Fs D) (b v : u32).

Definition file_byte (s : Ext2Fs D) (ino : Ext2Inode) (k : Z) : u8 :=
  nth (Z.to_nat (k mod bsize s)) (blk s ino (k / bsize s)) 0.

(** ** One block *)

Lemma block_bytes_new bs off (data : list u8) L a e old :
  0 < bs → 0 ≤ off → length old = Z.to_nat bs →
  a = Z.max 0 (off - L * bs) → e = Z.min bs (off + Z.of_nat (length data) - L * bs) → a <= e →
  let pos := Z.max 0 (L * bs - off) in
  ∀ j, 0 ≤ j < bs →
  nth (Z.to_nat j) (list_inserts (Z.to_nat a) (sub_slice pos (pos + (e - a)) data) old) 0 =
  if (off <=? L * bs + j) && (L * bs + j <? off + Z.of_nat (length data))
  then nth (Z.to_nat (L * bs + j - off)) data 0 else nth (Z.to_nat j) old 0.
Proof.
  intros Hbs Ho Hl Ha He Hae pos j Hj.
  assert (length (sub_slice pos (pos + (e - a)) data) = Z.to_nat (e - a)) as Hsl.
  { rewrite sub_slice_length by lia. lia. }
  rewrite nth_inserts by lia. rewrite Hsl.
  replace ((a <=? j) && (j <? a + Z.of_nat (Z.to_nat (e - a)))) with
    ((off <=? L * bs + j) && (L * bs + j <? off + Z.of_nat (length data))).
  - destruct ((off <=? L * bs + j) && (L * bs + j <? off + Z.of_nat (length data))) eqn:Hc; [|done].
    apply andb_true_iff in Hc as [Hc1%Z.leb_le Hc2%Z.ltb_lt].
    rewrite nth_sub_slice by lia. do 2 f_equal. lia.
  - apply eq_true_iff_eq. rewrite !andb_true_iff, !Z.leb_le, !Z.ltb_lt. lia.
Qed.

(** The buffer is read unless it is overwritten as a whole. *)
Lemma partial_read_run s ino L a e (new buf : list u8) :
  alloc_wf s → tree_wf s ino → 0 ≤ L < max_blocks s → file_block s ino L ≠ 0 →
  length new = Z.to_nat (e - a) → 0 ≤ a ≤ e → length buf = Z.to_nat (bsize s) →
  ∃ buf1, (if negb (a =? 0) || negb (e =? bsize s)
           then read_ext2_block (file_block s ino L) (bsize s) buf else mret buf) s = Some (Ok buf1, s) ∧
    length buf1 = Z.to_nat (bsize s) ∧
    list_inserts (Z.to_nat a) new buf1 = list_inserts (Z.to_nat a) new (blk s ino L).
Proof.
  intros Hwf Ht HL Hn Hnew Hae Hl. pose proof (aw_geom s Hwf) as Hg.
  pose proof (file_block_good s ino L Hwf Ht HL Hn) as Hgd. pose proof (blk_length s ino L Hwf Ht HL) as Hbl.
  destruct (good_read s _ Hwf Hgd) as [d Hd].
  destruct (Z.eqb_spec a 0) as [Ha|Ha]; [destruct (Z.eqb_spec e (bsize s)) as [He|He]|]; cbn [negb orb].
  - exists buf. split; [done|]. split; [done|]. subst. rewrite !inserts_all; [done|..]; rewrite Hnew, ?Hl, ?Hbl; f_equal; lia.
  - exists d. rewrite read_ext2_block_run by (done || by apply (good_width s)). rewrite Hd.
    split; [done|]. split; [by eapply block_data_length|].
    unfold blk. by rewrite (proj2 (Z.eqb_neq _ 0)), Hd by done.
  - exists d. rewrite read_ext2_block_run by (done || by apply (good_width s)). rewrite Hd.
    split; [done|]. split; [by eapply block_data_length|].
    unfold blk. by rewrite (proj2 (Z.eqb_neq _ 0)), Hd by done.
Qed.

Definition touched (off en bs L : Z) : Prop := off < (L + 1) * bs ∧ L * bs < en.

Lemma write_one_block_run s ino off data L buf :
  let bs := bsize s in
  let en := off + Z.of_nat (length data) in
  alloc_wf s → tree_wf s ino → zero_reserved s → 0 ≤ L < max_blocks s →
  0 ≤ off < en → touched off en bs L → length buf = Z.to_nat bs →
  ∃ r s', write_one_block bs off en data L (ino, Z.max 0 (L * bs - off), buf) s = Some (r, s') ∧
    match r with
    | Ok (ino', pos', buf') =>
        advanced (eq L) s ino s' ino' ∧ pos' = Z.min en ((L + 1) * bs) - off ∧
        length buf' = Z.to_nat bs ∧
        ∀ j, 0 ≤ j < bs → nth (Z.to_nat j) (blk s' ino' L) 0 =
          if (off <=? L * bs + j) && (L * bs + j <? en) then nth (Z.to_nat (L * bs + j - off)) data 0
          else nth (Z.to_nat j) (blk s ino L) 0
    | Err e => write_failed s' e
    end.
Proof.
  intros bs en Hwf Ht Hz HL Hoff [HL1 HL2] Hlb. pose proof (aw_geom s Hwf) as Hg.
  assert (1024 ≤ bs ≤ 4096) as Hbs by (pose proof (geom_bsize s Hg); unfold bs; lia).
  unfold write_one_block.
  destruct (physical_or_allocate_run s ino L Hwf Ht Hz HL) as (r & s1 & Hrun & Hres). fold bs in Hrun.
  destruct r as [[b ino1]|e]; [|by exists (Err e), s1; rewrite (bind_err_run _ _ _ _ _ Hrun)].
  rewrite (bind_ok _ _ _ _ _ Hrun). destruct Hres as (A1 & -> & Hn & Hblk).
  pose proof (same_shape_bsize _ _ (ad_shape _ _ _ _ _ A1)) as Hbs1. fold bs in Hbs1.
  pose proof (ad_wf _ _ _ _ _ A1) as Hwf1. pose proof (ad_tree _ _ _ _ _ A1) as Ht1.
  assert (0 ≤ L < max_blocks s1) as HLs1 by (rewrite (max_blocks_ppb s) by (by eapply advanced_ppb); done).
  pose proof (file_block_good s1 ino1 L Hwf1 Ht1 HLs1 Hn) as Hgd.
  rewrite in_block_spec by lia. set (a := Z.max 0 (off - L * bs)). set (e := Z.min bs (en - L * bs)).
  set (pos := Z.max 0 (L * bs - off)).
  rewrite (bind_ok _ _ s1 tt s1) by (apply require_true, Z.leb_le; lia).
  destruct (partial_read_run s1 ino1 L a e (sub_slice pos (pos + (e - a)) data) buf)
    as (buf1 & Hrd & Hl1 & Hins); [done|done|done|done| |lia|by rewrite Hbs1|].
  { rewrite sub_slice_length by lia. f_equal. lia. }
  rewrite Hbs1 in Hrd, Hl1. rewrite Hblk in Hins.
  rewrite (bind_ok _ _ _ _ _ Hrd).
  rewrite (bind_ok _ _ s1 tt s1) by (apply require_true, andb_true_iff; rewrite !Z.leb_le; lia).
  cbn zeta. rewrite Hins. set (nb := list_inserts _ _ (blk s ino L)).
  assert (length nb = Z.to_nat bs) as Hlnb by (unfold nb; rewrite length_inserts; by apply blk_length).
  destruct (write_block_wrote s1 (file_block s1 ino1 L) nb Hwf1 Hgd) as (s2 & Hw & Hwr & Hd); [by rewrite Hbs1|].
  rewrite Hbs1 in Hw. rewrite (bind_ok _ _ _ _ _ Hw).
  destruct (wrote_advanced s1 s2 ino1 L nb Hwf1 Ht1 (ad_zero _ _ _ _ _ A1) HLs1 Hn Hwr Hd) as [A2 Hnb].
  eexists _, s2. split; [done|]. cbn. split; [by eapply advanced_trans|]. split; [lia|]. split; [done|].
  intros j Hj. rewrite Hnb. unfold nb. apply block_bytes_new; try done; try lia. by apply blk_length.
Qed.

(** ** The loop *)

(** After the blocks before [N] have been written. *)
Record wrote_upto (s : Ext2Fs D) (ino : Ext2Inode) (off : Z) (data : list u8) (start N : Z)
    (s' : Ext2Fs D) (ino' : Ext2Inode) : Prop := {
  wu_adv : advanced (λ L, start ≤ L < N) s ino s' ino';
  wu_bytes k : 0 ≤ k < max_blocks s * bsize s →
    file_byte s' ino' k =
    if (off <=? k) && (k <? Z.min (off + Z.of_nat (length data)) (N * bsize s))
    then nth (Z.to_nat (k - off)) data 0 else file_byte s ino k;
}.

Lemma wrote_upto_step s0 ino0 off data start N s ino s' ino' :
  let en := off + Z.of_nat (length data) in
  alloc_wf s0 → start ≤ N → 0 ≤ N < max_blocks s0 →
  wrote_upto s0 ino0 off data start N s ino → advanced (eq N) s ino s' ino' →
  (∀ j, 0 ≤ j < bsize s0 → nth (Z.to_nat j) (blk s' ino' N) 0 =
     if (off <=? N * bsize s0 + j) && (N * bsize s0 + j <? en)
     then nth (Z.to_nat (N * bsize s0 + j - off)) data 0 else nth (Z.to_nat j) (blk s ino N) 0) →
  wrote_upto s0 ino0 off data start (N + 1) s' ino'.
Proof.
  intros en Hwf0 HsN HN [A Hb] A' Hnew.
  pose proof (same_shape_bsize _ _ (ad_shape _ _ _ _ _ A)) as Hbs.
  pose proof (same_shape_bsize _ _ (ad_shape _ _ _ _ _ A')) as Hbs'.
  assert (0 < bsize s0) as Hpos by (pose proof (geom_bsize s0 (aw_geom s0 Hwf0)); lia).
  pose proof (max_blocks_ppb s0 s (advanced_ppb _ _ _ _ _ A)) as Hmx.
  set (bs := bsize s0) in *. split.
  - eapply (advanced_trans _ s0 ino0 s ino s' ino'); (eapply advanced_weaken; [|done]); intros L; cbn; lia.
  - intros k Hk. pose proof (Hb k Hk) as Hbk. unfold file_byte in *. rewrite Hbs', Hbs in *. fold bs in Hbk |- *.
    pose proof (Z.div_mod k bs ltac:(lia)) as Hdm. pose proof (Z.mod_pos_bound k bs Hpos) as Hm.
    set (q := k / bs) in *. set (j := k mod bs) in *.
    assert (0 ≤ q < max_blocks s0) as Hq by nia.
    destruct (decide (q = N)) as [->|Hne].
    + rewrite Hnew by done. replace (N * bs + j) with k by lia. rewrite Hbk. fold en.
      replace (k <? Z.min en ((N + 1) * bs)) with (k <? en) by
        (apply eq_true_iff_eq; rewrite !Z.ltb_lt; nia).
      replace (k <? Z.min _ (N * bs)) with false by (symmetry; apply Z.ltb_ge; nia).
      by rewrite andb_false_r.
    + assert (blk s' ino' q = blk s ino q) as Hblk.
      { apply (blk_advanced (eq N)); [apply (ad_wf _ _ _ _ _ A)|apply (ad_tree _ _ _ _ _ A)|done|by rewrite Hmx|congruence]. }
      rewrite Hblk, Hbk. fold en.
      replace (k <? Z.min en ((N + 1) * bs)) with (k <? Z.min en (N * bs)); [done|].
      apply eq_true_iff_eq. rewrite !Z.ltb_lt. nia.
Qed.

Lemma write_blocks_run n : ∀ s ino off data N buf s0 ino0 start,
  let bs := bsize s0 in
  let en := off + Z.of_nat (length data) in
  alloc_wf s0 → tree_wf s0 ino0 →
  wrote_upto s0 ino0 off data start (start + Z.of_nat N) s ino →
  0 ≤ off < en → start = off / bs → 0 ≤ start + Z.of_nat (N + n) ≤ max_blocks s0 →
  (n ≠ 0%nat → (start + Z.of_nat (N + n) - 1) * bs < en) →
  length buf = Z.to_nat bs →
  ∃ r s', for_range n N (λ i, write_one_block bs off en data (start + Z.of_nat i))
      (ino, Z.max 0 ((start + Z.of_nat N) * bs - off), buf) s = Some (r, s') ∧
    match r with
    | Ok (ino', _, _) => wrote_upto s0 ino0 off data start (start + Z.of_nat (N + n)) s' ino'
    | Err e => write_failed s' e
    end.
Proof.
  induction n as [|n IH]; intros s ino off data N buf s0 ino0 start bs en Hwf0 Ht0 Hu Hoff Hst Hmax Hen Hlb.
  { eexists _, s. split; [done|]. cbn. by rewrite Nat.add_0_r. }
  pose proof (wu_adv _ _ _ _ _ _ _ _ Hu) as A. pose proof (advanced_ppb _ _ _ _ _ A) as HP.
  pose proof (same_shape_bsize _ _ (ad_shape _ _ _ _ _ A)) as Hbs. fold bs in Hbs.
  assert (1024 ≤ bs ≤ 4096) as Hb by (pose proof (geom_bsize s0 (aw_geom s0 Hwf0)); unfold bs; lia).
  assert (off < (start + 1) * bs) as Hs1.
  { rewrite Hst. pose proof (Z.mul_succ_div_gt off bs ltac:(lia)). lia. }
  assert (start * bs ≤ off) as Hs2 by (rewrite Hst; pose proof (Z.mul_div_le off bs ltac:(lia)); lia).
  specialize (Hen ltac:(lia)). set (L := start + Z.of_nat N) in *.
  assert (0 ≤ start) as H0s by (rewrite Hst; apply Z.div_pos; lia).
  assert (touched off en bs L) as Htc by (unfold touched, L; nia).
  pose proof (write_one_block_run s ino off data L buf) as Hone. cbn zeta in Hone. rewrite Hbs in Hone.
  destruct Hone as (r & s1 & Hrun & Hres); try done.
  { apply (ad_wf _ _ _ _ _ A). } { apply (ad_tree _ _ _ _ _ A). } { apply (ad_zero _ _ _ _ _ A). }
  { rewrite (max_blocks_ppb s0) by done. lia. }
  cbn [for_range]. fold L en in Hrun |- *.
  destruct r as [[[ino1 pos1] buf1]|e]; [|by exists (Err e), s1; rewrite (bind_err_run _ _ _ _ _ Hrun)].
  rewrite (bind_ok _ _ _ _ _ Hrun). destruct Hres as (A1 & -> & Hl1 & Hbytes).
  assert (wrote_upto s0 ino0 off data start (L + 1) s1 ino1) as Hu1.
  { apply (wrote_upto_step s0 ino0 off data start L s ino); try done; lia. }
  destruct n as [|n].
  { eexists _, s1. split; [done|]. cbn. by replace (start + Z.of_nat (N + 1)) with (L + 1) by lia. }
  specialize (IH s1 ino1 off data (S N) buf1 s0 ino0 start). cbn zeta in IH. fold bs en in IH.
  fold en. replace (Z.min en ((L + 1) * bs) - off) with (Z.max 0 ((start + Z.of_nat (S N)) * bs - off)) by nia.
  replace (start + Z.of_nat (N + S (S n))) with (start + Z.of_nat (S N + S n)) in * by lia.
  destruct IH as (r & s2 & Hr & Hm); try done; try lia.
  { by replace (start + Z.of_nat (S N)) with (L + 1) by lia. }
  by exists r, s2.
Qed.

(** ** [write_file_range] *)

Lemma set_clock_alloc_wf s c : alloc_wf s → alloc_wf (set_clock c s).
Proof.
  intros [H1 H2 H3 H4 H5 H6]. split; try done.
  - by destruct H1; split.
  - intros i bg Hi. destruct (H4 i bg Hi) as [bm []]. exists bm. by split.
Qed.

Lemma set_clock_tree_wf s c ino : tree_wf s ino → tree_wf (set_clock c s) ino.
Proof.
  intros Ht. apply (tree_wf_ext s); [done|done| |done].
  intros a Ha Hn. by destruct (tw_good s ino Ht a Ha Hn); split.
Qed.

Lemma node_clock s c ino a : node (set_clock c s) ino a = node s ino a.
Proof.
  unfold node. generalize (nth (fst a) (i_block ino) 0).
  induction (snd a) as [|i path IH]; intros p; [done|]. cbn. by rewrite IH.
Qed.

Lemma file_byte_clock s c ino ino' k :
  i_block ino' = i_block ino → file_byte (set_clock c s) ino' k = file_byte s ino k.
Proof.
  intros Hb. unfold file_byte, blk, file_block. rewrite !node_clock. unfold node. by rewrite Hb.
Qed.

(** The result of a completed write. *)
Record written (s : Ext2Fs D) (ino : Ext2Inode) (off : Z) (data : list u8) (s' : Ext2Fs D)
    (ino' : Ext2Inode) : Prop := {
  wn_wf : alloc_wf s';
  wn_tree : tree_wf s' ino';
  wn_zero : zero_reserved s';
  wn_bytes k : 0 ≤ k < max_blocks s * bsize s →
    file_byte s' ino' k =
    if (off <=? k) && (k <? off + Z.of_nat (length data))
    then nth (Z.to_nat (k - off)) data 0 else file_byte s ino k;
  wn_inode : ∃ blocks ptrs now,
    ino' = update_timestamps now false true true
             (set_size_blocks
                (if inode_file_size ino <? off + Z.of_nat (length data)
                 then wrap 32 (off + Z.of_nat (length data)) else i_size ino)
                blocks ptrs (i_dir_acl ino) ino);
  wn_adv : ∃ s1 ino1 c, advanced (λ _, True) s ino s1 ino1 ∧ s' = set_clock c s1 ∧
    i_block ino' = i_block ino1;
}.

Lemma end_block_bounds off en bs M :
  0 < bs → 0 ≤ off < en → en ≤ M * bs →
  off / bs < (en + bs - 1) / bs ≤ M ∧ ((en + bs - 1) / bs - 1) * bs < en ≤ (en + bs - 1) / bs * bs.
Proof.
  intros Hbs Ho Hen. pose proof (Z.div_mod off bs ltac:(lia)). pose proof (Z.mod_pos_bound off bs Hbs).
  pose proof (Z.div_mod (en + bs - 1) bs ltac:(lia)). pose proof (Z.mod_pos_bound (en + bs - 1) bs Hbs).
  nia.
Qed.

Lemma wrote_upto_start s ino off data :
  alloc_wf s → tree_wf s ino → zero_reserved s → 0 ≤ off →
  wrote_upto s ino off data (off / bsize s) (off / bsize s) s ino.
Proof.
  intros Hwf Ht Hz Ho. assert (0 < bsize s) by (pose proof (geom_bsize s (aw_geom s Hwf)); lia).
  split; [by apply advanced_refl|]. intros k Hk.
  pose proof (Z.mul_div_le off (bsize s) ltac:(lia)).
  destruct (Z.leb_spec off k); [|done]. by rewrite (proj2 (Z.ltb_ge _ _)) by lia.
Qed.

Lemma max_blocks_small s : geom s → 0 < max_blocks s < 2 ^ 31.
Proof. intros Hg. unfold max_blocks, ppb. destruct (geom_bsize s Hg) as [->|[->| ->]]; by vm_compute. Qed.

Lemma write_file_range_run s ino off data :
  alloc_wf s → tree_wf s ino → zero_reserved s → 0 ≤ off → data ≠ [] →
  off + Z.of_nat (length data) ≤ max_blocks s * bsize s →
  ∃ r s', write_file_range ino off data s = Some (r, s') ∧
    match r with
    | Ok ino' => written s ino off data s' ino'
    | Err e => write_failed s' e
    end.
Proof.
  intros Hwf Ht Hz Ho Hne Hen. pose proof (aw_geom s Hwf) as Hg.
  assert (1024 ≤ bsize s ≤ 4096) as Hbs by (pose proof (geom_bsize s Hg); lia).
  pose proof (max_blocks_small s Hg) as Hmx.
  assert (length data ≠ 0%nat) as Hln by (by destruct data).
  unfold write_file_range. rewrite bool_decide_false by done. mstep. fold (bsize s). set (bs := bsize s) in *.
  set (en := off + Z.of_nat (length data)) in *. rewrite (wrap_small 64 en) by (unfold in_width; nia).
  rewrite (wrap_small 64 (en + bs - 1)) by (unfold in_width; nia).
  destruct (end_block_bounds off en bs (max_blocks s)) as [Hse Hee]; [lia|lia|done|].
  pose proof (Z.div_pos off bs Ho ltac:(lia)) as Hs0.
  rewrite (wrap_small 32 (off / bs)), (wrap_small 32 ((en + bs - 1) / bs)) by (unfold in_width; lia).
  rewrite (bind_ok _ _ s tt s) by (apply require_true, Z.ltb_lt; lia).
  set (start := off / bs) in *. set (eb := (en + bs - 1) / bs) in *.
  pose proof (write_blocks_run (Z.to_nat (eb - start)) s ino off data 0 (replicate (Z.to_nat bs) 0) s ino start) as Hloop.
  cbn zeta in Hloop. fold bs en in Hloop.
  replace (Z.max 0 ((start + Z.of_nat 0) * bs - off)) with 0 in Hloop by
    (pose proof (Z.mul_div_le off bs ltac:(lia)); unfold start; lia).
  replace (start + Z.of_nat (0 + Z.to_nat (eb - start))) with eb in Hloop by lia.
  destruct Hloop as (r & s1 & Hrun & Hres); try done; try lia.
  { rewrite Z.add_0_r. by apply wrote_upto_start. }
  { apply length_replicate. }
  destruct r as [[[ino1 pos] buf]|e]; [|by exists (Err e), s1; rewrite (bind_err_run _ _ _ _ _ Hrun)].
  rewrite (bind_ok _ _ _ _ _ Hrun). cbn zeta. eexists _, _. split; [done|]. destruct Hres as [A Hb].
  destruct (ad_inode _ _ _ _ _ A) as (blocks & ptrs & Hino).
  assert (i_block (if inode_file_size ino1 <? en then set_i_size (wrap 32 en) ino1 else ino1) = i_block ino1)
    as Hib by (by case_match).
  split.
  - apply set_clock_alloc_wf, (ad_wf _ _ _ _ _ A).
  - eapply tree_wf_iblock, set_clock_tree_wf, (ad_tree _ _ _ _ _ A). done.
  - apply (ad_zero _ _ _ _ _ A).
  - intros k Hk. specialize (Hb k Hk). rewrite Z.min_l in Hb by (unfold en, bs in *; lia).
    rewrite <- Hb. by apply file_byte_clock.
  - exists blocks, ptrs, (wrap 32 (clock s1 0%nat)). fold en. f_equal. rewrite Hino.
    change (inode_file_size (set_size_blocks (i_size ino) blocks ptrs (i_dir_acl ino) ino))
      with (inode_file_size ino). by destruct (inode_file_size ino <? en).
  - exists s1, ino1, (λ n, clock s1 (S n)). split; [|done]. eapply advanced_weaken; [|done]. done.
Qed.
End range.
