(* ===== verification/Ext2Read.v ===== *)
(** * ext2: reading a file

    [read_file_range] returns exactly the bytes of the range, in spite of its
    cache of the single indirect block and of the coalescing of runs of
    consecutive blocks into one device read; and what [write_file_range]
    wrote is read back, in this file and, unchanged, in every other one. *)

From S2P Require Import Prelude Bytes BlockDev Ext2Layout Ext2Core Ext2Blocks Ext2Alloc Ext2File Ext2Map Ext2Write Ext2Range.

Lemma sub_slice_app_r a b (l l' : list u8) :
  0 ≤ a ≤ b → sub_slice (Z.of_nat (length l) + a) (Z.of_nat (length l) + b) (l ++ l') = sub_slice a b l'.
Proof.
  intros Ha. unfold sub_slice.
  replace (Z.to_nat (Z.of_nat (length l) + b - (Z.of_nat (length l) + a))) with (Z.to_nat (b - a)) by lia.
  replace (Z.to_nat (Z.of_nat (length l) + a)) with (length l + Z.to_nat a)%nat by lia.
  by rewrite drop_app_add.
Qed.

Lemma sub_slice_app_l a b (l l' : list u8) :
  0 ≤ a ≤ b → b ≤ Z.of_nat (length l) → sub_slice a b (l ++ l') = sub_slice a b l.
Proof.
  intros Ha Hb. unfold sub_slice. rewrite drop_app_le by lia.
  by rewrite take_app_le by (rewrite length_drop; lia).
Qed.

Lemma sub_slice_concat bs (ls : list (list u8)) : ∀ i x a b,
  Forall (λ l, Z.of_nat (length l) = bs) ls → ls !! i = Some x → 0 ≤ a ≤ b → b ≤ bs →
  sub_slice (Z.of_nat i * bs + a) (Z.of_nat i * bs + b) (concat ls) = sub_slice a b x.
Proof.
  induction ls as [|l ls IH]; intros i x a b Hf Hi Ha Hb; [done|].
  apply Forall_cons in Hf as [Hl Hf]. destruct i as [|i]; cbn [concat].
  - injection Hi as ->. rewrite !Z.add_0_l. apply sub_slice_app_l; lia.
  - rewrite <- (IH i x a b Hf Hi Ha Hb).
    rewrite <- (sub_slice_app_r (Z.of_nat i * bs + a) (Z.of_nat i * bs + b) l (concat ls)) by lia.
    f_equal; lia.
Qed.

Lemma Z_lor_ge a b : 0 ≤ a → 0 ≤ b → a ≤ Z.lor a b.
Proof.
  intros Ha Hb. apply Z.ldiff_le; [by apply Z.lor_nonneg|]. apply Z.bits_inj'. intros n Hn.
  rewrite Z.ldiff_spec, Z.lor_spec, Z.bits_0. by destruct (Z.testbit a n).
Qed.

Section read.
Context {D : Type} `{BlockDevice D, !BlockDeviceLaws D, !ReliableDevice D}.
Implicit Types (s : Ext2Fs D) (b v : u32).

(** ** Runs of blocks *)

Lemma read_run s ino L b n :
  alloc_wf s → tree_wf s ino → 0 ≤ L → L + Z.of_nat n ≤ max_blocks s → 0 ≤ b →
  (∀ i, 0 ≤ i < Z.of_nat n → file_block s ino (L + i) = b + i ∧ b + i ≠ 0) →
  read_seq (device s) (b * per s) (n * Z.to_nat (per s)) =
  Ok (concat (map (λ i, blk s ino (L + Z.of_nat i)) (seq 0 n))).
Proof.
  intros Hwf Ht HL. revert L b HL. induction n as [|n IH]; intros L b HL Hm Hb Hall; [done|].
  destruct (geom_per s (aw_geom s Hwf)) as (Hp & _ & _).
  cbn [Nat.mul]. rewrite read_seq_app. destruct (Hall 0 ltac:(lia)) as [H0 Hn0]. rewrite Z.add_0_r in Hn0. rewrite !Z.add_0_r in H0.
  assert (block_data s b = Ok (blk s ino L)) as Hd.
  { unfold blk. rewrite H0, (proj2 (Z.eqb_neq b 0)) by done.
    destruct (good_read s b Hwf) as [d ->]; [|done]. rewrite <- H0.
    apply file_block_good; (done || lia || congruence). }
  unfold block_data in Hd. rewrite Hd.
  replace (b * per s + Z.of_nat (Z.to_nat (per s))) with ((b + 1) * per s) by lia.
  rewrite (IH (L + 1) (b + 1)); [|lia|lia|lia|].
  - cbn [seq map concat]. rewrite Z.add_0_r. do 2 f_equal. rewrite <- seq_shift, map_map.
    f_equal. apply map_ext. intros i. f_equal. lia.
  - intros i Hi. destruct (Hall (i + 1) ltac:(lia)) as [H1 H2].
    replace (L + 1 + i) with (L + (i + 1)) by lia. lia.
Qed.

(** The bytes of a range in the block [L]. *)
Definition seg s ino off en L : list u8 :=
  map (file_byte s ino) (seqZ (Z.max off (L * bsize s))
    (Z.min en ((L + 1) * bsize s) - Z.max off (L * bsize s))).

Lemma block_piece s ino off en L a b :
  alloc_wf s → tree_wf s ino → 0 ≤ L < max_blocks s → 0 ≤ off < en → touched off en (bsize s) L →
  in_block off en (bsize s) L = (a, b) →
  sub_slice a b (blk s ino L) = seg s ino off en L ∧ 0 ≤ a ≤ b ∧ b ≤ bsize s.
Proof.
  intros Hwf Ht HL Ho [H1 H2] Hab. pose proof (geom_bsize s (aw_geom s Hwf)) as Hbs.
  rewrite in_block_spec in Hab by lia. injection Hab as <- <-. split; [|lia].
  pose proof (blk_length s ino L Hwf Ht HL) as Hl.
  set (bs := bsize s) in *. apply nth_ext with (d := 0) (d' := file_byte s ino 0).
  { rewrite sub_slice_length by lia. unfold seg. rewrite length_map, length_seqZ. fold bs. f_equal. lia. }
  intros n Hn. rewrite sub_slice_length in Hn by lia. unfold seg. rewrite map_nth.
  rewrite <- (Nat2Z.id n), nth_sub_slice by lia. rewrite (nth_lookup (seqZ _ _)), lookup_seqZ_lt by (fold bs; lia).
  cbn. fold bs. unfold file_byte. fold bs.
  assert (Z.max off (L * bs) + Z.of_nat (Z.to_nat (Z.of_nat n)) = (Z.max 0 (off - L * bs) + Z.of_nat n) + L * bs) as -> by lia.
  rewrite Z_mod_plus_full, Z_div_plus_full, Z.mod_small, Z.div_small by lia. done.
Qed.

(** ** The loop *)

Section loop.
Context (s : Ext2Fs D) (ino : Ext2Inode) (off en : Z).
Context (Hwf : alloc_wf s) (Ht : tree_wf s ino).
Context (Hoff : 0 ≤ off < en) (Hen : en ≤ max_blocks s * bsize s).
Let bs := bsize s.
Let eb := (en + bs - 1) / bs.

(** The bytes of the range before the block [L]. *)
Definition upto (L : Z) : list u8 :=
  map (file_byte s ino) (seqZ off (Z.max 0 (Z.min en (L * bs) - off))).

Lemma bs_bounds : 1024 ≤ bs ≤ 4096.
Proof using Type*. pose proof (geom_bsize s (aw_geom s Hwf)). unfold bs. lia. Qed.

Lemma eb_bounds : off / bs < eb ≤ max_blocks s ∧ (eb - 1) * bs < en ≤ eb * bs.
Proof using Type*. pose proof bs_bounds. apply end_block_bounds; [lia|lia|done]. Qed.

Lemma touched_range L : off / bs ≤ L < eb → touched off en bs L.
Proof using Type*.
  intros HL. pose proof bs_bounds as Hb. pose proof eb_bounds as [_ He].
  pose proof (Z.mul_succ_div_gt off bs ltac:(lia)). unfold touched. split; nia.
Qed.

Lemma upto_step L : off / bs ≤ L < eb → upto L ++ seg s ino off en L = upto (L + 1).
Proof using Type*.
  intros HL. pose proof bs_bounds as Hb. destruct (touched_range L HL) as [H1 H2].
  unfold upto, seg. fold bs. rewrite <- map_app. f_equal.
  replace (Z.max off (L * bs)) with (off + Z.max 0 (Z.min en (L * bs) - off)) by lia.
  rewrite <- seqZ_app by nia. f_equal. nia.
Qed.

Lemma run_upto n : ∀ L, off / bs ≤ L → L + Z.of_nat n ≤ eb →
  upto L ++ concat (map (λ i, seg s ino off en (L + Z.of_nat i)) (seq 0 n)) = upto (L + Z.of_nat n).
Proof using Type*.
  induction n as [|n IH]; intros L HL Hn.
  - cbn. by rewrite app_nil_r, Z.add_0_r.
  - cbn [seq map concat]. rewrite (assoc_L (++)). rewrite Z.add_0_r, upto_step by lia.
    rewrite <- seq_shift, map_map. replace (L + Z.of_nat (S n)) with (L + 1 + Z.of_nat n) by lia.
    rewrite <- IH by lia. do 2 f_equal. apply map_ext. intros i. f_equal. lia.
Qed.

(** The slices taken from the buffer of a run. *)
Lemma run_bytes_segs L n :
  off / bs ≤ L → L + Z.of_nat n ≤ eb →
  run_bytes off en bs L (Z.of_nat n) (concat (map (λ i, blk s ino (L + Z.of_nat i)) (seq 0 n))) =
  concat (map (λ i, seg s ino off en (L + Z.of_nat i)) (seq 0 n)).
Proof using Type*.
  intros HL Hn. pose proof bs_bounds as Hb. pose proof eb_bounds as [He _].
  pose proof (max_blocks_small s (aw_geom s Hwf)) as Hmx.
  assert (0 ≤ off / bs) as H0 by (apply Z.div_pos; lia).
  unfold run_bytes. rewrite Nat2Z.id. f_equal. apply map_ext_in. intros i Hi%in_seq.
  rewrite (wrap_small 32) by (unfold in_width; lia).
  destruct (in_block off en bs (L + Z.of_nat i)) as [a b] eqn:Hab.
  destruct (block_piece s ino off en (L + Z.of_nat i) a b) as (Hp & Ha & Hbb);
    [done|done|lia|done|apply touched_range; lia|done|]. rewrite <- Hp.
  apply sub_slice_concat; [|by erewrite list_lookup_fmap, lookup_seq_lt by lia|done|done].
  apply Forall_map, Forall_forall. intros j Hj%elem_of_seq.
  rewrite blk_length by (done || lia). unfold bs. lia.
Qed.

Definition phys_ok (phys : u32 → M D BlockError (option u32)) : Prop :=
  ∀ L, 0 ≤ L < eb → phys L s = Some (Ok (some_block (file_block s ino L)), s).

Lemma some_block_Some x y : some_block x = Some y → x = y ∧ y ≠ 0.
Proof using. unfold some_block. destruct (Z.eqb_spec x 0); [done|]. intros [= ->]. done. Qed.

(** [n] blocks from [L] on are the consecutive disk blocks from [b] on. *)
Definition consecutive (L b n : Z) : Prop :=
  ∀ i, 0 ≤ i < n → file_block s ino (L + i) = b + i ∧ b + i ≠ 0.

Lemma run_length_run phys mx L b fuel : ∀ n,
  phys_ok phys → 0 ≤ L → 1 ≤ n → L + n ≤ eb → in_width 32 (b + n - 1) → consecutive L b n →
  ∃ r, run_length fuel phys mx L eb b n s = Some (Ok r, s) ∧ n ≤ r ∧ L + r ≤ eb ∧
    consecutive L b r.
Proof using Type*.
  pose proof eb_bounds as [He _]. pose proof (max_blocks_small s (aw_geom s Hwf)) as Hmx.
  induction fuel as [|fuel IH]; intros n Hphys HL Hn Hne Hw Hc; cbn [run_length].
  { exists n. split; [done|]. split; [lia|]. done. }
  destruct (n <? mx); cbn [andb]; [|exists n; split; [done|]; split; [lia|done]].
  rewrite (wrap_small 32 (L + n)) by (unfold in_width; lia).
  destruct (Z.ltb_spec (L + n) eb); [|exists n; split; [done|]; split; [lia|done]].
  rewrite (bind_ok _ _ _ _ _ (Hphys (L + n) ltac:(lia))).
  case_bool_decide as Hnext; [|exists n; split; [done|]; split; [lia|done]].
  apply some_block_Some in Hnext as [Hfb Hnz].
  assert (b + n < 2 ^ 32) as Hlt.
  { destruct (decide (b + n = 2 ^ 32)) as [Heq|]; [|unfold in_width in Hw; lia].
    rewrite Heq in Hnz. by vm_compute in Hnz. }
  rewrite (wrap_small 32 (b + n)) in Hfb, Hnz by (unfold in_width in *; lia).
  destruct (IH (n + 1)) as (r & Hr & ? & ? & ?); [done|lia|lia|lia|unfold in_width in *; lia| |].
  { intros i Hi. destruct (decide (i = n)) as [->|]; [done|apply Hc; lia]. }
  exists r. split; [done|]. split; [lia|]. done.
Qed.

Lemma read_loop_run phys mx fuel : ∀ L,
  phys_ok phys → off / bs ≤ L ≤ eb → eb - L ≤ Z.of_nat fuel →
  read_loop fuel phys off en bs mx eb L (upto L) s = Some (Ok (upto eb), s).
Proof using Type*.
  pose proof eb_bounds as [He _]. pose proof bs_bounds as Hbs.
  pose proof (aw_geom s Hwf) as Hg. pose proof (max_blocks_small s Hg) as Hmx.
  assert (0 ≤ off / bs) as H0 by (apply Z.div_pos; lia).
  induction fuel as [|fuel IH]; intros L Hphys HL Hf; cbn [read_loop].
  { by replace L with eb by lia. }
  destruct (Z.ltb_spec L eb); [|by replace L with eb by lia].
  rewrite (bind_ok _ _ _ _ _ (Hphys L ltac:(lia))).
  destruct (some_block (file_block s ino L)) as [b|] eqn:Hsb.
  - apply some_block_Some in Hsb as [Hfb Hnz].
    assert (good s b) as Hgd by (rewrite <- Hfb; apply file_block_good; (done || lia || congruence)).
    pose proof (good_width s b Hwf Hgd) as Hwb.
    destruct (run_length_run phys mx L b (Z.to_nat mx) 1) as (r & Hr & Hr1 & Hr2 & Hc);
      [done|lia|lia|lia|by rewrite Z.add_simpl_r| |].
    { intros i Hi. replace i with 0 by lia. by rewrite !Z.add_0_r. }
    rewrite (bind_ok _ _ _ _ _ Hr).
    assert (b + r ≤ 2 ^ 32) as Hbr.
    { destruct (Hc (r - 1) ltac:(lia)) as [Hl1 Hl2].
      assert (good s (b + (r - 1))) as Hgl by (rewrite <- Hl1; apply file_block_good; (done || lia || congruence)).
      pose proof (good_width s _ Hwf Hgl) as Hwl. unfold in_width in Hwl. lia. }
    pose proof (read_run s ino L b (Z.to_nat r) Hwf Ht ltac:(lia) ltac:(lia) ltac:(unfold in_width in *; lia)) as Hrun.
    specialize (Hrun ltac:(intros i Hi; apply Hc; lia)).
    destruct (geom_per s Hg) as (Hper & _ & _).
    replace (Z.to_nat r * Z.to_nat (per s))%nat with (Z.to_nat (r * per s)) in Hrun by nia.
    erewrite bind_ok by
      (unfold bs; rewrite read_ext2_blocks_run by
         (done || (unfold in_width in *; lia) || (rewrite length_replicate; fold bs; nia));
       rewrite Hrun; reflexivity).
    rewrite (wrap_small 32 (L + r)) by (unfold in_width; lia).
    rewrite <- (Z2Nat.id r) at 2 by lia. rewrite run_bytes_segs, run_upto by lia.
    rewrite Z2Nat.id by lia. apply IH; [done|lia|lia].
  - assert (file_block s ino L = 0) as Hz.
    { unfold some_block in Hsb. by destruct (Z.eqb_spec (file_block s ino L) 0). }
    rewrite (bind_ok _ _ _ _ _ (stack_slice_run s Hg)).
    destruct (in_block off en bs L) as [a b] eqn:Hab.
    destruct (block_piece s ino off en L a b) as (Hp & _);
      [done|done|lia|done|apply touched_range; lia|done|].
    unfold blk in Hp. rewrite Hz in Hp. cbn in Hp. rewrite Hp, upto_step by lia.
    rewrite (wrap_small 32 (L + 1)) by (unfold in_width; lia). apply IH; [done|lia|lia].
Qed.
End loop.

(** ** [read_file_range] *)

(** The cached single indirect block gives what [get_block_num] gives. *)
Lemma physical_for_ok s ino cache eb :
  alloc_wf s → tree_wf s ino → eb ≤ max_blocks s →
  cache = (if (12 <? eb) && negb (node s ino (12%nat, []) =? 0)
           then Some (ptrs_of s (node s ino (12%nat, []))) else None) →
  ∀ L, 0 ≤ L < eb →
    physical_for ino cache (ppb s) L s = Some (Ok (some_block (file_block s ino L)), s).
Proof.
  intros Hwf Ht He -> L HL. pose proof (aw_geom s Hwf) as Hg.
  pose proof (route_valid s L Hg ltac:(lia)) as [Hv _].
  unfold physical_for, DIRECT_BLOCKS. destruct (Z.ltb_spec L 12).
  { rewrite <- (get_block_num_run s ino L Hwf Ht) by lia. unfold get_block_num. mstep.
    unfold DIRECT_BLOCKS. by rewrite (proj2 (Z.ltb_lt L 12)). }
  destruct (Z.ltb_spec (L - 12) (ppb s)); [|apply get_block_num_run; (done || lia)].
  unfold file_block, route in *. rewrite (proj2 (Z.ltb_ge L 12)), (proj2 (Z.ltb_lt L (12 + ppb s))) in * by lia.
  rewrite (proj2 (Z.ltb_lt 12 eb)) by lia. cbn [andb].
  destruct (Z.eqb_spec (node s ino (12%nat, [])) 0) as [Hz|Hz]; cbn [negb].
  - pose proof (node_snoc s ino 12 [] (L - 12) Hz) as Hn. cbn [app] in Hn. by rewrite Hn.
  - destruct (read_child s ino 12 [] (L - 12) Hwf Ht Hv Hz) as (_ & Hp & _).
    by rewrite (bind_ok _ _ _ _ _ (Hp _)).
Qed.

Lemma read_file_range_run s ino off len :
  alloc_wf s → tree_wf s ino → 0 ≤ off → 0 ≤ len → inode_file_size ino ≤ max_blocks s * bsize s →
  read_file_range ino off len s =
  Some (Ok (map (file_byte s ino) (seqZ off (Z.min len (inode_file_size ino - off)))), s).
Proof.
  intros Hwf Ht Ho Hl Hsz. pose proof (aw_geom s Hwf) as Hg. unfold read_file_range.
  destruct (Z.leb_spec (inode_file_size ino) off); [by rewrite seqZ_nil by lia|].
  destruct (Z.eqb_spec (Z.min len (inode_file_size ino - off)) 0) as [Hz|Hz]; [by rewrite seqZ_nil by lia|].
  set (al := Z.min len (inode_file_size ino - off)) in *.
  assert (1024 ≤ bsize s ≤ 4096) as Hbs by (pose proof (geom_bsize s Hg); lia).
  pose proof (max_blocks_small s Hg) as Hmx. destruct (ppb_bounds s Hg) as (_ & _ & HwP).
  mstep. fold (bsize s). fold (ppb s). rewrite HwP.
  assert (0 ≤ off < off + al) as Hoff by lia. assert (off + al ≤ max_blocks s * bsize s) as Hen by lia.
  pose proof (eb_bounds s ino off (off + al) Hwf Ht Hoff Hen) as [He1 He2].
  set (eb := (off + al + bsize s - 1) / bsize s) in *.
  assert (0 ≤ off / bsize s) as Hs0 by (apply Z.div_pos; lia).
  rewrite (bind_ok _ _ s tt s) by (apply require_true, Z.ltb_lt; lia).
  rewrite (wrap_small 32 (off / bsize s)), (wrap_small 32 eb) by (unfold in_width; lia).
  unfold SINGLE_INDIRECT, DIRECT_BLOCKS. rewrite (bind_ok _ _ _ _ _ (slot_run s ino 12 Ht ltac:(lia))).
  erewrite bind_ok; cycle 1.
  { instantiate (1 := s). instantiate (1 := if (12 <? eb) && negb (node s ino (12%nat, []) =? 0)
      then Some (ptrs_of s (node s ino (12%nat, []))) else None).
    destruct (12 <? eb); cbn [andb]; [|done].
    destruct (Z.eqb_spec (node s ino (12%nat, [])) 0) as [Hn|Hn]; [done|]. cbn [negb].
    assert (valid_addr s (12%nat, [])) as Hv by (split; [cbn; lia|split; [cbn; lia|constructor]]).
    destruct (read_indirect_run s _ Hwf (tw_good s ino Ht _ Hv Hn)) as [Hr _].
    by rewrite (bind_ok _ _ _ _ _ Hr). }
  pose proof (read_loop_run s ino off (off + al) Hwf Ht Hoff Hen) as Hloop.
  unfold upto in Hloop. cbn zeta in Hloop. fold eb in Hloop.
  specialize (Hloop (physical_for ino (if (12 <? eb) && negb (node s ino (12%nat, []) =? 0)
      then Some (ptrs_of s (node s ino (12%nat, []))) else None) (ppb s)) (Z.max 1 (65536 / bsize s))
      (Z.to_nat (eb - off / bsize s)) (off / bsize s)).
  rewrite (seqZ_nil off (Z.max 0 (Z.min (off + al) (off / bsize s * bsize s) - off))) in Hloop by
    (pose proof (Z.mul_div_le off (bsize s) ltac:(lia)); lia).
  cbn [map] in Hloop. rewrite Hloop; [|intros L HL; apply (physical_for_ok s ino _ eb); (done || lia)|lia|lia].
  do 5 f_equal. lia.
Qed.

(** ** Other files *)

(** No block belongs to both files. *)
Definition disjoint_files (s : Ext2Fs D) (ino ino2 : Ext2Inode) : Prop :=
  ∀ a a2, valid_addr s a → valid_addr s a2 → node s ino2 a2 ≠ 0 → node s ino a ≠ node s ino2 a2.

(** A file none of whose blocks changes. *)
Lemma file_unchanged s s' ino :
  geom s → bsize s' = bsize s → tree_wf s ino →
  (∀ a, valid_addr s a → node s ino a ≠ 0 → good s' (node s ino a)) →
  (∀ a, valid_addr s a → node s ino a ≠ 0 →
     block_data s' (node s ino a) = block_data s (node s ino a)) →
  tree_wf s' ino ∧ (∀ a, valid_addr s a → node s' ino a = node s ino a) ∧
  ∀ k, 0 ≤ k < max_blocks s * bsize s → file_byte s' ino k = file_byte s ino k.
Proof.
  intros Hg Hb Ht Hgood Hd. assert (ppb s' = ppb s) as HP by (unfold ppb; by rewrite Hb).
  assert (∀ a, valid_addr s a → node s' ino a = node s ino a) as Hnode.
  { apply node_ext; [done|]. intros a Ha _. by apply Hd. }
  split; [|split; [done|]].
  - apply (tree_wf_ext s s' ino HP Ht); [done|]. intros a Ha _. by apply Hd.
  - intros k Hk. pose proof (geom_bsize s Hg) as Hbs.
    assert (0 ≤ k / bsize s < max_blocks s) as HL.
    { split; [apply Z.div_pos; lia|apply Z.div_lt_upper_bound; lia]. }
    unfold file_byte, blk, file_block. rewrite Hb, (route_ppb s) by done.
    destruct (leaf_valid s _ Hg HL) as [Hv _]. rewrite Hnode by done.
    destruct (Z.eqb_spec (node s ino (route s (k / bsize s))) 0) as [|Hn]; [done|]. by rewrite Hd.
Qed.

Lemma advanced_other R s ino s' ino' ino2 :
  alloc_wf s → tree_wf s ino2 → disjoint_files s ino ino2 → advanced R s ino s' ino' →
  tree_wf s' ino2 ∧ disjoint_files s' ino' ino2 ∧
  ∀ k, 0 ≤ k < max_blocks s * bsize s → file_byte s' ino2 k = file_byte s ino2 k.
Proof.
  intros Hwf Ht2 Hdis A. pose proof (advanced_ppb _ _ _ _ _ A) as HP. pose proof (aw_geom s Hwf) as Hg.
  destruct (file_unchanged s s' ino2) as (Ht' & Hnode & Hbytes);
    [done|apply (same_shape_bsize _ _ (ad_shape _ _ _ _ _ A))|done|..].
  { intros a Ha Hn. by apply (ad_good _ _ _ _ _ A), (tw_good s ino2 Ht2). }
  { intros a Ha Hn. apply (ad_data _ _ _ _ _ A); [by apply (tw_good s ino2 Ht2)| |].
    - intros a1 Ha1 _. by apply Hdis.
    - intros L HL _. by apply Hdis; [apply leaf_valid|..]. }
  split; [done|]. split; [|done].
  intros a a2 Ha Ha2. rewrite (valid_addr_ppb s s') in Ha, Ha2 by done. rewrite Hnode by done.
  intros Hn Heq. destruct (decide (node s' ino' a = node s ino a)) as [He|Hne].
  - by apply (Hdis a a2); [..|congruence].
  - apply (ad_new _ _ _ _ _ A a Ha Hne). rewrite Heq. by apply (tw_good s ino2 Ht2).
Qed.

Lemma file_size_written s ino off data s' ino' :
  written s ino off data s' ino' → 0 ≤ i_dir_acl ino → in_width 32 (i_size ino) → 0 ≤ off →
  off + Z.of_nat (length data) < 2 ^ 32 →
  inode_file_size ino' = Z.max (inode_file_size ino) (off + Z.of_nat (length data)).
Proof.
  intros Hw Ha Hs Ho Hen. destruct (wn_inode _ _ _ _ _ _ Hw) as (blocks & ptrs & now & ->).
  set (en := off + Z.of_nat (length data)) in *. rewrite (wrap_small 32 en) by (unfold in_width; lia).
  destruct (Z.ltb_spec (inode_file_size ino) en) as [Hlt|]; [|by rewrite Z.max_l by lia].
  rewrite Z.max_r by lia. unfold inode_file_size in *. cbn in *. change (is_file (update_timestamps _ _ _ _ _)) with (is_file ino).
  destruct (is_file ino); [|done].
  assert (i_dir_acl ino = 0) as ->; [|done].
  pose proof (Z.shiftl_nonneg (i_dir_acl ino) 32) as [_ Hnn].
  pose proof (Z_lor_ge (Z.shiftl (i_dir_acl ino) 32) (i_size ino) (Hnn Ha) (proj1 Hs)) as Hge.
  rewrite Z.shiftl_mul_pow2 in Hge, Hlt by lia. lia.
Qed.

(** ** The theorems *)

(** C23: [read_file_range] returns exactly the bytes of the requested range
    that lie before the end of the file, for direct, single, double and triple
    indirect blocks and for holes, whatever runs of consecutive blocks its
    coalescing finds; the file system is unchanged. *)
Theorem read_file_range_exact s ino off len :
  alloc_wf s → tree_wf s ino → 0 ≤ off → 0 ≤ len → inode_file_size ino ≤ max_blocks s * bsize s →
  read_file_range ino off len s =
  Some (Ok (map (file_byte s ino) (seqZ off (Z.min len (inode_file_size ino - off)))), s).
Proof. apply read_file_range_run. Qed.

(** C24: a write within the capacity of the block map never panics and fails
    only when no block is free; when it succeeds, the bytes of the range are
    the data, every other byte of the file is unchanged, the allocator and the
    block map keep their invariants, and the inode keeps everything but its
    size, block count, pointers and times. *)
Theorem write_file_range_exact s ino off data :
  alloc_wf s → tree_wf s ino → zero_reserved s → 0 ≤ off → data ≠ [] →
  off + Z.of_nat (length data) ≤ max_blocks s * bsize s →
  ∃ r s', write_file_range ino off data s = Some (r, s') ∧
    match r with
    | Ok ino' => written s ino off data s' ino'
    | Err e => e = IoError ∧ ∀ b, data_range s' b → block_free s' b = false
    end.
Proof. apply write_file_range_run. Qed.

(** C5: what has been written is read back: after a successful, non-empty write
    that ends within the capacity of the block map and below 4 GiB, to a well
    formed file whose size is within that capacity, a read of any range returns
    the data where the range meets it and the earlier contents elsewhere, up to
    the new end of the file. *)
Theorem write_then_read s ino off data s' ino' o len :
  alloc_wf s → tree_wf s ino → zero_reserved s → 0 ≤ off → data ≠ [] →
  off + Z.of_nat (length data) ≤ max_blocks s * bsize s → off + Z.of_nat (length data) < 2 ^ 32 →
  0 ≤ i_dir_acl ino → in_width 32 (i_size ino) → inode_file_size ino ≤ max_blocks s * bsize s →
  write_file_range ino off data s = Some (Ok ino', s') → 0 ≤ o → 0 ≤ len →
  read_file_range ino' o len s' =
  Some (Ok (map (λ k, if (off <=? k) && (k <? off + Z.of_nat (length data))
                      then nth (Z.to_nat (k - off)) data 0 else file_byte s ino k)
                (seqZ o (Z.min len (Z.max (inode_file_size ino) (off + Z.of_nat (length data)) - o)))), s').
Proof.
  intros Hwf Ht Hz Ho Hne Hen H32 Ha Hi Hsz Hrun Ho' Hl.
  destruct (write_file_range_run s ino off data Hwf Ht Hz Ho Hne Hen) as (r & s1 & Hrun' & Hw).
  rewrite Hrun in Hrun'. injection Hrun' as <- <-.
  pose proof (file_size_written _ _ _ _ _ _ Hw Ha Hi Ho H32) as Hfs.
  destruct (wn_adv _ _ _ _ _ _ Hw) as (s2 & ino2 & c & A & Hs' & _).
  assert (max_blocks s' * bsize s' = max_blocks s * bsize s) as Hm.
  { rewrite Hs'. change (max_blocks s2 * bsize s2 = max_blocks s * bsize s).
    by rewrite (max_blocks_ppb s s2 (advanced_ppb _ _ _ _ _ A)), (same_shape_bsize _ _ (ad_shape _ _ _ _ _ A)). }
  rewrite read_file_range_run by first [apply Hw | done | rewrite Hfs, Hm; lia].
  rewrite Hfs. do 3 f_equal. apply map_ext_in. intros k Hk%list_elem_of_In%elem_of_seqZ.
  apply (wn_bytes _ _ _ _ _ _ Hw). lia.
Qed.

(** C6: writing one file leaves every other file alone: any file whose blocks
    are disjoint from those of the written one stays well-formed and disjoint
    from it, and reads the same bytes as before. *)
Theorem write_preserves_other_files s ino ino2 off data s' ino' :
  alloc_wf s → tree_wf s ino → tree_wf s ino2 → zero_reserved s → disjoint_files s ino ino2 →
  0 ≤ off → data ≠ [] → off + Z.of_nat (length data) ≤ max_blocks s * bsize s →
  inode_file_size ino2 ≤ max_blocks s * bsize s →
  write_file_range ino off data s = Some (Ok ino', s') →
  tree_wf s' ino2 ∧ disjoint_files s' ino' ino2 ∧
  ∀ o len, 0 ≤ o → 0 ≤ len → ∃ bytes,
    read_file_range ino2 o len s = Some (Ok bytes, s) ∧
    read_file_range ino2 o len s' = Some (Ok bytes, s').
Proof.
  intros Hwf Ht Ht2 Hz Hdis Ho Hne Hen Hsz Hrun.
  destruct (write_file_range_run s ino off data Hwf Ht Hz Ho Hne Hen) as (r & s1 & Hrun' & Hw).
  rewrite Hrun in Hrun'. injection Hrun' as <- <-.
  destruct (wn_adv _ _ _ _ _ _ Hw) as (s2 & ino3 & c & A & -> & Hib).
  destruct (advanced_other _ s ino s2 ino3 ino2 Hwf Ht2 Hdis A) as (Ht2' & Hdis' & Hb).
  split; [by apply set_clock_tree_wf|]. split.
  { intros a a2 Ha Ha2. rewrite !(node_clock s2 c). unfold node. rewrite Hib. by apply Hdis'. }
  intros o len Ho' Hl. eexists. split; [by apply read_file_range_run|].
  assert (max_blocks s2 * bsize s2 = max_blocks s * bsize s) as Hm.
  { by rewrite (max_blocks_ppb s s2 (advanced_ppb _ _ _ _ _ A)), (same_shape_bsize _ _ (ad_shape _ _ _ _ _ A)). }
  rewrite read_file_range_run by first [apply Hw | done | by apply set_clock_tree_wf | by rewrite <- Hm in Hsz].
  do 3 f_equal. apply map_ext_in. intros k Hk%list_elem_of_In%elem_of_seqZ.
  rewrite (file_byte_clock s2 c ino2 ino2) by done. apply Hb. lia.
Qed.
End read.
