(* ===== verification/Ext2Sync.v ===== *)
(** * ext2: the superblock and the group descriptors on disk

    The superblock and the descriptor table live twice, in the mounted
    [Ext2Fs] and on the device. This file shows that [commit_superblock] and
    [commit_groups], which end every namespace operation, make the device
    agree with the memory: mounting the device again with [Ext2Fs_new] gives
    the same superblock and the same groups. The device has the 512-byte
    sectors of the drivers. *)

From S2P Require Import Prelude Bytes BlockDev Ext2Layout Ext2Core Ext2Blocks Ext2Fs.

(** ** Loops *)

Section loops.
Context {D E A : Type}.
Implicit Types (f g : nat → A → M D E A) (s : Ext2Fs D).

(** Two loops whose bodies agree on the accumulators with a property. *)
Lemma for_range_ext_inv (I : A → Prop) f g n i a s :
  (∀ k a s, (i ≤ k < i + n)%nat → I a → f k a s = g k a s) →
  (∀ k a s a' s', I a → g k a s = Some (Ok a', s') → I a') → I a →
  for_range n i f a s = for_range n i g a s.
Proof.
  revert i a s. induction n as [|n IH]; intros i a s Hfg Hg Ha; [done|]. cbn [for_range]. unfold mbind, M_bind.
  rewrite Hfg by (done || lia). destruct (g i a s) as [[[a'|] s']|] eqn:Hga; [|done..].
  apply IH; [|done|by eapply Hg]. intros. apply Hfg; [lia|done].
Qed.

Lemma for_range_ext f g n i a s :
  (∀ k a s, (i ≤ k < i + n)%nat → f k a s = g k a s) → for_range n i f a s = for_range n i g a s.
Proof. intros Hfg. by apply (for_range_ext_inv (λ _, True)); [intros; apply Hfg|..]. Qed.

Lemma for_range_app f n m i a s :
  for_range (n + m) i f a s = (for_range n i f a ≫= for_range m (i + n) f) s.
Proof.
  revert i a s. induction n as [|n IH]; intros i a s; [by rewrite Nat.add_0_r|].
  cbn [for_range Nat.add]. unfold mbind, M_bind.
  destruct (f i a s) as [[[a'|] s']|]; [|done..]. rewrite IH, Nat.add_succ_r. done.
Qed.

Lemma for_range_shift f n k i a s :
  for_range n i (λ j, f (k + j)%nat) a s = for_range n (k + i) f a s.
Proof.
  revert i a s. induction n as [|n IH]; intros i a s; [done|]. cbn [for_range]. unfold mbind, M_bind.
  destruct (f (k + i)%nat a s) as [[[a'|] s']|]; [|done..]. by rewrite IH, Nat.add_succ_r.
Qed.

(** Two nested loops that only use the flat index. *)
Lemma for_range_nested f m n i a s :
  for_range n i (λ i, for_range m 0 (λ j, f (i * m + j)%nat)) a s = for_range (n * m) (i * m) f a s.
Proof.
  revert i a s. induction n as [|n IH]; intros i a s; [done|]. cbn [Nat.mul].
  rewrite for_range_app. cbn [for_range]. unfold mbind, M_bind. rewrite for_range_shift, Nat.add_0_r.
  destruct (for_range m (i * m) f a s) as [[[a'|] s']|]; [|done..]. rewrite IH. f_equal. lia.
Qed.
End loops.

Section sync.
Context {D : Type} `{BlockDevice D, !BlockDeviceLaws D, !ReliableDevice D}.
Implicit Types (s : Ext2Fs D).

(** A span of sectors is written: the sectors hold the buffer, the others are
    as before. *)
Lemma write_span_run s start k buf :
  (Z.to_nat (dev_block_size (device s)) * k ≤ length buf)%nat →
  0 ≤ start → start + Z.of_nat k < 2 ^ 64 → start + Z.of_nat k ≤ num_blocks (device s) →
  ∃ s', write_span start k (dev_block_size (device s)) buf s = Some (Ok tt, s') ∧
    s' = set_device (device s') s ∧ same_shape s s' ∧
    read_seq (device s') start k = Ok (take (k * Z.to_nat (dev_block_size (device s))) buf) ∧
    ∀ j, j < start ∨ start + Z.of_nat k ≤ j → read_block (device s') j = read_block (device s) j.
Proof.
  intros Hl H0 Hw Hn.
  destruct (write_loop_ok start k (dev_block_size (device s)) buf 0 s) as [s' Hs']; [done|lia..|].
  destruct (write_loop_run start k (dev_block_size (device s)) buf 0 s)
    as (d' & r & Hrun & Hd & Hnb & Hok); [done|lia..|].
  rewrite Hs' in Hrun. injection Hrun as <- ->. exists (set_device d' s). split; [done|].
  destruct (Hok eq_refl) as [Hseq Hfr]. cbn [Z.of_nat Nat.mul drop] in Hseq. rewrite Z.add_0_r in Hseq, Hfr.
  split; [by destruct s|]. split; [by split; [|split]|]. split; [done|]. cbn. intros j Hj. apply Hfr. lia.
Qed.

(** ** The superblock *)

(** Sectors 2 and 3 hold the superblock. *)
Lemma sb_read_run s data :
  dev_block_size (device s) = 512 → read_seq (device s) 2 2 = Ok data →
  read_span 2 2 512 (replicate 4096 0) s = Some (Ok (data ++ replicate 3072 0), s).
Proof.
  intros Hd Hr. pose proof (read_seq_length _ _ _ _ Hr) as Hl. rewrite Hd in Hl.
  unfold read_span. rewrite read_span_run by (done || rewrite length_replicate; lia).
  rewrite read_blocks_from_seq by (rewrite ?length_replicate, ?Hd; lia). rewrite Z.add_0_r, Hr.
  do 3 f_equal. cbn [Nat.mul]. replace 4096%nat with (length data + 3072)%nat by lia.
  rewrite replicate_add, <- (app_nil_l (_ ++ _)), inserts_mid by (rewrite ?length_replicate; done).
  done.
Qed.

(** The sectors hold the bytes of the superblock. *)
Definition sb_on_disk (s : Ext2Fs D) (sb : Ext2Superblock) : Prop :=
  ∃ rest, read_seq (device s) 2 2 = Ok (Ext2Superblock_to_bytes sb ++ rest).

Lemma sb_write_run s sb :
  dev_block_size (device s) = 512 → 4 ≤ num_blocks (device s) →
  ∃ s', Ext2Superblock_write_to sb s = Some (Ok tt, s') ∧
    s' = set_device (device s') s ∧ same_shape s s' ∧ (sb_typed sb → sb_on_disk s' sb) ∧
    ∀ j, j < 2 ∨ 4 ≤ j → read_block (device s') j = read_block (device s) j.
Proof.
  intros Hd Hn. unfold Ext2Superblock_write_to. rewrite (bind_ok _ _ _ _ _ (dev_bs_run s)), Hd.
  change (sb_span 512) with (2, 0, 2). cbn [Z.to_nat Pos.to_nat]. change (Pos.to_nat 2) with 2%nat.
  destruct (read_seq_ok (device s) 2 2) as [data Hr]; [lia|lia|].
  pose proof (read_seq_length _ _ _ _ Hr) as Hl. rewrite Hd in Hl.
  rewrite (bind_ok _ _ _ _ _ (sb_read_run s data Hd Hr)). mstep.
  set (buf := list_inserts (A:=Z) _ _ _). assert (length buf = 4096%nat) as Hlb.
  { unfold buf. rewrite length_inserts, length_app, length_replicate. lia. }
  destruct (write_span_run s 2 2 buf) as (s' & Hs' & Ho & Hss & Hseq & Hfr); [rewrite Hd; lia|lia..|].
  rewrite Hd in Hs', Hseq. exists s'. split; [done|]. split; [done|]. split; [done|]. split; [|done].
  intros Ht. pose proof (length_sb_bytes sb Ht) as Hls. unfold SB_SIZE in Hls.
  exists (drop 924 data). rewrite Hseq. f_equal. unfold buf. rewrite inserts_app_l by lia.
  rewrite take_app_le by (rewrite length_inserts; lia). rewrite take_ge by (rewrite length_inserts; lia).
  rewrite <- (take_drop 924 data) at 1. rewrite <- (app_nil_l (_ ++ _)), inserts_mid; [done|done|].
  rewrite length_take. lia.
Qed.

Lemma sb_on_disk_read s sb :
  dev_block_size (device s) = 512 → sb_typed sb → sb_on_disk s sb → Ext2Superblock_is_valid sb = true →
  Ext2Superblock_read_from s = Some (Ok sb, s).
Proof.
  intros Hd Ht [rest Hr] Hv. unfold Ext2Superblock_read_from. rewrite (bind_ok _ _ _ _ _ (dev_bs_run s)), Hd.
  change (sb_span 512) with (2, 0, 2). cbn [Z.to_nat Pos.to_nat]. change (Pos.to_nat 2) with 2%nat.
  rewrite (bind_ok _ _ _ _ _ (sb_read_run s _ Hd Hr)). mstep. cbn zeta. rewrite drop_0.
  rewrite <- (assoc_L (++)), take_app_length' by (symmetry; by apply length_sb_bytes).
  rewrite <- (app_nil_r (Ext2Superblock_to_bytes sb)), sb_of_to_bytes by done. by rewrite Hv.
Qed.

(** ** The descriptor table *)

Definition block_sizes (bs : Z) : Prop := bs = 1024 ∨ bs = 2048 ∨ bs = 4096.

(** First sector, number of sectors and contents of the table. *)
Definition table_start (bs : Z) : Z := bgdt_block bs * (bs / 512).
Definition table_sectors (bs : Z) (count : nat) : nat :=
  (Z.to_nat (bgdt_blocks bs count) * Z.to_nat (bs / 512))%nat.
Definition table_image (bs : Z) (bgs : list Ext2BlockGroupDesc) : list u8 :=
  list_inserts 0 (concat (map Ext2BlockGroupDesc_to_bytes bgs))
    (replicate (Z.to_nat (bgdt_blocks bs (length bgs) * bs)) 0).

Lemma table_bounds bs count :
  block_sizes bs →
  1 ≤ bgdt_block bs ≤ 2 ∧ 2 ≤ bs / 512 ≤ 8 ∧ bs = bs / 512 * 512 ∧ 0 ≤ bgdt_blocks bs count ∧
  Z.of_nat (count * 32) ≤ bgdt_blocks bs count * bs ∧
  Z.of_nat (table_sectors bs count) * 512 = bgdt_blocks bs count * bs.
Proof.
  intros Hbs. assert (2 ≤ bs / 512 ≤ 8 ∧ bs = bs / 512 * 512) as [Hp Hb]
    by (destruct Hbs as [->|[->| ->]]; vm_compute; split; (split || done); done).
  assert (1 ≤ bgdt_block bs ≤ 2) as Hg by (unfold bgdt_block; case_match; lia).
  assert (0 ≤ bgdt_blocks bs count) as H0 by (apply Z.div_pos; lia).
  split; [done|]. split; [done|]. split; [done|]. split; [done|]. split.
  - unfold bgdt_blocks, BG_SIZE. pose proof (Z.mul_succ_div_gt (Z.of_nat (count * 32) + bs - 1) bs ltac:(lia)). nia.
  - unfold table_sectors. nia.
Qed.

Section table.
Context (s : Ext2Fs D) (sb : Ext2Superblock) (bgs : list Ext2BlockGroupDesc).

Let bs := block_size sb.
Let start := table_start bs.
Let sectors := table_sectors bs (length bgs).

Context (Hbs : block_sizes bs) (Hsec : dev_block_size (device s) = 512)
  (Hfit : start + Z.of_nat sectors ≤ num_blocks (device s)) (Hmax : num_blocks (device s) < 2 ^ 64).

Lemma table_index (i j : nat) :
  (bgdt_block bs + Z.of_nat i) * (bs / 512) + Z.of_nat j = start + Z.of_nat (i * Z.to_nat (bs / 512) + j) ∧
  (i * Z.to_nat bs + j * Z.to_nat 512 = (i * Z.to_nat (bs / 512) + j) * Z.to_nat 512)%nat.
Proof using Hbs bgs sectors. destruct (table_bounds bs 0 Hbs) as (? & ? & ? & _). unfold start, table_start. split; nia. Qed.

Lemma table_write_span :
  Ext2BlockGroupDesc_write_table sb bgs s = write_span start sectors 512 (table_image bs bgs) s.
Proof using Hbs Hsec BlockDeviceLaws0.
  destruct (table_bounds bs (length bgs) Hbs) as (? & ? & ? & ? & ? & Hns).
  unfold Ext2BlockGroupDesc_write_table. fold bs. mstep.
  rewrite (bind_ok _ _ _ _ _ (dev_bs_run s)), Hsec. cbn zeta. fold (table_image bs bgs).
  unfold write_span, sectors, table_sectors.
  rewrite <- (for_range_nested (write_step start 512 (table_image bs bgs)) _ _ 0 () s).
  apply for_range_ext. intros i [] s1 Hi. apply for_range_ext. intros j [] s2 Hj.
  destruct (table_index i j) as [-> ->]. unfold write_step. rewrite bool_decide_true; [done|].
  unfold table_image. rewrite length_inserts, length_replicate. nia.
Qed.

Definition table_on_disk (d : D) : Prop := read_seq d start sectors = Ok (table_image bs bgs).

Lemma table_write_run :
  ∃ s', Ext2BlockGroupDesc_write_table sb bgs s = Some (Ok tt, s') ∧
    s' = set_device (device s') s ∧ same_shape s s' ∧ table_on_disk (device s') ∧
    ∀ j, j < start ∨ start + Z.of_nat sectors ≤ j → read_block (device s') j = read_block (device s) j.
Proof using Type*.
  destruct (table_bounds bs (length bgs) Hbs) as (? & ? & ? & ? & ? & Hns). fold sectors in Hns.
  assert (length (table_image bs bgs) = sectors * 512)%nat as Hl.
  { unfold table_image. rewrite length_inserts, length_replicate. nia. }
  destruct (write_span_run s start sectors (table_image bs bgs)) as (s' & Hs' & Ho & Hss & Hseq & Hfr);
    [rewrite Hsec; lia|unfold start, table_start; nia|lia|done|].
  rewrite Hsec in Hs', Hseq. exists s'. rewrite table_write_span. split; [done|]. split; [done|].
  split; [done|]. split; [|done]. unfold table_on_disk. rewrite Hseq. f_equal. apply take_ge. lia.
Qed.

(** One unchecked step of the loop of [read_table]. *)
Let fetch (k : nat) (buf : list u8) : M D BlockError (list u8) :=
  data ← dev_read (wrap 64 (start + Z.of_nat k)); mret (list_inserts (k * Z.to_nat 512) data buf).

Lemma table_fetch_run data :
  read_seq (device s) start sectors = Ok data →
  for_range sectors 0 fetch (replicate (Z.to_nat (bgdt_blocks bs (length bgs) * bs)) 0) s = Some (Ok data, s).
Proof using Type*.
  intros Hr. pose proof (read_seq_length _ _ _ _ Hr) as Hl. rewrite Hsec in Hl.
  destruct (table_bounds bs (length bgs) Hbs) as (? & ? & ? & ? & ? & Hns). fold sectors in Hns.
  assert (0 ≤ start) as Hst0 by (unfold start, table_start; nia). rewrite <- Hns.
  rewrite (for_range_ext_inv (λ buf, length buf = sectors * 512)%nat _ (read_step start 512)).
  - rewrite read_span_run by (done || rewrite length_replicate; lia).
    rewrite read_blocks_from_seq by (rewrite ?length_replicate, ?Hsec; lia). rewrite Z.add_0_r, Hr.
    do 3 f_equal. apply inserts_all. rewrite length_replicate. lia.
  - intros k buf s1 Hk Hlb. unfold fetch, read_step. rewrite bool_decide_true by nia. done.
  - intros k buf s1 buf' s2 Hlb. unfold read_step. case_bool_decide; [|done].
    unfold mbind, M_bind, dev_read. cbn. destruct (read_block _ _); [|done].
    intros [= <- _]. by rewrite length_inserts.
  - rewrite length_replicate. lia.
Qed.

Lemma decode_table (rest : list u8) :
  Forall bg_typed bgs →
  map (λ i, Ext2BlockGroupDesc_of_bytes
              (take BG_SIZE (drop (i * BG_SIZE) (concat (map Ext2BlockGroupDesc_to_bytes bgs) ++ rest))))
    (seq 0 (length bgs)) = bgs.
Proof using.
  clear. induction 1 as [|bg bgs Hbg Hbgs IH]; [done|]. cbn [map concat length seq].
  pose proof (length_bg_bytes bg Hbg) as Hl. rewrite <- (assoc_L (++)). f_equal.
  - cbn [Nat.mul]. rewrite drop_0, take_app_length' by done.
    rewrite <- (app_nil_r (Ext2BlockGroupDesc_to_bytes bg)). by apply bg_of_to_bytes.
  - rewrite <- seq_shift, map_map. rewrite <- IH at 2. apply map_ext. intros i. do 2 f_equal.
    replace (S i * BG_SIZE)%nat with (length (Ext2BlockGroupDesc_to_bytes bg) + i * BG_SIZE)%nat by lia.
    by rewrite drop_app_add.
Qed.

Lemma table_read_run :
  block_group_count sb = Some (Z.of_nat (length bgs)) → Forall bg_typed bgs → table_on_disk (device s) →
  Ext2BlockGroupDesc_read_table sb s = Some (Ok bgs, s).
Proof using Type*.
  intros Hc Ht Hr. destruct (table_bounds bs (length bgs) Hbs) as (? & ? & ? & ? & ? & Hns).
  unfold Ext2BlockGroupDesc_read_table. fold bs. mstep. rewrite Hc. cbn [lift_option]. mstep.
  rewrite (bind_ok _ _ _ _ _ (dev_bs_run s)), Hsec, Nat2Z.id. cbn zeta.
  erewrite bind_ok; cycle 1.
  { rewrite <- (table_fetch_run _ Hr). unfold sectors, table_sectors. rewrite <- (for_range_nested fetch _ _ 0).
    apply for_range_ext. intros i buf s1 Hi. apply for_range_ext. intros j buf' s2 Hj.
    destruct (table_index i j) as [-> ->]. done. }
  unfold mret, M_ret. do 3 f_equal. unfold table_image.
  assert (length (concat (map Ext2BlockGroupDesc_to_bytes bgs)) = length bgs * 32)%nat as Hl.
  { clear -Ht. induction Ht as [|bg bgs Hbg _ IH]; [done|]. cbn [map concat length].
    rewrite length_app, IH, length_bg_bytes by done. done. }
  set (n := Z.to_nat _).
  replace n with (length bgs * 32 + (n - length bgs * 32))%nat by (unfold n; lia).
  rewrite replicate_add, <- (app_nil_l (_ ++ _)), inserts_mid by (rewrite ?length_replicate; done).
  by apply decode_table.
Qed.
End table.

(** ** Mounting again *)

(** What the superblock and the groups of a mounted file system satisfy. *)
Record sync_wf (s : Ext2Fs D) : Prop := {
  sy_geom : geom s;
  sy_sector : dev_block_size (device s) = 512;
  sy_sb : sb_typed (superblock s) ∧ Ext2Superblock_is_valid (superblock s) = true;
  sy_count : block_group_count (superblock s) = Some (Z.of_nat (length (block_groups s)));
  sy_groups : Forall bg_typed (block_groups s);
  sy_fit : table_start (bsize s) + Z.of_nat (table_sectors (bsize s) (length (block_groups s))) ≤
    num_blocks (device s) < 2 ^ 64;
}.

Definition synced (s : Ext2Fs D) : Prop :=
  sb_on_disk s (superblock s) ∧ table_on_disk (superblock s) (block_groups s) (device s).

Lemma synced_mount s mount_id now :
  sync_wf s → synced s →
  Ext2Fs_new (device s) mount_id now =
  Some (Ok (mkFs (superblock s) (block_groups s) (device s) mount_id now)).
Proof.
  intros [Hg Hd [Hsb Hv] Hc Ht [Hf Hm]] [Hs Htb]. unfold Ext2Fs_new. set (blank := mkFs _ _ _ _ _).
  rewrite (or_err_ok _ _ blank (superblock s) blank) by (by apply sb_on_disk_read). rewrite Hv. cbn [negb].
  rewrite (or_err_ok _ _ blank (block_groups s) blank); [done|].
  apply table_read_run; try done. apply (geom_bsize s Hg).
Qed.

(** [commit_superblock] followed by [commit_groups] *)
Lemma commit_run msg f s :
  sync_wf (set_superblock (f (superblock s)) s) →
  ∃ s', (commit_superblock msg f;; commit_groups) s = Some (Ok tt, s') ∧
    s' = set_device (device s') (set_superblock (f (superblock s)) s) ∧ sync_wf s' ∧ synced s' ∧
    same_shape (set_superblock (f (superblock s)) s) s' ∧
    ∀ j, j < 2 ∨ 4 ≤ j → j < table_start (bsize s') ∨
      table_start (bsize s') + Z.of_nat (table_sectors (bsize s') (length (block_groups s'))) ≤ j →
      read_block (device s') j = read_block (device s) j.
Proof.
  set (s0 := set_superblock _ s). intros [Hg Hd [Hsb Hv] Hc Ht [Hf Hm]].
  pose proof (geom_bsize s0 Hg) as Hbs.
  destruct (table_bounds (bsize s0) (length (block_groups s0)) Hbs) as (Hb & Hp & Hpb & Hn0 & Hn & Hsec).
  assert (4 ≤ table_start (bsize s0)) as H4.
  { unfold table_start, bgdt_block. destruct Hbs as [->|[->| ->]]; vm_compute; congruence. }
  destruct (sb_write_run s0 (superblock s0)) as (s1 & Hr1 & Ho1 & (Hss1 & Hd1 & Hn1) & Hon1 & Hfr1); [done|lia|].
  assert (block_groups s1 = block_groups s0) as Hg1 by (by rewrite Ho1).
  destruct (table_write_run s1 (superblock s1) (block_groups s1)) as (s2 & Hr2 & Ho2 & Hss2 & Hon2 & Hfr2).
  { by rewrite Hss1. } { by rewrite Hd1. } { by rewrite Hss1, Hg1, Hn1. } { by rewrite Hn1. }
  assert (s2 = set_device (device s2) s0) as Ho by (rewrite Ho2, Ho1; done).
  assert (bsize s2 = bsize s0 ∧ block_groups s2 = block_groups s0) as [Hbs2 Hg2] by (by rewrite Ho).
  assert (same_shape s0 s2) as Hss by (eapply same_shape_trans; [|exact Hss2]; by split).
  exists s2. split; [|split; [done|split; [|split; [|split; [done|]]]]].
  - rewrite (bind_ok _ _ s tt s1).
    + unfold commit_groups. do 2 mstep. by apply or_err_ok.
    + unfold commit_superblock. rewrite (bind_ok _ _ s tt s0) by done. mstep. by apply or_err_ok.
  - pose proof (same_shape_geom _ _ Hss Hg). destruct Hss as (Hssb & Hsd & Hsn).
    split; rewrite ?Hbs2, ?Hsd, ?Hsn, ?Hssb, ?Hg2; done.
  - split.
    + destruct (Hon1 Hsb) as [rest Hrest]. exists rest. destruct Hss as (-> & _). rewrite <- Hrest.
      apply read_seq_ext. intros j Hj. apply Hfr2. rewrite Hss1. fold (bsize s0). lia.
    + unfold table_on_disk in *. rewrite Hg2, (proj1 Hss). rewrite Hss1, Hg1 in Hon2. exact Hon2.
  - intros j Hj Hj'. rewrite Hbs2, Hg2 in Hj'. rewrite Hfr2; [by apply Hfr1|]. by rewrite Hss1, Hg1.
Qed.
End sync.
