(* ===== verification/Ext2Meta.v ===== *)
(** * ext2: the metadata regions

    An ext2 disk keeps five kinds of metadata: the block bitmaps, the inode
    bitmaps, the inode tables, the superblock and the group descriptors.
    [layout_wf] says that they are on the device and do not overlap. A step
    of a namespace operation is [changed X]: the geometry stays and no block
    outside [X] is written. The file gives the steps ([allocate_inode], the
    writes of an inode, of the superblock, of the descriptors and of the
    blocks of a directory) with the region each one changes, and shows what a
    step that stays away from a bitmap, an inode or a file leaves alone. *)

From S2P Require Import Prelude Bytes BlockDev Ext2Layout Ext2Core Ext2Blocks Ext2Alloc Ext2File Ext2Fs Ext2Map Ext2Write Ext2Range Ext2Read Ext2Sync.

(** ** The scan of the inode bitmap *)

Lemma find_free_inode_spec k bm bs first base local :
  0 ≤ local → local + Z.of_nat k ≤ 8 * bs → 0 ≤ base → base + local + Z.of_nat k < 2 ^ 32 →
  match find_free_inode k bm bs first base local with
  | Some l => local ≤ l < local + Z.of_nat k ∧ bit_is_free bm l = true ∧ first ≤ base + l + 1
  | None => ∀ l, local ≤ l < local + Z.of_nat k → first ≤ base + l + 1 → bit_is_free bm l = false
  end.
Proof.
  revert local. induction k as [|k IH]; intros local Hl Hb H0 Hw; cbn [find_free_inode]; [lia|].
  assert (local / 8 < bs) as Hq by (apply Z.div_lt_upper_bound; lia).
  rewrite wrap_small by (unfold in_width; lia). specialize (IH (local + 1) ltac:(lia) ltac:(lia) H0 ltac:(lia)).
  rewrite (proj2 (Z.leb_gt _ _)) by done.
  assert (∀ l, local ≤ l → l ≠ local → local + 1 ≤ l) as Hnext by lia.
  destruct (Z.ltb_spec (base + local + 1) first); [|destruct (bit_is_free bm local) eqn:Hf; [by split; [lia|]|]].
  all: destruct (find_free_inode k bm bs first base (local + 1)) as [l|];
    [destruct IH as (? & ? & ?); split; [lia|done]|].
  all: intros l Hll Hfirst; destruct (decide (l = local)) as [->|]; [by lia || done|apply IH; lia].
Qed.

Section meta.
Context {D : Type} `{BlockDevice D, !BlockDeviceLaws D, !ReliableDevice D}.
Implicit Types (s : Ext2Fs D) (b n : u32).

(** ** What no step changes *)

Definition sb_geometry (sb : Ext2Superblock) : list Z :=
  [s_log_block_size sb; s_blocks_per_group sb; s_first_data_block sb; s_inodes_per_group sb;
   s_rev_level sb; s_inode_size sb; s_first_ino sb].

Definition bg_static (bg : Ext2BlockGroupDesc) : list Z :=
  [bg_block_bitmap bg; bg_inode_bitmap bg; bg_inode_table bg; bg_free_blocks_count bg].

Record static (s s' : Ext2Fs D) : Prop := {
  st_sb : sb_geometry (superblock s') = sb_geometry (superblock s);
  st_groups : map bg_static (block_groups s') = map bg_static (block_groups s);
  st_sector : dev_block_size (device s') = dev_block_size (device s);
  st_device : num_blocks (device s') = num_blocks (device s);
}.

#[export] Instance static_equivalence : Equivalence static.
Proof.
  split.
  - by intros s.
  - by intros s s' [].
  - intros s1 s2 s3 [] []. split; congruence.
Qed.

(** The fields of the superblock that every address is computed from. *)
Lemma static_fields s s' :
  static s s' →
  s_log_block_size (superblock s') = s_log_block_size (superblock s) ∧
  s_inodes_per_group (superblock s') = s_inodes_per_group (superblock s) ∧
  inode_size (superblock s') = inode_size (superblock s) ∧
  bpg s' = bpg s ∧ first_block s' = first_block s.
Proof.
  intros [Hsb _ _ _]. unfold sb_geometry in Hsb. injection Hsb as H1 H2 H3 H4 H5 H6 _.
  unfold inode_size, bpg, first_block. rewrite H5, H6. done.
Qed.

Lemma static_bsize s s' : static s s' → bsize s' = bsize s.
Proof. intros (Hl & _)%static_fields. unfold bsize, block_size. by rewrite Hl. Qed.

Lemma static_per s s' : static s s' → per s' = per s.
Proof. intros Hst. unfold per. by rewrite (static_bsize _ _ Hst), (st_sector _ _ Hst). Qed.

Lemma static_ppb s s' : static s s' → ppb s' = ppb s.
Proof. intros Hst. unfold ppb. by rewrite (static_bsize _ _ Hst). Qed.

Lemma static_geom s s' : static s s' → geom s → geom s'.
Proof.
  intros Hst [Hl Hd]. pose proof (static_fields _ _ Hst) as (Hlog & _).
  split; rewrite ?Hlog, ?(static_bsize _ _ Hst), ?(st_sector _ _ Hst); done.
Qed.

Lemma static_on_device s s' b : static s s' → on_device s' b ↔ on_device s b.
Proof. intros Hst. unfold on_device. by rewrite (static_per _ _ Hst), (st_device _ _ Hst). Qed.

Lemma static_length s s' : static s s' → length (block_groups s') = length (block_groups s).
Proof. intros Hst. by rewrite <- (length_map bg_static), (st_groups _ _ Hst), length_map. Qed.

Lemma static_group s s' i bg' :
  static s s' → block_groups s' !! i = Some bg' →
  ∃ bg, block_groups s !! i = Some bg ∧ bg_static bg = bg_static bg'.
Proof.
  intros Hst Hi. assert (map bg_static (block_groups s) !! i = Some (bg_static bg')) as Hm.
  { rewrite <- (st_groups _ _ Hst). erewrite list_lookup_fmap. by rewrite Hi. }
  erewrite list_lookup_fmap in Hm. destruct (block_groups s !! i) as [bg|]; [|done].
  exists bg. split; [done|]. by apply (inj Some) in Hm.
Qed.

Lemma bg_static_inv bg bg' :
  bg_static bg = bg_static bg' →
  bg_block_bitmap bg = bg_block_bitmap bg' ∧ bg_inode_bitmap bg = bg_inode_bitmap bg' ∧
  bg_inode_table bg = bg_inode_table bg' ∧ bg_free_blocks_count bg = bg_free_blocks_count bg'.
Proof. by intros [= -> -> -> ->]. Qed.

Lemma static_data_range s s' b : static s s' → data_range s' b ↔ data_range s b.
Proof.
  intros Hst. pose proof (static_fields _ _ Hst) as (_ & _ & _ & Hb & Hf).
  unfold data_range. by rewrite Hb, Hf, (static_length _ _ Hst).
Qed.

Lemma static_itable_len s s' : static s s' → itable_len s' = itable_len s.
Proof.
  intros Hst. pose proof (static_fields _ _ Hst) as (_ & Hi & Hz & _).
  unfold itable_len. by rewrite Hi, Hz, (static_bsize _ _ Hst).
Qed.

Lemma static_inode s s' bg bg' n :
  static s s' → bg_static bg' = bg_static bg →
  inode_group s' n = inode_group s n ∧ inode_off s' n = inode_off s n ∧
  inode_block s' bg' n = inode_block s bg n.
Proof.
  intros Hst (_ & _ & Ht & _)%bg_static_inv. pose proof (static_fields _ _ Hst) as (_ & Hi & Hz & _).
  unfold inode_group, inode_block, inode_off, inode_byte.
  by rewrite Hi, Hz, (static_bsize _ _ Hst), Ht.
Qed.

Lemma static_valid_inode s s' n bg :
  static s s' → valid_inode s n bg → ∃ bg', valid_inode s' n bg' ∧ bg_static bg' = bg_static bg.
Proof.
  intros Hst [Hn Hbg]. destruct (static_group s' s _ bg (symmetry Hst) Hbg) as (bg' & Hbg' & Heq).
  exists bg'. split; [|done]. split; [done|].
  by destruct (static_inode s s' bg bg' n Hst Heq) as (-> & _ & _).
Qed.

Lemma static_itable s s' : static s s' → itable s → itable s'.
Proof.
  intros Hst [H1 H2 H3 H4 H5 H6]. pose proof (static_fields _ _ Hst) as (_ & Hi & Hz & _).
  split; rewrite ?(static_itable_len _ _ Hst), ?Hi, ?Hz, ?(static_bsize _ _ Hst); [done..| |].
  - intros i bg Hbg. destruct (static_group _ _ _ _ Hst Hbg) as (bg0 & Hbg0 & (_ & _ & <- & _)%bg_static_inv).
    by apply (H5 i).
  - intros i j bg bg' Hbg Hbg' Hne.
    destruct (static_group _ _ _ _ Hst Hbg) as (bg0 & Hbg0 & (_ & _ & <- & _)%bg_static_inv).
    destruct (static_group _ _ _ _ Hst Hbg') as (bg1 & Hbg1 & (_ & _ & <- & _)%bg_static_inv).
    by apply (H6 i j).
Qed.

(** ** Regions *)

Inductive region := BlockBitmap | InodeBitmap | InodeTable | SuperBlock | GroupTable.

(** The block that holds byte 1024. *)
Definition sb_block (s : Ext2Fs D) : u32 := if bsize s =? 1024 then 1 else 0.

Definition in_region (s : Ext2Fs D) (r : region) (b : u32) : Prop :=
  match r with
  | BlockBitmap => is_bitmap s b
  | InodeBitmap => ∃ i bg, block_groups s !! i = Some bg ∧ bg_inode_bitmap bg = b
  | InodeTable => ∃ i bg, block_groups s !! i = Some bg ∧
      bg_inode_table bg ≤ b < bg_inode_table bg + itable_len s
  | SuperBlock => b = sb_block s
  | GroupTable => bgdt_block (bsize s) ≤ b <
      bgdt_block (bsize s) + bgdt_blocks (bsize s) (length (block_groups s))
  end.

Lemma in_region_static s s' r b : static s s' → in_region s' r b ↔ in_region s r b.
Proof.
  assert (∀ s s', static s s' → in_region s' r b → in_region s r b) as Himp.
  { clear s s'. intros s s' Hst. destruct r; unfold in_region, is_bitmap, sb_block;
      rewrite ?(static_bsize _ _ Hst), ?(static_length _ _ Hst), ?(static_itable_len _ _ Hst); try done;
      intros (i & bg & Hbg & Hb); destruct (static_group _ _ _ _ Hst Hbg) as (bg0 & Hbg0 & Heq);
      apply bg_static_inv in Heq as (H1 & H2 & H3 & _); exists i, bg0; (split; [done|]); lia. }
  intros Hst. split; apply Himp; [done|by symmetry].
Qed.

Record layout_wf (s : Ext2Fs D) : Prop := {
  lw_alloc : alloc_wf s;
  lw_itable : itable s;
  lw_sector : dev_block_size (device s) = 512;
  lw_ipg : s_inodes_per_group (superblock s) ≤ 8 * bsize s;
  lw_inodes : Z.of_nat (length (block_groups s)) * s_inodes_per_group (superblock s) < 2 ^ 32;
  lw_disjoint r r' b : in_region s r b → in_region s r' b → r = r';
  lw_device r b : in_region s r b → on_device s b ∧ in_width 32 b;
  lw_distinct i j bg bg' : block_groups s !! i = Some bg → block_groups s !! j = Some bg' →
    bg_inode_bitmap bg = bg_inode_bitmap bg' → i = j;
}.

Lemma inode_block_region s n bg :
  geom s → itable s → valid_inode s n bg → in_region s InodeTable (inode_block s bg n).
Proof.
  intros Hg Hit Hv. destruct (inode_block_bound s n bg Hg Hit Hv) as [Hb _].
  destruct Hv as [_ Hbg]. by eexists _, bg.
Qed.

(** ** Steps *)

Record changed (X : u32 → Prop) (s s' : Ext2Fs D) : Prop := {
  ch_static : static s s';
  ch_data b : in_width 32 b → ¬ X b → block_data s' b = block_data s b;
}.

Lemma changed_trans (X Y : u32 → Prop) s1 s2 s3 :
  changed X s1 s2 → changed Y s2 s3 → changed (λ b, X b ∨ Y b) s1 s3.
Proof.
  intros [Hs1 H1] [Hs2 H2]. split; [by transitivity s2|].
  intros b Hb Hn. rewrite H2, H1 by (done || tauto). done.
Qed.

Lemma changed_weaken (X Y : u32 → Prop) s s' : (∀ b, X b → Y b) → changed X s s' → changed Y s s'.
Proof. intros HXY [Hs Hd]. split; [done|]. intros b Hb Hn. apply Hd; auto. Qed.

(** A step that touches neither device nor groups, as reading the clock. *)
Lemma changed_same X s s' :
  sb_geometry (superblock s') = sb_geometry (superblock s) → block_groups s' = block_groups s →
  device s' = device s → changed X s s'.
Proof.
  intros Hsb Hbg Hd. assert (static s s') as Hst by (split; congruence).
  split; [done|]. intros b _ _. unfold block_data. by rewrite (static_per _ _ Hst), Hd.
Qed.

Section frame.
Context (X : u32 → Prop) (s s' : Ext2Fs D) (Hch : changed X s s').

Let Hst : static s s' := ch_static _ _ _ Hch.

Lemma changed_block_free b :
  alloc_wf s → (∀ b, in_region s BlockBitmap b → ¬ X b) → block_free s' b = block_free s b.
Proof using Hch.
  intros Hwf HX. pose proof (static_fields _ _ Hst) as (_ & _ & _ & Hb & Hf).
  unfold block_free, block_group_of, local_of. rewrite Hb, Hf.
  destruct (block_groups s' !! _) as [bg'|] eqn:Hbg'.
  - destruct (static_group _ _ _ _ Hst Hbg') as (bg & Hbg & (Heq & _)%bg_static_inv). rewrite Hbg, <- Heq.
    destruct (aw_group s Hwf _ _ Hbg) as [bm Hg].
    rewrite (ch_data _ _ _ Hch); [done|apply (gw_bitmap _ _ _ _ Hg)|]. apply HX. by eexists _, bg.
  - destruct (block_groups s !! _) as [bg|] eqn:Hbg; [|done].
    destruct (static_group s' s _ _ (symmetry Hst) Hbg) as (bg' & Hbg'' & _). congruence.
Qed.

Lemma changed_alloc_wf :
  alloc_wf s → (∀ b, in_region s BlockBitmap b → ¬ X b) → alloc_wf s'.
Proof using Hch.
  intros Hwf HX. pose proof (static_fields _ _ Hst) as (_ & _ & _ & Hb & Hf). destruct (Hwf) as [H1 H2 H3 H4 H5 H6].
  split; rewrite ?Hb, ?Hf, ?(static_bsize _ _ Hst), ?(static_length _ _ Hst); [by eapply static_geom|done|done|..].
  - intros i bg' Hbg'. destruct (static_group _ _ _ _ Hst Hbg') as (bg & Hbg & (Heq & _ & _ & Hc)%bg_static_inv).
    destruct (H4 i bg Hbg) as [bm [G1 G2 G3 [G4 G5]]]. exists bm. split; rewrite <- ?Heq, <- ?Hc, ?Hb; [done| |done|].
    + rewrite (ch_data _ _ _ Hch); [done|done|]. apply HX. by exists i, bg.
    + rewrite (static_data_range _ _ _ Hst), changed_block_free by done. done.
  - intros i j bg bg' Hi Hj. destruct (static_group _ _ _ _ Hst Hi) as (bg0 & Hi0 & (<- & _)%bg_static_inv).
    destruct (static_group _ _ _ _ Hst Hj) as (bg1 & Hj0 & (<- & _)%bg_static_inv). by apply (H5 i j).
  - intros b. rewrite (static_data_range _ _ _ Hst), changed_block_free, (static_on_device _ _ _ Hst) by done.
    pose proof (in_region_static s s' BlockBitmap b Hst) as Hr. cbn in Hr. rewrite Hr. apply H6.
Qed.

Lemma changed_layout_wf :
  layout_wf s → (∀ b, in_region s BlockBitmap b → ¬ X b) → layout_wf s'.
Proof using Hch.
  intros [H1 H2 H3 H4 H5 H6 H7 H8] HX. pose proof (static_fields _ _ Hst) as (_ & Hi & _).
  split; rewrite ?Hi, ?(static_bsize _ _ Hst), ?(static_length _ _ Hst), ?(st_sector _ _ Hst); [..|done| | |].
  - by apply changed_alloc_wf.
  - by eapply static_itable.
  - done.
  - done.
  - intros r r' b. rewrite !(in_region_static s s') by done. apply H6.
  - intros r b. rewrite (in_region_static s s'), (static_on_device s s') by done. apply H7.
  - intros i j bg bg' Hbg Hbg'. destruct (static_group _ _ _ _ Hst Hbg) as (bg0 & Hi0 & (_ & <- & _)%bg_static_inv).
    destruct (static_group _ _ _ _ Hst Hbg') as (bg1 & Hj0 & (_ & <- & _)%bg_static_inv). by apply (H8 i j).
Qed.

Lemma changed_good b :
  alloc_wf s → (∀ b, in_region s BlockBitmap b → ¬ X b) → good s b → good s' b.
Proof using Hch.
  intros Hwf HX [H1 H2 H3 H4]. split.
  - by rewrite (static_data_range s s').
  - by rewrite changed_block_free.
  - intros Hb. apply H3. by apply (in_region_static s s' BlockBitmap b Hst).
  - by rewrite (static_on_device s s').
Qed.

(** An inode whose block is not written reads as before. *)
Lemma changed_inode n bg :
  geom s → itable s → valid_inode s n bg → ¬ X (inode_block s bg n) →
  fst <$> Ext2Inode_read_from n s' = fst <$> Ext2Inode_read_from n s.
Proof using Hch BlockDeviceLaws0.
  intros Hg Hit Hv HX. destruct (static_valid_inode s s' n bg Hst Hv) as (bg' & Hv' & Heq).
  rewrite (inode_read_run s n bg Hg Hit Hv).
  rewrite (inode_read_run s' n bg') by (done || by eapply static_geom || by eapply static_itable).
  destruct (static_inode s s' bg bg' n Hst Heq) as (_ & -> & ->).
  rewrite (ch_data _ _ _ Hch); [done|by apply inode_block_bound|done].
Qed.
End frame.

(** A file none of whose blocks is written. *)
Lemma changed_file X s s' ino :
  changed X s s' → alloc_wf s → (∀ b, in_region s BlockBitmap b → ¬ X b) → tree_wf s ino →
  (∀ a, valid_addr s a → node s ino a ≠ 0 → ¬ X (node s ino a)) →
  tree_wf s' ino ∧ (∀ a, valid_addr s a → node s' ino a = node s ino a) ∧
  ∀ k, 0 ≤ k < max_blocks s * bsize s → file_byte s' ino k = file_byte s ino k.
Proof.
  intros Hch Hwf HX Ht HXn. apply file_unchanged; [apply (aw_geom s Hwf)|apply static_bsize, Hch|done|..].
  - intros a Ha Hn. apply (changed_good X s s' Hch); [done..|]. by apply (tw_good s ino Ht).
  - intros a Ha Hn. apply (ch_data _ _ _ Hch); [|by apply HXn].
    by apply (good_width s), (tw_good s ino Ht).
Qed.

(** ** Writing an inode *)

(** Nothing of the mounted state but the device changes. *)
Definition only_device (s s' : Ext2Fs D) : Prop := s' = set_device (device s') s.

Lemma write_device s s' n : 
  geom s → same_shape s s' → only_device s s' →
  (∀ n', in_width 32 n' → n' ≠ n → block_data s' n' = block_data s n') →
  changed (eq n) s s'.
Proof.
  intros Hg (Hsb & Hd & Hn) Ho Hfr. split.
  - split; [congruence| |done|done]. rewrite Ho. done.
  - intros b Hb Hne. apply Hfr; [done|]. congruence.
Qed.

Lemma inode_put_run s n bg i :
  layout_wf s → valid_inode s n bg → inode_typed i →
  ∃ s', Ext2Inode_write_to n i s = Some (Ok tt, s') ∧ only_device s s' ∧
    changed (eq (inode_block s bg n)) s s' ∧
    Ext2Inode_read_from n s' = Some (Ok i, s') ∧
    ∀ m bg', valid_inode s m bg' → m ≠ n →
      fst <$> Ext2Inode_read_from m s' = fst <$> Ext2Inode_read_from m s.
Proof.
  intros Hl Hv Hi. pose proof (aw_geom s (lw_alloc s Hl)) as Hg. pose proof (lw_itable s Hl) as Hit.
  destruct (lw_device s Hl _ _ (inode_block_region s n bg Hg Hit Hv)) as [Hon Hw].
  destruct (inode_write_reliable n bg i s) as [s' Hrun]; [done..|]. exists s'. split; [done|].
  destruct (inode_write_read s n bg i s') as (Hr & Hother & Hfr); [done..|].
  destruct (block_data_ok s (inode_block s bg n) Hg (proj1 Hw) Hon) as [b Hb].
  destruct (inode_write_run s n bg i b) as (d' & r & Hrun' & Hss & _); [done..|].
  rewrite Hrun in Hrun'. injection Hrun' as <- ->. split; [done|]. split; [|done].
  by apply write_device.
Qed.

(** ** Allocating an inode *)

Definition ipg (s : Ext2Fs D) : Z := s_inodes_per_group (superblock s).

Definition first_inode (s : Ext2Fs D) : Z :=
  if s_rev_level (superblock s) =? 0 then EXT2_FIRST_INO else s_first_ino (superblock s).

Definition inode_free (s : Ext2Fs D) (n : u32) : bool :=
  match block_groups s !! Z.to_nat (inode_group s n) with
  | Some bg =>
      match block_data s (bg_inode_bitmap bg) with
      | Ok bm => bit_is_free bm ((n - 1) mod ipg s)
      | Err _ => false
      end
  | None => false
  end.

(** Inode [l] of group [i]. *)
Definition nth_inode (s : Ext2Fs D) (i : nat) (l : Z) : u32 := Z.of_nat i * ipg s + l + 1.

Lemma nth_inode_group s i l :
  0 < ipg s → 0 ≤ l < ipg s →
  Z.to_nat (inode_group s (nth_inode s i l)) = i ∧ (nth_inode s i l - 1) mod ipg s = l.
Proof.
  intros Hi Hl. unfold inode_group, nth_inode. fold (ipg s).
  replace (Z.of_nat i * ipg s + l + 1 - 1) with (l + Z.of_nat i * ipg s) by lia.
  rewrite Z.div_add, Z.mod_add, Z.div_small, Z.mod_small by lia. split; lia.
Qed.

Lemma inode_split s n :
  0 < ipg s → 1 ≤ n →
  n = nth_inode s (Z.to_nat (inode_group s n)) ((n - 1) mod ipg s) ∧ 0 ≤ (n - 1) mod ipg s < ipg s.
Proof.
  intros Hi Hn. unfold inode_group, nth_inode. fold (ipg s).
  pose proof (Z.div_mod (n - 1) (ipg s) ltac:(lia)). pose proof (Z.mod_pos_bound (n - 1) (ipg s) Hi).
  pose proof (Z.div_pos (n - 1) (ipg s) ltac:(lia) Hi). split; [lia|done].
Qed.

Lemma nth_inode_valid s i l bg :
  layout_wf s → block_groups s !! i = Some bg → 0 ≤ l < ipg s →
  valid_inode s (nth_inode s i l) bg ∧ nth_inode s i l < 2 ^ 32.
Proof.
  intros Hwf Hbg Hl. pose proof (it_ipg s (lw_itable s Hwf)) as Hi. fold (ipg s) in Hi.
  pose proof (lw_inodes s Hwf) as Hn. fold (ipg s) in Hn. pose proof (lookup_lt_Some _ _ _ Hbg) as Hlt.
  assert (1 ≤ nth_inode s i l < 2 ^ 32) as Hr by (unfold nth_inode; nia).
  split; [|lia]. split; [done|]. by rewrite (proj1 (nth_inode_group s i l Hi Hl)).
Qed.

(** [n] is taken out of the set of free inodes; nothing else changes. *)
Record inode_taken (s s' : Ext2Fs D) (n : u32) : Prop := {
  ta_valid : ∃ bg, valid_inode s n bg;
  ta_free : inode_free s n = true;
  ta_first : first_inode s ≤ n;
  ta_sb : superblock s' = superblock s;
  ta_clock : clock s' = clock s;
  ta_changed : changed (in_region s InodeBitmap) s s';
  ta_sync : sync_wf s → sync_wf s';
  ta_set m bg : valid_inode s m bg → inode_free s' m = if m =? n then false else inode_free s m;
}.

(** No inode that may be handed out is free. *)
Definition no_free_inode (s : Ext2Fs D) : Prop :=
  ∀ n bg, valid_inode s n bg → first_inode s ≤ n → inode_free s n = false.

(** No inode that may be handed out is free in a group whose count is not
    zero, the groups the allocator searches. *)
Definition inodes_exhausted (s : Ext2Fs D) : Prop :=
  ∀ n bg, valid_inode s n bg → first_inode s ≤ n → bg_free_inodes_count bg ≠ 0 → inode_free s n = false.

(** A group whose descriptor counts no free inode has none. *)
Definition zero_counts_ok (s : Ext2Fs D) : Prop :=
  ∀ n bg, valid_inode s n bg → first_inode s ≤ n → bg_free_inodes_count bg = 0 → inode_free s n = false.

Lemma inodes_exhausted_none s : inodes_exhausted s → zero_counts_ok s → no_free_inode s.
Proof. intros He Hz n bg Hv Hn. destruct (decide (bg_free_inodes_count bg = 0)); by eauto. Qed.

Lemma map_static_alter f i (bgs : list Ext2BlockGroupDesc) :
  (∀ bg, bg_static (f bg) = bg_static bg) → map bg_static (alter f i bgs) = map bg_static bgs.
Proof.
  intros Hf. revert i. induction bgs as [|bg bgs IH]; intros [|i]; [done..| |]; cbn; f_equal; [apply Hf|apply IH].
Qed.

Lemma set_group_changed X s f i :
  (∀ bg, bg_static (f bg) = bg_static bg) → changed X s (set_group i f s).
Proof.
  intros Hf. assert (static s (set_group i f s)) as Hst by (split; [done|by apply map_static_alter|done|done]).
  split; [done|]. intros b _ _. unfold block_data. by rewrite (static_per _ _ Hst).
Qed.

Lemma bg_count_typed bg c : fits 2 c → bg_typed bg → bg_typed (set_bg_free_inodes_count c bg).
Proof.
  intros Hc [Hf Hr]. split; [|done]. destruct bg. unfold BG_WIDTHS, Ext2BlockGroupDesc_fields in *. cbn in *.
  repeat match goal with H : Forall2 _ (_ :: _) (_ :: _) |- _ => apply Forall2_cons in H as [? H] end.
  by repeat apply Forall2_cons_2.
Qed.

(** The file system stays well formed when one count goes down. *)
Lemma set_group_sync s s1 i bg :
  block_groups s !! i = Some bg → bg_free_inodes_count bg ≠ 0 → same_shape s s1 → only_device s s1 →
  sync_wf s → sync_wf (set_group i (set_bg_free_inodes_count (bg_free_inodes_count bg - 1)) s1).
Proof.
  intros Hbg Hc Hss Ho [Hg Hd Hsb Hn Ht Hf]. pose proof (same_shape_bsize _ _ Hss) as Hbs.
  pose proof (same_shape_geom _ _ Hss Hg) as Hg1. assert (block_groups s1 = block_groups s) as Hg2 by (by rewrite Ho).
  destruct Hss as (Hs & Hds & Hnb).
  split; unfold set_group, bsize; cbn; rewrite ?length_alter, ?Hs, ?Hds, ?Hnb, ?Hg2; try done.
  - destruct Hg1 as [H1 H2]. split; cbn; done.
  - apply Forall_lookup. intros j bgj Hj. pose proof (proj1 (Forall_lookup _ _) Ht) as Hty.
    destruct (decide (j = i)) as [->|Hne]; [|rewrite list_lookup_alter_ne in Hj by done; by eapply Hty].
    rewrite list_lookup_alter_eq, Hbg in Hj. injection Hj as <-. pose proof (Hty _ _ Hbg) as Hbt.
    apply bg_count_typed; [|done]. destruct Hbt as [Hfs _]. destruct bg.
    unfold BG_WIDTHS, Ext2BlockGroupDesc_fields in Hfs. cbn in *.
    repeat match goal with H : Forall2 _ (_ :: _) (_ :: _) |- _ => apply Forall2_cons in H as [? H] end.
    unfold fits, in_width in *. lia.
Qed.

Lemma take_inode s s1 i bg bm l :
  layout_wf s → block_groups s !! i = Some bg → block_data s (bg_inode_bitmap bg) = Ok bm →
  0 ≤ l < ipg s → bit_is_free bm l = true → first_inode s ≤ nth_inode s i l →
  bg_free_inodes_count bg ≠ 0 →
  write_ext2_block (bg_inode_bitmap bg) (bsize s) (bitmap_set bm l) s = Some (Ok tt, s1) →
  inode_taken s (set_group i (set_bg_free_inodes_count (bg_free_inodes_count bg - 1)) s1) (nth_inode s i l).
Proof.
  intros Hwf Hbg Hbm Hl Hfree Hfirst Hcnt Hw. pose proof (aw_geom s (lw_alloc s Hwf)) as Hg.
  pose proof (it_ipg s (lw_itable s Hwf)) as Hi. fold (ipg s) in Hi.
  pose proof (block_data_length s _ bm Hg Hbm) as Hlen.
  assert (in_region s InodeBitmap (bg_inode_bitmap bg)) as Hreg by (by exists i, bg).
  destruct (lw_device s Hwf _ _ Hreg) as [_ Hwd].
  destruct (write_ext2_block_ok (bg_inode_bitmap bg) (bitmap_set bm l) s s1) as (Ho & Hss & Hd1 & Hfr);
    [done|done|by rewrite length_bitmap_set|done|].
  pose proof (write_device s s1 _ Hg Hss Ho Hfr) as Hch1.
  set (s' := set_group _ _ s1). assert (∀ X, changed X s1 s') as Hch2 by (intros X; by apply set_group_changed).
  assert (changed (eq (bg_inode_bitmap bg)) s s') as Hch.
  { eapply changed_weaken; [|by eapply changed_trans, (Hch2 (λ _, False))]. by intros b [?|[]]. }
  destruct (nth_inode_group s i l Hi Hl) as [Hgrp Hloc].
  destruct (nth_inode_valid s i l bg Hwf Hbg Hl) as [Hv _].
  split; [by exists bg| |done|unfold s'; cbn; apply Hss|unfold s'; cbn; by rewrite Ho| | |].
  - unfold inode_free. by rewrite Hgrp, Hbg, Hbm, Hloc.
  - eapply changed_weaken; [|exact Hch]. by intros b <-.
  - by apply set_group_sync.
  - intros m bgm Hm. destruct (static_valid_inode s s' m bgm (ch_static _ _ _ Hch) Hm) as (bg' & [_ Hbg'] & Heq).
    apply bg_static_inv in Heq as (_ & Heq & _). unfold inode_free at 1. rewrite Hbg', Heq.
    assert (ipg s' = ipg s) as -> by (apply static_fields, Hch).
    destruct Hm as [Hm Hbgm]. destruct (inode_split s m Hi (proj1 Hm)) as [Hms Hml].
    assert (block_data s' (bg_inode_bitmap bg) = Ok (bitmap_set bm l)) as Hd'.
    { rewrite (ch_data _ _ _ (Hch2 (λ _, False))) by (done || tauto). done. }
    unfold inode_free. rewrite Hbgm. destruct (decide (Z.to_nat (inode_group s m) = i)) as [Hmi|Hmi].
    + assert (bgm = bg) as -> by congruence. rewrite Hd', Hbm.
      rewrite bitmap_set_free by (unfold covered; pose proof (lw_ipg s Hwf); fold (ipg s) in *; lia).
      destruct (Z.eqb_spec m (nth_inode s i l)) as [->|Hne].
      * rewrite Hloc. by rewrite Z.eqb_refl.
      * rewrite (proj2 (Z.eqb_neq l _)); [done|]. congruence.
    + rewrite (ch_data _ _ _ Hch).
      * rewrite (proj2 (Z.eqb_neq m _)); [done|]. intros ->. by rewrite Hgrp in Hmi.
      * apply (lw_device s Hwf InodeBitmap). by eexists _, bgm.
      * intros Hb. apply Hmi. by eapply (lw_distinct s Hwf).
Qed.

Lemma allocate_inode_in_run s rest : ∀ i,
  layout_wf s → drop i (block_groups s) = rest →
  (∀ n bg, (Z.to_nat (inode_group s n) < i)%nat → valid_inode s n bg → first_inode s ≤ n →
     bg_free_inodes_count bg ≠ 0 → inode_free s n = false) →
  (∃ n s', allocate_inode_in rest i s = Some (Ok n, s') ∧ inode_taken s s' n) ∨
  (allocate_inode_in rest i s = Some (Err "No free inodes available"%string, s) ∧ inodes_exhausted s).
Proof.
  induction rest as [|bg rest IH]; intros i Hwf Hrest Hno; cbn [allocate_inode_in].
  { right. split; [done|]. intros n bg Hv. apply (Hno n bg); [|done].
    apply (f_equal length) in Hrest. rewrite length_drop in Hrest. cbn in Hrest.
    destruct Hv as [_ Hv]. apply lookup_lt_Some in Hv. lia. }
  assert (block_groups s !! i = Some bg) as Hbg.
  { rewrite <- (Nat.add_0_r i), <- lookup_drop, Hrest. done. }
  assert (drop (S i) (block_groups s) = rest) as Hrest'.
  { replace (S i) with (i + 1)%nat by lia. rewrite <- drop_drop, Hrest. done. }
  pose proof (aw_geom s (lw_alloc s Hwf)) as Hg. pose proof (lw_inodes s Hwf) as Hin.
  pose proof (lookup_lt_Some _ _ _ Hbg) as Hlt. pose proof (it_ipg s (lw_itable s Hwf)) as Hi.
  fold (ipg s) in Hi, Hin. pose proof (lw_ipg s Hwf) as Hbits. fold (ipg s) in Hbits.
  assert (∀ bm, block_data s (bg_inode_bitmap bg) = Ok bm → bg_free_inodes_count bg = 0 ∨
    (∀ l, 0 ≤ l < ipg s → first_inode s ≤ nth_inode s i l → bit_is_free bm l = false) →
    (∃ n s', allocate_inode_in rest (S i) s = Some (Ok n, s') ∧ inode_taken s s' n) ∨
    (allocate_inode_in rest (S i) s = Some (Err "No free inodes available"%string, s) ∧ inodes_exhausted s)) as Hnext.
  { intros bm Hbm Hnone. apply IH; [done|done|]. intros n bg' Hj Hv Hf Hc.
    destruct (decide (Z.to_nat (inode_group s n) = i)) as [Hjn|]; [|by apply (Hno n bg'); [lia|..]].
    destruct Hv as [Hn Hv]. rewrite Hjn in Hv. assert (bg' = bg) as -> by congruence. destruct Hnone as [|Hnone]; [done|].
    destruct (inode_split s n Hi (proj1 Hn)) as [Hs Hl]. unfold inode_free. rewrite Hjn, Hbg, Hbm.
    apply Hnone; [done|]. rewrite Hjn in Hs. by rewrite <- Hs. }
  destruct (lw_device s Hwf InodeBitmap (bg_inode_bitmap bg)) as [Hon Hw]; [by exists i, bg|].
  destruct (block_data_ok s _ Hg (proj1 Hw) Hon) as [bm Hbm].
  destruct (Z.eqb_spec (bg_free_inodes_count bg) 0) as [Hc|Hc]; [apply (Hnext bm); auto|].
  mstep. fold (bsize s). rewrite (bind_ok _ _ _ _ _ (stack_slice_run s Hg)).
  rewrite (bind_ok _ _ s bm s); cycle 1.
  { apply or_err_ok. rewrite read_ext2_block_run by (done || by rewrite length_replicate). by rewrite Hbm. }
  fold (first_inode s) (ipg s).
  pose proof (find_free_inode_spec (Z.to_nat (ipg s)) bm (bsize s) (first_inode s) (Z.of_nat i * ipg s) 0) as Hfind.
  specialize (Hfind ltac:(lia) ltac:(lia) ltac:(lia) ltac:(nia)).
  destruct (find_free_inode _ _ _ _ _ _) as [l|]; [|apply (Hnext bm); [done|right; intros; apply Hfind; [lia|done]]].
  destruct Hfind as (Hl & Hfree & Hfirst). left. exists (nth_inode s i l). rewrite Z2Nat.id in Hl by lia.
  destruct (write_ext2_block_reliable (bg_inode_bitmap bg) (bitmap_set bm l) s) as [s1 Hs1];
    [done|done|by rewrite length_bitmap_set; eapply block_data_length|done|].
  rewrite (bind_ok _ _ _ _ _ (or_err_ok _ _ _ _ _ Hs1)). eexists. split; [|by eapply take_inode].
  destruct (nth_inode_valid s i l bg Hwf Hbg Hl) as [[Hn _] _].
  unfold nth_inode in *. rewrite wrap_small by (unfold in_width; lia). done.
Qed.

Lemma allocate_inode_run s :
  layout_wf s →
  (∃ n s', allocate_inode s = Some (Ok n, s') ∧ inode_taken s s' n) ∨
  (allocate_inode s = Some (Err "No free inodes available"%string, s) ∧ inodes_exhausted s).
Proof. intros Hwf. unfold allocate_inode. mstep. apply allocate_inode_in_run; [done|done|lia]. Qed.

(** ** The superblock and the descriptors *)

(** Sectors outside the superblock and the table are outside their blocks. *)
Lemma commit_frame s s' :
  geom s → dev_block_size (device s) = 512 → static s s' →
  (∀ j, j < 2 ∨ 4 ≤ j → j < table_start (bsize s) ∨
     table_start (bsize s) + Z.of_nat (table_sectors (bsize s) (length (block_groups s))) ≤ j →
     read_block (device s') j = read_block (device s) j) →
  changed (λ b, in_region s SuperBlock b ∨ in_region s GroupTable b) s s'.
Proof.
  intros Hg Hd Hst Hfr. split; [done|]. intros b [Hb _] Hn. unfold block_data. rewrite (static_per _ _ Hst).
  pose proof (geom_bsize s Hg) as Hbs.
  destruct (table_bounds (bsize s) (length (block_groups s)) Hbs) as (H1 & H2 & H3 & H4 & _ & H5).
  apply Decidable.not_or in Hn as [Hnsb Hngt]. cbn in Hnsb, Hngt. unfold sb_block in Hnsb.
  assert (per s = bsize s / 512) as Hp by (unfold per; by rewrite Hd). rewrite Hp.
  unfold table_start, table_sectors in *.
  apply read_seq_ext. intros j Hj. apply Hfr.
  - destruct (Z.eqb_spec (bsize s) 1024) as [He|He]; [rewrite He in *; change (1024 / 512) with 2 in *; lia|].
    assert (4 ≤ bsize s / 512) by lia. nia.
  - assert (b < bgdt_block (bsize s) ∨
      bgdt_block (bsize s) + bgdt_blocks (bsize s) (length (block_groups s)) ≤ b) as [Hlt|Hge] by lia; nia.
Qed.

Lemma sb_free_inodes_typed sb : sb_typed sb → sb_typed (decrement_free_inodes sb).
Proof.
  intros [Hf Hu Hv Hr]. unfold decrement_free_inodes. destruct (Z.ltb_spec 0 (s_free_inodes_count sb)) as [Hc|]; [|done].
  split; [|done..]. destruct sb. unfold SB_WIDTHS, Ext2Superblock_fields in *. cbn in *.
  repeat match goal with H : Forall2 _ (_ :: _) (_ :: _) |- _ => apply Forall2_cons in H as [? H] end.
  repeat apply Forall2_cons_2; try done. unfold fits, in_width in *. lia.
Qed.

Lemma sync_decrement s : sync_wf s → sync_wf (set_superblock (decrement_free_inodes (superblock s)) s).
Proof.
  intros [[Hl Hv] Hd [Hsb Hm] Hc Ht Hf]. set (s' := set_superblock _ s).
  assert (bsize s' = bsize s) as Hbs by (unfold bsize, s'; cbn; unfold decrement_free_inodes; by case_match).
  assert (geom s') as Hg.
  { split; rewrite ?Hbs; [|done]. unfold s', decrement_free_inodes. cbn. by case_match. }
  split; rewrite ?Hbs; [done|done| | |done|done]; unfold s'; cbn.
  - split; [by apply sb_free_inodes_typed|]. unfold decrement_free_inodes. by case_match.
  - rewrite <- Hc. unfold decrement_free_inodes. by case_match.
Qed.

Lemma commit_decrement msg s :
  sync_wf s →
  ∃ s', (commit_superblock msg decrement_free_inodes;; commit_groups) s = Some (Ok tt, s') ∧
    changed (λ b, in_region s SuperBlock b ∨ in_region s GroupTable b) s s' ∧ sync_wf s' ∧ synced s'.
Proof.
  intros Hsy. pose proof (sync_decrement s Hsy) as Hsy0.
  destruct (commit_run msg decrement_free_inodes s Hsy0) as (s' & Hrun & Ho & Hsy' & Hsd & (Hss & Hd & Hn) & Hfr).
  exists s'. split; [done|]. split; [|done].
  assert (static s s') as Hst.
  { split; [|by rewrite Ho|done|done]. rewrite Hss. cbn. unfold decrement_free_inodes. by case_match. }
  apply commit_frame; [apply Hsy|apply Hsy|done|]. intros j Hj Hj'. apply Hfr; [done|].
  by rewrite (static_bsize _ _ Hst), (static_length _ _ Hst).
Qed.

(** ** The blocks of a directory *)

Lemma write_directory_blocks_run k : ∀ ptrs data s,
  geom s → length data = (k * Z.to_nat (bsize s))%nat → (k ≤ length ptrs)%nat →
  Forall (λ p, p ≠ 0 ∧ in_width 32 p ∧ on_device s p) (take k ptrs) → NoDup (take k ptrs) →
  ∃ s', write_directory_blocks (bsize s) ptrs data s = Some (Ok tt, s') ∧ only_device s s' ∧
    changed (λ b, b ∈ take k ptrs) s s' ∧
    ∀ j p, take k ptrs !! j = Some p →
      block_data s' p = Ok (take (Z.to_nat (bsize s)) (drop (j * Z.to_nat (bsize s)) data)).
Proof.
  induction k as [|k IH]; intros ptrs data s Hg Hl Hk Hp Hnd.
  { destruct data; [|done]. exists s. split; [by destruct ptrs|]. split; [by destruct s|]. split; [|done].
    by apply changed_same. }
  destruct ptrs as [|p ptrs]; [cbn in Hk; lia|]. cbn [take] in *. cbn [write_directory_blocks].
  apply Forall_cons in Hp as [(Hp0 & Hpw & Hpd) Hp]. apply NoDup_cons in Hnd as [Hnotin Hnd].
  pose proof (geom_bsize s Hg) as Hbs. rewrite bool_decide_false by (intros ->; cbn in Hl; nia).
  rewrite (proj2 (Z.eqb_neq _ _)) by done. rewrite (bind_ok _ _ _ _ _ (stack_slice_run s Hg)).
  assert (length (take (Z.to_nat (bsize s)) data) = Z.to_nat (bsize s)) as Hlt by (rewrite length_take; nia).
  rewrite inserts_all by (by rewrite length_replicate).
  destruct (write_ext2_block_reliable p (take (Z.to_nat (bsize s)) data) s) as [s1 Hs1]; [done..|].
  destruct (write_ext2_block_ok _ _ _ _ Hg Hpw Hlt Hs1) as (Ho1 & Hss & Hd1 & Hfr).
  pose proof (write_device s s1 p Hg Hss Ho1 Hfr) as Hch1. pose proof (ch_static _ _ _ Hch1) as Hst1.
  rewrite (bind_ok _ _ _ _ _ (or_err_ok _ _ _ _ _ Hs1)).
  destruct (IH ptrs (drop (Z.to_nat (bsize s)) data) s1) as (s' & Hrun & Ho & Hch & Hd).
  { by eapply static_geom. } { rewrite length_drop, (static_bsize _ _ Hst1). nia. } { cbn in Hk. lia. }
  { eapply Forall_impl; [exact Hp|]. intros q. by rewrite (static_on_device _ _ _ Hst1). } { done. }
  rewrite (static_bsize _ _ Hst1) in Hrun, Hd. exists s'. split; [done|].
  split; [unfold only_device in *; rewrite Ho, Ho1; done|]. split.
  - eapply changed_weaken; [|by eapply changed_trans]. set_solver.
  - intros [|j] q Hq; cbn in Hq.
    + injection Hq as <-. rewrite (ch_data _ _ _ Hch) by done. by rewrite drop_0.
    + rewrite (Hd j q Hq), drop_drop. done.
Qed.

(** ** What the steps leave alone *)

Lemma changed_inode_free X s s' n bg :
  changed X s s' → layout_wf s → (∀ b, in_region s InodeBitmap b → ¬ X b) → valid_inode s n bg →
  inode_free s' n = inode_free s n.
Proof.
  intros Hch Hwf HX Hv. pose proof (ch_static _ _ _ Hch) as Hst.
  destruct (static_valid_inode s s' n bg Hst Hv) as (bg' & [_ Hbg'] & (_ & Heq & _)%bg_static_inv).
  destruct Hv as [_ Hbg]. assert (in_region s InodeBitmap (bg_inode_bitmap bg)) as Hr by (by eexists _, bg).
  unfold inode_free, ipg. pose proof (static_fields _ _ Hst) as (_ & -> & _). rewrite Hbg', Hbg, Heq.
  rewrite (ch_data _ _ _ Hch); [done|by apply (lw_device s Hwf InodeBitmap)|by apply HX].
Qed.

(** A step that stays away from the inode tables. *)
Lemma changed_inodes X s s' n bg :
  changed X s s' → layout_wf s → (∀ b, in_region s InodeTable b → ¬ X b) → valid_inode s n bg →
  fst <$> Ext2Inode_read_from n s' = fst <$> Ext2Inode_read_from n s.
Proof.
  intros Hch Hwf HX Hv. pose proof (aw_geom s (lw_alloc s Hwf)) as Hg. pose proof (lw_itable s Hwf) as Hit.
  apply (changed_inode X s s' Hch n bg); [done..|]. apply HX. by apply inode_block_region.
Qed.

(** Reading an inode does not change the state. *)
Lemma inode_read_state s n bg r :
  layout_wf s → valid_inode s n bg → fst <$> Ext2Inode_read_from n s = Some r →
  Ext2Inode_read_from n s = Some (r, s).
Proof.
  intros Hwf Hv. rewrite (inode_read_run s n bg); [|apply (aw_geom s (lw_alloc s Hwf))|apply (lw_itable s Hwf)|done].
  cbn. by intros [= ->].
Qed.

Lemma sync_only_device s s' : only_device s s' → static s s' → sync_wf s → sync_wf s'.
Proof.
  intros Ho Hst [Hg Hd Hsb Hc Ht Hf]. pose proof (static_bsize _ _ Hst) as Hbs.
  assert (superblock s' = superblock s ∧ block_groups s' = block_groups s) as [H1 H2] by (by rewrite Ho).
  split; rewrite ?Hbs, ?H1, ?H2, ?(st_sector _ _ Hst), ?(st_device _ _ Hst); try done. by eapply static_geom.
Qed.

(** Reading the clock. *)
Lemma clock_run {E} s :
  ∃ now s', current_unix_time (E:=E) s = Some (Ok now, s') ∧ fits 4 now ∧
    (∀ X, changed X s s') ∧ (layout_wf s → layout_wf s') ∧ (sync_wf s → sync_wf s').
Proof.
  eexists _, _. split; [done|]. set (s' := set_clock _ s).
  assert (∀ X, changed X s s') as Hch by (intros X; by apply changed_same).
  split; [apply wrap_in_width; lia|]. split; [done|]. split.
  - intros Hwf. apply (changed_layout_wf (λ _, False) s s' (Hch _)); [done|]. tauto.
  - intros [Hg ? ? ? ? ?]. split; try done. by apply (static_geom s), Hg; apply (Hch (λ _, False)).
Qed.
End meta.
