(* ===== verification/Ext2Create.v ===== *)
(** * ext2: creating a file

    [create_file] is the composition of most of the ext2 code: it searches
    the parent directory, allocates an inode, writes it, adds an entry to the
    directory, and rewrites the parent's inode, the superblock and the group
    descriptors. The file follows it step by step on a file system whose
    regions do not overlap, and shows that it adds one name and one inode and
    changes no other file. *)

From S2P Require Import Prelude Bytes BlockDev Ext2Dir Ext2Layout Ext2Core Ext2Blocks Ext2Alloc Ext2File Ext2Fs Ext2Map Ext2Write Ext2Range Ext2Read Ext2Sync Ext2Meta.

Section create.
Context {D : Type} `{BlockDevice D, !BlockDeviceLaws D, !ReliableDevice D}.
Implicit Types (s : Ext2Fs D) (b n : u32).

(** ** Files and directories *)

Definition contents (s : Ext2Fs D) (ino : Ext2Inode) : list u8 :=
  map (file_byte s ino) (seqZ 0 (inode_file_size ino)).

(** No block of the file holds metadata. *)
Definition clear_of_meta (s : Ext2Fs D) (ino : Ext2Inode) : Prop :=
  ∀ a r, valid_addr s a → node s ino a ≠ 0 → ¬ in_region s r (node s ino a).

(** A directory of [k] direct blocks. *)
Record dir_file (s : Ext2Fs D) (ino : Ext2Inode) (k : nat) : Prop := {
  df_tree : tree_wf s ino;
  df_dir : is_dir ino = true;
  df_clear : clear_of_meta s ino;
  df_count : (1 ≤ k ≤ 12)%nat;
  df_size : i_size ino = Z.of_nat k * bsize s;
  df_ptrs j : (j < k)%nat → nth j (i_block ino) 0 ≠ 0;
}.

Definition dir_blocks (ino : Ext2Inode) (k : nat) : list u32 := take k (i_block ino).

Lemma dir_file_size s ino k : dir_file s ino k → inode_file_size ino = Z.of_nat k * bsize s.
Proof.
  intros Hd. rewrite <- (df_size _ _ _ Hd). pose proof (df_dir _ _ _ Hd) as Hdir.
  unfold inode_file_size, is_file, is_dir in *. apply bool_decide_eq_true in Hdir. by rewrite Hdir.
Qed.

Lemma dir_file_fits s ino k : geom s → dir_file s ino k → 0 ≤ inode_file_size ino ≤ max_blocks s * bsize s.
Proof.
  intros Hg Hd. rewrite (dir_file_size s ino k Hd). pose proof (df_count _ _ _ Hd).
  pose proof (geom_bsize s Hg). destruct (ppb_bounds s Hg) as (? & _ & _). unfold max_blocks. nia.
Qed.

Lemma dir_block_node s ino k j p :
  dir_file s ino k → dir_blocks ino k !! j = Some p →
  (j < k)%nat ∧ p = node s ino (j, []) ∧ p ≠ 0 ∧ valid_addr s (j, []).
Proof.
  intros Hd Hp. unfold dir_blocks in Hp. apply lookup_take_Some in Hp as [Hp Hj].
  pose proof (df_count _ _ _ Hd). pose proof (df_ptrs _ _ _ Hd j Hj) as Hnz.
  assert (nth j (i_block ino) 0 = p) as Hn by (rewrite nth_lookup; by rewrite Hp).
  split; [done|]. split; [unfold node; by rewrite <- Hn|]. split; [congruence|].
  unfold valid_addr. cbn. split; [lia|]. split; [lia|done].
Qed.

Lemma dir_blocks_facts s ino k :
  alloc_wf s → dir_file s ino k →
  (k ≤ length (take 12 (i_block ino)))%nat ∧ take k (take 12 (i_block ino)) = dir_blocks ino k ∧
  Forall (λ p, p ≠ 0 ∧ in_width 32 p ∧ on_device s p) (dir_blocks ino k) ∧ NoDup (dir_blocks ino k).
Proof.
  intros Hwf Hd. pose proof (df_count _ _ _ Hd). pose proof (df_tree _ _ _ Hd) as Ht.
  pose proof (tw_slots s ino Ht) as Hl. split; [rewrite length_take; lia|].
  split; [unfold dir_blocks; rewrite take_take; f_equal; lia|]. split.
  - apply Forall_lookup. intros j p Hp. destruct (dir_block_node s ino k j p Hd Hp) as (Hj & -> & Hnz & Hv).
    pose proof (tw_good s ino Ht _ Hv Hnz) as Hg. split; [done|]. split; [by apply (good_width s)|apply Hg].
  - apply NoDup_alt. intros i j p Hi Hj. destruct (dir_block_node s ino k i p Hd Hi) as (_ & Hp & Hnz & Hv).
    destruct (dir_block_node s ino k j p Hd Hj) as (_ & Hp' & _ & Hv').
    assert ((i, []) = (j, [] : list Z)) as Heq by (apply (tw_inj s ino Ht); congruence). by injection Heq.
Qed.

(** The whole file is read. *)
Lemma read_file_run s ino :
  alloc_wf s → tree_wf s ino → 0 ≤ inode_file_size ino ≤ max_blocks s * bsize s →
  read_file ino s = Some (Ok (contents s ino), s).
Proof.
  intros Hwf Ht Hsz. unfold read_file, contents. destruct (Z.eqb_spec (inode_file_size ino) 0) as [->|]; [done|].
  rewrite read_file_range_run by (done || lia). by rewrite Z.sub_0_r, Z.min_id.
Qed.

(** The contents of a directory are those of its blocks. *)
Lemma dir_contents s ino k data :
  alloc_wf s → dir_file s ino k → length data = (k * Z.to_nat (bsize s))%nat →
  (∀ j p, dir_blocks ino k !! j = Some p →
     block_data s p = Ok (take (Z.to_nat (bsize s)) (drop (j * Z.to_nat (bsize s)) data))) →
  contents s ino = data.
Proof.
  intros Hwf Hd Hl Hdata. pose proof (geom_bsize s (aw_geom s Hwf)) as Hbs. pose proof (df_count _ _ _ Hd) as Hk.
  apply (nth_ext _ _ 0 0).
  { unfold contents. rewrite length_map, length_seqZ, (dir_file_size s ino k Hd). nia. }
  unfold contents. rewrite length_map, length_seqZ, (dir_file_size s ino k Hd). intros i Hi.
  rewrite nth_lookup. erewrite list_lookup_fmap, lookup_seqZ_lt by nia. cbn. rewrite Z.add_0_l.
  assert (0 ≤ Z.of_nat i / bsize s < Z.of_nat k) as Hq.
  { split; [apply Z.div_pos; lia|apply Z.div_lt_upper_bound; nia]. }
  set (j := Z.to_nat (Z.of_nat i / bsize s)). assert (j < k)%nat as Hj by lia.
  pose proof (tw_slots s ino (df_tree _ _ _ Hd)) as Hslots.
  destruct (lookup_lt_is_Some_2 (dir_blocks ino k) j) as [p Hp]; [unfold dir_blocks; rewrite length_take; lia|].
  destruct (dir_block_node s ino k j p Hd Hp) as (_ & Hnode & Hnz & _).
  assert (file_block s ino (Z.of_nat i / bsize s) = p) as Hfb.
  { unfold file_block, route. rewrite (proj2 (Z.ltb_lt _ _)) by lia. done. }
  unfold file_byte, blk. rewrite Hfb, (proj2 (Z.eqb_neq _ _)), (Hdata j p Hp) by done.
  pose proof (Z.mod_pos_bound (Z.of_nat i) (bsize s) ltac:(lia)) as Hm.
  pose proof (Z.div_mod (Z.of_nat i) (bsize s) ltac:(lia)) as Hdm.
  rewrite nth_lookup, lookup_take_lt, lookup_drop, <- nth_lookup by lia. f_equal. nia.
Qed.

(** Only the block pointers matter to the tree. *)
Lemma dir_file_times s ino k now a m c :
  dir_file s ino k → dir_file s (update_timestamps now a m c ino) k.
Proof. intros [[T1 T2 T3 T4] H2 H3 H4 H5 H6]. split; [|done..]. split; assumption. Qed.

Lemma contents_times s ino now a m c : contents s (update_timestamps now a m c ino) = contents s ino.
Proof. done. Qed.

(** ** A directory through a step *)

Lemma dir_file_changed X s s' ino k :
  changed X s s' → layout_wf s → (∀ b, in_region s BlockBitmap b → ¬ X b) →
  (∀ a, valid_addr s a → interior a → node s ino a ≠ 0 → ¬ X (node s ino a)) →
  dir_file s ino k → dir_file s' ino k.
Proof.
  intros Hch Hwf HX Hint Hd. pose proof (lw_alloc s Hwf) as Hawf. pose proof (ch_static _ _ _ Hch) as Hst.
  pose proof (df_tree _ _ _ Hd) as Ht. pose proof (static_ppb _ _ Hst) as HP.
  assert (∀ a, valid_addr s a → interior a → node s ino a ≠ 0 →
    block_data s' (node s ino a) = block_data s (node s ino a)) as Hdata.
  { intros a Ha Hi Hn. apply (ch_data _ _ _ Hch); [by apply (good_width s), (tw_good s ino Ht)|by apply Hint]. }
  pose proof (node_ext s s' ino HP Hdata) as Hnode.
  split; rewrite ?(static_bsize _ _ Hst); try apply Hd.
  - apply (tree_wf_ext s s' ino HP Ht); [|done]. intros a Ha Hn.
    apply (changed_good X s s' Hch); [done..|]. by apply (tw_good s ino Ht).
  - intros a r Ha Hn Hr. rewrite (valid_addr_ppb s s') in Ha by done. rewrite Hnode in Hn, Hr by done.
    rewrite (in_region_static s s') in Hr by done. by apply (df_clear _ _ _ Hd a r).
Qed.

Lemma dir_blocks_not_interior s ino k a :
  dir_file s ino k → valid_addr s a → interior a → node s ino a ≠ 0 → node s ino a ∉ dir_blocks ino k.
Proof.
  intros Hd Ha Hi Hn [j Hj]%list_elem_of_lookup. destruct (dir_block_node s ino k j _ Hd Hj) as (Hjk & Heq & _ & Hv).
  pose proof (df_count _ _ _ Hd). pose proof (tw_inj s ino (df_tree _ _ _ Hd) a (j, []) Ha Hv Hn Heq) as ->.
  unfold interior, depth in Hi. cbn in Hi. lia.
Qed.

Lemma dir_blocks_clear s ino k b r : dir_file s ino k → b ∈ dir_blocks ino k → ¬ in_region s r b.
Proof.
  intros Hd [j Hj]%list_elem_of_lookup. destruct (dir_block_node s ino k j b Hd Hj) as (_ & -> & Hnz & Hv).
  by apply (df_clear _ _ _ Hd).
Qed.

(** Metadata writes do not change the contents of a directory. *)
Lemma dir_file_meta X s s' ino k :
  changed X s s' → layout_wf s → (∀ b, in_region s BlockBitmap b → ¬ X b) →
  (∀ b, X b → ∃ r, in_region s r b) → dir_file s ino k →
  dir_file s' ino k ∧ contents s' ino = contents s ino.
Proof.
  intros Hch Hwf HX Hreg Hd. pose proof (df_clear _ _ _ Hd) as Hclear.
  assert (∀ a, valid_addr s a → node s ino a ≠ 0 → ¬ X (node s ino a)) as Hnot.
  { intros a Ha Hn [r Hr]%Hreg. by apply (Hclear a r). }
  split; [apply (dir_file_changed X s s' ino k Hch); [done..| |done]; intros a Ha _; by apply Hnot|].
  destruct (changed_file X s s' ino) as (_ & _ & Hb); [done|apply (lw_alloc s Hwf)|done|apply Hd|done|].
  unfold contents. apply list_fmap_ext. intros i x Hx. apply Hb.
  apply lookup_seqZ in Hx as [-> Hx]. pose proof (dir_file_fits s ino k (aw_geom s (lw_alloc s Hwf)) Hd). lia.
Qed.

(** ** The parent directory *)

(** [write_directory_data] replaces the contents. *)
Lemma write_directory_data_run s parent bg ino k data :
  layout_wf s → valid_inode s parent bg → fst <$> Ext2Inode_read_from parent s = Some (Ok ino) →
  dir_file s ino k → length data = (k * Z.to_nat (bsize s))%nat →
  ∃ s', write_directory_data parent data s = Some (Ok tt, s') ∧ only_device s s' ∧
    changed (λ b, b ∈ dir_blocks ino k) s s' ∧ dir_file s' ino k ∧ contents s' ino = data.
Proof.
  intros Hwf Hv Hr Hd Hl. pose proof (lw_alloc s Hwf) as Hawf. pose proof (aw_geom s Hawf) as Hg.
  destruct (dir_blocks_facts s ino k Hawf Hd) as (Hk & Htk & Hp & Hnd).
  destruct (write_directory_blocks_run k (take 12 (i_block ino)) data s) as (s' & Hrun & Ho & Hch & Hdata);
    [done|done|done|by rewrite Htk|by rewrite Htk|]. rewrite Htk in Hch, Hdata.
  exists s'. split; [|split; [done|split; [done|]]].
  - unfold write_directory_data, read_inode.
    rewrite (bind_ok _ _ _ _ _ (or_err_ok _ _ _ _ _ (inode_read_state s parent bg _ Hwf Hv Hr))).
    rewrite (df_dir _ _ _ Hd). cbn [negb]. mstep. done.
  - assert (∀ b, in_region s BlockBitmap b → b ∉ dir_blocks ino k) as HX.
    { intros b Hb Hin. by apply (dir_blocks_clear s ino k b BlockBitmap Hd). }
    assert (dir_file s' ino k) as Hd'.
    { apply (dir_file_changed _ s s' ino k Hch); [done..| |done]. intros a Ha Hi Hn.
      by apply (dir_blocks_not_interior s). }
    pose proof (static_bsize _ _ (ch_static _ _ _ Hch)) as Hbs.
    split; [done|]. apply (dir_contents s' ino k); [by apply (changed_alloc_wf _ s s' Hch)|done|..]; by rewrite Hbs.
Qed.

(** The parent after [commit_parent]: new contents, new times; no other
    inode changes. *)
Record parent_updated (s s' : Ext2Fs D) (parent : u32) (ino : Ext2Inode) (k : nat)
    (data : list u8) : Prop := {
  pu_changed : changed (λ b, in_region s InodeTable b ∨ b ∈ dir_blocks ino k) s s';
  pu_layout : layout_wf s';
  pu_sync : sync_wf s';
  pu_parent : ∃ now, let ino' := update_timestamps now false true true ino in
    fst <$> Ext2Inode_read_from parent s' = Some (Ok ino') ∧ dir_file s' ino' k ∧ contents s' ino' = data;
  pu_other j bg : valid_inode s j bg → j ≠ parent →
    fst <$> Ext2Inode_read_from j s' = fst <$> Ext2Inode_read_from j s;
}.

Lemma commit_parent_run msg s parent bg ino k data :
  layout_wf s → sync_wf s → valid_inode s parent bg → inode_typed ino →
  fst <$> Ext2Inode_read_from parent s = Some (Ok ino) →
  dir_file s ino k → length data = (k * Z.to_nat (bsize s))%nat →
  ∃ s', commit_parent msg parent ino data s = Some (Ok tt, s') ∧ parent_updated s s' parent ino k data.
Proof.
  intros Hwf Hsy Hv Hty Hr Hd Hl. unfold commit_parent.
  destruct (clock_run (E:=string) s) as (now & s1 & Hrun1 & Hnow & Hch1 & Hwf1 & Hsy1).
  specialize (Hwf1 Hwf). specialize (Hsy1 Hsy). rewrite (bind_ok _ _ _ _ _ Hrun1).
  pose proof (ch_static _ _ _ (Hch1 (λ _, False))) as Hst1.
  destruct (static_valid_inode s s1 parent bg Hst1 Hv) as (bg1 & Hv1 & _).
  destruct (dir_file_meta (λ _, False) s s1 ino k (Hch1 _)) as [Hd1 _]; [done|tauto|tauto|done|].
  assert (∀ j bg, valid_inode s j bg → fst <$> Ext2Inode_read_from j s1 = fst <$> Ext2Inode_read_from j s) as Hi1.
  { intros j bgj. apply (changed_inodes (λ _, False) s s1 j bgj (Hch1 _) Hwf). tauto. }
  destruct (write_directory_data_run s1 parent bg1 ino k data) as (s2 & Hrun2 & Ho2 & Hch2 & Hd2 & Hc2);
    [done|done|by rewrite (Hi1 parent bg)|done|by rewrite (static_bsize _ _ Hst1)|].
  rewrite (bind_ok _ _ _ _ _ Hrun2). pose proof (ch_static _ _ _ Hch2) as Hst2.
  assert (∀ r b, in_region s1 r b → b ∉ dir_blocks ino k) as Hclear.
  { intros r b Hb Hin. by apply (dir_blocks_clear s1 ino k b r Hd1). }
  assert (layout_wf s2) as Hwf2 by (apply (changed_layout_wf _ s1 s2 Hch2); [done|]; apply (Hclear BlockBitmap)).
  pose proof (sync_only_device s1 s2 Ho2 Hst2 Hsy1) as Hsy2.
  destruct (static_valid_inode s1 s2 parent bg1 Hst2 Hv1) as (bg2 & Hv2 & _).
  destruct (inode_put_run s2 parent bg2 (update_timestamps now false true true ino))
    as (s3 & Hrun3 & Ho3 & Hch3 & Hr3 & Hi3); [done|done|by apply update_timestamps_typed|].
  pose proof (inode_block_region s2 parent bg2 (aw_geom _ (lw_alloc _ Hwf2)) (lw_itable _ Hwf2) Hv2) as Hreg.
  assert (∀ b, in_region s2 BlockBitmap b → inode_block s2 bg2 parent ≠ b) as Hnb.
  { intros b Hb <-. by pose proof (lw_disjoint s2 Hwf2 _ _ _ Hb Hreg). }
  destruct (dir_file_meta _ s2 s3 ino k Hch3) as [Hd3 Hc3]; [done|done| |done|].
  { intros b <-. by exists InodeTable. }
  exists s3. split; [by apply or_err_ok|].
  assert (static s s2) as Hst by (by transitivity s1).
  split.
  - eapply changed_weaken; [|exact (changed_trans _ _ _ _ _ (Hch1 (λ _, False)) (changed_trans _ _ _ _ _ Hch2 Hch3))].
    intros b [[]|[?|<-]]; [by right|left]. by rewrite (in_region_static s s2) in Hreg.
  - by apply (changed_layout_wf _ s2 s3 Hch3).
  - by apply (sync_only_device s2 s3 Ho3 (ch_static _ _ _ Hch3)).
  - exists now. cbn zeta. rewrite Hr3, contents_times, Hc3, Hc2. split; [done|]. split; [by apply dir_file_times|done].
  - intros j bgj Hj Hne. destruct (static_valid_inode s s1 j bgj Hst1 Hj) as (bgj1 & Hj1 & _).
    destruct (static_valid_inode s1 s2 j bgj1 Hst2 Hj1) as (bgj2 & Hj2 & _).
    rewrite (Hi3 j bgj2 Hj2 Hne), (changed_inodes _ s1 s2 j bgj1 Hch2 Hwf1); [by apply (Hi1 j bgj)| |done].
    apply (Hclear InodeTable).
Qed.

(** ** A new inode *)

Record inode_born (s s' : Ext2Fs D) (n : u32) (ino : Ext2Inode) : Prop := {
  nb_valid : ∃ bg, valid_inode s n bg;
  nb_free : inode_free s n = true;
  nb_changed : changed (λ b, in_region s InodeBitmap b ∨ in_region s InodeTable b) s s';
  nb_layout : layout_wf s';
  nb_sync : sync_wf s';
  nb_inode : fst <$> Ext2Inode_read_from n s' = Some (Ok ino);
  nb_other j bg : valid_inode s j bg → j ≠ n →
    fst <$> Ext2Inode_read_from j s' = fst <$> Ext2Inode_read_from j s;
  nb_set j bg : valid_inode s j bg → inode_free s' j = if j =? n then false else inode_free s j;
}.

(** The first steps of [create_file]. *)
Lemma new_inode_run {A} msg (mk : u32 → Ext2Inode) (rest : u32 → M D string A) s :
  layout_wf s → sync_wf s → (∀ now, fits 4 now → inode_typed (mk now)) →
  let prog := n ← allocate_inode; now ← current_unix_time;
              or_err msg (Ext2Inode_write_to n (mk now));; rest n in
  (∃ n now s', prog s = rest n s' ∧ inode_born s s' n (mk now)) ∨
  (prog s = Some (Err "No free inodes available"%string, s) ∧ inodes_exhausted s).
Proof.
  intros Hwf Hsy Hty prog. unfold prog.
  destruct (allocate_inode_run s Hwf) as [(n & s1 & Hrun1 & Hta)|[Hrun Hno]];
    [left|right; by rewrite (bind_err _ _ _ _ _ Hrun)].
  rewrite (bind_ok _ _ _ _ _ Hrun1). destruct (ta_valid _ _ _ Hta) as [bg Hv].
  pose proof (ta_changed _ _ _ Hta) as Hch1. pose proof (ta_sync _ _ _ Hta Hsy) as Hsy1.
  assert (∀ r b, r ≠ InodeBitmap → in_region s r b → ¬ in_region s InodeBitmap b) as Hne.
  { intros r b Hr Hb Hb'. by apply Hr, (lw_disjoint s Hwf _ _ _ Hb Hb'). }
  assert (layout_wf s1) as Hwf1 by (apply (changed_layout_wf _ s s1 Hch1); [done|]; intros b; by apply Hne).
  destruct (clock_run (E:=string) s1) as (now & s2 & Hrun2 & Hnow & Hch2 & Hwf2 & Hsy2).
  specialize (Hwf2 Hwf1). specialize (Hsy2 Hsy1). rewrite (bind_ok _ _ _ _ _ Hrun2).
  pose proof (changed_trans _ _ _ _ _ Hch1 (Hch2 (λ _, False))) as Hch12.
  pose proof (ch_static _ _ _ Hch12) as Hst.
  destruct (static_valid_inode s s2 n bg Hst Hv) as (bg2 & Hv2 & _).
  destruct (inode_put_run s2 n bg2 (mk now)) as (s3 & Hrun3 & Ho3 & Hch3 & Hr3 & Hi3); [done|done|by apply Hty|].
  rewrite (bind_ok _ _ _ _ _ (or_err_ok _ _ _ _ _ Hrun3)). exists n, now, s3. split; [done|].
  pose proof (inode_block_region s2 n bg2 (aw_geom _ (lw_alloc _ Hwf2)) (lw_itable _ Hwf2) Hv2) as Hreg.
  assert (∀ r b, r ≠ InodeTable → in_region s2 r b → inode_block s2 bg2 n ≠ b) as Hnb.
  { intros r b Hr Hb <-. by apply Hr, (lw_disjoint s2 Hwf2 _ _ _ Hb Hreg). }
  split; [by exists bg|apply (ta_free _ _ _ Hta)|..].
  - eapply changed_weaken; [|exact (changed_trans _ _ _ _ _ Hch12 Hch3)].
    intros b [[?|[]]|<-]; [by left|right]. by rewrite (in_region_static s s2) in Hreg.
  - apply (changed_layout_wf _ s2 s3 Hch3); [done|]. intros b. by apply Hnb.
  - by apply (sync_only_device s2 s3 Ho3 (ch_static _ _ _ Hch3)).
  - by rewrite Hr3.
  - intros j bgj Hj Hjn. destruct (static_valid_inode s s2 j bgj Hst Hj) as (bgj2 & Hj2 & _).
    rewrite (Hi3 j bgj2 Hj2 Hjn). apply (changed_inodes _ s s2 j bgj Hch12 Hwf); [|done].
    intros b Hb [Hb'|[]]. by apply (Hne InodeTable b).
  - intros j bgj Hj. rewrite <- (ta_set _ _ _ Hta j bgj Hj).
    destruct (static_valid_inode s s1 j bgj (ch_static _ _ _ Hch1) Hj) as (bgj1 & Hj1 & _).
    destruct (static_valid_inode s s2 j bgj Hst Hj) as (bgj2 & Hj2 & _).
    rewrite (changed_inode_free _ s2 s3 j bgj2 Hch3 Hwf2); [|intros b; by apply Hnb|done].
    apply (changed_inode_free (λ _, False) s1 s2 j bgj1 (Hch2 _) Hwf1); [tauto|done].
Qed.

(** ** The whole operation *)

(** After [create_file] has returned [n]: the inode was free and is a new
    regular file, the parent's map has one more name, and everything else is
    as before. *)
Record file_created (s s' : Ext2Fs D) (parent : u32) (ino : Ext2Inode) (k : nat) (m : gmap (list u8) (u32 * u8))
    (name : list u8) (mode : u16) (n : u32) : Prop := {
  fc_fresh : inode_free s n = true ∧ n ≠ parent ∧ ∃ bg, valid_inode s n bg;
  fc_taken j bg : valid_inode s j bg → inode_free s' j = if j =? n then false else inode_free s j;
  fc_inode : ∃ now, Ext2Inode_read_from n s' = Some (Ok (new_regular_file now mode), s');
  fc_parent : ∃ now, let ino' := update_timestamps now false true true ino in
    Ext2Inode_read_from parent s' = Some (Ok ino', s') ∧ dir_file s' ino' k ∧
    dir_rep (contents s' ino') (<[name := (n, EXT2_FT_REG_FILE)]> m);
  fc_inodes j bg : valid_inode s j bg → j ≠ n → j ≠ parent →
    fst <$> Ext2Inode_read_from j s' = fst <$> Ext2Inode_read_from j s;
  fc_blocks b : block_free s' b = block_free s b;
  fc_files ino2 : tree_wf s ino2 → clear_of_meta s ino2 → disjoint_files s ino ino2 →
    inode_file_size ino2 ≤ max_blocks s * bsize s →
    tree_wf s' ino2 ∧ contents s' ino2 = contents s ino2;
  fc_layout : layout_wf s' ∧ sync_wf s';
  fc_mount mount_id now : Ext2Fs_new (device s') mount_id now =
    Some (Ok (mkFs (superblock s') (block_groups s') (device s') mount_id now));
}.

(** The error paths: the allocator finds no inode, so none is free if the groups
    it skips for their zero counts have none; or no record of the directory has
    room, and the inode stays allocated. *)
Definition create_failed (s s' : Ext2Fs D) (data name : list u8) (e : string) : Prop :=
  (e = "No free inodes available"%string ∧ s' = s ∧ inodes_exhausted s ∧ (zero_counts_ok s → no_free_inode s)) ∨
  (e = "No space in directory"%string ∧ dir_full data (length name) ∧
   ∃ n, inode_free s n = true ∧ inode_free s' n = false ∧
     ∀ j bg, valid_inode s j bg → j ≠ n → inode_free s' j = inode_free s j).

(** A file that shares no block with the directory. *)
Lemma other_file_kept s s' ino k ino2 :
  layout_wf s → dir_file s ino k →
  changed (λ b, b ∈ dir_blocks ino k ∨ ∃ r, r ≠ BlockBitmap ∧ in_region s r b) s s' →
  tree_wf s ino2 → clear_of_meta s ino2 → disjoint_files s ino ino2 →
  inode_file_size ino2 ≤ max_blocks s * bsize s →
  tree_wf s' ino2 ∧ contents s' ino2 = contents s ino2.
Proof.
  intros Hwf Hd Hch Ht Hcl Hdis Hsz.
  destruct (changed_file _ s s' ino2 Hch) as (Ht' & _ & Hb); [apply (lw_alloc s Hwf)| |done| |].
  - intros b Hb [Hin|(r & Hr & Hb')]; [by apply (dir_blocks_clear s ino k b BlockBitmap Hd)|].
    by apply Hr, (lw_disjoint s Hwf _ _ _ Hb' Hb).
  - intros a Ha Hn [[j Hj]%list_elem_of_lookup|(r & _ & Hr)]; [|by apply (Hcl a r)].
    destruct (dir_block_node s ino k j _ Hd Hj) as (_ & Heq & _ & Hv). by apply (Hdis (j, []) a).
  - split; [done|]. unfold contents. apply list_fmap_ext. intros i x Hx. apply Hb.
    apply lookup_seqZ in Hx as [-> Hx]. lia.
Qed.

(** The three phases of [create_file]: a new inode, the parent, the counts. *)
Section compose.
Context (s s1 s2 s3 : Ext2Fs D) (parent n : u32) (ino new : Ext2Inode) (k : nat) (data : list u8).
Context (Hwf : layout_wf s) (Hd : dir_file s ino k) (Hb : inode_born s s1 n new)
  (Hp : parent_updated s1 s2 parent ino k data)
  (Hch3 : changed (λ b, in_region s2 SuperBlock b ∨ in_region s2 GroupTable b) s2 s3).

Let Hwf1 := nb_layout _ _ _ _ Hb.
Let Hwf2 := pu_layout _ _ _ _ _ _ Hp.
Let Hch1 := nb_changed _ _ _ _ Hb.
Let Hch2 := pu_changed _ _ _ _ _ _ Hp.
Let Hst1 := ch_static _ _ _ Hch1.
Let Hst2 := ch_static _ _ _ Hch2.
Let Hst3 := ch_static _ _ _ Hch3.
Let Hst : static s s2 := transitivity Hst1 Hst2.

Lemma counts_apart r b :
  r ≠ SuperBlock → r ≠ GroupTable → in_region s2 r b →
  ¬ (in_region s2 SuperBlock b ∨ in_region s2 GroupTable b).
Proof using Hp. intros H1 H2 Hr [Hb'|Hb']; [apply H1|apply H2]; by apply (lw_disjoint s2 Hwf2 _ _ b). Qed.

Lemma compose_changed :
  changed (λ b, b ∈ dir_blocks ino k ∨ ∃ r, r ≠ BlockBitmap ∧ in_region s r b) s s3.
Proof using Hb Hp Hch3.
  eapply changed_weaken; [|exact (changed_trans _ _ _ _ _ Hch1 (changed_trans _ _ _ _ _ Hch2 Hch3))].
  intros b [[Hr|Hr]|[[Hr|?]|[Hr|Hr]]]; [right..|by left|right|right].
  - by exists InodeBitmap.
  - by exists InodeTable.
  - exists InodeTable. by rewrite (in_region_static s s1) in Hr.
  - exists SuperBlock. by rewrite (in_region_static s s2) in Hr.
  - exists GroupTable. by rewrite (in_region_static s s2) in Hr.
Qed.

Lemma compose_bitmaps b :
  in_region s BlockBitmap b → ¬ (b ∈ dir_blocks ino k ∨ ∃ r, r ≠ BlockBitmap ∧ in_region s r b).
Proof using Hwf Hd.
  intros Hr [Hin|(r & Hne & Hr')]; [by apply (dir_blocks_clear s ino k b BlockBitmap Hd)|].
  by apply Hne, (lw_disjoint s Hwf _ _ _ Hr' Hr).
Qed.

Lemma compose_layout : layout_wf s3.
Proof using Hwf Hd Hb Hp Hch3.
  apply (changed_layout_wf _ s s3 compose_changed Hwf). apply compose_bitmaps.
Qed.

Lemma compose_valid j bg :
  valid_inode s j bg →
  ∃ bg1 bg2 bg3, valid_inode s1 j bg1 ∧ valid_inode s2 j bg2 ∧ valid_inode s3 j bg3.
Proof using Hb Hp Hch3.
  intros Hj. destruct (static_valid_inode s s1 j bg Hst1 Hj) as (bg1 & Hj1 & _).
  destruct (static_valid_inode s1 s2 j bg1 Hst2 Hj1) as (bg2 & Hj2 & _).
  destruct (static_valid_inode s2 s3 j bg2 Hst3 Hj2) as (bg3 & Hj3 & _). by exists bg1, bg2, bg3.
Qed.

(** An inode that no phase writes, or that only the first ones write. *)
Lemma compose_inode j bg :
  valid_inode s j bg → fst <$> Ext2Inode_read_from j s3 = fst <$> Ext2Inode_read_from j s2.
Proof using Hb Hp Hch3 BlockDeviceLaws0.
  intros Hj. destruct (compose_valid j bg Hj) as (_ & bg2 & _ & _ & Hj2 & _).
  apply (changed_inodes _ s2 s3 j bg2 Hch3 Hwf2); [|done]. intros b. by apply counts_apart.
Qed.

Lemma compose_other j bg :
  valid_inode s j bg → j ≠ parent →
  fst <$> Ext2Inode_read_from j s3 = fst <$> Ext2Inode_read_from j s1.
Proof using Hb Hp Hch3 BlockDeviceLaws0.
  intros Hj Hne. destruct (compose_valid j bg Hj) as (bg1 & _ & _ & Hj1 & _).
  by rewrite (compose_inode j bg Hj), (pu_other _ _ _ _ _ _ Hp j bg1).
Qed.

Lemma compose_inode_free j bg :
  valid_inode s j bg → inode_free s3 j = if j =? n then false else inode_free s j.
Proof using Hwf Hd Hb Hp Hch3.
  intros Hj. rewrite <- (nb_set _ _ _ _ Hb j bg Hj). destruct (compose_valid j bg Hj) as (bg1 & bg2 & _ & Hj1 & Hj2 & _).
  rewrite (changed_inode_free _ s2 s3 j bg2 Hch3 Hwf2); [|intros b; by apply counts_apart|done].
  apply (changed_inode_free _ s1 s2 j bg1 Hch2 Hwf1); [|done]. intros b Hb1 [Hb2|Hin].
  - by pose proof (lw_disjoint s1 Hwf1 _ _ _ Hb1 Hb2).
  - rewrite (in_region_static s s1) in Hb1 by done. by apply (dir_blocks_clear s ino k b InodeBitmap Hd).
Qed.

Lemma compose_parent bg :
  valid_inode s parent bg → ∃ now, let ino' := update_timestamps now false true true ino in
    Ext2Inode_read_from parent s3 = Some (Ok ino', s3) ∧ dir_file s3 ino' k ∧ contents s3 ino' = data.
Proof using Type*.
  intros Hv. destruct (pu_parent _ _ _ _ _ _ Hp) as (now & Hr2 & Hd2 & Hc2). exists now. cbn zeta in *.
  destruct (compose_valid parent bg Hv) as (_ & _ & bg3 & _ & _ & Hp3).
  split; [apply (inode_read_state s3 parent bg3); [apply compose_layout|done|]; by rewrite (compose_inode parent bg Hv)|].
  destruct (dir_file_meta _ s2 s3 (update_timestamps now false true true ino) k Hch3 Hwf2) as [Hd3 Hc3];
    [intros b; by apply counts_apart| |exact Hd2|].
  { intros b [?|?]; by eexists. }
  split; [done|]. by rewrite Hc3, Hc2.
Qed.
End compose.

Lemma created_compose s s1 s2 s3 parent bgp ino k m name mode n now data :
  layout_wf s → valid_inode s parent bgp → inode_free s parent = false → dir_file s ino k →
  inode_born s s1 n (new_regular_file now mode) →
  parent_updated s1 s2 parent ino k data → dir_rep data (<[name := (n, EXT2_FT_REG_FILE)]> m) →
  changed (λ b, in_region s2 SuperBlock b ∨ in_region s2 GroupTable b) s2 s3 → sync_wf s3 → synced s3 →
  file_created s s3 parent ino k m name mode n.
Proof.
  intros Hwf Hvp Hused Hd Hb Hp Hrep Hch3 Hsy3 Hsd3.
  destruct (nb_valid _ _ _ _ Hb) as [bg Hv]. pose proof (nb_free _ _ _ _ Hb) as Hfree.
  assert (n ≠ parent) as Hnp by congruence.
  pose proof (compose_changed s s1 s2 s3 parent n ino _ k data Hb Hp Hch3) as Hch.
  pose proof (compose_layout s s1 s2 s3 parent n ino _ k data Hwf Hd Hb Hp Hch3) as Hwf3.
  split.
  - by split; [|split; [|exists bg]].
  - intros j bgj Hj. by eapply compose_inode_free.
  - exists now. destruct (static_valid_inode s s3 n bg (ch_static _ _ _ Hch) Hv) as (bg3 & Hv3 & _).
    apply (inode_read_state s3 n bg3); [done..|].
    rewrite (compose_other s s1 s2 s3 parent n ino _ k data Hb Hp Hch3 n bg) by done. apply (nb_inode _ _ _ _ Hb).
  - destruct (compose_parent s s1 s2 s3 parent n ino _ k data Hwf Hd Hb Hp Hch3 bgp Hvp) as (now' & Hr & Hd' & Hc).
    exists now'. cbn zeta in *. by rewrite Hc.
  - intros j bgj Hj Hjn Hjp.
    by rewrite (compose_other s s1 s2 s3 parent n ino _ k data Hb Hp Hch3 j bgj), (nb_other _ _ _ _ Hb j bgj).
  - intros b. apply (changed_block_free _ s s3 Hch); [apply (lw_alloc s Hwf)|]. by apply compose_bitmaps.
  - intros ino2. by apply (other_file_kept s s3 ino k).
  - done.
  - intros mount_id clk. by apply synced_mount.
Qed.

(** The steps of [create_file] after the new inode. *)
Definition create_rest (parent : u32) (ino : Ext2Inode) (data name : list u8) (n : u32) : M D string u32 :=
  dir_data ← add_entry data n name EXT2_FT_REG_FILE;
  commit_parent "Failed to write parent inode" parent ino dir_data;;
  commit_superblock "Failed to write superblock" decrement_free_inodes;;
  commit_groups;;
  mret n.

(** The checks of [create_file] pass. *)
Lemma create_file_checked s parent ino k name mode m :
  layout_wf s → Ext2Inode_read_from parent s = Some (Ok ino, s) → dir_file s ino k →
  dir_rep (contents s ino) m → m !! name = None →
  valid_name name → has_slash name = false → dots name = false →
  create_file parent name mode s =
  (n ← allocate_inode; now ← current_unix_time;
   or_err "Failed to write new inode"%string (Ext2Inode_write_to n (new_regular_file now mode));;
   create_rest parent ino (contents s ino) name n) s.
Proof.
  intros Hwf Hr Hd Hrep Hfresh Hname Hslash Hdots. pose proof (lw_alloc s Hwf) as Hawf. unfold create_file.
  assert (bad_length name = false) as ->.
  { destruct Hname as (Hne & Hl & _). unfold bad_length. by rewrite !bool_decide_false by (done || lia). }
  rewrite Hslash, Hdots. cbn [orb]. unfold read_inode. rewrite (bind_ok _ _ _ _ _ (or_err_ok _ _ _ _ _ Hr)).
  rewrite (df_dir _ _ _ Hd). cbn [negb].
  pose proof (read_file_run s ino Hawf (df_tree _ _ _ Hd) (dir_file_fits s ino k (aw_geom s Hawf) Hd)) as Hread.
  rewrite (bind_ok _ _ s (contents s ino) s).
  - by rewrite bool_decide_false by (rewrite (proj1 (find_entry_map _ _ Hrep)), Hfresh; by intros []).
  - unfold read_directory. rewrite (df_dir _ _ _ Hd). by apply or_err_ok.
Qed.

(** The entry, the parent and the counts. *)
Lemma create_rest_run s s1 parent bg ino k name data n new :
  layout_wf s → inode_born s s1 n new → valid_inode s parent bg → n ≠ parent →
  Ext2Inode_read_from parent s = Some (Ok ino, s) → inode_typed ino → dir_file s ino k →
  add_directory_entry (contents s ino) n name EXT2_FT_REG_FILE = Some (Ok data) →
  length data = length (contents s ino) →
  ∃ s2 s3, create_rest parent ino (contents s ino) name n s1 = Some (Ok n, s3) ∧
    parent_updated s1 s2 parent ino k data ∧
    changed (λ b, in_region s2 SuperBlock b ∨ in_region s2 GroupTable b) s2 s3 ∧ sync_wf s3 ∧ synced s3.
Proof.
  intros Hwf Hb Hvp Hnp Hr Hty Hd Hadd Hl. pose proof (ch_static _ _ _ (nb_changed _ _ _ _ Hb)) as Hst1.
  destruct (static_valid_inode s s1 parent bg Hst1 Hvp) as (bg1 & Hv1 & _).
  destruct (commit_parent_run "Failed to write parent inode" s1 parent bg1 ino k data) as (s2 & Hrun2 & Hp);
    [apply (nb_layout _ _ _ _ Hb)|apply (nb_sync _ _ _ _ Hb)|done|done| | | |].
  { rewrite (nb_other _ _ _ _ Hb parent bg); [by rewrite Hr|done|congruence]. }
  { apply (dir_file_meta _ s s1 ino k (nb_changed _ _ _ _ Hb)); [done| | |done].
    - intros b Hb1 [Hb2|Hb2]; by pose proof (lw_disjoint s Hwf _ _ _ Hb1 Hb2).
    - intros b [?|?]; by eexists. }
  { rewrite Hl, (static_bsize _ _ Hst1). unfold contents. rewrite length_map, length_seqZ, (dir_file_size s ino k Hd).
    pose proof (geom_bsize s (aw_geom s (lw_alloc s Hwf))). nia. }
  destruct (commit_decrement "Failed to write superblock" s2 (pu_sync _ _ _ _ _ _ Hp)) as (s3 & Hrun3 & Hrest).
  exists s2, s3. split; [|done]. unfold create_rest, add_entry. rewrite Hadd. cbn [lift_option lift_result].
  rewrite (bind_ok _ _ s1 data s1), (bind_ok _ _ _ _ _ Hrun2) by done.
  apply bind_Ok_inv in Hrun3 as ([] & s' & Hr1 & Hr2). by rewrite (bind_ok _ _ _ _ _ Hr1), (bind_ok _ _ _ _ _ Hr2).
Qed.

(** C11: on a well formed file system, creating a file with a fresh, valid name
    in a directory of 1 to 12 whole blocks, all direct and none a hole, never
    panics and either does exactly that (the name maps to an inode that was free
    and is now a new regular file; every other name, inode and file and the set
    of free blocks are as before; the superblock and the descriptors on disk
    agree with memory, so that mounting the device again gives the same file
    system) or fails in one of two ways: it reports that no inode is free and
    changes nothing, having found none in the groups whose free count is not
    zero, so there is none if the counts of zero are right; or it reports that
    the directory is full, and leaks the inode it had allocated. *)
Theorem create_file_exact s parent bgp ino k name mode m :
  layout_wf s → sync_wf s → valid_inode s parent bgp → inode_free s parent = false →
  Ext2Inode_read_from parent s = Some (Ok ino, s) → inode_typed ino → dir_file s ino k →
  dir_rep (contents s ino) m → m !! name = None →
  valid_name name → has_slash name = false → dots name = false → fits 2 mode →
  ∃ r s', create_file parent name mode s = Some (r, s') ∧
    match r with
    | Ok n => file_created s s' parent ino k m name mode n
    | Err e => create_failed s s' (contents s ino) name e
    end.
Proof.
  intros Hwf Hsy Hvp Hused Hr Hty Hd Hrep Hfresh Hname Hslash Hdots Hmode.
  rewrite (create_file_checked s parent ino k name mode m) by done.
  destruct (new_inode_run "Failed to write new inode"%string (λ now, new_regular_file now mode)
              (create_rest parent ino (contents s ino) name) s Hwf Hsy
              (λ now Hnow, regular_file_typed now mode Hnow Hmode))
    as [(n & now & s1 & -> & Hb)|[-> Hno]];
    [|eexists _, s; split; [done|]; left; split_and!; try done; by apply inodes_exhausted_none].
  destruct (nb_valid _ _ _ _ Hb) as [bg Hv]. pose proof (nb_free _ _ _ _ Hb) as Hfree.
  destruct (add_directory_entry_map (contents s ino) m n name EXT2_FT_REG_FILE)
    as [(data & Hadd & Hrep' & Hl)|[Hadd Hfull]]; [done..|destruct Hv; lia| |].
  - destruct (create_rest_run s s1 parent bgp ino k name data n _ Hwf Hb Hvp ltac:(congruence) Hr Hty Hd Hadd Hl)
      as (s2 & s3 & -> & Hp & Hch3 & Hsy3 & Hsd3).
    exists (Ok n), s3. split; [done|]. by eapply created_compose.
  - eexists _, s1. split; [unfold create_rest, add_entry; by rewrite Hadd|]. right. split; [done|]. split; [done|].
    exists n. split; [done|]. split; [rewrite (nb_set _ _ _ _ Hb n bg Hv); by rewrite Z.eqb_refl|].
    intros j bgj Hj Hne. rewrite (nb_set _ _ _ _ Hb j bgj Hj). by rewrite (proj2 (Z.eqb_neq _ _) Hne).
Qed.
End create.
