(* ===== verification/Ext2Names.v ===== *)
(** * ext2: names and links

    Theorems on the namespace operations of [Ext2Fs]: a link whose target fits
    in the inode reads back as it was made, and what freeing it does to the
    blocks of other files. *)

From S2P Require Import Prelude Bytes BlockDev Ext2Dir Ext2Layout Ext2Core Ext2Blocks Ext2Alloc Ext2File Ext2Fs.

Section names.
Context {D : Type} `{BlockDevice D, !BlockDeviceLaws D, !ReliableDevice D}.
Implicit Types (s : Ext2Fs D) (b v : u32).

Lemma short_symlink_block now c :
  0 ≤ c < 256 → i_block (new_symlink now [c]) = c :: replicate 14 0.
Proof.
  intros Hc. unfold new_symlink. cbn [i_block]. rewrite decide_True by (cbn; lia).
  replace (block_bytes (replicate 15 0)) with (replicate 60 0) by (by vm_compute).
  unfold bytes_block. cbn. f_equal. lia.
Qed.

Lemma symlink_typed now target :
  fits 4 now → byte_list target → (length target ≤ 60)%nat → inode_typed (new_symlink now target).
Proof using Type.
  intros Hnow Ht Hl. unfold new_symlink. rewrite decide_True by done.
  apply inode_typed_intro; cbn [i_block i_osd2 i_mode i_uid i_size i_atime i_ctime i_mtime i_dtime i_gid
    i_links_count i_blocks i_flags i_osd1 i_generation i_file_acl i_dir_acl i_faddr];
    [|by apply symlink_block_typed|done| |done]; fits_tac. apply wrap_in_width. lia.
Qed.

(** The target of a short link is the beginning of the bytes of its block pointers. *)
Lemma symlink_target now target :
  byte_list target → (length target ≤ 60)%nat →
  take (length target) (block_bytes (i_block (new_symlink now target))) = target.
Proof using Type.
  intros Ht Hl. unfold new_symlink. cbn [i_block]. rewrite decide_True by done. rewrite fast_target_bytes by done.
  set (bs := target ++ _). assert (length bs = 60%nat) as Hlen.
  { unfold bs. rewrite length_app, length_drop, length_zero_block. lia. }
  assert (byte_list bs) as Hb by (apply Forall_app; split; [done|apply Forall_drop, pack_byte]).
  unfold block_bytes, bytes_block. change (sum_list (replicate 15 4%nat)) with 60%nat.
  rewrite pack_unpack by (done || by rewrite Hlen). change (sum_list (replicate 15 4%nat)) with 60%nat.
  rewrite <- Hlen, firstn_all. by apply take_app_length.
Qed.

(** a symbolic link with a target of 1 to 60 bytes, written to the inode table,
    reads back as that target, or is refused if the target is not UTF-8. *)
Theorem fast_symlink_roundtrip s n bg now target s' :
  geom s → itable s → valid_inode s n bg → fits 4 now → byte_list target → (1 ≤ length target ≤ 60)%nat →
  Ext2Inode_write_to n (new_symlink now target) s = Some (Ok tt, s') →
  read_symlink n s' =
    Some (if utf8_valid target then Ok target else Err "Invalid UTF-8 in symlink target"%string, s').
Proof.
  intros Hg Hi Hv Hnow Ht Hl Hw.
  destruct (inode_write_read s n bg (new_symlink now target) s') as [Hr _]; [done..|apply symlink_typed; (done || lia)|done|].
  unfold read_symlink, read_inode. rewrite (bind_ok _ _ _ _ _ (or_err_ok _ _ _ _ _ Hr)).
  assert (i_size (new_symlink now target) = Z.of_nat (length target)) as Hsz.
  { unfold new_symlink. cbn [i_size]. apply wrap_small. unfold in_width. lia. }
  rewrite Hsz. destruct (Z.eqb_spec (Z.of_nat (length target)) 0); [lia|].
  rewrite (proj2 (Z.leb_le _ _)) by lia. rewrite Nat2Z.id, symlink_target by (done || lia).
  change (is_symlink (new_symlink now target)) with true. change (i_blocks (new_symlink now target) =? 0) with true.
  cbn [andb negb]. rewrite (bind_ok _ _ s' target s') by done. by destruct (utf8_valid target).
Qed.

(** freeing the blocks of a symbolic link whose target is stored in the
    inode takes the bytes of the target for block numbers: with a target of
    one character [c], the block number [c], whatever file it belongs to, goes
    back to the free set. *)
Theorem symlink_removal_frees_target_text s now c :
  alloc_wf s → 0 < c < 256 → data_range s c → block_free s c = false → ¬ is_bitmap s c →
  on_device s c →
  ∃ s', free_inode_blocks (new_symlink now [c]) s = Some (Ok 1, s') ∧ block_free s' c = true.
Proof.
  intros Hwf Hc Hr Hu Hb Hd. destruct (free_block_run s c Hwf Hr Hu Hb Hd) as (s' & Hrun & Hfr).
  exists s'. unfold free_inode_blocks. rewrite short_symlink_block by lia.
  split; [|rewrite (fb_set _ _ _ Hfr) by done; by rewrite Z.eqb_refl].
  cbn [free_slots replicate]. rewrite (proj2 (Z.eqb_neq c 0)) by lia. cbn [negb].
  by rewrite (bind_ok _ _ _ _ _ Hrun).
Qed.
End names.
