(* ===== verification/Ext2Sample.v ===== *)
(** * ext2: a sample file system

    A 128 KiB image with 1 KiB blocks and one block group, as [mkfs.ext2]
    lays it out: superblock (block 1), group descriptors (2), block bitmap (3),
    inode bitmap (4), inode table (5 and 6) and the root directory (7). The
    theorems of the ext2 components are instantiated on it. *)

From S2P Require Import Prelude Bytes BlockDev Ext2Dir Ext2Layout Ext2Core Ext2Blocks Ext2Alloc Ext2File Ext2Fs Ext2Map Ext2Write Ext2Range Ext2Read Ext2Sync Ext2Meta Ext2Create Ext2Names.

Definition sample_sb : Ext2Superblock :=
  mkSb 16 128 0 120 6 1 0 0 128 128 16 0 0 0 20 0xEF53 1 1 0 0 0 0 1 0 0 11 128 0 0 2 0
    (replicate 16 0) (replicate 16 0) (replicate 788 0).

Definition sample_bg : Ext2BlockGroupDesc := mkBg 3 4 5 120 6 1 0 (replicate 12 0).

Definition sample_root : Ext2Inode :=
  mkInode 0x41ED 0 1024 0 0 0 0 0 2 2 0 0 (7 :: replicate 14 0) 0 0 0 0 (replicate 12 0).

(** Contents from the block [n] on, in sectors. *)
Fixpoint put_sectors (k : nat) (n : Z) (data : list u8) (m : gmap Z (list u8)) : gmap Z (list u8) :=
  match k with
  | O => m
  | S k => put_sectors k (n + 1) (drop 512 data) (<[n := resize 512 0 (take 512 data)]> m)
  end.

Definition sample_disk : MemDisk :=
  mkMemDisk 512 256
    (put_sectors 2 2 (Ext2Superblock_to_bytes sample_sb)
    (put_sectors 2 4 (Ext2BlockGroupDesc_to_bytes sample_bg)
    (put_sectors 2 6 (0x7F :: replicate 14 0 ++ 0x80 :: replicate 1008 0xFF)
    (put_sectors 2 8 (0xFF :: 0x03 :: replicate 1022 0)
    (put_sectors 4 10 (replicate 128 0 ++ Ext2Inode_to_bytes sample_root)
    (put_sectors 2 14 (new_dir_block 1024 2 2) ∅)))))).

Definition sample : Ext2Fs MemDisk := mkFs sample_sb [sample_bg] sample_disk 0 (λ n, 1000 + Z.of_nat n).

(** Mounting the image gives the sample. *)
Lemma sample_mounts : Ext2Fs_new sample_disk 0 (clock sample) = Some (Ok sample).
Proof. by vm_compute. Qed.

Lemma sample_alloc_wf : alloc_wf sample.
Proof.
  assert (∀ b, data_range sample b ↔ 1 ≤ b < 129) as Hr by (intros b; unfold data_range; cbn; lia).
  split.
  - split; [by vm_compute|]. exists 2. by vm_compute.
  - by vm_compute.
  - by vm_compute.
  - intros [|i] bg Hi; [|done]. injection Hi as <-.
    exists (0x7F :: replicate 14 0 ++ 0x80 :: replicate 1008 0xFF). split; [by vm_compute..|].
    split; [rewrite Hr; cbn; lia|by vm_compute].
  - intros [|i] [|j] bg bg' Hi Hj; done.
  - intros b Hb Hor. rewrite Hr in Hb. unfold on_device. change (per sample) with 2. change (num_blocks (device sample)) with 256.
    destruct (decide (b = 128)) as [->|]; [|lia]. destruct Hor as [Hf|([|i] & bg & Hi & Hbg)]; [|  |done].
    + by vm_compute in Hf.
    + injection Hi as <-. by vm_compute in Hbg.
Qed.

Lemma sample_zero_reserved : zero_reserved sample.
Proof. intros [H0 _]. by vm_compute in H0. Qed.

(** A file without blocks. *)
Lemma empty_tree_wf {D} `{BlockDevice D} (s : Ext2Fs D) ino :
  i_block ino = replicate 15 0 → tree_wf s ino.
Proof.
  intros Hb. assert (∀ a, node s ino a = 0) as Hn.
  { intros [slot q]. unfold node. cbn [fst snd]. rewrite Hb.
    assert (nth slot (replicate 15 0) 0 = 0) as ->; [|apply descend_0].
    rewrite nth_lookup. destruct (_ !! _) eqn:Hl; [|done]. by apply lookup_replicate in Hl as [-> _]. }
  split; [by rewrite Hb|..].
  - intros a _. by rewrite Hn.
  - intros a a' _ _. by rewrite Hn.
  - intros a d _ _. by rewrite Hn.
Qed.

(** The root directory has one direct block. *)
Lemma one_block_tree_wf {D} `{BlockDevice D, !BlockDeviceLaws D} (s : Ext2Fs D) ino b :
  i_block ino = b :: replicate 14 0 → b ≠ 0 → good s b → tree_wf s ino.
Proof.
  intros Hb Hnz Hg. assert (∀ a, valid_addr s a → node s ino a ≠ 0 → a = (0%nat, []) ∧ node s ino a = b) as Hn.
  { intros [slot q] (Hs & Hl & _). unfold node. cbn [fst snd] in *. rewrite Hb.
    destruct slot as [|slot].
    - cbn in Hl. destruct q; [done|cbn in Hl; lia].
    - cbn [nth]. assert (nth slot (replicate 14 0) 0 = 0) as ->; [|by rewrite descend_0].
      rewrite nth_lookup. destruct (_ !! _) eqn:Hlk; [|done]. by apply lookup_replicate in Hlk as [-> _]. }
  split; [by rewrite Hb|..].
  - intros a Ha Hne. by destruct (Hn a Ha Hne) as [_ ->].
  - intros a a' Ha Ha' Hne Heq. destruct (Hn a Ha Hne) as [-> _]. rewrite Heq in Hne.
    by destruct (Hn a' Ha' Hne) as [-> _].
  - intros a d Ha Hi Hne. destruct (Hn a Ha Hne) as [-> _]. unfold interior in Hi. cbn in Hi. lia.
Qed.

Lemma sample_good b : 1 ≤ b < 8 → b ≠ 3 → good sample b.
Proof.
  intros Hb H3. split.
  - unfold data_range. cbn. lia.
  - assert (b = 1 ∨ b = 2 ∨ b = 4 ∨ b = 5 ∨ b = 6 ∨ b = 7) as Hc by lia.
    by destruct Hc as [->|[->|[->|[->|[->| ->]]]]]; vm_compute.
  - intros ([|i] & bg & Hi & Hbg); [|done]. injection Hi as <-. by vm_compute in Hbg.
  - unfold on_device. change (per sample) with 2. change (num_blocks (device sample)) with 256. lia.
Qed.

Lemma sample_root_tree : tree_wf sample sample_root.
Proof. apply (one_block_tree_wf sample sample_root 7); [done|done|]. apply sample_good; lia. Qed.

(** ** Runs on the sample *)

Definition run_val {D E A} (d : A) (m : M D E A) (s : Ext2Fs D) : A :=
  match m s with Some (Ok a, _) => a | _ => d end.
Definition run_state {D E A} (m : M D E A) (s : Ext2Fs D) : Ext2Fs D :=
  match m s with Some (_, s') => s' | None => s end.
Definition run_is_ok {D E A} (m : M D E A) (s : Ext2Fs D) : bool :=
  match m s with Some (Ok _, _) => true | _ => false end.

Lemma run_ok {D E A} (d : A) (m : M D E A) s :
  run_is_ok m s = true → m s = Some (Ok (run_val d m s), run_state m s).
Proof. unfold run_is_ok, run_val, run_state. by destruct (m s) as [[[] ?]|]. Qed.

Definition file0 : Ext2Inode := new_regular_file 1000 0x1A4.
Definition hello : list u8 := bytes "hello".

(** [hello] written at offset 1020, across the first two blocks. *)
Definition file1 : Ext2Inode := run_val file0 (write_file_range file0 1020 hello) sample.
Definition sample1 : Ext2Fs MemDisk := run_state (write_file_range file0 1020 hello) sample.

Lemma sample_write : write_file_range file0 1020 hello sample = Some (Ok file1, sample1).
Proof. unfold file1, sample1. apply run_ok. by vm_compute. Qed.

(** ** Witnesses *)

Lemma read_file_range_exact_witness :
  read_file_range sample_root 0 4 sample =
  Some (Ok (map (file_byte sample sample_root) (seqZ 0 4)), sample).
Proof.
  apply (read_file_range_exact sample sample_root 0 4);
    [apply sample_alloc_wf|apply sample_root_tree|lia|lia|by vm_compute].
Defined.

Lemma file0_tree : tree_wf sample file0.
Proof. by apply empty_tree_wf. Qed.

Lemma write_file_range_exact_witness :
  ∃ r s', write_file_range file0 1020 hello sample = Some (r, s') ∧
    match r with
    | Ok ino' => written sample file0 1020 hello s' ino'
    | Err e => e = IoError ∧ ∀ b, data_range s' b → block_free s' b = false
    end.
Proof.
  apply (write_file_range_exact sample file0 1020 hello);
    [apply sample_alloc_wf|apply file0_tree|apply sample_zero_reserved|lia|done|by vm_compute].
Defined.

Lemma write_then_read_witness :
  read_file_range file1 1018 100 sample1 = Some (Ok ([0; 0] ++ hello), sample1).
Proof.
  rewrite (write_then_read sample file0 1020 hello sample1 file1 1018 100);
    [|apply sample_alloc_wf|apply file0_tree|apply sample_zero_reserved|lia|done|by vm_compute|
      by vm_compute|by vm_compute|by vm_compute|by vm_compute|apply sample_write|lia|lia].
  by vm_compute.
Defined.

Lemma root_disjoint : disjoint_files sample file0 sample_root.
Proof.
  intros a a2 _ _ Hn Heq. apply Hn. rewrite <- Heq. unfold node, file0. cbn [i_block new_regular_file].
  assert (nth (fst a) (replicate 15 0) 0 = 0) as ->; [|apply descend_0].
  rewrite nth_lookup. destruct (_ !! _) eqn:Hl; [|done]. by apply lookup_replicate in Hl as [-> _].
Qed.

Lemma write_preserves_other_files_witness :
  tree_wf sample1 sample_root ∧ disjoint_files sample1 file1 sample_root ∧
  ∀ o len, 0 ≤ o → 0 ≤ len → ∃ bytes,
    read_file_range sample_root o len sample = Some (Ok bytes, sample) ∧
    read_file_range sample_root o len sample1 = Some (Ok bytes, sample1).
Proof.
  apply (write_preserves_other_files sample file0 sample_root 1020 hello sample1 file1);
    [apply sample_alloc_wf|apply file0_tree|apply sample_root_tree|apply sample_zero_reserved|
     apply root_disjoint|lia|done|by vm_compute|by vm_compute|apply sample_write].
Defined.

Lemma get_block_num_bounds_witness :
  get_block_num sample_root 0 sample = Some (Ok (Some 7), sample) ∧
  get_block_num sample_root 20000000 sample = Some (Ok None, sample).
Proof.
  split.
  - rewrite (get_block_num_bounds sample sample_root 0);
      [by vm_compute|apply sample_alloc_wf|apply sample_root_tree|by split].
  - rewrite (get_block_num_bounds sample sample_root 20000000);
      [by vm_compute|apply sample_alloc_wf|apply sample_root_tree|by split].
Defined.

Lemma write_beyond_capacity_panics_witness :
  physical_or_allocate (bsize sample) file0 20000000 sample = None ∨
  ∃ s', physical_or_allocate (bsize sample) file0 20000000 sample = Some (Err IoError, s') ∧ disk_full s'.
Proof.
  apply (write_beyond_capacity_panics sample file0 20000000);
    [apply sample_alloc_wf|apply file0_tree|apply sample_zero_reserved|by vm_compute|by split].
Defined.

Lemma allocate_block_exact_witness :
  (∃ b s', allocate_block sample = Some (Ok b, s') ∧ allocated sample s' b) ∨
  (allocate_block sample = Some (Err "No free blocks available"%string, sample) ∧
   ∀ b, data_range sample b → block_free sample b = false).
Proof. apply (allocate_block_exact sample). apply sample_alloc_wf. Defined.

Lemma free_block_exact_witness :
  ∃ s', free_block 7 sample = Some (Ok tt, s') ∧ alloc_wf s' ∧ same_shape sample s' ∧
    (∀ b', data_range sample b' → block_free s' b' = if b' =? 7 then true else block_free sample b') ∧
    (∀ b', in_width 32 b' → ¬ is_bitmap sample b' → block_data s' b' = block_data sample b').
Proof.
  pose proof (sample_good 7 ltac:(lia) ltac:(lia)) as [].
  apply (free_block_exact sample 7); [apply sample_alloc_wf|done..].
Defined.

Lemma symlink_removal_frees_target_text_witness :
  ∃ s', free_inode_blocks (new_symlink 0 [7]) sample = Some (Ok 1, s') ∧ block_free s' 7 = true.
Proof.
  pose proof (sample_good 7 ltac:(lia) ltac:(lia)) as [].
  apply (symlink_removal_frees_target_text sample 0 7); [apply sample_alloc_wf|lia|done..].
Defined.

Lemma file0_typed : inode_typed file0.
Proof. split; [|done|done]. unfold file0. vm_compute. fits_tac. Qed.

Lemma sample_itable : itable sample.
Proof.
  split.
  - by vm_compute.
  - by vm_compute.
  - exists 8. by vm_compute.
  - by vm_compute.
  - intros [|i] bg Hi; [|done]. injection Hi as <-. by vm_compute.
  - intros [|i] [|j] bg bg' Hi Hj; done.
Qed.

Definition sample2 : Ext2Fs MemDisk := run_state (Ext2Inode_write_to 11 file0) sample.

Lemma inode_table_roundtrip_witness :
  Ext2Inode_read_from 11 sample2 = Some (Ok file0, sample2).
Proof.
  apply (inode_table_roundtrip sample 11 sample_bg file0 sample2);
    [apply sample_alloc_wf|apply sample_itable|by split|apply file0_typed|].
  unfold sample2. by vm_compute.
Defined.

Lemma Ext2Superblock_roundtrip_witness :
  length (Ext2Superblock_to_bytes sample_sb) = 924%nat ∧
  Ext2Superblock_from_bytes (Ext2Superblock_to_bytes sample_sb ++ replicate 100 0) = Some sample_sb.
Proof.
  apply (Ext2Superblock_roundtrip sample_sb (replicate 100 0)). split; [|done..].
  cbn. fits_tac.
Defined.

Lemma Ext2Inode_bytes_roundtrip_witness :
  Ext2Inode_of_bytes (Ext2Inode_to_bytes file0 ++ []) = file0.
Proof. apply (proj1 Ext2Inode_bytes_roundtrip). apply file0_typed. Defined.

(** ** Creating a file *)

Lemma sample_regions r b :
  in_region sample r b ↔
  match r with
  | BlockBitmap => b = 3 | InodeBitmap => b = 4 | InodeTable => 5 ≤ b < 7
  | SuperBlock => b = 1 | GroupTable => 2 ≤ b < 3
  end.
Proof.
  assert (∀ P : Ext2BlockGroupDesc → Prop,
    (∃ i bg, block_groups sample !! i = Some bg ∧ P bg) ↔ P sample_bg) as Hone.
  { intros P. split; [|intros HP; by exists 0%nat, sample_bg].
    intros ([|i] & bg & Hi & HP); [|done]. by injection Hi as <-. }
  destruct r; cbn [in_region]; unfold is_bitmap; rewrite ?Hone.
  - change (bg_block_bitmap sample_bg) with 3. lia.
  - change (bg_inode_bitmap sample_bg) with 4. lia.
  - change (bg_inode_table sample_bg) with 5. change (itable_len sample) with 2. lia.
  - change (sb_block sample) with 1. lia.
  - change (bgdt_block (bsize sample)) with 2. change (bgdt_blocks _ _) with 1. lia.
Qed.

Lemma sample_layout : layout_wf sample.
Proof.
  split; [apply sample_alloc_wf|apply sample_itable|by vm_compute..| | |].
  - intros r r' b Hr Hr'. rewrite sample_regions in Hr, Hr'. destruct r, r'; (done || lia).
  - intros r b Hr. rewrite sample_regions in Hr. unfold on_device, in_width.
    change (per sample) with 2. change (num_blocks (device sample)) with 256. destruct r; lia.
  - intros [|i] [|j] bg bg' Hi Hj; done.
Qed.

Lemma sample_sync : sync_wf sample.
Proof.
  split; [apply sample_alloc_wf|by vm_compute| |by vm_compute| |by vm_compute].
  - split; [|by vm_compute]. split; [|done..]. cbn. fits_tac.
  - apply Forall_singleton. split; [|done]. cbn. fits_tac.
Qed.

Lemma sample_root_dir : dir_file sample sample_root 1.
Proof.
  split; [apply sample_root_tree|by vm_compute| |lia|by vm_compute|].
  - intros [slot q] r (Hs & Hl & _) Hn. cbn [fst snd] in *. rewrite sample_regions.
    assert (node sample sample_root (slot, q) = 7) as ->; [|destruct r; lia].
    unfold node in *. cbn [fst snd i_block sample_root] in *. destruct slot as [|slot].
    + cbn in Hl. destruct q; [done|cbn in Hl; lia].
    + exfalso. apply Hn. cbn [nth]. assert (nth slot (replicate 14 0) 0 = 0) as ->; [|by rewrite descend_0].
      rewrite nth_lookup. destruct (_ !! _) eqn:Hlk; [|done]. by apply lookup_replicate in Hlk as [-> _].
  - intros [|j] Hj; [done|lia].
Qed.

Definition root_recs : list Rec :=
  [mkRec 2 EXT2_FT_DIR (bytes ".") (replicate 3 0); mkRec 2 EXT2_FT_DIR (bytes "..") (replicate 1002 0)].

Lemma root_rep : dir_rep (contents sample sample_root) (entries_map (dir_entries root_recs)).
Proof.
  exists root_recs. split; [by vm_compute|]. split; [|split; [by vm_compute|split; [|done]]].
  - repeat first [apply Forall_nil_2 | apply Forall_cons_2];
      (split; [split; by vm_compute|cbn; lia|by vm_compute|by vm_compute|vm_compute; lia]).
  - apply (bool_decide_unpack _). vm_compute. exact I.
Qed.

Lemma create_file_exact_witness :
  ∃ s', create_file 2 (bytes "f") 0x1A4 sample = Some (Ok 11, s') ∧
    file_created sample s' 2 sample_root 1 (entries_map (dir_entries root_recs)) (bytes "f") 0x1A4 11.
Proof.
  destruct (create_file_exact sample 2 sample_bg sample_root 1 (bytes "f") 0x1A4 (entries_map (dir_entries root_recs)))
    as (r & s' & Hrun & Hres); [apply sample_layout|apply sample_sync|by split|by vm_compute|by vm_compute| |
    apply sample_root_dir|apply root_rep|by vm_compute| |by vm_compute|by vm_compute|by split|].
  - split; [|done..]. unfold sample_root. vm_compute. fits_tac.
  - split; [done|]. split; [cbn; lia|by vm_compute].
  - assert (fst <$> create_file 2 (bytes "f") 0x1A4 sample = Some (Ok 11)) as Hok by (by vm_compute).
    rewrite Hrun in Hok. injection Hok as ->. exists s'. split; [exact Hrun|exact Hres].
Defined.

(** ** Scenarios *)

(** The steps of a scenario, each of which has to succeed. *)
Definition step {A} (m : M MemDisk string A) (s : option (Ext2Fs MemDisk)) : option (Ext2Fs MemDisk) :=
  match s with
  | Some s => match m s with Some (Ok _, s') => Some s' | _ => None end
  | None => None
  end.

Definition observe {A} (m : M MemDisk string A) (s : option (Ext2Fs MemDisk)) : option (result A string) :=
  match s with Some s => fst <$> m s | None => None end.

Definition file_at (path : list u8) : M MemDisk string (list u8) :=
  n ← resolve_path path; i ← read_inode n; read_file_content i.

Definition write_at (path data : list u8) : M MemDisk string Z :=
  n ← resolve_path path; Ext2Fs_write_file_range n 0 data.

(** [/f] holds [hello] in block 8; the link [/l] with the target text
    [\x08] is created and removed; [/g] is written. *)
Definition symlink_scenario : option (Ext2Fs MemDisk) :=
  step (write_at (bytes "/g") (bytes "world")) (
  step (create_file 2 (bytes "g") 0x1A4) (
  step (unlink_file (bytes "/l")) (
  step (create_symlink [8] (bytes "/l")) (
  step (write_at (bytes "/f") hello) (
  step (create_file 2 (bytes "f") 0x1A4) (Some sample)))))).

(** removing a symbolic link corrupts other files: in a fresh file system
    the file [/f] is written once and never again, but after a symbolic link
    with the one-character target [\x08] has been created and removed, the
    next file that is written is stored over it. *)
Theorem symlink_unlink_corrupts_file :
  observe (file_at (bytes "/f")) symlink_scenario = Some (Ok (bytes "world")).
Proof. by vm_compute. Qed.

Definition rmdir_scenario : option (Ext2Fs MemDisk) :=
  step (remove_directory (bytes "/d")) (step (create_directory (bytes "/d") 0x1ED) (Some sample)).

(** creating and removing a directory leaks its inode and its block count:
    the link count only drops from 2 to 1, so inode 11 stays allocated (the
    next one handed out is 12) and keeps pointing at its freed block 8, while
    the superblock counts it as free again and never counts the block as
    free. *)
Theorem rmdir_leaks_inode :
  observe allocate_inode rmdir_scenario = Some (Ok 12) ∧
  observe (read_inode 11) rmdir_scenario =
    observe (i ← read_inode 11; mret (set_links_dtime 1 0 i)) rmdir_scenario ∧
  observe (i ← read_inode 11; mret (i_block i !! 0%nat)) rmdir_scenario = Some (Ok (Some 8)) ∧
  (λ s, block_free s 8) <$> rmdir_scenario = Some true ∧
  (λ s, s_free_inodes_count (superblock s)) <$> rmdir_scenario = Some (s_free_inodes_count sample_sb) ∧
  (λ s, bg_free_inodes_count <$> block_groups s) <$> rmdir_scenario = Some [5] ∧
  (λ s, s_free_blocks_count (superblock s)) <$> rmdir_scenario = Some 119.
Proof. by vm_compute. Qed.

Definition dangling_scenario : option (Ext2Fs MemDisk) :=
  step (create_symlink (bytes "/y") (bytes "/l"))
    (step (create_symlink (bytes "/x") (bytes "/l")) (Some sample)).

(** a name that is a dangling symbolic link can be created again: the
    existence test follows links, so the directory ends up with the name
    twice. *)
Theorem dangling_symlink_duplicates :
  observe (i ← read_inode 2; d ← read_directory i; mret (de_name <$> parse_directory d))
    dangling_scenario = Some (Ok [bytes "."; bytes ".."; bytes "l"; bytes "l"]).
Proof. by vm_compute. Qed.
