(* ===== verification/Sched.v ===== *)
(** The scheduler (task/scheduler.rs), the thread fields it reads and writes
    (task/thread.rs) and the exit-kick slots it consults
    (tracing/providers/teardown.rs), for both targets: x86_64 has one CPU,
    aarch64 eight.

    [System] is the locked [Scheduler] with the statics its methods touch.  An
    operation runs under the scheduler lock on one CPU; what it reads from
    outside (its CPU number, clocks, the number of CPUs online) is an [Env], so
    that a theorem for all environments covers every CPU and every time.
    Counters, traces and logs, which no decision reads, and the code of the
    features boot_tests and ec0_fault_inject are left out. *)

From S2P Require Import Prelude.

(** * Targets and readings *)

Inductive Arch := X86_64 | AArch64.
Class Target := target_arch : Arch.

Definition is_aarch64 `{Target} : bool :=
  match target_arch with AArch64 => true | X86_64 => false end.

Definition MAX_CPUS `{Target} : nat := if is_aarch64 then 8%nat else 1%nat.
Definition CPU_STALL_TICKS : u64 := 20.
Definition ISR_WAKEUP_SLOTS : nat := 64.
Definition ISR_WAKEUP_EMPTY : u64 := 0.

(** The places of an operation that read the tick counter, each with its own
    value: entering, charging or blocking the current thread, dispatching, and
    judging whether another CPU is stalled. *)
Inductive TickSite := AtEntry | AtCharge | AtDispatch | AtStale (cpu : nat).

Record Env := mkEnv {
  e_cpu : nat;                 (* current_cpu_id() *)
  e_cpus_online : nat;         (* smp::cpus_online() *)
  e_is_online : nat → bool;    (* smp::is_cpu_online(cpu) *)
  e_can_dispatch : bool;       (* can_dispatch_here() *)
  e_ticks : TickSite → u64;    (* get_ticks() *)
  e_now_ns : u64;              (* get_monotonic_time_ns() *)
  e_loopback_work : bool;      (* net::loopback_queue_has_work() *)
  e_pump_tid : u64;            (* net::loopback_pump_tid() *)
  e_stack_live : u64 → bool;   (* is_kernel_stack_slot_live(top) *)
  e_capacity : nat → nat;      (* capacity of each ready queue *)
  e_in_interrupt : bool;       (* per_cpu::in_interrupt() *)
}.

(** * Threads *)

Inductive ThreadState :=
  | Running | Ready | Blocked | BlockedOnSignal | BlockedOnChildExit
  | BlockedOnTimer | BlockedOnIO | Terminated.

Inductive ThreadPrivilege := Kernel | User.

#[global] Instance ThreadState_eq_dec : EqDecision ThreadState.
Proof. solve_decision. Defined.
#[global] Instance ThreadPrivilege_eq_dec : EqDecision ThreadPrivilege.
Proof. solve_decision. Defined.

(** The saved registers are a list of words here. *)
Record Thread := mkThread {
  t_id : u64;
  t_state : ThreadState;
  t_privilege : ThreadPrivilege;
  t_owner_pid : option u64;
  t_has_started : bool;
  t_blocked_in_syscall : bool;
  t_wake_time_ns : option u64;
  t_run_start_ticks : u64;
  t_cpu_ticks_total : u64;
  t_kernel_stack_top : option u64;
  t_saved_userspace_context : option (list u64);
}.

Definition with_state (st : ThreadState) (t : Thread) : Thread :=
  mkThread (t_id t) st (t_privilege t) (t_owner_pid t) (t_has_started t) (t_blocked_in_syscall t)
    (t_wake_time_ns t) (t_run_start_ticks t) (t_cpu_ticks_total t) (t_kernel_stack_top t)
    (t_saved_userspace_context t).

Definition with_started (b : bool) (t : Thread) : Thread :=
  mkThread (t_id t) (t_state t) (t_privilege t) (t_owner_pid t) b (t_blocked_in_syscall t)
    (t_wake_time_ns t) (t_run_start_ticks t) (t_cpu_ticks_total t) (t_kernel_stack_top t)
    (t_saved_userspace_context t).

Definition with_syscall (b : bool) (t : Thread) : Thread :=
  mkThread (t_id t) (t_state t) (t_privilege t) (t_owner_pid t) (t_has_started t) b
    (t_wake_time_ns t) (t_run_start_ticks t) (t_cpu_ticks_total t) (t_kernel_stack_top t)
    (t_saved_userspace_context t).

Definition with_wake (w : option u64) (t : Thread) : Thread :=
  mkThread (t_id t) (t_state t) (t_privilege t) (t_owner_pid t) (t_has_started t)
    (t_blocked_in_syscall t) w (t_run_start_ticks t) (t_cpu_ticks_total t)
    (t_kernel_stack_top t) (t_saved_userspace_context t).

Definition with_start_ticks (now : u64) (t : Thread) : Thread :=
  mkThread (t_id t) (t_state t) (t_privilege t) (t_owner_pid t) (t_has_started t)
    (t_blocked_in_syscall t) (t_wake_time_ns t) now (t_cpu_ticks_total t)
    (t_kernel_stack_top t) (t_saved_userspace_context t).

Definition with_context (c : option (list u64)) (t : Thread) : Thread :=
  mkThread (t_id t) (t_state t) (t_privilege t) (t_owner_pid t) (t_has_started t)
    (t_blocked_in_syscall t) (t_wake_time_ns t) (t_run_start_ticks t) (t_cpu_ticks_total t)
    (t_kernel_stack_top t) c.

Definition is_runnable (t : Thread) : bool := bool_decide (t_state t = Ready).
Definition set_running (t : Thread) : Thread := with_state Running t.
Definition set_ready (t : Thread) : Thread :=
  if bool_decide (t_state t = Terminated) then t else with_state Ready t.
Definition set_blocked (t : Thread) : Thread := with_state Blocked t.
Definition set_terminated (t : Thread) : Thread := with_state Terminated t.

(** The charge for the ticks since the thread was dispatched; the sum wraps. *)
Definition charge (now : u64) (t : Thread) : Thread :=
  mkThread (t_id t) (t_state t) (t_privilege t) (t_owner_pid t) (t_has_started t)
    (t_blocked_in_syscall t) (t_wake_time_ns t) now
    (wrap 64 (t_cpu_ticks_total t + wrap 64 (now - t_run_start_ticks t)))
    (t_kernel_stack_top t) (t_saved_userspace_context t).

Definition is_terminated (st : ThreadState) : bool := bool_decide (st = Terminated).

Definition is_blocked (st : ThreadState) : bool :=
  match st with
  | Blocked | BlockedOnSignal | BlockedOnChildExit | BlockedOnTimer | BlockedOnIO => true
  | Running | Ready | Terminated => false
  end.

(** * State *)

Record CpuSchedulerState := mkCpu {
  current_thread : option u64;
  idle_thread : u64;
  previous_thread : option u64;
  pending_next : option u64;
  last_schedule_ticks : u64;
}.

Definition EMPTY_STATE : CpuSchedulerState := mkCpu None 0 None None 0.

Definition cpu_set_current (x : option u64) (c : CpuSchedulerState) : CpuSchedulerState :=
  mkCpu x (idle_thread c) (previous_thread c) (pending_next c) (last_schedule_ticks c).
Definition cpu_set_idle (x : u64) (c : CpuSchedulerState) : CpuSchedulerState :=
  mkCpu (current_thread c) x (previous_thread c) (pending_next c) (last_schedule_ticks c).
Definition cpu_set_previous (x : option u64) (c : CpuSchedulerState) : CpuSchedulerState :=
  mkCpu (current_thread c) (idle_thread c) x (pending_next c) (last_schedule_ticks c).
Definition cpu_set_pending (x : option u64) (c : CpuSchedulerState) : CpuSchedulerState :=
  mkCpu (current_thread c) (idle_thread c) (previous_thread c) x (last_schedule_ticks c).
Definition cpu_set_ticks (x : u64) (c : CpuSchedulerState) : CpuSchedulerState :=
  mkCpu (current_thread c) (idle_thread c) (previous_thread c) (pending_next c) x.

Record RetirementFence := mkFence { f_epochs : list u64; f_online_mask : u64 }.
Record RetirementGrace := mkGrace { g_thread_id : u64; g_after_epoch : RetirementFence }.

(** A slot of [EXIT_KICK_SLOTS]: the state word holds a generation above a
    lock bit and an observed bit. *)
Record KickSlot := mkKick { k_pid : u64; k_at : u64; k_state : u64 }.

(** The timer heap is the list of its entries in the order [pop] gives them. *)
Record Scheduler := mkScheduler {
  threads : list Thread;
  per_cpu_queues : list (list u64);
  cpu_state : list CpuSchedulerState;
  timer_heap : list (u64 * u64);
  retirement_grace : list RetirementGrace;
}.

(** [sgis] records the CPUs a reschedule interrupt was sent to, latest last. *)
Record System := mkSystem {
  scheduler : Scheduler;
  NEED_RESCHED : bool;
  cpu_need_resched : list bool;
  CPU_IS_IDLE : list bool;
  ISR_WAKEUP_BUFFERS : list (list u64);
  SCHEDULING_EPOCHS : list u64;
  EXIT_KICK_SLOTS : list KickSlot;
  DEFERRED_REQUEUE : list u64;
  sgis : list nat;
}.

Definition on_sched (f : Scheduler → Scheduler) (s : System) : System :=
  mkSystem (f (scheduler s)) (NEED_RESCHED s) (cpu_need_resched s) (CPU_IS_IDLE s)
    (ISR_WAKEUP_BUFFERS s) (SCHEDULING_EPOCHS s) (EXIT_KICK_SLOTS s) (DEFERRED_REQUEUE s) (sgis s).

Definition set_threads (x : list Thread) (s : System) : System :=
  on_sched (λ sc, mkScheduler x (per_cpu_queues sc) (cpu_state sc) (timer_heap sc) (retirement_grace sc)) s.
Definition set_queues (x : list (list u64)) (s : System) : System :=
  on_sched (λ sc, mkScheduler (threads sc) x (cpu_state sc) (timer_heap sc) (retirement_grace sc)) s.
Definition set_cpus (x : list CpuSchedulerState) (s : System) : System :=
  on_sched (λ sc, mkScheduler (threads sc) (per_cpu_queues sc) x (timer_heap sc) (retirement_grace sc)) s.
Definition set_heap (x : list (u64 * u64)) (s : System) : System :=
  on_sched (λ sc, mkScheduler (threads sc) (per_cpu_queues sc) (cpu_state sc) x (retirement_grace sc)) s.
Definition set_grace (x : list RetirementGrace) (s : System) : System :=
  on_sched (λ sc, mkScheduler (threads sc) (per_cpu_queues sc) (cpu_state sc) (timer_heap sc) x) s.

Definition set_flags (g : bool) (per_cpu : list bool) (s : System) : System :=
  mkSystem (scheduler s) g per_cpu (CPU_IS_IDLE s) (ISR_WAKEUP_BUFFERS s)
    (SCHEDULING_EPOCHS s) (EXIT_KICK_SLOTS s) (DEFERRED_REQUEUE s) (sgis s).
Definition set_idle_flags (x : list bool) (s : System) : System :=
  mkSystem (scheduler s) (NEED_RESCHED s) (cpu_need_resched s) x (ISR_WAKEUP_BUFFERS s)
    (SCHEDULING_EPOCHS s) (EXIT_KICK_SLOTS s) (DEFERRED_REQUEUE s) (sgis s).
Definition set_buffers (x : list (list u64)) (s : System) : System :=
  mkSystem (scheduler s) (NEED_RESCHED s) (cpu_need_resched s) (CPU_IS_IDLE s) x
    (SCHEDULING_EPOCHS s) (EXIT_KICK_SLOTS s) (DEFERRED_REQUEUE s) (sgis s).
Definition set_epochs (x : list u64) (s : System) : System :=
  mkSystem (scheduler s) (NEED_RESCHED s) (cpu_need_resched s) (CPU_IS_IDLE s)
    (ISR_WAKEUP_BUFFERS s) x (EXIT_KICK_SLOTS s) (DEFERRED_REQUEUE s) (sgis s).
Definition set_kicks (x : list KickSlot) (s : System) : System :=
  mkSystem (scheduler s) (NEED_RESCHED s) (cpu_need_resched s) (CPU_IS_IDLE s)
    (ISR_WAKEUP_BUFFERS s) (SCHEDULING_EPOCHS s) x (DEFERRED_REQUEUE s) (sgis s).
Definition set_deferred (x : list u64) (s : System) : System :=
  mkSystem (scheduler s) (NEED_RESCHED s) (cpu_need_resched s) (CPU_IS_IDLE s)
    (ISR_WAKEUP_BUFFERS s) (SCHEDULING_EPOCHS s) (EXIT_KICK_SLOTS s) x (sgis s).
Definition send_sgi (cpu : nat) (s : System) : System :=
  mkSystem (scheduler s) (NEED_RESCHED s) (cpu_need_resched s) (CPU_IS_IDLE s)
    (ISR_WAKEUP_BUFFERS s) (SCHEDULING_EPOCHS s) (EXIT_KICK_SLOTS s) (DEFERRED_REQUEUE s)
    (sgis s ++ [cpu]).

(** ** Reading and updating one thread, queue or CPU *)

Fixpoint find_thread (id : u64) (ts : list Thread) : option Thread :=
  match ts with
  | [] => None
  | t :: ts => if t_id t =? id then Some t else find_thread id ts
  end.

(** [get_thread_mut(id)] followed by the update [f]. *)
Fixpoint update_thread (id : u64) (f : Thread → Thread) (ts : list Thread) : list Thread :=
  match ts with
  | [] => []
  | t :: ts => if t_id t =? id then f t :: ts else t :: update_thread id f ts
  end.

Definition get_thread (s : System) (id : u64) : option Thread :=
  find_thread id (threads (scheduler s)).
Definition get_thread_mut (id : u64) (f : Thread → Thread) (s : System) : System :=
  set_threads (update_thread id f (threads (scheduler s))) s.

Definition cpu (s : System) (c : nat) : CpuSchedulerState :=
  default EMPTY_STATE (cpu_state (scheduler s) !! c).
Definition current (s : System) (c : nat) : option u64 := current_thread (cpu s c).
Definition idle (s : System) (c : nat) : u64 := idle_thread (cpu s c).
Definition previous (s : System) (c : nat) : option u64 := previous_thread (cpu s c).
Definition pending (s : System) (c : nat) : option u64 := pending_next (cpu s c).

Definition on_cpu (c : nat) (f : CpuSchedulerState → CpuSchedulerState) (s : System) : System :=
  set_cpus (alter f c (cpu_state (scheduler s))) s.

Definition queue (s : System) (c : nat) : list u64 := default [] (per_cpu_queues (scheduler s) !! c).
Definition on_queue (c : nat) (f : list u64 → list u64) (s : System) : System :=
  set_queues (alter f c (per_cpu_queues (scheduler s))) s.
Definition push_back (c : nat) (id : u64) (s : System) : System := on_queue c (λ q, q ++ [id]) s.

(** [q.contains(&id)], on one queue and on any. *)
Definition contains (id : u64) (q : list u64) : bool := existsb (Z.eqb id) q.
Definition in_any_queue (s : System) (id : u64) : bool :=
  existsb (contains id) (per_cpu_queues (scheduler s)).

(** [retain(|&id| id != thread_id)] *)
Definition retain_not (id : u64) (q : list u64) : list u64 := filter (λ x, x ≠ id) q.
Definition remove_from_ready_queue (id : u64) (s : System) : System :=
  set_queues (retain_not id <$> per_cpu_queues (scheduler s)) s.

Definition opt_is (o : option u64) (id : u64) : bool := bool_decide (o = Some id).

Section scheduler.
Context `{Target}.

(** [(0..MAX_CPUS).any(..)] and [.find(..)] over the CPUs. *)
Definition any_cpu (p : nat → bool) : bool := existsb p (seq 0 MAX_CPUS).
Definition find_cpu (p : nat → bool) : option nat := List.find p (seq 0 MAX_CPUS).

Definition current_cpu_of (s : System) (id : u64) : option nat :=
  find_cpu (λ c, opt_is (current s c) id).
Definition is_current_on_any_cpu (s : System) (id : u64) : bool :=
  any_cpu (λ c, opt_is (current s c) id).
Definition is_idle_thread_inner (s : System) (id : u64) : bool :=
  any_cpu (λ c, idle s c =? id).
Definition is_in_deferred_requeue (s : System) (id : u64) : bool :=
  any_cpu (λ c, opt_is (previous s c) id).

(** The deferred test of the wake paths, which exists on aarch64 only. *)
Definition wake_deferred (s : System) (id : u64) : bool :=
  is_aarch64 && is_in_deferred_requeue s id.

Definition set_cpu_idle (c : nat) (b : bool) (s : System) : System :=
  set_idle_flags (<[c:=b]> (CPU_IS_IDLE s)) s.

(** [per_cpu::set_need_resched(true)], and with the global flag. *)
Definition set_cpu_need_resched (e : Env) (s : System) : System :=
  set_flags (NEED_RESCHED s) (<[e_cpu e:=true]> (cpu_need_resched s)) s.
Definition set_need_resched (e : Env) (s : System) : System :=
  set_flags true (<[e_cpu e:=true]> (cpu_need_resched s)) s.

Definition check_and_clear_need_resched (e : Env) (s : System) : bool * System :=
  (default false (cpu_need_resched s !! e_cpu e) || NEED_RESCHED s,
   set_flags false (<[e_cpu e:=false]> (cpu_need_resched s)) s).

Definition is_need_resched (e : Env) (s : System) : bool :=
  default false (cpu_need_resched s !! e_cpu e) || NEED_RESCHED s.

Definition yield_current (e : Env) (s : System) : System := set_need_resched e s.

(** ** Creation *)

Definition Scheduler_new (e : Env) (idle_thread : Thread) : Scheduler :=
  mkScheduler [idle_thread] (replicate MAX_CPUS [])
    (<[0%nat := mkCpu (Some (t_id idle_thread)) (t_id idle_thread) None None (e_ticks e AtEntry)]>
       (replicate MAX_CPUS EMPTY_STATE))
    [] [].

(** [init_with_current], and the statics as they are at boot. *)
Definition init_with_current (e : Env) (current_thread : Thread) : System :=
  on_cpu 0 (cpu_set_current (Some (t_id current_thread)))
    (mkSystem (Scheduler_new e current_thread) false (replicate MAX_CPUS false)
       (replicate MAX_CPUS false) (replicate 8 (replicate ISR_WAKEUP_SLOTS ISR_WAKEUP_EMPTY))
       (replicate MAX_CPUS 0) (replicate 64 (mkKick 0 0 0)) (replicate 8 0) []).

(** ** Placement *)

Definition online_cpu_count (e : Env) : nat :=
  if is_aarch64 then Nat.max 1 (Nat.min (e_cpus_online e) MAX_CPUS) else MAX_CPUS.

Definition cpu_dispatch_stale (e : Env) (s : System) (c : nat) : bool :=
  CPU_STALL_TICKS <? wrap 64 (e_ticks e (AtStale c) - last_schedule_ticks (cpu s c)).

Definition arch_can_dispatch_here (e : Env) : bool := if is_aarch64 then e_can_dispatch e else true.

Definition cpu_accepts_wakeups (e : Env) (s : System) (c : nat) : bool :=
  if (online_cpu_count e <=? c)%nat then false
  else if (c =? e_cpu e)%nat && arch_can_dispatch_here e then true
  else negb (cpu_dispatch_stale e s c).

(** [Iterator::min_by_key]: the first of the smallest elements. *)
Fixpoint min_by_key (key : nat → nat) (l : list nat) : option nat :=
  match l with
  | [] => None
  | x :: l =>
      match min_by_key key l with
      | None => Some x
      | Some y => Some (if (key y <? key x)%nat then y else x)
      end
  end.

Definition least_loaded_cpu (e : Env) (s : System) : nat :=
  default (e_cpu e)
    (min_by_key (λ c, length (queue s c))
       (filter (λ c, cpu_accepts_wakeups e s c = true) (seq 0 (online_cpu_count e)))).

Definition find_target_cpu_for_wakeup (e : Env) (s : System) (id : u64) : nat :=
  match current_cpu_of s id with
  | Some c => c
  | None => least_loaded_cpu e s
  end.

(** One turn of the loop of [reclaim_unschedulable_cpu_queues]: the queue of
    another CPU that is offline or stalled moves behind this CPU's own. *)
Definition reclaim_cpu_queue (e : Env) (s : System) (c : nat) : System :=
  if (c =? e_cpu e)%nat then s
  else
    let offline := (online_cpu_count e <=? c)%nat in
    let stalled := negb offline && negb (cpu_accepts_wakeups e s c) in
    if negb offline && negb stalled then s
    else on_queue (e_cpu e) (λ q, q ++ queue s c) (on_queue c (λ _, []) s).

Definition reclaim_unschedulable_cpu_queues (e : Env) (s : System) : System :=
  foldl (reclaim_cpu_queue e) s (seq 0 MAX_CPUS).

Definition register_idle_thread (e : Env) (c : nat) (idle_thread : Thread) (s : System) : System :=
  if (MAX_CPUS <=? c)%nat then s
  else
    let s := set_threads (threads (scheduler s) ++ [idle_thread]) s in
    on_cpu c (λ st, cpu_set_ticks (e_ticks e AtEntry)
                      (cpu_set_current (Some (t_id idle_thread)) (cpu_set_idle (t_id idle_thread) st))) s.

Definition add_thread_inner (e : Env) (t : Thread) (front : bool) (s : System) : System :=
  let s := set_threads (threads (scheduler s) ++ [t]) s in
  on_queue (least_loaded_cpu e s) (λ q, if front then t_id t :: q else q ++ [t_id t]) s.
Definition add_thread (e : Env) (t : Thread) : System → System := add_thread_inner e t false.
Definition add_thread_front (e : Env) (t : Thread) : System → System := add_thread_inner e t true.

Definition add_thread_as_current (e : Env) (t : Thread) (s : System) : System :=
  let s := set_threads (threads (scheduler s) ++ [with_started true (with_state Running t)]) s in
  on_cpu (e_cpu e) (cpu_set_current (Some (t_id t))) s.

(** ** Reschedule interrupts *)

Definition wake_if_idle (e : Env) (s : System) (c : nat) : System :=
  if (c =? e_cpu e)%nat then s
  else if (c <? MAX_CPUS)%nat && opt_is (current s c) (idle s c) then send_sgi c s
  else s.

Definition send_resched_ipi (e : Env) (s : System) : System :=
  foldl (wake_if_idle e) s (seq 0 (e_cpus_online e)).

Definition send_resched_ipi_to_cpu (e : Env) (c : nat) (s : System) : System :=
  if (c =? e_cpu e)%nat then s
  else if (MAX_CPUS <=? c)%nat || (e_cpus_online e <=? c)%nat then s
  else send_sgi c s.

(** [spawn] and [spawn_front]; the scheduler is initialised. *)
Definition spawn_with (add : System → System) (e : Env) (s : System) : System :=
  let s := set_need_resched e (add s) in
  if is_aarch64 then send_resched_ipi e s else s.
Definition spawn (e : Env) (t : Thread) : System → System := spawn_with (add_thread e t) e.
Definition spawn_front (e : Env) (t : Thread) : System → System := spawn_with (add_thread_front e t) e.

(** ** Waking *)

(** The part the wake paths share: a thread that is nowhere current, not still
    switching out, not this CPU's idle thread and not queued goes to the queue
    of the chosen CPU, which is returned. *)
Definition enqueue_woken (e : Env) (id : u64) (s : System) : System * option nat :=
  if negb (is_current_on_any_cpu s id) && negb (wake_deferred s id)
     && negb (id =? idle s (e_cpu e)) && negb (in_any_queue s id)
  then let target := find_target_cpu_for_wakeup e s id in (push_back target id s, Some target)
  else (s, None).

Inductive UnblockOutcome := Transitioned | AlreadyRunnable | NotFound.

Definition unblock (e : Env) (id : u64) (s : System) : System * UnblockOutcome :=
  match get_thread s id with
  | None => (s, NotFound)
  | Some t =>
      match t_state t with
      | Blocked | BlockedOnSignal | BlockedOnTimer | BlockedOnIO =>
          let s := get_thread_mut id set_ready s in
          let current_cpu := current_cpu_of s id in
          let '(s, queued) := enqueue_woken e id s in
          let s :=
            if is_aarch64 then
              match queued, current_cpu with
              | Some _, _ => send_resched_ipi e s
              | None, Some target => send_resched_ipi_to_cpu e target s
              | None, None => s
              end
            else s in
          (s, Transitioned)
      | Ready | Running => (s, AlreadyRunnable)
      | BlockedOnChildExit | Terminated => (s, NotFound)
      end
  end.

Record IoWakeResult := mkWake { enqueued_target : option nat; wake_current_cpu : option nat }.

Definition resched_target (w : IoWakeResult) : option nat :=
  match enqueued_target w with Some c => Some c | None => wake_current_cpu w end.

Definition wake_io_thread_locked (e : Env) (id : u64) (s : System) : System * IoWakeResult :=
  match get_thread s id with
  | None => (s, mkWake None None)
  | Some t =>
      let '(s, should_queue) :=
        match t_state t with
        | BlockedOnIO => (get_thread_mut id (λ t, with_wake None (set_ready t)) s, true)
        | Blocked => (get_thread_mut id (λ t, with_syscall false (with_wake None (set_ready t))) s, true)
        | Ready => (s, t_blocked_in_syscall t)
        | _ => (s, false)
        end in
      if should_queue : bool then
        let current_cpu := current_cpu_of s id in
        let '(s, target) := enqueue_woken e id s in
        (set_need_resched e s, mkWake target current_cpu)
      else (s, mkWake None None)
  end.

Definition unblock_for_io (e : Env) (id : u64) (s : System) : System :=
  let '(s, wake) := wake_io_thread_locked e id s in
  if is_aarch64 then
    match resched_target wake with
    | Some target => send_resched_ipi_to_cpu e target s
    | None => s
    end
  else s.

Definition wake_waitqueue_thread (e : Env) (id : u64) (s : System) : System := unblock_for_io e id s.

(** The wake paths for one blocked state, [BlockedOnSignal] and
    [BlockedOnChildExit]. *)
Definition wake_dedicated (e : Env) (id : u64) (s : System) : System :=
  let s := get_thread_mut id set_ready s in
  let '(s, queued) := enqueue_woken e id s in
  let s := if is_aarch64 && bool_decide (is_Some queued) then send_resched_ipi e s else s in
  set_need_resched e s.

Definition unblock_for_signal (e : Env) (id : u64) (s : System) : System :=
  match get_thread s id with
  | None => s
  | Some t =>
      match t_state t with
      | BlockedOnIO => unblock_for_io e id s
      | BlockedOnSignal => wake_dedicated e id s
      | _ => s
      end
  end.

Definition unblock_for_child_exit (e : Env) (id : u64) (s : System) : System :=
  match get_thread s id with
  | None => s
  | Some t =>
      match t_state t with
      | BlockedOnChildExit => wake_dedicated e id s
      | _ => s
      end
  end.

(** ** Timers *)

(** [BinaryHeap<Reverse<(u64, u64)>>::push]: the pairs stay in the order in
    which [pop] returns them. *)
Definition entry_le (a b : u64 * u64) : bool := (a.1 <? b.1) || ((a.1 =? b.1) && (a.2 <=? b.2)).

Fixpoint heap_push (x : u64 * u64) (heap : list (u64 * u64)) : list (u64 * u64) :=
  match heap with
  | [] => [x]
  | y :: heap => if entry_le x y then x :: y :: heap else y :: heap_push x heap
  end.

Definition is_timed_wait (t : Thread) : bool :=
  match t_state t with
  | BlockedOnTimer | BlockedOnIO => bool_decide (is_Some (t_wake_time_ns t))
  | _ => false
  end.

Definition timer_woken (t : Thread) : Thread :=
  let was_blocked_on_io := bool_decide (t_state t = BlockedOnIO) in
  let t := with_wake None (with_state Ready t) in
  if was_blocked_on_io then t else with_syscall false t.

(** The body of the loop for an expired entry. *)
Definition wake_timer (e : Env) (id : u64) (s : System) : System :=
  match get_thread s id with
  | None => s
  | Some t =>
      if negb (is_timed_wait t) then s
      else if is_current_on_any_cpu s id then get_thread_mut id timer_woken s
      else
        let in_deferred_requeue := wake_deferred s id in
        let is_idle := id =? idle s (e_cpu e) in
        let already_queued := in_any_queue s id in
        let s := get_thread_mut id timer_woken s in
        if negb in_deferred_requeue && negb is_idle && negb already_queued
        then push_back (find_target_cpu_for_wakeup e s id) id s
        else s
  end.

Fixpoint wake_expired_loop (e : Env) (heap : list (u64 * u64)) (s : System) : System :=
  match heap with
  | [] => s
  | (wake_time, id) :: heap =>
      if e_now_ns e <? wake_time then s
      else wake_expired_loop e heap (wake_timer e id (set_heap heap s))
  end.

Definition wake_expired_timers (e : Env) (s : System) : System :=
  wake_expired_loop e (timer_heap (scheduler s)) s.

(** ** Blocking the current thread *)

(** The common shape: the current thread is charged and changed by [f]. *)
Definition block_current_with (e : Env) (f : Thread → Thread) (id : u64) (s : System) : System :=
  get_thread_mut id (λ t, f (charge (e_ticks e AtCharge) t)) s.

Definition block_current (e : Env) (s : System) : System :=
  match current s (e_cpu e) with
  | Some id => block_current_with e set_blocked id s
  | None => s
  end.

Definition save_context (ctx : option (list u64)) (t : Thread) : Thread :=
  match ctx with Some _ => with_context ctx t | None => t end.

Definition block_current_for_signal_with_context (e : Env) (ctx : option (list u64)) (s : System) : System :=
  match current s (e_cpu e) with
  | Some id =>
      remove_from_ready_queue id
        (block_current_with e (λ t, with_syscall true (with_state BlockedOnSignal (save_context ctx t))) id s)
  | None => s
  end.

Definition block_current_for_signal (e : Env) : System → System :=
  block_current_for_signal_with_context e None.

Definition block_current_for_child_exit (e : Env) (s : System) : System :=
  match current s (e_cpu e) with
  | Some id =>
      remove_from_ready_queue id
        (block_current_with e (λ t, with_syscall true (with_state BlockedOnChildExit t)) id s)
  | None => s
  end.

Definition push_timer (wake_time_ns id : u64) (s : System) : System :=
  set_heap (heap_push (wake_time_ns, id) (timer_heap (scheduler s))) s.

Definition timer_blocked (wake_time_ns : u64) (t : Thread) : Thread :=
  with_syscall true (with_wake (Some wake_time_ns) (with_state BlockedOnTimer t)).

Definition block_current_for_timer (e : Env) (wake_time_ns : u64) (s : System) : System :=
  match current s (e_cpu e) with
  | Some id =>
      let s := block_current_with e (timer_blocked wake_time_ns) id s in
      let s := if is_aarch64 then set_cpu_idle (e_cpu e) true s else s in
      remove_from_ready_queue id (push_timer wake_time_ns id s)
  | None => s
  end.

Definition block_current_for_compositor (e : Env) (timeout_ns : u64) (s : System) : System :=
  match current s (e_cpu e) with
  | Some id =>
      let s := block_current_with e (timer_blocked timeout_ns) id s in
      remove_from_ready_queue id (push_timer timeout_ns id s)
  | None => s
  end.

Definition publish_current_io_wait_state_inner (e : Env) (wake_time_ns : option u64) (s : System)
  : System * option u64 :=
  match current s (e_cpu e) with
  | Some id =>
      match get_thread s id with
      | Some _ =>
          (block_current_with e (λ t, with_syscall true (with_wake wake_time_ns (with_state BlockedOnIO t))) id s,
           Some id)
      | None => (s, None)
      end
  | None => (s, None)
  end.

Definition publish_current_io_wait_state (e : Env) (s : System) : System * bool :=
  let '(s, id) := publish_current_io_wait_state_inner e None s in (s, bool_decide (is_Some id)).

Definition block_current_for_io_with_timeout (e : Env) (wake_time_ns : option u64) (s : System)
  : System * bool :=
  match publish_current_io_wait_state_inner e wake_time_ns s with
  | (s, Some id) =>
      let s := match wake_time_ns with Some wt => push_timer wt id s | None => s end in
      (remove_from_ready_queue id s, true)
  | (s, None) => (s, false)
  end.

Definition block_current_for_io (e : Env) (s : System) : System :=
  (block_current_for_io_with_timeout e None s).1.

Definition terminate_current (e : Env) (s : System) : System :=
  let s := match current s (e_cpu e) with
           | Some id => get_thread_mut id set_terminated s
           | None => s
           end in
  on_cpu (e_cpu e) (cpu_set_current None) s.

(** ** Exit kicks *)

Definition EXIT_KICK_BUCKETS : Z := 64.
Definition EXIT_KICK_LOCK : u64 := 2.
Definition EXIT_KICK_OBSERVED_BIT : u64 := 1.

Record KickReservation := mkReservation { displaced_state : u64; reserved_generation : u64 }.
Inductive KickPublishResult := Published (generation : u64) (displaced : bool) | ReservationLost.

(** The compare-exchange of an undisturbed slot succeeds at once. *)
Definition reserve (slot : KickSlot) : option (KickReservation * KickSlot) :=
  if negb (Z.land (k_state slot) EXIT_KICK_LOCK =? 0) then None
  else
    let generation := wrap 64 (Z.shiftr (k_state slot) 2 + 1) in
    Some (mkReservation (k_state slot) generation,
          mkKick (k_pid slot) (k_at slot) (Z.lor (wrap 64 (Z.shiftl generation 2)) EXIT_KICK_LOCK)).

Definition commit (r : KickReservation) (pid at_ : u64) (slot : KickSlot) : KickPublishResult * KickSlot :=
  let displaced := negb (Z.shiftr (displaced_state r) 2 =? 0)
                   && (Z.land (displaced_state r) EXIT_KICK_OBSERVED_BIT =? 0)
                   && negb (k_pid slot =? pid) in
  (Published (reserved_generation r) displaced,
   mkKick pid at_ (wrap 64 (Z.shiftl (reserved_generation r) 2))).

Definition publish (pid at_ : u64) (slot : KickSlot) : KickPublishResult * KickSlot :=
  match reserve slot with
  | Some (r, slot) => commit r pid at_ slot
  | None => (ReservationLost, slot)
  end.

Definition observe (expected_pid : u64) (slot : KickSlot) : option KickSlot :=
  if (Z.shiftr (k_state slot) 2 =? 0)
     || negb (Z.land (k_state slot) (Z.lor EXIT_KICK_LOCK EXIT_KICK_OBSERVED_BIT) =? 0) then None
  else if negb (k_pid slot =? expected_pid) then None
  else Some (mkKick (k_pid slot) (k_at slot) (Z.lor (k_state slot) EXIT_KICK_OBSERVED_BIT)).

Definition is_observed_for (expected_pid : u64) (slot : KickSlot) : bool :=
  if (Z.shiftr (k_state slot) 2 =? 0) || negb (Z.land (k_state slot) EXIT_KICK_LOCK =? 0)
     || (Z.land (k_state slot) EXIT_KICK_OBSERVED_BIT =? 0) then false
  else k_pid slot =? expected_pid.

Definition kick_bucket (pid : u64) : nat := Z.to_nat (pid mod EXIT_KICK_BUCKETS).

Definition observe_exit_kick (thread_pid : u64) (s : System) : bool * System :=
  if is_aarch64 then
    let slot := default (mkKick 0 0 0) (EXIT_KICK_SLOTS s !! kick_bucket thread_pid) in
    match observe thread_pid slot with
    | Some slot => (true, set_kicks (<[kick_bucket thread_pid := slot]> (EXIT_KICK_SLOTS s)) s)
    | None => (is_observed_for thread_pid slot, s)
    end
  else (true, s).

(** [timestamp] is the trace clock when the kick is published. *)
Definition send_exit_expedite_sgi (e : Env) (victim_pid timestamp : u64) (s : System) : System :=
  if is_aarch64 then
    let bucket := kick_bucket victim_pid in
    let slot := default (mkKick 0 0 0) (EXIT_KICK_SLOTS s !! bucket) in
    let s := set_kicks (<[bucket := (publish victim_pid timestamp slot).2]> (EXIT_KICK_SLOTS s)) s in
    foldl (λ s c, if (c =? e_cpu e)%nat then s else send_sgi c s) s
      (seq 0 (Nat.min (e_cpus_online e) MAX_CPUS))
  else s.

(** One victim of [terminate_process_threads]: it becomes Terminated and one
    token of it is queued where a queue has room without allocating. *)
Definition terminate_at (e : Env) (owner_pid : u64) (s : System) (index : nat) : System :=
  match threads (scheduler s) !! index with
  | None => s
  | Some t =>
      if bool_decide (t_owner_pid t = Some owner_pid) then
        let s := set_threads (<[index := set_terminated t]> (threads (scheduler s))) s in
        if in_any_queue s (t_id t) then s
        else
          match min_by_key (λ c, length (queue s c))
                  (filter (λ c, (length (queue s c) < e_capacity e c)%nat) (seq 0 (online_cpu_count e))) with
          | Some target => push_back target (t_id t) s
          | None => s
          end
      else s
  end.

Definition terminate_process_threads (e : Env) (owner_pid : u64) (s : System) : System :=
  foldl (terminate_at e owner_pid) s (seq 0 (length (threads (scheduler s)))).

(** ** Wakeups from interrupt handlers *)

Inductive IsrWakePush := Inserted | AlreadyPending | Full.

(** Without a concurrent push the compare-exchange of an empty slot succeeds. *)
Fixpoint IsrWakeupBuffer_push (id : u64) (slots : list u64) : IsrWakePush * list u64 :=
  match slots with
  | [] => (Full, [])
  | pending :: slots =>
      if pending =? id then (AlreadyPending, pending :: slots)
      else if pending =? ISR_WAKEUP_EMPTY then (Inserted, id :: slots)
      else let '(r, slots) := IsrWakeupBuffer_push id slots in (r, pending :: slots)
  end.

Definition IsrWakeupBuffer_drain (slots : list u64) : list u64 * list u64 :=
  (filter (λ id, id ≠ ISR_WAKEUP_EMPTY) slots, replicate (length slots) ISR_WAKEUP_EMPTY).

(** The drain at the start of [schedule] and [schedule_deferred_requeue]. *)
Definition drain_isr_wakeups (e : Env) (s : System) : System :=
  let wakeups := concat ((λ b, (IsrWakeupBuffer_drain b).1) <$> ISR_WAKEUP_BUFFERS s) in
  let s := set_buffers ((λ b, (IsrWakeupBuffer_drain b).2) <$> ISR_WAKEUP_BUFFERS s) s in
  foldl (λ s id, unblock_for_io e id s) s wakeups.

Inductive WakeOutcome := Applied | WakeAlreadyRunnable | Buffered | Rejected.

Definition wake_outcome (o : UnblockOutcome) : WakeOutcome :=
  match o with
  | Transitioned => Applied
  | AlreadyRunnable => WakeAlreadyRunnable
  | NotFound => Rejected
  end.

Definition buffer_isr_wakeup (e : Env) (id : u64) (s : System) : System * WakeOutcome :=
  match ISR_WAKEUP_BUFFERS s !! e_cpu e with
  | None => (s, Rejected)
  | Some slots =>
      match IsrWakeupBuffer_push id slots with
      | (Inserted, slots) => (set_buffers (<[e_cpu e:=slots]> (ISR_WAKEUP_BUFFERS s)) s, Buffered)
      | (AlreadyPending, slots) => (s, Buffered)
      | (Full, _) =>
          if negb (e_in_interrupt e) then let '(s, o) := unblock e id s in (s, wake_outcome o)
          else (s, Rejected)
      end
  end.

Definition isr_unblock_for_io (e : Env) (id : u64) (s : System) : System :=
  set_need_resched e (buffer_isr_wakeup e id s).1.

(** [wake_thread_any_context] once per-CPU data is initialised. *)
Definition wake_thread_any_context (e : Env) (id : u64) (s : System) : System * WakeOutcome :=
  if e_in_interrupt e then
    match buffer_isr_wakeup e id s with
    | (s, Buffered) => (set_need_resched e s, Buffered)
    | r => r
    end
  else
    match unblock e id s with
    | (s, Transitioned) => (set_need_resched e s, Applied)
    | (s, o) => (s, wake_outcome o)
    end.

(** ** Choosing the next thread *)

Definition get_state (s : System) (id : u64) : option ThreadState := t_state <$> get_thread s id.

(** [get_thread(n).map(..).unwrap_or((false, None))], [None] when [n] may be
    dispatched: the owner of a terminated thread. *)
Definition terminated_owner (s : System) (id : u64) : option (option u64) :=
  match get_thread s id with
  | Some t => if is_terminated (t_state t) then Some (t_owner_pid t) else None
  | None => None
  end.

(** The inner loop over at most [n] candidates of the queue of [c]: the first
    thread that is not terminated is taken; a terminated one is dropped, or put
    back when its exit kick has not been observed yet. *)
Fixpoint pop_candidates (n : nat) (c : nat) (s : System) : option u64 * System :=
  match n with
  | O => (None, s)
  | S n =>
      match queue s c with
      | [] => (None, s)
      | id :: rest =>
          let s := on_queue c (λ _, rest) s in
          match terminated_owner s id with
          | None => (Some id, s)
          | Some None => pop_candidates n c s
          | Some (Some pid) =>
              let '(observed, s) := observe_exit_kick pid s in
              pop_candidates n c (if observed : bool then s else push_back c id s)
          end
      end
  end.

(** The queues in the order they are tried: the CPU's own, then the others. *)
Definition pop_queues (cpus : list nat) (s : System) : option u64 * System :=
  foldl (λ '(found, s) c,
           match found with
           | Some id => (Some id, s)
           | None => pop_candidates (length (queue s c)) c s
           end) (None, s) cpus.

Definition steal_order (c : nat) : list nat := c :: filter (λ c', c' ≠ c) (seq 0 MAX_CPUS).

(** The labelled loop: a queued thread, else the idle thread of the CPU. *)
Definition pick_next (e : Env) (s : System) : u64 * System :=
  let '(found, s) := pop_queues (steal_order (e_cpu e)) s in
  (default (idle s (e_cpu e)) found, s).

(** [pop_front] of the first non-empty queue, in the same order, without
    looking at the thread. *)
Fixpoint pop_first (cpus : list nat) (s : System) : option u64 * System :=
  match cpus with
  | [] => (None, s)
  | c :: cpus =>
      match queue s c with
      | [] => pop_first cpus s
      | id :: rest => (Some id, on_queue c (λ _, rest) s)
      end
  end.

Definition any_queued (s : System) : bool :=
  existsb (λ q, negb (bool_decide (q = []))) (per_cpu_queues (scheduler s)).

Definition is_userspace (s : System) (id : u64) : bool :=
  match get_thread s id with
  | Some t => bool_decide (t_privilege t = User)
  | None => false
  end.

(** [position] and [remove] in the first queue that holds the thread. *)
Fixpoint remove_first (id : u64) (q : list u64) : list u64 :=
  match q with
  | [] => []
  | x :: q => if x =? id then q else x :: remove_first id q
  end.

Fixpoint remove_once (id : u64) (qs : list (list u64)) : list (list u64) :=
  match qs with
  | [] => []
  | q :: qs => if contains id q then remove_first id q :: qs else q :: remove_once id qs
  end.

(** The wake of the loopback pump thread in [schedule]. *)
Definition rearm_loopback_pump (e : Env) (s : System) : System :=
  if e_loopback_work e && negb (e_pump_tid e =? 0) then (unblock e (e_pump_tid e) s).1 else s.

(** The current thread in [schedule]: still runnable, it is charged, becomes
    Ready and is queued unless it already is. *)
Definition schedule_current (e : Env) (s : System) : System :=
  let c := e_cpu e in
  match current s c with
  | None => s
  | Some id =>
      if id =? idle s c then s
      else
        match get_thread s id with
        | None => s
        | Some t =>
            if negb (is_blocked (t_state t)) && negb (is_terminated (t_state t)) then
              let s := get_thread_mut id (λ t, set_ready (charge (e_ticks e AtCharge) t)) s in
              if in_any_queue s id then s else push_back c id s
            else get_thread_mut id (with_start_ticks (e_ticks e AtCharge)) s
        end
  end.

(** The handling of the case that the picked thread is the current one: the
    thread to switch to, or [None] to keep running it. *)
Definition schedule_same (e : Env) (next : u64) (s : System) : option u64 * System :=
  let c := e_cpu e in
  if negb (opt_is (current s c) next) then (Some next, s)
  else if any_queued s then pop_first (steal_order c) (push_back c next s)
  else if negb (next =? idle s c) then
    if is_aarch64 && is_userspace s next then
      let s := get_thread_mut next set_running s in
      (None, set_queues (remove_once next (per_cpu_queues (scheduler s))) s)
    else (Some (idle s c), set_cpu_need_resched e (push_back c next s))
  else (None, s).

(** [schedule]: the old and the new thread. *)
Definition schedule (e : Env) (s : System) : option (u64 * u64) * System :=
  let c := e_cpu e in
  let s := on_cpu c (cpu_set_ticks (e_ticks e AtEntry)) s in
  let s := reclaim_unschedulable_cpu_queues e s in
  let s := drain_isr_wakeups e s in
  let s := rearm_loopback_pump e s in
  let s := schedule_current e s in
  let s := wake_expired_timers e s in
  let '(next, s) := pick_next e s in
  match schedule_same e next s with
  | (None, s) => (None, s)
  | (Some next, s) =>
      let old := default (idle s c) (current s c) in
      let s := on_cpu c (cpu_set_current (Some next)) s in
      let s := get_thread_mut next (λ t, with_start_ticks (e_ticks e AtDispatch) (set_running t)) s in
      match get_thread s old, get_thread s next with
      | Some _, Some _ => (Some (old, next), s)
      | _, _ => (None, s)
      end
  end.

(** ** The scheduling decision of aarch64 *)

Definition deferred_requeue_contains (s : System) (id : u64) : bool := contains id (DEFERRED_REQUEUE s).

Definition resolve_pending_next_locked (e : Env) (c : nat) (s : System) : System :=
  match pending s c with
  | None => s
  | Some id =>
      if is_idle_thread_inner s id || is_current_on_any_cpu s id || in_any_queue s id
         || is_in_deferred_requeue s id || deferred_requeue_contains s id then s
      else
        match get_state s id with
        | Some Running | Some Ready =>
            let s := get_thread_mut id set_ready s in
            let s := push_back c id (on_cpu c (cpu_set_pending None) s) in
            send_resched_ipi e (set_cpu_need_resched e s)
        | _ => s
        end
  end.

(** The current thread in [schedule_deferred_requeue]: still runnable, it is
    charged and becomes Ready; unless it is queued, it is marked as switching
    out and the caller is told to queue it once its context is saved. *)
Definition defer_current (e : Env) (s : System) : bool * System :=
  let c := e_cpu e in
  match current s c with
  | None => (false, s)
  | Some id =>
      if id =? idle s c then (false, s)
      else
        match get_thread s id with
        | None => (false, s)
        | Some t =>
            if is_terminated (t_state t) then
              (false, match t_owner_pid t with
                      | Some pid => (observe_exit_kick pid s).2
                      | None => s
                      end)
            else if is_blocked (t_state t) then (false, s)
            else
              let requeue := negb (in_any_queue s id) in
              let s := if requeue then on_cpu c (cpu_set_previous (Some id)) s else s in
              (requeue, get_thread_mut id (λ t, set_ready (charge (e_ticks e AtCharge) t)) s)
        end
  end.

(** The cases in which the picked thread is the current one: the thread to
    switch to and whether the old one is to be queued. *)
Definition deferred_same (e : Env) (next : u64) (requeue : bool) (s : System)
  : option (u64 * bool) * System :=
  let c := e_cpu e in
  if negb (opt_is (current s c) next) then (Some (next, requeue), s)
  else if any_queued s then
    match pop_first (steal_order c) s with
    | (Some id, s) => (Some (id, true), s)
    | (None, s) => (None, s)
    end
  else if negb (next =? idle s c) then
    if is_userspace s next then
      let s := if opt_is (previous s c) next then on_cpu c (cpu_set_previous None) s else s in
      (None, get_thread_mut next set_running s)
    else (Some (idle s c, true), set_cpu_need_resched e s)
  else (None, s).

(** The start of [schedule_deferred_requeue]: the CPU reports in, stranded
    queues are adopted, a choice that was never committed is undone and the
    wakeups buffered by interrupt handlers are applied. *)
Definition prepare_decision (e : Env) (s : System) : System :=
  let c := e_cpu e in
  let s := on_cpu c (cpu_set_ticks (e_ticks e AtEntry)) s in
  let s := reclaim_unschedulable_cpu_queues e s in
  let s := resolve_pending_next_locked e c s in
  let s := set_cpu_idle c (opt_is (current s c) (idle s c)) s in
  drain_isr_wakeups e s.

(** Its end: the chosen thread is marked Running and published as pending. *)
Definition publish_choice (e : Env) (next : u64) (requeue : bool) (s : System)
  : option (u64 * u64 * bool) * System :=
  let c := e_cpu e in
  let old := default (idle s c) (current s c) in
  let s := get_thread_mut next (λ t, with_start_ticks (e_ticks e AtDispatch) (set_running t)) s in
  let s := on_cpu c (cpu_set_pending (Some next)) s in
  (Some (old, next, requeue), set_cpu_idle c (next =? idle s c) s).

(** [schedule_deferred_requeue]: the old thread, the new thread and whether to
    queue the old one after its context is saved. *)
Definition schedule_deferred_requeue (e : Env) (s : System) : option (u64 * u64 * bool) * System :=
  let s := prepare_decision e s in
  let '(requeue, s) := defer_current e s in
  let s := wake_expired_timers e s in
  let '(next, s) := pick_next e s in
  match deferred_same e next requeue s with
  | (None, s) => (None, s)
  | (Some (next, requeue), s) => publish_choice e next requeue s
  end.

Definition commit_cpu_state_after_save (e : Env) (new_thread_id : u64) (s : System) : System :=
  on_cpu (e_cpu e)
    (λ st, let st := cpu_set_current (Some new_thread_id) st in
           if opt_is (pending_next st) new_thread_id then cpu_set_pending None st else st) s.

(** [requeue_thread_after_save] once its marker is cleared and the thread is
    known to be neither idle, current nor switching out. *)
Definition requeue_saved (e : Env) (id : u64) (s : System) : System :=
  match get_state s id with
  | Some Ready | Some Running =>
      let publish_running := bool_decide (get_state s id = Some Running) in
      if publish_running && any_cpu (λ c, opt_is (pending s c) id) then s
      else if in_any_queue s id then s
      else
        let s := if publish_running then get_thread_mut id set_ready s else s in
        send_resched_ipi e (push_back (e_cpu e) id s)
  | _ => s
  end.

Definition requeue_thread_after_save (e : Env) (id : u64) (s : System) : System :=
  if is_idle_thread_inner s id then s
  else
    let s := if opt_is (previous s (e_cpu e)) id then on_cpu (e_cpu e) (cpu_set_previous None) s else s in
    if is_current_on_any_cpu s id then s
    else if is_in_deferred_requeue s id then s
    else requeue_saved e id s.

(** ** Retirement of terminated threads *)

Definition epoch_reached (now target : u64) : bool := wrap 64 (now - target) <? 2 ^ 63.
Definition epoch_advanced (now before : u64) : bool :=
  negb (wrap 64 (now - before) =? 0) && (wrap 64 (now - before) <? 2 ^ 63).

Definition note_scheduling_epoch (c : nat) (s : System) : System :=
  set_epochs (alter (λ n, wrap 64 (n + 1)) c (SCHEDULING_EPOCHS s)) s.

(** [RetirementSnapshot::capture]; the snapshot has the fields of a fence. *)
Definition capture (e : Env) (s : System) : RetirementFence :=
  mkFence ((λ c, default 0 (SCHEDULING_EPOCHS s !! c)) <$> seq 0 MAX_CPUS)
    (foldl (λ mask c, if (if is_aarch64 then e_is_online e c else true)
                      then Z.lor mask (Z.shiftl 1 (Z.of_nat c)) else mask) 0 (seq 0 MAX_CPUS)).

Definition in_mask (mask : u64) (c : nat) : bool := negb (Z.land mask (Z.shiftl 1 (Z.of_nat c)) =? 0).

Definition target_after (snap : RetirementFence) (advances : u64) : RetirementFence :=
  mkFence (imap (λ c n, if in_mask (f_online_mask snap) c then wrap 64 (n + advances) else n)
             (f_epochs snap)) (f_online_mask snap).

Definition epoch_at (f : RetirementFence) (c : nat) : u64 := default 0 (f_epochs f !! c).

Definition fence_elapsed (snap fence : RetirementFence) : bool :=
  if f_online_mask fence =? 0 then false
  else forallb (λ c, negb (in_mask (f_online_mask fence) c)
                     || epoch_reached (epoch_at snap c) (epoch_at fence c)) (seq 0 MAX_CPUS).

Definition all_advanced_since (snap fence : RetirementFence) : bool :=
  negb (f_online_mask fence =? 0)
  && forallb (λ c, negb (in_mask (f_online_mask fence) c)
                   || epoch_advanced (epoch_at snap c) (epoch_at fence c)) (seq 0 MAX_CPUS).

Definition retirement_grace_target (e : Env) (s : System) : RetirementFence :=
  target_after (capture e s) 2.
Definition retirement_grace_elapsed (e : Env) (target : RetirementFence) (s : System) : bool :=
  fence_elapsed (capture e s) target.

Definition find_grace (id : u64) (gs : list RetirementGrace) : option RetirementGrace :=
  List.find (λ g, g_thread_id g =? id) gs.

(** The update of the grace list: entries of threads that are no longer
    terminated go, newly terminated threads get a target. *)
Definition note_terminated (target : RetirementFence) (gs : list RetirementGrace) (id : u64)
  : list RetirementGrace :=
  match find_grace id gs with
  | Some _ => gs
  | None => gs ++ [mkGrace id target]
  end.

Definition terminated_ids (ts : list Thread) : list u64 :=
  t_id <$> filter (λ t, t_state t = Terminated) ts.

Definition update_grace (e : Env) (s : System) : System :=
  let ids := terminated_ids (threads (scheduler s)) in
  set_grace (foldl (note_terminated (retirement_grace_target e s))
               (filter (λ g, g_thread_id g ∈ ids) (retirement_grace (scheduler s))) ids) s.

Definition reclaimable (e : Env) (s : System) (t : Thread) : bool :=
  is_terminated (t_state t)
  && negb (existsb (λ st, idle_thread st =? t_id t) (cpu_state (scheduler s)))
  && match find_grace (t_id t) (retirement_grace (scheduler s)) with
     | Some g => retirement_grace_elapsed e (g_after_epoch g) s
     | None => false
     end
  && negb (match t_kernel_stack_top t with Some top => e_stack_live e top | None => false end).

Definition reclaim_terminated_threads (e : Env) (s : System) : list Thread * System :=
  let s := set_queues (filter (λ id, is_Some (get_thread s id)) <$> per_cpu_queues (scheduler s)) s in
  let s := update_grace e s in
  let reclaimed := filter (λ t, reclaimable e s t = true) (threads (scheduler s)) in
  let ids := t_id <$> reclaimed in
  let s' := set_threads (filter (λ t, reclaimable e s t = false) (threads (scheduler s))) s in
  let s' := set_grace (filter (λ g, g_thread_id g ∉ ids) (retirement_grace (scheduler s'))) s' in
  (reclaimed, set_queues (filter (λ id, id ∉ ids) <$> per_cpu_queues (scheduler s')) s').

(** ** Repairs and queries *)

Definition fix_stale_idle_cpu_state (e : Env) (real_tid : u64) (s : System) : System :=
  let c := e_cpu e in
  if opt_is (current s c) (idle s c) && negb (real_tid =? idle s c)
  then on_cpu c (cpu_set_current (Some real_tid)) s else s.

Definition fix_stale_current_thread_when_idle_executing (e : Env) (s : System) : System :=
  let c := e_cpu e in
  match current s c with
  | Some id => if id =? idle s c then s else on_cpu c (cpu_set_current (Some (idle s c))) s
  | None => s
  end.

Definition resolve_exception_cleanup_previous_thread (e : Env) (c : nat) (s : System) : System :=
  match previous s c with
  | None => s
  | Some id =>
      let is_ready := bool_decide (get_state s id = Some Ready) in
      let is_other_deferred := any_cpu (λ c', negb (c' =? c)%nat && opt_is (previous s c') id) in
      let s :=
        if is_ready && negb (is_idle_thread_inner s id) && negb (in_any_queue s id)
           && negb (is_current_on_any_cpu s id) && negb is_other_deferred
        then set_need_resched e (push_back c id s) else s in
      on_cpu c (cpu_set_previous None) s
  end.

Definition fix_exception_cleanup_cpu_state (e : Env) (s : System) : System :=
  let c := e_cpu e in
  let s := on_cpu c (cpu_set_current (Some (idle s c))) s in
  set_cpu_idle c true (resolve_exception_cleanup_previous_thread e c s).

Definition set_current_thread (e : Env) (id : u64) (s : System) : System :=
  on_cpu (e_cpu e) (cpu_set_current (Some id)) s.

Definition switch_to_idle (e : Env) (s : System) : System :=
  on_cpu (e_cpu e) (cpu_set_current (Some (idle s (e_cpu e)))) s.

Definition has_runnable_threads (e : Env) (s : System) : bool :=
  any_queued s
  || match current s (e_cpu e) with
     | Some id => match get_thread s id with Some t => is_runnable t | None => false end
     | None => false
     end.

Definition has_userspace_threads (s : System) : bool :=
  existsb (λ t, negb (existsb (λ st, idle_thread st =? t_id t) (cpu_state (scheduler s)))
                && bool_decide (t_privilege t = User) && negb (is_terminated (t_state t)))
    (threads (scheduler s)).

Definition ready_queue_length (s : System) : nat := sum_list (length <$> per_cpu_queues (scheduler s)).

(** x86_64: the paths of the interrupt return that give up a dispatch. *)
Definition requeue_refused_dispatch (e : Env) (id : u64) (s : System) : System :=
  if is_idle_thread_inner s id || is_current_on_any_cpu s id then s
  else
    match get_state s id with
    | Some Ready => if in_any_queue s id then s else push_back (e_cpu e) id s
    | _ => s
    end.

Definition abort_dispatch_and_resume (e : Env) (aborted resume : u64) (s : System) : System :=
  match get_thread s aborted, get_thread s resume with
  | Some ta, Some _ =>
      let should_queue := negb (is_terminated (t_state ta)) in
      let s := if should_queue then get_thread_mut aborted set_ready s else s in
      let s := if should_queue && negb (in_any_queue s aborted) then push_back (e_cpu e) aborted s else s in
      let s :=
        match get_state s resume with
        | Some Ready | Some Running =>
            let s := get_thread_mut resume set_running s in
            set_queues (remove_first resume <$> per_cpu_queues (scheduler s)) s
        | _ => s
        end in
      on_cpu (e_cpu e) (cpu_set_current (Some resume)) s
  | _, _ => s
  end.

(** aarch64: crash recovery, when the lock is free. *)
Definition terminate_thread_best_effort (id : u64) (s : System) : System :=
  remove_from_ready_queue id (get_thread_mut id set_terminated s).

Definition switch_to_idle_best_effort (e : Env) (s : System) : System :=
  resolve_exception_cleanup_previous_thread e (e_cpu e) (switch_to_idle e s).
Lemma contains_spec id q : contains id q = true ↔ id ∈ q.
Proof.
  unfold contains. rewrite existsb_exists. split.
  - intros (x & Hx & ->%Z.eqb_eq). by apply list_elem_of_In.
  - intros Hx. exists id. split; [by apply list_elem_of_In|apply Z.eqb_refl].
Qed.

End scheduler.
