(* ===== verification/SchedSwitch.v ===== *)
(** What the aarch64 context switch (arch_impl/aarch64/context_switch.rs) does
    to the scheduler: the interrupt return path, the switch requested by kernel
    code and the final switch of an exiting thread.  Each runs under one hold
    of the scheduler lock.  Register files, stacks and page tables are not
    modelled; their outcome, whether the chosen thread could be entered, is an
    input. *)

From S2P Require Import Prelude Sched.

#[global] Instance aarch64 : Target := AArch64.

(** How the dispatch of the chosen thread ended: resumed in kernel code,
    entered through the exception frame, given up for now because the process
    table is busy, or impossible because the context or the process is gone. *)
Inductive Dispatch := Resumed | Entered | RetryLater | Gone.

(** What the switch reads besides [Env]: the preemption counter, the saved
    state of the interrupted code, the thread pointer of the CPU and the mark
    that an exception handler redirected the CPU to idle. *)
Record SwitchEnv := mkSwitch {
  sw_env : Env;
  sw_preempt_active : bool;
  sw_preempt_guard : bool;
  sw_from_el0 : bool;
  sw_frame_el0 : bool;
  sw_thread_ptr : option u64;
  sw_cleanup : bool;
  sw_dispatch : Dispatch;
}.

Definition setup_idle_return_locked (c : nat) (s : System) : System :=
  on_cpu c (cpu_set_current (Some (idle s c))) s.

Definition dispatch_thread_locked (w : SwitchEnv) (id : u64) (s : System) : System :=
  let c := e_cpu (sw_env w) in
  match get_thread s id with
  | None => setup_idle_return_locked c s
  | Some t =>
      if is_terminated (t_state t) then setup_idle_return_locked c s
      else if is_idle_thread_inner s id then setup_idle_return_locked c s
      else
        match sw_dispatch w with
        | Resumed => s
        | Entered => get_thread_mut id (with_started true) s
        | RetryLater =>
            let s := setup_idle_return_locked c (get_thread_mut id (with_state Ready) s) in
            set_need_resched (sw_env w) (requeue_thread_after_save (sw_env w) id s)
        | Gone => setup_idle_return_locked c (get_thread_mut id (with_state Terminated) s)
        end
  end.

Definition fix_eret_cpu_state_locked (w : SwitchEnv) (s : System) : System :=
  let c := e_cpu (sw_env w) in
  if negb (sw_frame_el0 w) then s
  else
    match current s c, sw_thread_ptr w with
    | Some id, Some real_tid =>
        if is_idle_thread_inner s id && negb (is_idle_thread_inner s real_tid)
        then commit_cpu_state_after_save (sw_env w) real_tid s else s
    | _, _ => s
    end.

(** Take the thread this CPU last switched away from out of its slot. *)
Definition swap_deferred (c : nat) (id : u64) (s : System) : u64 * System :=
  (default 0 (DEFERRED_REQUEUE s !! c), set_deferred (<[c:=id]> (DEFERRED_REQUEUE s)) s).

(** Clear the switching-out mark and queue that thread, if there is one. *)
Definition drain_deferred (e : Env) (id : u64) (s : System) : System :=
  let s := on_cpu (e_cpu e) (cpu_set_previous None) s in
  if id =? 0 then s else requeue_thread_after_save e id s.

Definition blocked_or_terminated (o : option ThreadState) : bool :=
  match o with Some st => is_blocked st || is_terminated st | None => false end.

(** Steps 6 to 9 of the interrupt return path: commit the switch, leave the
    old thread in the deferred slot, dispatch the new one. *)
Definition irq_switch_to (w : SwitchEnv) (old new : u64) (s : System) : System :=
  let e := sw_env w in
  let c := e_cpu e in
  let s := commit_cpu_state_after_save e new s in
  let s := if is_idle_thread_inner s old then s else on_cpu c (cpu_set_previous (Some old)) s in
  let '(evicted, s) := swap_deferred c old s in
  let s := if evicted =? 0 then s else requeue_thread_after_save e evicted s in
  dispatch_thread_locked w new s.

(** The part of the interrupt return path under the lock. *)
Definition irq_locked (w : SwitchEnv) (need_resched : bool) (deferred_tid : u64) (s : System) : System :=
  let e := sw_env w in
  let c := e_cpu e in
  let s := if sw_cleanup w then fix_exception_cleanup_cpu_state e s else s in
  let s := drain_deferred e deferred_tid s in
  let blocked := blocked_or_terminated
                   (match current s c with Some id => get_state s id | None => None end) in
  if negb need_resched && negb blocked then fix_eret_cpu_state_locked w s
  else
    let s := if sw_from_el0 w && sw_frame_el0 w then
               match sw_thread_ptr w with
               | Some real_tid => fix_stale_idle_cpu_state e real_tid s
               | None => s
               end
             else s in
    match schedule_deferred_requeue e s with
    | (None, s) => fix_eret_cpu_state_locked w s
    | (Some (old, new, requeue), s) =>
        if old =? new then
          fix_eret_cpu_state_locked w (if requeue : bool then requeue_thread_after_save e old s else s)
        else irq_switch_to w old new s
    end.

Definition check_need_resched_and_switch_arm64 (w : SwitchEnv) (s : System) : System :=
  let e := sw_env w in
  let c := e_cpu e in
  if sw_preempt_active w then s
  else
    let s := note_scheduling_epoch c s in
    let '(deferred_tid, s) := swap_deferred c 0 s in
    let s := if deferred_tid =? 0 then s else drain_deferred e deferred_tid s in
    if sw_preempt_guard w then s
    else
      let '(need_resched, s) := check_and_clear_need_resched e s in
      let current_blocked := blocked_or_terminated
                               (match sw_thread_ptr w with Some id => get_state s id | None => None end) in
      if negb (sw_cleanup w) && negb need_resched && negb current_blocked then s
      else irq_locked w need_resched deferred_tid s.

(** [inline_schedule_trampoline], on the CPU's own scheduler stack. *)
Definition inline_schedule_trampoline (w : SwitchEnv) (old new : u64) (requeue : bool) (s : System) : System :=
  let e := sw_env w in
  let old_ready_after_save := bool_decide (get_state s old = Some Ready) in
  let s := commit_cpu_state_after_save e new s in
  let s := on_cpu (e_cpu e) (cpu_set_previous None) s in
  let s := if requeue || old_ready_after_save then requeue_thread_after_save e old s else s in
  dispatch_thread_locked w new s.

Definition schedule_from_kernel (w : SwitchEnv) (s : System) : System :=
  let e := sw_env w in
  let c := e_cpu e in
  let '(deferred_tid, s) := swap_deferred c 0 s in
  let s := drain_deferred e deferred_tid s in
  let s := match sw_thread_ptr w with
           | Some real_tid => fix_stale_idle_cpu_state e real_tid s
           | None => fix_stale_current_thread_when_idle_executing e s
           end in
  match schedule_deferred_requeue e s with
  | (None, s) => s
  | (Some (old, new, requeue), s) =>
      if old =? new then (if requeue : bool then requeue_thread_after_save e old s else s)
      else
        match get_thread s old with
        | Some _ => inline_schedule_trampoline w old new requeue s
        | None => s
        end
  end.

(** [schedule_terminated_from_exit] and its trampoline; [None] is one of its
    panics: the thread is missing, no successor, or the wrong one. *)
Definition schedule_terminated_from_exit (w : SwitchEnv) (thread_id : u64) (s : System) : option System :=
  let e := sw_env w in
  match get_thread s thread_id with
  | None => None
  | Some _ =>
      let s := remove_from_ready_queue thread_id (get_thread_mut thread_id set_terminated s) in
      match schedule_deferred_requeue e s with
      | (None, _) => None
      | (Some (old, new, _), s) =>
          if negb (old =? thread_id) then None
          else if new =? thread_id then None
          else Some (inline_schedule_trampoline w old new false s)
      end
  end.
