(* ===== verification/WaitQueue.v ===== *)
(** Wait queues (task/waitqueue.rs) over the scheduler: the list of the waiting
    threads behind a queue's lock, the two ways to enqueue the running thread
    and publish its blocked state, the wakers, and the end of a wait.  The lock
    is held for the whole of each operation, so each is one function of the
    queue and the [System]. *)

From S2P Require Import Prelude Sched.

Definition WaitQueueHead := list u64.

Inductive PrepareOutcome := Mismatch | Queued | PublishFailed.

#[global] Instance PrepareOutcome_eq_dec : EqDecision PrepareOutcome.
Proof. solve_decision. Defined.

Section waitqueue.
Context `{Target}.

Definition current_thread_id (e : Env) (s : System) : option u64 := current s (e_cpu e).

Definition WaitQueueHead_new : WaitQueueHead := [].
Definition has_waiters (q : WaitQueueHead) : bool := negb (bool_decide (q = [])).

Definition push_waiter (tid : u64) (q : WaitQueueHead) : WaitQueueHead :=
  if contains tid q then q else q ++ [tid].

Definition remove_waiter (tid : u64) (q : WaitQueueHead) : WaitQueueHead :=
  filter (λ x, x ≠ tid) q.

Definition prepare_to_wait (e : Env) (state : ThreadState) (q : WaitQueueHead) (s : System)
  : option u64 * WaitQueueHead * System :=
  if negb (bool_decide (state = BlockedOnIO)) then (None, q, s)
  else
    match current_thread_id e s with
    | None => (None, q, s)
    | Some tid =>
        let q := push_waiter tid q in
        let '(s, published) := publish_current_io_wait_state e s in
        if published : bool then (Some tid, q, s) else (None, remove_waiter tid q, s)
    end.

Definition prepare_to_wait_checked (e : Env) (state : ThreadState) (wake_time_ns : option u64) (cond : bool)
    (q : WaitQueueHead) (s : System) : PrepareOutcome * WaitQueueHead * System :=
  if negb (bool_decide (state = BlockedOnIO)) then (PublishFailed, q, s)
  else
    match current_thread_id e s with
    | None => (PublishFailed, q, s)
    | Some tid =>
        if negb cond then (Mismatch, q, s)
        else
          let q := push_waiter tid q in
          let '(s, published) := block_current_for_io_with_timeout e wake_time_ns s in
          if published : bool then (Queued, q, s) else (PublishFailed, remove_waiter tid q, s)
    end.

(** What the end of a wait does to the thread. *)
Definition wait_finished (t : Thread) : Thread :=
  with_syscall false (if bool_decide (t_state t = BlockedOnIO) then with_wake None (set_ready t) else t).

Definition finish_current_wait (e : Env) (s : System) : System :=
  match current s (e_cpu e) with
  | Some id => get_thread_mut id wait_finished s
  | None => s
  end.

Definition finish_wait (e : Env) (q : WaitQueueHead) (s : System) : WaitQueueHead * System :=
  match current_thread_id e s with
  | None => (q, s)
  | Some tid => (remove_waiter tid q, finish_current_wait e s)
  end.

Definition take_waiter (tid : u64) (q : WaitQueueHead) : bool * WaitQueueHead :=
  (contains tid q, remove_waiter tid q).

Definition wake_waiter (e : Env) (tid : u64) (s : System) : System :=
  if e_in_interrupt e then isr_unblock_for_io e tid s else wake_waitqueue_thread e tid s.

Fixpoint wake_up (e : Env) (q : WaitQueueHead) (s : System) : WaitQueueHead * System :=
  match q with
  | [] => ([], s)
  | tid :: q => wake_up e q (wake_waiter e tid s)
  end.

Definition wake_up_one (e : Env) (q : WaitQueueHead) (s : System) : WaitQueueHead * System :=
  match q with
  | [] => ([], s)
  | tid :: q => (q, wake_waiter e tid s)
  end.

(** The loop of [wake_up_n] from its count so far. *)
Fixpoint wake_up_from (e : Env) (max woken : u32) (q : WaitQueueHead) (s : System)
  : u32 * WaitQueueHead * System :=
  if woken <? max then
    match q with
    | [] => (woken, [], s)
    | tid :: q => wake_up_from e max (woken + 1) q (wake_waiter e tid s)
    end
  else (woken, q, s).

Definition wake_up_n (e : Env) (max : u32) (q : WaitQueueHead) (s : System)
  : u32 * WaitQueueHead * System := wake_up_from e max 0 q s.

(** The test of the loop of [schedule_current_wait]; each turn that still waits
    runs [schedule_from_kernel] on aarch64 and halts on x86_64. *)
Definition still_waiting (e : Env) (s : System) : bool :=
  match current s (e_cpu e) with
  | Some id =>
      match get_thread s id with
      | Some t => bool_decide (t_state t = BlockedOnIO)
      | None => false
      end
  | None => false
  end.

(** ** Queues *)

Lemma elem_of_push_waiter x tid q : x ∈ push_waiter tid q ↔ x = tid ∨ x ∈ q.
Proof.
  unfold push_waiter. destruct (contains tid q) eqn:E; [|rewrite elem_of_app, list_elem_of_singleton; tauto].
  apply contains_spec in E. split; [by right|]. by intros [->|?].
Qed.

Lemma push_waiter_new tid q : tid ∉ q → push_waiter tid q = q ++ [tid].
Proof. unfold push_waiter. destruct (contains tid q) eqn:E; [|done]. by apply contains_spec in E. Qed.

Lemma push_waiter_nodup tid q : NoDup q → NoDup (push_waiter tid q).
Proof.
  intros Hq. destruct (contains tid q) eqn:E; [unfold push_waiter; by rewrite E|].
  assert (tid ∉ q) as Hn by (rewrite <- contains_spec; congruence). rewrite push_waiter_new by done.
  apply NoDup_app. split; [done|]. split; [|apply NoDup_singleton]. by intros x Hx ->%list_elem_of_singleton.
Qed.

Lemma elem_of_remove_waiter x tid q : x ∈ remove_waiter tid q ↔ x ≠ tid ∧ x ∈ q.
Proof. unfold remove_waiter. by rewrite list_elem_of_filter. Qed.

Lemma remove_waiter_idemp tid q : remove_waiter tid (remove_waiter tid q) = remove_waiter tid q.
Proof. unfold remove_waiter. apply list_filter_filter_l. done. Qed.

Lemma remove_waiter_nodup tid q : NoDup q → NoDup (remove_waiter tid q).
Proof. apply NoDup_filter. Qed.

Lemma has_waiters_false q : has_waiters q = false ↔ q = [].
Proof. unfold has_waiters. rewrite negb_false_iff. apply bool_decide_eq_true. Qed.

Lemma wake_up_from_exact e max woken q s :
  0 ≤ woken →
  let n := Z.to_nat (Z.max 0 (max - woken)) in
  wake_up_from e max woken q s =
    (woken + Z.of_nat (length (take n q)), drop n q, foldl (λ s tid, wake_waiter e tid s) s (take n q)).
Proof.
  revert woken s. induction q as [|tid q IH]; intros woken s Hw n; cbn [wake_up_from].
  - unfold n. rewrite take_nil, drop_nil. cbn. destruct (woken <? max); by rewrite Z.add_0_r.
  - unfold n. destruct (Z.ltb_spec woken max).
    + rewrite IH by lia. cbv zeta. replace (Z.to_nat (Z.max 0 (max - woken))) with (S (Z.to_nat (Z.max 0 (max - (woken + 1))))) by lia.
      cbn [take drop foldl length]. by rewrite Nat2Z.inj_succ, <- Z.add_assoc, Z.add_1_l.
    + replace (Z.to_nat (Z.max 0 (max - woken))) with 0%nat by lia. cbn. by rewrite Z.add_0_r.
Qed.

(** [wake_up_n] wakes the first waiters in the order they came, and counts them. *)
Lemma wake_up_n_exact e max q s :
  wake_up_n e max q s =
    (Z.of_nat (length (take (Z.to_nat max) q)), drop (Z.to_nat max) q,
     foldl (λ s tid, wake_waiter e tid s) s (take (Z.to_nat max) q)).
Proof.
  unfold wake_up_n. rewrite wake_up_from_exact by lia. cbv zeta.
  by replace (Z.to_nat (Z.max 0 (max - 0))) with (Z.to_nat max) by lia.
Qed.

Lemma wake_up_exact e q s : wake_up e q s = ([], foldl (λ s tid, wake_waiter e tid s) s q).
Proof. revert s. induction q as [|tid q IH]; intros s; [done|]. apply IH. Qed.

(** A checked wait queues the thread if and only if the condition holds under
    the queue's lock; otherwise nothing changes. *)
Lemma prepare_to_wait_checked_exact e wake cond q s id t :
  current s (e_cpu e) = Some id → get_thread s id = Some t →
  prepare_to_wait_checked e BlockedOnIO wake cond q s =
    if cond then (Queued, push_waiter id q, (block_current_for_io_with_timeout e wake s).1) else (Mismatch, q, s).
Proof.
  intros Hc Ht. unfold prepare_to_wait_checked, current_thread_id. rewrite bool_decide_true by done. cbn [negb].
  rewrite Hc. destruct cond; [|done]. cbn [negb].
  unfold block_current_for_io_with_timeout, publish_current_io_wait_state_inner. by rewrite Hc, Ht.
Qed.

End waitqueue.
