(* ===== verification/SchedInv.v ===== *)
(** The ownership invariant of the aarch64 scheduler: where a thread can be
    (on a CPU, in a ready queue, switching out) and what its state says about
    it.  The lemmas about reading one part of the state after writing another
    come first, then the invariant, with the threads a running operation has
    taken out of every place as a parameter, and its preservation by the
    operations of [Sched]. *)

From S2P Require Import Prelude Sched SchedSwitch WaitQueue.

(** * Reads after writes *)

Lemma find_update_thread id f ts x :
  (∀ t, t_id (f t) = t_id t) →
  find_thread x (update_thread id f ts)
  = if decide (x = id) then f <$> find_thread id ts else find_thread x ts.
Proof.
  intros Hf. induction ts as [|t ts IH]; [by case_decide|]. cbn.
  destruct (Z.eqb_spec (t_id t) id) as [E|E]; cbn.
  - rewrite Hf, E. case_decide as Hx; subst; [by rewrite Z.eqb_refl|].
    by rewrite (proj2 (Z.eqb_neq _ _)) by congruence.
  - rewrite IH. case_decide as Hx; subst; [by rewrite (proj2 (Z.eqb_neq _ _))|done].
Qed.

Lemma find_thread_id id ts t : find_thread id ts = Some t → t_id t = id.
Proof. induction ts as [|u ts IH]; [done|]. cbn. destruct (Z.eqb_spec (t_id u) id); [by intros [= <-]|done]. Qed.

Lemma get_thread_id s id t : get_thread s id = Some t → t_id t = id.
Proof. apply find_thread_id. Qed.

Lemma find_thread_app id ts us :
  find_thread id (ts ++ us) = match find_thread id ts with Some t => Some t | None => find_thread id us end.
Proof. induction ts as [|t ts IH]; [done|]. cbn. by destruct (t_id t =? id). Qed.

Lemma find_thread_None id ts : find_thread id ts = None ↔ id ∉ (t_id <$> ts).
Proof.
  induction ts as [|t ts IH]; [split; [intros _; apply not_elem_of_nil|done]|]. cbn.
  rewrite not_elem_of_cons. destruct (Z.eqb_spec (t_id t) id); [|rewrite IH]; split; intros; destruct_and?; done.
Qed.

(** With distinct ids a lookup finds exactly the thread of the list. *)
Lemma find_thread_elem ts t :
  NoDup (t_id <$> ts) → t ∈ ts → find_thread (t_id t) ts = Some t.
Proof.
  induction ts as [|u ts IH]; [by intros _ ?%elem_of_nil|]. cbn. intros [Hu Hnd]%NoDup_cons Hin.
  destruct (Z.eqb_spec (t_id u) (t_id t)) as [E|E].
  - apply elem_of_cons in Hin as [->|Hin]; [done|]. exfalso. apply Hu. rewrite E. by apply list_elem_of_fmap_2.
  - apply elem_of_cons in Hin as [->|Hin]; [done|]. by apply IH.
Qed.

Lemma find_thread_in id ts t : find_thread id ts = Some t → t ∈ ts.
Proof. induction ts as [|u ts IH]; [done|]. cbn. case_match; [intros [= ->]; left|]. intros ?. right. auto. Qed.

Lemma update_thread_ids id f ts :
  (∀ t, t_id (f t) = t_id t) → t_id <$> update_thread id f ts = t_id <$> ts.
Proof. intros Hf. induction ts as [|t ts IH]; [done|]. cbn. case_match; cbn; congruence. Qed.

(** A change of a thread that keeps its id. *)
Lemma update_thread_none id f ts : find_thread id ts = None → update_thread id f ts = ts.
Proof. induction ts as [|t ts IH]; [done|]. cbn. case_match; [done|]. intros ?. by rewrite IH. Qed.

Lemma set_threads_same s : set_threads (threads (scheduler s)) s = s.
Proof. by destruct s as [[]]. Qed.

Lemma update_thread_ext f g id ts t :
  find_thread id ts = Some t → f t = g t → update_thread id f ts = update_thread id g ts.
Proof. induction ts as [|u ts IH]; [done|]. cbn. case_match; [|intros; f_equal; auto]. intros [= ->] ->. done. Qed.

Definition keeps_id (f : Thread → Thread) : Prop := ∀ t, t_id (f t) = t_id t.

Lemma update_ids_nodup id f ts :
  keeps_id f → NoDup (t_id <$> ts) → NoDup (t_id <$> update_thread id f ts).
Proof. intros Hf. by rewrite update_thread_ids. Qed.

Lemma update_thread_insert f ts i t :
  NoDup (t_id <$> ts) → ts !! i = Some t → update_thread (t_id t) f ts = <[i := f t]> ts.
Proof.
  revert i. induction ts as [|u ts IH]; intros [|i] Hnd Hi; simplify_eq/=; [by rewrite Z.eqb_refl|].
  apply NoDup_cons in Hnd as [Hu Hnd]. rewrite (proj2 (Z.eqb_neq _ _)).
  - cbn. f_equal. by apply IH.
  - intros E. apply Hu. rewrite E. apply list_elem_of_fmap_2. by eapply list_elem_of_lookup_2.
Qed.

Lemma get_thread_update id f s x :
  keeps_id f →
  get_thread (get_thread_mut id f s) x = if decide (x = id) then f <$> get_thread s id else get_thread s x.
Proof. intros Hf. by apply find_update_thread. Qed.

Lemma cpu_on_cpu c f s c' :
  (c < length (cpu_state (scheduler s)))%nat →
  cpu (on_cpu c f s) c' = if decide (c' = c) then f (cpu s c) else cpu s c'.
Proof.
  intros Hc. unfold cpu, on_cpu. cbn. case_decide as E.
  - subst. rewrite list_lookup_alter_eq. destruct (lookup_lt_is_Some_2 _ _ Hc) as [st ->]. done.
  - by rewrite list_lookup_alter_ne.
Qed.

(** All queued threads, in some order. *)
Definition all_queued (s : System) : list u64 := concat (per_cpu_queues (scheduler s)).

Lemma alter_concat_perm (f : list u64 → list u64) c (qs : list (list u64)) q k :
  qs !! c = Some q → f q ≡ₚ k ++ q → concat (alter f c qs) ≡ₚ k ++ concat qs.
Proof.
  revert c. induction qs as [|q' qs IH]; intros [|c] Hc Hf; simplify_eq/=.
  - rewrite Hf. by rewrite (assoc_L (++)).
  - rewrite IH by done. rewrite !(assoc_L (++)). f_equiv. apply Permutation_app_comm.
Qed.

Lemma all_queued_push c id s :
  (c < length (per_cpu_queues (scheduler s)))%nat → all_queued (push_back c id s) ≡ₚ id :: all_queued s.
Proof.
  intros Hc. destruct (lookup_lt_is_Some_2 _ _ Hc) as [q Hq].
  unfold all_queued, push_back, on_queue. cbn.
  rewrite (alter_concat_perm _ c _ q [id] Hq); [done|]. apply Permutation_app_comm.
Qed.

Lemma elem_of_concat (x : u64) qs : x ∈ concat qs ↔ ∃ q, q ∈ qs ∧ x ∈ q.
Proof.
  rewrite list_elem_of_In, in_concat. by setoid_rewrite list_elem_of_In.
Qed.

Lemma in_any_queue_spec s id : in_any_queue s id = true ↔ id ∈ all_queued s.
Proof.
  unfold in_any_queue, all_queued. rewrite existsb_exists, elem_of_concat.
  setoid_rewrite contains_spec. by setoid_rewrite list_elem_of_In.
Qed.

Lemma any_cpu_spec p : any_cpu p = true ↔ ∃ c, (c < MAX_CPUS)%nat ∧ p c = true.
Proof.
  unfold any_cpu. rewrite existsb_exists. setoid_rewrite in_seq. split; intros (c & ? & ?); exists c; split; done || lia.
Qed.

Lemma any_cpu_false p : any_cpu p = false ↔ ∀ c, (c < MAX_CPUS)%nat → p c = false.
Proof.
  rewrite <- not_true_iff_false, any_cpu_spec. split.
  - intros Hn c Hc. apply not_true_iff_false. intros Hp. by apply Hn; exists c.
  - intros Hall (c & Hc & Hp). by rewrite Hall in Hp.
Qed.

(** Beyond the last CPU nothing is current, switching out or chosen. *)
Lemma cpu_beyond s c : (length (cpu_state (scheduler s)) ≤ c)%nat → cpu s c = EMPTY_STATE.
Proof. intros Hc. unfold cpu. by rewrite lookup_ge_None_2. Qed.

(** * The invariant *)

Record shape (s : System) : Prop := {
  shape_queues : length (per_cpu_queues (scheduler s)) = MAX_CPUS;
  shape_cpus : length (cpu_state (scheduler s)) = MAX_CPUS;
  shape_deferred : length (DEFERRED_REQUEUE s) = MAX_CPUS;
}.

(** The thread left in the deferred slot of a CPU. *)
Definition slot (s : System) (c : nat) : u64 := default 0 (DEFERRED_REQUEUE s !! c).

Definition idle_tid (s : System) (id : u64) : Prop := ∃ c, (c < MAX_CPUS)%nat ∧ idle s c = id.
Definition running_on (s : System) (id : u64) : Prop := ∃ c, current s c = Some id.
Definition deferred_on (s : System) (id : u64) : Prop := ∃ c, slot s c = id ∧ id ≠ 0.
Definition switching_out (s : System) (id : u64) : Prop := ∃ c, previous s c = Some id.

(** What holds of one thread.  [sw] is the CPU that is inside a scheduling
    decision, where the thread it still runs is already marked as switching
    out; [held] are the threads taken out of a queue or off a CPU by the
    operation in progress, which has yet to put them somewhere. *)
Record thread_ok (sw : option nat) (held : list u64) (s : System) (id : u64) : Prop := {
  (** an idle thread is Running, belongs to no process, is never queued and
      runs on its own CPU only *)
  ok_idle_state : idle_tid s id → ∀ t, get_thread s id = Some t → t_state t = Running ∧ t_owner_pid t = None;
  ok_idle_queue : idle_tid s id → id ∉ all_queued s ∧ ¬ switching_out s id;
  ok_idle_current : ∀ c c', current s c = Some id → is_Some (current s c') → idle s c' = id → c = c';
  (** a thread runs on one CPU at most *)
  ok_current : ∀ c c', current s c = Some id → current s c' = Some id → c = c';
  (** a queued thread exists; unless it is terminated it is Ready, runs nowhere
      and no CPU still uses its stack *)
  ok_queued : id ∈ all_queued s →
    ∃ st, get_state s id = Some st ∧
      (st = Terminated ∨ st = Ready ∧ ¬ running_on s id ∧ ¬ switching_out s id);
  (** a thread that is switching out waits in the slot of that CPU *)
  ok_previous : ∀ c, previous s c = Some id →
    slot s c = id ∧ ¬ running_on s id ∨ sw = Some c ∧ current s c = Some id;
  (** a thread marked as running or ready is somewhere *)
  ok_running : id ∉ held → ¬ idle_tid s id → get_state s id = Some Running → running_on s id;
  ok_ready : id ∉ held → ¬ idle_tid s id → get_state s id = Some Ready →
    running_on s id ∨ id ∈ all_queued s ∨ deferred_on s id;
  ok_pending : ∀ c, pending s c = Some id → id ∈ held ∧ sw = Some c;
  (** id 0 is given to the boot thread or to none *)
  ok_zero : id = 0 → is_Some (get_thread s id) ∨ running_on s id → idle s 0%nat = 0;
}.

Record inv (sw : option nat) (held : list u64) (s : System) : Prop := {
  inv_shape : shape s;
  inv_ids : NoDup (t_id <$> threads (scheduler s));
  inv_queue : NoDup (all_queued s);
  inv_idle : ∀ c c', is_Some (current s c) → is_Some (current s c') → idle s c = idle s c' → c = c';
  (** a CPU that has not been started has no idle thread; CPU 0 has been, and
      only its idle thread can have id 0 *)
  inv_boot : ∀ c, current s c = None → idle s c = 0;
  inv_boot0 : is_Some (current s 0%nat);
  inv_boot1 : ∀ c, is_Some (current s c) → idle s c = 0 → c = 0%nat;
  inv_thread : ∀ id, thread_ok sw held s id;
}.

(** ** The part of the state the invariant sees *)

Record veq (s s' : System) : Prop := {
  veq_threads : threads (scheduler s') = threads (scheduler s);
  veq_queues : all_queued s' ≡ₚ all_queued s;
  veq_shape : shape s → shape s';
  veq_current : ∀ c, current s' c = current s c;
  veq_idle : ∀ c, idle s' c = idle s c;
  veq_previous : ∀ c, previous s' c = previous s c;
  veq_pending : ∀ c, pending s' c = pending s c;
  veq_deferred : DEFERRED_REQUEUE s' = DEFERRED_REQUEUE s;
}.

(** Nothing that concerns thread [id] differs, except that it may no longer be
    marked as switching out or chosen, and may have been put in a slot. *)
Record agree (s s' : System) (id : u64) : Prop := {
  ag_thread : get_thread s' id = get_thread s id;
  ag_queued : id ∈ all_queued s' ↔ id ∈ all_queued s;
  ag_current : ∀ c, current s' c = Some id ↔ current s c = Some id;
  ag_previous : ∀ c, previous s' c = Some id → previous s c = Some id;
  ag_pending : ∀ c, pending s' c = Some id → pending s c = Some id;
  ag_slot : ∀ c, id ≠ 0 ∨ previous s' c = Some id → slot s c = id → slot s' c = id;
}.

(** A thread about which nothing changed is still all right. *)
Lemma thread_ok_agree sw sw' held held' s s' id :
  agree s s' id → (∀ c, idle s' c = idle s c) →
  (∀ c, is_Some (current s' c) ↔ is_Some (current s c)) →
  (id ∈ held → id ∈ held') →
  (∀ c, previous s c = Some id → current s c = Some id → sw = Some c → sw' = Some c) →
  (∀ c, pending s c = Some id → sw = Some c → sw' = Some c) →
  thread_ok sw held s id → thread_ok sw' held' s' id.
Proof.
  intros [At Aq Ac Ap An As] Hidle Hboot Hheld Hsw Hpe [O1 O2 O3 O4 O5 O6 O7 O8 O9 O10].
  assert (idle_tid s' id ↔ idle_tid s id) as Hi by (unfold idle_tid; by setoid_rewrite Hidle).
  assert (running_on s' id ↔ running_on s id) as Hr by (unfold running_on; by setoid_rewrite Ac).
  assert (switching_out s' id → switching_out s id) as Hs by (intros [c Hc]; exists c; by apply Ap).
  assert (deferred_on s id → deferred_on s' id) as Hd by (intros (c & Hc & ?); exists c; split; [by apply As; [left|]|done]).
  assert (get_state s' id = get_state s id) as Hst by (unfold get_state; by rewrite At).
  split.
  - intros Hx%Hi t. rewrite At. by apply O1.
  - intros Hx%Hi. destruct (O2 Hx) as [??]. split; [by intros ?%Aq|by intros ?%Hs].
  - intros c c' ?%Ac ?%Hboot. rewrite Hidle. by apply O3.
  - intros c c' ?%Ac ?%Ac. by apply O4.
  - intros Hx%Aq. rewrite Hst. destruct (O5 Hx) as (st & ? & [->|(-> & ? & ?)]); [by eauto|].
    exists Ready. split; [done|]. right. split; [done|]. split; [by intros ?%Hr|by intros ?%Hs].
  - intros c Hp'. pose proof (Ap c Hp') as Hp. destruct (O6 c Hp) as [[??]|[??]].
    + left. split; [by apply As; [right|]|by intros ?%Hr].
    + right. split; [by eauto|by apply Ac].
  - intros ? Hn. rewrite Hst. intros. apply Hr, O7; [by eauto|by intros ?%Hi|done].
  - intros ? Hn. rewrite Hst. intros. destruct O8 as [?|[?|?]]; [by eauto|by intros ?%Hi|done|..].
    + left. by apply Hr.
    + right; left. by apply Aq.
    + right; right. by apply Hd.
  - intros c Hp%An. destruct (O9 c Hp) as [Hin ?]. eauto.
  - intros ? Hx. rewrite Hidle. apply O10; [done|]. rewrite At in Hx. destruct Hx as [?|?%Hr]; auto.
Qed.

(** The invariant after an operation that touched the threads of [T] only. *)
Lemma inv_touch (T : list u64) sw sw' held held' s s' :
  inv sw held s →
  shape s' → NoDup (t_id <$> threads (scheduler s')) → NoDup (all_queued s') →
  (∀ c, idle s' c = idle s c) →
  (∀ c, is_Some (current s' c) ↔ is_Some (current s c)) →
  (∀ id, id ∉ T → agree s s' id ∧ (id ∈ held → id ∈ held')
     ∧ (∀ c, previous s c = Some id → current s c = Some id → sw = Some c → sw' = Some c)
     ∧ (∀ c, pending s c = Some id → sw = Some c → sw' = Some c)) →
  (∀ id, id ∈ T → thread_ok sw' held' s' id) →
  inv sw' held' s'.
Proof.
  intros Hinv Hsh Hids Hnd Hidle Hboot Hout Hin. split; [done..| | | | |].
  - intros c c'. rewrite !Hboot, !Hidle. apply Hinv.
  - intros c Hc. rewrite Hidle. apply (inv_boot _ _ _ Hinv).
    apply eq_None_not_Some. intros ?%Hboot. by apply eq_None_not_Some in Hc.
  - apply Hboot, Hinv.
  - intros c ?%Hboot. rewrite Hidle. by apply Hinv.
  - intros id. destruct (decide (id ∈ T)) as [HT|HT]; [by apply Hin|].
    destruct (Hout id HT) as (Hag & ? & ? & ?). eapply thread_ok_agree; [done..|]. apply Hinv.
Qed.

Lemma veq_agree s s' id : veq s s' → agree s s' id.
Proof.
  intros [Vt Vq Vs Vc Vi Vp Vn Vd]. split.
  - unfold get_thread. by rewrite Vt.
  - by rewrite Vq.
  - intros c. by rewrite Vc.
  - intros c. by rewrite Vp.
  - intros c. by rewrite Vn.
  - intros c. unfold slot. by rewrite Vd.
Qed.

#[global] Instance veq_preorder : PreOrder veq.
Proof.
  split.
  - intros s. by split.
  - intros s1 s2 s3 [] []. split; try by (intros; etrans; eauto). eauto.
Qed.

(** Equality of the visible part carries the invariant over. *)
Lemma veq_inv sw held s s' : veq s s' → inv sw held s → inv sw held s'.
Proof.
  intros V Hinv. apply (inv_touch [] sw sw held held s s' Hinv).
  - apply V, Hinv.
  - rewrite (veq_threads _ _ V). apply Hinv.
  - rewrite (veq_queues _ _ V). apply Hinv.
  - apply V.
  - intros c. by rewrite (veq_current _ _ V).
  - intros id _. split; [by apply veq_agree|done].
  - by intros id ?%elem_of_nil.
Qed.

(** ** Operations the invariant does not see *)

Create HintDb sched.

Ltac neutral := intros V; etrans; [exact V|]; split; try done; intros []; by split.

Lemma veq_refl s : veq s s.
Proof. reflexivity. Qed.
Lemma veq_heap s s' x : veq s s' → veq s (set_heap x s').
Proof. neutral. Qed.
Lemma veq_grace s s' x : veq s s' → veq s (set_grace x s').
Proof. neutral. Qed.
Lemma veq_flags s s' g x : veq s s' → veq s (set_flags g x s').
Proof. neutral. Qed.
Lemma veq_idle_flags s s' x : veq s s' → veq s (set_idle_flags x s').
Proof. neutral. Qed.
Lemma veq_buffers s s' x : veq s s' → veq s (set_buffers x s').
Proof. neutral. Qed.
Lemma veq_epochs s s' x : veq s s' → veq s (set_epochs x s').
Proof. neutral. Qed.
Lemma veq_kicks s s' x : veq s s' → veq s (set_kicks x s').
Proof. neutral. Qed.
Lemma veq_sgi s s' c : veq s s' → veq s (send_sgi c s').
Proof. neutral. Qed.

#[export] Hint Resolve veq_refl veq_heap veq_grace veq_flags veq_idle_flags veq_buffers veq_epochs
  veq_kicks veq_sgi : sched.
#[export] Hint Unfold set_cpu_idle set_cpu_need_resched set_need_resched note_scheduling_epoch push_timer : sched.

Lemma veq_foldl {A} (f : System → A → System) l s s' :
  (∀ s x, veq s (f s x)) → veq s s' → veq s (foldl f s' l).
Proof. intros Hf. revert s'. induction l as [|x l IH]; intros s' V; [done|]. cbn. apply IH. by etrans. Qed.

Lemma veq_send_resched_ipi e s s' : veq s s' → veq s (send_resched_ipi e s').
Proof.
  apply veq_foldl. intros s0 c. unfold wake_if_idle. by repeat case_match; auto with sched.
Qed.

Lemma veq_send_resched_ipi_to_cpu e c s s' : veq s s' → veq s (send_resched_ipi_to_cpu e c s').
Proof. intros. unfold send_resched_ipi_to_cpu. by repeat case_match; auto with sched. Qed.

Lemma veq_observe pid s s' : veq s s' → veq s (observe_exit_kick pid s').2.
Proof. intros. unfold observe_exit_kick. cbn. by repeat case_match; cbn; auto with sched. Qed.

Lemma veq_on_cpu c f s s' :
  shape s' →
  (∀ st, current_thread (f st) = current_thread st ∧ idle_thread (f st) = idle_thread st
         ∧ previous_thread (f st) = previous_thread st ∧ pending_next (f st) = pending_next st) →
  veq s s' → veq s (on_cpu c f s').
Proof.
  intros Hsh Hf V. etrans; [exact V|].
  assert (∀ c', ∃ b : bool, cpu (on_cpu c f s') c' = if b then f (cpu s' c') else cpu s' c') as Hc.
  { intros c'. destruct (decide (c < MAX_CPUS)%nat) as [Hlt|Hge].
    - rewrite cpu_on_cpu by (by rewrite (shape_cpus _ Hsh)). case_decide; [exists true|exists false]; by subst.
    - exists false. unfold cpu, on_cpu. cbn. destruct (decide (c' = c)) as [->|]; [|by rewrite list_lookup_alter_ne].
      by rewrite list_lookup_alter_eq, lookup_ge_None_2 by (rewrite (shape_cpus _ Hsh); lia). }
  split; try done.
  - intros _. split; [apply Hsh| |apply Hsh]. cbn. rewrite length_alter. apply Hsh.
  - intros c'. unfold current. destruct (Hc c') as [[] ->]; [apply Hf|done].
  - intros c'. unfold idle. destruct (Hc c') as [[] ->]; [apply Hf|done].
  - intros c'. unfold previous. destruct (Hc c') as [[] ->]; [apply Hf|done].
  - intros c'. unfold pending. destruct (Hc c') as [[] ->]; [apply Hf|done].
Qed.

#[export] Hint Resolve veq_send_resched_ipi veq_send_resched_ipi_to_cpu veq_observe : sched.

(** ** Where a woken thread is put *)

Lemma current_cpu_of_lt s id c : current_cpu_of s id = Some c → (c < MAX_CPUS)%nat.
Proof. intros [Hin _]%find_some. apply in_seq in Hin. lia. Qed.

Lemma min_by_key_elem key l c : min_by_key key l = Some c → c ∈ l.
Proof.
  revert c. induction l as [|x l IH]; intros c; [done|]. cbn.
  destruct (min_by_key key l) as [y|]; intros [= <-]; [|left]. case_match; [right; by apply IH|left].
Qed.

Lemma online_cpu_count_le e : (online_cpu_count e ≤ MAX_CPUS)%nat.
Proof. unfold online_cpu_count. cbn. lia. Qed.

Lemma min_by_key_lt key (P : nat → Prop) `{∀ c, Decision (P c)} e c :
  min_by_key key (filter P (seq 0 (online_cpu_count e))) = Some c → (c < MAX_CPUS)%nat.
Proof.
  intros [_ Hin]%min_by_key_elem%list_elem_of_filter. apply elem_of_seq in Hin.
  pose proof (online_cpu_count_le e). lia.
Qed.

Lemma least_loaded_cpu_lt e s : (e_cpu e < MAX_CPUS)%nat → (least_loaded_cpu e s < MAX_CPUS)%nat.
Proof.
  intros He. unfold least_loaded_cpu. destruct (min_by_key _ _) eqn:E; [|done]. by eapply min_by_key_lt.
Qed.

Lemma find_target_lt e s id : (e_cpu e < MAX_CPUS)%nat → (find_target_cpu_for_wakeup e s id < MAX_CPUS)%nat.
Proof.
  intros He. unfold find_target_cpu_for_wakeup. destruct (current_cpu_of s id) eqn:E.
  - by eapply current_cpu_of_lt.
  - by apply least_loaded_cpu_lt.
Qed.

Lemma opt_is_spec o id : opt_is o id = true ↔ o = Some id.
Proof. apply bool_decide_eq_true. Qed.

Section places.
Context (s : System) (Hsh : shape s).

Lemma current_lt c id : current s c = Some id → (c < MAX_CPUS)%nat.
Proof using Hsh.
  unfold current. destruct (decide (c < MAX_CPUS)%nat); [done|]. rewrite cpu_beyond; [done|].
  rewrite (shape_cpus _ Hsh). lia.
Qed.

Lemma previous_lt c id : previous s c = Some id → (c < MAX_CPUS)%nat.
Proof using Hsh.
  unfold previous. destruct (decide (c < MAX_CPUS)%nat); [done|]. rewrite cpu_beyond; [done|].
  rewrite (shape_cpus _ Hsh). lia.
Qed.

Lemma is_current_spec id : is_current_on_any_cpu s id = true ↔ running_on s id.
Proof using Hsh.
  unfold is_current_on_any_cpu. rewrite any_cpu_spec. setoid_rewrite opt_is_spec.
  split; [by intros (c & _ & Hc); exists c|]. intros [c Hc]. exists c. split; [by eapply current_lt|done].
Qed.

Lemma is_deferred_spec id : is_in_deferred_requeue s id = true ↔ switching_out s id.
Proof using Hsh.
  unfold is_in_deferred_requeue. rewrite any_cpu_spec. setoid_rewrite opt_is_spec.
  split; [by intros (c & _ & Hc); exists c|]. intros [c Hc]. exists c. split; [by eapply previous_lt|done].
Qed.

Lemma is_idle_spec id : is_idle_thread_inner s id = true ↔ idle_tid s id.
Proof using Type. unfold is_idle_thread_inner. rewrite any_cpu_spec. by setoid_rewrite Z.eqb_eq. Qed.
End places.

(** ** Waking *)

Lemma enqueue_woken_cases e id s :
  (∃ target, enqueue_woken e id s = (push_back target id s, Some target)
     ∧ target = find_target_cpu_for_wakeup e s id ∧ is_current_on_any_cpu s id = false
     ∧ is_in_deferred_requeue s id = false ∧ id ∉ all_queued s)
  ∨ (enqueue_woken e id s = (s, None)
     ∧ (is_current_on_any_cpu s id = true ∨ is_in_deferred_requeue s id = true
        ∨ idle s (e_cpu e) = id ∨ id ∈ all_queued s)).
Proof.
  unfold enqueue_woken, wake_deferred. cbn [is_aarch64 target_arch aarch64 andb].
  destruct (is_current_on_any_cpu s id); [right; by auto|].
  destruct (is_in_deferred_requeue s id); [right; by auto|].
  destruct (Z.eqb_spec id (idle s (e_cpu e))); [right; by auto|].
  destruct (in_any_queue s id) eqn:E; [right; split; [done|]; by apply in_any_queue_spec in E; auto|left].
  eexists. split_and!; try done. rewrite <- in_any_queue_spec. congruence.
Qed.

(** A thread that has become Ready and is somewhere is all right. *)
Lemma woken_ok sw s s' id t :
  thread_ok sw [] s id → ¬ idle_tid s id → get_thread s id = Some t → get_state s' id = Some Ready →
  (∀ c, current s' c = current s c) → (∀ c, previous s' c = previous s c) →
  (∀ c, pending s' c = pending s c) → (∀ c, idle s' c = idle s c) → (∀ c, slot s' c = slot s c) →
  (id ∈ all_queued s' → ¬ running_on s id ∧ ¬ switching_out s id) →
  running_on s id ∨ id ∈ all_queued s' ∨ switching_out s id →
  thread_ok sw [] s' id.
Proof.
  intros [O1 O2 O3 O4 O5 O6 O7 O8 O9 O10] Hnidle Ht Hst' Ec Ep En Ei El Hq Hsome.
  assert (¬ idle_tid s' id) as Hn' by (unfold idle_tid; by setoid_rewrite Ei).
  assert (running_on s' id ↔ running_on s id) as Hr by (unfold running_on; by setoid_rewrite Ec).
  assert (switching_out s' id ↔ switching_out s id) as Hs by (unfold switching_out; by setoid_rewrite Ep).
  split; try done.
  - intros c c'. rewrite Ec, Ec, Ei. apply O3.
  - intros c c'. rewrite !Ec. apply O4.
  - intros ?%Hq. exists Ready. rewrite Hr, Hs. auto.
  - intros c. rewrite Ep, Ec, El, Hr. apply O6.
  - rewrite Hst'. by intros _ _ [=].
  - intros _ _ _. destruct Hsome as [?|[?|[c Hc]]]; [left; by apply Hr|by right; left|].
    destruct (O6 c Hc) as [[Hsl _]|[_ ?]]; [|left; apply Hr; by exists c].
    right; right. exists c. rewrite El. split; [done|]. intros ->.
    apply Hnidle. exists 0%nat. split; [cbn; lia|]. apply O10; [done|left; by rewrite Ht].
  - intros c. rewrite En. intros [? _]%O9. by apply elem_of_nil in H.
  - intros ? _. rewrite Ei. apply O10; [done|left; by rewrite Ht].
Qed.

(** A blocked thread (or one found Ready) that is marked Ready and offered to
    the queues is afterwards somewhere. *)
Lemma wake_inv sw e id f t s :
  inv sw [] s → (e_cpu e < MAX_CPUS)%nat →
  get_thread s id = Some t → is_blocked (t_state t) = true ∨ t_state t = Ready →
  keeps_id f → t_state (f t) = Ready →
  inv sw [] (enqueue_woken e id (get_thread_mut id f s)).1.
Proof.
  intros Hinv He Ht Hst Hf Hready. set (s1 := get_thread_mut id f s).
  pose proof (inv_shape _ _ _ Hinv) as Hsh. assert (shape s1) as Hsh1 by (by destruct Hsh).
  pose proof (inv_thread _ _ _ Hinv id) as Hok.
  assert (¬ idle_tid s id) as Hnidle.
  { intros Hi. destruct (ok_idle_state _ _ _ _ Hok Hi t Ht) as [E _]. rewrite E in Hst. by destruct Hst. }
  assert (get_state s1 id = Some Ready) as Hst1.
  { unfold get_state, s1. rewrite get_thread_update by done. rewrite decide_True, Ht by done. cbn. by f_equal. }
  assert (∀ id', id' ≠ id → get_thread s1 id' = get_thread s id') as Hother.
  { intros id' Hne. unfold s1. rewrite get_thread_update by done. by rewrite decide_False. }
  destruct (enqueue_woken_cases e id s1) as [(target & -> & Htg & Hc & Hd & Hnq)|[-> Hcase]]; cbn [fst].
  - assert (target < length (per_cpu_queues (scheduler s1)))%nat as Hlt.
    { rewrite (shape_queues _ Hsh1), Htg. by apply find_target_lt. }
    pose proof (all_queued_push target id s1 Hlt) as Hp.
    apply (inv_touch [id] sw sw [] [] s); [done| | | |done|done|..].
    + split; [|apply Hsh..]. cbn. rewrite length_alter. apply Hsh.
    + by apply update_ids_nodup, Hinv.
    + rewrite Hp. constructor; [done|apply Hinv].
    + intros id' Hne%not_elem_of_cons. split; [|done]. split; try done; [apply Hother; naive_solver|].
      rewrite Hp, elem_of_cons. split; [by intros [?|?]; [naive_solver|]|by right].
    + intros id' ->%list_elem_of_singleton. apply (woken_ok sw s _ id t); try done.
      * intros _. split; intros Hx.
        -- pose proof (proj2 (is_current_spec s1 Hsh1 id) Hx). congruence.
        -- pose proof (proj2 (is_deferred_spec s1 Hsh1 id) Hx). congruence.
      * right; left. rewrite Hp. by left.
  - apply (inv_touch [id] sw sw [] [] s); [done|done|by apply update_ids_nodup, Hinv|apply Hinv|done|done| |].
    + intros id' Hne%not_elem_of_cons. split; [|done]. split; try done. apply Hother. naive_solver.
    + intros id' ->%list_elem_of_singleton. apply (woken_ok sw s _ id t); try done.
      * intros Hq. destruct (ok_queued _ _ _ _ Hok Hq) as (st & Hst2 & Hcs).
        unfold get_state in Hst2. rewrite Ht in Hst2. injection Hst2 as <-.
        destruct Hcs as [E|(_ & ? & ?)]; [|done]. rewrite E in Hst. by destruct Hst.
      * destruct Hcase as [E|[E|[E|E]]]; [left; by apply (is_current_spec s1 Hsh1)|right; right; by apply (is_deferred_spec s1 Hsh1)
          | |by right; left].
        destruct Hnidle. by exists (e_cpu e).
Qed.

(** A change of a thread that keeps its state and its owner. *)
Lemma quiet_inv sw held id f s :
  (∀ t, t_id (f t) = t_id t ∧ t_state (f t) = t_state t ∧ t_owner_pid (f t) = t_owner_pid t) →
  inv sw held s → inv sw held (get_thread_mut id f s).
Proof.
  intros Hf Hinv. assert (keeps_id f) as Hid by (intros t; apply Hf).
  assert (∀ x, get_state (get_thread_mut id f s) x = get_state s x) as Hst.
  { intros x. unfold get_state. rewrite get_thread_update by done. case_decide as E; [|done]. rewrite E.
    destruct (get_thread s id) as [t|]; [|done]. cbn. f_equal. apply Hf. }
  apply (inv_touch [id] sw sw held held s); [done|by destruct (inv_shape _ _ _ Hinv)|by apply update_ids_nodup, Hinv|apply Hinv|done|done| |].
  - intros x Hne%not_elem_of_cons. split; [|done]. split; try done. rewrite get_thread_update by done.
    rewrite decide_False; [done|naive_solver].
  - intros x ->%list_elem_of_singleton. destruct (inv_thread _ _ _ Hinv id) as [O1 O2 O3 O4 O5 O6 O7 O8 O9 O10].
    split; try done; rewrite ?Hst; try done.
    + intros Hi t. rewrite get_thread_update by done. rewrite decide_True by done.
      destruct (get_thread s id) as [u|] eqn:Hu; [|done]. intros [= <-]. destruct (Hf u) as (_ & -> & ->). by apply O1.
    + intros Hz [[t Ht]|?]; apply O10; auto. left. rewrite get_thread_update in Ht by done.
      rewrite decide_True in Ht by done. destruct (get_thread s id); [done|discriminate].
Qed.

(** The end of a wait. *)
Lemma finish_wait_inv e s : inv None [] s → (e_cpu e < MAX_CPUS)%nat → inv None [] (finish_current_wait e s).
Proof.
  intros Hinv He. unfold finish_current_wait. destruct (current s (e_cpu e)) as [id|] eqn:Hc; [|done].
  destruct (get_thread s id) as [t|] eqn:Ht.
  - destruct (decide (t_state t = BlockedOnIO)) as [Hst|Hst].
    + set (f := λ t, with_syscall false (with_wake None (set_ready t))).
      assert (keeps_id f) as Hk by (intros u; unfold f, set_ready; by case_bool_decide).
      assert (get_thread_mut id wait_finished s = get_thread_mut id f s) as ->.
      { unfold get_thread_mut. f_equal. apply (update_thread_ext _ _ _ _ t); [done|]. unfold wait_finished, f.
        by rewrite bool_decide_true. }
      pose proof (wake_inv None e id f t s Hinv He Ht) as Hw.
      destruct (enqueue_woken_cases e id (get_thread_mut id f s)) as [(? & _ & _ & Hn & _)|[Heq _]].
      * assert (is_current_on_any_cpu (get_thread_mut id f s) id = true); [|congruence].
        apply is_current_spec; [by destruct (inv_shape _ _ _ Hinv)|]. by exists (e_cpu e).
      * rewrite Heq in Hw. apply Hw; [left; by rewrite Hst|done|]. unfold f, set_ready. by rewrite Hst.
    + assert (get_thread_mut id wait_finished s = get_thread_mut id (with_syscall false) s) as ->.
      { unfold get_thread_mut. f_equal. apply (update_thread_ext _ _ _ _ t); [done|]. unfold wait_finished.
        by rewrite bool_decide_false. }
      by apply quiet_inv.
  - assert (get_thread_mut id wait_finished s = s) as ->; [|done].
    unfold get_thread_mut. by rewrite update_thread_none, set_threads_same.
Qed.

(** A thread that has been terminated. *)
Definition killed (s : System) (id : u64) : Prop := get_state s id = Some Terminated.

Lemma killed_update id f s x :
  keeps_id f → (∀ t, get_thread s id = Some t → t_state t = Terminated → t_state (f t) = Terminated) →
  killed s x → killed (get_thread_mut id f s) x.
Proof.
  intros Hf Hk. unfold killed, get_state. rewrite get_thread_update by done. case_decide; [subst|done].
  destruct (get_thread s id) as [t|]; [|done]. cbn. intros [= E]. by rewrite Hk.
Qed.

(** What the wake paths leave alone: the CPUs, the deferred slots, the exit
    kicks and every terminated thread; no thread becomes Running. *)
Record waking (s s' : System) : Prop := {
  wk_cpus : cpu_state (scheduler s') = cpu_state (scheduler s);
  wk_deferred : DEFERRED_REQUEUE s' = DEFERRED_REQUEUE s;
  wk_kicks : EXIT_KICK_SLOTS s' = EXIT_KICK_SLOTS s;
  wk_terminated : ∀ id t, get_thread s' id = Some t → t_state t = Terminated →
    get_thread s id = Some t ∧ (id ∈ all_queued s' → id ∈ all_queued s);
  wk_running : ∀ id, get_state s' id = Some Running → get_state s id = Some Running;
  wk_ids : t_id <$> threads (scheduler s') = t_id <$> threads (scheduler s);
  wk_queued : ∀ id, id ∈ all_queued s → id ∈ all_queued s';
  wk_killed : ∀ id, killed s id → killed s' id;
}.

#[global] Instance waking_preorder : PreOrder waking.
Proof.
  split; [by intros s; split|]. intros s1 s2 s3 [A1 A2 A3 A4 A5 A6 A7 A8] [B1 B2 B3 B4 B5 B6 B7 B8].
  split; [congruence..| |by auto|congruence|by auto|by auto]. intros id t Ht Hst. destruct (B4 id t Ht Hst) as [Ht2 ?].
  destruct (A4 id t Ht2 Hst). auto.
Qed.

Lemma waking_cpu s s' c : waking s s' → cpu s' c = cpu s c.
Proof. intros W. unfold cpu. by rewrite (wk_cpus _ _ W). Qed.

Lemma waking_refl s : waking s s.
Proof. reflexivity. Qed.
Lemma waking_heap s s' x : waking s s' → waking s (set_heap x s').
Proof. intros W. etrans; [exact W|]. by split. Qed.
Lemma waking_flags s s' g x : waking s s' → waking s (set_flags g x s').
Proof. intros W. etrans; [exact W|]. by split. Qed.
Lemma waking_idle_flags s s' x : waking s s' → waking s (set_idle_flags x s').
Proof. intros W. etrans; [exact W|]. by split. Qed.
Lemma waking_buffers s s' x : waking s s' → waking s (set_buffers x s').
Proof. intros W. etrans; [exact W|]. by split. Qed.
Lemma waking_sgi s s' c : waking s s' → waking s (send_sgi c s').
Proof. intros W. etrans; [exact W|]. by split. Qed.

#[export] Hint Resolve waking_refl waking_heap waking_flags waking_idle_flags waking_buffers waking_sgi : sched.

Lemma waking_send_resched_ipi e s s' : waking s s' → waking s (send_resched_ipi e s').
Proof.
  unfold send_resched_ipi. revert s'. induction (seq 0 (e_cpus_online e)) as [|c l IH]; intros s' W; [done|]. cbn.
  apply IH. unfold wake_if_idle. repeat case_match; auto with sched.
Qed.
Lemma waking_send_resched_ipi_to_cpu e c s s' : waking s s' → waking s (send_resched_ipi_to_cpu e c s').
Proof. intros. unfold send_resched_ipi_to_cpu. repeat case_match; auto with sched. Qed.

#[export] Hint Resolve waking_send_resched_ipi waking_send_resched_ipi_to_cpu : sched.

Lemma elem_of_push c id s x : x ∈ all_queued (push_back c id s) → x = id ∨ x ∈ all_queued s.
Proof.
  unfold all_queued, push_back, on_queue. cbn. rewrite !elem_of_concat. intros (q & Hq & Hx).
  apply list_elem_of_lookup_1 in Hq as [i Hi]. rewrite list_lookup_alter in Hi. case_decide; simplify_eq/=.
  - destruct (per_cpu_queues (scheduler s) !! i) as [q'|] eqn:E; simplify_eq/=.
    apply elem_of_app in Hx as [Hx|Hx%list_elem_of_singleton]; [right|by left].
    exists q'. split; [by eapply list_elem_of_lookup_2|done].
  - right. exists q. split; [by eapply list_elem_of_lookup_2|done].
Qed.

Lemma elem_of_push_old c id s x : x ∈ all_queued s → x ∈ all_queued (push_back c id s).
Proof.
  unfold all_queued, push_back, on_queue. cbn. rewrite !elem_of_concat. intros (q & Hq & Hx).
  apply list_elem_of_lookup_1 in Hq as [i Hi]. destruct (decide (i = c)) as [->|Hne].
  - exists (q ++ [id]). split; [|apply elem_of_app; by left].
    eapply list_elem_of_lookup_2. by rewrite list_lookup_alter_eq, Hi.
  - exists q. split; [|done]. eapply list_elem_of_lookup_2. by rewrite list_lookup_alter_ne.
Qed.

Lemma wake_waking e id f t s :
  keeps_id f → get_thread s id = Some t → t_state t ≠ Terminated → t_state (f t) = Ready →
  waking s (enqueue_woken e id (get_thread_mut id f s)).1.
Proof.
  intros Hf Ht Hnt Hready. set (s1 := get_thread_mut id f s).
  assert (∀ id' u, get_thread s1 id' = Some u → t_state u = Terminated → id' ≠ id ∧ get_thread s id' = Some u) as Hs1.
  { unfold s1. intros id' u. rewrite get_thread_update by done. case_decide as E; [|done]. subst.
    rewrite Ht. intros [= <-]. by rewrite Hready. }
  assert (∀ id', get_state s1 id' = Some Running → get_state s id' = Some Running) as Hrun.
  { unfold s1, get_state. intros id'. rewrite get_thread_update by done. case_decide as E; [|done]. subst.
    rewrite Ht. cbn. by rewrite Hready. }
  assert (∀ id', killed s id' → killed s1 id') as Hkill.
  { intros id'. apply killed_update; [done|]. intros u. rewrite Ht. by intros [= <-]. }
  destruct (enqueue_woken_cases e id s1) as [(target & -> & _)|[-> _]]; cbn [fst]; split; try done.
  - intros id' u Hu Hst. destruct (Hs1 id' u Hu Hst) as [Hne Hu']. split; [done|].
    intros [?|?]%elem_of_push; done.
  - by apply update_thread_ids.
  - intros id' Hq. by apply elem_of_push_old.
  - intros id' u Hu Hst. by destruct (Hs1 id' u Hu Hst).
  - by apply update_thread_ids.
Qed.

Lemma get_thread_mut_same id s : get_thread_mut id (λ t, t) s = s.
Proof.
  unfold get_thread_mut. assert (update_thread id (λ t, t) (threads (scheduler s)) = threads (scheduler s)) as ->.
  { induction (threads (scheduler s)) as [|t ts IH]; [done|]. cbn. case_match; [done|by f_equal]. }
  by destruct s as [[]].
Qed.

(** The two facts about a wake path together. *)
Definition wakes (sw : option nat) (s s' : System) : Prop := inv sw [] s → inv sw [] s' ∧ waking s s'.

#[global] Instance wakes_preorder sw : PreOrder (wakes sw).
Proof.
  split; [by intros s Hinv|]. intros s1 s2 s3 W1 W2 Hinv. destruct (W1 Hinv) as [Hi2 ?].
  destruct (W2 Hi2) as [Hi3 ?]. split; [done|by etrans].
Qed.

Lemma wakes_neutral sw s s' : veq s s' → waking s s' → wakes sw s s'.
Proof. intros V W Hinv. split; [by eapply veq_inv|done]. Qed.

Section wake_ops.
Context (e : Env) (He : (e_cpu e < MAX_CPUS)%nat).

Lemma enqueue_wakes sw id f t s :
  get_thread s id = Some t → is_blocked (t_state t) = true ∨ t_state t = Ready →
  keeps_id f → t_state (f t) = Ready →
  wakes sw s (enqueue_woken e id (get_thread_mut id f s)).1.
Proof using He.
  intros Ht Hst Hf Hready Hinv. split; [by eapply wake_inv|].
  eapply wake_waking; [done..| |done]. intros E. rewrite E in Hst. by destruct Hst.
Qed.

Lemma set_ready_keeps : keeps_id set_ready.
Proof. intros t. unfold set_ready. by case_match. Qed.

Lemma set_ready_state t : is_blocked (t_state t) = true → t_state (set_ready t) = Ready.
Proof. unfold set_ready. intros Hb. case_bool_decide as E; [|done]. by rewrite E in Hb. Qed.

Lemma timer_woken_keeps : keeps_id timer_woken.
Proof. intros t. unfold timer_woken. by case_match. Qed.

Lemma timer_woken_state t : t_state (timer_woken t) = Ready.
Proof. unfold timer_woken. by case_match. Qed.

Lemma unblock_wakes sw id s : wakes sw s (unblock e id s).1.
Proof using He.
  unfold unblock. destruct (get_thread s id) as [t|] eqn:Ht; [|done].
  assert (is_blocked (t_state t) = true → wakes sw s
    (let '(s0, queued) := enqueue_woken e id (get_thread_mut id set_ready s) in
     match queued, current_cpu_of (get_thread_mut id set_ready s) id with
     | Some _, _ => send_resched_ipi e s0
     | None, Some target => send_resched_ipi_to_cpu e target s0
     | None, None => s0
     end)) as Hgo.
  { intros Hb. pose proof (enqueue_wakes sw id set_ready t s Ht (or_introl Hb) set_ready_keeps (set_ready_state t Hb)) as W.
    destruct (enqueue_woken _ _ _) as [s0 queued]. etrans; [exact W|].
    repeat case_match; apply wakes_neutral; cbn [fst]; auto with sched. }
  destruct (t_state t) eqn:Hst; cbn [fst]; try done.
  all: specialize (Hgo eq_refl); by destruct (enqueue_woken _ _ _).
Qed.

Lemma wake_io_wakes sw id s : wakes sw s (wake_io_thread_locked e id s).1.
Proof using He.
  unfold wake_io_thread_locked. destruct (get_thread s id) as [t|] eqn:Ht; [|done].
  assert (∀ f, is_blocked (t_state t) = true ∨ t_state t = Ready → keeps_id f → t_state (f t) = Ready → wakes sw s
    (let current_cpu := current_cpu_of (get_thread_mut id f s) id in
     let '(s0, target) := enqueue_woken e id (get_thread_mut id f s) in
     (set_need_resched e s0, mkWake target current_cpu)).1) as Hgo.
  { intros f Hb Hf Hr. pose proof (enqueue_wakes sw id f t s Ht Hb Hf Hr) as W.
    destruct (enqueue_woken _ _ _) as [s0 queued]. etrans; [exact W|].
    apply wakes_neutral; unfold set_need_resched; cbn [fst]; auto with sched. }
  destruct (t_state t) eqn:Hst; try done.
  - destruct (t_blocked_in_syscall t); [|done]. specialize (Hgo (λ t, t)).
    rewrite get_thread_mut_same in Hgo. by apply Hgo; [right|..].
  - apply Hgo; [by left|intros ?; apply set_ready_keeps|]. apply set_ready_state. by rewrite Hst.
  - apply Hgo; [by left|intros ?; apply set_ready_keeps|]. apply set_ready_state. by rewrite Hst.
Qed.

Lemma unblock_for_io_wakes sw id s : wakes sw s (unblock_for_io e id s).
Proof using He.
  unfold unblock_for_io. pose proof (wake_io_wakes sw id s) as W.
  destruct (wake_io_thread_locked e id s) as [s0 wake]. etrans; [exact W|].
  cbn. case_match; apply wakes_neutral; cbn [fst]; auto with sched.
Qed.

Lemma wake_dedicated_wakes sw id t s :
  get_thread s id = Some t → is_blocked (t_state t) = true → wakes sw s (wake_dedicated e id s).
Proof using He.
  intros Ht Hb. unfold wake_dedicated.
  pose proof (enqueue_wakes sw id set_ready t s Ht (or_introl Hb) set_ready_keeps (set_ready_state t Hb)) as W.
  destruct (enqueue_woken _ _ _) as [s0 queued]. etrans; [exact W|].
  unfold set_need_resched. case_match; apply wakes_neutral; cbn [fst]; auto with sched.
Qed.

Lemma unblock_for_signal_wakes sw id s : wakes sw s (unblock_for_signal e id s).
Proof using He.
  unfold unblock_for_signal. destruct (get_thread s id) as [t|] eqn:Ht; [|done].
  destruct (t_state t) eqn:Hst; try done; [|apply unblock_for_io_wakes].
  eapply wake_dedicated_wakes; [done|by rewrite Hst].
Qed.

Lemma unblock_for_child_exit_wakes sw id s : wakes sw s (unblock_for_child_exit e id s).
Proof using He.
  unfold unblock_for_child_exit. destruct (get_thread s id) as [t|] eqn:Ht; [|done].
  destruct (t_state t) eqn:Hst; try done. eapply wake_dedicated_wakes; [done|by rewrite Hst].
Qed.

(** The timer path is the common wake path. *)
Lemma wake_timer_enqueue id s :
  wake_timer e id s =
  match get_thread s id with
  | Some t => if is_timed_wait t then (enqueue_woken e id (get_thread_mut id timer_woken s)).1 else s
  | None => s
  end.
Proof using Type.
  unfold wake_timer. destruct (get_thread s id) as [t|]; [|done]. destruct (is_timed_wait t); [|done]. cbn [negb].
  unfold enqueue_woken.
  change (is_current_on_any_cpu (get_thread_mut id timer_woken s) id) with (is_current_on_any_cpu s id).
  change (wake_deferred (get_thread_mut id timer_woken s) id) with (wake_deferred s id).
  change (idle (get_thread_mut id timer_woken s)) with (idle s).
  change (in_any_queue (get_thread_mut id timer_woken s) id) with (in_any_queue s id).
  destruct (is_current_on_any_cpu s id); [done|]. cbn [negb andb]. by case_match.
Qed.

Lemma is_timed_wait_blocked t : is_timed_wait t = true → is_blocked (t_state t) = true.
Proof using Type. unfold is_timed_wait. by destruct (t_state t). Qed.

Lemma wake_timer_wakes sw id s : wakes sw s (wake_timer e id s).
Proof using He.
  rewrite wake_timer_enqueue. destruct (get_thread s id) as [t|] eqn:Ht; [|done].
  destruct (is_timed_wait t) eqn:Hw; [|done].
  eapply enqueue_wakes; [done|left; by apply is_timed_wait_blocked|apply timer_woken_keeps|apply timer_woken_state].
Qed.

Lemma wake_expired_wakes sw s : wakes sw s (wake_expired_timers e s).
Proof using He.
  unfold wake_expired_timers. generalize (timer_heap (scheduler s)) as heap. intros heap. revert s.
  induction heap as [|[w id] heap IH]; intros s; [done|]. cbn. case_match; [done|].
  etrans; [|apply IH]. etrans; [|apply wake_timer_wakes].
  apply wakes_neutral; auto with sched.
Qed.

Lemma foldl_wakes sw {A} (f : System → A → System) l s :
  (∀ s x, wakes sw s (f s x)) → wakes sw s (foldl f s l).
Proof using Type. intros Hf. revert s. induction l as [|x l IH]; intros s; [done|]. cbn. etrans; [apply Hf|apply IH]. Qed.

Lemma drain_isr_wakes sw s : wakes sw s (drain_isr_wakeups e s).
Proof using He.
  unfold drain_isr_wakeups. etrans; [|apply foldl_wakes; intros; apply unblock_for_io_wakes].
  apply wakes_neutral; auto with sched.
Qed.

Lemma buffer_wakes sw id s : wakes sw s (buffer_isr_wakeup e id s).1.
Proof using He.
  unfold buffer_isr_wakeup. destruct (ISR_WAKEUP_BUFFERS s !! e_cpu e); [|done].
  destruct (IsrWakeupBuffer_push id l) as [[] ?]; cbn [fst]; [apply wakes_neutral; auto with sched|done|].
  case_match; [|done]. pose proof (unblock_wakes sw id s). by destruct (unblock e id s).
Qed.

Lemma resched_wakes sw s s' : wakes sw s s' → wakes sw s (set_need_resched e s').
Proof using Type.
  intros W. etrans; [exact W|]. apply wakes_neutral; unfold set_need_resched; auto with sched.
Qed.

Lemma isr_unblock_wakes sw id s : wakes sw s (isr_unblock_for_io e id s).
Proof using He. apply resched_wakes, buffer_wakes. Qed.

Lemma any_context_wakes sw id s : wakes sw s (wake_thread_any_context e id s).1.
Proof using He.
  unfold wake_thread_any_context. case_match.
  - pose proof (buffer_wakes sw id s) as W. destruct (buffer_isr_wakeup e id s) as [s1 []]; try done. by apply resched_wakes.
  - pose proof (unblock_wakes sw id s) as W. destruct (unblock e id s) as [s1 []]; try done. by apply resched_wakes.
Qed.
End wake_ops.

(** ** Blocking *)

Lemma current_not_idle sw held s c id :
  inv sw held s → current s c = Some id → id ≠ idle s c → ¬ idle_tid s id.
Proof.
  intros Hinv Hc Hne (c' & _ & Hi). pose proof (inv_thread _ _ _ Hinv id) as Hok.
  assert (∀ c', is_Some (current s c') → idle s c' ≠ id) as Hb.
  { intros c0 Hc0 Hi0. pose proof (ok_idle_current _ _ _ _ Hok c c0 Hc Hc0 Hi0). by subst. }
  destruct (current s c') eqn:E; [by apply (Hb c')|].
  rewrite (inv_boot _ _ _ Hinv c' E) in Hi. subst id.
  apply (Hb 0%nat); [apply Hinv|]. apply (ok_zero _ _ _ _ Hok); [done|right; by exists c].
Qed.

(** The running thread of a CPU, neither idle nor terminated, becomes blocked
    and is in no queue. *)
Lemma block_inv e f id t s s' :
  inv None [] s → current s (e_cpu e) = Some id → id ≠ idle s (e_cpu e) →
  get_thread s id = Some t → t_state t ≠ Terminated →
  keeps_id f → is_blocked (t_state (f t)) = true →
  veq (get_thread_mut id f s) s' →
  inv None [] s'.
Proof.
  intros Hinv Hc Hnid Ht Hnt Hf Hb V. apply (veq_inv _ _ _ _ V).
  pose proof (inv_shape _ _ _ Hinv) as Hsh.
  pose proof (inv_thread _ _ _ Hinv id) as [O1 O2 O3 O4 O5 O6 O7 O8 O9 O10].
  pose proof (current_not_idle _ _ _ _ _ Hinv Hc Hnid) as Hnidle.
  set (s1 := get_thread_mut id f s).
  assert (get_thread s1 id = Some (f t)) as Ht1 by (unfold s1; rewrite get_thread_update, decide_True, Ht by done; done).
  assert (id ∉ all_queued s) as Hnq.
  { intros (st & Hst & Hcs)%O5. unfold get_state in Hst. rewrite Ht in Hst. injection Hst as <-.
    destruct Hcs as [?|(_ & Hr & _)]; [done|]. by destruct Hr; exists (e_cpu e). }
  apply (inv_touch [id] None None [] [] s); [done|by destruct Hsh|by apply update_ids_nodup, Hinv|apply Hinv|done|done| |].
  - intros id' Hne%not_elem_of_cons. split; [|done]. split; try done.
    unfold s1. rewrite get_thread_update, decide_False by naive_solver. done.
  - intros id' ->%list_elem_of_singleton. split; try done.
    + intros _ _. unfold get_state. rewrite Ht1. intros [= E]. by rewrite E in Hb.
    + intros _ _. unfold get_state. rewrite Ht1. intros [= E]. by rewrite E in Hb.
    + intros ? _. apply O10; [done|left; by rewrite Ht].
Qed.

Lemma concat_filter (P : u64 → Prop) `{∀ x, Decision (P x)} (qs : list (list u64)) :
  concat (filter P <$> qs) = filter P (concat qs).
Proof. induction qs as [|q qs IH]; [done|]. cbn. by rewrite filter_app, <- IH. Qed.

Lemma filter_not_elem (id : u64) (q : list u64) : id ∉ q → filter (λ x, x ≠ id) q = q.
Proof.
  induction q as [|x q IH]; [done|]. intros [Hx Hq]%not_elem_of_cons.
  rewrite filter_cons_True by congruence. by rewrite IH.
Qed.

Lemma all_queued_remove id s : all_queued (remove_from_ready_queue id s) = filter (λ x, x ≠ id) (all_queued s).
Proof. unfold all_queued, remove_from_ready_queue, retain_not. cbn. apply concat_filter. Qed.

Lemma veq_remove id s s' :
  id ∉ all_queued s' → veq s s' → veq s (remove_from_ready_queue id s').
Proof.
  intros Hn V. etrans; [exact V|]. split; try done.
  - by rewrite all_queued_remove, filter_not_elem.
  - intros []. split; [cbn; by rewrite length_fmap|done..].
Qed.

(** The CPU runs a thread that may block: not its idle thread, and not one
    that another CPU has terminated meanwhile. *)
Definition may_block (e : Env) (s : System) : Prop :=
  ∃ id t, current s (e_cpu e) = Some id ∧ id ≠ idle s (e_cpu e)
    ∧ get_thread s id = Some t ∧ t_state t ≠ Terminated.

Section block_ops.
Context (e : Env) (s : System) (Hinv : inv None [] s) (Hmay : may_block e s).

Lemma block_current_inv : inv None [] (block_current e s).
Proof using Hinv Hmay.
  destruct Hmay as (id & t & Hc & Hi & Ht & Hnt). unfold block_current, block_current_with. rewrite Hc.
  eapply (block_inv e _ id t s _ Hinv Hc Hi Ht Hnt); [| |reflexivity]; done.
Qed.

Lemma not_queued : ∀ id t, current s (e_cpu e) = Some id → get_thread s id = Some t → t_state t ≠ Terminated →
  id ∉ all_queued s.
Proof using Hinv.
  intros id t Hc Ht Hnt Hq. destruct (ok_queued _ _ _ _ (inv_thread _ _ _ Hinv id) Hq) as (st & Hst & Hcs).
  unfold get_state in Hst. rewrite Ht in Hst. injection Hst as <-.
  destruct Hcs as [?|(_ & Hr & _)]; [done|]. by destruct Hr; exists (e_cpu e).
Qed.

Lemma block_signal_inv ctx : inv None [] (block_current_for_signal_with_context e ctx s).
Proof using Hinv Hmay.
  destruct Hmay as (id & t & Hc & Hi & Ht & Hnt).
  unfold block_current_for_signal_with_context, block_current_with. rewrite Hc.
  eapply (block_inv e _ id t s _ Hinv Hc Hi Ht Hnt); [| |apply veq_remove; [by eapply not_queued|reflexivity]];
    [by intros u; destruct ctx|done].
Qed.

Lemma block_child_exit_inv : inv None [] (block_current_for_child_exit e s).
Proof using Hinv Hmay.
  destruct Hmay as (id & t & Hc & Hi & Ht & Hnt).
  unfold block_current_for_child_exit, block_current_with. rewrite Hc.
  eapply (block_inv e _ id t s _ Hinv Hc Hi Ht Hnt); [| |apply veq_remove; [by eapply not_queued|reflexivity]]; done.
Qed.

Lemma block_timer_inv wake : inv None [] (block_current_for_timer e wake s).
Proof using Hinv Hmay.
  destruct Hmay as (id & t & Hc & Hi & Ht & Hnt).
  unfold block_current_for_timer, block_current_with. rewrite Hc. cbn [is_aarch64 target_arch aarch64].
  eapply (block_inv e _ id t s _ Hinv Hc Hi Ht Hnt);
    [| |apply veq_remove; [by eapply not_queued|apply veq_heap, veq_idle_flags; reflexivity]]; done.
Qed.

Lemma block_compositor_inv timeout : inv None [] (block_current_for_compositor e timeout s).
Proof using Hinv Hmay.
  destruct Hmay as (id & t & Hc & Hi & Ht & Hnt).
  unfold block_current_for_compositor, block_current_with. rewrite Hc.
  eapply (block_inv e _ id t s _ Hinv Hc Hi Ht Hnt);
    [| |apply veq_remove; [by eapply not_queued|apply veq_heap; reflexivity]]; done.
Qed.

Lemma publish_io_inv wake : inv None [] (publish_current_io_wait_state_inner e wake s).1.
Proof using Hinv Hmay.
  destruct Hmay as (id & t & Hc & Hi & Ht & Hnt).
  unfold publish_current_io_wait_state_inner, block_current_with. rewrite Hc, Ht. cbn [fst].
  eapply (block_inv e _ id t s _ Hinv Hc Hi Ht Hnt); [| |reflexivity]; done.
Qed.

Lemma block_io_inv wake : inv None [] (block_current_for_io_with_timeout e wake s).1.
Proof using Hinv Hmay.
  destruct Hmay as (id & t & Hc & Hi & Ht & Hnt).
  unfold block_current_for_io_with_timeout, publish_current_io_wait_state_inner, block_current_with. rewrite Hc, Ht.
  destruct wake; cbn [fst];
    (eapply (block_inv e _ id t s _ Hinv Hc Hi Ht Hnt);
      [| |apply veq_remove; [by eapply not_queued|try apply veq_heap; reflexivity]]); done.
Qed.
End block_ops.

(** ** Spawning *)

(** The id of a new thread has not been used (ids are never reused). *)
Definition fresh_id (s : System) (id : u64) : Prop :=
  id ≠ 0 ∧ id ∉ (t_id <$> threads (scheduler s)) ∧ id ∉ all_queued s ∧ ¬ idle_tid s id
  ∧ ∀ c, current s c ≠ Some id ∧ previous s c ≠ Some id.

Lemma on_queue_add_perm (front : bool) (id : u64) q : (if front then id :: q else q ++ [id]) ≡ₚ [id] ++ q.
Proof. destruct front; [done|apply Permutation_app_comm]. Qed.

Lemma add_thread_inv e t front s :
  inv None [] s → (e_cpu e < MAX_CPUS)%nat → fresh_id s (t_id t) → t_state t = Ready →
  inv None [] (add_thread_inner e t front s).
Proof.
  intros Hinv He (Hnz & Hid & Hnq & Hnidle & Hloc) Hst. unfold add_thread_inner.
  set (s1 := set_threads _ s). set (s2 := on_queue _ _ s1).
  pose proof (inv_shape _ _ _ Hinv) as Hsh.
  assert (∀ id, id ≠ t_id t → get_thread s2 id = get_thread s id) as Hother.
  { intros id Hne. unfold s2, s1, get_thread. cbn. rewrite find_thread_app. destruct (find_thread _ _); [done|].
    cbn. by rewrite (proj2 (Z.eqb_neq _ _)). }
  assert (get_thread s2 (t_id t) = Some t) as Ht.
  { unfold s2, s1, get_thread. cbn. rewrite find_thread_app, (proj2 (find_thread_None _ _)) by done.
    cbn. by rewrite Z.eqb_refl. }
  assert (all_queued s2 ≡ₚ t_id t :: all_queued s) as Hp.
  { assert (least_loaded_cpu e s1 < length (per_cpu_queues (scheduler s1)))%nat as Hlt.
    { cbn. rewrite (shape_queues _ Hsh). by apply least_loaded_cpu_lt. }
    destruct (lookup_lt_is_Some_2 _ _ Hlt) as [q Hq]. unfold s2, all_queued, on_queue. cbn.
    apply (alter_concat_perm _ _ _ q [t_id t] Hq). apply on_queue_add_perm. }
  split.
  - split; [|apply Hsh..]. cbn. rewrite length_alter. apply Hsh.
  - cbn. rewrite fmap_app. apply NoDup_app. split; [apply Hinv|]. split; [|apply NoDup_singleton].
    intros x Hx ->%list_elem_of_singleton. done.
  - rewrite Hp. constructor; [done|apply Hinv].
  - apply Hinv.
  - apply Hinv.
  - apply Hinv.
  - apply Hinv.
  - intros id. destruct (decide (id = t_id t)) as [->|Hne].
    + assert (¬ running_on s2 (t_id t)) as Hnr by (by intros [c Hc]; destruct (Hloc c)).
      assert (¬ switching_out s2 (t_id t)) as Hns by (by intros [c Hc]; destruct (Hloc c)).
      assert (get_state s2 (t_id t) = Some Ready) as Hst' by (unfold get_state; rewrite Ht; cbn; by f_equal).
      split.
      * intros Hi. by destruct Hnidle.
      * intros Hi. by destruct Hnidle.
      * intros c c' Hc. by destruct Hnr; exists c.
      * intros c c' Hc. by destruct Hnr; exists c.
      * intros _. exists Ready. auto.
      * intros c Hc. by destruct Hns; exists c.
      * rewrite Hst'. by intros _ _ [=].
      * intros _ _ _. right; left. rewrite Hp. by left.
      * intros c Hc. exfalso. destruct (ok_pending _ _ _ _ (inv_thread _ _ _ Hinv (t_id t)) c Hc) as [Hx _].
        by apply elem_of_nil in Hx.
      * done.
    + apply (thread_ok_agree None None [] [] s); [|done..|apply (inv_thread _ _ _ Hinv)]. split; try done; [by apply Hother|].
      rewrite Hp, elem_of_cons. split; [by intros [?|?]|by right].
Qed.

(** ** Starting a CPU *)

(** The state after [register_idle_thread]. *)
Record registered (s s' : System) (c : nat) (t : Thread) : Prop := {
  rg_shape : shape s';
  rg_threads : threads (scheduler s') = threads (scheduler s) ++ [t];
  rg_queued : all_queued s' = all_queued s;
  rg_current : ∀ c', current s' c' = if decide (c' = c) then Some (t_id t) else current s c';
  rg_idle : ∀ c', idle s' c' = if decide (c' = c) then t_id t else idle s c';
  rg_previous : ∀ c', previous s' c' = previous s c';
  rg_pending : ∀ c', pending s' c' = pending s c';
  rg_slot : ∀ c', slot s' c' = slot s c';
}.

Lemma register_registered e c t s :
  shape s → (c < MAX_CPUS)%nat → registered s (register_idle_thread e c t s) c t.
Proof.
  intros Hsh Hc. unfold register_idle_thread. rewrite (proj2 (Nat.leb_gt _ _)) by done.
  set (s1 := set_threads _ s). set (f := λ st, _).
  assert (∀ c', cpu (on_cpu c f s1) c' = if decide (c' = c) then f (cpu s c) else cpu s c') as Hcpu.
  { intros c'. rewrite cpu_on_cpu; [done|]. cbn. by rewrite (shape_cpus _ Hsh). }
  split; try done.
  - split; [apply Hsh| |apply Hsh]. cbn. rewrite length_alter. apply Hsh.
  - intros c'. unfold current. rewrite Hcpu. by case_decide.
  - intros c'. unfold idle. rewrite Hcpu. by case_decide.
  - intros c'. unfold previous. rewrite Hcpu. case_decide; by subst.
  - intros c'. unfold pending. rewrite Hcpu. case_decide; by subst.
Qed.

Section registered.
Context (s s' : System) (c : nat) (t : Thread) (Hinv : inv None [] s).
Context (Hnone : current s c = None) (Hfresh : fresh_id s (t_id t)) (R : registered s s' c t).

Lemma registered_get id :
  get_thread s' id = if decide (id = t_id t) then Some t else get_thread s id.
Proof using R Hfresh.
  destruct Hfresh as (_ & Hid & _). unfold get_thread. rewrite (rg_threads _ _ _ _ R), find_thread_app. cbn. case_decide as E.
  - subst. rewrite (proj2 (find_thread_None _ _)) by done. by rewrite Z.eqb_refl.
  - destruct (find_thread _ _); [done|]. by rewrite (proj2 (Z.eqb_neq _ _)).
Qed.

Lemma registered_not_boot : c ≠ 0%nat.
Proof using Hinv Hnone. intros E. destruct (inv_boot0 _ _ _ Hinv) as [x Hx]. by rewrite <- E, Hnone in Hx. Qed.

Lemma registered_self :
  t_state t = Running → t_owner_pid t = None → thread_ok None [] s' (t_id t).
Proof using R Hinv Hnone Hfresh.
  intros Hst Hown. pose proof Hfresh as (Hnz & Hid & Hnq & Hnidle & Hloc).
  assert (∀ c', current s' c' = Some (t_id t) → c' = c) as Hcur.
  { intros c'. rewrite (rg_current _ _ _ _ R). case_decide; [done|]. intros E. by destruct (Hloc c'). }
  assert (¬ switching_out s' (t_id t)) as Hns.
  { intros [c' E]. rewrite (rg_previous _ _ _ _ R) in E. by destruct (Hloc c'). }
  assert (idle_tid s' (t_id t)) as Hi.
  { exists c. rewrite (rg_idle _ _ _ _ R), decide_True by done. split; [|done].
    apply (current_lt _ (rg_shape _ _ _ _ R) c (t_id t)). by rewrite (rg_current _ _ _ _ R), decide_True. }
  split; try done.
  - intros _ u. rewrite registered_get, decide_True by done. by intros [= <-].
  - intros _. by rewrite (rg_queued _ _ _ _ R).
  - intros c1 c2 ->%Hcur Hb. rewrite (rg_idle _ _ _ _ R). case_decide; [done|]. intros E.
    destruct Hnidle. exists c2. split; [|done]. destruct Hb as [x Hb].
    rewrite (rg_current _ _ _ _ R), decide_False in Hb by done. by apply (current_lt _ (inv_shape _ _ _ Hinv) _ _ Hb).
  - by intros c1 c2 ->%Hcur ->%Hcur.
  - by rewrite (rg_queued _ _ _ _ R).
  - intros c' E. by destruct Hns; exists c'.
  - intros c'. rewrite (rg_pending _ _ _ _ R). apply (inv_thread _ _ _ Hinv).
Qed.

Lemma registered_other id : id ≠ t_id t → thread_ok None [] s' id.
Proof using R Hinv Hnone Hfresh.
  intros Hne. destruct (inv_thread _ _ _ Hinv id) as [O1 O2 O3 O4 O5 O6 O7 O8 O9 O10].
  assert (get_thread s' id = get_thread s id) as Hg by (by rewrite registered_get, decide_False).
  assert (get_state s' id = get_state s id) as Hst by (unfold get_state; by rewrite Hg).
  assert (∀ c', current s' c' = Some id ↔ c' ≠ c ∧ current s c' = Some id) as Hcur.
  { intros c'. rewrite (rg_current _ _ _ _ R). case_decide; [|naive_solver]. subst. rewrite Hnone. naive_solver. }
  assert (running_on s' id ↔ running_on s id) as Hr.
  { unfold running_on. setoid_rewrite Hcur. split; intros [c' E]; exists c'; [apply E|].
    split; [|done]. intros ->. congruence. }
  assert (switching_out s' id ↔ switching_out s id) as Hs.
  { unfold switching_out. by setoid_rewrite (rg_previous _ _ _ _ R). }
  assert (idle_tid s' id → idle_tid s id) as Hi.
  { intros (c' & Hc' & E). rewrite (rg_idle _ _ _ _ R) in E. case_decide; [congruence|]. by exists c'. }
  assert (is_Some (get_thread s id) → idle_tid s id → idle_tid s' id) as Hi'.
  { intros Hsome (c' & Hc' & E). destruct (decide (c' = c)) as [->|].
    - rewrite (inv_boot _ _ _ Hinv c Hnone) in E. exists 0%nat. split; [cbn; lia|].
      rewrite (rg_idle _ _ _ _ R), decide_False by (pose proof registered_not_boot; congruence).
      rewrite <- E. apply O10; [done|by left].
    - exists c'. split; [done|]. by rewrite (rg_idle _ _ _ _ R), decide_False. }
  assert (∀ st, get_state s id = Some st → is_Some (get_thread s id)) as Hex.
  { unfold get_state. by destruct (get_thread s id). }
  split.
  - intros ?%Hi u. rewrite Hg. by apply O1.
  - intros [? Hn]%Hi%O2. rewrite (rg_queued _ _ _ _ R). split; [done|]. by intros ?%Hs.
  - intros c1 c2 [Hn1 E1]%Hcur Hb. rewrite (rg_idle _ _ _ _ R). case_decide as E; [congruence|].
    rewrite (rg_current _ _ _ _ R), decide_False in Hb by done. by apply O3.
  - intros c1 c2 [_ ?]%Hcur [_ ?]%Hcur. by apply O4.
  - rewrite (rg_queued _ _ _ _ R), Hst. intros (st & ? & Hcs)%O5. exists st. split; [done|].
    destruct Hcs as [?|(? & Hn1 & Hn2)]; [by left|right]. split; [done|]. split; [by intros ?%Hr|by intros ?%Hs].
  - intros c'. rewrite (rg_previous _ _ _ _ R), (rg_slot _ _ _ _ R). intros [[? Hn]|[??]]%O6; [left|done].
    split; [done|]. by intros ?%Hr.
  - intros ? Hn. rewrite Hst. intros E. apply Hr, O7; [done| |done]. intros ?. eauto.
  - intros ? Hn. rewrite Hst, (rg_queued _ _ _ _ R). unfold deferred_on. setoid_rewrite (rg_slot _ _ _ _ R).
    intros E. destruct O8 as [?|?]; [done|by eauto|done|left; by apply Hr|by right].
  - intros c'. rewrite (rg_pending _ _ _ _ R). apply O9.
  - intros ? Hx. rewrite (rg_idle _ _ _ _ R), decide_False by (pose proof registered_not_boot; congruence).
    apply O10; [done|]. rewrite Hg in Hx. destruct Hx as [?|?%Hr]; auto.
Qed.

Lemma registered_inv : t_state t = Running → t_owner_pid t = None → inv None [] s'.
Proof using R Hinv Hnone Hfresh.
  intros Hst Hown. pose proof Hfresh as (Hnz & Hid & Hnq & Hnidle & Hloc). split.
  - apply R.
  - rewrite (rg_threads _ _ _ _ R), fmap_app. apply NoDup_app. split; [apply Hinv|]. split; [|apply NoDup_singleton].
    intros x Hx ->%list_elem_of_singleton. done.
  - rewrite (rg_queued _ _ _ _ R). apply Hinv.
  - assert (∀ c', is_Some (current s c') → idle s c' ≠ t_id t) as Hni.
    { intros c' [x Hx] E. apply Hnidle. exists c'. split; [by apply (current_lt _ (inv_shape _ _ _ Hinv) _ _ Hx)|done]. }
    intros c1 c2. rewrite !(rg_current _ _ _ _ R), !(rg_idle _ _ _ _ R).
    repeat case_decide; subst; try done; intros H1 H2 E; [by destruct (Hni c2 H2)|by destruct (Hni c1 H1)|].
    by apply (inv_idle _ _ _ Hinv).
  - intros c'. rewrite (rg_current _ _ _ _ R), (rg_idle _ _ _ _ R). case_decide; [done|]. apply Hinv.
  - rewrite (rg_current _ _ _ _ R), decide_False by (pose proof registered_not_boot; congruence). apply Hinv.
  - intros c'. rewrite (rg_current _ _ _ _ R), (rg_idle _ _ _ _ R). case_decide; [done|]. apply Hinv.
  - intros id. destruct (decide (id = t_id t)) as [->|]; [by apply registered_self|by apply registered_other].
Qed.
End registered.

(** ** Termination *)

(** A thread that belongs to no CPU as its idle thread is terminated; whether
    it is queued afterwards does not matter. *)
Lemma terminate_inv sw held id t s s' :
  inv sw held s → get_thread s id = Some t → ¬ idle_tid s id →
  threads (scheduler s') = update_thread id set_terminated (threads (scheduler s)) →
  shape s' → NoDup (all_queued s') → (∀ x, x ≠ id → x ∈ all_queued s' ↔ x ∈ all_queued s) →
  (∀ c, cpu s' c = cpu s c) → DEFERRED_REQUEUE s' = DEFERRED_REQUEUE s →
  inv sw held s'.
Proof.
  intros Hinv Ht Hnidle Hts Hsh Hnd Hq Hcpu Hdef.
  pose proof (inv_thread _ _ _ Hinv id) as [O1 O2 O3 O4 O5 O6 O7 O8 O9 O10].
  assert (∀ x, get_thread s' x = if decide (x = id) then Some (set_terminated t) else get_thread s x) as Hg.
  { intros x. unfold get_thread. rewrite Hts, find_update_thread by done. case_decide; [|done].
    unfold get_thread in Ht. by rewrite Ht. }
  assert (get_state s' id = Some Terminated) as Hst by (unfold get_state; by rewrite Hg, decide_True).
  assert (∀ c, current s' c = current s c) as Hc by (intros; unfold current; by rewrite Hcpu).
  assert (∀ c, idle s' c = idle s c) as Hi by (intros; unfold idle; by rewrite Hcpu).
  assert (∀ c, previous s' c = previous s c) as Hp by (intros; unfold previous; by rewrite Hcpu).
  assert (∀ c, pending s' c = pending s c) as Hn by (intros; unfold pending; by rewrite Hcpu).
  assert (∀ c, slot s' c = slot s c) as Hs by (intros; unfold slot; by rewrite Hdef).
  apply (inv_touch [id] sw sw held held s); try done.
  - rewrite Hts. by apply update_ids_nodup, Hinv.
  - intros c. by rewrite Hc.
  - intros x Hx%not_elem_of_cons. split; [|done]. split.
    + rewrite Hg, decide_False by naive_solver. done.
    + apply Hq. naive_solver.
    + intros c. by rewrite Hc.
    + intros c. by rewrite Hp.
    + intros c. by rewrite Hn.
    + intros c. by rewrite Hs.
  - intros x ->%list_elem_of_singleton.
    assert (¬ idle_tid s' id) as Hn' by (unfold idle_tid; by setoid_rewrite Hi).
    assert (running_on s' id ↔ running_on s id) as Hr by (unfold running_on; by setoid_rewrite Hc).
    split; try done.
    + intros c c'. rewrite Hc, Hc, Hi. apply O3.
    + intros c c'. rewrite !Hc. apply O4.
    + intros _. exists Terminated. auto.
    + intros c. rewrite Hp, Hc, Hs. intros [[? Hx]|?]%O6; [left|by right]. split; [done|]. by intros ?%Hr.
    + rewrite Hst. by intros _ _ [=].
    + rewrite Hst. by intros _ _ [=].
    + intros c. rewrite Hn. apply O9.
    + intros ? _. rewrite Hi. apply O10; [done|left; by rewrite Ht].
Qed.

Lemma terminate_at_inv e pid s i :
  inv None [] s → inv None [] (terminate_at e pid s i).
Proof.
  intros Hinv. unfold terminate_at. destruct (threads (scheduler s) !! i) as [t|] eqn:Hi; [|done].
  case_bool_decide as Hown; [|done]. pose proof (inv_shape _ _ _ Hinv) as Hsh.
  assert (get_thread s (t_id t) = Some t) as Ht.
  { apply find_thread_elem; [apply Hinv|by eapply list_elem_of_lookup_2]. }
  assert (¬ idle_tid s (t_id t)) as Hnidle.
  { intros Hx. destruct (ok_idle_state _ _ _ _ (inv_thread _ _ _ Hinv (t_id t)) Hx t Ht). congruence. }
  set (s1 := set_threads _ s).
  assert (threads (scheduler s1) = update_thread (t_id t) set_terminated (threads (scheduler s))) as Hts.
  { symmetry. apply update_thread_insert; [apply Hinv|done]. }
  destruct (in_any_queue s1 (t_id t)) eqn:Hq; [|destruct (min_by_key _ _) as [c|] eqn:Hm].
  - apply (terminate_inv None [] (t_id t) t s); try done; [by destruct Hsh|apply Hinv].
  - assert (c < length (per_cpu_queues (scheduler s1)))%nat as Hlt.
    { cbn. rewrite (shape_queues _ Hsh). by eapply min_by_key_lt. }
    pose proof (all_queued_push c (t_id t) s1 Hlt) as Hp.
    assert (t_id t ∉ all_queued s1) as Hnq by (rewrite <- in_any_queue_spec; congruence).
    apply (terminate_inv None [] (t_id t) t s); try done.
    + split; [|apply Hsh..]. cbn. rewrite length_alter. apply Hsh.
    + rewrite Hp. constructor; [done|apply Hinv].
    + intros x Hx. rewrite Hp, elem_of_cons. split; [by intros [?|?]|by right].
  - apply (terminate_inv None [] (t_id t) t s); try done; [by destruct Hsh|apply Hinv].
Qed.

Lemma terminate_process_inv e pid s :
  inv None [] s → inv None [] (terminate_process_threads e pid s).
Proof.
  unfold terminate_process_threads. generalize (seq 0 (length (threads (scheduler s)))) as l. intros l.
  revert s. induction l as [|i l IH]; intros s Hinv; [done|]. cbn. by apply IH, terminate_at_inv.
Qed.

(** Crash recovery terminates a thread and takes it out of the queues. *)
Lemma terminate_removed sw held id t s :
  inv sw held s → get_thread s id = Some t → ¬ idle_tid s id →
  inv sw held (remove_from_ready_queue id (get_thread_mut id set_terminated s)).
Proof.
  intros Hinv Ht Hn. pose proof (inv_shape _ _ _ Hinv) as Hsh.
  apply (terminate_inv sw held id t s); try done.
  - split; [|apply Hsh..]. cbn. rewrite length_fmap. apply Hsh.
  - rewrite all_queued_remove. apply NoDup_filter, Hinv.
  - intros x Hx. rewrite all_queued_remove, list_elem_of_filter. naive_solver.
Qed.

(** ** Reclamation *)

Lemma find_thread_filter (P : Thread → Prop) `{∀ t, Decision (P t)} ts id :
  NoDup (t_id <$> ts) →
  find_thread id (filter P ts) = match find_thread id ts with Some t => if decide (P t) then Some t else None | None => None end.
Proof.
  induction ts as [|t ts IH]; [done|]. cbn [fmap list_fmap]. intros [Hn Hnd]%NoDup_cons.
  assert (t_id t = id → find_thread id ts = None) as Hnone by (intros <-; by apply find_thread_None).
  destruct (decide (P t)) as [HP|HP]; [rewrite filter_cons_True by done|rewrite filter_cons_False by done]; cbn.
  - destruct (Z.eqb_spec (t_id t) id); [by rewrite decide_True|by apply IH].
  - rewrite IH by done. destruct (Z.eqb_spec (t_id t) id); [|done]. by rewrite Hnone, decide_False.
Qed.

Lemma nodup_filter_ids (P : Thread → Prop) `{∀ t, Decision (P t)} ts :
  NoDup (t_id <$> ts) → NoDup (t_id <$> filter P ts).
Proof.
  induction ts as [|t ts IH]; [done|]. cbn [fmap list_fmap]. intros [Hn Hnd]%NoDup_cons. rewrite filter_cons.
  case_decide; [|by apply IH]. cbn. constructor; [|by apply IH].
  intros (u & E & [_ Hu]%list_elem_of_filter)%list_elem_of_fmap. apply Hn. rewrite E. by apply list_elem_of_fmap_2.
Qed.

Lemma idle_in_cpu_state s id :
  shape s → existsb (λ st, idle_thread st =? id) (cpu_state (scheduler s)) = true ↔ idle_tid s id.
Proof.
  intros Hsh. rewrite existsb_exists. split.
  - intros (st & Hin & E%Z.eqb_eq). apply list_elem_of_In, list_elem_of_lookup_1 in Hin as [c Hc].
    exists c. split; [rewrite <- (shape_cpus _ Hsh); by eapply lookup_lt_Some|]. unfold idle, cpu. by rewrite Hc.
  - intros (c & Hlt & E). rewrite <- (shape_cpus _ Hsh) in Hlt. destruct (lookup_lt_is_Some_2 _ _ Hlt) as [st Hc].
    exists st. split; [apply list_elem_of_In; by eapply list_elem_of_lookup_2|].
    unfold idle, cpu in E. rewrite Hc in E. by apply Z.eqb_eq.
Qed.

(** A thread that is gone: no longer known and no longer queued. *)
Lemma thread_gone_ok sw held s s' id :
  thread_ok sw held s id → ¬ idle_tid s id → get_thread s' id = None → id ∉ all_queued s' →
  (∀ c, cpu s' c = cpu s c) → (∀ c, slot s' c = slot s c) → thread_ok sw held s' id.
Proof.
  intros [O1 O2 O3 O4 O5 O6 O7 O8 O9 O10] Hnidle Hg Hq Hcpu Hs.
  assert (∀ c, current s' c = current s c) as Hc by (intros; unfold current; by rewrite Hcpu).
  assert (∀ c, idle s' c = idle s c) as Hi by (intros; unfold idle; by rewrite Hcpu).
  assert (∀ c, previous s' c = previous s c) as Hp by (intros; unfold previous; by rewrite Hcpu).
  assert (∀ c, pending s' c = pending s c) as Hn by (intros; unfold pending; by rewrite Hcpu).
  assert (¬ idle_tid s' id) as Hn' by (unfold idle_tid; by setoid_rewrite Hi).
  assert (running_on s' id ↔ running_on s id) as Hr by (unfold running_on; by setoid_rewrite Hc).
  assert (get_state s' id = None) as Hst by (unfold get_state; by rewrite Hg).
  split; try done.
  - intros c c'. rewrite Hc, Hc, Hi. apply O3.
  - intros c c'. rewrite !Hc. apply O4.
  - intros c. rewrite Hp, Hc, Hs. intros [[? Hx]|?]%O6; [left|by right]. split; [done|]. by intros ?%Hr.
  - by rewrite Hst.
  - by rewrite Hst.
  - intros c. rewrite Hn. apply O9.
  - intros ? [[? E]|?%Hr]; [congruence|]. rewrite Hi. apply O10; auto.
Qed.

Lemma reclaim_inv e s : inv None [] s → inv None [] (reclaim_terminated_threads e s).2.
Proof.
  intros Hinv. pose proof (inv_shape _ _ _ Hinv) as Hsh. unfold reclaim_terminated_threads. cbn [snd].
  set (s1 := update_grace e _). set (ids := t_id <$> filter (λ t, reclaimable e s1 t = true) _).
  set (s' := set_queues _ _).
  assert (shape s1) as Hsh1 by (split; [cbn; rewrite length_fmap|..]; apply Hsh).
  assert (all_queued s' = filter (λ id, id ∉ ids) (filter (λ id, is_Some (get_thread s id)) (all_queued s))) as Hq.
  { unfold s', all_queued at 1. cbn. by rewrite !concat_filter. }
  assert (∀ id, id ∈ ids → ∃ t, get_thread s id = Some t ∧ reclaimable e s1 t = true) as Hids.
  { intros id (t & -> & [Hr Hin]%list_elem_of_filter)%list_elem_of_fmap. exists t. split; [|done].
    apply find_thread_elem; [apply Hinv|done]. }
  assert (∀ id, get_thread s' id = if decide (id ∈ ids) then None else get_thread s id) as Hg.
  { intros id. unfold s', get_thread. cbn. rewrite find_thread_filter by apply Hinv. case_decide as Hin.
    - destruct (Hids id Hin) as (t & Ht & Hr). unfold get_thread in Ht. rewrite Ht. by rewrite decide_False by congruence.
    - destruct (find_thread id (threads (scheduler s))) as [t|] eqn:Ht; [|done].
      rewrite decide_True; [done|]. apply not_true_is_false. intros Hr. apply Hin.
      pose proof (find_thread_id _ _ _ Ht) as <-. apply list_elem_of_fmap_2, list_elem_of_filter. split; [done|].
      by apply find_thread_in in Ht. }
  apply (inv_touch ids None None [] [] s); try done.
  - split; [|apply Hsh..]. cbn. rewrite !length_fmap. apply Hsh.
  - by apply nodup_filter_ids, Hinv.
  - rewrite Hq. by apply NoDup_filter, NoDup_filter, Hinv.
  - intros id Hni. split; [|done]. split; try done; [by rewrite Hg, decide_False|].
    rewrite Hq, !list_elem_of_filter. split; [by intros (_ & _ & ?)|]. intros Hin. split; [done|]. split; [|done].
    destruct (ok_queued _ _ _ _ (inv_thread _ _ _ Hinv id) Hin) as (st & Hst & _).
    unfold get_state in Hst. by destruct (get_thread s id).
  - intros id Hin. apply (thread_gone_ok None [] s); try done; [apply Hinv| | |].
    + destruct (Hids id Hin) as (t & Ht & Hr). unfold reclaimable in Hr. bool_simpl.
      pose proof (get_thread_id _ _ _ Ht) as <-. intros Hx. apply (idle_in_cpu_state s _ Hsh) in Hx.
      change (cpu_state (scheduler s)) with (cpu_state (scheduler s1)) in Hx. congruence.
    + by rewrite Hg, decide_True.
    + rewrite Hq, list_elem_of_filter. by intros [? _].
Qed.
