(* ===== verification/SchedSmp.v ===== *)
(** Scheduling decisions and context switches of the aarch64 kernel keep the
    invariant of [SchedInv]; the kernel as a transition system, every CPU
    running any operation at any time, and what holds in every state it can
    reach: no thread runs on two CPUs or while a CPU still uses its stack, and
    no runnable thread is lost. *)

From S2P Require Import Prelude Sched SchedSwitch SchedInv.

(** * Moving threads between queues *)

Lemma queue_on_queue c f s c' :
  shape s → (c < MAX_CPUS)%nat →
  queue (on_queue c f s) c' = if decide (c' = c) then f (queue s c) else queue s c'.
Proof.
  intros Hsh Hc. unfold queue, on_queue. cbn. rewrite <- (shape_queues _ Hsh) in Hc. case_decide as E.
  - subst. rewrite list_lookup_alter_eq. by destruct (lookup_lt_is_Some_2 _ _ Hc) as [q ->].
  - by rewrite list_lookup_alter_ne.
Qed.

Lemma shape_on_cpu c f s : shape s → shape (on_cpu c f s).
Proof. intros [? Hl ?]. split; [done| |done]. cbn. by rewrite length_alter. Qed.

Lemma shape_on_queue c f s : shape s → shape (on_queue c f s).
Proof. intros []. split; [|done..]. cbn. by rewrite length_alter. Qed.

Lemma queue_lookup s c : shape s → (c < MAX_CPUS)%nat → per_cpu_queues (scheduler s) !! c = Some (queue s c).
Proof.
  intros Hsh Hc. unfold queue. rewrite <- (shape_queues _ Hsh) in Hc.
  by destruct (lookup_lt_is_Some_2 _ _ Hc) as [q ->].
Qed.

Lemma queue_beyond s c : shape s → (MAX_CPUS ≤ c)%nat → queue s c = [].
Proof. intros Hsh Hc. unfold queue. rewrite lookup_ge_None_2; [done|]. rewrite (shape_queues _ Hsh). lia. Qed.

(** Taking [k] off a queue. *)
Lemma all_queued_take c f k s :
  shape s → (c < MAX_CPUS)%nat → queue s c ≡ₚ k ++ f (queue s c) → all_queued s ≡ₚ k ++ all_queued (on_queue c f s).
Proof.
  intros Hsh Hc Hk. pose proof (queue_lookup s c Hsh Hc) as Hq. unfold all_queued, on_queue. cbn.
  generalize dependent (queue s c). intros q Hk Hq. revert c Hc Hq.
  induction (per_cpu_queues (scheduler s)) as [|q' qs IH]; intros [|c] Hc Hq; simplify_eq/=.
  - by rewrite Hk at 1; rewrite (assoc_L (++)).
  - rewrite (IH c) by (done || lia). rewrite !(assoc_L (++)). f_equiv. apply Permutation_app_comm.
Qed.

Lemma all_queued_put c f k s :
  shape s → (c < MAX_CPUS)%nat → f (queue s c) ≡ₚ k ++ queue s c → all_queued (on_queue c f s) ≡ₚ k ++ all_queued s.
Proof.
  intros Hsh Hc Hk. unfold all_queued, on_queue. cbn.
  by apply (alter_concat_perm _ _ _ (queue s c)); [apply queue_lookup|].
Qed.

Lemma elem_of_queue s c id : shape s → id ∈ queue s c → id ∈ all_queued s.
Proof.
  intros Hsh Hin. destruct (decide (c < MAX_CPUS)%nat); 
    [|rewrite queue_beyond in Hin by (done || lia); by apply elem_of_nil in Hin].
  apply elem_of_concat. exists (queue s c). split; [|done]. eapply list_elem_of_lookup_2. by apply queue_lookup.
Qed.

Section decision.
Context (e : Env) (He : (e_cpu e < MAX_CPUS)%nat).
#[local] Abbreviation c0 := (e_cpu e).

Lemma veq_reclaim_cpu_queue s c : shape s → (c < MAX_CPUS)%nat → veq s (reclaim_cpu_queue e s c).
Proof using He.
  intros Hsh Hc. unfold reclaim_cpu_queue. destruct (Nat.eqb_spec c c0) as [|Hne]; [done|].
  destruct (negb _ && negb _); [done|].
  set (s1 := on_queue c (λ _, []) s).
  assert (shape s1) as Hsh1 by by apply shape_on_queue.
  assert (queue s1 c0 = queue s c0) as Hq by (unfold s1; rewrite queue_on_queue, decide_False by done; done).
  split; try done; [|by intros _; apply shape_on_queue].
  rewrite (all_queued_put c0 _ (queue s c)); [|done..|apply Permutation_app_comm].
  symmetry. apply all_queued_take; [done..|]. by rewrite app_nil_r.
Qed.

Lemma veq_reclaim_queues s : shape s → veq s (reclaim_unschedulable_cpu_queues e s).
Proof using He.
  intros Hsh. unfold reclaim_unschedulable_cpu_queues.
  assert (∀ c, c ∈ seq 0 MAX_CPUS → (c < MAX_CPUS)%nat) as Hl by (intros c Hc; apply elem_of_seq in Hc; lia).
  revert Hl. generalize (seq 0 MAX_CPUS) as l. intros l. revert s Hsh.
  induction l as [|c l IH]; intros s Hsh Hl; [done|]. cbn.
  pose proof (veq_reclaim_cpu_queue s c Hsh (Hl c ltac:(left))) as V.
  etrans; [exact V|]. apply IH; [by apply V|]. intros c' ?. apply Hl. by right.
Qed.

End decision.

(** * Picking the next thread *)

(** What popping from the queues leaves alone. *)
Record popping (s s' : System) : Prop := {
  pp_threads : threads (scheduler s') = threads (scheduler s);
  pp_cpus : cpu_state (scheduler s') = cpu_state (scheduler s);
  pp_deferred : DEFERRED_REQUEUE s' = DEFERRED_REQUEUE s;
}.

#[global] Instance popping_preorder : PreOrder popping.
Proof. split; [by intros s; split|]. intros s1 s2 s3 [] []. split; congruence. Qed.

Lemma observe_popping pid s : popping s (observe_exit_kick pid s).2.
Proof. unfold observe_exit_kick. cbn. by repeat case_match. Qed.

Lemma popping_get s s' id : popping s s' → get_thread s' id = get_thread s id.
Proof. intros P. unfold get_thread. by rewrite (pp_threads _ _ P). Qed.

Lemma popping_owner s s' id : popping s s' → terminated_owner s' id = terminated_owner s id.
Proof. intros P. unfold terminated_owner. by rewrite (popping_get s s'). Qed.

Lemma terminated_owner_None s id t :
  get_thread s id = Some t → terminated_owner s id = None ↔ t_state t ≠ Terminated.
Proof.
  intros Ht. unfold terminated_owner, is_terminated. rewrite Ht. by case_bool_decide.
Qed.

(** The thread in hand after a successful pop. *)
Record in_hand (s : System) (id : u64) : Prop := {
  ih_state : get_state s id = Some Ready;
  ih_current : ¬ running_on s id;
  ih_previous : ¬ switching_out s id;
  ih_queued : id ∉ all_queued s;
  ih_idle : ¬ idle_tid s id;
}.

Lemma pop_shrink sw held' s s' c id rest :
  inv sw [] s → queue s c = id :: rest → s' = on_queue c (λ _, rest) s →
  (id ∉ held' → get_state s id = Some Terminated) → held' ⊆ [id] →
  inv sw held' s' ∧ id ∉ all_queued s'.
Proof.
  intros Hinv Hq -> Hheld Hsub. pose proof (inv_shape _ _ _ Hinv) as Hsh.
  assert (c < MAX_CPUS)%nat as Hc.
  { destruct (decide (c < MAX_CPUS)%nat); [done|]. rewrite queue_beyond in Hq by (done || lia). done. }
  set (s' := on_queue c (λ _, rest) s).
  assert (all_queued s ≡ₚ id :: all_queued s') as Hp.
  { apply (all_queued_take c (λ _, rest) [id] s Hsh Hc). by rewrite Hq. }
  pose proof (inv_queue _ _ _ Hinv) as Hnd. rewrite Hp in Hnd. apply NoDup_cons in Hnd as [Hnin Hnd].
  split; [|done]. pose proof (inv_thread _ _ _ Hinv id) as [O1 O2 O3 O4 O5 O6 O7 O8 O9 O10].
  apply (inv_touch [id] sw sw [] held' s); try done; [by apply shape_on_queue|apply Hinv| |].
  - intros x Hx%not_elem_of_cons. split; [|by split_and!; intros ?%elem_of_nil||done]. split; try done.
    rewrite Hp, elem_of_cons. naive_solver.
  - intros x ->%list_elem_of_singleton. split; try done.
    + intros Hi. destruct (O2 Hi) as [Hx _]. destruct Hx. rewrite Hp. by left.
    + intros Hn _ E. change (get_state s id = Some Running) in E. by rewrite (Hheld Hn) in E.
    + intros Hn _ E. change (get_state s id = Some Ready) in E. by rewrite (Hheld Hn) in E.
    + intros c'. intros [Hx _]%O9. by apply elem_of_nil in Hx.
Qed.

Lemma pop_ready sw s c id rest :
  inv sw [] s → queue s c = id :: rest → terminated_owner s id = None →
  inv sw [id] (on_queue c (λ _, rest) s) ∧ in_hand (on_queue c (λ _, rest) s) id.
Proof.
  intros Hinv Hq Hto. destruct (pop_shrink sw [id] s _ c id rest Hinv Hq eq_refl) as [Hinv' Hnq]; [|done|].
  { intros []. by left. }
  split; [done|]. assert (id ∈ all_queued s) as Hin.
  { apply (elem_of_queue s c); [apply Hinv|]. rewrite Hq. by left. }
  pose proof (inv_thread _ _ _ Hinv id) as Hok.
  destruct (ok_queued _ _ _ _ Hok Hin) as (st & Hst & Hcs). unfold get_state in Hst.
  destruct (get_thread s id) as [t|] eqn:Ht; [|done]. injection Hst as <-.
  apply (terminated_owner_None _ _ t Ht) in Hto. destruct Hcs as [?|(Hr & ? & ?)]; [done|].
  split; try done.
  - change (get_state s id = Some Ready). unfold get_state. rewrite Ht. cbn. by f_equal.
  - intros Hi. by destruct (ok_idle_queue _ _ _ _ Hok Hi).
Qed.

Lemma pop_terminated sw s c id rest :
  inv sw [] s → queue s c = id :: rest → terminated_owner s id ≠ None →
  inv sw [] (on_queue c (λ _, rest) s).
Proof.
  intros Hinv Hq Hto. apply (pop_shrink sw [] s _ c id rest Hinv Hq eq_refl); [|by intros x ?%elem_of_nil].
  intros _. unfold terminated_owner in Hto. unfold get_state. destruct (get_thread s id) as [t|]; [|done].
  unfold is_terminated in Hto. cbn. case_bool_decide; [by f_equal|done].
Qed.

(** A token that is put back changes nothing. *)
Lemma veq_put_back s s2 c id rest :
  shape s → queue s c = id :: rest → veq (on_queue c (λ _, rest) s) s2 → veq s (push_back c id s2).
Proof.
  intros Hsh Hq V. assert (c < MAX_CPUS)%nat as Hc.
  { destruct (decide (c < MAX_CPUS)%nat); [done|]. rewrite queue_beyond in Hq by (done || lia). done. }
  assert (shape s2) as Hsh2 by (apply V; by apply shape_on_queue).
  split; try by apply V.
  - rewrite all_queued_push by (by rewrite (shape_queues _ Hsh2)). rewrite (veq_queues _ _ V). symmetry.
    apply (all_queued_take c (λ _, rest) [id] s Hsh Hc). by rewrite Hq.
  - intros _. by apply shape_on_queue.
Qed.

(** The result of picking: nothing found, or a thread in hand. *)
Definition picked (sw : option nat) (s : System) (r : option u64 * System) : Prop :=
  popping s r.2 ∧
  match r.1 with
  | None => inv sw [] r.2
  | Some id => inv sw [id] r.2 ∧ in_hand r.2 id
  end.

Lemma picked_trans sw s s1 r : popping s s1 → picked sw s1 r → picked sw s r.
Proof. intros P [? ?]. split; [by etrans|done]. Qed.

Lemma pop_candidates_picked sw n c s :
  inv sw [] s → picked sw s (pop_candidates n c s).
Proof.
  revert s. induction n as [|n IH]; intros s Hinv; [done|]. cbn [pop_candidates].
  destruct (queue s c) as [|id rest] eqn:Hq; [done|]. set (s1 := on_queue c (λ _, rest) s).
  change (terminated_owner s1 id) with (terminated_owner s id).
  assert (popping s s1) as P1 by done.
  destruct (terminated_owner s id) as [[pid|]|] eqn:Hto.
  - assert (inv sw [] s1) as Hinv1 by (eapply pop_terminated; [done..|by rewrite Hto]).
    pose proof (observe_popping pid s1) as P2. pose proof (veq_observe pid s1 s1 ltac:(reflexivity)) as V2.
    destruct (observe_exit_kick pid s1) as [observed s2]. cbn [snd] in *. destruct observed.
    + eapply picked_trans; [by etrans|]. apply IH. by eapply veq_inv.
    + eapply picked_trans; [|apply IH]; [etrans; [exact P1|]; etrans; [exact P2|done]|].
      apply (veq_inv _ _ s); [|done]. eapply veq_put_back; [apply Hinv|exact Hq|exact V2].
  - eapply picked_trans; [exact P1|]. apply IH. eapply pop_terminated; [done..|by rewrite Hto].
  - destruct (pop_ready sw s c id rest Hinv Hq Hto). by split.
Qed.

Lemma pop_queues_found id s l :
  foldl (λ '(found, s) c,
           match found with
           | Some id => (Some id, s)
           | None => pop_candidates (length (queue s c)) c s
           end) (Some id, s) l = (Some id, s).
Proof. by induction l. Qed.

Lemma pop_queues_cons c l s :
  pop_queues (c :: l) s =
  match pop_candidates (length (queue s c)) c s with
  | (Some id, s) => (Some id, s)
  | (None, s) => pop_queues l s
  end.
Proof.
  unfold pop_queues. cbn. destruct (pop_candidates _ _ _) as [[id|] s1]; [apply pop_queues_found|done].
Qed.

Lemma pop_queues_picked sw l s : inv sw [] s → picked sw s (pop_queues l s).
Proof.
  revert s. induction l as [|c l IH]; intros s Hinv; [done|]. rewrite pop_queues_cons.
  pose proof (pop_candidates_picked sw (length (queue s c)) c s Hinv) as HP.
  destruct (pop_candidates _ _ _) as [[id|] s1]; [done|]. destruct HP as [P ?].
  eapply picked_trans; [exact P|]. by apply IH.
Qed.

(** ** When nothing is found *)

Definition seen (s : System) (pid : u64) : Prop := (observe_exit_kick pid s).1 = true.

(** Every queued thread that is terminated has had its exit kick published. *)
Definition kicks_seen (s : System) : Prop :=
  ∀ id pid, id ∈ all_queued s → terminated_owner s id = Some (Some pid) → seen s pid.

Lemma observed_for_after pid slot :
  Z.shiftr (k_state slot) 2 ≠ 0 → Z.land (k_state slot) (Z.lor EXIT_KICK_LOCK EXIT_KICK_OBSERVED_BIT) = 0 →
  is_observed_for pid (mkKick (k_pid slot) (k_at slot) (Z.lor (k_state slot) EXIT_KICK_OBSERVED_BIT)) = (k_pid slot =? pid).
Proof.
  intros Hg Hb. unfold is_observed_for. cbn [k_state k_pid].
  assert (∀ b, Z.land (Z.lor EXIT_KICK_LOCK EXIT_KICK_OBSERVED_BIT) b = b → Z.land (k_state slot) b = 0) as Hbit.
  { intros b <-. by rewrite Z.land_assoc, Hb. }
  rewrite Z.shiftr_lor, !Z.land_lor_distr_l, (Hbit EXIT_KICK_LOCK), (Hbit EXIT_KICK_OBSERVED_BIT) by done.
  change (Z.shiftr EXIT_KICK_OBSERVED_BIT 2) with 0. rewrite Z.lor_0_r.
  by rewrite (proj2 (Z.eqb_neq _ _)).
Qed.

Lemma observe_seen p1 p2 s : seen s p2 → seen (observe_exit_kick p1 s).2 p2.
Proof.
  unfold seen, observe_exit_kick. cbn [is_aarch64 target_arch aarch64].
  set (slot1 := default _ (EXIT_KICK_SLOTS s !! kick_bucket p1)).
  destruct (observe p1 slot1) as [slot1'|] eqn:E1; [|done]. cbn [snd EXIT_KICK_SLOTS set_kicks].
  destruct (decide (kick_bucket p1 = kick_bucket p2)) as [E|E];
    [|rewrite list_lookup_insert_ne by done; by destruct (observe p2 _)].
  unfold observe in E1. destruct (Z.eqb_spec (Z.shiftr (k_state slot1) 2) 0) as [|Hg]; [done|].
  destruct (Z.eqb_spec (Z.land (k_state slot1) (Z.lor EXIT_KICK_LOCK EXIT_KICK_OBSERVED_BIT)) 0) as [Hb|]; [|done].
  destruct (Z.eqb_spec (k_pid slot1) p1) as [Hp|]; [|done]. cbn in E1. injection E1 as <-.
  assert (is_Some (EXIT_KICK_SLOTS s !! kick_bucket p1)) as Hin.
  { unfold slot1 in Hg. by destruct (EXIT_KICK_SLOTS s !! kick_bucket p1). }
  rewrite <- E. rewrite list_lookup_insert_eq by (by apply lookup_lt_is_Some_1). cbn [default from_option id].
  fold slot1. intros Hs. assert (k_pid slot1 = p2) as Hp2.
  { destruct (observe p2 slot1) eqn:E2; cbn in Hs.
    - unfold observe in E2. repeat case_match; try done. bool_simpl. by apply Z.eqb_eq.
    - unfold is_observed_for in Hs. repeat case_match; try done. by apply Z.eqb_eq. }
  set (slot2 := mkKick _ _ _). destruct (observe p2 slot2) eqn:E2; [done|]. unfold slot2. cbn [fst]. rewrite observed_for_after by done. by apply Z.eqb_eq.
Qed.

Lemma seen_ext s s' pid : EXIT_KICK_SLOTS s' = EXIT_KICK_SLOTS s → seen s pid → seen s' pid.
Proof.
  unfold seen, observe_exit_kick. cbn [is_aarch64 target_arch aarch64]. intros ->. by destruct (observe pid _).
Qed.

(** With every kick seen the loop empties the queues it finds nothing in. *)
Lemma pop_candidates_empty c n s s' :
  shape s → kicks_seen s → length (queue s c) = n → pop_candidates n c s = (None, s') →
  shape s' ∧ kicks_seen s' ∧ queue s' c = [] ∧ ∀ c', c' ≠ c → queue s' c' = queue s c'.
Proof.
  revert s. induction n as [|n IH]; intros s Hsh Hk Hn; cbn [pop_candidates].
  { intros [= <-]. by apply nil_length_inv in Hn. }
  destruct (queue s c) as [|id rest] eqn:Hq; [done|]. set (s1 := on_queue c (λ _, rest) s).
  assert (c < MAX_CPUS)%nat as Hc.
  { destruct (decide (c < MAX_CPUS)%nat); [done|]. rewrite queue_beyond in Hq by (done || lia). done. }
  assert (shape s1) as Hsh1 by by apply shape_on_queue.
  assert (∀ c', queue s1 c' = if decide (c' = c) then rest else queue s c') as Hq1.
  { intros c'. unfold s1. by rewrite queue_on_queue. }
  assert (all_queued s ≡ₚ id :: all_queued s1) as Hp.
  { apply (all_queued_take c (λ _, rest) [id] s Hsh Hc). by rewrite Hq. }
  assert (kicks_seen s1) as Hk1.
  { intros x pid Hx Ho. apply (seen_ext s); [done|]. apply (Hk x pid); [rewrite Hp; by right|done]. }
  assert (∀ s2, shape s2 → kicks_seen s2 → (∀ c', queue s2 c' = queue s1 c') →
            pop_candidates n c s2 = (None, s') →
            shape s' ∧ kicks_seen s' ∧ queue s' c = [] ∧ ∀ c', c' ≠ c → queue s' c' = queue s c') as Hgo.
  { intros s2 Hs2 Hk2 Hq2 Hrun. destruct (IH s2 Hs2 Hk2) as (? & ? & ? & Hrest); [|done|].
    - rewrite Hq2, Hq1, decide_True by done. cbn in Hn. lia.
    - split_and!; try done. intros c' Hne. by rewrite Hrest, Hq2, Hq1, decide_False. }
  change (terminated_owner s1 id) with (terminated_owner s id).
  destruct (terminated_owner s id) as [[pid|]|] eqn:Hto; [| |done]; [|by apply Hgo].
  assert (seen s1 pid) as Hseen. { apply (seen_ext s); [done|]. apply (Hk id pid); [rewrite Hp; by left|done]. }
  pose proof (veq_observe pid s1 s1 ltac:(reflexivity)) as V2. pose proof (observe_popping pid s1) as P2.
  pose proof (λ p, observe_seen pid p s1) as Hsn.
  assert (per_cpu_queues (scheduler (observe_exit_kick pid s1).2) = per_cpu_queues (scheduler s1)) as Hpq.
  { unfold observe_exit_kick. cbn. by repeat case_match. }
  unfold seen in Hseen. destruct (observe_exit_kick pid s1) as [observed s2]. cbn [fst snd] in *. subst observed.
  apply Hgo; [by apply V2| |by intros; unfold queue; rewrite Hpq].
  intros x p Hx. rewrite (popping_owner _ _ _ P2). intros Ho. apply Hsn, (Hk1 x p); [|done].
  by rewrite <- (veq_queues _ _ V2).
Qed.

Lemma pop_queues_empty l s s' :
  shape s → kicks_seen s → pop_queues l s = (None, s') →
  shape s' ∧ kicks_seen s' ∧ ∀ c, queue s' c = if decide (c ∈ l) then [] else queue s c.
Proof.
  revert s. induction l as [|c l IH]; intros s Hsh Hk; [by intros [= <-]|]. rewrite pop_queues_cons.
  destruct (pop_candidates _ _ _) as [[id|] s1] eqn:E; [done|]. intros Hrun.
  destruct (pop_candidates_empty c _ s s1 Hsh Hk eq_refl E) as (Hsh1 & Hk1 & Hq & Hrest).
  destruct (IH s1 Hsh1 Hk1 Hrun) as (? & ? & Hall). split_and!; try done. intros c'. rewrite Hall.
  destruct (decide (c' = c)) as [->|Hne].
  - rewrite (decide_True (P := c ∈ c :: l)) by left. by case_decide.
  - rewrite Hrest by done. repeat case_decide; try done; exfalso; rewrite ?elem_of_cons in *; naive_solver.
Qed.

Lemma steal_order_all c c' : (c' < MAX_CPUS)%nat → c' ∈ steal_order c.
Proof.
  intros Hc. unfold steal_order. destruct (decide (c' = c)) as [->|]; [left|right].
  apply list_elem_of_filter. split; [done|]. apply elem_of_seq. lia.
Qed.

Lemma any_queued_false s : shape s → (∀ c, (c < MAX_CPUS)%nat → queue s c = []) → any_queued s = false.
Proof.
  intros Hsh Hall. apply not_true_is_false. unfold any_queued. rewrite existsb_exists. intros (q & Hin & Hq).
  apply list_elem_of_In, list_elem_of_lookup_1 in Hin as [c Hc].
  assert (c < MAX_CPUS)%nat as Hlt by (rewrite <- (shape_queues _ Hsh); by eapply lookup_lt_Some).
  pose proof (Hall c Hlt) as E. rewrite (queue_lookup s c Hsh Hlt), E in Hc. by injection Hc as <-.
Qed.

(** * The scheduling decision *)

Lemma inv_window c s held : inv None held s → inv (Some c) held s.
Proof.
  intros Hinv. apply (inv_touch [] None (Some c) held held s); try done; try apply Hinv.
  by intros id ?%elem_of_nil.
Qed.

Lemma inv_close_window c held s :
  inv (Some c) held s → pending s c = None → (∀ id, previous s c = Some id → current s c ≠ Some id) →
  inv None held s.
Proof.
  intros Hinv Hpend Hprev. destruct Hinv as [? ? ? ? ? ? ? Hok]. split; try done.
  intros id. destruct (Hok id) as [O1 O2 O3 O4 O5 O6 O7 O8 O9 O10]. split; try done.
  - intros c' Hp. destruct (O6 c' Hp) as [?|[[= <-] ?]]; [by left|]. by destruct (Hprev id).
  - intros c' Hp. destruct (O9 c' Hp) as [_ [= <-]]. congruence.
Qed.

Lemma inv_pending c held s : inv None held s → pending s c = None.
Proof.
  intros Hinv. destruct (pending s c) as [id|] eqn:E; [|done].
  by destruct (ok_pending _ _ _ _ (inv_thread _ _ _ Hinv id) c E).
Qed.

Lemma kicks_seen_waking s s' : waking s s' → kicks_seen s → kicks_seen s'.
Proof.
  intros W Hk id pid Hq Ho. unfold terminated_owner, is_terminated in Ho.
  destruct (get_thread s' id) as [t|] eqn:Ht; [|done]. case_bool_decide as Hst; [|done]. injection Ho as Ho.
  destruct (wk_terminated _ _ W id t Ht Hst) as [Ht' Hq']. apply (seen_ext s); [apply W|].
  apply (Hk id pid); [by apply Hq'|]. unfold terminated_owner, is_terminated. rewrite Ht'.
  rewrite bool_decide_true by done. by f_equal.
Qed.

Lemma reclaim_queues_kicks e s :
  EXIT_KICK_SLOTS (reclaim_unschedulable_cpu_queues e s) = EXIT_KICK_SLOTS s.
Proof.
  unfold reclaim_unschedulable_cpu_queues. generalize (seq 0 MAX_CPUS) as l. intros l. revert s.
  induction l as [|c l IH]; intros s; [done|]. cbn. rewrite IH. unfold reclaim_cpu_queue. by repeat case_match.
Qed.

Lemma kicks_seen_veq s s' : veq s s' → EXIT_KICK_SLOTS s' = EXIT_KICK_SLOTS s → kicks_seen s → kicks_seen s'.
Proof.
  intros V E Hk id pid. rewrite (veq_queues _ _ V). unfold terminated_owner, get_thread. rewrite (veq_threads _ _ V).
  intros Hq Ho. apply (seen_ext s); [done|]. by apply (Hk id pid).
Qed.

(** The CPU's view that the decision does not change before its end. *)
Record same_cpu (c : nat) (s s' : System) : Prop := {
  sc_current : ∀ c', current s' c' = current s c';
  sc_idle : ∀ c', idle s' c' = idle s c';
  sc_pending : ∀ c', pending s' c' = pending s c';
  sc_deferred : DEFERRED_REQUEUE s' = DEFERRED_REQUEUE s;
  sc_previous : ∀ c' y, previous s' c' = Some y →
    previous s c' = Some y ∨ c' = c ∧ current s c = Some y ∧ y ≠ idle s c;
  sc_ids : t_id <$> threads (scheduler s') = t_id <$> threads (scheduler s);
  sc_killed : ∀ id, killed s id → killed s' id;
}.

#[global] Instance same_cpu_preorder c : PreOrder (same_cpu c).
Proof.
  split; [by intros s; split; auto|]. intros s1 s2 s3 [A1 A2 A3 A4 A5 A6 A7] [B1 B2 B3 B4 B5 B6 B7].
  split; [intros; etrans; eauto..| |congruence|by auto]. intros c' y [Hp|Hy]%B5; [by apply A5|right]. by rewrite <- A1, <- A2.
Qed.

Lemma veq_same_cpu c s s' : veq s s' → same_cpu c s s'.
Proof.
  intros V. split; try apply V; [|by rewrite (veq_threads _ _ V)|].
  - intros c' y. rewrite (veq_previous _ _ V). auto.
  - intros id. unfold killed, get_state, get_thread. by rewrite (veq_threads _ _ V).
Qed.

Lemma waking_same_cpu c s s' : waking s s' → same_cpu c s s'.
Proof.
  intros W. split; [..|apply W| |apply W|apply W]; intros c'; unfold current, idle, pending, previous; rewrite (waking_cpu s s' c' W); auto.
Qed.

Lemma popping_same_cpu c s s' : popping s s' → same_cpu c s s'.
Proof.
  intros P. split; [..|apply P| |by rewrite (pp_threads _ _ P)|intros id; unfold killed, get_state; by rewrite (popping_get _ _ _ P)]; intros c'; unfold current, idle, pending, previous, cpu; rewrite (pp_cpus _ _ P); auto.
Qed.

Section decision2.
Context (e : Env) (He : (e_cpu e < MAX_CPUS)%nat).
#[local] Abbreviation c := (e_cpu e).

Lemma prepare_spec s :
  inv None [] s →
  inv None [] (prepare_decision e s) ∧ same_cpu c s (prepare_decision e s) ∧ (kicks_seen s → kicks_seen (prepare_decision e s)).
Proof using He.
  intros Hinv. unfold prepare_decision. pose proof (inv_shape _ _ _ Hinv) as Hsh.
  set (s1 := on_cpu c _ s). assert (veq s s1) as V1 by (apply veq_on_cpu; [done|by intros []|reflexivity]).
  set (s2 := reclaim_unschedulable_cpu_queues e s1).
  assert (veq s s2) as V2 by (etrans; [exact V1|]; apply veq_reclaim_queues; [done|by apply V1]).
  assert (resolve_pending_next_locked e c s2 = s2) as ->.
  { unfold resolve_pending_next_locked. by rewrite (veq_pending _ _ V2), (inv_pending c _ _ Hinv). }
  set (s4 := set_cpu_idle _ _ _). assert (veq s s4) as V4 by (unfold s4, set_cpu_idle; auto with sched).
  assert (inv None [] s4) as Hinv4 by by eapply veq_inv.
  destruct (drain_isr_wakes e He None s4 Hinv4) as [Hinv5 W]. split; [done|]. split.
  - etrans; [by apply veq_same_cpu|by apply waking_same_cpu].
  - intros Hk. eapply kicks_seen_waking; [exact W|]. eapply kicks_seen_veq; [exact V4| |done].
    change (EXIT_KICK_SLOTS s4) with (EXIT_KICK_SLOTS s2). unfold s2. by rewrite reclaim_queues_kicks.
Qed.

(** The running thread, still runnable, is marked Ready and switching out. *)
Lemma defer_ready_inv f x t s :
  inv None [] s → current s c = Some x → x ≠ idle s c → get_thread s x = Some t →
  t_state t = Running ∨ t_state t = Ready → keeps_id f → t_state (f t) = Ready →
  inv (Some c) [] (get_thread_mut x f (on_cpu c (cpu_set_previous (Some x)) s)).
Proof using He.
  intros Hinv Hc Hne Ht Hst Hf Hready. pose proof (inv_shape _ _ _ Hinv) as Hsh.
  pose proof (current_not_idle _ _ _ _ _ Hinv Hc Hne) as Hnidle.
  set (s1 := on_cpu c _ s). set (s' := get_thread_mut x f s1).
  assert (∀ c', cpu s' c' = if decide (c' = c) then cpu_set_previous (Some x) (cpu s c) else cpu s c') as Hcpu.
  { intros c'. change (cpu s' c') with (cpu s1 c'). unfold s1. apply cpu_on_cpu. by rewrite (shape_cpus _ Hsh). }
  assert (∀ c', current s' c' = current s c') as Hcur by (intros c'; unfold current; rewrite Hcpu; case_decide; by subst).
  assert (∀ c', idle s' c' = idle s c') as Hidl by (intros c'; unfold idle; rewrite Hcpu; case_decide; by subst).
  assert (∀ c', pending s' c' = pending s c') as Hpend by (intros c'; unfold pending; rewrite Hcpu; case_decide; by subst).
  assert (∀ c', previous s' c' = if decide (c' = c) then Some x else previous s c') as Hprev.
  { intros c'. unfold previous. rewrite Hcpu. by case_decide. }
  assert (∀ y, get_thread s' y = if decide (y = x) then Some (f t) else get_thread s y) as Hg.
  { intros y. unfold s'. rewrite get_thread_update by done. case_decide; [|done].
    change (get_thread s1 x) with (get_thread s x). by rewrite Ht. }
  assert (x ∉ all_queued s) as Hnq.
  { eapply (not_queued e); [done..|]. intros E. rewrite E in Hst. by destruct Hst. }
  destruct (inv_thread _ _ _ Hinv x) as [O1 O2 O3 O4 O5 O6 O7 O8 O9 O10].
  apply (inv_touch [x] None (Some c) [] [] s); try done.
  - split; [apply Hsh| |apply Hsh]. cbn. rewrite length_alter. apply Hsh.
  - by apply update_ids_nodup, Hinv.
  - apply Hinv.
  - intros c'. by rewrite Hcur.
  - intros y Hy%not_elem_of_cons. split; [|done]. split; try done.
    + rewrite Hg, decide_False by naive_solver. done.
    + intros c'. by rewrite Hcur.
    + intros c'. rewrite Hprev. case_decide; [|done]. intros [= <-]. naive_solver.
    + intros c'. by rewrite Hpend.
  - intros y ->%list_elem_of_singleton.
    assert (¬ idle_tid s' x) as Hn' by (unfold idle_tid; by setoid_rewrite Hidl).
    assert (running_on s' x) as Hr by (exists c; by rewrite Hcur).
    split; try done.
    + intros c1 c2. rewrite Hcur, Hcur, Hidl. apply O3.
    + intros c1 c2. rewrite !Hcur. apply O4.
    + intros c'. rewrite Hprev, Hcur. case_decide; [subst; by right|]. intros [[? Hx]|[? _]]%O6; [|done].
      destruct Hx. by exists c.
    + intros _ _ _. by left.
    + intros c'. rewrite Hpend. intros [Hx _]%O9. by apply elem_of_nil in Hx.
    + intros ? _. rewrite Hidl. apply O10; [done|left; by rewrite Ht].
Qed.

Lemma defer_current_spec s x :
  inv None [] s → current s c = Some x →
  let s' := (defer_current e s).2 in
  inv (Some c) [] s' ∧ same_cpu c s s' ∧
  (x = idle s c → s' = s) ∧
  (x ≠ idle s c → get_state s' x ≠ Some Running).
Proof using He.
  intros Hinv Hc. unfold defer_current. rewrite Hc. cbn zeta.
  destruct (Z.eqb_spec x (idle s c)) as [E|Hne].
  { split; [by apply inv_window|]. done. }
  destruct (get_thread s x) as [t|] eqn:Ht.
  2:{ split; [by apply inv_window|]. split; [reflexivity|]. split; [done|]. intros _. unfold get_state. cbn. by rewrite Ht. }
  unfold is_terminated. case_bool_decide as Hst; [|destruct (is_blocked (t_state t)) eqn:Hb].
  - assert (veq s (match t_owner_pid t with Some pid => (observe_exit_kick pid s).2 | None => s end)) as V.
    { destruct (t_owner_pid t); auto with sched. }
    cbn [snd]. split; [by eapply inv_window, veq_inv|]. split; [by apply veq_same_cpu|]. split; [done|].
    intros _. unfold get_state, get_thread. rewrite (veq_threads _ _ V). unfold get_thread in Ht. rewrite Ht. cbn. congruence.
  - cbn [snd]. split; [by apply inv_window|]. split; [reflexivity|]. split; [done|]. intros _. unfold get_state. rewrite Ht.
    cbn. intros [= E]. by rewrite E in Hb.
  - assert (t_state t = Running ∨ t_state t = Ready) as Hrun by (destruct (t_state t); auto || done).
    assert (in_any_queue s x = false) as ->.
    { apply not_true_is_false. rewrite in_any_queue_spec. by eapply (not_queued e). }
    cbn [negb snd]. set (f := λ t, _).
    assert (keeps_id f) as Hf by (intros u; unfold f; by rewrite set_ready_keeps).
    assert (t_state (f t) = Ready) as Hready.
    { unfold f, set_ready. cbn. by rewrite bool_decide_false. }
    split; [by eapply defer_ready_inv|]. split; [|split; [done|]].
    + pose proof (shape_cpus _ (inv_shape _ _ _ Hinv)) as Hl.
      split; try done; [..|by apply update_thread_ids
        |intros y Hy; apply (killed_update x f (on_cpu c (cpu_set_previous (Some x)) s) y Hf); [|exact Hy];
         change (get_thread (on_cpu c (cpu_set_previous (Some x)) s) x) with (get_thread s x); rewrite Ht; by intros ? [= <-]];
        intros c'; unfold current, idle, pending, previous;
        change (cpu (get_thread_mut x f (on_cpu c (cpu_set_previous (Some x)) s)) c')
          with (cpu (on_cpu c (cpu_set_previous (Some x)) s) c');
        rewrite cpu_on_cpu by (by rewrite Hl); case_decide; subst; try done; [|by auto].
      intros y [= <-]. by right.
    + intros _. unfold get_state. rewrite get_thread_update, decide_True by done.
      change (get_thread (on_cpu c (cpu_set_previous (Some x)) s) x) with (get_thread s x). rewrite Ht. cbn. congruence.
Qed.

(** The chosen thread is marked Running and published as pending. *)
Lemma choose_inv f n s held :
  inv (Some c) held s → held ⊆ [n] → pending s c = None →
  (n = idle s c ∧ is_Some (current s c)) ∨ in_hand s n →
  keeps_id f → (∀ t, t_state (f t) = Running) → (∀ t, t_owner_pid (f t) = t_owner_pid t) →
  inv (Some c) [n] (on_cpu c (cpu_set_pending (Some n)) (get_thread_mut n f s)).
Proof using He.
  intros Hinv Hheld Hpn Hn Hf Hrun Hown. pose proof (inv_shape _ _ _ Hinv) as Hsh.
  set (s1 := get_thread_mut n f s). set (s' := on_cpu c _ s1).
  assert (∀ c', cpu s' c' = if decide (c' = c) then cpu_set_pending (Some n) (cpu s c) else cpu s c') as Hcpu.
  { intros c'. unfold s'. rewrite cpu_on_cpu; [done|]. cbn. by rewrite (shape_cpus _ Hsh). }
  assert (∀ c', current s' c' = current s c') as Hcur by (intros c'; unfold current; rewrite Hcpu; case_decide; by subst).
  assert (∀ c', idle s' c' = idle s c') as Hidl by (intros c'; unfold idle; rewrite Hcpu; case_decide; by subst).
  assert (∀ c', previous s' c' = previous s c') as Hprev by (intros c'; unfold previous; rewrite Hcpu; case_decide; by subst).
  assert (∀ c', pending s' c' = if decide (c' = c) then Some n else pending s c') as Hpend.
  { intros c'. unfold pending. rewrite Hcpu. by case_decide. }
  assert (∀ y, get_thread s' y = if decide (y = n) then f <$> get_thread s n else get_thread s y) as Hg.
  { intros y. change (get_thread s' y) with (get_thread s1 y). unfold s1. by apply get_thread_update. }
  destruct (inv_thread _ _ _ Hinv n) as [O1 O2 O3 O4 O5 O6 O7 O8 O9 O10].
  apply (inv_touch [n] (Some c) (Some c) held [n] s); try done.
  - split; [apply Hsh| |apply Hsh]. cbn. rewrite length_alter. apply Hsh.
  - by apply update_ids_nodup, Hinv.
  - apply Hinv.
  - intros c'. by rewrite Hcur.
  - intros y Hy%not_elem_of_cons. split; [|split; [by apply Hheld|done]]. split; try done.
    + rewrite Hg, decide_False by naive_solver. done.
    + intros c'. by rewrite Hcur.
    + intros c'. by rewrite Hprev.
    + intros c'. rewrite Hpend. case_decide; [|done]. intros [= <-]. naive_solver.
  - intros y ->%list_elem_of_singleton.
    assert (idle_tid s' n ↔ idle_tid s n) as Hi by (unfold idle_tid; by setoid_rewrite Hidl).
    assert (running_on s' n ↔ running_on s n) as Hr by (unfold running_on; by setoid_rewrite Hcur).
    assert (switching_out s' n ↔ switching_out s n) as Hs by (unfold switching_out; by setoid_rewrite Hprev).
    split.
    + intros Hx%Hi u. rewrite Hg, decide_True by done. destruct (get_thread s n) as [t|] eqn:Ht; [|done].
      intros [= <-]. rewrite Hrun, Hown. split; [done|]. by apply (O1 Hx t).
    + intros [??]%Hi%O2. split; [done|]. by intros ?%Hs.
    + intros c1 c2. rewrite Hcur, Hcur, Hidl. apply O3.
    + intros c1 c2. rewrite !Hcur. apply O4.
    + intros Hq. exfalso. destruct Hn as [[-> _]|Hh]; [|by destruct Hh].
      destruct O2 as [? _]; [|done]. by exists c.
    + intros c'. rewrite Hprev, Hcur. intros [[? Hx]|?]%O6; [left|by right]. split; [done|]. by intros ?%Hr.
    + intros Hx. destruct Hx. by left.
    + intros Hx. destruct Hx. by left.
    + intros c'. rewrite Hpend. case_decide; [subst; split; [by left|done]|].
      intros [? [= <-]]%O9. done.
    + intros ? Hx. rewrite Hidl. apply O10; [done|]. rewrite Hg, decide_True in Hx by done.
      destruct Hx as [Hx|?%Hr]; [left|by right]. by destruct (get_thread s n).
Qed.

(** The outcome of a decision to switch from [old] to [new]. *)
Record decided (s s' : System) (old new : u64) : Prop := {
  dc_inv : inv (Some c) [new] s';
  dc_old : current s' c = Some old;
  dc_new : old ≠ new;
  dc_pending : pending s' c = Some new;
  dc_choice : new = idle s' c ∨
    (¬ running_on s' new ∧ ¬ switching_out s' new ∧ new ∉ all_queued s' ∧ ¬ idle_tid s' new
     ∧ is_Some (get_thread s' new));
  dc_old_state : old ≠ idle s' c → get_state s' old ≠ Some Running;
  dc_new_state : new ≠ idle s' c → get_state s' new = Some Running;
  dc_deferred : DEFERRED_REQUEUE s' = DEFERRED_REQUEUE s;
  dc_idle : ∀ c', idle s' c' = idle s c';
  dc_current : ∀ c', current s' c' = current s c';
  dc_ids : t_id <$> threads (scheduler s') = t_id <$> threads (scheduler s);
  dc_killed : ∀ y, killed s y → killed s' y ∧ y ≠ new;
  dc_previous : ∀ y, previous s' c = Some y → previous s c = Some y ∨ y = old ∧ y ≠ idle s c;
}.

Lemma pick_next_spec s :
  inv (Some c) [] s → is_Some (current s c) →
  let r := pick_next e s in
  popping s r.2 ∧
  (r.1 = idle s c ∧ inv (Some c) [] r.2 ∧ (kicks_seen s → any_queued r.2 = false)
   ∨ inv (Some c) [r.1] r.2 ∧ in_hand r.2 r.1).
Proof using He.
  intros Hinv Hcur. unfold pick_next. pose proof (pop_queues_picked (Some c) (steal_order c) s Hinv) as [P HP].
  pose proof (pop_queues_empty (steal_order c) s) as Hempty. cbn zeta.
  destruct (pop_queues (steal_order c) s) as [[id|] s1]; cbn [fst snd default from_option] in *; split; try done.
  - by right.
  - left. split; [by apply (popping_same_cpu c)|]. split; [done|]. intros Hk.
    destruct (Hempty s1 (inv_shape _ _ _ Hinv) Hk eq_refl) as (Hsh & _ & Hq).
    apply any_queued_false; [done|]. intros c' Hc'. rewrite Hq. by rewrite decide_True by by apply steal_order_all.
Qed.

Lemma choose_decided f s s4 x n b :
  same_cpu c s s4 → current s4 c = Some x → x ≠ n → pending s4 c = None →
  (n = idle s4 c ∧ inv (Some c) [] s4) ∨ (inv (Some c) [n] s4 ∧ in_hand s4 n) →
  (x ≠ idle s4 c → get_state s4 x ≠ Some Running) →
  keeps_id f → (∀ t, t_state (f t) = Running) → (∀ t, t_owner_pid (f t) = t_owner_pid t) →
  decided s (set_cpu_idle c b (on_cpu c (cpu_set_pending (Some n)) (get_thread_mut n f s4))) x n.
Proof using He.
  intros S4 Hcur Hne Hpn Hpick Hst Hf Hrun Hown.
  set (s5 := get_thread_mut n f s4). set (s6 := on_cpu c _ s5). set (s7 := set_cpu_idle c b s6).
  assert (inv (Some c) [n] s6) as Hinv6.
  { destruct Hpick as [[-> Hi]|[Hi Hh]].
    - apply (choose_inv f _ s4 []); try done; [by intros y ?%elem_of_nil|]. left. by rewrite Hcur.
    - apply (choose_inv f n s4 [n]); try done. by right. }
  assert (veq s6 s7) as V by (unfold s7, set_cpu_idle; auto with sched).
  assert (∀ c', cpu s7 c' = if decide (c' = c) then cpu_set_pending (Some n) (cpu s4 c) else cpu s4 c') as Hcpu.
  { intros c'. change (cpu s7 c') with (cpu s6 c'). unfold s6. rewrite cpu_on_cpu; [done|].
    pose proof (shape_cpus _ (inv_shape _ _ _ Hinv6)) as Hl. unfold s6 in Hl. cbn in Hl. rewrite length_alter in Hl.
    cbn. rewrite Hl. exact He. }
  assert (∀ c', current s7 c' = current s4 c') as Hcur7 by (intros c'; unfold current; rewrite Hcpu; case_decide; by subst).
  assert (∀ c', idle s7 c' = idle s4 c') as Hidl7 by (intros c'; unfold idle; rewrite Hcpu; case_decide; by subst).
  assert (∀ c', previous s7 c' = previous s4 c') as Hprev7.
  { intros c'; unfold previous; rewrite Hcpu; case_decide; by subst. }
  split.
  - by eapply veq_inv.
  - by rewrite Hcur7.
  - done.
  - unfold pending. by rewrite Hcpu, decide_True.
  - destruct Hpick as [[-> _]|[_ [Hr ? ? ? ?]]]; [left; by rewrite Hidl7|right]. unfold running_on, switching_out, idle_tid.
    setoid_rewrite Hcur7. setoid_rewrite Hprev7. setoid_rewrite Hidl7. split_and!; try done.
    change (get_thread s7 n) with (get_thread s5 n). unfold s5. rewrite get_thread_update, decide_True by done.
    unfold get_state in Hr. by destruct (get_thread s4 n).
  - rewrite Hidl7. intros Hx. unfold get_state. change (get_thread s7 x) with (get_thread s5 x). unfold s5.
    rewrite get_thread_update, decide_False by done. by apply Hst.
  - rewrite Hidl7. intros Hx. destruct Hpick as [[? _]|[_ [Hr _ _ _ _]]]; [done|]. unfold get_state in *.
    change (get_thread s7 n) with (get_thread s5 n). unfold s5. rewrite get_thread_update, decide_True by done.
    destruct (get_thread s4 n); [|done]. cbn. f_equal. apply Hrun.
  - change (DEFERRED_REQUEUE s7) with (DEFERRED_REQUEUE s4). apply S4.
  - intros c'. rewrite Hidl7. apply S4.
  - intros c'. rewrite Hcur7. apply S4.
  - rewrite <- (sc_ids _ _ _ S4). by apply update_thread_ids.
  - intros y Hy%(sc_killed _ _ _ S4). assert (y ≠ n) as Hyn.
    { intros ->. unfold killed, get_state in Hy. destruct Hpick as [[-> Hi]|[_ [Hr _ _ _ _]]].
      - destruct (get_thread s4 (idle s4 c)) as [t|] eqn:Ht; [|done].
        destruct (ok_idle_state _ _ _ _ (inv_thread _ _ _ Hi (idle s4 c))) with t as [E _]; [by exists c|done|].
        cbn in Hy. congruence.
      - unfold get_state in Hr. congruence. }
    split; [|done]. unfold killed, get_state in *. change (get_thread s7 y) with (get_thread s5 y). unfold s5.
    by rewrite get_thread_update, decide_False.
  - intros y. rewrite Hprev7. intros [?|(_ & Hy & ?)]%(sc_previous _ _ _ S4); [by left|right].
    rewrite <- (sc_current _ _ _ S4), Hcur in Hy. split; [congruence|done].
Qed.

Lemma schedule_decides s x :
  inv None [] s → current s c = Some x → (x = idle s c → kicks_seen s) →
  match schedule_deferred_requeue e s with
  | (None, s') => inv None [] s' ∧ same_cpu c s s' ∧ x = idle s c
  | (Some (old, new, _), s') => old = x ∧ decided s s' old new
  end.
Proof using He.
  intros Hinv Hcur Hkicks. destruct (prepare_spec s Hinv) as (Hinv1 & S1 & K1).
  unfold schedule_deferred_requeue. generalize dependent (prepare_decision e s). intros s1 Hinv1 S1 K1.
  assert (current s1 c = Some x) as Hcur1 by (by rewrite (sc_current _ _ _ S1)).
  destruct (defer_current_spec s1 x Hinv1 Hcur1) as (Hinv2 & S2 & Hidle2 & Hst2).
  destruct (defer_current e s1) as [rq s2]. cbn [snd] in *.
  destruct (wake_expired_wakes e He (Some c) s2 Hinv2) as [Hinv3 W3]. generalize dependent (wake_expired_timers e s2). intros s3 Hinv3 W3.
  assert (same_cpu c s s3) as S3 by (etrans; [exact S1|]; etrans; [exact S2|by apply waking_same_cpu]).
  assert (is_Some (current s3 c)) as Hb by (rewrite (sc_current _ _ _ S3); by rewrite Hcur).
  destruct (pick_next_spec s3 Hinv3 Hb) as [P4 Hpick]. destruct (pick_next e s3) as [n s4]. cbn [fst snd] in *.
  assert (same_cpu c s s4) as S4 by (etrans; [exact S3|by apply popping_same_cpu]).
  assert (current s4 c = Some x) as Hcur4 by (by rewrite (sc_current _ _ _ S4)).
  assert (idle s4 c = idle s c) as Hidl4 by apply S4.
  assert (pending s4 c = None) as Hpn by (rewrite (sc_pending _ _ _ S4); by eapply inv_pending).
  assert (x ≠ idle s c → get_state s4 x ≠ Some Running) as Hst4.
  { intros Hne. assert (get_state s4 x = get_state s3 x) as -> by (unfold get_state; by rewrite (popping_get _ _ _ P4)).
    intros E%(wk_running _ _ W3). apply Hst2; [|done]. by rewrite (sc_idle _ _ _ S1). }
  unfold deferred_same. rewrite Hcur4. unfold opt_is. case_bool_decide as Hx; cbn [negb].
  - injection Hx as <-. destruct Hpick as [(En & Hinv4 & Hq)|[_ Hh]]; [|by destruct Hh as [_ []]; exists c].
    rewrite (sc_idle _ _ _ S3) in En. rewrite Hq.
    2:{ eapply kicks_seen_waking; [exact W3|]. rewrite Hidle2 by (by rewrite (sc_idle _ _ _ S1)). auto. }
    rewrite Hidl4, <- En, Z.eqb_refl. cbn [negb]. split; [|by split].
    apply (inv_close_window c); try done. intros id Hp E.
    assert (id = x) as -> by congruence.
    destruct (ok_idle_queue _ _ _ _ (inv_thread _ _ _ Hinv4 x)) as [_ Hns]; [|by destruct Hns; exists c].
    exists c. split; [done|]. congruence.
  - unfold publish_choice. rewrite Hcur4. cbn [default from_option id]. split; [done|].
    apply choose_decided; [done..|congruence|done| |by rewrite Hidl4|intros t; done|done|done].
    destruct Hpick as [(En & Hinv4 & _)|?]; [left|by right]. split; [|done].
    by rewrite En, Hidl4, <- (sc_idle _ _ _ S3).
Qed.
End decision2.

(** * Context switches *)

Lemma slot_set_deferred c x s c' :
  shape s → (c < MAX_CPUS)%nat →
  slot (set_deferred (<[c:=x]> (DEFERRED_REQUEUE s)) s) c' = if decide (c' = c) then x else slot s c'.
Proof.
  intros Hsh Hc. unfold slot. cbn. case_decide as E.
  - subst. rewrite list_lookup_insert_eq; [done|]. by rewrite (shape_deferred _ Hsh).
  - by rewrite list_lookup_insert_ne.
Qed.

(** A thread that exists and is no idle thread has a non-zero id. *)
Lemma id_not_zero sw held s id :
  inv sw held s → is_Some (get_thread s id) ∨ running_on s id → ¬ idle_tid s id → id ≠ 0.
Proof.
  intros Hinv Hex Hn ->. apply Hn. exists 0%nat. split; [cbn; lia|].
  by apply (ok_zero _ _ _ _ (inv_thread _ _ _ Hinv 0)).
Qed.

(** ** Queueing a thread whose context is saved *)

Lemma clear_previous_inv sw held c s :
  inv sw held s → sw ≠ Some c → (c < MAX_CPUS)%nat → inv sw held (on_cpu c (cpu_set_previous None) s).
Proof.
  intros Hinv Hsw Hc. pose proof (inv_shape _ _ _ Hinv) as Hsh. set (s' := on_cpu c _ s).
  assert (∀ c', cpu s' c' = if decide (c' = c) then cpu_set_previous None (cpu s c) else cpu s c') as Hcpu.
  { intros c'. unfold s'. apply cpu_on_cpu. by rewrite (shape_cpus _ Hsh). }
  assert (∀ c', current s' c' = current s c') as Hcur by (intros c'; unfold current; rewrite Hcpu; case_decide; by subst).
  apply (inv_touch [] sw sw held held s); try done; try apply Hinv.
  - split; [apply Hsh| |apply Hsh]. cbn. rewrite length_alter. apply Hsh.
  - intros c'. unfold idle. rewrite Hcpu. case_decide; by subst.
  - intros c'. by rewrite Hcur.
  - intros id _. split; [|done]. split; try done.
    + intros c'. by rewrite Hcur.
    + intros c'. unfold previous. rewrite Hcpu. by case_decide.
    + intros c'. unfold pending. rewrite Hcpu. case_decide; subst; done.
  - by intros id ?%elem_of_nil.
Qed.

(** [requeue_thread_after_save] leaves the thread somewhere, whatever it was:
    a thread in hand is released. *)
Lemma release_ok held s id :
  inv None held s → held ⊆ [id] →
  (¬ idle_tid s id → get_state s id = Some Running → running_on s id) →
  (¬ idle_tid s id → get_state s id = Some Ready →
   running_on s id ∨ id ∈ all_queued s ∨ deferred_on s id) →
  inv None [] s.
Proof.
  intros Hinv Hsub Hr Hy. apply (inv_touch [id] None None held [] s); try done; try apply Hinv.
  - intros x Hx. split; [by apply veq_agree|]. split; [|done]. intros Hh%Hsub. done.
  - intros x ->%list_elem_of_singleton. destruct (inv_thread _ _ _ Hinv id) as [O1 O2 O3 O4 O5 O6 O7 O8 O9 O10].
    split; try done; [by auto..|]. intros c' [_ ?]%O9. done.
Qed.

Lemma push_ready_inv held f c id t s :
  inv None held s → held ⊆ [id] → (c < MAX_CPUS)%nat →
  get_thread s id = Some t → t_state t ≠ Terminated → keeps_id f → t_state (f t) = Ready →
  ¬ idle_tid s id → ¬ running_on s id → ¬ switching_out s id → id ∉ all_queued s →
  inv None [] (push_back c id (get_thread_mut id f s)).
Proof.
  intros Hinv Hsub Hc Ht Hnt Hf Hst Hni Hnr Hns Hnq. pose proof (inv_shape _ _ _ Hinv) as Hsh.
  set (s1 := get_thread_mut id f s). assert (shape s1) as Hsh1 by by destruct Hsh.
  pose proof (all_queued_push c id s1) as Hp. rewrite (shape_queues _ Hsh1) in Hp. specialize (Hp Hc).
  assert (∀ y, get_thread s1 y = if decide (y = id) then Some (f t) else get_thread s y) as Hg.
  { intros y. unfold s1. rewrite get_thread_update by done. by rewrite Ht. }
  apply (inv_touch [id] None None held [] s); try done.
  - by apply shape_on_queue.
  - by apply update_ids_nodup, Hinv.
  - rewrite Hp. constructor; [done|apply Hinv].
  - intros x Hx%not_elem_of_cons. split; [|split; [|done]].
    + split; try done.
      * change (get_thread (push_back c id s1) x) with (get_thread s1 x). by rewrite Hg, decide_False by naive_solver.
      * rewrite Hp, elem_of_cons. naive_solver.
    + intros Hh%Hsub%list_elem_of_singleton. naive_solver.
  - intros x ->%list_elem_of_singleton. destruct (inv_thread _ _ _ Hinv id) as [O1 O2 O3 O4 O5 O6 O7 O8 O9 O10].
    assert (get_state (push_back c id s1) id = Some Ready) as Hst'.
    { change (get_state s1 id = Some Ready). unfold get_state. rewrite Hg, decide_True by done. cbn. by f_equal. }
    split; try done.
    + intros _. exists Ready. auto.
    + rewrite Hst'. by intros _ _ [=].
    + intros _ _ _. right; left. rewrite Hp. by left.
    + intros c' [_ ?]%O9. done.
    + intros ? _. apply O10; [done|left; by rewrite Ht].
Qed.

(** A thread in hand that is not marked Running. *)
Definition settled (s : System) (id : u64) : Prop :=
  ¬ idle_tid s id → get_state s id = Some Running → running_on s id.

Lemma requeue_saved_inv e held id s :
  inv None held s → held ⊆ [id] → (e_cpu e < MAX_CPUS)%nat → settled s id →
  ¬ idle_tid s id → ¬ running_on s id → ¬ switching_out s id →
  inv None [] (requeue_saved e id s).
Proof.
  intros Hinv Hsub He Hset Hni Hnr Hns. unfold requeue_saved.
  destruct (get_state s id) as [st|] eqn:Hst; [|by apply (release_ok held s id); rewrite ?Hst].
  assert (st ≠ Running) as Hnrun by (intros ->; by apply Hnr, Hset).
  destruct st; try done; try by (apply (release_ok held s id); rewrite ?Hst).
  rewrite bool_decide_false by done. cbn [andb].
  destruct (in_any_queue s id) eqn:Hq.
  { apply in_any_queue_spec in Hq. apply (release_ok held s id); try done. auto. }
  unfold get_state in Hst. destruct (get_thread s id) as [t|] eqn:Ht; [|done]. injection Hst as Hst.
  eapply veq_inv; [apply veq_send_resched_ipi; reflexivity|].
  rewrite <- (get_thread_mut_same id s). apply (push_ready_inv held (λ t, t) _ id t); try done; [congruence|].
  rewrite <- in_any_queue_spec. congruence.
Qed.

Lemma requeue_inv e held id s :
  inv None held s → held ⊆ [id] → (e_cpu e < MAX_CPUS)%nat → settled s id →
  inv None [] (requeue_thread_after_save e id s).
Proof.
  intros Hinv Hsub He Hset. unfold requeue_thread_after_save.
  destruct (is_idle_thread_inner s id) eqn:Hi.
  { apply is_idle_spec in Hi. by apply (release_ok held s id). }
  assert (¬ idle_tid s id) as Hni by (rewrite <- is_idle_spec; congruence).
  set (s1 := if opt_is _ _ then _ else s).
  assert (inv None held s1) as Hinv1 by (unfold s1; case_match; [by apply clear_previous_inv|done]).
  assert (∀ c, cpu s1 c = cpu s c ∨ cpu s1 c = cpu_set_previous None (cpu s c)) as Hcpu.
  { intros c'. unfold s1. case_match; [|by left].
    rewrite cpu_on_cpu by (by rewrite (shape_cpus _ (inv_shape _ _ _ Hinv))). case_decide; subst; auto. }
  assert (¬ idle_tid s1 id) as Hni1.
  { intros (c' & Hc' & E). apply Hni. exists c'. split; [done|]. unfold idle in *. by destruct (Hcpu c') as [<-|E']; rewrite ?E' in E. }
  assert (get_state s1 id = get_state s id) as Hst1 by (unfold s1; by case_match).
  assert (settled s1 id) as Hset1.
  { intros _ Hst. destruct Hset as [c Hc]; [done|congruence|]. exists c.
    unfold current in *. by destruct (Hcpu c) as [->| ->]. }
  clearbody s1. clear Hinv Hni Hi Hset Hcpu Hst1 s. rename s1 into s, Hinv1 into Hinv, Hni1 into Hni, Hset1 into Hset.
  pose proof (inv_shape _ _ _ Hinv) as Hsh. pose proof (inv_thread _ _ _ Hinv id) as Hok.
  destruct (is_current_on_any_cpu s id) eqn:Hc.
  { apply (is_current_spec s Hsh) in Hc. apply (release_ok held s id); auto. }
  destruct (is_in_deferred_requeue s id) eqn:Hd.
  - apply (is_deferred_spec s Hsh) in Hd as [c Hd].
    destruct (ok_previous _ _ _ _ Hok c Hd) as [[Hs Hr]|[? _]]; [|done].
    apply (release_ok held s id); try done. intros _ Hst. right; right.
    exists c. split; [done|]. eapply id_not_zero; [done| |done]. left.
    unfold get_state in Hst. by destruct (get_thread s id).
  - apply (requeue_saved_inv e held); try done.
    + rewrite <- (is_current_spec s Hsh). congruence.
    + rewrite <- (is_deferred_spec s Hsh). congruence.
Qed.

(** ** Taking a thread out of the deferred slot *)

Lemma swap_out_inv c s :
  inv None [] s → (c < MAX_CPUS)%nat →
  inv None [slot s c] (on_cpu c (cpu_set_previous None) (swap_deferred c 0 s).2).
Proof.
  intros Hinv Hc. pose proof (inv_shape _ _ _ Hinv) as Hsh. cbn [snd swap_deferred].
  set (s1 := set_deferred _ s). set (s' := on_cpu c _ s1).
  assert (∀ c', cpu s' c' = if decide (c' = c) then cpu_set_previous None (cpu s c) else cpu s c') as Hcpu.
  { intros c'. unfold s'. rewrite cpu_on_cpu; [done|]. cbn. by rewrite (shape_cpus _ Hsh). }
  assert (∀ c', slot s' c' = if decide (c' = c) then 0 else slot s c') as Hslot.
  { intros c'. change (slot s' c') with (slot s1 c'). by apply slot_set_deferred. }
  assert (∀ c', current s' c' = current s c') as Hcur by (intros c'; unfold current; rewrite Hcpu; case_decide; by subst).
  assert (∀ c', idle s' c' = idle s c') as Hidl by (intros c'; unfold idle; rewrite Hcpu; case_decide; by subst).
  assert (∀ c', previous s' c' = if decide (c' = c) then None else previous s c') as Hprev.
  { intros c'. unfold previous. rewrite Hcpu. by case_decide. }
  assert (∀ c', pending s' c' = pending s c') as Hpend by (intros c'; unfold pending; rewrite Hcpu; case_decide; by subst).
  apply (inv_touch [slot s c] None None [] [slot s c] s); try done; try apply Hinv.
  - split; [apply Hsh|cbn; rewrite length_alter; apply Hsh|cbn; rewrite length_insert; apply Hsh].
  - intros c'. by rewrite Hcur.
  - intros x Hx%not_elem_of_cons. split; [|split; [by intros ?%elem_of_nil|done]]. split; try done.
    + intros c'. by rewrite Hcur.
    + intros c'. rewrite Hprev. by case_decide.
    + intros c'. by rewrite Hpend.
    + intros c' E. rewrite Hslot. case_decide; [subst; naive_solver|done].
  - intros x ->%list_elem_of_singleton. set (x := slot s c).
    destruct (inv_thread _ _ _ Hinv x) as [O1 O2 O3 O4 O5 O6 O7 O8 O9 O10].
    assert (idle_tid s' x ↔ idle_tid s x) as Hi by (unfold idle_tid; by setoid_rewrite Hidl).
    assert (running_on s' x ↔ running_on s x) as Hr by (unfold running_on; by setoid_rewrite Hcur).
    assert (switching_out s' x → switching_out s x) as Hs.
    { intros [c' E]. rewrite Hprev in E. case_decide; [done|]. by exists c'. }
    split; try done.
    + intros ?%Hi. by apply O1.
    + intros [??]%Hi%O2. split; [done|]. by intros ?%Hs.
    + intros c1 c2. rewrite Hcur, Hcur, Hidl. apply O3.
    + intros c1 c2. rewrite !Hcur. apply O4.
    + intros (st & ? & Hcs)%O5. exists st. split; [done|]. destruct Hcs as [?|(? & Hn1 & Hn2)]; [by left|right].
      split; [done|]. split; [by intros ?%Hr|by intros ?%Hs].
    + intros c'. rewrite Hprev, Hslot. case_decide; [done|]. intros [[? Hn]|[? _]]%O6; [left|done].
      split; [done|]. by intros ?%Hr.
    + intros Hx. destruct Hx. by left.
    + intros Hx. destruct Hx. by left.
    + intros c'. rewrite Hpend. intros [Hx _]%O9. by apply elem_of_nil in Hx.
    + intros ? [?|?%Hr]; rewrite Hidl; apply O10; auto.
Qed.

(** What queueing, draining and repairs leave alone: who runs where, the slots,
    the exit kicks; no terminated thread is added to a queue. *)
Record steady (s s' : System) : Prop := {
  st_current : ∀ c, current s' c = current s c;
  st_idle : ∀ c, idle s' c = idle s c;
  st_deferred : DEFERRED_REQUEUE s' = DEFERRED_REQUEUE s;
  st_kicks : EXIT_KICK_SLOTS s' = EXIT_KICK_SLOTS s;
  st_terminated : ∀ id o, id ∈ all_queued s' → terminated_owner s' id = Some o →
    id ∈ all_queued s ∧ terminated_owner s id = Some o;
  st_ids : t_id <$> threads (scheduler s') = t_id <$> threads (scheduler s);
  st_killed : ∀ id, killed s id → killed s' id;
}.

#[global] Instance steady_preorder : PreOrder steady.
Proof.
  split; [by intros s; split|]. intros s1 s2 s3 [A1 A2 A3 A4 A5 A6 A7] [B1 B2 B3 B4 B5 B6 B7].
  split; [intros; etrans; eauto..| |congruence|by auto]. intros id o Hq Ho. destruct (B5 id o Hq Ho). auto.
Qed.

Lemma steady_kicks s s' : steady s s' → kicks_seen s → kicks_seen s'.
Proof.
  intros S Hk id pid Hq Ho. destruct (st_terminated _ _ S id _ Hq Ho). apply (seen_ext s); [apply S|]. eauto.
Qed.

Lemma steady_on_cpu c f s :
  shape s → (c < MAX_CPUS)%nat →
  (∀ st, current_thread (f st) = current_thread st ∧ idle_thread (f st) = idle_thread st) → steady s (on_cpu c f s).
Proof.
  intros Hsh Hc Hf. assert (∀ c', cpu (on_cpu c f s) c' = if decide (c' = c) then f (cpu s c) else cpu s c') as Hcpu.
  { intros c'. apply cpu_on_cpu. by rewrite (shape_cpus _ Hsh). }
  split; try done; intros c'; unfold current, idle; rewrite Hcpu; case_decide; subst; try done; apply Hf.
Qed.

Lemma steady_sgi s s' c : steady s s' → steady s (send_sgi c s').
Proof. intros S. etrans; [exact S|]. by split. Qed.
Lemma steady_flags s s' g x : steady s s' → steady s (set_flags g x s').
Proof. intros S. etrans; [exact S|]. by split. Qed.
Lemma steady_idle_flags s s' x : steady s s' → steady s (set_idle_flags x s').
Proof. intros S. etrans; [exact S|]. by split. Qed.
Lemma steady_epochs s s' x : steady s s' → steady s (set_epochs x s').
Proof. intros S. etrans; [exact S|]. by split. Qed.

Lemma steady_send_resched_ipi e s s' : steady s s' → steady s (send_resched_ipi e s').
Proof.
  unfold send_resched_ipi. revert s'. induction (seq 0 (e_cpus_online e)) as [|c l IH]; intros s' W; [done|]. cbn.
  apply IH. unfold wake_if_idle. repeat case_match; auto using steady_sgi.
Qed.

Lemma steady_push_ready c id s : terminated_owner s id = None → steady s (push_back c id s).
Proof.
  intros Hn. split; try done. intros x o Hq Ho. change (terminated_owner s x = Some o) in Ho.
  apply elem_of_push in Hq as [->|?]; [congruence|done].
Qed.

Lemma steady_set_ready id s : steady s (get_thread_mut id set_ready s).
Proof.
  split; try done; [|by apply update_thread_ids; intros t; apply set_ready_keeps|].
  2:{ intros x. apply killed_update; [apply set_ready_keeps|]. intros t _ E. unfold set_ready. by rewrite E, bool_decide_true. }
  intros x o Hq Ho. split; [done|]. unfold terminated_owner in *.
  rewrite get_thread_update in Ho by apply set_ready_keeps. case_decide; [subst|done].
  destruct (get_thread s id) as [t|]; [|done]. cbn in Ho. unfold set_ready in Ho.
  case_bool_decide as E; [done|]. by cbn in Ho.
Qed.

Lemma steady_requeue e id s :
  shape s → (e_cpu e < MAX_CPUS)%nat → steady s (requeue_thread_after_save e id s).
Proof.
  intros Hsh He. unfold requeue_thread_after_save. case_match; [done|].
  set (s1 := if opt_is _ _ then _ else s).
  assert (steady s s1) as S1 by (unfold s1; case_match; [by apply steady_on_cpu; [..|by intros []]|done]).
  etrans; [exact S1|]. clearbody s1. clear S1 Hsh. case_match; [done|]. case_match; [done|]. unfold requeue_saved.
  destruct (get_state s1 id) as [st|] eqn:Hst; [|done].
  assert (st = Running ∨ st = Ready → terminated_owner s1 id = None) as Hto.
  { intros Hor. unfold terminated_owner, get_state, is_terminated in *. destruct (get_thread s1 id) as [t|]; [|done].
    injection Hst as <-. by rewrite bool_decide_false by (intros E; rewrite E in Hor; by destruct Hor). }
  assert (terminated_owner (get_thread_mut id set_ready s1) id = None ∨ st ≠ Running) as Hto'.
  { destruct (decide (st = Running)) as [->|]; [left|by right]. unfold terminated_owner.
    rewrite get_thread_update, decide_True by (apply set_ready_keeps || done).
    unfold get_state in Hst. destruct (get_thread s1 id) as [t|]; [|done]. injection Hst as Hst. cbn.
    unfold set_ready. by rewrite Hst, bool_decide_false. }
  destruct st; try done.
  - rewrite bool_decide_true by done. case_match; [done|]. case_match; [done|]. apply steady_send_resched_ipi.
    etrans; [apply steady_set_ready|]. apply steady_push_ready. by destruct Hto'.
  - rewrite bool_decide_false by done. case_match; [done|]. case_match; [done|]. apply steady_send_resched_ipi.
    apply steady_push_ready. auto.
Qed.

(** ** Draining *)

Lemma settled_inv s id : inv None [] s → settled s id.
Proof. intros Hinv Hn. apply (ok_running _ _ _ _ (inv_thread _ _ _ Hinv id)); [apply not_elem_of_nil|done]. Qed.

(** With nothing taken out of the slot, draining a thread is harmless. *)
Lemma drain_again_inv e id s :
  inv None [] s → (e_cpu e < MAX_CPUS)%nat →
  inv None [] (drain_deferred e id s) ∧ steady s (drain_deferred e id s).
Proof.
  intros Hinv He. unfold drain_deferred. set (s1 := on_cpu _ _ s).
  assert (inv None [] s1) as Hinv1 by by apply clear_previous_inv.
  assert (steady s s1) as S1 by (apply steady_on_cpu; [apply Hinv|done|by intros []]).
  case_match; [done|]. split.
  - apply (requeue_inv e []); try done; [by intros ? ?%elem_of_nil|by apply settled_inv].
  - etrans; [exact S1|]. apply steady_requeue; [apply Hinv1|done].
Qed.

(** The slot of a CPU is emptied and its thread queued. *)
Lemma drain_slot_inv e s :
  inv None [] s → (e_cpu e < MAX_CPUS)%nat →
  let s1 := (swap_deferred (e_cpu e) 0 s).2 in
  let s' := drain_deferred e (slot s (e_cpu e)) s1 in
  inv None [] s' ∧ steady s1 s' ∧ slot s' (e_cpu e) = 0.
Proof.
  intros Hinv He. cbn zeta. set (c := e_cpu e). set (s1 := (swap_deferred c 0 s).2). set (x := slot s c).
  pose proof (swap_out_inv c s Hinv He) as Hinv2. fold s1 x in Hinv2.
  pose proof (inv_shape _ _ _ Hinv) as Hsh.
  assert (shape s1) as Hsh1 by (split; [apply Hsh|apply Hsh|cbn; rewrite length_insert; apply Hsh]).
  assert (slot s1 c = 0) as Hs1 by (unfold s1; cbn [snd swap_deferred]; rewrite slot_set_deferred, decide_True by done; done).
  unfold drain_deferred. fold c. set (s2 := on_cpu c (cpu_set_previous None) s1) in *.
  assert (steady s1 s2) as S2 by (apply steady_on_cpu; [done..|by intros []]).
  assert (∀ c', current s2 c' = current s c') as Hcur by apply S2.
  assert (∀ c', idle s2 c' = idle s c') as Hidl by apply S2.
  assert (settled s2 x) as Hset.
  { intros Hn Hst. destruct (settled_inv s x Hinv) as [c' Hc']; [|done|by exists c'; rewrite Hcur].
    intros (c' & ? & ?). apply Hn. exists c'. by rewrite Hidl. }
  destruct (Z.eqb_spec x 0) as [Hx|Hx].
  - split; [|done]. apply (release_ok [x] s2 x); try done. intros Hn Hst. exfalso. apply Hn.
    exists 0%nat. split; [cbn; lia|]. rewrite Hx. apply (ok_zero _ _ _ _ (inv_thread _ _ _ Hinv2 0)); [done|left].
    rewrite Hx in Hst. unfold get_state in Hst. by destruct (get_thread s2 0).
  - split; [by apply (requeue_inv e [x])|].
    assert (steady s2 (requeue_thread_after_save e x s2)) as S3 by (apply steady_requeue; [apply Hinv2|done]).
    split; [by etrans|]. unfold slot. by rewrite (st_deferred _ _ S3).
Qed.

(** ** Committing a decision *)

(** The state after the switch: the new thread is current, the old one is
    perhaps marked as switching out and left in the slot. *)
Record committed (c : nat) (s s' : System) (old new : u64) (deferred : bool) : Prop := {
  cm_shape : shape s';
  cm_threads : threads (scheduler s') = threads (scheduler s);
  cm_queues : all_queued s' = all_queued s;
  cm_current : ∀ c', current s' c' = if decide (c' = c) then Some new else current s c';
  cm_idle : ∀ c', idle s' c' = idle s c';
  cm_pending : ∀ c', pending s' c' = if decide (c' = c) then None else pending s c';
  cm_previous : ∀ c' id, previous s' c' = Some id →
    c' ≠ c ∧ previous s c' = Some id ∨ c' = c ∧ deferred = true ∧ id = old ∧ ¬ idle_tid s old;
  cm_slot : ∀ c', slot s' c' = if decide (c' = c ∧ deferred = true) then old else slot s c';
}.

Section committed.
Context (e : Env) (He : (e_cpu e < MAX_CPUS)%nat) (s0 s s' : System) (old new : u64) (deferred : bool).
#[local] Abbreviation c := (e_cpu e).
Context (D : decided e s0 s old new) (C : committed c s s' old new deferred).
Context (Hslot : deferred = true → slot s c = 0).

Lemma committed_get id : get_thread s' id = get_thread s id.
Proof using C. unfold get_thread. by rewrite (cm_threads _ _ _ _ _ _ C). Qed.

Lemma committed_state id : get_state s' id = get_state s id.
Proof using C. unfold get_state. by rewrite committed_get. Qed.

Lemma committed_idle_tid id : idle_tid s' id ↔ idle_tid s id.
Proof using C. unfold idle_tid. by setoid_rewrite (cm_idle _ _ _ _ _ _ C). Qed.

Lemma committed_switching id : id ≠ old → switching_out s' id → switching_out s id.
Proof using C. intros Hne [c' Hp]. destruct (cm_previous _ _ _ _ _ _ C c' id Hp) as [[? ?]|(? & ? & ? & ?)]; [by exists c'|done]. Qed.

(** The new thread runs here and nowhere else. *)
Lemma new_elsewhere c' : current s c' = Some new → c' = c ∧ False.
Proof using D He.
  intros Hc. exfalso. pose proof (dc_inv _ _ _ _ _ D) as Hinv. destruct (dc_choice _ _ _ _ _ D) as [Hi|[Hn _]].
  - assert (c' = c) as ->.
    { apply (ok_idle_current _ _ _ _ (inv_thread _ _ _ Hinv new) c' c Hc); [by rewrite (dc_old _ _ _ _ _ D)|done]. }
    rewrite (dc_old _ _ _ _ _ D) in Hc. injection Hc as Hc. by destruct (dc_new _ _ _ _ _ D).
  - apply Hn. by exists c'.
Qed.

Lemma committed_new : thread_ok None [] s' new.
Proof using D C He.
  pose proof (dc_inv _ _ _ _ _ D) as Hinv. pose proof (dc_new _ _ _ _ _ D) as Hne.
  destruct (inv_thread _ _ _ Hinv new) as [O1 O2 O3 O4 O5 O6 O7 O8 O9 O10].
  assert (new ∉ all_queued s ∧ ¬ switching_out s new) as [Hnq Hns].
  { destruct (dc_choice _ _ _ _ _ D) as [Hi|(_ & ? & ? & _)]; [apply O2|done]. by exists c. }
  assert (∀ c', current s' c' = Some new → c' = c) as Hcur.
  { intros c'. rewrite (cm_current _ _ _ _ _ _ C). case_decide; [done|]. by intros [_ []]%new_elsewhere. }
  assert (running_on s' new) as Hr by (exists c; by rewrite (cm_current _ _ _ _ _ _ C), decide_True).
  assert (¬ switching_out s' new) as Hns'.
  { intros Hx. apply Hns. apply committed_switching; [congruence|done]. }
  split; try done.
  - intros Hx%committed_idle_tid u. rewrite committed_get. by apply O1.
  - by rewrite (cm_queues _ _ _ _ _ _ C).
  - intros c1 c2 ->%Hcur Hb E. rewrite (cm_idle _ _ _ _ _ _ C) in E.
    rewrite (cm_current _ _ _ _ _ _ C) in Hb. case_decide; [done|].
    destruct (dc_choice _ _ _ _ _ D) as [Hi|(_ & _ & _ & Hni)].
    + apply (inv_idle _ _ _ Hinv); [by rewrite (dc_old _ _ _ _ _ D)|done|congruence].
    + exfalso. apply Hni. exists c2. split; [|done]. destruct Hb as [y Hb]. by apply (current_lt _ (inv_shape _ _ _ Hinv) _ _ Hb).
  - by intros c1 c2 ->%Hcur ->%Hcur.
  - rewrite (cm_queues _ _ _ _ _ _ C). by intros ?.
  - intros c' Hp. by destruct Hns'; exists c'.
  - intros _ _ _. by left.
  - intros c'. rewrite (cm_pending _ _ _ _ _ _ C). case_decide; [done|]. intros [_ [= ?]]%O9. congruence.
  - intros E Hx. rewrite (cm_idle _ _ _ _ _ _ C). destruct (dc_choice _ _ _ _ _ D) as [Hi|(_ & _ & _ & _ & ?)].
    + assert (c = 0%nat) as <-; [|congruence].
      apply (inv_boot1 _ _ _ Hinv); [by rewrite (dc_old _ _ _ _ _ D)|congruence].
    + apply O10; [done|by left].
Qed.

(** The old thread, once it is in the slot, is all right; otherwise it is in
    hand. *)
Lemma committed_old held :
  (deferred = false → old ∈ held) → thread_ok None held s' old.
Proof using D C He Hslot.
  intros Hheld. pose proof (dc_inv _ _ _ _ _ D) as Hinv. pose proof (dc_new _ _ _ _ _ D) as Hne.
  pose proof (dc_old _ _ _ _ _ D) as Hold. pose proof (inv_shape _ _ _ Hinv) as Hsh.
  destruct (inv_thread _ _ _ Hinv old) as [O1 O2 O3 O4 O5 O6 O7 O8 O9 O10].
  assert (¬ running_on s' old) as Hnr.
  { intros [c' Hc]. rewrite (cm_current _ _ _ _ _ _ C) in Hc. case_decide as E; [congruence|]. by apply E, O4. }
  assert (¬ idle_tid s old → old ≠ 0) as Hnz by (intros Hn; eapply id_not_zero; [done|right; by exists c|done]).
  assert (¬ idle_tid s old → old ≠ idle s c) as Hni.
  { intros Hn ->. apply Hn. by exists c. }
  assert (old ∈ all_queued s → get_state s old = Some Terminated) as Hq.
  { intros (st & Hst & Hcs)%O5. destruct Hcs as [->|(_ & [] & _)]; [done|by exists c]. }
  split; try done.
  - intros Hx%committed_idle_tid u. rewrite committed_get. by apply O1.
  - intros Hx%committed_idle_tid. destruct (O2 Hx). rewrite (cm_queues _ _ _ _ _ _ C). split; [done|].
    intros [c' Hp]. destruct (cm_previous _ _ _ _ _ _ C c' old Hp) as [[_ Hp']|(_ & _ & _ & ?)]; [|done].
    destruct H0. by exists c'.
  - intros c1 c2 Hc. by destruct Hnr; exists c1.
  - intros c1 c2 Hc. by destruct Hnr; exists c1.
  - rewrite (cm_queues _ _ _ _ _ _ C), committed_state. intros ?%Hq. exists Terminated. auto.
  - intros c' Hp. left. split; [|done].
    destruct (cm_previous _ _ _ _ _ _ C c' old Hp) as [[Hc' Hp']|(-> & Hd & _ & _)].
    + destruct (O6 c' Hp') as [[_ []]|[[= <-] _]]; [by exists c|done].
    + by rewrite (cm_slot _ _ _ _ _ _ C), decide_True.
  - intros Hh Hn%(not_iff_compat (committed_idle_tid old)). rewrite committed_state. intros Hst.
    destruct (dc_old_state _ _ _ _ _ D); [by apply Hni|done].
  - intros Hh Hn%(not_iff_compat (committed_idle_tid old)) _. destruct deferred eqn:Hd; [|by destruct Hh; apply Hheld].
    right; right. exists c. rewrite (cm_slot _ _ _ _ _ _ C), decide_True by done. auto.
  - intros c'. rewrite (cm_pending _ _ _ _ _ _ C). case_decide; [done|]. intros [_ [= ?]]%O9. congruence.
  - intros E Hx. rewrite (cm_idle _ _ _ _ _ _ C). apply O10; [done|right; by exists c].
Qed.

Lemma committed_inv held : (deferred = false → old ∈ held) → held ⊆ [old] → inv None held s'.
Proof using D C He Hslot.
  intros Hheld Hsub. pose proof (dc_inv _ _ _ _ _ D) as Hinv.
  assert (∀ c', is_Some (current s' c') ↔ is_Some (current s c')) as Hboot.
  { intros c'. rewrite (cm_current _ _ _ _ _ _ C). case_decide; [subst|done]. by rewrite (dc_old _ _ _ _ _ D). }
  apply (inv_touch [old; new] (Some c) None [new] held s); try done.
  - apply C.
  - rewrite (cm_threads _ _ _ _ _ _ C). apply Hinv.
  - rewrite (cm_queues _ _ _ _ _ _ C). apply Hinv.
  - apply C.
  - intros x Hx. assert (x ≠ old ∧ x ≠ new) as [Ho Hn] by set_solver. split; [|split; [set_solver|]].
    + split.
      * apply committed_get.
      * by rewrite (cm_queues _ _ _ _ _ _ C).
      * intros c'. rewrite (cm_current _ _ _ _ _ _ C). case_decide; [subst|done]. rewrite (dc_old _ _ _ _ _ D). naive_solver.
      * intros c' Hp. by destruct (cm_previous _ _ _ _ _ _ C c' x Hp) as [[_ ?]|(_ & _ & ? & _)].
      * intros c'. rewrite (cm_pending _ _ _ _ _ _ C). by case_decide.
      * intros c' Hx0 E. rewrite (cm_slot _ _ _ _ _ _ C). case_decide as Hd; [|done]. destruct Hd as [-> Hd].
        rewrite (Hslot Hd) in E. subst x. destruct Hx0 as [?|Hp]; [done|].
        destruct (cm_previous _ _ _ _ _ _ C c 0 Hp) as [[? _]|(_ & _ & ? & _)]; [done|congruence].
    + split; [intros c' _ Hc [= <-]; rewrite (dc_old _ _ _ _ _ D) in Hc; naive_solver|intros c' Hp [= <-]].
      rewrite (dc_pending _ _ _ _ _ D) in Hp. naive_solver.
  - intros x [->| ->%list_elem_of_singleton]%elem_of_cons; [by apply committed_old|].
    eapply (thread_ok_agree None None [] held s' s'); [by apply veq_agree|done|done|by intros ?%elem_of_nil|done|done|].
    apply committed_new.
Qed.
End committed.

(** ** Returning to the idle loop *)

Lemma idle_return_inv f c x s :
  inv None [] s → current s c = Some x → ¬ idle_tid s x →
  keeps_id f → (∀ t, get_thread s x = Some t → t_state t = Terminated → t_state (f t) = Terminated) →
  inv None [x] (setup_idle_return_locked c (get_thread_mut x f s)).
Proof.
  intros Hinv Hc Hni Hf Hst. pose proof (inv_shape _ _ _ Hinv) as Hsh.
  pose proof (current_lt s Hsh c x Hc) as Hlt. unfold setup_idle_return_locked.
  set (s1 := get_thread_mut x f s). set (s' := on_cpu c _ s1).
  assert (∀ c', cpu s' c' = if decide (c' = c) then cpu_set_current (Some (idle s c)) (cpu s c) else cpu s c') as Hcpu.
  { intros c'. unfold s'. rewrite cpu_on_cpu; [done|]. cbn. by rewrite (shape_cpus _ Hsh). }
  assert (∀ c', current s' c' = if decide (c' = c) then Some (idle s c) else current s c') as Hcur.
  { intros c'. unfold current. rewrite Hcpu. by case_decide. }
  assert (∀ c', idle s' c' = idle s c') as Hidl by (intros c'; unfold idle; rewrite Hcpu; case_decide; by subst).
  assert (∀ c', previous s' c' = previous s c') as Hprev by (intros c'; unfold previous; rewrite Hcpu; case_decide; by subst).
  assert (∀ c', pending s' c' = pending s c') as Hpend by (intros c'; unfold pending; rewrite Hcpu; case_decide; by subst).
  assert (∀ y, get_thread s' y = if decide (y = x) then f <$> get_thread s x else get_thread s y) as Hg.
  { intros y. change (get_thread s' y) with (get_thread s1 y). unfold s1. by rewrite get_thread_update. }
  assert (∀ y, idle_tid s' y ↔ idle_tid s y) as Hi by (intros y; unfold idle_tid; by setoid_rewrite Hidl).
  assert (∀ y, switching_out s' y ↔ switching_out s y) as Hs by (intros y; unfold switching_out; by setoid_rewrite Hprev).
  assert (idle s c ≠ x) as Hix by (intros E; apply Hni; by exists c).
  assert (is_Some (current s c)) as Hb by by rewrite Hc.
  apply (inv_touch [x; idle s c] None None [] [x] s); try done.
  - split; [apply Hsh|cbn; rewrite length_alter; apply Hsh|apply Hsh].
  - by apply update_ids_nodup, Hinv.
  - apply Hinv.
  - intros c'. rewrite Hcur. case_decide; [subst|done]. by rewrite Hc.
  - intros y Hy. assert (y ≠ x ∧ y ≠ idle s c) as [Hyx Hyi] by set_solver.
    split; [|split; [by intros ?%elem_of_nil|done]]. split; try done.
    + by rewrite Hg, decide_False.
    + intros c'. rewrite Hcur. case_decide; [subst; rewrite Hc; naive_solver|done].
    + intros c'. by rewrite Hprev.
    + intros c'. by rewrite Hpend.
  - intros y Hy. destruct (inv_thread _ _ _ Hinv y) as [O1 O2 O3 O4 O5 O6 O7 O8 O9 O10].
    apply elem_of_cons in Hy as [->| ->%list_elem_of_singleton].
    + assert (¬ running_on s' x) as Hnr.
      { intros [c' E]. rewrite Hcur in E. case_decide as Hd; [congruence|]. by apply Hd, (O4 c' c). }
      split; try by (intros [c' E]; auto).
      * by intros ?%Hi.
      * by intros ?%Hi.
      * intros c1 c2 E. by destruct Hnr; exists c1.
      * intros c1 c2 E. by destruct Hnr; exists c1.
      * intros Hq. destruct (O5 Hq) as (st & Hst' & [->|(_ & [] & _)]); [|by exists c].
        exists Terminated. split; [|by left]. unfold get_state in *. rewrite Hg, decide_True by done.
        destruct (get_thread s x) as [t|]; [|done]. cbn in *. f_equal. apply Hst; congruence.
      * intros c'. rewrite Hprev. intros [[? []]|[? _]]%O6; [by exists c|done].
      * intros Hh. destruct Hh. by left.
      * intros Hh. destruct Hh. by left.
      * intros c'. rewrite Hpend. intros [Hx _]%O9. by apply elem_of_nil in Hx.
      * intros ? _. rewrite Hidl. apply O10; [done|right; by exists c].
    + assert (∀ c', current s' c' = Some (idle s c) → c' = c) as Hone.
      { intros c'. rewrite Hcur. case_decide; [done|]. intros E. by apply (O3 c' c). }
      assert (idle_tid s (idle s c)) as Hid by by exists c.
      split; try done.
      * intros _ u. rewrite Hg, decide_False by done. by apply O1.
      * intros _. rewrite Hs. by apply O2.
      * intros c1 c2 ->%Hone Hb2. rewrite Hidl. intros E.
        apply (inv_idle _ _ _ Hinv); [done| |done]. rewrite Hcur in Hb2. by case_decide; subst.
      * by intros c1 c2 ->%Hone ->%Hone.
      * intros Hq. by destruct (O2 Hid).
      * intros c'. rewrite Hprev. intros E. destruct (O2 Hid) as [_ []]. by exists c'.
      * intros _ Hx. destruct Hx. by apply Hi.
      * intros _ Hx. destruct Hx. by apply Hi.
      * intros c'. rewrite Hpend. intros [Hx _]%O9. by apply elem_of_nil in Hx.
      * intros E _. rewrite Hidl. assert (c = 0%nat) as <- by (by apply (inv_boot1 _ _ _ Hinv)). done.
Qed.

(** A CPU whose thread no longer wants to run goes back to its idle loop. *)
Lemma to_idle_inv c x s :
  inv None [] s → current s c = Some x →
  (x ≠ idle s c → get_state s x ≠ Some Running ∧ get_state s x ≠ Some Ready) →
  inv None [] (setup_idle_return_locked c s).
Proof.
  intros Hinv Hc Hst. destruct (decide (x = idle s c)) as [->|Hne].
  { apply (veq_inv None [] s); [|done]. unfold setup_idle_return_locked. pose proof (inv_shape _ _ _ Hinv) as Hsh.
    pose proof (current_lt s Hsh _ _ Hc) as Hlt.
    assert (∀ c', cpu (on_cpu c (cpu_set_current (Some (idle s c))) s) c' = cpu s c') as Hcpu.
    { intros c'. rewrite cpu_on_cpu by (by rewrite (shape_cpus _ Hsh)). case_decide; [subst|done].
      unfold current, idle in *. destruct (cpu s c) as [? ? ? ? ?]. cbn in *. by subst. }
    split; try done; try (intros c'; unfold current, idle, previous, pending; by rewrite Hcpu).
    intros _. split; [apply Hsh|cbn; rewrite length_alter; apply Hsh|apply Hsh]. }
  pose proof (current_not_idle _ _ _ _ _ Hinv Hc Hne) as Hni. destruct (Hst Hne) as [Hr Hy].
  pose proof (idle_return_inv (λ t, t) c x s Hinv Hc Hni ltac:(done) ltac:(done)) as H.
  rewrite get_thread_mut_same in H. by eapply (release_ok [x] _ x).
Qed.

Lemma idle_tid_to_idle c s id : shape s → idle_tid (setup_idle_return_locked c s) id ↔ idle_tid s id.
Proof.
  intros Hsh. unfold idle_tid. split; intros (c' & Hc' & E); exists c'; (split; [done|]); revert E;
    unfold setup_idle_return_locked, idle; destruct (decide (c < MAX_CPUS)%nat) as [Hc|Hc].
  all: try (rewrite cpu_on_cpu by (by rewrite (shape_cpus _ Hsh)); case_decide; by subst).
  all: unfold cpu, on_cpu; cbn; destruct (decide (c' = c)) as [->|]; try lia; by rewrite list_lookup_alter_ne.
Qed.

(** A change the invariant does not look at. *)
Lemma update_same_inv sw held id f s :
  keeps_id f → (∀ t, t_state (f t) = t_state t ∧ t_owner_pid (f t) = t_owner_pid t) →
  inv sw held s → inv sw held (get_thread_mut id f s).
Proof.
  intros Hf Hsame Hinv. pose proof (inv_shape _ _ _ Hinv) as Hsh. set (s' := get_thread_mut id f s).
  assert (∀ x, get_thread s' x = if decide (x = id) then f <$> get_thread s id else get_thread s x) as Hg.
  { intros x. by apply get_thread_update. }
  apply (inv_touch [id] sw sw held held s); try done; [by destruct Hsh|by apply update_ids_nodup, Hinv|apply Hinv|..].
  - intros x Hx%not_elem_of_cons. split; [|done]. split; try done. rewrite Hg, decide_False by naive_solver. done.
  - intros x ->%list_elem_of_singleton. destruct (inv_thread _ _ _ Hinv id) as [O1 O2 O3 O4 O5 O6 O7 O8 O9 O10].
    assert (get_state s' id = get_state s id) as Hst.
    { unfold get_state. rewrite Hg, decide_True by done. destruct (get_thread s id) as [t|]; [|done]. cbn. f_equal. apply Hsame. }
    split; rewrite ?Hst; try done.
    + intros Hi u. rewrite Hg, decide_True by done. destruct (get_thread s id) as [t|] eqn:Ht; [|done].
      intros [= <-]. destruct (Hsame t) as [-> ->]. by apply O1.
    + intros E Hx. apply O10; [done|]. destruct Hx as [Hx|?]; [left|by right].
      rewrite Hg, decide_True in Hx by done. by destruct (get_thread s id).
Qed.

(** Terminated threads stay terminated and are not entered again. *)
Record spares (s s' : System) : Prop := {
  sp_killed : ∀ id, killed s id → killed s' id;
  sp_current : ∀ id c, killed s id → current s' c = Some id → current s c = Some id;
}.

#[global] Instance spares_preorder : PreOrder spares.
Proof. split; [by intros s; split|]. intros s1 s2 s3 [A1 A2] [B1 B2]. split; eauto. Qed.

Lemma steady_spares s s' : steady s s' → spares s s'.
Proof. intros S. split; [apply S|]. intros id c _. by rewrite (st_current _ _ S). Qed.

Lemma same_cpu_spares c s s' : same_cpu c s s' → spares s s'.
Proof. intros S. split; [apply S|]. intros id c' _. by rewrite (sc_current _ _ _ S). Qed.

Lemma committed_spares e s0 s s' old new b :
  decided e s0 s old new → committed (e_cpu e) s s' old new b → spares s0 s'.
Proof.
  intros D C. split.
  - intros id [Hk _]%(dc_killed _ _ _ _ _ D). unfold killed, get_state, get_thread. by rewrite (cm_threads _ _ _ _ _ _ C).
  - intros id c' [_ Hn]%(dc_killed _ _ _ _ _ D). rewrite (cm_current _ _ _ _ _ _ C). case_decide; [congruence|].
    by rewrite (dc_current _ _ _ _ _ D).
Qed.

Lemma idle_not_killed sw held s c : inv sw held s → (c < MAX_CPUS)%nat → ¬ killed s (idle s c).
Proof.
  intros Hinv Hc. unfold killed, get_state. destruct (get_thread s (idle s c)) as [t|] eqn:Ht; [|done].
  destruct (ok_idle_state _ _ _ _ (inv_thread _ _ _ Hinv (idle s c))) with t as [E _]; [by exists c|done|].
  cbn. congruence.
Qed.

Lemma idle_return_spares sw held f c id s :
  inv sw held s → (c < MAX_CPUS)%nat → keeps_id f →
  (∀ t, get_thread s id = Some t → t_state t = Terminated → t_state (f t) = Terminated) →
  spares s (setup_idle_return_locked c (get_thread_mut id f s)).
Proof.
  intros Hinv Hc Hf Hk. pose proof (inv_shape _ _ _ Hinv) as Hsh. split; [intros x; by apply killed_update|].
  intros x c' Hx. unfold setup_idle_return_locked, current. rewrite cpu_on_cpu by (cbn; by rewrite (shape_cpus _ Hsh)).
  case_decide; [|done]. cbn. intros [= <-]. by destruct (idle_not_killed _ _ _ _ Hinv Hc).
Qed.

Lemma dispatch_spares w id s :
  inv None [] s → (e_cpu (sw_env w) < MAX_CPUS)%nat → spares s (dispatch_thread_locked w id s).
Proof.
  intros Hinv Hc. unfold dispatch_thread_locked.
  assert (spares s (setup_idle_return_locked (e_cpu (sw_env w)) s)) as Hid.
  { rewrite <- (get_thread_mut_same id s) at 2. by eapply idle_return_spares. }
  destruct (get_thread s id) as [t|] eqn:Ht; [|done]. case_match eqn:Et; [done|]. case_match; [done|].
  assert (t_state t ≠ Terminated) as Hnt by (unfold is_terminated in Et; by apply bool_decide_eq_false in Et).
  assert (∀ f : Thread → Thread, ∀ u, get_thread s id = Some u → t_state u = Terminated → t_state (f u) = Terminated) as Hf.
  { intros f u. rewrite Ht. by intros [= <-]. }
  destruct (sw_dispatch w); [done|..].
  - split; [intros x; by apply killed_update|done].
  - etrans; [apply (idle_return_spares None [] (with_state Ready) (e_cpu (sw_env w)) id); try done; apply Hf|]. apply steady_spares, steady_flags, steady_requeue; [|done].
    apply shape_on_cpu. by destruct (inv_shape _ _ _ Hinv).
  - apply (idle_return_spares None []); try done; apply Hf.
Qed.

Lemma dispatch_inv w id s :
  let c := e_cpu (sw_env w) in
  inv None [] s → current s c = Some id → id = idle s c ∨ get_state s id = Some Running →
  inv None [] (dispatch_thread_locked w id s).
Proof.
  intros c Hinv Hcur Hst. unfold dispatch_thread_locked. fold c.
  pose proof (inv_shape _ _ _ Hinv) as Hsh. pose proof (current_lt s Hsh _ _ Hcur) as Hlt.
  destruct (decide (id = idle s c)) as [E|Hne].
  { assert (inv None [] (setup_idle_return_locked c s)) as Hgo by (apply (to_idle_inv c id); done).
    destruct (get_thread s id); [|done]. destruct (is_terminated _); [done|].
    rewrite (proj2 (is_idle_spec s id)); [done|]. by exists c. }
  destruct Hst as [?|Hst]; [done|]. pose proof (current_not_idle _ _ _ _ _ Hinv Hcur Hne) as Hni.
  unfold get_state in Hst. destruct (get_thread s id) as [t|] eqn:Ht; [|done]. injection Hst as Hst.
  unfold is_terminated. rewrite Hst, bool_decide_false by done.
  assert (is_idle_thread_inner s id = false) as ->.
  { apply not_true_is_false. by rewrite is_idle_spec. }
  destruct (sw_dispatch w); [done|..].
  - by apply update_same_inv.
  - set (s1 := setup_idle_return_locked c _).
    assert (inv None [id] s1) as Hinv1.
    { apply idle_return_inv; try done. intros u. rewrite Ht. intros [= <-]. by rewrite Hst. }
    eapply veq_inv; [unfold set_need_resched; apply veq_flags; reflexivity|].
    apply (requeue_inv _ [id]); try done. intros _ E. exfalso. revert E. unfold get_state.
    change (get_thread s1 id) with (get_thread (get_thread_mut id (with_state Ready) s) id).
    rewrite get_thread_update, decide_True, Ht by done. done.
  - set (s1 := setup_idle_return_locked c _).
    assert (inv None [id] s1) as Hinv1 by (by apply idle_return_inv).
    assert (get_state s1 id = Some Terminated) as E.
    { unfold get_state. change (get_thread s1 id) with (get_thread (get_thread_mut id (with_state Terminated) s) id).
      rewrite get_thread_update, decide_True, Ht by done. done. }
    apply (release_ok [id] s1 id); rewrite ?E; done.
Qed.

(** ** The switch paths *)

Lemma get_send_resched_ipi e s x : get_thread (send_resched_ipi e s) x = get_thread s x.
Proof. unfold get_thread. by rewrite (veq_threads s) by (apply veq_send_resched_ipi; reflexivity). Qed.

Lemma get_requeue_other e id s x : x ≠ id → get_thread (requeue_thread_after_save e id s) x = get_thread s x.
Proof.
  intros Hne. unfold requeue_thread_after_save. case_match; [done|]. set (s1 := if opt_is _ _ then _ else s).
  assert (get_thread s1 x = get_thread s x) as <- by (unfold s1; by case_match). clearbody s1.
  case_match; [done|]. case_match; [done|]. unfold requeue_saved.
  destruct (get_state s1 id) as [[]|]; try done.
  - rewrite bool_decide_true by done. case_match; [done|]. case_match; [done|]. rewrite get_send_resched_ipi.
    change (get_thread (get_thread_mut id set_ready s1) x = get_thread s1 x).
    rewrite get_thread_update, decide_False by (apply set_ready_keeps || done). done.
  - rewrite bool_decide_false by done. case_match; [done|]. case_match; [done|]. by rewrite get_send_resched_ipi.
Qed.

Section switch.
Context (w : SwitchEnv).
#[local] Abbreviation e := (sw_env w).
#[local] Abbreviation c := (e_cpu (sw_env w)).
Context (He : (c < MAX_CPUS)%nat) (s0 s : System) (old new : u64) (D : decided e s0 s old new).

Lemma cpu_commit c' :
  cpu (commit_cpu_state_after_save e new s) c'
  = if decide (c' = c) then cpu_set_pending None (cpu_set_current (Some new) (cpu s c)) else cpu s c'.
Proof using D He.
  unfold commit_cpu_state_after_save. rewrite cpu_on_cpu.
  - case_decide; [|done]. cbn. pose proof (dc_pending _ _ _ _ _ D) as Hp. unfold pending in Hp. by rewrite Hp, (proj2 (opt_is_spec _ _)).
  - by rewrite (shape_cpus _ (inv_shape _ _ _ (dc_inv _ _ _ _ _ D))).
Qed.

Lemma inline_committed :
  committed c s (on_cpu c (cpu_set_previous None) (commit_cpu_state_after_save e new s)) old new false.
Proof using D He.
  pose proof (inv_shape _ _ _ (dc_inv _ _ _ _ _ D)) as Hsh.
  assert (shape (commit_cpu_state_after_save e new s)) as Hsh1 by by apply shape_on_cpu.
  set (s' := on_cpu c _ _). assert (∀ c', cpu s' c' = if decide (c' = c) then
    cpu_set_previous None (cpu_set_pending None (cpu_set_current (Some new) (cpu s c))) else cpu s c') as Hcpu.
  { intros c'. unfold s'. rewrite cpu_on_cpu by (by rewrite (shape_cpus _ Hsh1)). rewrite !cpu_commit.
    rewrite (decide_True (P := c = c)) by done. by case_decide. }
  split; try done.
  - by apply shape_on_cpu.
  - intros c'. unfold current. rewrite Hcpu. by case_decide.
  - intros c'. unfold idle. rewrite Hcpu. case_decide; by subst.
  - intros c'. unfold pending. rewrite Hcpu. by case_decide.
  - intros c' id. unfold previous. rewrite Hcpu. case_decide; [done|]. auto.
  - intros c'. rewrite decide_False by naive_solver. done.
Qed.

Lemma irq_committed :
  previous s0 c = None → slot s c = 0 →
  let s1 := commit_cpu_state_after_save e new s in
  let s2 := if is_idle_thread_inner s1 old then s1 else on_cpu c (cpu_set_previous (Some old)) s1 in
  committed c s (swap_deferred c old s2).2 old new true ∧ (swap_deferred c old s2).1 = 0.
Proof using D He.
  intros Hp0 Hslot s1 s2. pose proof (inv_shape _ _ _ (dc_inv _ _ _ _ _ D)) as Hsh.
  assert (shape s1) as Hsh1 by by apply shape_on_cpu.
  assert (shape s2) as Hsh2 by (unfold s2; case_match; [done|by apply shape_on_cpu]).
  assert (∀ id, is_idle_thread_inner s1 id = true ↔ idle_tid s id) as Hid.
  { intros id. rewrite is_idle_spec.
    assert (∀ c', idle s1 c' = idle s c') as E; [|unfold idle_tid; by setoid_rewrite E].
    intros c'. unfold idle, s1. rewrite cpu_commit. case_decide; by subst. }
  assert (∀ c', ∃ p, cpu s2 c' = if decide (c' = c) then
    cpu_set_previous p (cpu_set_pending None (cpu_set_current (Some new) (cpu s c))) else cpu s c') as Hcpu'.
  { intros c'. unfold s2. case_match.
    - exists (previous s c). unfold s1. rewrite cpu_commit. case_decide; [|done]. unfold previous. by destruct (cpu s c).
    - exists (Some old). rewrite cpu_on_cpu by (by rewrite (shape_cpus _ Hsh1)). unfold s1. rewrite !cpu_commit.
      rewrite (decide_True (P := c = c)) by done. by case_decide. }
  assert (∀ id, previous s2 c = Some id → id = old ∧ ¬ idle_tid s old) as Hprev.
  { intros id. unfold s2. destruct (is_idle_thread_inner s1 old) eqn:Hi.
    - unfold previous, s1. rewrite cpu_commit, decide_True by done. cbn. intros Hp.
      apply Hid in Hi. destruct (dc_previous _ _ _ _ _ D id Hp) as [?|[-> Hne]]; [congruence|].
      destruct (current_not_idle _ _ _ _ _ (dc_inv _ _ _ _ _ D) (dc_old _ _ _ _ _ D)); [|done].
      by rewrite (dc_idle _ _ _ _ _ D).
    - unfold previous. rewrite cpu_on_cpu by (by rewrite (shape_cpus _ Hsh1)). rewrite decide_True by done. cbn.
      intros [= <-]. split; [done|]. rewrite <- Hid. congruence. }
  assert (DEFERRED_REQUEUE s2 = DEFERRED_REQUEUE s) as Hd by (unfold s2; by case_match).
  assert (slot s2 c = 0) as Hs2 by (unfold slot; by rewrite Hd).
  split; [|done]. cbn [snd swap_deferred]. set (s3 := set_deferred _ s2).
  split; try done.
  - split; [apply Hsh2|apply Hsh2|]. cbn. rewrite length_insert. apply Hsh2.
  - unfold s3, s2. by case_match.
  - unfold s3, s2. by case_match.
  - intros c'. change (current s3 c') with (current s2 c'). unfold current. destruct (Hcpu' c') as [p ->]. by case_decide.
  - intros c'. change (idle s3 c') with (idle s2 c'). unfold idle. destruct (Hcpu' c') as [p ->]. case_decide; by subst.
  - intros c'. change (pending s3 c') with (pending s2 c'). unfold pending. destruct (Hcpu' c') as [p ->]. by case_decide.
  - intros c' id. change (previous s3 c') with (previous s2 c'). destruct (decide (c' = c)) as [->|Hne].
    + intros Hp%Hprev. by right.
    + unfold previous. destruct (Hcpu' c') as [p ->]. rewrite decide_False by done. by left.
  - intros c'. unfold s3. rewrite slot_set_deferred by done. unfold slot. rewrite Hd.
    destruct (decide (c' = c)); [rewrite decide_True by done|rewrite decide_False by naive_solver]; done.
Qed.

Lemma irq_switch_inv :
  previous s0 c = None → slot s c = 0 →
  inv None [] (irq_switch_to w old new s) ∧ spares s0 (irq_switch_to w old new s).
Proof using D He.
  intros Hp Hslot. destruct (irq_committed Hp Hslot) as [C Hev]. unfold irq_switch_to.
  destruct (swap_deferred c old _) as [ev s3]. cbn [fst snd] in *. subst ev. cbn [Z.eqb].
  assert (inv None [] s3) as Hinv by (apply (committed_inv e He s0 s s3 old new true D C); [done..|by intros ? ?%elem_of_nil]).
  split; [|etrans; [by eapply committed_spares|by apply dispatch_spares]]. apply dispatch_inv; [done| |].
  - by rewrite (cm_current _ _ _ _ _ _ C), decide_True.
  - rewrite (cm_idle _ _ _ _ _ _ C). destruct (decide (new = idle s c)); [by left|right].
    unfold get_state, get_thread. rewrite (cm_threads _ _ _ _ _ _ C). by apply (dc_new_state _ _ _ _ _ D).
Qed.

(** The state in which the new thread is dispatched. *)
Definition trampoline_saved (requeue : bool) : System :=
  let s2 := on_cpu c (cpu_set_previous None) (commit_cpu_state_after_save e new s) in
  if requeue || bool_decide (get_state s old = Some Ready) then requeue_thread_after_save e old s2 else s2.

Lemma trampoline_saved_spec requeue :
  let s2 := on_cpu c (cpu_set_previous None) (commit_cpu_state_after_save e new s) in
  inv None [] (trampoline_saved requeue) ∧ steady s2 (trampoline_saved requeue)
  ∧ get_thread (trampoline_saved requeue) new = get_thread s new.
Proof using D He.
  pose proof inline_committed as C. cbv zeta. unfold trampoline_saved. cbv zeta. set (s2 := on_cpu c _ _) in *.
  assert (inv None [old] s2) as Hinv.
  { apply (committed_inv e He s0 s s2 old new false D C); [done|by left|done]. }
  assert (settled s2 old) as Hset.
  { intros Hn. assert (get_state s2 old = get_state s old) as -> by (unfold get_state, get_thread; by rewrite (cm_threads _ _ _ _ _ _ C)).
    intros Hst. destruct (dc_old_state _ _ _ _ _ D); [|done]. intros E. apply Hn. exists c.
    rewrite (cm_idle _ _ _ _ _ _ C). by rewrite E. }
  destruct (requeue || _) eqn:Hr.
  - split; [by apply (requeue_inv e [old])|]. split; [apply steady_requeue; [apply Hinv|done]|].
    rewrite get_requeue_other by (pose proof (dc_new _ _ _ _ _ D); congruence).
    unfold get_thread. by rewrite (cm_threads _ _ _ _ _ _ C).
  - apply orb_false_iff in Hr as [_ Hr%bool_decide_eq_false]. split; [by apply (release_ok [old] s2 old)|].
    split; [done|]. unfold get_thread. by rewrite (cm_threads _ _ _ _ _ _ C).
Qed.

Lemma trampoline_inv requeue :
  inv None [] (inline_schedule_trampoline w old new requeue s)
  ∧ spares s0 (inline_schedule_trampoline w old new requeue s)
  ∧ (killed s old → ∀ c', current (inline_schedule_trampoline w old new requeue s) c' ≠ Some old).
Proof using D He.
  pose proof inline_committed as C. destruct (trampoline_saved_spec requeue) as (Hinv3 & S3 & Hg).
  change (inline_schedule_trampoline w old new requeue s) with (dispatch_thread_locked w new (trampoline_saved requeue)).
  set (s2 := on_cpu c _ _) in *. set (s3 := trampoline_saved requeue) in *. clearbody s3.
  assert (spares s2 (dispatch_thread_locked w new s3)) as P3.
  { etrans; [by apply steady_spares|by apply dispatch_spares]. }
  split; [|split; [etrans; [by eapply committed_spares|exact P3]|]].
  2:{ intros Hk c' E. apply (sp_current _ _ P3) in E; [|unfold killed, get_state; by rewrite (committed_get e s s2 old new false C)].
      rewrite (cm_current _ _ _ _ _ _ C) in E. pose proof (dc_new _ _ _ _ _ D). case_decide as Hc; [congruence|].
      apply Hc. apply (ok_current _ _ _ _ (inv_thread _ _ _ (dc_inv _ _ _ _ _ D) old)); [done|]. apply (dc_old _ _ _ _ _ D). }
  apply dispatch_inv; [done| |].
  - by rewrite (st_current _ _ S3), (cm_current _ _ _ _ _ _ C), decide_True.
  - rewrite (st_idle _ _ S3), (cm_idle _ _ _ _ _ _ C). destruct (decide (new = idle s c)); [by left|right].
    unfold get_state. rewrite Hg. by apply (dc_new_state _ _ _ _ _ D).
Qed.

(** Where the new thread can be entered, the CPU runs it. *)
Lemma trampoline_enters requeue :
  new ≠ idle s c → sw_dispatch w = Resumed ∨ sw_dispatch w = Entered →
  current (inline_schedule_trampoline w old new requeue s) c = Some new
  ∧ get_state (inline_schedule_trampoline w old new requeue s) new = Some Running.
Proof using D He.
  intros Hne Hd. pose proof inline_committed as C. destruct (trampoline_saved_spec requeue) as (Hinv3 & S3 & Hg).
  change (inline_schedule_trampoline w old new requeue s) with (dispatch_thread_locked w new (trampoline_saved requeue)).
  set (s2 := on_cpu c _ _) in *. set (s3 := trampoline_saved requeue) in *. clearbody s3.
  assert (current s3 c = Some new) as Hcur by (by rewrite (st_current _ _ S3), (cm_current _ _ _ _ _ _ C), decide_True).
  assert (get_state s3 new = Some Running) as Hst by (unfold get_state; rewrite Hg; by apply (dc_new_state _ _ _ _ _ D)).
  assert (is_idle_thread_inner s3 new = false) as Hni.
  { apply not_true_is_false. rewrite is_idle_spec. eapply current_not_idle; [exact Hinv3|exact Hcur|].
    by rewrite (st_idle _ _ S3), (cm_idle _ _ _ _ _ _ C). }
  unfold dispatch_thread_locked. unfold get_state in *. destruct (get_thread s3 new) as [t|] eqn:Ht; [|done].
  injection Hst as Hst. unfold is_terminated. rewrite Hst, bool_decide_false, Hni by done.
  destruct Hd as [-> | ->]; [rewrite Ht; cbn; by rewrite Hst|]. split; [done|].
  rewrite get_thread_update, decide_True, Ht by done. cbn. by rewrite Hst.
Qed.
End switch.
