(* ===== verification/SchedRun.v ===== *)
(** The aarch64 kernel as a transition system over the scheduler: every CPU
    performs wakes, blocks, spawns, exits and context switches in any order.
    Every reachable state satisfies the invariant of [SchedInv], which gives
    the safety theorems: no thread runs twice or while its stack is in use, no
    runnable thread is lost, and an exiting thread is always replaced. *)

From S2P Require Import Prelude Sched SchedSwitch WaitQueue SchedInv SchedSmp.

(** * Repairs *)

Lemma get_requeue_settled e id s x :
  get_state s x ≠ Some Running → get_thread (requeue_thread_after_save e id s) x = get_thread s x.
Proof.
  intros Hx. destruct (decide (x = id)) as [->|]; [|by apply get_requeue_other].
  unfold requeue_thread_after_save. case_match; [done|]. set (s1 := if opt_is _ _ then _ else s).
  assert (get_thread s1 id = get_thread s id) as Hg by (unfold s1; by case_match).
  assert (get_state s1 id ≠ Some Running) as Hst by (unfold get_state; by rewrite Hg).
  rewrite <- Hg. clearbody s1. case_match; [done|]. case_match; [done|]. unfold requeue_saved.
  destruct (get_state s1 id) as [[]|]; try done.
  rewrite bool_decide_false by done. case_match; [done|]. case_match; [done|]. by rewrite get_send_resched_ipi.
Qed.

Lemma get_drain e id s x :
  get_state s x ≠ Some Running → get_thread (drain_deferred e id s) x = get_thread s x.
Proof. intros Hx. unfold drain_deferred. case_match; [done|]. by rewrite get_requeue_settled. Qed.

Lemma resolve_previous_inv e c s :
  inv None [] s → (c < MAX_CPUS)%nat →
  inv None [] (resolve_exception_cleanup_previous_thread e c s)
  ∧ steady s (resolve_exception_cleanup_previous_thread e c s).
Proof.
  intros Hinv Hc. pose proof (inv_shape _ _ _ Hinv) as Hsh.
  unfold resolve_exception_cleanup_previous_thread. destruct (previous s c) as [id|] eqn:Hp; [|done].
  set (s1 := on_cpu c (cpu_set_previous None) s).
  assert (inv None [] s1) as Hinv1 by by apply clear_previous_inv.
  assert (steady s s1) as S1 by (apply steady_on_cpu; [done..|by intros []]).
  case_match eqn:Hcond; [|done]. bool_simpl.
  change (on_cpu c (cpu_set_previous None) (set_need_resched e (push_back c id s)))
    with (set_need_resched e (push_back c id s1)).
  match goal with H : bool_decide (get_state s id = Some Ready) = true |- _ => apply bool_decide_eq_true in H as Hst end.
  assert (terminated_owner s1 id = None) as Hto.
  { unfold get_state in Hst. unfold terminated_owner. change (get_thread s1 id) with (get_thread s id).
    destruct (get_thread s id) as [t|]; [|done]. injection Hst as Hst. unfold is_terminated. by rewrite Hst. }
  split.
  2:{ etrans; [exact S1|]. apply steady_flags, steady_push_ready. done. }
  eapply veq_inv; [unfold set_need_resched; apply veq_flags; reflexivity|].
  unfold get_state in Hst. destruct (get_thread s id) as [t|] eqn:Ht; [|done]. injection Hst as Hst.
  rewrite <- (get_thread_mut_same id s1).
  apply (push_ready_inv [] (λ t, t) c id t); try done; [by intros ? ?%elem_of_nil|congruence|..].
  - intros (c' & Hc' & E). rewrite (st_idle _ _ S1) in E.
    assert (is_idle_thread_inner s id = true) as X by (apply is_idle_spec; by exists c'). congruence.
  - intros [c' E]. rewrite (st_current _ _ S1) in E.
    assert (is_current_on_any_cpu s id = true) as X by (apply (is_current_spec s Hsh); by exists c'). congruence.
  - intros [c' E]. assert (c' ≠ c ∧ previous s c' = Some id) as [Hne E'].
    { unfold previous in *. unfold s1 in E. rewrite cpu_on_cpu in E by (by rewrite (shape_cpus _ Hsh)). by case_decide. }
    match goal with H : any_cpu _ = false |- _ => rewrite any_cpu_false in H; specialize (H c' (previous_lt s Hsh _ _ E')) end.
    rewrite (proj2 (Nat.eqb_neq _ _)) in * by done. cbn in *. apply opt_is_spec in E'. congruence.
  - intros Hq. assert (in_any_queue s id = true) as X by (by apply in_any_queue_spec). congruence.
Qed.

Lemma kicks_seen_same s s' :
  threads (scheduler s') = threads (scheduler s) → per_cpu_queues (scheduler s') = per_cpu_queues (scheduler s) →
  EXIT_KICK_SLOTS s' = EXIT_KICK_SLOTS s → kicks_seen s → kicks_seen s'.
Proof.
  intros Ht Hq He Hk id pid. unfold all_queued, terminated_owner, get_thread. rewrite Ht, Hq. intros Hin Ho.
  apply (seen_ext s); [done|]. by apply (Hk id pid).
Qed.

(** The CPU was redirected to its idle loop: its thread no longer runs. *)
Definition off_cpu (c : nat) (s : System) : Prop :=
  ∀ x, current s c = Some x → x ≠ idle s c → get_state s x ≠ Some Running ∧ get_state s x ≠ Some Ready.

Lemma cleanup_inv e s :
  inv None [] s → (e_cpu e < MAX_CPUS)%nat → is_Some (current s (e_cpu e)) → off_cpu (e_cpu e) s →
  let s' := fix_exception_cleanup_cpu_state e s in
  inv None [] s' ∧ current s' (e_cpu e) = Some (idle s' (e_cpu e)) ∧ (kicks_seen s → kicks_seen s')
  ∧ DEFERRED_REQUEUE s' = DEFERRED_REQUEUE s ∧ spares s s'.
Proof.
  intros Hinv He [x Hx] Hoff. pose proof (inv_shape _ _ _ Hinv) as Hsh.
  assert (inv None [] (setup_idle_return_locked (e_cpu e) s)) as Hinv1 by (apply (to_idle_inv _ x); auto).
  unfold fix_exception_cleanup_cpu_state. cbn zeta.
  change (on_cpu (e_cpu e) _ s) with (setup_idle_return_locked (e_cpu e) s). set (s1 := setup_idle_return_locked (e_cpu e) s) in *.
  destruct (resolve_previous_inv e (e_cpu e) s1 Hinv1 He) as [Hinv2 S2].
  set (s2 := resolve_exception_cleanup_previous_thread e (e_cpu e) s1) in *. clearbody s2.
  assert (current s1 (e_cpu e) = Some (idle s1 (e_cpu e))) as Hcur.
  { unfold s1, setup_idle_return_locked, current, idle. rewrite !cpu_on_cpu by (by rewrite (shape_cpus _ Hsh)).
    by rewrite decide_True. }
  split_and!.
  - eapply veq_inv; [unfold set_cpu_idle; apply veq_idle_flags; reflexivity|done].
  - change (current s2 (e_cpu e) = Some (idle s2 (e_cpu e))). by rewrite (st_current _ _ S2), (st_idle _ _ S2).
  - intros Hk. apply (kicks_seen_same s2); [done..|]. apply (steady_kicks _ _ S2). by apply (kicks_seen_same s).
  - change (DEFERRED_REQUEUE s2 = DEFERRED_REQUEUE s). by rewrite (st_deferred _ _ S2).
  - etrans; [|apply steady_spares; etrans; [exact S2|]; unfold set_cpu_idle; apply steady_idle_flags; reflexivity].
    unfold s1. rewrite <- (get_thread_mut_same x s) at 2. by eapply idle_return_spares.
Qed.

(** * The handlers *)

(** What holds when a CPU enters the switch code: it has been started, its
    thread pointer names the thread the scheduler has as current, or an
    exception handler has sent it to its idle loop; and if it is idle, the
    exit kicks of terminated threads in the queues have been published. *)
Record switch_ok (w : SwitchEnv) (s : System) : Prop := {
  sk_cpu : (e_cpu (sw_env w) < MAX_CPUS)%nat;
  sk_started : is_Some (current s (e_cpu (sw_env w)));
  sk_pointer : sw_cleanup w = false →
    match sw_thread_ptr w with
    | Some id => current s (e_cpu (sw_env w)) = Some id
    | None => current s (e_cpu (sw_env w)) = Some (idle s (e_cpu (sw_env w)))
    end;
  sk_cleanup : sw_cleanup w = true → sw_frame_el0 w = false ∧ off_cpu (e_cpu (sw_env w)) s;
  sk_kicks : sw_cleanup w = true ∨ current s (e_cpu (sw_env w)) = Some (idle s (e_cpu (sw_env w))) → kicks_seen s;
}.

Section handlers.
Context (w : SwitchEnv).
#[local] Abbreviation e := (sw_env w).
#[local] Abbreviation c := (e_cpu (sw_env w)).

(** Where the pointer agrees, the repair on the way back to user mode does
    nothing. *)
Lemma fix_eret_same s :
  sw_frame_el0 w = false ∨ sw_thread_ptr w = current s c ∨ sw_thread_ptr w = None →
  fix_eret_cpu_state_locked w s = s.
Proof using Type.
  unfold fix_eret_cpu_state_locked. intros [->|[->| ->]]; [done| |].
  - destruct (sw_frame_el0 w); [cbn [negb]|done]. destruct (current s c) as [id|]; [|done]. by destruct (is_idle_thread_inner s id).
  - destruct (sw_frame_el0 w); [cbn [negb]|done]. by destruct (current s c).
Qed.

Lemma swap_zero_inv s :
  inv None [] s → (c < MAX_CPUS)%nat → slot s c = 0 → veq s (swap_deferred c 0 s).2.
Proof using Type.
  intros Hinv Hc Hs. cbn [snd swap_deferred].
  assert (DEFERRED_REQUEUE s !! c = Some 0) as E.
  { unfold slot in Hs. destruct (DEFERRED_REQUEUE s !! c) as [z|] eqn:E; [cbn in Hs; by subst|].
    apply lookup_ge_None_1 in E. rewrite (shape_deferred _ (inv_shape _ _ _ Hinv)) in E. lia. }
  rewrite (list_insert_id _ _ _ E). split; try done. by intros [].
Qed.

(** The common beginning: the slot is emptied. *)
Lemma decide_after_drain s x :
  inv None [] s → (c < MAX_CPUS)%nat → current s c = Some x → (x = idle s c → kicks_seen s) →
  slot s c = 0 → previous s c = None →
  match schedule_deferred_requeue e s with
  | (None, s') => inv None [] s' ∧ same_cpu c s s'
  | (Some (old, new, _), s') =>
      old = x ∧ old ≠ new ∧ t_id <$> threads (scheduler s') = t_id <$> threads (scheduler s)
      ∧ (inv None [] (irq_switch_to w old new s') ∧ spares s (irq_switch_to w old new s'))
      ∧ ∀ r, inv None [] (inline_schedule_trampoline w old new r s') ∧ spares s (inline_schedule_trampoline w old new r s')
  end.
Proof using Type.
  intros Hinv Hc Hx Hk Hs Hp. pose proof (schedule_decides e Hc s x Hinv Hx Hk) as HD.
  destruct (schedule_deferred_requeue e s) as [[[[old new] r]|] s']; [|by destruct HD as (? & ? & _)].
  destruct HD as [Ho D]. split; [done|]. split; [by apply D|]. split; [by apply D|]. split.
  - apply (irq_switch_inv w Hc s s' old new D Hp). unfold slot. rewrite (dc_deferred _ _ _ _ _ D). exact Hs.
  - intros r'. destruct (trampoline_inv w Hc s s' old new D r') as (? & ? & _). done.
Qed.

Lemma previous_drained id s : shape s → (c < MAX_CPUS)%nat → previous (drain_deferred e id s) c = None.
Proof using Type.
  intros Hsh Hc. unfold drain_deferred. set (s1 := on_cpu c _ s).
  assert (previous s1 c = None) as Hp.
  { unfold s1, previous. rewrite cpu_on_cpu by (by rewrite (shape_cpus _ Hsh)). by rewrite decide_True. }
  case_match; [done|]. unfold requeue_thread_after_save. fold c. rewrite Hp. change (opt_is None id) with false. cbn iota.
  case_match; [done|]. case_match; [done|]. case_match; [done|]. unfold requeue_saved.
  destruct (get_state s1 id) as [[]|]; try done; case_match; try done; case_match; try done.
  all: rewrite (veq_previous (push_back _ id _)) by (apply veq_send_resched_ipi; reflexivity).
  all: case_match; exact Hp.
Qed.

Lemma irq_locked_inv need d s :
  inv None [] s → switch_ok w s → slot s c = 0 →
  inv None [] (irq_locked w need d s) ∧ spares s (irq_locked w need d s).
Proof using Type.
  intros Hinv [Hc Hb Hptr Hclean Hk] Hslot. unfold irq_locked.
  set (s1 := if sw_cleanup w then _ else s).
  assert (inv None [] s1 ∧ spares s s1 ∧ slot s1 c = 0 ∧ (sw_cleanup w = false → s1 = s)
          ∧ ∃ x, current s1 c = Some x ∧ (x = idle s1 c → kicks_seen s1)) as (Hinv1 & P1 & Hs1 & Hsame & x & Hx & Hk1).
  { unfold s1. destruct (sw_cleanup w) eqn:Ecl.
    - destruct (cleanup_inv e s Hinv Hc Hb) as (? & Hcur & Hkk & Hd & ?); [by apply Hclean|]. split; [done|]. split; [done|].
      split; [unfold slot; by rewrite Hd|]. split; [done|]. eexists. split; [done|]. auto.
    - split; [done|]. split; [done|]. split; [done|]. split; [done|]. destruct Hb as [x Hx]. exists x. split; [done|].
      intros E. apply Hk. right. congruence. }
  clearbody s1. destruct (drain_again_inv e d s1 Hinv1 Hc) as [Hinv2 S2].
  pose proof (previous_drained d s1 (inv_shape _ _ _ Hinv1) Hc) as Hp2. set (s2 := drain_deferred e d s1) in *. clearbody s2.
  assert (slot s2 c = 0) as Hs2 by (unfold slot; by rewrite (st_deferred _ _ S2)).
  assert (current s2 c = Some x) as Hx2 by by rewrite (st_current _ _ S2).
  assert (sw_frame_el0 w = false ∨ sw_thread_ptr w = Some x ∨ sw_thread_ptr w = None) as Hp.
  { destruct (sw_cleanup w) eqn:Ecl; [left; by apply Hclean|right]. rewrite (Hsame eq_refl) in Hx.
    specialize (Hptr eq_refl). destruct (sw_thread_ptr w); [left; congruence|by right]. }
  assert (∀ s', current s' c = Some x → fix_eret_cpu_state_locked w s' = s') as Hfix.
  { intros s' Hs'. apply fix_eret_same. by rewrite Hs'. }
  assert (spares s s2) as P2 by (etrans; [exact P1|by apply steady_spares]).
  destruct (negb need && _); [by rewrite Hfix|].
  set (s3 := if sw_from_el0 w && _ then _ else s2).
  assert (s3 = s2) as ->.
  { unfold s3. destruct (sw_from_el0 w && sw_frame_el0 w) eqn:Ef; [|done]. apply andb_true_iff in Ef as [_ Ef].
    destruct (sw_thread_ptr w) as [y|] eqn:Ey; [|done]. destruct Hp as [?|[[= ->]|?]]; [congruence| |done].
    unfold fix_stale_idle_cpu_state. destruct (Z.eqb_spec x (idle s2 c)) as [E|E]; [by rewrite andb_false_r|].
    assert (opt_is (current s2 c) (idle s2 c) = false) as ->; [|done].
    apply not_true_is_false. rewrite opt_is_spec. congruence. }
  assert (x = idle s2 c → kicks_seen s2) as Hk2.
  { rewrite (st_idle _ _ S2). intros E. apply (steady_kicks _ _ S2). auto. }
  pose proof (decide_after_drain s2 x Hinv2 Hc Hx2 Hk2 Hs2 Hp2) as HD.
  destruct (schedule_deferred_requeue e s2) as [[[[old new] r]|] s4].
  - destruct HD as (_ & Hne & _ & [Hirq P4] & _). rewrite (proj2 (Z.eqb_neq _ _)) by done. split; [done|]. by etrans.
  - destruct HD as [Hinv4 S4]. rewrite Hfix by (by rewrite (sc_current _ _ _ S4)). split; [done|].
    etrans; [exact P2|]. by eapply same_cpu_spares.
Qed.

Lemma switch_ok_steady s s' :
  steady s s' → (∀ x, get_state s x ≠ Some Running → get_thread s' x = get_thread s x) →
  switch_ok w s → switch_ok w s'.
Proof using Type.
  intros S Hg [Hc Hb Hptr Hclean Hk]. split; rewrite ?(st_current _ _ S), ?(st_idle _ _ S); try done.
  - intros E. destruct (Hclean E) as [? Hoff]. split; [done|]. intros x. rewrite (st_current _ _ S), (st_idle _ _ S).
    intros Hx Hne. destruct (Hoff x Hx Hne) as [Hr Hy]. unfold get_state in *. by rewrite Hg.
  - intros E. apply (steady_kicks _ _ S). auto.
Qed.

Lemma irq_inv s :
  inv None [] s → switch_ok w s →
  inv None [] (check_need_resched_and_switch_arm64 w s) ∧ spares s (check_need_resched_and_switch_arm64 w s).
Proof using Type.
  intros Hinv Hok. pose proof (sk_cpu _ _ Hok) as Hc. unfold check_need_resched_and_switch_arm64.
  destruct (sw_preempt_active w); [done|].
  set (s1 := note_scheduling_epoch c s).
  assert (inv None [] s1) as Hinv1 by (eapply veq_inv; [unfold s1, note_scheduling_epoch; apply veq_epochs; reflexivity|done]).
  assert (switch_ok w s1) as Hok1.
  { apply (switch_ok_steady s); [|done|done]. unfold s1, note_scheduling_epoch. apply steady_epochs. reflexivity. }
  assert (spares s s1) as P0 by (by split).
  clearbody s1. clear Hinv Hok. rename s into s0, s1 into s, Hinv1 into Hinv, Hok1 into Hok.
  destruct (swap_deferred c 0 s) as [d s2] eqn:Esw.
  assert (d = slot s c) as -> by (by injection Esw). assert (s2 = (swap_deferred c 0 s).2) as Hs2 by by rewrite Esw.
  assert (switch_ok w s2) as Hok2.
  { subst s2. destruct Hok as [? ? ? Hcl Hk]. split; try done. intros E%Hk. by apply (kicks_seen_same s). }
  set (s3 := if slot s c =? 0 then s2 else _).
  assert (inv None [] s3 ∧ spares s0 s3 ∧ slot s3 c = 0 ∧ switch_ok w s3) as (Hinv3 & P3 & Hslot3 & Hok3).
  { unfold s3. destruct (Z.eqb_spec (slot s c) 0) as [E|E].
    - rewrite Hs2. split; [eapply veq_inv; [by apply swap_zero_inv|done]|]. split; [by etrans|]. rewrite <- Hs2. split; [|done].
      rewrite Hs2. cbn [snd swap_deferred]. rewrite slot_set_deferred by (apply Hinv || done). by rewrite decide_True.
    - destruct (drain_slot_inv e s Hinv Hc) as (Hi & S & Hz). rewrite <- Hs2 in *. split; [done|].
      split; [transitivity s2; [etrans; [exact P0|by rewrite Hs2]|by apply steady_spares]|]. split; [done|].
      apply (switch_ok_steady s2); [done| |done]. intros x Hx. by apply get_drain. }
  clearbody s3. destruct (sw_preempt_guard w); [done|].
  unfold check_and_clear_need_resched. set (need := _ || _). set (s4 := set_flags false _ s3).
  assert (inv None [] s4) as Hinv4 by (eapply veq_inv; [apply veq_flags; reflexivity|done]).
  assert (spares s0 s4) as P4 by (etrans; [exact P3|by split]).
  destruct (negb (sw_cleanup w) && _ && _); [done|].
  destruct (irq_locked_inv need (slot s c) s4) as [? P]; [done| |done|split; [done|by etrans]].
  apply (switch_ok_steady s3); [apply steady_flags; reflexivity|done|done].
Qed.

(** The state in which [schedule_from_kernel] decides: the thread in the slot
    has been queued and, as the pointer agrees, nothing was repaired. *)
Lemma from_kernel_start s :
  inv None [] s → switch_ok w s → sw_cleanup w = false →
  let s1 := (swap_deferred c 0 s).2 in
  let s2 := drain_deferred e (slot s c) s1 in
  inv None [] s2 ∧ steady s1 s2 ∧ slot s2 c = 0 ∧ previous s2 c = None ∧
  (∀ x, current s c = Some x → x = idle s2 c → kicks_seen s2) ∧
  schedule_from_kernel w s =
    match schedule_deferred_requeue e s2 with
    | (None, s) => s
    | (Some (old, new, requeue), s) =>
        if old =? new then (if requeue : bool then requeue_thread_after_save e old s else s)
        else match get_thread s old with Some _ => inline_schedule_trampoline w old new requeue s | None => s end
    end.
Proof using Type.
  intros Hinv [Hc [x Hx] Hptr _ Hk] Hcl s1 s2. destruct (drain_slot_inv e s Hinv Hc) as (Hinv2 & S2 & Hz).
  fold s1 s2 in Hinv2, S2, Hz.
  assert (previous s2 c = None) as Hp.
  { apply previous_drained; [|done]. pose proof (inv_shape _ _ _ Hinv) as [? ? Hl]. split; [done|done|]. cbn. by rewrite length_insert. }
  assert (current s2 c = Some x) as Hx2 by (rewrite (st_current _ _ S2); exact Hx).
  assert (∀ c', idle s2 c' = idle s c') as Hi2 by (intros c'; by rewrite (st_idle _ _ S2)).
  split; [exact Hinv2|]. split; [exact S2|]. split; [exact Hz|]. split; [exact Hp|]. split.
  { intros y Hy. rewrite Hi2. intros E. apply (steady_kicks _ _ S2), (kicks_seen_same s); [done..|]. apply Hk. right. congruence. }
  unfold schedule_from_kernel. change (swap_deferred c 0 s) with (slot s c, s1). cbv iota beta. fold s2. clearbody s2.
  set (s3 := match sw_thread_ptr w with Some _ => _ | None => _ end).
  assert (s3 = s2) as ->; [|done].
  unfold s3. specialize (Hptr Hcl). destruct (sw_thread_ptr w) as [y|].
  - unfold fix_stale_idle_cpu_state. destruct (Z.eqb_spec y (idle s2 c)) as [E|E]; [by rewrite andb_false_r|].
    assert (opt_is (current s2 c) (idle s2 c) = false) as ->; [|done].
    apply not_true_is_false. rewrite opt_is_spec. congruence.
  - unfold fix_stale_current_thread_when_idle_executing. rewrite Hx2.
    assert (x = idle s2 c) as -> by (rewrite Hi2; congruence). by rewrite Z.eqb_refl.
Qed.

Lemma from_kernel_inv s :
  inv None [] s → switch_ok w s → sw_cleanup w = false →
  (∀ x, current s c = Some x → is_Some (get_thread s x)) →
  inv None [] (schedule_from_kernel w s) ∧ spares s (schedule_from_kernel w s).
Proof using Type.
  intros Hinv Hok Hcl Hex. destruct (from_kernel_start s Hinv Hok Hcl) as (Hinv2 & S2 & Hz & Hp & Hk2 & ->).
  destruct Hok as [Hc [x Hx] _ _ _]. set (s1 := (swap_deferred c 0 s).2) in *. set (s2 := drain_deferred e _ s1) in *.
  assert (current s2 c = Some x) as Hx2 by (rewrite (st_current _ _ S2); exact Hx).
  pose proof (decide_after_drain s2 x Hinv2 Hc Hx2 (Hk2 x Hx) Hz Hp) as HD.
  assert (spares s s2) as P2 by (transitivity s1; [by split|by apply steady_spares]).
  destruct (schedule_deferred_requeue e s2) as [[[[old new] r]|] s4].
  2:{ destruct HD as [? S]. split; [done|]. etrans; [exact P2|]. by eapply same_cpu_spares. }
  destruct HD as (-> & Hne & Hids & _ & Htr). specialize (Htr r) as [? P4]. rewrite (proj2 (Z.eqb_neq _ _)) by done.
  destruct (get_thread s4 x) eqn:Ex; [split; [done|by etrans]|]. exfalso. apply find_thread_None in Ex.
  rewrite Hids, (st_ids _ _ S2) in Ex. destruct (Hex x Hx) as [t Ht]. apply find_thread_None in Ex.
  unfold get_thread in Ht. cbn in Ex. congruence.
Qed.
End handlers.

(** * Exit *)

(** The last switch of a thread: it always finds a successor. *)
Lemma exit_inv w id s :
  let c := e_cpu (sw_env w) in
  inv None [] s → (c < MAX_CPUS)%nat → current s c = Some id → id ≠ idle s c → is_Some (get_thread s id) →
  ∃ s', schedule_terminated_from_exit w id s = Some s' ∧ inv None [] s' ∧ spares s s' ∧ killed s' id
    ∧ ∀ c', current s' c' ≠ Some id.
Proof.
  intros c Hinv Hc Hcur Hni [t Ht]. unfold schedule_terminated_from_exit. rewrite Ht.
  assert (¬ idle_tid s id) as Hnt by (by eapply current_not_idle).
  pose proof (terminate_removed _ _ _ _ _ Hinv Ht Hnt) as Hinv1.
  set (s1 := remove_from_ready_queue id (get_thread_mut id set_terminated s)) in *.
  assert (spares s s1) as P1 by (split; [intros x; by apply killed_update|done]).
  assert (killed s1 id) as Hk1.
  { unfold killed, get_state. change (get_thread s1 id) with (get_thread (get_thread_mut id set_terminated s) id).
    by rewrite get_thread_update, decide_True, Ht. }
  assert (current s1 c = Some id) as Hcur1 by done. assert (idle s1 c = idle s c) as Hi1 by done. clearbody s1.
  assert (id ≠ idle s1 c) as Hni1 by (by rewrite Hi1).
  pose proof (schedule_decides (sw_env w) Hc s1 id Hinv1 Hcur1 (λ E, False_ind _ (Hni1 E))) as HD.
  destruct (schedule_deferred_requeue (sw_env w) s1) as [[[[old new] r]|] s2].
  - destruct HD as [-> D]. rewrite Z.eqb_refl. cbn [negb].
    rewrite (proj2 (Z.eqb_neq _ _)) by (pose proof (dc_new _ _ _ _ _ D); congruence).
    destruct (trampoline_inv w Hc s1 s2 id new D false) as (? & P & Hout). eexists. split_and!; [done|done|by etrans|..].
    + by apply P.
    + apply Hout. by apply (dc_killed _ _ _ _ _ D).
  - by destruct HD as (_ & _ & E).
Qed.

Lemma exit_known w id s s' : schedule_terminated_from_exit w id s = Some s' → is_Some (get_thread s id).
Proof. unfold schedule_terminated_from_exit. by destruct (get_thread s id). Qed.

(** * The transition system *)

Inductive wakes_thread (e : Env) (s : System) : System → Prop :=
  | do_unblock id : wakes_thread e s (unblock e id s).1
  | do_wake_io id : wakes_thread e s (wake_io_thread_locked e id s).1
  | do_unblock_for_io id : wakes_thread e s (unblock_for_io e id s)
  | do_unblock_for_signal id : wakes_thread e s (unblock_for_signal e id s)
  | do_unblock_for_child_exit id : wakes_thread e s (unblock_for_child_exit e id s)
  | do_wake_expired_timers : wakes_thread e s (wake_expired_timers e s)
  | do_isr_unblock_for_io id : wakes_thread e s (isr_unblock_for_io e id s)
  | do_wake_any_context id : wakes_thread e s (wake_thread_any_context e id s).1.

Inductive blocks_current (e : Env) (s : System) : System → Prop :=
  | do_block_current : blocks_current e s (block_current e s)
  | do_block_for_signal ctx : blocks_current e s (block_current_for_signal_with_context e ctx s)
  | do_block_for_child_exit : blocks_current e s (block_current_for_child_exit e s)
  | do_block_for_timer wake : blocks_current e s (block_current_for_timer e wake s)
  | do_block_for_compositor timeout : blocks_current e s (block_current_for_compositor e timeout s)
  | do_publish_io_wait : blocks_current e s (publish_current_io_wait_state e s).1
  | do_block_for_io wake : blocks_current e s (block_current_for_io_with_timeout e wake s).1.

(** The steps of the CPUs.  Each takes the scheduler lock once. *)
Inductive step (s : System) : System → Prop :=
  | step_wake e s' : (e_cpu e < MAX_CPUS)%nat → wakes_thread e s s' → step s s'
  (** a system call of the running thread blocks it *)
  | step_block e s' : may_block e s → blocks_current e s s' → step s s'
  (** a thread ends its wait on a wait queue *)
  | step_finish_wait e : (e_cpu e < MAX_CPUS)%nat → step s (finish_current_wait e s)
  | step_spawn e t : (e_cpu e < MAX_CPUS)%nat → fresh_id s (t_id t) → t_state t = Ready → step s (spawn e t s)
  | step_spawn_front e t :
      (e_cpu e < MAX_CPUS)%nat → fresh_id s (t_id t) → t_state t = Ready → step s (spawn_front e t s)
  (** a secondary CPU comes up with its idle thread *)
  | step_register e c t :
      (c < MAX_CPUS)%nat → current s c = None → fresh_id s (t_id t) → t_state t = Running → t_owner_pid t = None →
      step s (register_idle_thread e c t s)
  (** a process is killed or exits; its exit kick is published *)
  | step_terminate e pid : step s (terminate_process_threads e pid s)
  | step_kick e pid at_ : step s (send_exit_expedite_sgi e pid at_ s)
  | step_reclaim e : step s (reclaim_terminated_threads e s).2
  | step_need_resched e : step s (set_need_resched e s)
  (** an exception handler ends a thread and leaves the CPU to its idle loop *)
  | step_crash id : ¬ idle_tid s id → step s (terminate_thread_best_effort id s)
  | step_to_idle e :
      (e_cpu e < MAX_CPUS)%nat → is_Some (current s (e_cpu e)) → off_cpu (e_cpu e) s →
      step s (switch_to_idle_best_effort e s)
  (** the three context switches *)
  | step_irq w : switch_ok w s → step s (check_need_resched_and_switch_arm64 w s)
  | step_from_kernel w :
      switch_ok w s → sw_cleanup w = false →
      (∀ x, current s (e_cpu (sw_env w)) = Some x → is_Some (get_thread s x)) →
      step s (schedule_from_kernel w s)
  | step_exit w id s' :
      (e_cpu (sw_env w) < MAX_CPUS)%nat → current s (e_cpu (sw_env w)) = Some id → id ≠ idle s (e_cpu (sw_env w)) →
      schedule_terminated_from_exit w id s = Some s' → step s s'.

Inductive reachable : System → Prop :=
  | reach_boot e t : t_state t = Running → t_owner_pid t = None → reachable (init_with_current e t)
  | reach_step s s' : reachable s → step s s' → reachable s'.

(** ** Every step keeps the invariant *)

Lemma init_inv e t : t_state t = Running → t_owner_pid t = None → inv None [] (init_with_current e t).
Proof.
  intros Hst Ho. set (s := init_with_current e t).
  assert (∀ c, cpu s c = match c with O => mkCpu (Some (t_id t)) (t_id t) None None (e_ticks e AtEntry) | _ => EMPTY_STATE end) as Hcpu.
  { intros [|c]; [done|]. unfold cpu, s. cbn. by do 8 (destruct c; [done|]). }
  assert (all_queued s = []) as Hq by done.
  assert (∀ id u, get_thread s id = Some u → id = t_id t ∧ u = t) as Hget.
  { intros id u. unfold get_thread, s. cbn. case_match eqn:E; [|done]. intros [= <-]. by apply Z.eqb_eq in E. }
  assert (∀ c id, current s c = Some id → c = 0%nat ∧ id = t_id t) as Hcur.
  { intros [|c] id; unfold current; rewrite Hcpu; cbn; [|done]. intros [= <-]. done. }
  assert (running_on s (t_id t)) as Hrun by (by exists 0%nat).
  split; try done.
  - apply NoDup_singleton.
  - rewrite Hq. constructor.
  - intros c c' [x Hx] [y Hy] _. destruct (Hcur _ _ Hx), (Hcur _ _ Hy). congruence.
  - intros [|c]; [done|]. unfold idle. by rewrite Hcpu.
  - intros c [x Hx] _. by destruct (Hcur _ _ Hx).
  - intros id. split.
    + intros _ u Hu. by destruct (Hget _ _ Hu) as [_ ->].
    + intros _. rewrite Hq. split; [by intros ?%elem_of_nil|]. intros [c Hp]. unfold previous in Hp. rewrite Hcpu in Hp. by destruct c.
    + intros c c' Hx [y Hy] _. destruct (Hcur _ _ Hx), (Hcur _ _ Hy). congruence.
    + intros c c' Hx Hy. destruct (Hcur _ _ Hx), (Hcur _ _ Hy). congruence.
    + rewrite Hq. by intros ?%elem_of_nil.
    + intros c Hp. unfold previous in Hp. rewrite Hcpu in Hp. by destruct c.
    + intros _ _. unfold get_state. destruct (get_thread s id) as [u|] eqn:Hu; [|done]. by destruct (Hget _ _ Hu) as [-> _].
    + intros _ _. unfold get_state. destruct (get_thread s id) as [u|] eqn:Hu; [|done]. destruct (Hget _ _ Hu) as [_ ->].
      cbn. congruence.
    + intros c Hp. unfold pending in Hp. rewrite Hcpu in Hp. by destruct c.
    + intros -> [[u Hu]|[c Hx]]; [destruct (Hget _ _ Hu)|destruct (Hcur _ _ Hx)]; done.
Qed.

Lemma wakes_thread_wakes e s s' : (e_cpu e < MAX_CPUS)%nat → wakes_thread e s s' → wakes None s s'.
Proof.
  intros He [].
  - by apply unblock_wakes.
  - by apply wake_io_wakes.
  - by apply unblock_for_io_wakes.
  - by apply unblock_for_signal_wakes.
  - by apply unblock_for_child_exit_wakes.
  - by apply wake_expired_wakes.
  - by apply isr_unblock_wakes.
  - by apply any_context_wakes.
Qed.

Lemma blocks_current_inv e s s' : may_block e s → blocks_current e s s' → inv None [] s → inv None [] s'.
Proof.
  intros Hm [] Hinv.
  - by apply block_current_inv.
  - by apply block_signal_inv.
  - by apply block_child_exit_inv.
  - by apply block_timer_inv.
  - by apply block_compositor_inv.
  - pose proof (publish_io_inv e s Hinv Hm None) as Hi. unfold publish_current_io_wait_state.
    by destruct (publish_current_io_wait_state_inner e None s).
  - by apply block_io_inv.
Qed.

Lemma spawn_inv e t front s :
  inv None [] s → (e_cpu e < MAX_CPUS)%nat → fresh_id s (t_id t) → t_state t = Ready →
  inv None [] (spawn_with (add_thread_inner e t front) e s).
Proof.
  intros Hinv He Hf Hst. eapply veq_inv; [|by apply (add_thread_inv e t front)].
  unfold spawn_with, set_need_resched. cbn. apply veq_send_resched_ipi, veq_flags. reflexivity.
Qed.

Lemma veq_kick e pid at_ s : veq s (send_exit_expedite_sgi e pid at_ s).
Proof.
  unfold send_exit_expedite_sgi. cbn. apply veq_foldl; [|eauto with sched]. intros s' x. case_match; eauto with sched.
Qed.

Lemma crash_inv id s : inv None [] s → ¬ idle_tid s id → inv None [] (terminate_thread_best_effort id s).
Proof.
  intros Hinv Hn. unfold terminate_thread_best_effort. destruct (get_thread s id) as [t|] eqn:Ht; [by eapply terminate_removed|].
  assert (get_thread_mut id set_terminated s = s) as ->.
  { unfold get_thread_mut. by rewrite update_thread_none, set_threads_same. }
  eapply veq_inv; [|done]. apply veq_remove; [|done]. intros Hq.
  destruct (ok_queued _ _ _ _ (inv_thread _ _ _ Hinv id) Hq) as (st & Hg & _). unfold get_state in Hg. by rewrite Ht in Hg.
Qed.

Lemma step_inv s s' : step s s' → inv None [] s → inv None [] s'.
Proof.
  intros [] Hinv.
  - by eapply wakes_thread_wakes.
  - by eapply blocks_current_inv.
  - by apply finish_wait_inv.
  - by apply spawn_inv.
  - by apply spawn_inv.
  - eapply registered_inv; try done. apply register_registered; [apply Hinv|done].
  - by apply terminate_process_inv.
  - eapply veq_inv; [apply veq_kick|done].
  - by apply reclaim_inv.
  - eapply veq_inv; [|done]. unfold set_need_resched. eauto with sched.
  - by apply crash_inv.
  - unfold switch_to_idle_best_effort. apply resolve_previous_inv; [|done]. destruct H0 as [x Hx].
    by apply (to_idle_inv _ x); [..|intros Hne; by apply H1].
  - by apply irq_inv.
  - by apply from_kernel_inv.
  - destruct (exit_inv w id s) as (s2 & E & ? & _); try done; [by eapply exit_known|congruence].
Qed.

Lemma reachable_inv s : reachable s → inv None [] s.
Proof. induction 1; [by apply init_inv|by eapply step_inv]. Qed.

(** ** Terminated threads *)

Lemma spares_threads s s' id f :
  cpu_state (scheduler s') = cpu_state (scheduler s) →
  threads (scheduler s') = update_thread id f (threads (scheduler s)) → keeps_id f →
  (∀ t, get_thread s id = Some t → t_state t = Terminated → t_state (f t) = Terminated) →
  spares s s'.
Proof.
  intros Hc Ht Hf Hk. split.
  - intros x Hx. apply (killed_update id f s x Hf Hk) in Hx. unfold killed, get_state, get_thread in *. by rewrite Ht.
  - intros x c _. unfold current, cpu. by rewrite Hc.
Qed.

Lemma blocks_current_spares e s s' : may_block e s → blocks_current e s s' → spares s s'.
Proof.
  intros (id & t & Hcur & _ & Ht & Hnt) B.
  assert (∀ f : Thread → Thread, ∀ u, get_thread s id = Some u → t_state u = Terminated → t_state (f u) = Terminated) as Hf.
  { intros f u. rewrite Ht. by intros [= <-]. }
  destruct B;
    unfold block_current, block_current_for_signal_with_context, block_current_for_child_exit, block_current_for_timer,
      block_current_for_compositor, publish_current_io_wait_state, block_current_for_io_with_timeout,
      publish_current_io_wait_state_inner; rewrite Hcur, ?Ht.
  all: try (eapply (spares_threads _ _ id); [reflexivity|reflexivity|done|apply Hf]).
  - eapply (spares_threads _ _ id); [reflexivity|reflexivity| |apply Hf]. intros u. by destruct ctx.
  - eapply (spares_threads _ _ id); [by destruct wake|by destruct wake|done|apply Hf].
Qed.

Lemma wait_finished_keeps : keeps_id wait_finished.
Proof. intros t. unfold wait_finished, set_ready. by repeat case_bool_decide. Qed.

Lemma finish_wait_spares e s : spares s (finish_current_wait e s).
Proof.
  unfold finish_current_wait. destruct (current s (e_cpu e)) as [id|]; [|done].
  eapply (spares_threads _ _ id wait_finished); [done|done|apply wait_finished_keeps|]. intros t _ Hst.
  unfold wait_finished. by rewrite Hst.
Qed.

Lemma terminate_spares e pid s : inv None [] s → spares s (terminate_process_threads e pid s).
Proof.
  unfold terminate_process_threads. generalize (seq 0 (length (threads (scheduler s)))). intros l.
  revert s. induction l as [|i l IH]; intros s Hinv; [done|]. cbn. etrans; [|by apply IH, terminate_at_inv].
  unfold terminate_at. destruct (threads (scheduler s) !! i) as [t|] eqn:Hi; [|done]. case_match; [|done].
  apply (spares_threads _ _ (t_id t) set_terminated); [by repeat case_match| |done|done].
  rewrite (update_thread_insert _ _ i) by (apply Hinv || done). by repeat case_match.
Qed.

Lemma killed_known s id : killed s id → id ∈ (t_id <$> threads (scheduler s)).
Proof.
  unfold killed, get_state, get_thread. intros Hk. apply dec_stable. intros Hn.
  apply find_thread_None in Hn. by rewrite Hn in Hk.
Qed.

Lemma killed_added s s' t id : threads (scheduler s') = threads (scheduler s) ++ [t] → killed s id → killed s' id.
Proof.
  intros Ht. unfold killed, get_state, get_thread. rewrite Ht, find_thread_app. by destruct (find_thread id _).
Qed.

Lemma spawn_spares e t front s : spares s (spawn_with (add_thread_inner e t front) e s).
Proof.
  transitivity (add_thread_inner e t front s).
  - split; [|done]. intros x. by eapply killed_added.
  - eapply (same_cpu_spares 0), veq_same_cpu. unfold spawn_with, set_need_resched. cbn.
    apply veq_send_resched_ipi, veq_flags. reflexivity.
Qed.

Lemma reclaim_killed e s id :
  inv None [] s → killed s id →
  killed (reclaim_terminated_threads e s).2 id ∨ get_thread (reclaim_terminated_threads e s).2 id = None.
Proof.
  intros Hinv. unfold killed, get_state, get_thread, reclaim_terminated_threads. cbn.
  rewrite find_thread_filter by apply Hinv. destruct (find_thread id _); [|done]. case_decide; auto.
Qed.

(** What becomes of a terminated thread: it stays so until it is reclaimed, and
    no CPU takes it up. *)
Lemma step_killed s s' id :
  inv None [] s → step s s' → killed s id →
  (killed s' id ∨ get_thread s' id = None) ∧ ∀ c, current s' c = Some id → current s c = Some id.
Proof.
  intros Hinv Hstep Hk. assert (spares s s' → (killed s' id ∨ get_thread s' id = None)
    ∧ ∀ c, current s' c = Some id → current s c = Some id) as Hsp.
  { intros [P1 P2]. split; [left; auto|eauto]. }
  destruct Hstep.
  - apply Hsp. by eapply (same_cpu_spares 0), waking_same_cpu, wakes_thread_wakes.
  - apply Hsp. by eapply blocks_current_spares.
  - apply Hsp, finish_wait_spares.
  - apply Hsp, spawn_spares.
  - apply Hsp, spawn_spares.
  - destruct (register_registered e c t s) as [_ Ht _ Hcur _ _ _ _]; [apply Hinv|done|].
    split; [left; by eapply killed_added|]. intros c'. rewrite Hcur. case_decide; [|done]. intros [= <-].
    apply killed_known in Hk. by destruct H1 as (_ & ? & _).
  - apply Hsp. by apply terminate_spares.
  - apply Hsp. eapply (same_cpu_spares 0), veq_same_cpu, veq_kick.
  - split; [by apply reclaim_killed|done].
  - apply Hsp. by split.
  - apply Hsp. by eapply (spares_threads _ _ id0 set_terminated).
  - apply Hsp. unfold switch_to_idle_best_effort. destruct H0 as [x Hx].
    transitivity (switch_to_idle e s).
    + rewrite <- (get_thread_mut_same x s) at 2. by eapply (idle_return_spares None []).
    + apply steady_spares, resolve_previous_inv; [|done]. by apply (to_idle_inv _ x); [..|intros Hne; by apply H1].
  - apply Hsp. by apply irq_inv.
  - apply Hsp. by apply from_kernel_inv.
  - apply Hsp. destruct (exit_inv w id0 s) as (s2 & E & _ & ? & _); try done; [by eapply exit_known|congruence].
Qed.
