(* ===== verification/SchedSafe.v ===== *)
(** Safety of the scheduler on all reachable states of the aarch64 kernel, with
    a concrete run of two CPUs as the witness of the hypotheses. *)

From S2P Require Import Prelude Sched SchedSwitch SchedInv SchedSmp SchedRun.

(** * Checking the guards of a step on a concrete state *)

Definition fresh_check (s : System) (id : u64) : bool :=
  negb (id =? 0) && negb (contains id (t_id <$> threads (scheduler s))) && negb (contains id (all_queued s))
  && forallb (λ st, negb (idle_thread st =? id) && negb (opt_is (current_thread st) id)
                    && negb (opt_is (previous_thread st) id)) (cpu_state (scheduler s)).

Lemma queue_contains_spec id q : contains id q = true ↔ id ∈ q.
Proof.
  unfold contains. rewrite existsb_exists. setoid_rewrite <- list_elem_of_In. split.
  - intros (x & Hx & ->%Z.eqb_eq). done.
  - intros H. exists id. split; [done|apply Z.eqb_refl].
Qed.

Lemma fresh_check_ok s id : fresh_check s id = true → fresh_id s id.
Proof.
  unfold fresh_check. intros H. bool_simpl. rewrite <- !not_true_iff_false, !queue_contains_spec, Z.eqb_eq in *.
  match goal with H : forallb _ _ = true |- _ => rewrite forallb_forall in H; rename H into Hall end.
  assert (∀ c, idle s c ≠ id ∧ current s c ≠ Some id ∧ previous s c ≠ Some id) as Hc.
  { intros c. unfold idle, current, previous, cpu. destruct (cpu_state (scheduler s) !! c) as [st|] eqn:E; [|cbn; by split_and!].
    cbn. specialize (Hall st). rewrite <- list_elem_of_In in Hall. specialize (Hall (list_elem_of_lookup_2 _ _ _ E)).
    bool_simpl. rewrite <- !not_true_iff_false, !opt_is_spec, Z.eqb_eq in *. done. }
  split_and!; [done..| |].
  - intros (c & _ & E). by destruct (Hc c).
  - intros c. by destruct (Hc c) as (_ & ? & ?).
Qed.

Lemma kicks_check s :
  forallb (λ id, bool_decide (terminated_owner s id = None)) (all_queued s) = true → kicks_seen s.
Proof.
  rewrite forallb_forall. intros H id pid Hq Ho. specialize (H id). rewrite <- list_elem_of_In in H.
  specialize (H Hq). apply bool_decide_eq_true in H. congruence.
Qed.

(** * A run of two CPUs *)

Definition sample_env (c : nat) : Env :=
  mkEnv c 2 (λ c, (c <? 2)%nat) true (λ _, 5) 1000 false 0 (λ _, false) (λ _, 16%nat) false.

Definition sample_thread (id : u64) (st : ThreadState) (p : ThreadPrivilege) (owner : option u64) : Thread :=
  mkThread id st p owner false false None 0 0 None None.

Definition sample_started (id : u64) (st : ThreadState) (owner : u64) : Thread :=
  mkThread id st User (Some owner) true false None 5 0 None None.

(** The interrupt return of CPU [c], which runs the thread [ptr]. *)
Definition sample_switch (c : nat) (ptr : option u64) : SwitchEnv :=
  mkSwitch (sample_env c) false false false false ptr false Entered.

(** The boot thread 1 runs on CPU 0; CPU 1 starts with idle thread 2; two user
    threads are created; CPU 1 picks up thread 4 and CPU 0 thread 3. *)
Definition sample_boot : System := init_with_current (sample_env 0) (sample_thread 1 Running Kernel None).
Definition sample_smp : System :=
  register_idle_thread (sample_env 0) 1 (sample_thread 2 Running Kernel None) sample_boot.
Definition sample_spawned : System :=
  spawn (sample_env 0) (sample_thread 4 Ready User (Some 11))
    (spawn (sample_env 0) (sample_thread 3 Ready User (Some 10)) sample_smp).
Definition sample_running : System :=
  schedule_from_kernel (sample_switch 0 None)
    (check_need_resched_and_switch_arm64 (sample_switch 1 (Some 2)) sample_spawned).

(** The process of thread 4 is killed while thread 3 blocks and is woken. *)
Definition sample_killed : System :=
  (unblock (sample_env 1) 3 (block_current (sample_env 0) (terminate_process_threads (sample_env 0) 11 sample_running))).1.

Lemma sample_run : current sample_running 0 = Some 3 ∧ current sample_running 1 = Some 4
  ∧ get_state sample_killed 4 = Some Terminated ∧ get_state sample_killed 3 = Some Ready
  ∧ all_queued sample_killed = [4].
Proof. vm_compute. repeat split. Qed.

Lemma sample_spawned_reachable : reachable sample_spawned.
Proof.
  unfold sample_spawned. apply (reach_step (spawn (sample_env 0) (sample_thread 3 Ready User (Some 10)) sample_smp)).
  2:{ apply step_spawn; [cbn; lia|by apply fresh_check_ok; vm_compute|done]. }
  apply (reach_step sample_smp); [|apply step_spawn; [cbn; lia|by apply fresh_check_ok; vm_compute|done]].
  unfold sample_smp. apply (reach_step sample_boot); [by apply reach_boot|].
  apply step_register; [cbn; lia|done|by apply fresh_check_ok; vm_compute|done|done].
Qed.

(** The guard of an interrupt return or kernel switch outside exception clean-up. *)
Lemma switch_check w s id :
  (e_cpu (sw_env w) <? MAX_CPUS)%nat = true → sw_cleanup w = false →
  current s (e_cpu (sw_env w)) = Some id →
  default (idle s (e_cpu (sw_env w))) (sw_thread_ptr w) = id →
  forallb (λ id, bool_decide (terminated_owner s id = None)) (all_queued s) = true ∨ id ≠ idle s (e_cpu (sw_env w)) →
  switch_ok w s.
Proof.
  intros Hc Hcl Hcur Hptr Hk. split; [by apply Nat.ltb_lt|by eexists| |by rewrite Hcl|].
  - intros _. destruct (sw_thread_ptr w); cbn in Hptr; congruence.
  - intros [?|E]; [congruence|]. destruct Hk as [?|?]; [by apply kicks_check|congruence].
Qed.

Definition sample_switched : System := check_need_resched_and_switch_arm64 (sample_switch 1 (Some 2)) sample_spawned.

Lemma sample_switched_reachable : reachable sample_switched.
Proof.
  apply (reach_step sample_spawned); [apply sample_spawned_reachable|]. apply step_irq.
  apply (switch_check _ _ 2); [vm_compute; reflexivity..|left; vm_compute; reflexivity].
Qed.

Lemma sample_running_reachable : reachable sample_running.
Proof.
  apply (reach_step sample_switched); [apply sample_switched_reachable|]. apply step_from_kernel.
  - apply (switch_check _ _ 1); [vm_compute; reflexivity..|left; vm_compute; reflexivity].
  - vm_compute; reflexivity.
  - intros x Hx. vm_compute in Hx. injection Hx as <-. vm_compute. eexists; reflexivity.
Qed.

Definition sample_terminated : System := terminate_process_threads (sample_env 0) 11 sample_running.

Lemma sample_killed_reachable : reachable sample_killed.
Proof.
  assert (reachable sample_terminated) as Hs.
  { apply (reach_step sample_running); [apply sample_running_reachable|apply step_terminate]. }
  apply (reach_step (block_current (sample_env 0) sample_terminated)).
  - apply (reach_step sample_terminated); [exact Hs|]. apply (step_block _ (sample_env 0)); [|apply do_block_current].
    exists 3, (sample_started 3 Running 10). split; [vm_compute; reflexivity|]. split; [vm_compute; discriminate|].
    split; [vm_compute; reflexivity|vm_compute; discriminate].
  - apply (step_wake _ (sample_env 1)); [cbn; lia|apply do_unblock].
Qed.

(** * The safety theorems *)

(** C1: in every state the steps of [step] reach, in any order and on any of the
    CPUs, a thread runs on at most one CPU, is queued at most once, and a queued
    thread that is not terminated is Ready, runs on no CPU, and no CPU still uses
    its kernel stack.  The steps are guarded: at a switch the thread pointer of
    the CPU agrees with the scheduler or the CPU comes from an exception
    handler's cleanup; an idle CPU decides only when the exit kicks of queued
    terminated threads are published; only a live thread that is not idle
    blocks.  The code does not enforce the guards; [SchedRaces] has runs outside
    them in which a killed thread is dispatched twice. *)
Theorem no_double_dispatch s :
  reachable s →
  (∀ c c' id, current s c = Some id → current s c' = Some id → c = c') ∧
  NoDup (all_queued s) ∧
  ∀ id, id ∈ all_queued s → ¬ killed s id →
    get_state s id = Some Ready ∧ (∀ c, current s c ≠ Some id) ∧ ∀ c, previous s c ≠ Some id.
Proof.
  intros Hinv%reachable_inv. split; [intros c c' id; apply Hinv|]. split; [apply Hinv|]. intros id Hq Hk.
  destruct (ok_queued _ _ _ _ (inv_thread _ _ _ Hinv id) Hq) as (st & Hst & [->|(-> & Hr & Hs)]); [done|].
  split; [done|]. split; intros c E; [destruct Hr|destruct Hs]; by exists c.
Qed.

(** C2: no thread is lost by steps that keep the guards of C1: in every state
    they reach a thread marked Running, unless it is an idle thread, runs on some
    CPU, and one marked Ready runs, is in a ready queue, or waits in the slot of
    the CPU it was just switched from, which queues it at its next interrupt.  A
    switch whose null thread pointer contradicts the scheduler is outside the
    guards, and does lose the thread ([stale_pointer_loses_thread]). *)
Theorem no_lost_thread s id :
  reachable s → ¬ idle_tid s id →
  (get_state s id = Some Running → ∃ c, current s c = Some id) ∧
  (get_state s id = Some Ready →
     (∃ c, current s c = Some id) ∨ id ∈ all_queued s ∨ ∃ c, slot s c = id ∧ id ≠ 0).
Proof.
  intros Hinv%reachable_inv Hn. destruct (inv_thread _ _ _ Hinv id) as [_ _ _ _ _ _ O7 O8 _ _].
  split; [apply O7|apply O8]; set_solver.
Qed.

(** C7: a terminated thread is never given a CPU again by a step that keeps the
    guards of C1: it stays terminated until it is reclaimed, and a CPU that runs
    it afterwards was already running it.  Outside the guards it can be: an idle
    CPU that decides before the exit kick is published dispatches it
    ([unpublished_kick_revives]), and a killed thread that goes to sleep before
    its CPU notices is woken ([killed_thread_sleeps_and_wakes]). *)
Theorem killed_never_dispatched s s' id :
  reachable s → step s s' → get_state s id = Some Terminated →
  (get_state s' id = Some Terminated ∨ get_thread s' id = None) ∧
  ∀ c, current s' c = Some id → current s c = Some id.
Proof. intros Hinv%reachable_inv. by apply step_killed. Qed.


Lemma no_double_dispatch_witness :
  NoDup (all_queued sample_killed) ∧ current sample_killed 1 = Some 4.
Proof. split; [apply (no_double_dispatch sample_killed sample_killed_reachable)|vm_compute; reflexivity]. Defined.

Lemma no_lost_thread_witness :
  get_state sample_killed 3 = Some Ready ∧
  ((∃ c, current sample_killed c = Some 3) ∨ 3 ∈ all_queued sample_killed ∨ ∃ c, slot sample_killed c = 3 ∧ 3 ≠ 0).
Proof.
  split; [vm_compute; reflexivity|]. apply (no_lost_thread sample_killed 3 sample_killed_reachable); [|vm_compute; reflexivity].
  intros (c & Hc & E). do 8 (destruct c; [vm_compute in E; discriminate|]). cbn in Hc. lia.
Defined.

Lemma killed_never_dispatched_witness :
  get_state sample_killed 4 = Some Terminated ∧
  let s' := check_need_resched_and_switch_arm64 (sample_switch 0 (Some 3)) sample_killed in
  (get_state s' 4 = Some Terminated ∨ get_thread s' 4 = None) ∧
  ∀ c, current s' c = Some 4 → current sample_killed c = Some 4.
Proof.
  split; [vm_compute; reflexivity|]. apply (killed_never_dispatched sample_killed); [apply sample_killed_reachable| |vm_compute; reflexivity].
  apply step_irq, (switch_check _ _ 3); [vm_compute; reflexivity..|right; vm_compute; discriminate].
Defined.

