(* ===== verification/SchedFrame.v ===== *)
(** What the scheduler's steps leave alone.  A property of the state that is
    [Framed] -- it depends on the threads and the timer heap only and survives
    every change of a thread that puts none to sleep -- is kept by every
    operation of the scheduler and every context switch; only the blocking
    operations of the running thread are left to be treated one by one.  The
    timer heap ([SchedTimer]) and the wait queues ([FutexInv]) are such
    properties. *)

From S2P Require Import Prelude Sched SchedSwitch WaitQueue SchedInv SchedSmp SchedRun.

Create HintDb frame.

(** ** Updates that put no thread to sleep *)

(** A change of a thread after which it waits for a deadline or on a wait queue
    only if it did before, for the same one. *)
Definition calm (f : Thread → Thread) : Prop :=
  ∀ t, t_id (f t) = t_id t ∧
    (t_state (f t) = BlockedOnIO → t_state t = BlockedOnIO) ∧
    (is_timed_wait (f t) = true → is_timed_wait t = true ∧ t_wake_time_ns (f t) = t_wake_time_ns t).

Lemma elem_of_update id f ts t :
  t ∈ update_thread id f ts → t ∈ ts ∨ ∃ u, u ∈ ts ∧ t_id u = id ∧ t = f u.
Proof.
  induction ts as [|u ts IH]; cbn; [by intros ?%elem_of_nil|]. case_match eqn:E; rewrite !elem_of_cons.
  - apply Z.eqb_eq in E. intros [->|?]; [right; exists u; split_and!; [by left|done..]|auto].
  - intros [->|[?|(v & ? & ? & ->)]%IH]; [by auto..|]. right. exists v. split_and!; [by right|done..].
Qed.

Ltac calm := intros ?; cbv [set_ready set_running set_terminated]; repeat case_bool_decide; done.

Lemma calm_ready : calm set_ready.
Proof. calm. Qed.
Lemma calm_terminated : calm set_terminated.
Proof. calm. Qed.
Lemma calm_state_ready : calm (with_state Ready).
Proof. calm. Qed.
Lemma calm_state_terminated : calm (with_state Terminated).
Proof. calm. Qed.
Lemma calm_started b : calm (with_started b).
Proof. calm. Qed.
Lemma calm_charged now : calm (λ t, set_ready (charge now t)).
Proof. calm. Qed.
Lemma calm_dispatch now : calm (λ t, with_start_ticks now (set_running t)).
Proof. calm. Qed.
Lemma calm_running : calm set_running.
Proof. calm. Qed.
Lemma calm_io_wake : calm (λ t, with_wake None (set_ready t)).
Proof. intros t. unfold set_ready, is_timed_wait. case_bool_decide as E; cbn; rewrite ?E; done. Qed.
Lemma calm_io_wake_syscall : calm (λ t, with_syscall false (with_wake None (set_ready t))).
Proof. intros t. unfold set_ready, is_timed_wait. case_bool_decide as E; cbn; rewrite ?E; done. Qed.
Lemma calm_timer_woken : calm timer_woken.
Proof. intros t. unfold timer_woken. by case_bool_decide. Qed.

Lemma calm_wait_finished : calm wait_finished.
Proof.
  intros t. unfold wait_finished. case_bool_decide; [apply (calm_io_wake_syscall t)|]. done.
Qed.

#[export] Hint Resolve calm_ready calm_terminated calm_state_ready calm_state_terminated calm_started calm_charged
  calm_dispatch calm_running calm_io_wake calm_io_wake_syscall calm_timer_woken calm_wait_finished : frame.

Lemma enqueue_threads e id s :
  threads (scheduler (enqueue_woken e id s).1) = threads (scheduler s)
  ∧ timer_heap (scheduler (enqueue_woken e id s).1) = timer_heap (scheduler s).
Proof. unfold enqueue_woken. by case_match. Qed.

(** ** Framed properties *)

Class Framed (P : System → Prop) : Prop := {
  fr_ids s : P s → NoDup (t_id <$> threads (scheduler s));
  fr_same s s' :
    threads (scheduler s') = threads (scheduler s) → timer_heap (scheduler s') = timer_heap (scheduler s) → P s → P s';
  fr_update id f s : calm f → P s → P (get_thread_mut id f s);
  fr_expired e s : P s → P (wake_expired_timers e s);
  fr_add t s :
    t_id t ∉ (t_id <$> threads (scheduler s)) → t_state t = Ready ∨ t_state t = Running → P s →
    P (set_threads (threads (scheduler s) ++ [t]) s);
  fr_reclaim e s : P s → P (reclaim_terminated_threads e s).2;
}.

Section frame.
Context (P : System → Prop) {FP : Framed P}.

(** ** Operations *)

(** The operations already treated. *)
Ltac kept_known := fail.

(** Peel one update off the state. *)
Ltac kept_step :=
  match goal with
  | H : P ?s |- P ?s => exact H
  | |- P (get_thread_mut _ _ _) => apply fr_update; [eauto with frame|]
  | |- P (on_cpu _ _ ?s) => apply (fr_same s); [reflexivity..|]
  | |- P (on_queue _ _ ?s) => apply (fr_same s); [reflexivity..|]
  | |- P (push_back _ _ ?s) => apply (fr_same s); [reflexivity..|]
  | |- P (set_queues _ ?s) => apply (fr_same s); [reflexivity..|]
  | |- P (remove_from_ready_queue _ ?s) => apply (fr_same s); [reflexivity..|]
  | |- P (set_flags _ _ ?s) => apply (fr_same s); [reflexivity..|]
  | |- P (set_need_resched _ ?s) => apply (fr_same s); [reflexivity..|]
  | |- P (set_cpu_need_resched _ ?s) => apply (fr_same s); [reflexivity..|]
  | |- P (set_cpu_idle _ _ ?s) => apply (fr_same s); [reflexivity..|]
  | |- P (set_buffers _ ?s) => apply (fr_same s); [reflexivity..|]
  | |- P (set_deferred _ ?s) => apply (fr_same s); [reflexivity..|]
  | |- P (set_kicks _ ?s) => apply (fr_same s); [reflexivity..|]
  | |- P (set_grace _ ?s) => apply (fr_same s); [reflexivity..|]
  | |- P (send_sgi _ ?s) => apply (fr_same s); [reflexivity..|]
  | |- P (note_scheduling_epoch _ ?s) => apply (fr_same s); [reflexivity..|]
  | |- P (commit_cpu_state_after_save _ _ ?s) => apply (fr_same s); [reflexivity..|]
  | |- P (setup_idle_return_locked _ ?s) => apply (fr_same s); [reflexivity..|]
  | |- P (if ?b then _ else _) => destruct b
  | |- P (match ?x with _ => _ end) => destruct x
  | |- P (let _ := _ in _) => cbv zeta
  | |- P _ => kept_known
  end.
Ltac kept := repeat kept_step.

Lemma kept_foldl {A} (f : System → A → System) l s :
  (∀ s x, P s → P (f s x)) → P s → P (foldl f s l).
Proof using FP. intros Hf. revert s. induction l as [|x l IH]; intros s H; [done|]. cbn. auto. Qed.

Lemma kept_resched_ipi e s : P s → P (send_resched_ipi e s).
Proof using FP. intros H. apply kept_foldl; [|done]. clear s H. intros s c H. unfold wake_if_idle. kept. Qed.
Lemma kept_resched_ipi_to e c s : P s → P (send_resched_ipi_to_cpu e c s).
Proof using FP. intros H. unfold send_resched_ipi_to_cpu. kept. Qed.
Ltac kept_known ::= first [apply kept_resched_ipi|apply kept_resched_ipi_to].

Lemma kept_enqueue e id s : P s → P (enqueue_woken e id s).1.
Proof using FP. intros H. unfold enqueue_woken. case_match; cbn [fst]; kept. Qed.
Ltac kept_known ::= first [apply kept_resched_ipi|apply kept_resched_ipi_to|apply kept_enqueue].

Lemma kept_unblock e id s : P s → P (unblock e id s).1.
Proof using FP.
  intros H. unfold unblock. destruct (get_thread s id) as [t|]; [|done].
  assert (P (enqueue_woken e id (get_thread_mut id set_ready s)).1) as Hq by kept.
  destruct (t_state t); try done; destruct (enqueue_woken e id _) as [s1 q]; cbn [fst] in *; kept.
Qed.

Lemma kept_wake_io e id s : P s → P (wake_io_thread_locked e id s).1.
Proof using FP.
  intros H. unfold wake_io_thread_locked. destruct (get_thread s id) as [t|]; [|done].
  assert (∀ s1 (b : bool), P s1 → P
    (if b then let current_cpu := current_cpu_of s1 id in
       let '(s2, target) := enqueue_woken e id s1 in (set_need_resched e s2, mkWake target current_cpu)
     else (s1, mkWake None None)).1) as Hgo.
  { intros s1 [] H1; [|done]. cbv zeta. pose proof (kept_enqueue e id s1 H1). destruct (enqueue_woken e id s1). cbn [fst] in *. kept. }
  destruct (t_state t); try exact H.
  - apply (Hgo s (t_blocked_in_syscall t)). kept.
  - apply (Hgo (get_thread_mut id _ s) true). kept.
  - apply (Hgo (get_thread_mut id _ s) true). kept.
Qed.

Lemma kept_unblock_for_io e id s : P s → P (unblock_for_io e id s).
Proof using FP.
  intros H. unfold unblock_for_io. pose proof (kept_wake_io e id s H). destruct (wake_io_thread_locked e id s). cbn [fst] in *. kept.
Qed.
Lemma kept_wake_dedicated e id s : P s → P (wake_dedicated e id s).
Proof using FP.
  intros H. unfold wake_dedicated. cbv zeta.
  assert (P (enqueue_woken e id (get_thread_mut id set_ready s)).1) as Hq by kept.
  destruct (enqueue_woken e id _) as [s1 q]; cbn [fst] in *. kept.
Qed.
#[local] Hint Resolve kept_unblock_for_io kept_wake_dedicated : frame.

Lemma kept_buffer e id s : P s → P (buffer_isr_wakeup e id s).1.
Proof using FP.
  intros H. unfold buffer_isr_wakeup. destruct (ISR_WAKEUP_BUFFERS s !! e_cpu e); [|done].
  destruct (IsrWakeupBuffer_push id l) as [[] ?]; cbn [fst]; kept. destruct (negb _); [|done].
  pose proof (kept_unblock e id s H). by destruct (unblock e id s).
Qed.
Lemma kept_drain_isr e s : P s → P (drain_isr_wakeups e s).
Proof using FP. intros H. unfold drain_isr_wakeups. cbv zeta. apply kept_foldl; [eauto with frame|kept]. Qed.

Lemma kept_observe pid s : P s → P (observe_exit_kick pid s).2.
Proof using FP. intros H. unfold observe_exit_kick. cbn [is_aarch64 target_arch aarch64]. destruct (observe pid _); cbn [snd]; kept. Qed.

Lemma kept_popping s s' : popping s s' → timer_heap (scheduler s') = timer_heap (scheduler s) → P s → P s'.
Proof using FP. intros V Hh. apply fr_same; [apply V|done]. Qed.

Lemma kept_pop_candidates n c s : P s → P (pop_candidates n c s).2.
Proof using FP.
  revert s. induction n as [|n IH]; intros s H; [done|]. cbn [pop_candidates]. destruct (queue s c) as [|id rest]; [done|].
  cbv zeta. assert (P (on_queue c (λ _, rest) s)) as H1 by kept. generalize dependent (on_queue c (λ _, rest) s). intros s1 H1.
  destruct (terminated_owner s1 id) as [[pid|]|]; [|by apply IH|done].
  pose proof (kept_observe pid s1 H1). destruct (observe_exit_kick pid s1) as [[] s2]; cbn [snd] in *; apply IH; kept.
Qed.

Lemma kept_pick_next e s : P s → P (pick_next e s).2.
Proof using FP.
  intros H. unfold pick_next. assert (P (pop_queues (steal_order (e_cpu e)) s).2) as H1.
  { generalize (steal_order (e_cpu e)). intros l. revert s H. induction l as [|c l IH]; intros s H; [done|].
    rewrite pop_queues_cons. pose proof (kept_pop_candidates (length (queue s c)) c s H).
    destruct (pop_candidates _ c s) as [[id|] s1]; [done|]. by apply IH. }
  by destruct (pop_queues _ s).
Qed.

Lemma kept_pop_first l s : P s → P (pop_first l s).2.
Proof using FP. intros H. induction l as [|c l IH]; [done|]. cbn. destruct (queue s c); [done|]. cbn [snd]. kept. Qed.

Lemma kept_reclaim_queues e s : P s → P (reclaim_unschedulable_cpu_queues e s).
Proof using FP. intros H. apply kept_foldl; [|done]. clear s H. intros s c H. unfold reclaim_cpu_queue. cbv zeta. kept. Qed.

Lemma kept_resolve_pending e c s : P s → P (resolve_pending_next_locked e c s).
Proof using FP. intros H. unfold resolve_pending_next_locked. kept. Qed.
Ltac kept_known ::=
  first [apply kept_resched_ipi|apply kept_resched_ipi_to|apply kept_enqueue|apply kept_drain_isr|apply kept_reclaim_queues
        |apply kept_resolve_pending].

Lemma kept_prepare e s : P s → P (prepare_decision e s).
Proof using FP. intros H. unfold prepare_decision. cbv zeta. kept. Qed.

Lemma kept_requeue e id s : P s → P (requeue_thread_after_save e id s).
Proof using FP. intros H. unfold requeue_thread_after_save, requeue_saved. kept. Qed.

Ltac kept_known ::=
  first [apply kept_resched_ipi|apply kept_resched_ipi_to|apply kept_enqueue|apply kept_drain_isr|apply kept_reclaim_queues
        |apply kept_resolve_pending|apply kept_prepare|apply kept_requeue|apply fr_expired].

(** ** The switches *)

Lemma kept_defer e s : P s → P (defer_current e s).2.
Proof using FP.
  intros H. unfold defer_current. cbv zeta. destruct (current s (e_cpu e)) as [id|]; [|done]. case_match; [done|].
  destruct (get_thread s id) as [t|]; [|done]. case_match.
  { destruct (t_owner_pid t); [by apply kept_observe|done]. }
  case_match; [done|]. cbn [snd]. kept.
Qed.

Lemma kept_deferred_same e n r s : P s → P (deferred_same e n r s).2.
Proof using FP.
  intros H. unfold deferred_same. cbv zeta. case_match; [done|]. case_match.
  { pose proof (kept_pop_first (steal_order (e_cpu e)) s H). by destruct (pop_first _ s) as [[]]. }
  case_match; [|done]. case_match; cbn [snd]; kept.
Qed.

Lemma kept_decision e s : P s → P (schedule_deferred_requeue e s).2.
Proof using FP.
  intros H. unfold schedule_deferred_requeue. cbv zeta. pose proof (kept_defer e _ (kept_prepare e s H)) as H1.
  destruct (defer_current e _) as [rq s1]. cbn [snd] in H1.
  pose proof (kept_pick_next e _ (fr_expired e s1 H1)) as H2. destruct (pick_next e _) as [n s2]. cbn [snd] in H2.
  pose proof (kept_deferred_same e n rq s2 H2) as H3. destruct (deferred_same e n rq s2) as [[[n' rq']|] s3]; [|done].
  cbn [snd] in *. unfold publish_choice. cbv zeta. cbn [snd]. kept.
Qed.

Lemma kept_dispatch w id s : P s → P (dispatch_thread_locked w id s).
Proof using FP. intros H. unfold dispatch_thread_locked. kept. Qed.
Ltac kept_known ::=
  first [apply kept_resched_ipi|apply kept_resched_ipi_to|apply kept_enqueue|apply kept_drain_isr|apply kept_reclaim_queues
        |apply kept_resolve_pending|apply kept_prepare|apply kept_requeue|apply fr_expired|apply kept_dispatch].

Lemma kept_drain_deferred e id s : P s → P (drain_deferred e id s).
Proof using FP. intros H. unfold drain_deferred. kept. Qed.

Lemma kept_trampoline w old new r s : P s → P (inline_schedule_trampoline w old new r s).
Proof using FP. intros H. unfold inline_schedule_trampoline. kept. Qed.

Lemma kept_irq_switch w old new s : P s → P (irq_switch_to w old new s).
Proof using FP. intros H. unfold irq_switch_to, swap_deferred. cbv zeta. kept. Qed.

Lemma kept_fix_eret w s : P s → P (fix_eret_cpu_state_locked w s).
Proof using FP. intros H. unfold fix_eret_cpu_state_locked. kept. Qed.

Lemma kept_resolve_previous e c s : P s → P (resolve_exception_cleanup_previous_thread e c s).
Proof using FP. intros H. unfold resolve_exception_cleanup_previous_thread. kept. Qed.

Ltac kept_known ::=
  first [apply kept_resched_ipi|apply kept_resched_ipi_to|apply kept_enqueue|apply kept_drain_isr|apply kept_reclaim_queues
        |apply kept_resolve_pending|apply kept_prepare|apply kept_requeue|apply fr_expired|apply kept_dispatch
        |apply kept_drain_deferred|apply kept_trampoline|apply kept_irq_switch|apply kept_fix_eret|apply kept_resolve_previous].

Lemma kept_irq_locked w need d s : P s → P (irq_locked w need d s).
Proof using FP.
  intros H. unfold irq_locked, fix_exception_cleanup_cpu_state. cbv zeta. set (s1 := drain_deferred _ _ _).
  assert (P s1) as H1 by (unfold s1; kept). clearbody s1. case_match; [kept|]. set (s2 := if sw_from_el0 w && _ then _ else s1).
  assert (P s2) as H2 by (unfold s2, fix_stale_idle_cpu_state; kept). clearbody s2.
  pose proof (kept_decision (sw_env w) s2 H2) as H3. destruct (schedule_deferred_requeue _ s2) as [[[[old new] r]|] s3]; cbn [snd] in H3; kept.
Qed.

Lemma kept_irq w s : P s → P (check_need_resched_and_switch_arm64 w s).
Proof using FP.
  intros H. unfold check_need_resched_and_switch_arm64, swap_deferred, check_and_clear_need_resched. cbv zeta.
  case_match; [done|]. set (s1 := if _ =? 0 then _ else _). assert (P s1) as H1 by (unfold s1; kept). clearbody s1.
  case_match; [done|]. case_match; [kept|]. apply kept_irq_locked. kept.
Qed.

Lemma kept_from_kernel w s : P s → P (schedule_from_kernel w s).
Proof using FP.
  intros H. unfold schedule_from_kernel, swap_deferred. cbv zeta. set (s1 := match sw_thread_ptr w with Some _ => _ | None => _ end).
  assert (P s1) as H1 by (unfold s1, fix_stale_idle_cpu_state, fix_stale_current_thread_when_idle_executing; kept). clearbody s1.
  pose proof (kept_decision (sw_env w) s1 H1) as H2. destruct (schedule_deferred_requeue _ s1) as [[[[old new] r]|] s3]; cbn [snd] in H2; kept.
Qed.

Lemma kept_exit w id s s' : P s → schedule_terminated_from_exit w id s = Some s' → P s'.
Proof using FP.
  intros H. unfold schedule_terminated_from_exit. destruct (get_thread s id); [|done]. cbv zeta.
  set (s1 := remove_from_ready_queue _ _). assert (P s1) as H1 by (unfold s1; kept). clearbody s1.
  pose proof (kept_decision (sw_env w) s1 H1) as H2. destruct (schedule_deferred_requeue _ s1) as [[[[old new] r]|] s3]; cbn [snd] in H2; [|done].
  case_match; [done|]. case_match; [done|]. intros [= <-]. kept.
Qed.

(** ** Every step *)

Lemma kept_wakes_thread e s s' : wakes_thread e s s' → P s → P s'.
Proof using FP.
  intros W H. destruct W.
  - by apply kept_unblock.
  - by apply kept_wake_io.
  - by apply kept_unblock_for_io.
  - unfold unblock_for_signal. destruct (get_thread s id) as [t|]; [|done].
    destruct (t_state t); try done; [by apply kept_wake_dedicated|by apply kept_unblock_for_io].
  - unfold unblock_for_child_exit. destruct (get_thread s id) as [t|]; [|done]. destruct (t_state t); try done.
    by apply kept_wake_dedicated.
  - by apply fr_expired.
  - unfold isr_unblock_for_io. kept_step. by apply kept_buffer.
  - unfold wake_thread_any_context. case_match.
    + pose proof (kept_buffer e id s H). destruct (buffer_isr_wakeup e id s) as [s1 []]; cbn [fst] in *; kept.
    + pose proof (kept_unblock e id s H). destruct (unblock e id s) as [s1 []]; cbn [fst] in *; kept.
Qed.

Lemma kept_spawn e t front s :
  t_id t ∉ (t_id <$> threads (scheduler s)) → t_state t = Ready → P s → P (spawn_with (add_thread_inner e t front) e s).
Proof using FP.
  intros Hf Hst H. unfold spawn_with, add_thread_inner. cbn [is_aarch64 target_arch aarch64]. cbv zeta. kept.
  apply fr_add; auto.
Qed.

Lemma kept_terminate e pid s : P s → P (terminate_process_threads e pid s).
Proof using FP.
  intros H. apply kept_foldl; [|done]. clear s H. intros s i H. unfold terminate_at.
  destruct (threads (scheduler s) !! i) as [t|] eqn:Hi; [|done]. case_match; [|done]. cbv zeta. set (s1 := set_threads _ s).
  assert (P s1); [|kept]. unfold s1. rewrite <- (update_thread_insert set_terminated _ i t) by (apply (fr_ids _ H) || done).
  by apply (fr_update (t_id t)); [apply calm_terminated|].
Qed.

Lemma kept_kick e pid at_ s : P s → P (send_exit_expedite_sgi e pid at_ s).
Proof using FP.
  intros H. unfold send_exit_expedite_sgi. cbn [is_aarch64 target_arch aarch64]. cbv zeta. apply kept_foldl; [|kept].
  clear s H. intros s c H. kept.
Qed.

(** A framed property is kept by every step but, perhaps, a blocking one. *)
Lemma step_kept s s' :
  step s s' → (∀ e, may_block e s → blocks_current e s s' → P s') → P s → P s'.
Proof using FP.
  intros Hstep Hb H. destruct Hstep.
  - by eapply kept_wakes_thread.
  - by eapply Hb.
  - unfold finish_current_wait. destruct (current s (e_cpu e)); [|done]. kept.
  - apply kept_spawn; [|done|done]. by destruct H1 as (_ & ? & _).
  - apply kept_spawn; [|done|done]. by destruct H1 as (_ & ? & _).
  - unfold register_idle_thread. case_match; [done|]. cbv zeta. kept. destruct H2 as (_ & Hf & _). apply fr_add; auto.
  - by apply kept_terminate.
  - by apply kept_kick.
  - by apply fr_reclaim.
  - kept.
  - unfold terminate_thread_best_effort. kept.
  - unfold switch_to_idle_best_effort, switch_to_idle. kept.
  - by apply kept_irq.
  - by apply kept_from_kernel.
  - by eapply kept_exit.
Qed.

End frame.
