(* ===== verification/SchedPick.v ===== *)
(** Which thread the scheduler chooses: the first thread of the ready queues, in
    the order they are searched, that is not terminated; the idle thread only if
    there is none. *)

From S2P Require Import Prelude Sched SchedSwitch SchedInv SchedSmp SchedRun SchedSafe.

(** * The choice *)

Definition dispatchable (s : System) (id : u64) : bool := bool_decide (terminated_owner s id = None).

(** The reference: search the queues of the CPUs in order. *)
Definition first_dispatchable (s : System) (cpus : list nat) : option u64 :=
  List.find (dispatchable s) (concat (queue s <$> cpus)).

Lemma find_app {A} (p : A → bool) l1 l2 :
  List.find p (l1 ++ l2) = match List.find p l1 with Some x => Some x | None => List.find p l2 end.
Proof. induction l1 as [|x l1 IH]; [done|]. cbn. by destruct (p x). Qed.

Lemma find_ext_elem {A} (p q : A → bool) l : (∀ x, x ∈ l → p x = q x) → List.find p l = List.find q l.
Proof.
  induction l as [|x l IH]; intros H; [done|]. cbn. rewrite (H x) by (by left). case_match; [done|].
  apply IH. intros y Hy. apply H. by right.
Qed.

Lemma observe_queues pid s : per_cpu_queues (scheduler (observe_exit_kick pid s).2) = per_cpu_queues (scheduler s).
Proof. unfold observe_exit_kick. cbn. by repeat case_match. Qed.

Lemma popping_dispatchable s s' id : popping s s' → dispatchable s' id = dispatchable s id.
Proof. intros P. unfold dispatchable. by rewrite (popping_owner _ _ _ P). Qed.

(** Searching one queue: the first [n] entries [l] are examined; what was put
    back behind them is terminated. *)
Lemma pop_candidates_exact n c s l back :
  shape s → queue s c = l ++ back → length l = n →
  let r := pop_candidates n c s in
  r.1 = List.find (dispatchable s) l ∧ popping s r.2 ∧ shape r.2 ∧ ∀ c', c' ≠ c → queue r.2 c' = queue s c'.
Proof.
  revert s l back. induction n as [|n IH]; intros s l back Hsh Hq Hn; [by destruct l|].
  destruct l as [|id l]; [done|]. injection Hn as Hn. cbn [pop_candidates]. rewrite Hq. cbn [app].
  set (s1 := on_queue c (λ _, l ++ back) s). change (terminated_owner s1 id) with (terminated_owner s id).
  assert (c < MAX_CPUS)%nat as Hc.
  { destruct (decide (c < MAX_CPUS)%nat); [done|]. rewrite queue_beyond in Hq by (done || lia). done. }
  assert (∀ c', queue s1 c' = if decide (c' = c) then l ++ back else queue s c') as Hq1.
  { intros c'. unfold s1. by rewrite queue_on_queue. }
  assert (shape s1) as Hsh1 by by apply shape_on_queue. assert (popping s s1) as P1 by done.
  assert (∀ s2 back', shape s2 → popping s s2 → (∀ c', queue s2 c' = if decide (c' = c) then l ++ back' else queue s c') →
    let r := pop_candidates n c s2 in
    r.1 = List.find (dispatchable s) l ∧ popping s r.2 ∧ shape r.2 ∧ ∀ c', c' ≠ c → queue r.2 c' = queue s c') as Hgo.
  { intros s2 back' Hs2 P2 Hq2. destruct (IH s2 l back') as (E & P3 & ? & Hr); [done|by rewrite Hq2, decide_True|done|].
    split_and!; [|by etrans|done|by intros c' ?; rewrite Hr, Hq2, decide_False].
    rewrite E. apply find_ext_elem. intros x _. by apply popping_dispatchable. }
  cbn [List.find]. unfold dispatchable at 1. destruct (terminated_owner s id) as [[pid|]|] eqn:Ho; cbn [bool_decide].
  - rewrite bool_decide_false by done. pose proof (observe_popping pid s1) as P2. pose proof (observe_queues pid s1) as Hpq.
    pose proof (veq_shape _ _ (veq_observe pid s1 s1 (veq_refl _)) Hsh1) as Hsh2.
    destruct (observe_exit_kick pid s1) as [[] s2]; cbn [snd] in *.
    + apply (Hgo s2 back); [done|by etrans|]. intros c'. unfold queue. rewrite Hpq. apply Hq1.
    + apply (Hgo (push_back c id s2) (back ++ [id])); [by apply shape_on_queue|etrans; [exact P1|]; etrans; [exact P2|done]|].
      intros c'. unfold push_back. rewrite queue_on_queue by done. unfold queue. rewrite Hpq. fold (queue s1 c').
      fold (queue s1 c). rewrite !Hq1. repeat case_decide; try done. by rewrite <- app_assoc.
  - rewrite bool_decide_false by done. by apply (Hgo s1 back).
  - rewrite bool_decide_true by done. cbn. split_and!; [done..|]. intros c' Hne. by rewrite Hq1, decide_False.
Qed.

Lemma pop_queues_exact l s :
  shape s → NoDup l → (pop_queues l s).1 = first_dispatchable s l ∧ popping s (pop_queues l s).2.
Proof.
  unfold first_dispatchable. revert s. induction l as [|c l IH]; intros s Hsh Hnd; [done|].
  apply NoDup_cons in Hnd as [Hc Hnd]. rewrite pop_queues_cons. cbn [fmap list_fmap concat]. rewrite find_app.
  destruct (pop_candidates_exact _ c s (queue s c) [] Hsh (eq_sym (app_nil_r _)) eq_refl) as (E & P & Hsh' & Hq).
  destruct (pop_candidates (length (queue s c)) c s) as [[id|] s']; cbn [fst snd] in *; rewrite <- E; [done|].
  destruct (IH s' Hsh' Hnd) as [-> P']. split; [|by etrans]. assert (queue s' <$> l = queue s <$> l) as ->.
  { apply list_fmap_ext. intros i c' Hi. apply Hq. intros ->. apply Hc. by eapply list_elem_of_lookup_2. }
  apply find_ext_elem. intros x _. by apply popping_dispatchable.
Qed.

Lemma steal_order_nodup c : NoDup (steal_order c).
Proof.
  unfold steal_order. constructor; [|apply NoDup_filter, NoDup_seq]. by intros [? _]%list_elem_of_filter.
Qed.

(** the search of the ready queues returns exactly the first thread that is
    not terminated, in the CPU's own queue and then in the others by number, and
    the CPU's idle thread only if every queued thread is terminated. *)
Theorem pick_next_exact e s :
  shape s → (pick_next e s).1 = default (idle s (e_cpu e)) (first_dispatchable s (steal_order (e_cpu e))).
Proof.
  intros Hsh. unfold pick_next. destruct (pop_queues_exact (steal_order (e_cpu e)) s Hsh (steal_order_nodup _)) as [<- P].
  destruct (pop_queues (steal_order (e_cpu e)) s) as [[id|] s']; [done|]. by apply (popping_same_cpu (e_cpu e)).
Qed.

(** * No CPU idles while a thread waits *)

(** A queued thread that may run. *)
Definition live (s : System) (id : u64) : Prop := id ∈ all_queued s ∧ ¬ killed s id.

Lemma live_veq s s' id : veq s s' → live s id → live s' id.
Proof.
  intros V [Hq Hk]. split; [by rewrite (veq_queues _ _ V)|]. unfold killed, get_state, get_thread in *.
  by rewrite (veq_threads _ _ V).
Qed.

Lemma live_waking s s' id : waking s s' → live s id → live s' id.
Proof.
  intros W [Hq Hk]. split; [by apply (wk_queued _ _ W)|]. unfold killed, get_state. intros Hd. apply Hk.
  destruct (get_thread s' id) as [t|] eqn:Ht; [|done]. injection Hd as Hd.
  destruct (wk_terminated _ _ W id t Ht Hd) as [E _]. unfold killed, get_state. rewrite E. cbn. by rewrite Hd.
Qed.

Lemma live_dispatchable s id : live s id → dispatchable s id = true.
Proof.
  intros [_ Hk]. unfold dispatchable, terminated_owner. apply bool_decide_true. unfold killed, get_state in Hk.
  destruct (get_thread s id) as [t|]; [|done]. unfold is_terminated. case_bool_decide as E; [|done].
  destruct Hk. cbn. by rewrite E.
Qed.

Lemma prepare_live e s id :
  inv None [] s → (e_cpu e < MAX_CPUS)%nat → live s id → live (prepare_decision e s) id.
Proof.
  intros Hinv He Hl. unfold prepare_decision. pose proof (inv_shape _ _ _ Hinv) as Hsh.
  set (s1 := on_cpu _ _ s). assert (veq s s1) as V1 by (apply veq_on_cpu; [done|by intros []|reflexivity]).
  set (s2 := reclaim_unschedulable_cpu_queues e s1).
  assert (veq s s2) as V2 by (etrans; [exact V1|]; apply veq_reclaim_queues; [done|by apply V1]).
  assert (resolve_pending_next_locked e (e_cpu e) s2 = s2) as ->.
  { unfold resolve_pending_next_locked. by rewrite (veq_pending _ _ V2), (inv_pending _ _ _ Hinv). }
  set (s4 := set_cpu_idle _ _ _). assert (veq s s4) as V4 by (unfold s4, set_cpu_idle; auto with sched).
  eapply live_waking; [apply (drain_isr_wakes e He None s4); by eapply veq_inv|by eapply live_veq].
Qed.

Lemma defer_live e s id : live s id → live (defer_current e s).2 id.
Proof.
  intros Hl. unfold defer_current. destruct (current s (e_cpu e)) as [x|]; [|done]. case_match; [done|].
  destruct (get_thread s x) as [t|] eqn:Ht; [|done]. case_match eqn:Hterm.
  { destruct (t_owner_pid t); [|done]. by eapply live_veq; [apply veq_observe|]. }
  case_match; [done|]. cbn [snd]. set (s1 := if negb _ then _ else s).
  assert (live s1 id) as [Hq Hk] by (unfold s1; by case_match). assert (get_thread s1 x = Some t) as Ht1 by (unfold s1; by case_match).
  split; [done|]. intros Hd. apply Hk. revert Hd. unfold killed, get_state. set (f := λ t, _).
  rewrite get_thread_update by (intros u; unfold f; by rewrite set_ready_keeps). case_decide; [subst|done].
  rewrite Ht1. cbn. intros [= E]. exfalso. revert E. unfold f, set_ready. cbn.
  unfold is_terminated in Hterm. rewrite Hterm. done.
Qed.

Lemma pick_live e s id :
  inv (Some (e_cpu e)) [] s → is_Some (current s (e_cpu e)) → (e_cpu e < MAX_CPUS)%nat → live s id →
  in_hand (pick_next e s).2 (pick_next e s).1.
Proof.
  intros Hinv Hcur He Hl. pose proof (inv_shape _ _ _ Hinv) as Hsh.
  destruct (pick_next_spec e He s Hinv Hcur) as [P [(E & _ & _)|[_ ?]]]; [|done]. exfalso. revert E.
  unfold pick_next. destruct (pop_queues_exact (steal_order (e_cpu e)) s Hsh (steal_order_nodup _)) as [F _].
  assert (is_Some (first_dispatchable s (steal_order (e_cpu e)))) as [n Hn].
  { destruct (first_dispatchable s _) as [n|] eqn:Hnone; [by eexists|]. unfold first_dispatchable in Hnone.
    exfalso. assert (id ∈ concat (queue s <$> steal_order (e_cpu e))) as Hin%list_elem_of_In.
    { destruct Hl as [Hq _]. unfold all_queued in Hq. apply elem_of_concat in Hq as (q & Hq & Hx). apply elem_of_concat.
      exists q. split; [|done]. apply list_elem_of_lookup_1 in Hq as [i Hi]. apply list_elem_of_fmap.
      exists i. split; [unfold queue; by rewrite Hi|]. apply steal_order_all. rewrite <- (shape_queues _ Hsh).
      by eapply lookup_lt_Some. }
    pose proof (List.find_none _ _ Hnone id Hin) as X. by rewrite (live_dispatchable _ _ Hl) in X. }
  rewrite Hn in F. destruct (pop_queues _ s) as [found s']. cbn [fst] in *. subst found. cbn [fst default from_option]. intros E.
  apply List.find_some in Hn as [Hin _]. apply list_elem_of_In, elem_of_concat in Hin as (q & Hq & Hx).
  apply list_elem_of_fmap in Hq as (c' & -> & _). apply (elem_of_queue s c' n Hsh) in Hx.
  destruct (ok_idle_queue _ _ _ _ (inv_thread _ _ _ Hinv n)) as [? _]; [|done]. by exists (e_cpu e).
Qed.

(** The decision with a thread waiting: a thread that is not an idle one is
    chosen. *)
Lemma decision_live e s x id :
  inv None [] s → (e_cpu e < MAX_CPUS)%nat → current s (e_cpu e) = Some x → live s id →
  ∃ n r s', schedule_deferred_requeue e s = (Some (x, n, r), s') ∧ n ≠ idle s (e_cpu e) ∧ get_state s' n = Some Running.
Proof.
  intros Hinv He Hcur Hl. destruct (prepare_spec e He s Hinv) as (Hinv1 & S1 & _).
  pose proof (prepare_live e s id Hinv He Hl) as Hl1.
  unfold schedule_deferred_requeue. generalize dependent (prepare_decision e s). intros s1 Hinv1 S1 Hl1.
  assert (current s1 (e_cpu e) = Some x) as Hcur1 by (by rewrite (sc_current _ _ _ S1)).
  destruct (defer_current_spec e He s1 x Hinv1 Hcur1) as (Hinv2 & S2 & _ & _). pose proof (defer_live e s1 id Hl1) as Hl2.
  destruct (defer_current e s1) as [rq s2]. cbn [snd] in *.
  destruct (wake_expired_wakes e He (Some (e_cpu e)) s2 Hinv2) as [Hinv3 W3]. pose proof (live_waking _ _ _ W3 Hl2) as Hl3.
  generalize dependent (wake_expired_timers e s2). intros s3 Hinv3 W3 Hl3.
  assert (same_cpu (e_cpu e) s s3) as S3 by (etrans; [exact S1|]; etrans; [exact S2|by apply waking_same_cpu]).
  assert (is_Some (current s3 (e_cpu e))) as Hb by (rewrite (sc_current _ _ _ S3); by rewrite Hcur).
  pose proof (pick_live e s3 id Hinv3 Hb He Hl3) as [Hst Hnr _ _ Hni].
  destruct (pick_next_spec e He s3 Hinv3 Hb) as [P4 _]. destruct (pick_next e s3) as [n s4]. cbn [fst snd] in *.
  assert (same_cpu (e_cpu e) s s4) as S4 by (etrans; [exact S3|by apply popping_same_cpu]).
  assert (current s4 (e_cpu e) = Some x) as Hcur4 by (by rewrite (sc_current _ _ _ S4)).
  unfold deferred_same. rewrite Hcur4. unfold opt_is. rewrite bool_decide_false by (intros [= ->]; apply Hnr; by exists (e_cpu e)).
  cbn [negb]. unfold publish_choice. rewrite Hcur4. cbn [default from_option Datatypes.id]. eexists n, rq, _. split; [done|]. split.
  - intros ->. apply Hni. exists (e_cpu e). split; [done|]. apply S4.
  - unfold get_state in *. set (f := λ t, _).
    match goal with |- t_state <$> get_thread ?y n = _ => change (get_thread y n) with (get_thread (get_thread_mut n f s4) n) end.
    rewrite get_thread_update, decide_True by done. by destruct (get_thread s4 n).
Qed.

Lemma live_push c id s x : live s x → live (push_back c id s) x.
Proof. intros [Hq Hk]. split; [by apply elem_of_push_old|done]. Qed.

Lemma requeue_queued e id s x : x ∈ all_queued s → x ∈ all_queued (requeue_thread_after_save e id s).
Proof.
  intros Hq. unfold requeue_thread_after_save. case_match; [done|]. set (s1 := if opt_is _ _ then _ else s).
  assert (x ∈ all_queued s1) as Hq1 by (unfold s1; by case_match). clearbody s1.
  case_match; [done|]. case_match; [done|]. unfold requeue_saved.
  destruct (get_state s1 id) as [[]|]; try done; (case_match; [done|]; case_match; [done|]);
    rewrite (veq_queues (push_back _ id _)) by (apply veq_send_resched_ipi; reflexivity); apply elem_of_push_old;
    by case_match.
Qed.

Lemma live_steady s s' id : steady s s' → (id ∈ all_queued s → id ∈ all_queued s') → live s id → live s' id.
Proof.
  intros S Hin [Hq Hk]. split; [auto|]. intros Hd. apply Hk. unfold killed, get_state in *.
  destruct (get_thread s' id) as [t|] eqn:Ht; [|done]. injection Hd as Hd.
  destruct (st_terminated _ _ S id (t_owner_pid t)) as [_ Ho]; [auto|unfold terminated_owner; rewrite Ht; by unfold is_terminated; rewrite Hd|].
  unfold terminated_owner in Ho. destruct (get_thread s id) as [u|]; [|done]. unfold is_terminated in Ho.
  case_bool_decide as E; [|done]. cbn. by rewrite E.
Qed.

Lemma drain_live w s id :
  inv None [] s → switch_ok w s → sw_cleanup w = false → live s id →
  live (drain_deferred (sw_env w) (slot s (e_cpu (sw_env w))) (swap_deferred (e_cpu (sw_env w)) 0 s).2) id.
Proof.
  intros Hinv Hok Hcl Hl. destruct (from_kernel_start w s Hinv Hok Hcl) as (_ & S & _).
  eapply live_steady; [exact S| |exact Hl]. intros Hq. unfold drain_deferred. case_match; [done|]. by apply requeue_queued.
Qed.

(** C9: no CPU idles while a thread waits: if some ready queue, of whichever
    CPU, holds a thread that is not terminated, a CPU that asks for the next
    thread runs a thread other than its idle thread, provided the thread it
    chooses can be entered. *)
Theorem work_conserving w s id :
  reachable s → switch_ok w s → sw_cleanup w = false →
  (∀ x, current s (e_cpu (sw_env w)) = Some x → is_Some (get_thread s x)) →
  sw_dispatch w = Resumed ∨ sw_dispatch w = Entered →
  id ∈ all_queued s → get_state s id ≠ Some Terminated →
  ∃ n, n ≠ idle s (e_cpu (sw_env w)) ∧ current (schedule_from_kernel w s) (e_cpu (sw_env w)) = Some n
    ∧ get_state (schedule_from_kernel w s) n = Some Running.
Proof.
  intros Hinv%reachable_inv Hok Hcl Hex Hd Hq Hk.
  destruct (from_kernel_start w s Hinv Hok Hcl) as (Hinv2 & S2 & _ & _ & Hk2 & ->).
  pose proof (drain_live w s id Hinv Hok Hcl (conj Hq Hk)) as Hl. destruct Hok as [Hc [x Hx] _ _ _].
  set (c := e_cpu (sw_env w)) in *. set (s2 := drain_deferred _ _ _) in *.
  assert (current s2 c = Some x) as Hx2 by (rewrite (st_current _ _ S2); exact Hx).
  assert (idle s2 c = idle s c) as Hi2 by (by rewrite (st_idle _ _ S2)).
  destruct (decision_live (sw_env w) s2 x id Hinv2 Hc Hx2 Hl) as (n & r & s4 & E & Hn & _).
  pose proof (schedule_decides (sw_env w) Hc s2 x Hinv2 Hx2 (Hk2 x Hx)) as HD. rewrite E in HD |- *. destruct HD as [_ D].
  rewrite (proj2 (Z.eqb_neq _ _)) by apply D. exists n. fold c in Hn. rewrite <- Hi2. split; [done|].
  assert (is_Some (get_thread s4 x)) as [t ->].
  { apply not_eq_None_Some. intros Ex. apply find_thread_None in Ex. rewrite (dc_ids _ _ _ _ _ D), (st_ids _ _ S2) in Ex.
    destruct (Hex x Hx) as [t Ht]. apply find_thread_None in Ex. unfold get_thread in Ht. cbn in Ex. congruence. }
  apply (trampoline_enters w Hc s2 s4 x n D); [|done]. fold c. by rewrite (dc_idle _ _ _ _ _ D).
Qed.

Lemma work_conserving_witness :
  ∃ n, n ≠ idle sample_spawned 0 ∧ current (schedule_from_kernel (sample_switch 0 None) sample_spawned) 0 = Some n
    ∧ get_state (schedule_from_kernel (sample_switch 0 None) sample_spawned) n = Some Running.
Proof.
  apply (work_conserving (sample_switch 0 None) sample_spawned 3).
  - apply sample_spawned_reachable.
  - apply (switch_check _ _ 1); [vm_compute; reflexivity..|left; vm_compute; reflexivity].
  - vm_compute; reflexivity.
  - intros x Hx. vm_compute in Hx. injection Hx as <-. vm_compute. eexists; reflexivity.
  - right. vm_compute; reflexivity.
  - apply list_elem_of_lookup_2 with 0%nat. vm_compute; reflexivity.
  - vm_compute; discriminate.
Defined.

Lemma pick_next_exact_witness : (pick_next (sample_env 1) sample_killed).1 = 2.
Proof.
  rewrite (pick_next_exact (sample_env 1) sample_killed).
  - vm_compute; reflexivity.
  - split; vm_compute; reflexivity.
Defined.
