(* ===== verification/SchedTimer.v ===== *)
(** Timed waits: the timer heap is sorted and holds an entry for the deadline of
    every thread that sleeps with one, in every reachable state; so after
    [wake_expired_timers] no thread sleeps past its deadline. *)

From Stdlib Require Import Sorted.
From S2P Require Import Prelude Sched SchedSwitch WaitQueue SchedInv SchedSmp SchedRun SchedSafe SchedFrame.

Record timers_ok (s : System) : Prop := {
  tm_ids : NoDup (t_id <$> threads (scheduler s));
  tm_sorted : StronglySorted entry_le (timer_heap (scheduler s));
  tm_covered : ∀ t w, t ∈ threads (scheduler s) → is_timed_wait t = true → t_wake_time_ns t = Some w →
    (w, t_id t) ∈ timer_heap (scheduler s);
}.

(** ** The heap *)

Lemma entry_le_trans a b c : entry_le a b → entry_le b c → entry_le a c.
Proof. unfold entry_le. rewrite !Is_true_true, !orb_true_iff, !andb_true_iff, !Z.ltb_lt, !Z.eqb_eq, !Z.leb_le. lia. Qed.

Lemma entry_le_total a b : entry_le a b = false → entry_le b a.
Proof.
  unfold entry_le. rewrite Is_true_true, orb_false_iff, orb_true_iff, !andb_true_iff, andb_false_iff, !Z.ltb_lt, !Z.eqb_eq, !Z.leb_le.
  rewrite Z.ltb_ge, Z.eqb_neq, Z.leb_gt. lia.
Qed.

Lemma elem_of_heap_push x y h : y ∈ heap_push x h ↔ y = x ∨ y ∈ h.
Proof.
  induction h as [|z h IH]; cbn; [by rewrite list_elem_of_singleton, elem_of_nil; naive_solver|].
  case_match; rewrite ?elem_of_cons, ?IH; [|]; set_solver.
Qed.

Lemma heap_push_sorted x h : StronglySorted entry_le h → StronglySorted entry_le (heap_push x h).
Proof.
  induction 1 as [|y h Hs IH Hy]; cbn; [by repeat constructor|]. case_match eqn:E.
  - constructor; [by constructor|]. constructor; [by rewrite E|].
    eapply Forall_impl; [exact Hy|]. intros z Hz. eapply entry_le_trans; [|exact Hz]. by rewrite E.
  - constructor; [done|]. apply Forall_forall. intros z [->|Hz]%elem_of_heap_push; [by apply entry_le_total|].
    by eapply Forall_forall in Hy.
Qed.

(** ** The threads *)

Lemma tm_same s s' :
  threads (scheduler s') = threads (scheduler s) → timer_heap (scheduler s') = timer_heap (scheduler s) →
  timers_ok s → timers_ok s'.
Proof. intros Ht Hh [I A B]. split; rewrite ?Hh, ?Ht; done. Qed.

Lemma tm_remove id s : timers_ok s → timers_ok (remove_from_ready_queue id s).
Proof. by apply tm_same. Qed.

Lemma tm_update id f s :
  (∀ t, t_id (f t) = t_id t ∧
     (is_timed_wait (f t) = true → is_timed_wait t = true ∧ t_wake_time_ns (f t) = t_wake_time_ns t)) →
  timers_ok s → timers_ok (get_thread_mut id f s).
Proof.
  intros Hf [I A B]. split; [cbn; by rewrite update_thread_ids by (intros ?; apply Hf)|done|]. intros t w [Ht|(u & Hu & _ & ->)]%elem_of_update; [by apply B|].
  destruct (Hf u) as [Hid Hw]. intros Htw%Hw Hwk. cbn. rewrite Hid. apply B; [done|apply Htw|]. by destruct Htw as [_ <-].
Qed.

Lemma tm_add t s :
  t_id t ∉ (t_id <$> threads (scheduler s)) → t_state t = Ready ∨ t_state t = Running → timers_ok s →
  timers_ok (set_threads (threads (scheduler s) ++ [t]) s).
Proof.
  intros Hf Hw [I A B]. split; [|done|].
  - cbn. rewrite fmap_app. apply NoDup_app. split; [done|]. split; [|apply NoDup_singleton].
    intros x Hx ->%list_elem_of_singleton. done.
  - cbn. intros u w [Hu| ->%list_elem_of_singleton]%elem_of_app; [by apply B|]. unfold is_timed_wait.
    by destruct Hw as [-> | ->].
Qed.

Lemma tm_reclaim e s : timers_ok s → timers_ok (reclaim_terminated_threads e s).2.
Proof.
  intros [I A B]. split; cbn; [by apply nodup_filter_ids|done|]. intros t w [_ Ht]%list_elem_of_filter. by apply B.
Qed.

(** ** Expiry *)

(** After its entry is handled, a thread waits for no deadline. *)
Lemma wake_timer_spec e id s :
  NoDup (t_id <$> threads (scheduler s)) →
  let s' := wake_timer e id s in
  t_id <$> threads (scheduler s') = t_id <$> threads (scheduler s)
  ∧ timer_heap (scheduler s') = timer_heap (scheduler s)
  ∧ ∀ t, t ∈ threads (scheduler s') → is_timed_wait t = true → t ∈ threads (scheduler s) ∧ t_id t ≠ id.
Proof.
  intros Hnd. rewrite wake_timer_enqueue. cbv zeta. destruct (get_thread s id) as [u|] eqn:Hu.
  2:{ split_and!; try done. intros t Ht _. split; [done|]. intros <-. apply find_thread_None in Hu. apply Hu. by apply list_elem_of_fmap_2. }
  destruct (is_timed_wait u) eqn:Hw.
  - destruct (enqueue_threads e id (get_thread_mut id timer_woken s)) as [-> ->]. split; [apply update_thread_ids, timer_woken_keeps|].
    split; [done|]. intros t Ht Htw. unfold get_thread_mut in Ht. cbn in Ht.
    assert (t_id t ≠ id) as Hne.
    { intros <-. apply find_thread_elem in Ht; [|by rewrite update_thread_ids by apply timer_woken_keeps].
      rewrite find_update_thread, decide_True in Ht by (apply timer_woken_keeps || done).
      unfold get_thread in Hu. rewrite Hu in Ht. injection Ht as <-. revert Htw. unfold is_timed_wait.
      by rewrite timer_woken_state. }
    split; [|done]. apply elem_of_update in Ht as [?|(v & _ & Hv & ->)]; [done|]. by rewrite timer_woken_keeps in Hne.
  - split_and!; try done. intros t Ht Htw. split; [done|]. intros <-. apply find_thread_elem in Ht; [|done].
    unfold get_thread in Hu. congruence.
Qed.

Lemma wake_expired_loop_spec e heap s :
  timer_heap (scheduler s) = heap → timers_ok s →
  let s' := wake_expired_loop e heap s in
  timers_ok s' ∧ ∀ t w, t ∈ threads (scheduler s') → is_timed_wait t = true → t_wake_time_ns t = Some w → e_now_ns e < w.
Proof.
  revert s. induction heap as [|[wt id] heap IH]; intros s Hh [Hnd Hs Hc]; cbn [wake_expired_loop].
  { split; [by split|]. intros t w Ht Htw Hw. specialize (Hc t w Ht Htw Hw). rewrite Hh in Hc. by apply elem_of_nil in Hc. }
  rewrite Hh in Hs, Hc. destruct (Z.ltb_spec (e_now_ns e) wt) as [Hlt|Hge].
  - split; [split; [done|by rewrite Hh..]|]. intros t w Ht Htw Hw. specialize (Hc t w Ht Htw Hw).
    apply elem_of_cons in Hc as [[= -> _]|Hin]; [done|]. inversion Hs as [|? ? _ Hall]; subst.
    eapply Forall_forall in Hall; [|exact Hin]. revert Hall. unfold entry_le. cbn.
    rewrite Is_true_true, orb_true_iff, andb_true_iff, Z.ltb_lt, Z.eqb_eq. lia.
  - destruct (wake_timer_spec e id (set_heap heap s) Hnd) as (Hids & Hheap & Hrest).
    apply IH; [done|]. split; [by rewrite Hids|rewrite Hheap; by inversion Hs|]. intros t w Ht Htw Hw.
    destruct (Hrest t Ht Htw) as [Ht0 Hne]. rewrite Hheap. specialize (Hc t w Ht0 Htw Hw).
    apply elem_of_cons in Hc as [[= _ E]|?]; done.
Qed.

Lemma tm_wake_expired e s : timers_ok s → timers_ok (wake_expired_timers e s).
Proof. intros. by apply wake_expired_loop_spec. Qed.
#[export] Instance timers_framed : Framed timers_ok.
Proof.
  split.
  - by intros s [].
  - apply tm_same.
  - intros id f s Hf. apply tm_update. intros t. split; apply Hf.
  - apply tm_wake_expired.
  - apply tm_add.
  - apply tm_reclaim.
Qed.

(** ** Going to sleep *)

Lemma tm_sleep id f w s :
  (∀ t, t_id (f t) = t_id t ∧ t_wake_time_ns (f t) = Some w) → timers_ok s →
  timers_ok (push_timer w id (get_thread_mut id f s)).
Proof.
  intros Hf [I A B]. unfold push_timer. split; cbn.
  - rewrite update_thread_ids; [done|]. intros t. apply Hf.
  - by apply heap_push_sorted.
  - intros t w' [Ht|(u & Hu & <- & ->)]%elem_of_update Htw Hw; apply elem_of_heap_push; [right; by apply B|left].
    destruct (Hf u) as [-> E]. rewrite E in Hw. congruence.
Qed.

Lemma tm_block e f id s :
  (∀ t, t_id (f t) = t_id t ∧ is_timed_wait (f t) = false) → timers_ok s → timers_ok (block_current_with e f id s).
Proof.
  intros Hf. apply tm_update. intros t. destruct (Hf (charge (e_ticks e AtCharge) t)) as [Hid Hw].
  split; [by rewrite Hid|]. by rewrite Hw.
Qed.

Lemma tm_blocks_current e s s' : blocks_current e s s' → timers_ok s → timers_ok s'.
Proof.
  intros B H. destruct B.
  - unfold block_current. destruct (current s (e_cpu e)); [|done]. by apply tm_block.
  - unfold block_current_for_signal_with_context. destruct (current s (e_cpu e)); [|done]. apply tm_remove.
    apply tm_block; [|done]. intros t. by destruct ctx.
  - unfold block_current_for_child_exit. destruct (current s (e_cpu e)); [|done]. apply tm_remove. by apply tm_block.
  - unfold block_current_for_timer. cbn [is_aarch64 target_arch aarch64]. destruct (current s (e_cpu e)); [|done]. apply tm_remove.
    match goal with |- timers_ok (push_timer ?w ?id (set_cpu_idle _ _ ?y)) => apply (tm_same (push_timer w id y)); [done..|] end.
    by apply tm_sleep.
  - unfold block_current_for_compositor. destruct (current s (e_cpu e)); [|done]. apply tm_remove. by apply tm_sleep.
  - unfold publish_current_io_wait_state, publish_current_io_wait_state_inner. destruct (current s (e_cpu e)); [|done].
    destruct (get_thread s _); [|done]. by apply tm_block.
  - unfold block_current_for_io_with_timeout, publish_current_io_wait_state_inner. destruct (current s (e_cpu e)); [|done].
    destruct (get_thread s _); [|done]. cbn [fst]. apply tm_remove. destruct wake as [w|]; [by apply tm_sleep|by apply tm_block].
Qed.

Lemma reachable_timers s : reachable s → timers_ok s.
Proof.
  induction 1 as [e t Hst _|s s' _ IH Hs].
  2:{ apply (step_kept timers_ok s s'); [done| |done]. intros e _ B. by eapply tm_blocks_current. }
  split; cbn; [apply NoDup_singleton|constructor|].
  intros u w ->%list_elem_of_singleton. unfold is_timed_wait. by rewrite Hst.
Qed.

(** C33: no thread sleeps past its deadline: in every reachable state the handler
    of expired timers leaves asleep only threads whose deadline is in the
    future. *)
Theorem no_overdue_sleeper e s id t :
  reachable s → get_thread (wake_expired_timers e s) id = Some t → is_timed_wait t = true →
  ∃ w, t_wake_time_ns t = Some w ∧ e_now_ns e < w.
Proof.
  intros Hr Ht Hw. destruct (wake_expired_loop_spec e _ s eq_refl (reachable_timers s Hr)) as [_ Hlate].
  assert (t ∈ threads (scheduler (wake_expired_timers e s))) as Hin by (by eapply find_thread_in).
  assert (is_Some (t_wake_time_ns t)) as [w E].
  { unfold is_timed_wait in Hw. destruct (t_state t); try done; by apply bool_decide_eq_true in Hw. }
  exists w. split; [done|]. by eapply Hlate.
Qed.

(** Thread 3 sleeps until 5000; at 1000 it is still asleep. *)
Definition sample_asleep : System := block_current_for_timer (sample_env 0) 5000 sample_running.

Lemma no_overdue_sleeper_witness :
  ∃ w, t_wake_time_ns (timer_blocked 5000 (sample_started 3 Running 10)) = Some w ∧ e_now_ns (sample_env 1) < w.
Proof.
  apply (no_overdue_sleeper (sample_env 1) sample_asleep 3).
  - apply (reach_step sample_running); [apply sample_running_reachable|]. apply (step_block _ (sample_env 0)); [|apply do_block_for_timer].
    exists 3, (sample_started 3 Running 10). split; [vm_compute; reflexivity|]. split; [vm_compute; discriminate|].
    split; [vm_compute; reflexivity|vm_compute; discriminate].
  - vm_compute; reflexivity.
  - vm_compute; reflexivity.
Defined.
