(* ===== verification/SchedIsr.v ===== *)
(** Wakeups from interrupt handlers: an identifier pushed into the lock-free
    buffer of a CPU is delivered by the next drain, on whichever CPU. *)

From S2P Require Import Prelude Sched SchedSwitch SchedInv SchedSmp SchedRun SchedSafe.

(** ** The buffer *)

(** The identifiers that wait in a buffer. *)
Definition buffered (slots : list u64) : list u64 := filter (λ id, id ≠ ISR_WAKEUP_EMPTY) slots.

Lemma push_full id slots : (IsrWakeupBuffer_push id slots).1 = Full ↔ id ∉ slots ∧ ISR_WAKEUP_EMPTY ∉ slots.
Proof.
  induction slots as [|x slots IH]; cbn [IsrWakeupBuffer_push]; [split; [split; apply not_elem_of_nil|done]|].
  destruct (Z.eqb_spec x id) as [->|Hid]; [split; [done|]; intros [Hn _]; destruct Hn; by left|].
  destruct (Z.eqb_spec x ISR_WAKEUP_EMPTY) as [->|He]; [split; [done|]; intros [_ Hn]; destruct Hn; by left|].
  destruct (IsrWakeupBuffer_push id slots) as [r slots']. cbn [fst] in *. rewrite IH, !not_elem_of_cons.
  naive_solver.
Qed.

Lemma push_kept id slots :
  id ≠ ISR_WAKEUP_EMPTY → (IsrWakeupBuffer_push id slots).1 ≠ Full →
  id ∈ (IsrWakeupBuffer_push id slots).2.
Proof.
  intros Hid. induction slots as [|x slots IH]; cbn [IsrWakeupBuffer_push]; [done|].
  destruct (Z.eqb_spec x id) as [->|]; [by left|]. destruct (Z.eqb_spec x ISR_WAKEUP_EMPTY) as [->|]; [by left|].
  destruct (IsrWakeupBuffer_push id slots) as [r slots']. cbn [fst snd] in *. intros Hr. right. by apply IH.
Qed.

Lemma push_pending id slots : (IsrWakeupBuffer_push id slots).1 = AlreadyPending → id ∈ slots.
Proof.
  induction slots as [|x slots IH]; cbn [IsrWakeupBuffer_push]; [done|].
  destruct (Z.eqb_spec x id) as [->|]; [by left|]. destruct (Z.eqb_spec x ISR_WAKEUP_EMPTY) as [->|]; [done|].
  destruct (IsrWakeupBuffer_push id slots) as [r slots']. cbn [fst] in *. right. auto.
Qed.

(** ** One wake *)

Lemma enqueue_get e id s x : get_thread (enqueue_woken e id s).1 x = get_thread s x.
Proof. unfold enqueue_woken. by case_match. Qed.

(** The part of the wake after the change of state. *)
Lemma queue_io_get e id (b : bool) s x :
  get_thread (if b then let current_cpu := current_cpu_of s id in
     let '(s2, target) := enqueue_woken e id s in (set_need_resched e s2, mkWake target current_cpu)
     else (s, mkWake None None)).1 x = get_thread s x.
Proof. destruct b; [|done]. cbv zeta. pose proof (enqueue_get e id s x). by destruct (enqueue_woken e id s). Qed.

Definition io_woken (t : Thread) : Thread :=
  match t_state t with
  | BlockedOnIO => with_wake None (set_ready t)
  | Blocked => with_syscall false (with_wake None (set_ready t))
  | _ => t
  end.

Lemma wake_io_get e id s x :
  get_thread (wake_io_thread_locked e id s).1 x =
  if decide (x = id) then io_woken <$> get_thread s id else get_thread s x.
Proof.
  unfold wake_io_thread_locked. destruct (get_thread s id) as [t|] eqn:Ht; [|case_decide; by subst].
  assert (get_thread s x = if decide (x = id) then Some t else get_thread s x) as Hx by (case_decide; by subst).
  unfold io_woken. cbn [fmap option_fmap option_map].
  assert (∀ f, keeps_id f → get_thread (get_thread_mut id f s) x = if decide (x = id) then Some (f t) else get_thread s x) as Hf.
  { intros f Hf. rewrite get_thread_update by done. by rewrite Ht. }
  destruct (t_state t); try exact Hx.
  - etrans; [apply (queue_io_get e id (t_blocked_in_syscall t))|exact Hx].
  - etrans; [apply (queue_io_get e id true)|]. apply Hf. intros u. apply (set_ready_keeps u).
  - etrans; [apply (queue_io_get e id true)|]. apply Hf. intros u. apply (set_ready_keeps u).
Qed.

Lemma unblock_for_io_get e id s x : get_thread (unblock_for_io e id s) x = get_thread (wake_io_thread_locked e id s).1 x.
Proof.
  unfold unblock_for_io. cbn [is_aarch64 target_arch aarch64]. destruct (wake_io_thread_locked e id s) as [s1 r]. cbn [fst].
  destruct (resched_target r); [|done]. unfold get_thread. by rewrite (veq_threads s1) by (apply veq_send_resched_ipi_to_cpu; reflexivity).
Qed.

(** A thread that waits for I/O or has been woken. *)
Definition io_waiting (s : System) (id : u64) : Prop := get_state s id = Some BlockedOnIO ∨ get_state s id = Some Ready.

Lemma unblock_io_state e id s x :
  io_waiting s x → io_waiting (unblock_for_io e id s) x ∧
  (x = id ∨ get_state s x = Some Ready → get_state (unblock_for_io e id s) x = Some Ready).
Proof.
  unfold io_waiting, get_state. rewrite unblock_for_io_get, wake_io_get. unfold io_woken. case_decide; [subst|naive_solver].
  destruct (get_thread s id) as [t|]; [|naive_solver]. cbn. intros Hst.
  assert (t_state t = BlockedOnIO ∨ t_state t = Ready) as [E|E] by (destruct Hst as [[= ?]|[= ?]]; auto);
    rewrite E; unfold set_ready; rewrite ?E, ?bool_decide_false by done; cbn; rewrite ?E; auto.
Qed.

Lemma drain_wakes_all e l s id :
  io_waiting s id → id ∈ l ∨ get_state s id = Some Ready →
  get_state (foldl (λ s id, unblock_for_io e id s) s l) id = Some Ready.
Proof.
  revert s. induction l as [|x l IH]; intros s Hs Hin; cbn [foldl].
  { destruct Hin as [Hin|?]; [by apply elem_of_nil in Hin|done]. }
  destruct (unblock_io_state e x s id Hs) as [Hs' Hr]. apply IH; [done|].
  destruct Hin as [[->|?]%elem_of_cons|?]; auto.
Qed.

(** ** Delivery *)

(** C34: a wakeup an interrupt handler reports for a thread that waits for I/O is
    not lost: unless all slots of the handling CPU hold other identifiers, the
    next drain, on any CPU, makes the thread Ready. *)
Theorem isr_wakeup_delivered e e' id s slots :
  ISR_WAKEUP_BUFFERS s !! e_cpu e = Some slots → id ≠ ISR_WAKEUP_EMPTY →
  id ∈ slots ∨ ISR_WAKEUP_EMPTY ∈ slots →
  get_state s id = Some BlockedOnIO →
  get_state (drain_isr_wakeups e' (isr_unblock_for_io e id s)) id = Some Ready.
Proof.
  intros Hb Hid Hroom Hst. assert ((IsrWakeupBuffer_push id slots).1 ≠ Full) as Hnf.
  { rewrite push_full. naive_solver. }
  assert (∃ bs, id ∈ concat ((λ b, (IsrWakeupBuffer_drain b).1) <$> bs)
            ∧ ISR_WAKEUP_BUFFERS (isr_unblock_for_io e id s) = bs
            ∧ get_thread (isr_unblock_for_io e id s) id = get_thread s id) as (bs & Hin & Hbs & Hg).
  { assert (∀ bs slots', bs !! e_cpu e = Some slots' → id ∈ slots' →
      id ∈ concat ((λ b, (IsrWakeupBuffer_drain b).1) <$> bs)) as Helem.
    { intros bs slots' Hl Hi. apply elem_of_concat. exists (IsrWakeupBuffer_drain slots').1. split.
      - eapply list_elem_of_lookup_2. by rewrite list_lookup_fmap, Hl.
      - by apply list_elem_of_filter. }
    unfold isr_unblock_for_io, buffer_isr_wakeup. rewrite Hb.
    pose proof (push_kept id slots Hid Hnf) as Hk. pose proof (push_pending id slots) as Hp.
    destruct (IsrWakeupBuffer_push id slots) as [[] slots'] eqn:Ep; cbn [fst snd] in *; [..|done]; eexists; split_and!.
    2-3: reflexivity. 3-4: reflexivity.
    - apply (Helem _ slots'); [|done]. cbn. rewrite list_lookup_insert_eq; [done|]. by eapply lookup_lt_Some.
    - apply (Helem _ slots); [done|]. by apply Hp. }
  unfold drain_isr_wakeups. cbv zeta. rewrite Hbs. apply drain_wakes_all; [|by left].
  left. unfold get_state. cbn. rewrite <- Hst. unfold get_state. by f_equal.
Qed.

Lemma isr_wakeup_delivered_witness :
  let s := block_current_for_io (sample_env 0) sample_running in
  get_state (drain_isr_wakeups (sample_env 0) (isr_unblock_for_io (sample_env 1) 3 s)) 3 = Some Ready.
Proof.
  apply (isr_wakeup_delivered (sample_env 1) (sample_env 0) 3 _ (replicate ISR_WAKEUP_SLOTS ISR_WAKEUP_EMPTY)).
  - vm_compute; reflexivity.
  - vm_compute; discriminate.
  - right. by left.
  - vm_compute; reflexivity.
Defined.
