(* ===== verification/SchedRaces.v ===== *)
(** Interleavings the code does not exclude: each is a concrete run of the
    operations in which a promise of the scheduler fails. *)

From S2P Require Import Prelude Sched SchedSwitch SchedInv SchedSmp SchedRun SchedSafe.

(** A third CPU comes up idle; thread 4 runs on CPU 1 and thread 3, on CPU 0,
    kills its process: [terminate_process_threads] releases the lock before the
    exit kick is published. *)
Definition race_kill : System :=
  set_need_resched (sample_env 2)
    (terminate_process_threads (sample_env 0) 11
       (register_idle_thread (sample_env 2) 2 (sample_thread 5 Running Kernel None) sample_running)).

Lemma race_kill_reachable : reachable race_kill.
Proof.
  unfold race_kill. eapply reach_step; [|apply step_need_resched]. eapply reach_step; [|apply step_terminate].
  eapply reach_step; [apply sample_running_reachable|].
  apply step_register; [cbn; lia|vm_compute; reflexivity| |reflexivity|reflexivity].
  apply fresh_check_ok. vm_compute; reflexivity.
Qed.

(** In that window an idle CPU searches the queues, keeps the token of the
    terminated thread because its kick is not published, finds nothing else, and
    then takes the same token unchecked: the killed thread runs on two CPUs. *)
Lemma unpublished_kick_revives :
  let s' := check_need_resched_and_switch_arm64 (sample_switch 2 (Some 5)) race_kill in
  get_state race_kill 4 = Some Terminated ∧ get_state s' 4 = Some Running
  ∧ current s' 1 = Some 4 ∧ current s' 2 = Some 4.
Proof. vm_compute. repeat split. Qed.

(** The killed thread goes to sleep before its CPU notices: it is BlockedOnTimer
    again, and the expiry makes it Ready. *)
Lemma killed_thread_sleeps_and_wakes :
  let s := terminate_process_threads (sample_env 0) 11 sample_running in
  let s' := block_current_for_timer (sample_env 1) 900 s in
  let s'' := wake_expired_timers (sample_env 0) s' in
  get_state s 4 = Some Terminated ∧ get_state s' 4 = Some BlockedOnTimer ∧ get_state s'' 4 = Some Ready.
Proof. vm_compute. repeat split. Qed.

(** A sleep that a signal cut short leaves its heap entry behind.  The thread
    sleeps again until 5000; at 1000 the entry of the first sleep, for 900, ends
    the second. *)
Definition interrupted_sleep (e : Env) (id : u64) (s : System) : System :=
  get_thread_mut id (λ t, set_ready (with_wake None (with_syscall false t))) (block_current_for_timer e 900 s).

Lemma stale_timer_wakes_early :
  let s := interrupted_sleep (sample_env 0) 3 sample_running in
  let s' := block_current_for_timer (sample_env 0) 5000 s in
  t_wake_time_ns <$> get_thread s' 3 = Some (Some 5000) ∧ e_now_ns (sample_env 0) = 1000 ∧
  get_state (wake_expired_timers (sample_env 0) s') 3 = Some Ready.
Proof. vm_compute. repeat split. Qed.

(** CPU 0 runs its idle loop, so its thread pointer is null, while its
    [cpu_state] still names thread 3: the case
    [fix_stale_current_thread_when_idle_executing] is for.  The repair makes the
    idle thread current and does nothing for thread 3, which stays Running, is
    current on no CPU and is neither queued nor waiting in a deferred slot. *)
Lemma stale_pointer_loses_thread :
  let s' := schedule_from_kernel (sample_switch 0 None) sample_running in
  current sample_running 0 = Some 3 ∧ get_state s' 3 = Some Running ∧
  (∀ c, (c < MAX_CPUS)%nat → current s' c ≠ Some 3 ∧ slot s' c ≠ 3 ∧ previous s' c ≠ Some 3) ∧
  all_queued s' = [].
Proof.
  cbv zeta. split; [vm_compute; reflexivity|]. split; [vm_compute; reflexivity|]. split; [|vm_compute; reflexivity].
  intros c Hc. do 8 (destruct c as [|c]; [vm_compute; repeat split; discriminate|]). cbn in Hc. lia.
Qed.
