(* ===== verification/Futex.v ===== *)
(** The futex system call (syscall/futex.rs) over the wait queues and the
    scheduler.  FUTEX_WAIT is split where it may lose the CPU: [futex_wait] is
    the call up to its loop (the check of the word and the enqueueing are one
    critical section), [futex_wait_turn] one turn of the loop, and
    [futex_wait_end] the section after it with the result.  What a call reads
    from outside, user memory and the process table, is an argument.  The code
    of the feature boot_tests and the reload of TTBR0 are left out. *)

From S2P Require Import Prelude Sched WaitQueue.

Definition FUTEX_WAIT : u32 := 0.
Definition FUTEX_WAKE : u32 := 1.
Definition FUTEX_CMD_MASK : u32 := 0x7f.

Definition ESRCH : u64 := 3.
Definition EINTR : u64 := 4.
Definition EAGAIN : u64 := 11.
Definition EFAULT : u64 := 14.
Definition EINVAL : u64 := 22.
Definition ENOSYS : u64 := 38.
Definition ETIMEDOUT : u64 := 110.

Definition FutexKey : Type := u64 * u64.

Record FutexState := mkFutex {
  fx_sys : System;
  FUTEX_QUEUES : gmap FutexKey WaitQueueHead;
}.

(** The user memory a call sees. *)
Record UserView := mkView {
  uv_valid : bool;                 (* validate_user_ptr_read::<u32>(uaddr).is_ok() *)
  uv_timeout : option (i64 * i64); (* copy_from_user::<Timespec>(timeout_ptr).ok() *)
  uv_mapped : bool;                (* copy_from_user::<u32>(uaddr).is_ok() *)
  uv_word : u32;                   (* read_volatile(uaddr) under the queue's lock *)
}.

Abbreviation SyscallResult := (result u64 u64).

(** How far a call has come: it has its result, or it waits in the loop with
    the variables the rest of the call needs. *)
Inductive FutexCall :=
  | Returned (r : SyscallResult)
  | Waiting (thread_id : u64) (key : FutexKey) (user_wake_time_ns : option u64).

Section futex.
Context `{Target}.

(** [find tid] is the thread group of the process that owns thread [tid], from
    [find_process_by_thread]. *)
Definition current_thread_group_id (e : Env) (find : u64 → option u64) (s : System) : option u64 :=
  match current_thread_id e s with Some id => find id | None => None end.

(** The deadline and whether the timeout is zero; the product and the sum of
    the seconds wrap. *)
Definition futex_deadline (e : Env) (view : UserView) (timeout_ptr : u64) : result (option u64 * bool) u64 :=
  if timeout_ptr =? 0 then Ok (None, false)
  else
    match uv_timeout view with
    | None => Err EFAULT
    | Some (tv_sec, tv_nsec) =>
        if (tv_nsec <? 0) || (1000000000 <=? tv_nsec) || (tv_sec <? 0) then Err EINVAL
        else
          let relative_ns := wrap 64 (wrap 64 (tv_sec * 1000000000) + tv_nsec) in
          Ok (Some (Z.min (2 ^ 64 - 1) (e_now_ns e + relative_ns)), relative_ns =? 0)
    end.

Definition futex_wait (e : Env) (find : u64 → option u64) (view : UserView) (uaddr : u64) (expected_val : u32)
    (timeout_ptr : u64) (k : FutexState) : FutexCall * FutexState :=
  if (uaddr =? 0) || negb (uaddr mod 4 =? 0) then (Returned (Err EINVAL), k)
  else if negb (uv_valid view) then (Returned (Err EFAULT), k)
  else
    match futex_deadline e view timeout_ptr with
    | Err err => (Returned (Err err), k)
    | Ok (user_wake_time_ns, zero_timeout) =>
        if negb (uv_mapped view) then (Returned (Err EFAULT), k)
        else
          match current_thread_id e (fx_sys k), current_thread_group_id e find (fx_sys k) with
          | Some thread_id, Some tg_id =>
              let key : FutexKey := (tg_id, uaddr) in
              let waitqueue := default WaitQueueHead_new (FUTEX_QUEUES k !! key) in
              let value_matches := uv_word view =? expected_val in
              let '(outcome, waitqueue, s) :=
                prepare_to_wait_checked e BlockedOnIO user_wake_time_ns (value_matches && negb zero_timeout)
                  waitqueue (fx_sys k) in
              let queues :=
                if negb (bool_decide (outcome = Queued)) && negb (has_waiters waitqueue)
                then delete key (FUTEX_QUEUES k) else <[key := waitqueue]> (FUTEX_QUEUES k) in
              let k := mkFutex s queues in
              match outcome with
              | Mismatch => (Returned (Err (if zero_timeout && value_matches then ETIMEDOUT else EAGAIN)), k)
              | PublishFailed => (Returned (Err ESRCH), k)
              | Queued => (Waiting thread_id key user_wake_time_ns, k)
              end
          | _, _ => (Returned (Err ESRCH), k)
          end
    end.

(** One turn of the loop: [signal] is [check_signals_for_eintr].  The result is
    the value of [signal_pending] with which the loop is left, if it is. *)
Definition futex_wait_turn (e : Env) (signal : bool) (s : System) : option bool * System :=
  if signal then (Some true, s)
  else
    let s := wake_expired_timers e s in
    if negb (still_waiting e s) then (Some false, s) else (None, yield_current e s).

Definition futex_wait_end (e : Env) (thread_id : u64) (key : FutexKey) (user_wake_time_ns : option u64)
    (signal_pending : bool) (k : FutexState) : SyscallResult * FutexState :=
  let waitqueue := default WaitQueueHead_new (FUTEX_QUEUES k !! key) in
  let '(removed_by_me, waitqueue) := take_waiter thread_id waitqueue in
  let '(waitqueue, s) := finish_wait e waitqueue (fx_sys k) in
  let queues :=
    if negb (has_waiters waitqueue) then delete key (FUTEX_QUEUES k) else <[key := waitqueue]> (FUTEX_QUEUES k) in
  let result :=
    if removed_by_me : bool then
      if signal_pending then Err EINTR
      else
        match user_wake_time_ns with
        | Some deadline => if deadline <=? e_now_ns e then Err ETIMEDOUT else Ok 0
        | None => Ok 0
        end
    else Ok 0 in
  (result, mkFutex s queues).

Definition futex_wake_for_thread_group (e : Env) (tg_id uaddr : u64) (max_wake : u32) (k : FutexState)
  : u32 * FutexState :=
  let key : FutexKey := (tg_id, uaddr) in
  match FUTEX_QUEUES k !! key with
  | None => (0, k)
  | Some waitqueue =>
      let '(woken, waitqueue, s) := wake_up_n e max_wake waitqueue (fx_sys k) in
      let queues :=
        if negb (has_waiters waitqueue) then delete key (FUTEX_QUEUES k) else <[key := waitqueue]> (FUTEX_QUEUES k) in
      (woken, mkFutex s queues)
  end.

Definition futex_wake (e : Env) (find : u64 → option u64) (uaddr : u64) (max_wake : u32) (k : FutexState)
  : SyscallResult * FutexState :=
  if (uaddr =? 0) || negb (uaddr mod 4 =? 0) then (Err EINVAL, k)
  else
    match current_thread_group_id e find (fx_sys k) with
    | None => (Err ESRCH, k)
    | Some tg_id =>
        let key : FutexKey := (tg_id, uaddr) in
        match FUTEX_QUEUES k !! key with
        | None => (Ok 0, k)
        | Some waitqueue =>
            let '(woken, waitqueue, s) := wake_up_n e max_wake waitqueue (fx_sys k) in
            let queues :=
              if negb (has_waiters waitqueue) then delete key (FUTEX_QUEUES k)
              else <[key := waitqueue]> (FUTEX_QUEUES k) in
            (Ok woken, mkFutex s queues)
        end
    end.

Definition sys_futex (e : Env) (find : u64 → option u64) (view : UserView) (uaddr : u64) (op val : u32) (timeout : u64)
    (k : FutexState) : FutexCall * FutexState :=
  let cmd := Z.land op FUTEX_CMD_MASK in
  if cmd =? FUTEX_WAIT then futex_wait e find view uaddr val timeout k
  else if cmd =? FUTEX_WAKE then
    let '(r, k) := futex_wake e find uaddr val k in (Returned r, k)
  else (Returned (Err ENOSYS), k).

(** ** Queues of the map *)

Definition futex_queue (k : FutexState) (key : FutexKey) : WaitQueueHead :=
  default WaitQueueHead_new (FUTEX_QUEUES k !! key).

(** A map after the queue of [key] became [q]: empty queues are not kept. *)
Definition store_queue (key : FutexKey) (q : WaitQueueHead) (m : gmap FutexKey WaitQueueHead)
  : gmap FutexKey WaitQueueHead := if negb (has_waiters q) then delete key m else <[key := q]> m.

Lemma store_queue_lookup key q m key' :
  default [] (store_queue key q m !! key') = if decide (key' = key) then q else default [] (m !! key').
Proof using Type.
  unfold store_queue. destruct (has_waiters q) eqn:E; cbn; case_decide; subst; simplify_map_eq; try done.
  by apply has_waiters_false in E.
Qed.

(** Both wakes: the first waiters leave the queue of the key and are woken in
    the order they came. *)
Lemma futex_wake_group_exact e tg_id uaddr n k :
  let key : FutexKey := (tg_id, uaddr) in
  let woken := take (Z.to_nat n) (futex_queue k key) in
  (futex_wake_for_thread_group e tg_id uaddr n k).1 = Z.of_nat (length woken)
  ∧ fx_sys (futex_wake_for_thread_group e tg_id uaddr n k).2 = foldl (λ s tid, wake_waiter e tid s) (fx_sys k) woken
  ∧ ∀ key', futex_queue (futex_wake_for_thread_group e tg_id uaddr n k).2 key'
            = if decide (key' = key) then drop (Z.to_nat n) (futex_queue k key) else futex_queue k key'.
Proof using Type.
  cbv zeta. unfold futex_wake_for_thread_group. cbv zeta.
  destruct (FUTEX_QUEUES k !! ((tg_id, uaddr) : FutexKey)) as [q|] eqn:Hq.
  - assert (futex_queue k (tg_id, uaddr) = q) as -> by (unfold futex_queue; by rewrite Hq).
    rewrite wake_up_n_exact. split_and!; [done..|]. intros key'. cbn [snd].
    unfold futex_queue. apply (store_queue_lookup (tg_id, uaddr)).
  - assert (futex_queue k (tg_id, uaddr) = []) as E by (unfold futex_queue; by rewrite Hq).
    rewrite E, take_nil, drop_nil. split_and!; [done..|]. intros key'. cbn [snd]. case_decide; by subst.
Qed.

(** FUTEX_WAKE is that wake for the caller's thread group, on a good address. *)
Lemma futex_wake_group e find uaddr n k tg_id :
  uaddr ≠ 0 → uaddr mod 4 = 0 → current_thread_group_id e find (fx_sys k) = Some tg_id →
  futex_wake e find uaddr n k =
    (Ok (futex_wake_for_thread_group e tg_id uaddr n k).1, (futex_wake_for_thread_group e tg_id uaddr n k).2).
Proof using Type.
  intros H0 H4 Htg. unfold futex_wake, futex_wake_for_thread_group. apply Z.eqb_neq in H0. rewrite H0, H4, Htg. cbn [orb negb Z.eqb].
  cbv zeta. destruct (FUTEX_QUEUES k !! ((tg_id, uaddr) : FutexKey)); [|done]. by destruct (wake_up_n e n w (fx_sys k)) as [[??]?].
Qed.

End futex.
