(* ===== verification/FutexInv.v ===== *)
(** Futexes in the running kernel.  [Kernel] joins the scheduler, the futex
    queues and, for every thread inside FUTEX_WAIT, the variables of its call;
    its steps are those of the scheduler, in any order, and the parts of the
    futex calls.  Every state of it is a reachable state of the scheduler, so
    the scheduler's theorems hold with futexes too; and a waiter that a wake has
    taken off its queue is never left asleep. *)

From S2P Require Import Prelude Sched SchedSwitch WaitQueue SchedInv SchedSmp SchedRun SchedSafe SchedFrame SchedIsr Futex.

(** ** The kernel *)

(** A call in its loop, or out of it with the value of [signal_pending]. *)
Record Waiter := mkWaiter { w_key : FutexKey; w_deadline : option u64; w_left : option bool }.

Record Kernel := mkKernel { k_futex : FutexState; waiting : gmap u64 Waiter }.

Abbreviation k_sys k := (fx_sys (k_futex k)).

Definition enter_wait (r : FutexCall) (m : gmap u64 Waiter) : gmap u64 Waiter :=
  match r with
  | Waiting tid key deadline => <[tid := mkWaiter key deadline None]> m
  | Returned _ => m
  end.

Inductive kstep (k : Kernel) : Kernel → Prop :=
  | k_wait e find view uaddr val timeout tid :
      may_block e (k_sys k) → current (k_sys k) (e_cpu e) = Some tid → waiting k !! tid = None →
      kstep k (mkKernel (futex_wait e find view uaddr val timeout (k_futex k)).2
                 (enter_wait (futex_wait e find view uaddr val timeout (k_futex k)).1 (waiting k)))
  | k_turn e signal tid w :
      (e_cpu e < MAX_CPUS)%nat → current (k_sys k) (e_cpu e) = Some tid →
      waiting k !! tid = Some w → w_left w = None →
      kstep k (mkKernel (mkFutex (futex_wait_turn e signal (k_sys k)).2 (FUTEX_QUEUES (k_futex k)))
                 (<[tid := mkWaiter (w_key w) (w_deadline w) (futex_wait_turn e signal (k_sys k)).1]> (waiting k)))
  | k_end e tid w signal :
      (e_cpu e < MAX_CPUS)%nat → current (k_sys k) (e_cpu e) = Some tid →
      waiting k !! tid = Some w → w_left w = Some signal →
      kstep k (mkKernel (futex_wait_end e tid (w_key w) (w_deadline w) signal (k_futex k)).2 (delete tid (waiting k)))
  | k_wake e tg_id uaddr n :
      (e_cpu e < MAX_CPUS)%nat → e_in_interrupt e = false →
      kstep k (mkKernel (futex_wake_for_thread_group e tg_id uaddr n (k_futex k)).2 (waiting k))
  (** any other step of the scheduler; a thread inside the call does not block
      in another *)
  | k_sched s' :
      step (k_sys k) s' →
      (∀ e tid, blocks_current e (k_sys k) s' → current (k_sys k) (e_cpu e) = Some tid → waiting k !! tid = None) →
      kstep k (mkKernel (mkFutex s' (FUTEX_QUEUES (k_futex k))) (waiting k)).

Inductive kreachable : Kernel → Prop :=
  | k_start s : reachable s → kreachable (mkKernel (mkFutex s ∅) ∅)
  | k_next k k' : kreachable k → kstep k k' → kreachable k'.

(** ** Threads that do not wait for I/O *)

Record awake (A : u64 → Prop) (s : System) : Prop := {
  aw_ids : NoDup (t_id <$> threads (scheduler s));
  aw_state : ∀ t, t ∈ threads (scheduler s) → A (t_id t) → t_state t ≠ BlockedOnIO;
}.

Lemma awake_sub (A B : u64 → Prop) s : (∀ x, B x → A x) → awake A s → awake B s.
Proof. intros HAB [I H]. split; [done|]. eauto. Qed.

Lemma awake_get A s id : awake A s → A id → get_state s id ≠ Some BlockedOnIO.
Proof.
  intros [I H] Ha. unfold get_state. destruct (get_thread s id) as [t|] eqn:Ht; [|done]. intros [= E].
  pose proof (get_thread_id _ _ _ Ht) as Hid. eapply H; [by eapply find_thread_in| |done]. by rewrite Hid.
Qed.

Lemma awake_add A s id : awake A s → get_state s id ≠ Some BlockedOnIO → awake (λ x, A x ∨ x = id) s.
Proof.
  intros [I H] Hs. split; [done|]. intros t Ht [?|E]; [by apply H|]. intros Hb. apply Hs.
  apply find_thread_elem in Ht; [|done]. unfold get_state, get_thread. rewrite <- E, Ht. cbn. by rewrite Hb.
Qed.

Lemma awake_update A id f s :
  (∀ t, t_id (f t) = t_id t ∧ (t_state (f t) = BlockedOnIO → A id → t_state t = BlockedOnIO)) →
  awake A s → awake A (get_thread_mut id f s).
Proof.
  intros Hf [I H]. split; [cbn; rewrite update_thread_ids; [done|intros ?; apply Hf]|].
  intros t [?|(u & Hu & <- & ->)]%elem_of_update; [by apply H|]. destruct (Hf u) as [-> Hs]. intros Ha Hb.
  by apply (H u Hu Ha), Hs.
Qed.

Lemma awake_same A s s' : threads (scheduler s') = threads (scheduler s) → awake A s → awake A s'.
Proof. intros E [I H]. split; by rewrite E. Qed.

#[export] Instance awake_framed A : Framed (awake A).
Proof.
  split.
  - by intros s [].
  - intros s s' E _. by apply awake_same.
  - intros id f s Hf. apply awake_update. intros t. destruct (Hf t) as (? & ? & _). auto.
  - intros e s. unfold wake_expired_timers. generalize (timer_heap (scheduler s)). intros heap. revert s.
    induction heap as [|[wt id] heap IH]; intros s H; [done|]. cbn [wake_expired_loop]. case_match; [done|]. apply IH.
    rewrite wake_timer_enqueue. assert (awake A (set_heap heap s)) as H1 by (by apply (awake_same A s)).
    destruct (get_thread (set_heap heap s) id); [|done]. case_match; [|done].
    eapply awake_same; [apply enqueue_threads|]. apply awake_update; [|done]. intros u. split; [apply timer_woken_keeps|].
    by rewrite timer_woken_state.
  - intros t s Hf Hst [I H]. split.
    + cbn. rewrite fmap_app. apply NoDup_app. split; [done|]. split; [|apply NoDup_singleton].
      by intros x Hx ->%list_elem_of_singleton.
    + cbn. intros u [?| ->%list_elem_of_singleton]%elem_of_app; [by apply H|]. intros _. by destruct Hst as [-> | ->].
  - intros e s [I H]. split; cbn; [by apply nodup_filter_ids|]. intros t [_ Ht]%list_elem_of_filter. by apply H.
Qed.

(** A thread that blocks is the running one. *)
Lemma awake_blocks A e s s' tid :
  current s (e_cpu e) = Some tid → ¬ A tid → blocks_current e s s' → awake A s → awake A s'.
Proof.
  intros Hc Hn B H.
  assert (∀ f : Thread → Thread, (∀ t, t_id (f t) = t_id t) → ∀ s2, threads (scheduler s2) = update_thread tid f (threads (scheduler s)) → awake A s2) as Hu.
  { intros f Hf s2 E. apply (awake_same A (get_thread_mut tid f s)); [done|]. by apply awake_update. }
  destruct B;
    unfold block_current, block_current_for_signal_with_context, block_current_for_child_exit, block_current_for_timer,
      block_current_for_compositor, publish_current_io_wait_state, block_current_for_io_with_timeout,
      publish_current_io_wait_state_inner; rewrite Hc.
  all: try (eapply Hu; [|reflexivity]; done).
  - eapply Hu; [|reflexivity]. intros t. by destruct ctx.
  - destruct (get_thread s tid); [|done]. eapply Hu; [|reflexivity]. done.
  - destruct (get_thread s tid); [|done]. eapply Hu; [|by destruct wake]. done.
Qed.

(** ** Wakes *)

Lemma wake_waiter_get e id s x :
  e_in_interrupt e = false →
  get_thread (wake_waiter e id s) x = if decide (x = id) then io_woken <$> get_thread s id else get_thread s x.
Proof. intros He. unfold wake_waiter, wake_waitqueue_thread. rewrite He. by rewrite unblock_for_io_get, wake_io_get. Qed.

Lemma io_woken_state t : t_state (io_woken t) ≠ BlockedOnIO.
Proof. unfold io_woken, set_ready. destruct (t_state t) eqn:E; cbn; rewrite ?bool_decide_false by congruence; cbn; congruence. Qed.

Lemma wake_waiter_awake A e id s :
  e_in_interrupt e = false → awake A s → awake (λ x, A x ∨ x = id) (wake_waiter e id s).
Proof.
  intros He H. apply awake_add.
  - unfold wake_waiter, wake_waitqueue_thread. rewrite He. by apply (kept_unblock_for_io (awake A)).
  - unfold get_state. rewrite wake_waiter_get, decide_True by done. destruct (get_thread s id) as [t|]; [|done].
    cbn. intros [= E]. by apply (io_woken_state t).
Qed.

Lemma wake_all_awake A e l s :
  e_in_interrupt e = false → awake A s → awake (λ x, A x ∨ x ∈ l) (foldl (λ s tid, wake_waiter e tid s) s l).
Proof.
  intros He. revert A s. induction l as [|id l IH]; intros A s H; cbn [foldl].
  - eapply awake_sub; [|exact H]. intros x [?|?%elem_of_nil]; done.
  - eapply awake_sub; [|apply IH, wake_waiter_awake; [done|exact H]]. cbn. intros x. rewrite elem_of_cons. tauto.
Qed.

(** Each of the woken threads is changed once, the others are not. *)
Lemma wake_all_get e l s x :
  e_in_interrupt e = false → NoDup l →
  get_thread (foldl (λ s tid, wake_waiter e tid s) s l) x
  = if decide (x ∈ l) then io_woken <$> get_thread s x else get_thread s x.
Proof.
  intros He Hl. revert s. induction Hl as [|id l Hid Hl IH]; intros s; cbn [foldl]; [done|].
  rewrite IH, wake_waiter_get by done. destruct (decide (x = id)) as [->|Hne].
  - rewrite decide_False, decide_True by (done || by left). done.
  - apply decide_ext. rewrite elem_of_cons. tauto.
Qed.

(** ** The scheduler under the kernel *)

Lemma wake_all_reachable e l s :
  (e_cpu e < MAX_CPUS)%nat → e_in_interrupt e = false → reachable s →
  reachable (foldl (λ s tid, wake_waiter e tid s) s l).
Proof.
  intros He Hi. revert s. induction l as [|id l IH]; intros s H; [done|]. cbn [foldl]. apply IH.
  unfold wake_waiter. rewrite Hi. apply (reach_step s); [done|]. apply (step_wake _ e); [done|apply do_unblock_for_io].
Qed.

Definition no_empty (m : gmap FutexKey WaitQueueHead) : Prop := ∀ key, m !! key ≠ Some [].

Lemma no_empty_same m (key : FutexKey) q :
  no_empty m → q = default WaitQueueHead_new (m !! key) → (if negb (has_waiters q) then delete key m else <[key := q]> m) = m.
Proof.
  intros Hm ->. specialize (Hm key). destruct (m !! key) as [q|] eqn:Hk; cbn.
  - unfold Datatypes.id. destruct (has_waiters q) eqn:E; [by apply insert_id|]. apply has_waiters_false in E. congruence.
  - by apply delete_id.
Qed.

Lemma no_empty_store m key q : no_empty m → no_empty (store_queue key q m).
Proof.
  intros Hm key'. unfold store_queue. destruct (has_waiters q) eqn:E; cbn; destruct (decide (key' = key)) as [->|];
    simplify_map_eq; try done. intros [= ->]. done.
Qed.

(** A call of FUTEX_WAIT up to its loop: the thread is queued and blocked, on a
    word with the expected value, or nothing changed. *)
Lemma futex_wait_cases e find view uaddr val timeout k tid t :
  no_empty (FUTEX_QUEUES k) → current (fx_sys k) (e_cpu e) = Some tid → get_thread (fx_sys k) tid = Some t →
  let '(r, k') := futex_wait e find view uaddr val timeout k in
  (∃ err, r = Returned (Err err) ∧ k' = k ∧ (err = EAGAIN → uv_word view ≠ val) ∧ (err = ETIMEDOUT → uv_word view = val))
  ∨ ∃ tg_id deadline,
      r = Waiting tid (tg_id, uaddr) deadline ∧ find tid = Some tg_id ∧ uv_word view = val ∧
      futex_deadline e view timeout = Ok (deadline, false) ∧
      k' = mkFutex (block_current_for_io_with_timeout e deadline (fx_sys k)).1
             (<[(tg_id, uaddr) := push_waiter tid (futex_queue k (tg_id, uaddr))]> (FUTEX_QUEUES k)).
Proof.
  intros Hm Hc Ht. unfold futex_wait, current_thread_group_id, current_thread_id. cbv zeta. rewrite Hc.
  destruct ((uaddr =? 0) || negb (uaddr mod 4 =? 0)); [left; by exists EINVAL|].
  destruct (uv_valid view); [cbn [negb]|left; by exists EFAULT].
  destruct (futex_deadline e view timeout) as [[deadline zero]|err] eqn:Hd.
  2:{ left. exists err. split_and!; [done..| |]; revert Hd; unfold futex_deadline; repeat case_match; naive_solver. }
  destruct (uv_mapped view); [cbn [negb]|left; by exists EFAULT]. destruct (find tid) as [tg_id|]; [|left; by exists ESRCH].
  rewrite (prepare_to_wait_checked_exact e deadline _ _ _ tid t) by done.
  destruct (Z.eqb_spec (uv_word view) val) as [Hv|Hv]; cbn [andb]; [destruct zero; cbn [negb]|].
  - left. exists ETIMEDOUT. rewrite bool_decide_false by done. cbn [negb andb]. rewrite no_empty_same by done. by destruct k.
  - right. exists tg_id, deadline. rewrite bool_decide_true by done. done.
  - left. exists EAGAIN. rewrite bool_decide_false by done. cbn [negb andb]. rewrite no_empty_same by done.
    rewrite andb_false_r. by destruct k.
Qed.

Lemma block_io_state e deadline s tid t :
  current s (e_cpu e) = Some tid → get_thread s tid = Some t →
  get_state (block_current_for_io_with_timeout e deadline s).1 tid = Some BlockedOnIO
  ∧ t_wake_time_ns <$> get_thread (block_current_for_io_with_timeout e deadline s).1 tid = Some deadline.
Proof.
  intros Hc Ht. unfold block_current_for_io_with_timeout, publish_current_io_wait_state_inner. rewrite Hc, Ht. cbn [fst].
  set (f := λ t, _). set (s1 := block_current_with e f tid s).
  assert (get_thread (remove_from_ready_queue tid (match deadline with Some wt => push_timer wt tid s1 | None => s1 end)) tid
          = get_thread s1 tid) as E by (by destruct deadline).
  assert (get_thread s1 tid = Some (f (charge (e_ticks e AtCharge) t))) as E1.
  { unfold s1, block_current_with. rewrite get_thread_update by done. by rewrite decide_True, Ht. }
  unfold get_state. by rewrite E, E1.
Qed.

Lemma futex_wait_end_exact e tid key deadline signal k :
  current (fx_sys k) (e_cpu e) = Some tid →
  let q := futex_queue k key in
  futex_wait_end e tid key deadline signal k =
    (if contains tid q then
       if signal then Err EINTR
       else match deadline with Some d => if d <=? e_now_ns e then Err ETIMEDOUT else Ok 0 | None => Ok 0 end
     else Ok 0,
     mkFutex (finish_current_wait e (fx_sys k)) (store_queue key (remove_waiter tid q) (FUTEX_QUEUES k))).
Proof.
  intros Hc q. unfold futex_wait_end, take_waiter, finish_wait, current_thread_id. rewrite Hc. cbv zeta.
  by rewrite remove_waiter_idemp.
Qed.

Lemma futex_wait_turn_awake A e signal s : awake A s → awake A (futex_wait_turn e signal s).2.
Proof.
  intros H. unfold futex_wait_turn. destruct signal; [done|]. cbv zeta. pose proof (fr_expired (P := awake A) e s H) as H1.
  case_match; [done|]. by apply (awake_same A (wake_expired_timers e s)).
Qed.

Lemma still_waiting_awake A e s tid : awake A s → A tid → current s (e_cpu e) = Some tid → still_waiting e s = false.
Proof.
  intros H Ha Hc. unfold still_waiting. rewrite Hc. pose proof (awake_get A s tid H Ha) as Hg. unfold get_state in Hg.
  destruct (get_thread s tid) as [t|]; [|done]. apply bool_decide_eq_false. intros E. apply Hg. cbn. by rewrite E.
Qed.

Lemma wake_expired_cpus e s : cpu_state (scheduler (wake_expired_timers e s)) = cpu_state (scheduler s).
Proof.
  unfold wake_expired_timers. generalize (timer_heap (scheduler s)). intros heap. revert s.
  induction heap as [|[wt id] heap IH]; intros s; [done|]. cbn [wake_expired_loop]. case_match; [done|]. rewrite IH.
  rewrite wake_timer_enqueue. destruct (get_thread _ id); [|done]. case_match; [|done]. unfold enqueue_woken. by case_match.
Qed.

(** ** The invariant *)

Definition off_queue (k : Kernel) (tid : u64) : Prop :=
  ∃ w, waiting k !! tid = Some w ∧ tid ∉ futex_queue (k_futex k) (w_key w).

Record kinv (k : Kernel) : Prop := {
  ki_sys : reachable (k_sys k);
  (** a thread is queued under the key of its own call, once *)
  ki_queued : ∀ key tid, tid ∈ futex_queue (k_futex k) key → ∃ w, waiting k !! tid = Some w ∧ w_key w = key;
  ki_nodup : ∀ key, NoDup (futex_queue (k_futex k) key);
  ki_kept : no_empty (FUTEX_QUEUES (k_futex k));
  (** a waiter that is on no queue any more does not sleep *)
  ki_awake : awake (off_queue k) (k_sys k);
}.

Lemma kinv_wait k e find view uaddr val timeout tid :
  kinv k → may_block e (k_sys k) → current (k_sys k) (e_cpu e) = Some tid → waiting k !! tid = None →
  let c := futex_wait e find view uaddr val timeout (k_futex k) in
  kinv (mkKernel c.2 (enter_wait c.1 (waiting k))).
Proof.
  intros K Hm Hc Hw. pose proof K as [Kr Kq Kn Kk Ka]. cbv zeta.
  assert (is_Some (get_thread (k_sys k) tid)) as [t Ht].
  { destruct Hm as (id & t & Hc' & _ & Ht & _). rewrite Hc in Hc'. injection Hc' as <-. by exists t. }
  pose proof (futex_wait_cases e find view uaddr val timeout (k_futex k) tid t Kk Hc Ht) as Hcs.
  destruct (futex_wait e find view uaddr val timeout (k_futex k)) as [r f]. cbn [fst snd].
  destruct Hcs as [(err & -> & -> & _)|(tg & dl & -> & _ & _ & _ & ->)]; [by destruct k|]. cbn [enter_wait].
  set (key := (tg, uaddr) : FutexKey). set (k' := mkKernel _ _).
  assert (∀ key', futex_queue (k_futex k') key' = if decide (key' = key) then push_waiter tid (futex_queue (k_futex k) key)
    else futex_queue (k_futex k) key') as Hq.
  { intros key'. unfold futex_queue at 1. cbn. case_decide; subst; by simplify_map_eq. }
  assert (tid ∉ futex_queue (k_futex k) key) as Hnq by (intros (w & ? & _)%Kq; congruence).
  split.
  - apply (reach_step (k_sys k)); [done|]. apply (step_block _ e); [done|apply do_block_for_io].
  - intros key' x. rewrite Hq. unfold k'; cbn [waiting]. intros Hx. destruct (decide (x = tid)) as [->|Hne].
    + exists (mkWaiter key dl None). split; [by simplify_map_eq|]. cbn. case_decide; [done|].
      destruct (Kq _ _ Hx) as (w & ? & _). congruence.
    + rewrite lookup_insert_ne by done. apply Kq. case_decide; [|done]. subst.
      by apply elem_of_push_waiter in Hx as [?|?].
  - intros key'. rewrite Hq. case_decide; [by apply push_waiter_nodup|done].
  - intros key'. unfold k'; cbn. destruct (decide (key' = key)) as [->|]; simplify_map_eq; [|apply Kk].
    rewrite push_waiter_new by done. intros [= E]. by apply app_nil in E as [_ ?].
  - apply (awake_blocks _ e (k_sys k) _ tid Hc); [|apply do_block_for_io|].
    + intros (w & Hx & Hno). unfold k' in Hx; cbn in Hx. simplify_map_eq. destruct Hno. rewrite Hq. cbn.
      rewrite decide_True by done. apply elem_of_push_waiter. by left.
    + eapply awake_sub; [|exact Ka]. intros x (w & Hx & Hno). unfold k' in Hx; cbn in Hx.
      destruct (decide (x = tid)) as [->|Hne]; simplify_map_eq.
      * destruct Hno. rewrite Hq. cbn. rewrite decide_True by done. apply elem_of_push_waiter. by left.
      * exists w. split; [done|]. rewrite Hq in Hno. intros Hx'. apply Hno. case_decide; [|done].
        apply elem_of_push_waiter. right. congruence.
Qed.

Lemma kinv_turn k e signal tid w :
  kinv k → (e_cpu e < MAX_CPUS)%nat → waiting k !! tid = Some w →
  kinv (mkKernel (mkFutex (futex_wait_turn e signal (k_sys k)).2 (FUTEX_QUEUES (k_futex k)))
          (<[tid := mkWaiter (w_key w) (w_deadline w) (futex_wait_turn e signal (k_sys k)).1]> (waiting k))).
Proof.
  intros [Kr Kq Kn Kk Ka] He Hw. split; try done.
  - cbn. unfold futex_wait_turn. destruct signal; [done|]. cbv zeta.
    assert (reachable (wake_expired_timers e (k_sys k))) as Hr.
    { apply (reach_step (k_sys k)); [done|]. apply (step_wake _ e); [done|apply do_wake_expired_timers]. }
    case_match; [done|]. apply (reach_step (wake_expired_timers e (k_sys k))); [done|apply step_need_resched].
  - intros key x Hx. destruct (Kq key x Hx) as (v & Hv & Hk). cbn.
    destruct (decide (x = tid)) as [->|Hne]; simplify_map_eq; [|by exists v]. eexists. split; [done|]. done.
  - apply futex_wait_turn_awake. eapply awake_sub; [|exact Ka]. intros x (v & Hv & Hno). cbn in Hv.
    destruct (decide (x = tid)) as [->|Hne]; simplify_map_eq; by eexists.
Qed.

Lemma kinv_end k e tid w signal :
  kinv k → (e_cpu e < MAX_CPUS)%nat → current (k_sys k) (e_cpu e) = Some tid → waiting k !! tid = Some w →
  kinv (mkKernel (futex_wait_end e tid (w_key w) (w_deadline w) signal (k_futex k)).2 (delete tid (waiting k))).
Proof.
  intros [Kr Kq Kn Kk Ka] He Hc Hw. rewrite futex_wait_end_exact by done. cbn [snd]. set (k' := mkKernel _ _).
  assert (∀ key', futex_queue (k_futex k') key' =
    if decide (key' = w_key w) then remove_waiter tid (futex_queue (k_futex k) (w_key w)) else futex_queue (k_futex k) key') as Hq.
  { intros key'. apply store_queue_lookup. }
  split.
  - apply (reach_step (k_sys k)); [done|]. by apply step_finish_wait.
  - intros key x. rewrite Hq. intros Hx. assert (x ≠ tid ∧ x ∈ futex_queue (k_futex k) key) as [Hne Hin].
    { case_decide; subst; [by apply elem_of_remove_waiter|]. split; [|done]. intros ->.
      destruct (Kq _ _ Hx) as (v & ? & ?). congruence. }
    destruct (Kq key x Hin) as (v & ? & ?). exists v. split; [|done]. unfold k'; cbn. by simplify_map_eq.
  - intros key. rewrite Hq. case_decide; [by apply remove_waiter_nodup|done].
  - by apply no_empty_store.
  - assert (k_sys k' = finish_current_wait e (k_sys k)) as -> by done. unfold finish_current_wait. rewrite Hc. apply fr_update; [apply calm_wait_finished|].
    eapply awake_sub; [|exact Ka]. intros x (v & Hv & Hno). unfold k' in Hv. cbn in Hv. apply lookup_delete_Some in Hv as [Hne Hv].
    exists v. split; [done|]. intros Hin. apply Hno. rewrite Hq. case_decide as E; [|done].
    apply elem_of_remove_waiter. rewrite <- E. done.
Qed.

Lemma kinv_wake k e tg_id uaddr n :
  kinv k → (e_cpu e < MAX_CPUS)%nat → e_in_interrupt e = false →
  kinv (mkKernel (futex_wake_for_thread_group e tg_id uaddr n (k_futex k)).2 (waiting k)).
Proof.
  intros [Kr Kq Kn Kk Ka] He Hi. destruct (futex_wake_group_exact e tg_id uaddr n (k_futex k)) as (_ & Hs & Hq).
  set (key := (tg_id, uaddr)) in *. set (q := futex_queue (k_futex k) key) in *. split.
  - cbn. rewrite Hs. by apply wake_all_reachable.
  - intros key' x. cbn. rewrite Hq. case_decide; [|apply Kq]. subst. intros Hx. apply Kq. change (x ∈ q).
    rewrite <- (take_drop (Z.to_nat n) q). apply elem_of_app. by right.
  - intros key'. cbn. rewrite Hq. case_decide; [|done]. pose proof (Kn key) as Hn. fold q in Hn.
    rewrite <- (take_drop (Z.to_nat n) q) in Hn. by apply NoDup_app in Hn as (_ & _ & ?).
  - cbn. unfold futex_wake_for_thread_group. cbv zeta. case_match; [|done]. rewrite wake_up_n_exact. cbn.
    by apply (no_empty_store _ (tg_id, uaddr)).
  - cbn. rewrite Hs. eapply awake_sub; [|apply wake_all_awake; [done|exact Ka]]. cbn. intros x (w & Hw & Hno). cbn in Hno.
    rewrite Hq in Hno. destruct (decide (w_key w = key)) as [E|]; [|left; by exists w].
    destruct (decide (x ∈ q)) as [Hin|Hin]; [|left; exists w; by rewrite E].
    right. rewrite <- (take_drop (Z.to_nat n) q) in Hin. by apply elem_of_app in Hin as [?|?].
Qed.

Lemma kinv_sched k s' :
  kinv k → step (k_sys k) s' →
  (∀ e tid, blocks_current e (k_sys k) s' → current (k_sys k) (e_cpu e) = Some tid → waiting k !! tid = None) →
  kinv (mkKernel (mkFutex s' (FUTEX_QUEUES (k_futex k))) (waiting k)).
Proof.
  intros [Kr Kq Kn Kk Ka] Hs Hb. split; try done; [by eapply reach_step|]. cbn.
  apply (step_kept _ _ _ Hs); [|done]. intros e (tid & t & Hc & _) B.
  eapply (awake_blocks _ e _ _ tid Hc); [|exact B|exact Ka]. intros (w & Hw & _). cbn [waiting] in Hw. rewrite (Hb e tid B Hc) in Hw. done.
Qed.

Lemma kstep_kinv k k' : kstep k k' → kinv k → kinv k'.
Proof.
  intros [] K; [by eapply kinv_wait|by eapply kinv_turn|by eapply kinv_end|by eapply kinv_wake|by eapply kinv_sched].
Qed.

Lemma kreachable_inv k : kreachable k → kinv k.
Proof.
  induction 1 as [s Hr|k k' _ IH Hs]; [|by eapply kstep_kinv]. split.
  - done.
  - intros key tid Hin. unfold futex_queue in Hin. cbn in Hin. rewrite lookup_empty in Hin. by apply elem_of_nil in Hin.
  - intros key. constructor.
  - done.
  - split; [apply (inv_ids _ _ _ (reachable_inv s Hr))|]. by intros t _ (w & Hw & _).
Qed.
