(* ===== verification/FutexSafe.v ===== *)
(** What the futex calls promise in every state the kernel can reach: a wait is
    atomic, a wake reaches the first waiters and no wake is lost; and two runs
    in which the code does less than that. *)

From S2P Require Import Prelude Sched SchedSwitch WaitQueue SchedInv SchedSmp SchedRun SchedSafe SchedFrame SchedIsr Futex FutexInv.

(** The kernel with futexes runs the scheduler: what holds in every reachable
    state of the scheduler holds in every state of the kernel. *)
Lemma kernel_runs_scheduler k : kreachable k → reachable (k_sys k).
Proof. intros Hk. apply (kreachable_inv k Hk). Qed.

(** ** A sample *)

(** Threads 3 and 4 run on two CPUs, in one thread group; both wait on the word
    at 4096, which is 7, and a wake takes the first of them. *)
Definition sample_find : u64 → option u64 := λ _, Some 10.
Definition sample_view : UserView := mkView true None true 7.

Definition sample_call (c : nat) (k : FutexState) : FutexCall * FutexState :=
  futex_wait (sample_env c) sample_find sample_view 4096 7 0 k.

Definition sample_kernel : Kernel := mkKernel (mkFutex sample_running ∅) ∅.
Definition sample_waiting1 : Kernel :=
  mkKernel (sample_call 0 (k_futex sample_kernel)).2 (enter_wait (sample_call 0 (k_futex sample_kernel)).1 ∅).
Definition sample_waiting2 : Kernel :=
  mkKernel (sample_call 1 (k_futex sample_waiting1)).2
    (enter_wait (sample_call 1 (k_futex sample_waiting1)).1 (waiting sample_waiting1)).
Definition sample_woken : Kernel :=
  mkKernel (futex_wake_for_thread_group (sample_env 0) 10 4096 1 (k_futex sample_waiting2)).2 (waiting sample_waiting2).

Lemma sample_kernel_reachable : kreachable sample_kernel.
Proof. apply k_start, sample_running_reachable. Qed.

Lemma sample_may_block3 : may_block (sample_env 0) sample_running.
Proof.
  exists 3, (sample_started 3 Running 10). split; [vm_compute; reflexivity|]. split; [vm_compute; discriminate|].
  split; [vm_compute; reflexivity|vm_compute; discriminate].
Qed.

Lemma sample_waiting2_reachable : kreachable sample_waiting2.
Proof.
  apply (k_next sample_waiting1).
  - apply (k_next sample_kernel); [apply sample_kernel_reachable|].
    apply (k_wait sample_kernel (sample_env 0) sample_find sample_view 4096 7 0 3);
      [apply sample_may_block3|vm_compute; reflexivity|vm_compute; reflexivity].
  - apply (k_wait sample_waiting1 (sample_env 1) sample_find sample_view 4096 7 0 4);
      [|vm_compute; reflexivity|vm_compute; reflexivity].
    exists 4, (sample_started 4 Running 11). split; [vm_compute; reflexivity|]. split; [vm_compute; discriminate|].
    split; [vm_compute; reflexivity|vm_compute; discriminate].
Qed.

Lemma sample_woken_reachable : kreachable sample_woken.
Proof.
  apply (k_next sample_waiting2); [apply sample_waiting2_reachable|].
  apply (k_wake sample_waiting2 (sample_env 0) 10 4096 1); [cbn; lia|reflexivity].
Qed.

(** ** Waiting *)

(** C32: FUTEX_WAIT is atomic: a call that passes its checks either returns an
    error and changes nothing, or finds the expected value and in the same
    critical section queues the thread last under its key and puts it to sleep.
    EAGAIN means that the value differed, ETIMEDOUT that it did not. *)
Theorem futex_wait_atomic e find view uaddr val timeout k tid :
  kreachable k → may_block e (k_sys k) → current (k_sys k) (e_cpu e) = Some tid → waiting k !! tid = None →
  let '(r, f) := futex_wait e find view uaddr val timeout (k_futex k) in
  (∃ err, r = Returned (Err err) ∧ f = k_futex k ∧ (err = EAGAIN → uv_word view ≠ val) ∧ (err = ETIMEDOUT → uv_word view = val))
  ∨ ∃ tg_id deadline,
      r = Waiting tid (tg_id, uaddr) deadline ∧ find tid = Some tg_id ∧ uv_word view = val ∧
      futex_deadline e view timeout = Ok (deadline, false) ∧
      get_state (fx_sys f) tid = Some BlockedOnIO ∧
      t_wake_time_ns <$> get_thread (fx_sys f) tid = Some deadline ∧
      ∀ key, futex_queue f key = futex_queue (k_futex k) key ++ (if decide (key = (tg_id, uaddr)) then [tid] else []).
Proof.
  intros Hk (id & t & Hc' & _ & Ht & _) Hc Hw. rewrite Hc in Hc'. injection Hc' as <-.
  pose proof (kreachable_inv k Hk) as [_ Kq _ Kk _].
  pose proof (futex_wait_cases e find view uaddr val timeout (k_futex k) tid t Kk Hc Ht) as Hcs.
  destruct (futex_wait e find view uaddr val timeout (k_futex k)) as [r f].
  destruct Hcs as [?|(tg & dl & -> & Hf & Hv & Hd & ->)]; [by left|right]. exists tg, dl. split_and!; try done.
  - by apply block_io_state with t.
  - by apply block_io_state with t.
  - intros key. unfold futex_queue at 1. cbn. case_decide as E.
    + rewrite E, lookup_insert_eq. cbn. apply push_waiter_new. intros (w & Hx & _)%Kq. congruence.
    + rewrite lookup_insert_ne by done. by rewrite app_nil_r.
Qed.

Lemma futex_wait_atomic_witness :
  uv_word sample_view = 7 ∧ get_state (k_sys sample_waiting1) 3 = Some BlockedOnIO.
Proof.
  pose proof (futex_wait_atomic (sample_env 0) sample_find sample_view 4096 7 0 sample_kernel 3
    sample_kernel_reachable sample_may_block3 ltac:(vm_compute; reflexivity) ltac:(vm_compute; reflexivity)) as H.
  unfold sample_waiting1, sample_call. cbn [k_futex].
  destruct (futex_wait (sample_env 0) sample_find sample_view 4096 7 0 (k_futex sample_kernel)) as [r f] eqn:E.
  destruct H as [(err & -> & _)|(tg & dl & _ & _ & Hv & _ & Hs & _)]; [|by split].
  exfalso. assert ((futex_wait (sample_env 0) sample_find sample_view 4096 7 0 (k_futex sample_kernel)).1 = Returned (Err err)) as E'
    by (by rewrite E). revert E'. vm_compute. discriminate.
Defined.

(** ** Waking *)

(** C31: FUTEX_WAKE wakes the first waiters of the caller's thread group on the
    address, in the order they came, and returns how many: those leave the
    queue, and each that slept is Ready.  A dequeued waiter that does not sleep,
    such as one that was killed and is still queued, counts as woken and keeps
    its state; no other queue and no other thread changes. *)
Theorem futex_wake_exact e find uaddr n k tg_id :
  kreachable k → e_in_interrupt e = false → uaddr ≠ 0 → uaddr mod 4 = 0 →
  current_thread_group_id e find (k_sys k) = Some tg_id →
  let q := futex_queue (k_futex k) (tg_id, uaddr) in
  let woken := take (Z.to_nat n) q in
  let '(r, f) := futex_wake e find uaddr n (k_futex k) in
  r = Ok (Z.of_nat (length woken))
  ∧ (∀ key, futex_queue f key = if decide (key = (tg_id, uaddr)) then drop (Z.to_nat n) q else futex_queue (k_futex k) key)
  ∧ (∀ x, x ∈ woken → get_state (k_sys k) x = Some BlockedOnIO ∨ get_state (k_sys k) x = Some Blocked →
      get_state (fx_sys f) x = Some Ready)
  ∧ (∀ x, x ∈ woken → get_state (k_sys k) x ≠ Some BlockedOnIO → get_state (k_sys k) x ≠ Some Blocked →
      get_thread (fx_sys f) x = get_thread (k_sys k) x)
  ∧ (∀ x, x ∉ woken → get_thread (fx_sys f) x = get_thread (k_sys k) x).
Proof.
  intros Hk Hi H0 H4 Htg q woken. pose proof (kreachable_inv k Hk) as [_ _ Kn _ _].
  rewrite (futex_wake_group e find uaddr n _ tg_id) by done.
  destruct (futex_wake_group_exact e tg_id uaddr n (k_futex k)) as (-> & Hs & Hq). split; [done|]. split; [done|].
  assert (NoDup woken) as Hn.
  { specialize (Kn (tg_id, uaddr)). fold q in Kn. rewrite <- (take_drop (Z.to_nat n) q) in Kn. by apply NoDup_app in Kn as [? _]. }
  assert (∀ x, get_thread (fx_sys (futex_wake_for_thread_group e tg_id uaddr n (k_futex k)).2) x
    = if decide (x ∈ woken) then io_woken <$> get_thread (k_sys k) x else get_thread (k_sys k) x) as Hg.
  { intros x. rewrite Hs. by apply wake_all_get. }
  split_and!; intros x Hx.
  - unfold get_state. rewrite Hg, decide_True by done. destruct (get_thread (k_sys k) x) as [t|]; [|naive_solver].
    cbn. intros [[= E]|[= E]]; unfold io_woken, set_ready; by rewrite E.
  - unfold get_state. rewrite Hg, decide_True by done. destruct (get_thread (k_sys k) x) as [t|]; [|done].
    cbn. intros H1 H2. f_equal. unfold io_woken. destruct (t_state t); congruence.
  - by rewrite Hg, decide_False.
Qed.

Lemma futex_wake_exact_witness :
  futex_queue (k_futex sample_waiting2) (10, 4096) = [3; 4] ∧
  let '(r, f) := futex_wake (sample_env 0) sample_find 4096 1 (k_futex sample_waiting2) in
  r = Ok 1 ∧ futex_queue f (10, 4096) = [4].
Proof.
  assert (futex_queue (k_futex sample_waiting2) (10, 4096) = [3; 4]) as Hq by (vm_compute; reflexivity).
  split; [exact Hq|].
  pose proof (futex_wake_exact (sample_env 0) sample_find 4096 1 sample_waiting2 10 sample_waiting2_reachable
    eq_refl ltac:(discriminate) eq_refl ltac:(vm_compute; reflexivity)) as H.
  cbv zeta in H. rewrite Hq in H. destruct (futex_wake _ _ _ _ _) as [r f].
  destruct H as (Hr & Hf & _). split; [exact Hr|]. specialize (Hf (10, 4096)). rewrite decide_True in Hf by reflexivity. exact Hf.
Defined.

(** C10: no wake is lost: a waiter that is no longer on the queue of its key does
    not sleep, in any state the kernel can reach.  When it runs again its next
    turn leaves the loop, and its call returns 0, also when a signal or the
    deadline came at the same time. *)
Theorem futex_wake_not_lost k tid w :
  kreachable k → waiting k !! tid = Some w → tid ∉ futex_queue (k_futex k) (w_key w) →
  get_state (k_sys k) tid ≠ Some BlockedOnIO ∧
  ∀ e, current (k_sys k) (e_cpu e) = Some tid →
    (futex_wait_turn e false (k_sys k)).1 = Some false ∧
    ∀ signal, (futex_wait_end e tid (w_key w) (w_deadline w) signal (k_futex k)).1 = Ok 0.
Proof.
  intros Hk Hw Hno. pose proof (kreachable_inv k Hk) as [_ _ _ _ Ka].
  assert (off_queue k tid) as Hoff by (by exists w). split; [by eapply awake_get|]. intros e Hc. split.
  - unfold futex_wait_turn. cbv zeta. pose proof (fr_expired (P := awake (off_queue k)) e _ Ka) as H1.
    rewrite (still_waiting_awake _ e _ tid H1); [done|done|]. unfold current, cpu in *. by rewrite wake_expired_cpus.
  - intros signal. rewrite futex_wait_end_exact by done. cbn [fst].
    destruct (contains tid (futex_queue (k_futex k) (w_key w))) eqn:E; [|done]. by apply contains_spec in E.
Qed.

Lemma futex_wake_not_lost_witness :
  waiting sample_woken !! 3 = Some (mkWaiter (10, 4096) None None) ∧ get_state (k_sys sample_woken) 3 ≠ Some BlockedOnIO.
Proof.
  assert (waiting sample_woken !! 3 = Some (mkWaiter (10, 4096) None None)) as Hw by (vm_compute; reflexivity).
  split; [exact Hw|]. apply (futex_wake_not_lost sample_woken 3 _ sample_woken_reachable Hw).
  intros Hin%contains_spec. revert Hin. vm_compute. discriminate.
Defined.

(** ** Where the code does less *)

(** Both threads wait; thread 3 is killed and its entry stays in the queue.  The
    next FUTEX_WAKE for one thread takes that entry: it reports one thread woken
    and thread 4 sleeps on. *)
Lemma killed_waiter_takes_wake :
  let f := k_futex sample_waiting2 in
  let killed := mkFutex (terminate_process_threads (sample_env 1) 10 (fx_sys f)) (FUTEX_QUEUES f) in
  let '(woken, f') := futex_wake_for_thread_group (sample_env 1) 10 4096 1 killed in
  woken = 1 ∧ get_state (fx_sys f') 3 = Some Terminated ∧ get_state (fx_sys f') 4 = Some BlockedOnIO
  ∧ futex_queue f' (10, 4096) = [4].
Proof. vm_compute. repeat split. Qed.

(** The seconds of a timeout are multiplied modulo 2^64: a timeout of 2^55
    seconds counts as zero, and the call times out at once. *)
Lemma long_timeout_wraps :
  futex_deadline (sample_env 0) (mkView true (Some (2 ^ 55, 0)) true 7) 1 = Ok (Some 1000, true)
  ∧ (futex_wait (sample_env 0) sample_find (mkView true (Some (2 ^ 55, 0)) true 7) 4096 7 1 (k_futex sample_kernel)).1
    = Returned (Err ETIMEDOUT).
Proof. vm_compute. repeat split. Qed.
