(* ===== verification/Atomic.v ===== *)
(** Programs over a shared state that is read and written one atomic access at a
    time.  A [prog] is a tree of accesses; [exec] runs it without interference,
    and a pool of programs runs with every interleaving of their accesses.

    [safe] is the rule for one program in a pool: every access keeps the
    invariant of the state and of the tokens of all programs, whatever tokens
    the others hold.  A pool of safe programs keeps the invariant. *)

From S2P Require Import Prelude.

Inductive prog (S A : Type) : Type :=
  | Ret (a : A)
  | Act {B : Type} (f : S → B * S) (k : B → prog S A).
Arguments Ret {S A} a.
Arguments Act {S A B} f k.

Fixpoint prog_bind {S A B} (k : A → prog S B) (p : prog S A) : prog S B :=
  match p with
  | Ret a => k a
  | Act f h => Act f (λ b, prog_bind k (h b))
  end.

#[global] Instance prog_mret {S} : MRet (prog S) := λ A a, Ret a.
#[global] Instance prog_mbind {S} : MBind (prog S) := λ A B k p, prog_bind k p.

(** One access, and a read. *)
Definition act {S B} (f : S → B * S) : prog S B := Act f Ret.
Definition get {S B} (f : S → B) : prog S B := act (λ s, (f s, s)).

Fixpoint exec {S A} (p : prog S A) (s : S) : A * S :=
  match p with
  | Ret a => (a, s)
  | Act f k => exec (k (f s).1) (f s).2
  end.

Lemma exec_bind {S A B} (p : prog S A) (k : A → prog S B) s :
  exec (p ≫= k) s = exec (k (exec p s).1) (exec p s).2.
Proof. revert s. induction p as [a|C f h IH]; intros s; [done|]. cbn. apply IH. Qed.

Lemma exec_get {S B} (f : S → B) s : exec (get f) s = (f s, s).
Proof. done. Qed.

Lemma exec_act {S B} (f : S → B * S) s : exec (act f) s = f s.
Proof. cbn. by destruct (f s). Qed.

(** Two programs, scheduled by a list: [true] lets the first make one access. *)
Definition access {S A} (p : prog S A) (s : S) : prog S A * S :=
  match p with Ret a => (Ret a, s) | Act f k => (k (f s).1, (f s).2) end.

Fixpoint interleave {S A B} (schedule : list bool) (p : prog S A) (q : prog S B) (s : S) : prog S A * prog S B * S :=
  match schedule with
  | [] => (p, q, s)
  | true :: schedule => let '(p, s) := access p s in interleave schedule p q s
  | false :: schedule => let '(q, s) := access q s in interleave schedule p q s
  end.

Section pool.
Context {S Token : Type}.
Context (I : S → list Token → Prop).

(** A program that holds the tokens [T] and ends with those of [Q]. *)
Fixpoint safe {A} (p : prog S A) (T : list Token) (Q : A → list Token → Prop) : Prop :=
  match p with
  | Ret a => Q a T
  | Act f k => ∀ s R, I s (T ++ R) → ∃ T', I (f s).2 (T' ++ R) ∧ safe (k (f s).1) T' Q
  end.

Lemma safe_mono {A} (p : prog S A) T (Q Q' : A → list Token → Prop) :
  (∀ a T, Q a T → Q' a T) → safe p T Q → safe p T Q'.
Proof.
  intros HQ. revert T. induction p as [a|B f k IH]; intros T; [apply HQ|]. cbn. intros H s R HI.
  destruct (H s R HI) as (T' & ? & ?). exists T'. auto.
Qed.

Lemma safe_bind {A B} (p : prog S A) (k : A → prog S B) T Q :
  safe p T (λ a T, safe (k a) T Q) → safe (p ≫= k) T Q.
Proof.
  revert T. induction p as [a|C f h IH]; intros T; [done|]. cbn. intros H s R HI.
  destruct (H s R HI) as (T' & ? & ?). exists T'. split; [done|]. by apply IH.
Qed.

(** A read: what it saw may be used if it follows from the invariant. *)
Lemma safe_get {A} (f : S → A) T Q :
  (∀ s R, I s (T ++ R) → Q (f s) T) → safe (get f) T Q.
Proof. intros H s R HI. exists T. split; [done|]. by eapply H. Qed.

Lemma safe_act {A} (f : S → A * S) T Q :
  (∀ s R, I s (T ++ R) → ∃ T', I (f s).2 (T' ++ R) ∧ Q (f s).1 T') → safe (act f) T Q.
Proof. done. Qed.

(** Run alone, a safe program ends in a good state. *)
Lemma safe_exec {A} (p : prog S A) T R Q s :
  safe p T Q → I s (T ++ R) → ∃ T', I (exec p s).2 (T' ++ R) ∧ Q (exec p s).1 T'.
Proof.
  revert T s. induction p as [a|B f k IH]; intros T s; cbn; [by exists T|]. intros H HI.
  destruct (H s R HI) as (T' & HI' & Hk). by eapply IH.
Qed.

(** Tokens a program does not use stay with it. *)
Lemma safe_frame {A} (p : prog S A) T T0 Q :
  safe p T Q → safe p (T ++ T0) (λ a T', ∃ T1, T' = T1 ++ T0 ∧ Q a T1).
Proof.
  revert T. induction p as [a|B f k IH]; intros T; cbn; [by exists T|]. intros H s R HI. rewrite <- app_assoc in HI.
  destruct (H s (T0 ++ R) HI) as (T' & HI' & Hk). exists (T' ++ T0). rewrite <- app_assoc. auto.
Qed.

End pool.

Arguments safe {S Token} I {A} p T Q.
