(* ===== verification/FrameAlloc.v ===== *)
(** The allocator of physical frames (memory/frame_allocator.rs) and the counts
    of mappings kept beside it (memory/frame_metadata.rs).

    The allocator is lock-free: a frontier and a ledger of one word per frame
    are changed by compare-and-exchange, and the free list is used only when its
    lock is free.  Each function is a [prog] whose atomic accesses interleave
    with those of other CPUs.  A loop that retries after a lost exchange takes
    its number of turns as an argument and gives [None] when they run out.  What
    a call finds outside (whether a try_lock succeeds, whether memory can be
    reserved) is an argument.  The memory map is fixed once the kernel has
    booted, and is the parameter [regions]; traces, counters and the code of the
    features testing and boot_tests are left out. *)

From S2P Require Import Prelude Atomic.

(** * The memory map *)

Definition MAX_REGIONS : nat := 128.
Definition LOW_MEMORY_FLOOR : u64 := 0x100000.

Record UsableRegion := mkRegion { start : u64; end_ : u64 }.

(** A region of the boot loader's map and whether its kind is Usable. *)
Record MemoryRegion := mkMemoryRegion { mr_start : u64; mr_end : u64; mr_usable : bool }.

Definition add_region (regions : list UsableRegion) (r : MemoryRegion) : list UsableRegion :=
  if mr_usable r then
    if mr_end r <=? LOW_MEMORY_FLOOR then regions
    else if (length regions <? MAX_REGIONS)%nat then
      let adjusted_start := if mr_start r <? LOW_MEMORY_FLOOR then LOW_MEMORY_FLOOR else mr_start r in
      regions ++ [mkRegion adjusted_start (mr_end r)]
    else regions
  else regions.

(** The regions [init] stores. *)
Definition init (memory_regions : list MemoryRegion) : list UsableRegion :=
  foldl add_region [] memory_regions.

Definition init_aarch64 (start end_ : u64) : list UsableRegion :=
  [mkRegion (Z.land (wrap 64 (start + 0xFFF)) (wnot 64 0xFFF)) end_].

Definition containing_address (a : u64) : u64 := a - a mod 4096.

Definition region_frames (r : UsableRegion) : Z := (end_ r - start r) / 4096.

Fixpoint usable_frame_from (regions : list UsableRegion) (count n : Z) : option u64 :=
  match regions with
  | [] => None
  | region :: regions =>
      if n <? count + region_frames region then
        let frame_addr := start region + (n - count) * 4096 in
        if frame_addr <? LOW_MEMORY_FLOOR then None else Some (containing_address frame_addr)
      else usable_frame_from regions (count + region_frames region) n
  end.

Definition get_usable_frame (regions : list UsableRegion) (n : Z) : option u64 := usable_frame_from regions 0 n.

Fixpoint frame_ordinal_from (regions : list UsableRegion) (ordinal : Z) (address : u64) : option Z :=
  match regions with
  | [] => None
  | region :: regions =>
      if (start region <=? address) && (address <? end_ region)
      then Some (ordinal + (address - start region) / 4096)
      else frame_ordinal_from regions (ordinal + region_frames region) address
  end.

Definition frame_ordinal (regions : list UsableRegion) (frame : u64) : option Z := frame_ordinal_from regions 0 frame.

(** * The ledger *)

Definition LEDGER_CHUNK_FRAMES : Z := 64 * 1024.
Definition MAX_TRACKED_FRAMES : Z := 2 ^ 32 - 1.
Definition ST_NEVER : u32 := 0.
Definition ST_ALLOCATED : u32 := 1.
Definition ST_FREE : u32 := 2.
Definition STATE_MASK : u32 := 3.
Definition LEAF_EXTERNAL : u32 := 2 ^ 32 - 1.
Definition BOOTSTRAP_FREE_CAPACITY : nat := 64.
Definition MAX_EXTERNAL_LEAF_SPANS : nat := 16.

Record FrameLedgerSlot := mkSlot { allocation : u32; leaf_refs : u32 }.

Definition FrameLedgerSlot_new (a : u32) : FrameLedgerSlot := mkSlot a 0.

Record FrameLedger := mkLedger {
  chunks : list (option (list FrameLedgerSlot));
  total_frames : Z;
  initial_frontier : Z;
}.

Definition FrameLedger_try_new (total_frames initial_frontier : Z) : FrameLedger :=
  mkLedger (replicate (Z.to_nat ((total_frames + LEDGER_CHUNK_FRAMES - 1) / LEDGER_CHUNK_FRAMES)) None)
    total_frames initial_frontier.

(** The slots of a chunk before any of its frames has been claimed. *)
Definition initial_word (l : FrameLedger) (index : Z) : u32 :=
  if index <? initial_frontier l then Z.lor (Z.shiftl 1 2) ST_ALLOCATED else ST_NEVER.

Definition new_chunk (l : FrameLedger) (chunk_index : Z) : list FrameLedgerSlot :=
  let first := chunk_index * LEDGER_CHUNK_FRAMES in
  let last := Z.min (first + LEDGER_CHUNK_FRAMES) (total_frames l) in
  (λ k, FrameLedgerSlot_new (initial_word l k)) <$> seqZ first (last - first).

Definition chunk_at (l : FrameLedger) (index : Z) : option (list FrameLedgerSlot) :=
  chunks l !! Z.to_nat (index / LEDGER_CHUNK_FRAMES) ≫= λ c, c.

Definition FrameLedger_get (l : FrameLedger) (index : Z) : option FrameLedgerSlot :=
  if total_frames l <=? index then None
  else chunk_at l index ≫= λ slots, slots !! Z.to_nat (index mod LEDGER_CHUNK_FRAMES).

(** [spin::Once::call_once] of the chunk of [index]: the first one stays. *)
Definition publish_chunk (index : Z) (l : FrameLedger) : FrameLedger :=
  match chunk_at l index with
  | Some _ => l
  | None =>
      let chunk_index := index / LEDGER_CHUNK_FRAMES in
      mkLedger (<[Z.to_nat chunk_index := Some (new_chunk l chunk_index)]> (chunks l)) (total_frames l) (initial_frontier l)
  end.

Definition update_slot (index : Z) (f : FrameLedgerSlot → FrameLedgerSlot) (l : FrameLedger) : FrameLedger :=
  mkLedger
    (alter (fmap (alter f (Z.to_nat (index mod LEDGER_CHUNK_FRAMES)))) (Z.to_nat (index / LEDGER_CHUNK_FRAMES)) (chunks l))
    (total_frames l) (initial_frontier l).

(** * The state *)

Record Frames := mkFrames {
  NEXT_FREE_FRAME : Z;
  FRAME_LEDGER : option FrameLedger;
  FREE_FRAMES : list u64;
  free_capacity : Z;           (* the capacity of the vector FREE_FRAMES *)
  FREE_FRAME_CAPACITY : Z;
  BOOTSTRAP_FREE_FRAMES : list u64;
  EXTERNAL_LEAF_SPANS : list (u64 * u64);
}.

Definition set_frontier (x : Z) (s : Frames) : Frames :=
  mkFrames x (FRAME_LEDGER s) (FREE_FRAMES s) (free_capacity s) (FREE_FRAME_CAPACITY s) (BOOTSTRAP_FREE_FRAMES s)
    (EXTERNAL_LEAF_SPANS s).
Definition set_ledger (x : option FrameLedger) (s : Frames) : Frames :=
  mkFrames (NEXT_FREE_FRAME s) x (FREE_FRAMES s) (free_capacity s) (FREE_FRAME_CAPACITY s) (BOOTSTRAP_FREE_FRAMES s)
    (EXTERNAL_LEAF_SPANS s).
Definition set_free (x : list u64) (s : Frames) : Frames :=
  mkFrames (NEXT_FREE_FRAME s) (FRAME_LEDGER s) x (free_capacity s) (FREE_FRAME_CAPACITY s) (BOOTSTRAP_FREE_FRAMES s)
    (EXTERNAL_LEAF_SPANS s).
Definition set_capacity (cap published : Z) (s : Frames) : Frames :=
  mkFrames (NEXT_FREE_FRAME s) (FRAME_LEDGER s) (FREE_FRAMES s) cap published (BOOTSTRAP_FREE_FRAMES s)
    (EXTERNAL_LEAF_SPANS s).
Definition set_bootstrap (x : list u64) (s : Frames) : Frames :=
  mkFrames (NEXT_FREE_FRAME s) (FRAME_LEDGER s) (FREE_FRAMES s) (free_capacity s) (FREE_FRAME_CAPACITY s) x
    (EXTERNAL_LEAF_SPANS s).
Definition set_spans (x : list (u64 * u64)) (s : Frames) : Frames :=
  mkFrames (NEXT_FREE_FRAME s) (FRAME_LEDGER s) (FREE_FRAMES s) (free_capacity s) (FREE_FRAME_CAPACITY s)
    (BOOTSTRAP_FREE_FRAMES s) x.

(** The statics before boot. *)
Definition frames_zero : Frames := mkFrames 0 None [] 0 0 [] (replicate MAX_EXTERNAL_LEAF_SPANS (0, 0)).

Abbreviation Prog := (prog Frames).

(** ** Atomic accesses *)

Definition slot (s : Frames) (index : Z) : option FrameLedgerSlot :=
  FRAME_LEDGER s ≫= λ l, FrameLedger_get l index.

Definition on_slot (index : Z) (f : FrameLedgerSlot → FrameLedgerSlot) (s : Frames) : Frames :=
  set_ledger (update_slot index f <$> FRAME_LEDGER s) s.

Definition word (s : Frames) (index : Z) : u32 := default 0 (allocation <$> slot s index).
Definition refs (s : Frames) (index : Z) : u32 := default 0 (leaf_refs <$> slot s index).

Definition has_slot (index : Z) : Prog bool := get (λ s, bool_decide (is_Some (slot s index))).
Definition load_word (index : Z) : Prog u32 := get (λ s, word s index).
Definition load_refs (index : Z) : Prog u32 := get (λ s, refs s index).

(** The accesses follow a successful [has_slot], and a slot never goes away. *)
Definition cas_word (index : Z) (old new : u32) : Prog bool :=
  act (λ s,
    match slot s index with
    | Some x => if allocation x =? old then (true, on_slot index (λ x, mkSlot new (leaf_refs x)) s) else (false, s)
    | None => (false, s)
    end).
Definition cas_refs (index : Z) (old new : u32) : Prog bool :=
  act (λ s,
    match slot s index with
    | Some x => if leaf_refs x =? old then (true, on_slot index (λ x, mkSlot (allocation x) new) s) else (false, s)
    | None => (false, s)
    end).
Definition fetch_sub_refs (index : Z) : Prog unit :=
  act (λ s, (tt, on_slot index (λ x, mkSlot (allocation x) (wrap 32 (leaf_refs x - 1))) s)).
Definition cas_frontier (old new : Z) : Prog bool :=
  act (λ s, if NEXT_FREE_FRAME s =? old then (true, set_frontier new s) else (false, s)).

(** [FREE_FRAMES.try_lock()] and [pop]. *)
Definition pop_free : Prog (option u64) :=
  act (λ s, (last (FREE_FRAMES s), set_free (removelast (FREE_FRAMES s)) s)).

(** * Allocation *)

Record FrameLease := mkLease { lease_frame : u64; lease_index : u32; lease_generation : u32 }.

Inductive ReturnOutcome :=
  | FrameReturned | LostContended | RefusedDoubleRelease | RefusedStale
  | RefusedNeverAllocated | RefusedUntracked | RefusedLiveLeaf.
Inductive LeafMappingClass := Owned | External.
Inductive PrepareFrame := Ready | Contended | Exhausted.
Inductive ClaimError := Duplicate | Untracked.

(** What a preparation finds: the reservation of a ledger chunk succeeds, the
    lock of the free list is free, and the capacity a reservation gives the
    vector, which is at least what was asked for. *)
Record PrepareEnv := mkPrepare { pe_chunk : bool; pe_lock : bool; pe_reserve : option Z }.

(** [Vec::try_reserve]. *)
Definition try_reserve (granted : option Z) (additional : Z) (s : Frames) : option Z :=
  if Z.of_nat (length (FREE_FRAMES s)) + additional <=? free_capacity s then Some (free_capacity s)
  else Z.max (Z.of_nat (length (FREE_FRAMES s)) + additional) <$> granted.

Section allocator.
Context (regions : list UsableRegion).

Definition ensure_chunk (reserve : bool) (l : FrameLedger) (index : Z) : Prog bool :=
  if total_frames l <=? index then mret false
  else
    present ← get (λ s, bool_decide (is_Some (FRAME_LEDGER s ≫= λ l, chunk_at l index)));
    if present : bool then mret true
    else if negb reserve then mret false
    else act (λ s, (true, set_ledger (publish_chunk index <$> FRAME_LEDGER s) s)).

(** The critical section on the free list. *)
Definition grow_free (granted : option Z) (required : Z) (s : Frames) : PrepareFrame * Frames :=
  if free_capacity s <? required then
    match try_reserve granted (Z.max 0 (required - Z.of_nat (length (FREE_FRAMES s)))) s with
    | None => (Exhausted, s)
    | Some cap => (Ready, set_capacity cap cap s)
    end
  else (Ready, set_capacity (free_capacity s) (free_capacity s) s).

Definition ensure_free_frame_capacity (env : PrepareEnv) (required : Z) : Prog PrepareFrame :=
  published ← get FREE_FRAME_CAPACITY;
  if required <=? published then mret Ready
  else if negb (pe_lock env) then mret Contended
  else act (grow_free (pe_reserve env) required).

Definition prepare_frame_for_allocation (env : PrepareEnv) (index : Z) : Prog PrepareFrame :=
  ledger ← get FRAME_LEDGER;
  match ledger with
  | None => mret Ready
  | Some l =>
      ok ← ensure_chunk (pe_chunk env) l index;
      if negb ok then mret Exhausted else ensure_free_frame_capacity env (index + 1)
  end.

(** [env] gives what each turn finds, by the number of turns left. *)
Fixpoint BootInfoFrameAllocator_allocate_frame (turns : nat) (env : nat → PrepareEnv) (capacity_contentions : nat)
  : Prog (option (option u64)) :=
  match turns with
  | O => mret None
  | S turns =>
      current ← get NEXT_FREE_FRAME;
      match get_usable_frame regions current with
      | None => mret (Some None)
      | Some frame =>
          prepared ← prepare_frame_for_allocation (env turns) current;
          let claim contentions :=
            won ← cas_frontier current (current + 1);
            if won : bool then mret (Some (Some frame))
            else BootInfoFrameAllocator_allocate_frame turns env contentions in
          match prepared with
          | Ready => claim 0%nat
          | Contended =>
              if (capacity_contentions <? 8)%nat
              then BootInfoFrameAllocator_allocate_frame turns env (capacity_contentions + 1)
              else claim capacity_contentions
          | Exhausted => mret (Some None)
          end
      end
  end.

Record AllocEnv := mkAlloc { ae_lock : bool; ae_prepare : nat → PrepareEnv }.

Definition allocate_candidate (turns : nat) (env : AllocEnv) : Prog (option (option u64)) :=
  popped ← (if ae_lock env then pop_free else mret None);
  match popped with
  | Some frame => mret (Some (Some frame))
  | None => BootInfoFrameAllocator_allocate_frame turns (ae_prepare env) 0
  end.

Definition next_generation (observed : u32) : u32 := Z.land (wrap 32 (Z.shiftr observed 2 + 1)) 0x3fffffff.

Fixpoint claim_loop (turns : nat) (frame : u64) (index : Z) : Prog (option (result (option FrameLease) ClaimError)) :=
  match turns with
  | O => mret None
  | S turns =>
      observed ← load_word index;
      let st := Z.land observed STATE_MASK in
      if (st =? ST_NEVER) || (st =? ST_FREE) then
        r ← load_refs index;
        if negb (r =? 0) then mret (Some (Err Duplicate))
        else
          let generation := next_generation observed in
          let allocated := Z.lor (wrap 32 (Z.shiftl generation 2)) ST_ALLOCATED in
          won ← cas_word index observed allocated;
          if won : bool then mret (Some (Ok (Some (mkLease frame (wrap 32 index) generation))))
          else claim_loop turns frame index
      else if st =? ST_ALLOCATED then mret (Some (Err Duplicate))
      else mret (Some (Err Untracked))
  end.

Definition claim_frame (turns : nat) (frame : u64) : Prog (option (result (option FrameLease) ClaimError)) :=
  ledger ← get FRAME_LEDGER;
  match ledger with
  | None => mret (Some (Ok None))
  | Some _ =>
      match frame_ordinal regions frame with
      | None => mret (Some (Err Untracked))
      | Some index =>
          found ← has_slot index;
          if negb found then mret (Some (Err Untracked)) else claim_loop turns frame index
      end
  end.

Fixpoint allocate_claimed (turns : nat) (env : nat → AllocEnv) : Prog (option (option (u64 * option FrameLease))) :=
  match turns with
  | O => mret None
  | S n =>
      candidate ← allocate_candidate turns (env n);
      match candidate with
      | None => mret None
      | Some None => mret (Some None)
      | Some (Some frame) =>
          claimed ← claim_frame turns frame;
          match claimed with
          | None => mret None
          | Some (Ok lease) => mret (Some (Some (frame, lease)))
          | Some (Err _) => allocate_claimed n env
          end
      end
  end.

Definition allocate_frame (turns : nat) (env : nat → AllocEnv) : Prog (option (option u64)) :=
  r ← allocate_claimed turns env; mret (option_map (option_map fst) r).

(** [None] also stands for the failed assertion that the ledger exists. *)
Definition allocate_frame_leased (turns : nat) (env : nat → AllocEnv) : Prog (option (option FrameLease)) :=
  ledger ← get FRAME_LEDGER;
  match ledger with
  | None => mret None
  | Some _ => r ← allocate_claimed turns env; mret (option_map (λ o, match o with Some (_, lease) => lease | None => None end) r)
  end.

(** * Returns *)

(** What a return finds: the lock of the bootstrap array or of the free list. *)
Definition push_bootstrap (frame : u64) (s : Frames) : ReturnOutcome * Frames :=
  if (length (BOOTSTRAP_FREE_FRAMES s) =? BOOTSTRAP_FREE_CAPACITY)%nat then (LostContended, s)
  else (FrameReturned, set_bootstrap (BOOTSTRAP_FREE_FRAMES s ++ [frame]) s).

Definition push_free (frame : u64) (s : Frames) : ReturnOutcome * Frames :=
  if Z.of_nat (length (FREE_FRAMES s)) =? free_capacity s then (LostContended, s)
  else (FrameReturned, set_free (FREE_FRAMES s ++ [frame]) s).

(** The loop that frees the word of the lease: [None] within the result means
    that the word was freed. *)
Fixpoint release_loop (turns : nat) (lease : FrameLease) : Prog (option (option ReturnOutcome)) :=
  match turns with
  | O => mret None
  | S turns =>
      observed ← load_word (lease_index lease);
      let st := Z.land observed STATE_MASK in
      if st =? ST_NEVER then mret (Some (Some RefusedNeverAllocated))
      else if negb (Z.shiftr observed 2 =? lease_generation lease) then mret (Some (Some RefusedStale))
      else if st =? ST_ALLOCATED then
        r ← load_refs (lease_index lease);
        if negb (r =? 0) then mret (Some (Some RefusedLiveLeaf))
        else
          let free := Z.lor (Z.land observed (wnot 32 STATE_MASK)) ST_FREE in
          won ← cas_word (lease_index lease) observed free;
          if won : bool then mret (Some None) else release_loop turns lease
      else if st =? ST_FREE then mret (Some (Some RefusedDoubleRelease))
      else mret (Some (Some RefusedUntracked))
  end.

Definition return_lease (turns : nat) (lock : bool) (lease : FrameLease) : Prog (option ReturnOutcome) :=
  ledger ← get FRAME_LEDGER;
  match ledger with
  | None => if lock then o ← act (push_bootstrap (lease_frame lease)); mret (Some o) else mret (Some LostContended)
  | Some l =>
      if negb (bool_decide (frame_ordinal regions (lease_frame lease) = Some (lease_index lease)))
      then mret (Some RefusedUntracked)
      else
        found ← has_slot (lease_index lease);
        if negb found then
          mret (Some (if lease_index lease <? total_frames l then RefusedNeverAllocated else RefusedUntracked))
        else
          released ← release_loop turns lease;
          match released with
          | None => mret None
          | Some (Some outcome) => mret (Some outcome)
          | Some None =>
              if lock then o ← act (push_free (lease_frame lease)); mret (Some o) else mret (Some LostContended)
          end
  end.

Definition current_lease_for_frame (frame : u64) : Prog FrameLease :=
  let index := default (2 ^ 64 - 1) (frame_ordinal regions frame) in
  generation ← get (λ s, default 0 ((λ x, Z.shiftr (allocation x) 2) <$> slot s index));
  mret (mkLease frame (Z.min index (2 ^ 32 - 1)) generation).

Definition deallocate_leaf_frame (turns : nat) (lock : bool) (frame : u64) : Prog (option ReturnOutcome) :=
  lease ← current_lease_for_frame frame; return_lease turns lock lease.

Definition deallocate_frame (turns : nat) (lock : bool) (frame : u64) : Prog unit :=
  if frame <? LOW_MEMORY_FLOOR then mret tt
  else
    lease ← current_lease_for_frame frame;
    _ ← return_lease turns lock lease;
    mret tt.

(** * Contiguous runs *)

Definition MAX_CONTIGUOUS_ATTEMPTS : nat := 16.

(** The frames after [run - 1] at the frontier that are physically adjacent, up
    to [count]. *)
Fixpoint measure_run (fuel : nat) (base run count prev : Z) : Z :=
  match fuel with
  | O => run
  | S fuel =>
      if run <? count then
        match get_usable_frame regions (base + run) with
        | None => run
        | Some address => if address =? prev + 4096 then measure_run fuel base (run + 1) count address else run
        end
      else run
  end.

(** Eight retries on contention, then the run is published anyway. *)
Fixpoint prepare_until (turns : nat) (env : nat → PrepareEnv) (index : Z) : Prog bool :=
  prepared ← prepare_frame_for_allocation (env turns) index;
  match prepared with
  | Ready => mret true
  | Contended => match turns with O => mret true | S turns => prepare_until turns env index end
  | Exhausted => mret false
  end.

Fixpoint prepare_contiguous_run (env : nat → nat → PrepareEnv) (base : Z) (indices : list nat) : Prog bool :=
  match indices with
  | [] => mret true
  | i :: indices =>
      ok ← prepare_until 8 (env i) (base + Z.of_nat i);
      if ok : bool then prepare_contiguous_run env base indices else mret false
  end.

(** The frames claimed before the first refusal. *)
Fixpoint claim_run (turns : nat) (base : Z) (indices : list nat) : Prog (option (list u64)) :=
  match indices with
  | [] => mret (Some [])
  | i :: indices =>
      match get_usable_frame regions (base + Z.of_nat i) with
      | None => mret (Some [])
      | Some frame =>
          r ← claim_frame turns frame;
          match r with
          | None => mret None
          | Some (Err _) => mret (Some [])
          | Some (Ok _) => rest ← claim_run turns base indices; mret (option_map (cons frame) rest)
          end
      end
  end.

Fixpoint deallocate_all (turns : nat) (lock : nat → bool) (frames : list u64) : Prog unit :=
  match frames with
  | [] => mret tt
  | frame :: frames => deallocate_frame turns (lock (length frames)) frame;; deallocate_all turns lock frames
  end.

Record RunEnv := mkRun { re_prepare : nat → nat → PrepareEnv; re_lock : nat → bool }.

Fixpoint contiguous_attempts (attempts turns : nat) (env : nat → RunEnv) (count : nat) : Prog (option (option (list u64))) :=
  match attempts with
  | O => mret (Some None)
  | S attempts =>
      base ← get NEXT_FREE_FRAME;
      match get_usable_frame regions base with
      | None => mret (Some None)
      | Some first =>
          let run := Z.to_nat (measure_run count base 1 (Z.of_nat count) first) in
          ok ← prepare_contiguous_run (re_prepare (env attempts)) base (seq 0 run);
          if negb ok then mret (Some None)
          else
            won ← cas_frontier base (base + Z.of_nat run);
            if negb won then contiguous_attempts attempts turns env count
            else
              r ← claim_run turns base (seq 0 run);
              match r with
              | None => mret None
              | Some claimed =>
                  if (length claimed =? count)%nat then mret (Some (Some claimed))
                  else
                    deallocate_all turns (re_lock (env attempts)) claimed;;
                    if negb (length claimed =? run)%nat then mret (Some None)
                    else contiguous_attempts attempts turns env count
              end
      end
  end.

(** The frames written to [out], of which the first is returned. *)
Definition allocate_contiguous_frames (turns : nat) (env : nat → RunEnv) (count out_len : nat)
  : Prog (option (option (list u64))) :=
  if (count =? 0)%nat || (out_len <? count)%nat then mret (Some None)
  else contiguous_attempts MAX_CONTIGUOUS_ATTEMPTS turns env count.

(** * Leaf mappings *)

Definition in_span (address : u64) (span : u64 * u64) : bool :=
  negb (span.1 =? span.2) && (span.1 <=? address) && (address <? span.2).

Definition frame_in_external_leaf_span (frame : u64) : Prog bool :=
  get (λ s, existsb (in_span frame) (EXTERNAL_LEAF_SPANS s)).

Fixpoint mark_external_loop (turns : nat) (index : Z) : Prog (option (result bool string)) :=
  match turns with
  | O => mret None
  | S turns =>
      r ← load_refs index;
      if r =? LEAF_EXTERNAL then mret (Some (Ok true))
      else if negb (r =? 0) then mret (Some (Err "external leaf frame already has owned mappings"%string))
      else
        won ← cas_refs index 0 LEAF_EXTERNAL;
        if won : bool then mret (Some (Ok true)) else mark_external_loop turns index
  end.

Definition mark_external_leaf_slot (turns : nat) (frame : u64) : Prog (option (result bool string)) :=
  match frame_ordinal regions frame with
  | None => mret (Some (Ok false))
  | Some index =>
      ledger ← get FRAME_LEDGER;
      match ledger with
      | None => mret (Some (Err "frame ledger not initialized"%string))
      | Some _ =>
          found ← has_slot index;
          if negb found then mret (Some (Err "external leaf frame has no realized allocator slot"%string))
          else
            w ← load_word index;
            if negb (Z.land w STATE_MASK =? ST_ALLOCATED)
            then mret (Some (Err "external leaf frame is not allocator-owned and live"%string))
            else mark_external_loop turns index
      end
  end.

Definition register_external_leaf_frame (turns : nat) (frame : u64) : Prog (option (result unit string)) :=
  r ← mark_external_leaf_slot turns frame;
  mret (option_map (λ r, match r with
    | Ok true => Ok tt
    | Ok false => Err "external leaf frame is outside allocator memory"%string
    | Err err => Err err
    end) r).

Fixpoint mark_span (pages : nat) (turns : nat) (address : u64) : Prog (option (result unit string)) :=
  match pages with
  | O => mret (Some (Ok tt))
  | S pages =>
      r ← mark_external_leaf_slot turns (containing_address address);
      match r with
      | None => mret None
      | Some (Err err) => mret (Some (Err err))
      | Some (Ok _) => mark_span pages turns (address + 4096)
      end
  end.

(** The first empty entry takes the span. *)
Fixpoint store_span (span : u64 * u64) (spans : list (u64 * u64)) : option (list (u64 * u64)) :=
  match spans with
  | [] => None
  | x :: spans => if x.1 =? x.2 then Some (span :: spans) else cons x <$> store_span span spans
  end.

Definition add_span (span : u64 * u64) (s : Frames) : result unit string * Frames :=
  if existsb (λ x, (x.1 =? span.1) && (x.2 =? span.2)) (EXTERNAL_LEAF_SPANS s) then (Ok tt, s)
  else
    match store_span span (EXTERNAL_LEAF_SPANS s) with
    | None => (Err "external leaf span registry full"%string, s)
    | Some spans => (Ok tt, set_spans spans s)
    end.

Definition register_external_leaf_span (turns : nat) (first byte_len : u64) : Prog (option (result unit string)) :=
  if negb (Z.land first 0xfff =? 0) || (byte_len =? 0) || negb (Z.land byte_len 0xfff =? 0)
  then mret (Some (Err "external leaf span must be nonempty and page-aligned"%string))
  else if 2 ^ 64 <=? first + byte_len then mret (Some (Err "external leaf span overflow"%string))
  else
    r ← mark_span (Z.to_nat (byte_len / 4096)) turns first;
    match r with
    | None => mret None
    | Some (Err err) => mret (Some (Err err))
    | Some (Ok _) => r ← act (add_span (first, first + byte_len)); mret (Some r)
    end.

Fixpoint acquire_loop (turns : nat) (index : Z) : Prog (option (result LeafMappingClass string)) :=
  match turns with
  | O => mret None
  | S turns =>
      r ← load_refs index;
      if r =? LEAF_EXTERNAL then mret (Some (Ok External))
      else if r =? LEAF_EXTERNAL - 1 then mret (Some (Err "leaf mapping reference count exhausted"%string))
      else
        won ← cas_refs index r (r + 1);
        if won : bool then
          w ← load_word index;
          if Z.land w STATE_MASK =? ST_ALLOCATED then mret (Some (Ok Owned))
          else
            fetch_sub_refs index;;
            mret (Some (Err "leaf frame changed allocator state during classification"%string))
        else acquire_loop turns index
  end.

Definition acquire_leaf_mapping (turns : nat) (frame : u64) : Prog (option (result LeafMappingClass string)) :=
  external ← frame_in_external_leaf_span frame;
  if external : bool then mret (Some (Ok External))
  else
    match frame_ordinal regions frame with
    | None => mret (Some (Err "leaf frame is neither allocator-owned nor registered external memory"%string))
    | Some index =>
        ledger ← get FRAME_LEDGER;
        match ledger with
        | None => mret (Some (Err "frame ledger not initialized"%string))
        | Some _ =>
            found ← has_slot index;
            if negb found then mret (Some (Err "leaf frame has no realized allocator slot"%string))
            else
              w ← load_word index;
              if negb (Z.land w STATE_MASK =? ST_ALLOCATED)
              then mret (Some (Err "leaf frame is not allocator-owned and live"%string))
              else acquire_loop turns index
        end
    end.

Fixpoint decref_loop (turns : nat) (index : Z) : Prog (option bool) :=
  match turns with
  | O => mret None
  | S turns =>
      r ← load_refs index;
      if r =? LEAF_EXTERNAL then mret (Some false)
      else if r =? 0 then mret (Some false)
      else
        won ← cas_refs index r (r - 1);
        if won : bool then mret (Some (r =? 1)) else decref_loop turns index
  end.

Definition decref_leaf_mapping (turns : nat) (frame : u64) : Prog (option bool) :=
  match frame_ordinal regions frame with
  | None => mret (Some false)
  | Some index =>
      found ← has_slot index;
      if negb found then mret (Some false)
      else
        w ← load_word index;
        if negb (Z.land w STATE_MASK =? ST_ALLOCATED) then mret (Some false) else decref_loop turns index
  end.

Definition leaf_mapping_refcount (frame : u64) : Prog u32 :=
  external ← frame_in_external_leaf_span frame;
  if external : bool then mret LEAF_EXTERNAL
  else
    match frame_ordinal regions frame with
    | None => mret 0
    | Some index => load_refs index
    end.

(** The tracked frames and the sum of their counts; the sum is one read here. *)
Definition leaf_mapping_stats : Prog (Z * Z) :=
  get (λ s,
    match FRAME_LEDGER s with
    | None => (0, 0)
    | Some l =>
        let counts := filter (λ r, r ≠ 0 ∧ r ≠ LEAF_EXTERNAL) (leaf_refs <$> concat (omap (λ c, c) (chunks l))) in
        (Z.of_nat (length counts), foldr Z.add 0 counts)
    end).

(** Total bytes, frames handed out in order, frames in the free list. *)
Definition memory_stats (lock : bool) : Prog (Z * Z * Z) :=
  allocated_frames ← get NEXT_FREE_FRAME;
  free_list_frames ← (if lock then get (λ s, Z.of_nat (length (FREE_FRAMES s))) else mret 0);
  mret (foldr Z.add 0 ((λ r, end_ r - start r) <$> regions), allocated_frames, free_list_frames).

(** ** memory/frame_metadata.rs *)

Definition frame_refcount (frame : u64) : Prog u32 := leaf_mapping_refcount frame.

Definition frame_register (turns : nat) (frame : u64) : Prog unit :=
  r ← frame_refcount frame;
  if r =? 0 then acquire_leaf_mapping turns frame;; mret tt else mret tt.

Definition frame_incref (turns : nat) (frame : u64) : Prog unit := acquire_leaf_mapping turns frame;; mret tt.
Definition frame_decref (turns : nat) (frame : u64) : Prog (option bool) := decref_leaf_mapping turns frame.
Definition frame_is_shared (frame : u64) : Prog bool := r ← frame_refcount frame; mret (1 <? r).

(** * Boot *)

(** One returned frame is entered in the new ledger; the result says whether it
    is kept.  [reserve] is the reservation of its chunk. *)
Definition seed_free_frame (reserve : bool) (l : FrameLedger) (frame : u64) : bool * FrameLedger :=
  match frame_ordinal regions frame with
  | None => (false, l)
  | Some index =>
      if (total_frames l <=? index) || (bool_decide (chunk_at l index = None) && negb reserve) then (false, l)
      else
        let l := publish_chunk index l in
        if Z.land (default 0 (allocation <$> FrameLedger_get l index)) STATE_MASK =? ST_FREE then (false, l)
        else (true, update_slot index (λ x, mkSlot (Z.lor (Z.shiftl 1 2) ST_FREE) (leaf_refs x)) l)
  end.

(** [swap_remove(i)]. *)
Definition swap_remove (i : nat) (v : list u64) : list u64 :=
  match last v with
  | None => v
  | Some x => if (i =? length v - 1)%nat then removelast v else <[i := x]> (removelast v)
  end.

Fixpoint seed_free_list (fuel : nat) (reserve : u64 → bool) (i : nat) (v : list u64) (l : FrameLedger)
  : list u64 * FrameLedger :=
  match fuel with
  | O => (v, l)
  | S fuel =>
      match v !! i with
      | None => (v, l)
      | Some frame =>
          let '(kept, l) := seed_free_frame (reserve frame) l frame in
          if kept : bool then seed_free_list fuel reserve (i + 1) v l
          else seed_free_list fuel reserve i (swap_remove i v) l
      end
  end.

Definition seed_bootstrap (reserve : u64 → bool) (acc : list u64 * FrameLedger) (address : u64)
  : list u64 * FrameLedger :=
  let frame := containing_address address in
  let '(kept, l) := seed_free_frame (reserve frame) acc.2 frame in
  if kept : bool then (acc.1 ++ [frame], l) else (acc.1, l).

(** The boot operation; it runs alone.  [None] is a panic.  [heap] says whether
    the directory and the chunks below the frontier can be reserved, [reserve]
    the chunk of a later frame, and [granted] is the capacity the vector gets. *)
Definition init_frame_ledger (heap : bool) (reserve : u64 → bool) (granted : option Z) (s : Frames) : option Frames :=
  match FRAME_LEDGER s with
  | Some _ => Some s
  | None =>
    if negb heap then None
    else
      let advertised_frames := foldr Z.add 0 (region_frames <$> regions) in
      let total := Z.min advertised_frames MAX_TRACKED_FRAMES in
      let frontier := Z.min (NEXT_FREE_FRAME s) total in
      let starts := (λ k, Z.of_nat k * LEDGER_CHUNK_FRAMES)
                    <$> seq 0 (Z.to_nat ((frontier + LEDGER_CHUNK_FRAMES - 1) / LEDGER_CHUNK_FRAMES)) in
      let l := foldl (λ l index, publish_chunk index l) (FrameLedger_try_new total frontier) starts in
      let required := frontier + Z.of_nat (length (BOOTSTRAP_FREE_FRAMES s)) in
      let grown :=
        if free_capacity s <? required
        then try_reserve granted (Z.max 0 (required - Z.of_nat (length (FREE_FRAMES s)))) s
        else Some (free_capacity s) in
      match grown with
      | None => None
      | Some cap =>
          let '(v, l) := seed_free_list (length (FREE_FRAMES s)) reserve 0 (FREE_FRAMES s) l in
          let '(v, l) := foldl (seed_bootstrap reserve) (v, l) (BOOTSTRAP_FREE_FRAMES s) in
          Some (mkFrames (NEXT_FREE_FRAME s) (Some l) v (Z.max cap (Z.of_nat (length v)))
                  (Z.max cap (Z.of_nat (length v))) [] (EXTERNAL_LEAF_SPANS s))
      end
  end.

End allocator.
