(* ===== verification/FrameInv.v ===== *)
(** The frame allocator under every interleaving: the ordinals of the memory map,
    the words of the ledger, and the invariant that gives each frame at most one
    place: the free list, the hands of one running call, or one owner. *)

From S2P Require Import Prelude Atomic FrameAlloc.

(** ** Ordinals *)

(** Page-aligned regions above the floor, no two of which overlap. *)
Definition region_ok (r : UsableRegion) : Prop :=
  LOW_MEMORY_FLOOR ≤ start r ≤ end_ r ∧ start r mod 4096 = 0 ∧ end_ r mod 4096 = 0.

Definition apart (r q : UsableRegion) : Prop := end_ r ≤ start q ∨ end_ q ≤ start r.

Fixpoint regions_ok (regions : list UsableRegion) : Prop :=
  match regions with
  | [] => True
  | r :: regions => region_ok r ∧ Forall (apart r) regions ∧ regions_ok regions
  end.

Lemma region_frames_mult r : region_ok r → end_ r - start r = region_frames r * 4096 ∧ 0 ≤ region_frames r.
Proof.
  unfold region_ok, region_frames. intros (? & Hs & He). split; [|apply Z.div_pos; lia]. rewrite Z.mul_comm.
  apply Z.div_exact; [lia|]. by rewrite Zminus_mod, Hs, He.
Qed.

Lemma usable_frame_in regions count n f :
  regions_ok regions → count ≤ n → usable_frame_from regions count n = Some f →
  ∃ r, r ∈ regions ∧ start r ≤ f < end_ r ∧ (f - start r) mod 4096 = 0.
Proof.
  revert count. induction regions as [|r regions IH]; intros count Hok0 Hn; [done|]. destruct Hok0 as (Hr & Ha & Hok). cbn.
  destruct (region_frames_mult r Hr) as [Hm Hp]. destruct (Z.ltb_spec n (count + region_frames r)).
  - case_match; [done|]. intros [= <-]. exists r. split; [by left|]. destruct Hr as (? & Hs & ?).
    unfold containing_address. rewrite Z_mod_plus_full, Hs. split; [lia|].
    replace (_ - _) with ((n - count) * 4096) by lia. apply Z_mod_mult.
  - intros Hf. destruct (IH (count + region_frames r) Hok ltac:(lia) Hf) as (q & ? & ?). exists q. split; [by right|done].
Qed.

Lemma usable_ordinal_from regions count n f :
  regions_ok regions → count ≤ n → usable_frame_from regions count n = Some f →
  frame_ordinal_from regions count f = Some n.
Proof.
  revert count. induction regions as [|r regions IH]; intros count Hok0 Hn; [done|]. destruct Hok0 as (Hr & Ha & Hok). cbn.
  destruct (region_frames_mult r Hr) as [Hm Hp]. destruct (Z.ltb_spec n (count + region_frames r)).
  - case_match; [done|]. intros [= <-]. destruct Hr as (? & Hs & ?). unfold containing_address.
    rewrite Z_mod_plus_full, Hs, Z.sub_0_r. destruct (Z.leb_spec (start r) (start r + (n - count) * 4096)); [|lia].
    destruct (Z.ltb_spec (start r + (n - count) * 4096) (end_ r)); [|lia]. cbn. f_equal.
    replace (start r + (n - count) * 4096 - start r) with ((n - count) * 4096) by lia. rewrite Z_div_mult by lia. lia.
  - intros Hf. destruct (usable_frame_in regions (count + region_frames r) n f Hok ltac:(lia) Hf) as (q & Hq & Hin & _).
    rewrite Forall_forall in Ha. specialize (Ha q Hq). unfold apart in Ha.
    destruct (Z.leb_spec (start r) f); [destruct (Z.ltb_spec f (end_ r)); [lia|]|]; cbn; apply IH; (done || lia).
Qed.

Lemma ordinal_usable_from regions count n f :
  regions_ok regions → f mod 4096 = 0 → frame_ordinal_from regions count f = Some n →
  count ≤ n ∧ usable_frame_from regions count n = Some f.
Proof.
  revert count. induction regions as [|r regions IH]; intros count Hok0 Hf; [done|]. destruct Hok0 as (Hr & Ha & Hok). cbn.
  destruct (region_frames_mult r Hr) as [Hm Hp]. destruct Hr as (? & Hs & ?).
  destruct (Z.leb_spec (start r) f); [destruct (Z.ltb_spec f (end_ r))|]; cbn.
  2,3: intros Hx; destruct (IH _ Hok Hf Hx); split; [lia|]; destruct (Z.ltb_spec n (count + region_frames r)); [lia|done].
  intros [= <-]. assert ((f - start r) mod 4096 = 0) as Hd by (rewrite Zminus_mod, Hf, Hs; done).
  assert (f - start r = 4096 * ((f - start r) / 4096)) by (apply Z.div_exact; [lia|done]).
  destruct (Z.ltb_spec (count + (f - start r) / 4096) (count + region_frames r)); [|lia].
  replace (start r + (count + (f - start r) / 4096 - count) * 4096) with f by lia.
  destruct (Z.ltb_spec f LOW_MEMORY_FLOOR); [lia|]. unfold containing_address. rewrite Hf. split; [lia|f_equal; lia].
Qed.

(** ** Slots *)

Section ledger.
Implicit Types l : FrameLedger.

Lemma chunk_index_ne i j :
  0 ≤ i → 0 ≤ j → i ≠ j → Z.to_nat (i / LEDGER_CHUNK_FRAMES) = Z.to_nat (j / LEDGER_CHUNK_FRAMES) →
  Z.to_nat (i mod LEDGER_CHUNK_FRAMES) ≠ Z.to_nat (j mod LEDGER_CHUNK_FRAMES).
Proof.
  intros Hi Hj Hne Hd Hm. apply Hne. pose proof (Z.div_mod i LEDGER_CHUNK_FRAMES ltac:(done)).
  pose proof (Z.div_mod j LEDGER_CHUNK_FRAMES ltac:(done)).
  pose proof (Z.div_pos i LEDGER_CHUNK_FRAMES Hi ltac:(done)). pose proof (Z.div_pos j LEDGER_CHUNK_FRAMES Hj ltac:(done)).
  pose proof (Z.mod_pos_bound i LEDGER_CHUNK_FRAMES ltac:(done)). pose proof (Z.mod_pos_bound j LEDGER_CHUNK_FRAMES ltac:(done)).
  assert (i / LEDGER_CHUNK_FRAMES = j / LEDGER_CHUNK_FRAMES) by lia.
  assert (i mod LEDGER_CHUNK_FRAMES = j mod LEDGER_CHUNK_FRAMES) by lia. congruence.
Qed.

Lemma get_update_slot i f l j :
  0 ≤ i → 0 ≤ j →
  FrameLedger_get (update_slot i f l) j = if decide (i = j) then f <$> FrameLedger_get l j else FrameLedger_get l j.
Proof.
  intros Hi Hj. unfold FrameLedger_get, chunk_at, update_slot. cbn [total_frames chunks].
  destruct (total_frames l <=? j); [by case_decide|].
  destruct (decide (Z.to_nat (i / LEDGER_CHUNK_FRAMES) = Z.to_nat (j / LEDGER_CHUNK_FRAMES))) as [E|E].
  - rewrite E, list_lookup_alter_eq. destruct (chunks l !! _) as [[c|]|]; cbn; [|by case_decide..].
    case_decide as D; [subst; by rewrite list_lookup_alter_eq|]. by rewrite list_lookup_alter_ne by (by apply chunk_index_ne).
  - rewrite list_lookup_alter_ne by done. case_decide as D; [by subst|done].
Qed.

(** Every frame handed out before the ledger existed has its slot. *)
Definition realized l : Prop := ∀ i, 0 ≤ i < initial_frontier l → is_Some (FrameLedger_get l i).

Lemma get_chunk l i : is_Some (FrameLedger_get l i) → is_Some (chunk_at l i).
Proof. unfold FrameLedger_get. case_match; [by intros []|]. destruct (chunk_at l i); [done|]. by intros []. Qed.

(** A new chunk shows what a missing one stands for. *)
Lemma get_new_chunk l i :
  0 ≤ i → i < total_frames l →
  new_chunk l (i / LEDGER_CHUNK_FRAMES) !! Z.to_nat (i mod LEDGER_CHUNK_FRAMES) = Some (FrameLedgerSlot_new (initial_word l i)).
Proof.
  intros Hi Ht. unfold new_chunk. cbv zeta. rewrite list_lookup_fmap.
  pose proof (Z.div_mod i LEDGER_CHUNK_FRAMES ltac:(done)). pose proof (Z.mod_pos_bound i LEDGER_CHUNK_FRAMES ltac:(done)).
  change LEDGER_CHUNK_FRAMES with 65536 in *. rewrite lookup_seqZ_lt by lia. cbn. do 3 f_equal. lia.
Qed.
End ledger.

(** ** The state *)

Section state.

Definition ledger_ok (s : Frames) : Prop := ∃ l, FRAME_LEDGER s = Some l ∧ realized l.

Lemma slot_on_slot i f s j :
  0 ≤ i → 0 ≤ j → slot (on_slot i f s) j = if decide (i = j) then f <$> slot s j else slot s j.
Proof.
  intros Hi Hj. unfold slot, on_slot. cbn. destruct (FRAME_LEDGER s) as [l|]; cbn; [by apply get_update_slot|by case_decide].
Qed.

Lemma realized_update i f l : 0 ≤ i → realized l → realized (update_slot i f l).
Proof.
  intros Hi Hr j Hj. rewrite get_update_slot by (done || lia). destruct (Hr j Hj) as [x Hx]. case_decide; [|done]. by rewrite Hx.
Qed.

Lemma ledger_on_slot i f s : 0 ≤ i → ledger_ok s → ledger_ok (on_slot i f s).
Proof.
  intros Hi (l & Hl & Hr). exists (update_slot i f l). unfold on_slot. rewrite Hl. split; [done|]. by apply realized_update.
Qed.

Lemma publish_slot index s j :
  ledger_ok s → 0 ≤ index → 0 ≤ j →
  let s' := set_ledger (publish_chunk index <$> FRAME_LEDGER s) s in
  word s' j = word s j ∧ refs s' j = refs s j ∧ ledger_ok s'.
Proof.
  intros (l & Hl & Hr) Hi Hj. cbv zeta. unfold word, refs, slot, ledger_ok. cbn. rewrite Hl. cbn.
  unfold publish_chunk. destruct (chunk_at l index) as [c|] eqn:Hc; [split_and!; [done..|by exists l]|].
  set (l' := mkLedger _ _ _).
  assert (∀ k, 0 ≤ k → chunk_at l' k = if decide (index / LEDGER_CHUNK_FRAMES = k / LEDGER_CHUNK_FRAMES
            ∧ (Z.to_nat (k / LEDGER_CHUNK_FRAMES) < length (chunks l))%nat)
          then Some (new_chunk l (k / LEDGER_CHUNK_FRAMES)) else chunk_at l k) as Hch.
  { intros k Hk. unfold chunk_at, l'. cbn. case_decide as D.
    - destruct D as [-> Hlt]. by rewrite list_lookup_insert_eq.
    - destruct (decide (index / LEDGER_CHUNK_FRAMES = k / LEDGER_CHUNK_FRAMES)) as [E|E].
      + rewrite E, list_insert_ge; [done|]. destruct (decide (Z.to_nat (k / LEDGER_CHUNK_FRAMES) < length (chunks l))%nat); [|lia].
        destruct D. done.
      + rewrite list_lookup_insert_ne; [done|]. pose proof (Z.div_pos index LEDGER_CHUNK_FRAMES Hi ltac:(done)).
        pose proof (Z.div_pos k LEDGER_CHUNK_FRAMES Hk ltac:(done)). lia. }
  assert (∀ k, 0 ≤ k → index / LEDGER_CHUNK_FRAMES = k / LEDGER_CHUNK_FRAMES → chunk_at l k = None) as Hnone.
  { intros k Hk E. revert Hc. unfold chunk_at. by rewrite E. }
  assert (realized l') as Hr'.
  { intros k Hk. pose proof (Hr k Hk) as Hg. unfold FrameLedger_get. change (total_frames l') with (total_frames l).
    rewrite Hch by lia. case_decide as D; [|done]. destruct (get_chunk l k Hg) as [c Hx].
    rewrite (Hnone k) in Hx; [done|lia|apply D]. }
  unfold FrameLedger_get. change (total_frames l') with (total_frames l).
  destruct (Z.leb_spec (total_frames l) j); [split_and!; [done..|by exists l']|]. rewrite Hch by done.
  case_decide as D; [|split_and!; [done..|by exists l']]. destruct D as [E _]. rewrite (Hnone j Hj E). cbn.
  rewrite get_new_chunk by done. cbn. unfold initial_word. destruct (Z.ltb_spec j (initial_frontier l)) as [Hlt|].
  - destruct (get_chunk l j (Hr j ltac:(done))) as [c Hx]. by rewrite (Hnone j Hj E) in Hx.
  - split_and!; [done..|by exists l'].
Qed.

(** ** Words *)

Definition state_of (w : u32) : u32 := Z.land w STATE_MASK.

Lemma state_claimed g : state_of (Z.lor (wrap 32 (Z.shiftl g 2)) ST_ALLOCATED) = ST_ALLOCATED.
Proof.
  unfold state_of, wrap. change STATE_MASK with (Z.ones 2). rewrite Z.land_lor_distr_l, !Z.land_ones by done.
  rewrite Z.shiftl_mul_pow2 by done. change (2 ^ 32) with (2 ^ 30 * 2 ^ 2). rewrite Zmult_mod_distr_r.
  by rewrite Z_mod_mult.
Qed.

Lemma state_freed w : state_of (Z.lor (Z.land w (wnot 32 STATE_MASK)) ST_FREE) = ST_FREE.
Proof.
  unfold state_of. rewrite Z.land_lor_distr_l, <- Z.land_assoc. change (Z.land (wnot 32 STATE_MASK) STATE_MASK) with 0.
  by rewrite Z.land_0_r.
Qed.

End state.

(** ** The invariant *)

(** A running call may hold a frame it took from the frontier or the free list
    and has not claimed, or one it has freed and not yet listed; a claimed frame
    is owned. *)
Inductive Token := Candidate (i : Z) | Freed (i : Z) | Own (i : Z).

Definition token_ord (t : Token) : Z := match t with Candidate i | Freed i | Own i => i end.

Definition token_state (t : Token) (st : u32) : Prop :=
  match t with
  | Candidate _ => st = ST_NEVER ∨ st = ST_FREE
  | Freed _ => st = ST_FREE
  | Own _ => st = ST_ALLOCATED
  end.

Section invariant.
Context (regions : list UsableRegion) (Hregions : regions_ok regions).

Record finv (s : Frames) (T : list Token) : Prop := {
  fi_ledger : ledger_ok s;
  fi_frontier : 0 ≤ NEXT_FREE_FRAME s;
  (** a frame of the free list is free *)
  fi_free : ∀ a, a ∈ FREE_FRAMES s → ∃ i, frame_ordinal regions a = Some i ∧ 0 ≤ i < NEXT_FREE_FRAME s
    ∧ state_of (word s i) = ST_FREE;
  fi_tokens : ∀ t, t ∈ T → 0 ≤ token_ord t < NEXT_FREE_FRAME s ∧ token_state t (state_of (word s (token_ord t)));
  (** no frame beyond the frontier has been used *)
  fi_unused : ∀ i, NEXT_FREE_FRAME s ≤ i → word s i = 0;
  (** a frame is in one place *)
  fi_nodup : NoDup ((token_ord <$> T) ++ omap (frame_ordinal regions) (FREE_FRAMES s));
}.

Lemma finv_perm s T T' : T ≡ₚ T' → finv s T → finv s T'.
Proof using Type.
  intros P [A B C D E F]. split; try done; [intros t; rewrite <- P; apply D|]. by rewrite <- P.
Qed.

Lemma finv_drop s T T' : finv s (T ++ T') → finv s T'.
Proof using Type.
  intros [A B C D E F]. split; try done; [intros t ?; apply D, elem_of_app; by right|].
  rewrite fmap_app, <- app_assoc in F. by apply NoDup_app in F as (_ & _ & ?).
Qed.

(** Accesses that change neither a word nor the lists. *)
Lemma finv_same s s' T :
  ledger_ok s' → NEXT_FREE_FRAME s' = NEXT_FREE_FRAME s → FREE_FRAMES s' = FREE_FRAMES s →
  (∀ i, 0 ≤ i → word s' i = word s i) → finv s T → finv s' T.
Proof using Type.
  intros Hl Hn Hf Hw [A B C D E F]. split; rewrite ?Hn, ?Hf; try done.
  - intros a (i & ? & ? & ?)%C. exists i. rewrite Hw by lia. done.
  - intros t [Hr Hs]%D. rewrite Hw by lia. done.
  - intros i Hi. rewrite Hw by lia. by apply E.
Qed.

(** A change of the word of a frame that a token stands for. *)
Lemma finv_retoken s s' t t' T :
  ledger_ok s' → NEXT_FREE_FRAME s' = NEXT_FREE_FRAME s → FREE_FRAMES s' = FREE_FRAMES s →
  (∀ i, 0 ≤ i → i ≠ token_ord t → word s' i = word s i) →
  token_ord t' = token_ord t → token_state t' (state_of (word s' (token_ord t))) →
  finv s (t :: T) → finv s' (t' :: T).
Proof using Type.
  intros Hl Hn Hf Hw Ht Hst [A B C D E F]. cbn in F. apply NoDup_cons in F as [Hni F].
  destruct (D t ltac:(by left)) as [Hr _].
  split; rewrite ?Hn, ?Hf; try done.
  - intros a Ha. destruct (C a Ha) as (i & Hi & Hlt & Hs). exists i. split_and!; [done|lia|lia|]. rewrite Hw; [done|lia|].
    intros ->. apply Hni, elem_of_app. right. apply list_elem_of_omap. eauto.
  - intros u [->|Hu]%elem_of_cons; [by rewrite Ht|]. destruct (D u ltac:(by right)) as [Hu1 Hu2]. rewrite Hw; [done|lia|].
    intros E1. apply Hni, elem_of_app. left. rewrite <- E1. by apply list_elem_of_fmap_2.
  - intros i Hi. rewrite Hw by lia. by apply E.
  - cbn. rewrite Ht. by apply NoDup_cons.
Qed.

Lemma word_cas i w s j :
  0 ≤ i → 0 ≤ j → is_Some (slot s i) →
  word (on_slot i (λ x, mkSlot w (leaf_refs x)) s) j = if decide (i = j) then w else word s j.
Proof using Type.
  intros Hi Hj [x Hx]. unfold word. rewrite slot_on_slot by done. case_decide; [subst; by rewrite Hx|done].
Qed.

Lemma word_refs i f s j :
  0 ≤ i → 0 ≤ j → (∀ x, allocation (f x) = allocation x) → word (on_slot i f s) j = word s j.
Proof using Type.
  intros Hi Hj Hf. unfold word. rewrite slot_on_slot by done. case_decide; [|done]. subst.
  destruct (slot s j); [|done]. cbn. by rewrite Hf.
Qed.

(** ** Safety of the accesses *)

Abbreviation fsafe := (safe finv).

(** A compare-and-exchange on the word of a token's frame. *)
Lemma safe_cas_word t t' old new :
  token_ord t' = token_ord t → token_state t' (state_of new) →
  fsafe (cas_word (token_ord t) old new) [t] (λ won T, T = if won : bool then [t'] else [t]).
Proof using Type.
  intros Ht Hs. apply safe_act. intros s R HI. destruct (fi_tokens _ _ HI t ltac:(by left)) as [Hr _].
  destruct (slot s (token_ord t)) as [x|] eqn:Hx; [|by exists [t]].
  destruct (Z.eqb_spec (allocation x) old); [|by exists [t]]. exists [t']. split; [|done]. cbn [snd].
  apply (finv_retoken s _ t t' R); try done.
  - apply ledger_on_slot; [lia|apply HI].
  - intros i Hi Hne. rewrite word_cas by (done || lia). by rewrite decide_False.
  - rewrite word_cas by (done || lia). by rewrite decide_True.
Qed.

(** What changes only counts, capacities or spans. *)
Lemma safe_neutral {A} (f : Frames → A * Frames) T :
  (∀ s, ledger_ok s → ledger_ok (f s).2 ∧ NEXT_FREE_FRAME (f s).2 = NEXT_FREE_FRAME s
     ∧ FREE_FRAMES (f s).2 = FREE_FRAMES s ∧ ∀ i, 0 ≤ i → word (f s).2 i = word s i) →
  fsafe (act f) T (λ _ T', T' = T).
Proof using Type.
  intros Hf. apply safe_act. intros s R HI. exists T. split; [|done].
  destruct (Hf s (fi_ledger _ _ HI)) as (? & ? & ? & ?). by apply (finv_same s).
Qed.

Lemma safe_read {A} (f : Frames → A) T : fsafe (get f) T (λ _ T', T' = T).
Proof using Type. by apply safe_get. Qed.

Lemma safe_cas_refs i old new T : 0 ≤ i → fsafe (cas_refs i old new) T (λ _ T', T' = T).
Proof using Type.
  intros Hi. apply safe_neutral. intros s Hl. destruct (slot s i) as [x|]; [|done].
  destruct (leaf_refs x =? old); [|done]. cbn [snd]. split_and!; [by apply ledger_on_slot|done..|].
  intros j Hj. by apply word_refs.
Qed.

Lemma safe_publish index T :
  0 ≤ index → fsafe (act (λ s, (true, set_ledger (publish_chunk index <$> FRAME_LEDGER s) s))) T (λ _ T', T' = T).
Proof using Type.
  intros Hi. apply safe_neutral. intros s Hl. cbn [snd]. split_and!; [by apply (publish_slot index s 0)|done..|].
  intros j Hj. by apply publish_slot.
Qed.

Lemma ordinal_nonneg a i : frame_ordinal regions a = Some i → 0 ≤ i.
Proof using Hregions.
  unfold frame_ordinal. assert (∀ rs n, regions_ok rs → 0 ≤ n → frame_ordinal_from rs n a = Some i → 0 ≤ i) as H; [|by apply H].
  clear Hregions. induction rs as [|r rs IH]; intros n Hok Hn; [done|]. destruct Hok as (Hr & _ & Hok). cbn.
  destruct (region_frames_mult r Hr). destruct (Z.leb_spec (start r) a); cbn; [|apply IH; (done || lia)].
  case_match; [|apply IH; (done || lia)]. intros [= <-]. pose proof (Z.div_pos (a - start r) 4096). lia.
Qed.

(** The free list. *)
Lemma safe_pop :
  fsafe pop_free [] (λ o T, match o with Some a => ∃ i, frame_ordinal regions a = Some i ∧ T = [Candidate i] | None => T = [] end).
Proof using Type.
  apply safe_act. intros s R HI. cbn [fst snd]. destruct (last (FREE_FRAMES s)) as [a|] eqn:Hl.
  - apply last_Some in Hl as [v Hv]. rewrite Hv, removelast_last.
    destruct (fi_free _ _ HI a) as (i & Hi & Hlt & Hs); [rewrite Hv; apply elem_of_app; right; by left|].
    exists [Candidate i]. split; [|by exists i]. destruct HI as [A B C D E F]. rewrite Hv, omap_app in F. cbn in F. rewrite Hi in F.
    split; try done.
    + intros b Hb. apply C. rewrite Hv. apply elem_of_app. by left.
    + intros t [->|Ht]%elem_of_cons; [split; [done|by right]|by apply D].
    + cbn. rewrite app_assoc in F. apply NoDup_app in F as (F1 & F2 & _). apply NoDup_cons. split; [|done].
      intros Hin. apply (F2 i Hin). by left.
  - exists []. split; [|done]. apply last_None in Hl. rewrite Hl. apply (finv_same s); try done. apply HI.
Qed.

Lemma safe_push a i :
  frame_ordinal regions a = Some i → fsafe (act (push_free a)) [Freed i] (λ _ _, True).
Proof using Type.
  intros Hi. apply safe_act. intros s R HI. exists []. split; [|done]. unfold push_free. case_match; cbn [snd].
  - by apply (finv_drop s [Freed i]).
  - destruct HI as [A B C D E F]. destruct (D (Freed i) ltac:(by left)) as [Hr Hs]. split; try done.
    + cbn. intros b [Hb| ->%list_elem_of_singleton]%elem_of_app; [by apply C|]. exists i. done.
    + intros t Ht. apply D. by right.
    + cbn. rewrite omap_app. cbn. rewrite Hi, app_assoc. cbn in F. by rewrite <- Permutation_cons_append.
Qed.

(** The frontier: a run of new frames. *)
Lemma safe_frontier base run :
  0 ≤ base →
  fsafe (cas_frontier base (base + Z.of_nat run)) []
    (λ won T, T = if won : bool then (λ k, Candidate (base + Z.of_nat k)) <$> seq 0 run else []).
Proof using Type.
  intros Hb. apply safe_act. intros s R HI. destruct (Z.eqb_spec (NEXT_FREE_FRAME s) base) as [E0|]; [|by exists []].
  eexists. split; [|done]. cbn [snd]. destruct HI as [A B C D E F]. split; cbn; try done.
  - lia.
  - intros a (i & ? & ? & ?)%C. exists i. split_and!; try done; lia.
  - intros t [Ht|Ht]%elem_of_app.
    + apply list_elem_of_fmap in Ht as (k & -> & Hk%elem_of_seq). cbn. split; [lia|]. left.
      transitivity (state_of (word s (base + Z.of_nat k))); [done|]. by rewrite E by lia.
    + destruct (D t Ht) as [? ?]. split; [lia|done].
  - intros i Hi. apply E. lia.
  - rewrite fmap_app, <- app_assoc. apply NoDup_app. split; [|split; [|done]].
    + rewrite <- list_fmap_compose. apply NoDup_fmap_2; [|apply NoDup_seq]. intros x y. cbn. lia.
    + intros x Hx Hin. rewrite <- list_fmap_compose in Hx. apply list_elem_of_fmap in Hx as (k & -> & Hk%elem_of_seq). cbn in Hin.
      apply elem_of_app in Hin as [Hin|Hin].
      * apply list_elem_of_fmap in Hin as (t & Ht1 & Ht). destruct (D t Ht). lia.
      * apply list_elem_of_omap in Hin as (a & Ha & Hao). destruct (C a Ha) as (i & Hi & ? & _). rewrite Hi in Hao. injection Hao. lia.
Qed.
End invariant.

#[export] Instance finv_proper regions s : Proper (Permutation ==> iff) (finv regions s).
Proof. intros T T' P. split; by apply finv_perm. Qed.
