(* ===== verification/FrameSafe.v ===== *)
(** Every call of the frame allocator is safe in a pool of calls, and so no
    interleaving of them gives a frame to two owners. *)

From S2P Require Import Prelude Atomic FrameAlloc FrameInv.

Section safe_calls.
Context (regions : list UsableRegion) (Hregions : regions_ok regions).
Abbreviation fsafe := (safe (finv regions)).

(** The program goes on with what the first part leaves. *)
Lemma fsafe_bind {A B} (p : prog Frames A) (k : A → prog Frames B) T Q Q' :
  fsafe p T Q → (∀ a T, Q a T → fsafe (k a) T Q') → fsafe (p ≫= k) T Q'.
Proof using Type. intros Hp Hk. apply safe_bind. eapply safe_mono; [|exact Hp]. auto. Qed.

(** After an access that moves no token. *)
Lemma fsafe_keep {A B} (p : prog Frames A) (k : A → prog Frames B) T Q :
  fsafe p T (λ _ T', T' = T) → (∀ a, fsafe (k a) T Q) → fsafe (p ≫= k) T Q.
Proof using Type. intros Hp Hk. eapply fsafe_bind; [exact Hp|]. cbn. intros a _ ->. apply Hk. Qed.

Lemma fsafe_junk {A} (p : prog Frames A) T (Q : A → list Token → Prop) :
  (∀ a T1, Q a T1 → Q a (T1 ++ T)) → fsafe p [] Q → fsafe p T Q.
Proof using Type.
  intros HQ Hp. eapply safe_mono; [|exact (safe_frame _ p [] T Q Hp)]. cbn. intros a T' (T1 & -> & ?). auto.
Qed.

(** ** Allocation *)

Lemma ensure_chunk_safe reserve l index T : 0 ≤ index → fsafe (ensure_chunk reserve l index) T (λ _ T', T' = T).
Proof using Type.
  intros Hi. unfold ensure_chunk. case_match; [done|]. apply fsafe_keep; [apply safe_read|]. intros []; [done|].
  case_match; [done|]. by apply safe_publish.
Qed.

Lemma prepare_safe env index T : 0 ≤ index → fsafe (prepare_frame_for_allocation env index) T (λ _ T', T' = T).
Proof using Type.
  intros Hi. unfold prepare_frame_for_allocation. apply fsafe_keep; [apply safe_read|]. intros [l|]; [|done].
  apply fsafe_keep; [by apply ensure_chunk_safe|]. intros []; cbn [negb]; [|done]. unfold ensure_free_frame_capacity.
  apply fsafe_keep; [apply safe_read|]. intros cap. case_match; [done|]. case_match; [done|]. apply safe_neutral.
  intros s Hl. unfold grow_free. repeat case_match; done.
Qed.

Definition candidate (r : option (option u64)) (T : list Token) : Prop :=
  match r with Some (Some a) => ∃ i, frame_ordinal regions a = Some i ∧ T = [Candidate i] | _ => True end.

Lemma sequential_safe turns env contentions :
  fsafe (BootInfoFrameAllocator_allocate_frame regions turns env contentions) [] candidate.
Proof using Hregions.
  revert contentions. induction turns as [|turns IH]; intros contentions; [done|]. cbn [BootInfoFrameAllocator_allocate_frame].
  eapply (fsafe_bind _ _ _ (λ c T, 0 ≤ c ∧ T = [])); [apply safe_get; intros s R HI; split; [apply HI|done]|].
  intros current ? [Hc ->]. destruct (get_usable_frame regions current) as [frame|] eqn:Hf; [|done].
  apply fsafe_keep; [by apply prepare_safe|]. intros prepared.
  assert (∀ n, fsafe (won ← cas_frontier current (current + 1);
    if won : bool then mret (Some (Some frame)) else BootInfoFrameAllocator_allocate_frame regions turns env n) [] candidate) as Hclaim.
  { intros n. eapply fsafe_bind; [apply (safe_frontier regions current 1); done|]. cbn. intros [] ? ->; [|apply IH].
    cbn. exists current. rewrite Z.add_0_r. split; [|done]. by apply usable_ordinal_from. }
  destruct prepared; [apply Hclaim| |done]. case_match; [apply IH|apply Hclaim].
Qed.

Lemma candidate_safe turns env : fsafe (allocate_candidate regions turns env) [] candidate.
Proof using Hregions.
  unfold allocate_candidate. eapply (fsafe_bind _ _ _ (λ o T, match o with
    | Some a => ∃ i, frame_ordinal regions a = Some i ∧ T = [Candidate i] | None => T = [] end)).
  - destruct (ae_lock env); [apply safe_pop|done].
  - intros [a|] T; [done|]. intros ->. apply sequential_safe.
Qed.

Definition claimed (i : Z) (frame : u64) (r : option (result (option FrameLease) ClaimError)) (T : list Token) : Prop :=
  match r with
  | Some (Ok (Some lease)) => T = [Own i] ∧ lease_frame lease = frame
  | Some (Ok None) => False
  | _ => True
  end.

Lemma claim_loop_safe turns frame i : fsafe (claim_loop turns frame i) [Candidate i] (claimed i frame).
Proof using Type.
  induction turns as [|turns IH]; [done|]. cbn [claim_loop]. apply fsafe_keep; [apply safe_read|]. intros w. case_match; [|by case_match].
  apply fsafe_keep; [apply safe_read|]. intros r. case_match; [done|].
  eapply fsafe_bind; [apply (safe_cas_word regions (Candidate i) (Own i)); [done|apply state_claimed]|]. cbn.
  intros [] ? ->; [done|apply IH].
Qed.

Lemma claim_frame_safe turns frame i :
  frame_ordinal regions frame = Some i → fsafe (claim_frame regions turns frame) [Candidate i] (claimed i frame).
Proof using Type.
  intros Hi. unfold claim_frame. eapply (fsafe_bind _ _ _ (λ o T, is_Some o ∧ T = [Candidate i])).
  { apply safe_get. intros s R HI. destruct (fi_ledger _ _ _ HI) as (l & -> & _). done. }
  intros ? ? [[l ->] ->]. rewrite Hi. apply fsafe_keep; [apply safe_read|]. intros []; cbn [negb]; [apply claim_loop_safe|done].
Qed.

(** The frames a call hands to its caller are owned by it. *)
Definition gives (frames : list u64) (T : list Token) : Prop :=
  ∃ ordinals J, frame_ordinal regions <$> frames = Some <$> ordinals ∧ T ≡ₚ (Own <$> ordinals) ++ J.

Lemma gives_nil T : gives [] T.
Proof using Type. exists [], T. done. Qed.

Lemma gives_junk frames T J : gives frames T → gives frames (T ++ J).
Proof using Type. intros (os & J' & ? & P). exists os, (J' ++ J). split; [done|]. by rewrite P, app_assoc. Qed.

Lemma gives_one frame i T : frame_ordinal regions frame = Some i → gives [frame] (Own i :: T).
Proof using Type. intros Hi. exists [i], T. cbn. by rewrite Hi. Qed.

Lemma gives_cons frame i frames T :
  frame_ordinal regions frame = Some i → gives frames T → gives (frame :: frames) (Own i :: T).
Proof using Type. intros Hi (os & J & E & P). exists (i :: os), J. cbn. by rewrite Hi, E, P. Qed.

Definition handed {A} (f : A → list u64) (r : option (option A)) (T : list Token) : Prop :=
  match r with Some (Some a) => gives (f a) T | _ => True end.

Lemma allocate_claimed_safe turns env : fsafe (allocate_claimed regions turns env) [] (handed (λ x, [x.1])).
Proof using Hregions.
  revert turns. induction turns as [|n IH]; [done|]. cbn [allocate_claimed].
  eapply fsafe_bind; [apply candidate_safe|]. intros [[frame|]|] T; [|done|done]. intros (i & Hi & ->).
  eapply fsafe_bind; [by apply claim_frame_safe|]. intros [[[lease|]|err]|] T; [|done| |done].
  - intros [-> _]. by apply gives_one.
  - intros _. apply fsafe_junk; [|apply IH]. intros [[a|]|] T1; [|done|done]. apply gives_junk.
Qed.

Lemma allocate_frame_safe turns env : fsafe (allocate_frame regions turns env) [] (handed (λ a, [a])).
Proof using Hregions.
  unfold allocate_frame. eapply fsafe_bind; [apply allocate_claimed_safe|]. by intros [[[a o]|]|] T.
Qed.

Lemma leased_owned turns env :
  fsafe (allocate_claimed regions turns env) []
    (λ r T, match r with Some (Some (a, o)) => gives [a] T ∧ ∃ lease, o = Some lease ∧ lease_frame lease = a | _ => True end).
Proof using Hregions.
  revert turns. induction turns as [|n IH]; [done|]. cbn [allocate_claimed].
  eapply fsafe_bind; [apply candidate_safe|]. intros [[frame|]|] T; [|done|done]. intros (i & Hi & ->).
  eapply fsafe_bind; [by apply claim_frame_safe|]. intros [[[lease|]|err]|] T; [|done| |done].
  - intros [-> Hl]. split; [by apply gives_one|]. by exists lease.
  - intros _. apply fsafe_junk; [|apply IH]. intros [[[a o]|]|] T1; [|done|done]. intros [? ?]. split; [by apply gives_junk|done].
Qed.

Lemma allocate_leased_safe turns env : fsafe (allocate_frame_leased regions turns env) [] (handed (λ lease, [lease_frame lease])).
Proof using Hregions.
  unfold allocate_frame_leased. eapply (fsafe_bind _ _ _ (λ _ T, T = [])); [apply safe_read|]. intros [l|] ? ->; [|done].
  eapply fsafe_bind; [apply leased_owned|]. intros [[[a o]|]|] T; [|done|done]. by intros [? (lease & -> & <-)].
Qed.

(** ** Returns *)

Lemma release_loop_safe turns lease :
  fsafe (release_loop turns lease) [Own (lease_index lease)]
    (λ r T, match r with Some None => T = [Freed (lease_index lease)] | _ => True end).
Proof using Type.
  induction turns as [|turns IH]; [done|]. cbn [release_loop]. apply fsafe_keep; [apply safe_read|]. intros w.
  case_match; [done|]. case_match; [done|]. case_match; [|by case_match].
  apply fsafe_keep; [apply safe_read|]. intros r. case_match; [done|].
  eapply fsafe_bind; [apply (safe_cas_word regions (Own (lease_index lease)) (Freed (lease_index lease))); [done|apply state_freed]|].
  cbn. intros [] ? ->; [done|apply IH].
Qed.

Lemma return_lease_safe turns lock lease i :
  frame_ordinal regions (lease_frame lease) = Some i → fsafe (return_lease regions turns lock lease) [Own i] (λ _ _, True).
Proof using Type.
  intros Hi. unfold return_lease. eapply (fsafe_bind _ _ _ (λ o T, is_Some o ∧ T = [Own i])).
  { apply safe_get. intros s R HI. destruct (fi_ledger _ _ _ HI) as (l & -> & _). done. }
  intros ? ? [[l ->] ->]. case_bool_decide as E; cbn [negb]; [|done]. rewrite Hi in E. injection E as ->.
  apply fsafe_keep; [apply safe_read|]. intros []; cbn [negb]; [|done].
  eapply fsafe_bind; [apply release_loop_safe|]. intros [[o|]|] T; [done| |done]. intros ->. destruct lock; [|done].
  eapply fsafe_bind; [by apply safe_push|]. done.
Qed.

Lemma deallocate_frame_safe turns lock frame i :
  frame_ordinal regions frame = Some i → fsafe (deallocate_frame regions turns lock frame) [Own i] (λ _ _, True).
Proof using Type.
  intros Hi. unfold deallocate_frame, current_lease_for_frame. case_match; [done|]. eapply fsafe_bind.
  { eapply (fsafe_bind _ _ _ (λ _ T, T = [Own i])); [apply safe_read|]. intros g ? ->.
    instantiate (1 := λ lease T, lease_frame lease = frame ∧ T = [Own i]). done. }
  intros lease ? [Hl ->]. eapply fsafe_bind; [by apply return_lease_safe; rewrite Hl|]. done.
Qed.
(** ** Contiguous runs *)

Lemma fsafe_perm {A} (p : prog Frames A) T T' (Q : A → list Token → Prop) :
  (∀ a T T', T ≡ₚ T' → Q a T → Q a T') → T ≡ₚ T' → fsafe p T Q → fsafe p T' Q.
Proof using Type.
  intros HQ P. revert T T' P. induction p as [a|B f k IH]; intros T T' P; cbn; [by apply HQ|]. intros H s R HI.
  destruct (H s R) as (T1 & ? & ?); [by rewrite <- P in HI|]. by exists T1.
Qed.

Lemma gives_perm frames T T' : T ≡ₚ T' → gives frames T → gives frames T'.
Proof using Type. intros P (os & J & ? & PJ). exists os, J. by rewrite <- P. Qed.

Lemma prepare_until_safe turns env index T : 0 ≤ index → fsafe (prepare_until turns env index) T (λ _ T', T' = T).
Proof using Type.
  intros Hi. induction turns as [|turns IH]; cbn [prepare_until]; (apply fsafe_keep; [by apply prepare_safe|]; intros [];
    [done| |done]); [done|apply IH].
Qed.

Lemma prepare_run_safe env base indices T :
  0 ≤ base → fsafe (prepare_contiguous_run env base indices) T (λ _ T', T' = T).
Proof using Type.
  intros Hb. induction indices as [|i indices IH]; cbn [prepare_contiguous_run]; [done|].
  apply fsafe_keep; [apply prepare_until_safe; lia|]. intros []; [apply IH|done].
Qed.

Lemma claim_run_safe turns base indices :
  0 ≤ base →
  fsafe (claim_run regions turns base indices) ((λ k, Candidate (base + Z.of_nat k)) <$> indices)
    (λ r T, match r with Some frames => gives frames T | None => True end).
Proof using Hregions.
  intros Hb. induction indices as [|i indices IH]; cbn [claim_run fmap list_fmap]; [apply gives_nil|].
  destruct (get_usable_frame regions (base + Z.of_nat i)) as [frame|] eqn:Hf; [|apply gives_nil].
  assert (frame_ordinal regions frame = Some (base + Z.of_nat i)) as Ho by (apply usable_ordinal_from; (done || lia)).
  set (rest := _ <$> indices) in *.
  eapply fsafe_bind; [exact (safe_frame _ _ [_] rest _ (claim_frame_safe turns frame _ Ho))|]. cbn.
  intros [[o|err]|] T (T1 & -> & H1); [|apply gives_nil|done]. destruct o as [lease|]; [|done]. destruct H1 as [-> _].
  eapply fsafe_bind.
  - eapply (fsafe_perm _ (rest ++ [Own (base + Z.of_nat i)]) _
      (λ r T, match r with Some frames => gives (frame :: frames) T | None => True end)).
    + intros [fs|] T T'; [apply gives_perm|done].
    + apply Permutation_app_comm.
    + eapply safe_mono; [|exact (safe_frame _ _ rest [_] _ IH)]. intros [fs|] T (T1 & -> & H1); [|done].
      apply (gives_perm _ (Own (base + Z.of_nat i) :: T1)); [|by apply gives_cons]. apply Permutation_cons_append.
  - by intros [fs|] T H1.
Qed.

Lemma deallocate_all_safe turns lock frames T : gives frames T → fsafe (deallocate_all regions turns lock frames) T (λ _ _, True).
Proof using Type.
  revert T. induction frames as [|frame frames IH]; intros T; cbn [deallocate_all]; [done|].
  intros (os & J & E & P). destruct os as [|i os]; [done|]. cbn in E. injection E as Hi E.
  apply (fsafe_perm _ ([Own i] ++ ((Own <$> os) ++ J))); [done|by rewrite P|].
  eapply fsafe_bind; [exact (safe_frame _ _ [_] _ _ (deallocate_frame_safe turns _ frame i Hi))|]. cbn.
  intros _ T' (T1 & -> & _). apply IH. exists os, (J ++ T1). split; [done|]. rewrite (app_assoc (Own <$> os)). apply Permutation_app_comm.
Qed.

Lemma contiguous_safe attempts turns env count :
  fsafe (contiguous_attempts regions attempts turns env count) [] (handed (λ frames, frames)).
Proof using Hregions.
  induction attempts as [|attempts IH]; cbn [contiguous_attempts]; [done|].
  assert (∀ T, fsafe (contiguous_attempts regions attempts turns env count) T (handed (λ frames, frames))) as IH'.
  { intros T. apply fsafe_junk; [|apply IH]. intros [[a|]|] T1; [|done|done]. apply gives_junk. }
  eapply (fsafe_bind _ _ _ (λ c T, 0 ≤ c ∧ T = [])); [apply safe_get; intros s R HI; split; [apply HI|done]|].
  intros base ? [Hb ->]. destruct (get_usable_frame regions base) as [first|]; [|done].
  set (run := Z.to_nat _). apply fsafe_keep; [by apply prepare_run_safe|]. intros []; cbn [negb]; [|done].
  eapply fsafe_bind; [by apply safe_frontier|]. cbn. intros [] ? ->; cbn [negb]; [|apply IH].
  eapply fsafe_bind; [by apply claim_run_safe|]. intros [frames|] T; [|done]. intros HT. case_match; [done|].
  eapply fsafe_bind; [by apply deallocate_all_safe|]. cbn. intros _ T' _. case_match; [done|apply IH'].
Qed.

Lemma contiguous_frames_safe turns env count out_len :
  fsafe (allocate_contiguous_frames regions turns env count out_len) [] (handed (λ frames, frames)).
Proof using Hregions. unfold allocate_contiguous_frames. case_match; [done|apply contiguous_safe]. Qed.

(** ** Leaf mappings *)

(** The calls on the counts of mappings, on any frame. *)
Inductive leaf_call : prog Frames unit → Prop :=
  | leaf_acquire turns frame : leaf_call (acquire_leaf_mapping regions turns frame;; mret tt)
  | leaf_decref turns frame : leaf_call (decref_leaf_mapping regions turns frame;; mret tt)
  | leaf_register turns frame : leaf_call (register_external_leaf_frame regions turns frame;; mret tt)
  | leaf_span turns first len : leaf_call (register_external_leaf_span regions turns first len;; mret tt)
  | leaf_frame_register turns frame : leaf_call (frame_register regions turns frame).

Definition keeps {A} (p : prog Frames A) : Prop := ∀ T, fsafe p T (λ _ T', T' = T).

Lemma keeps_bind {A B} (p : prog Frames A) (k : A → prog Frames B) : keeps p → (∀ a, keeps (k a)) → keeps (p ≫= k).
Proof using Type. intros Hp Hk T. apply fsafe_keep; [apply Hp|]. intros a. apply Hk. Qed.

Lemma keeps_ret {A} (a : A) : keeps (mret a).
Proof using Type. done. Qed.

Lemma keeps_get {A} (f : Frames → A) : keeps (get f).
Proof using Type. intros T. apply safe_read. Qed.

Lemma keeps_act {A} (f : Frames → A * Frames) :
  (∀ s, ledger_ok s → ledger_ok (f s).2 ∧ NEXT_FREE_FRAME (f s).2 = NEXT_FREE_FRAME s
     ∧ FREE_FRAMES (f s).2 = FREE_FRAMES s ∧ ∀ i, 0 ≤ i → word (f s).2 i = word s i) → keeps (act f).
Proof using Type. intros Hf T. by apply safe_neutral. Qed.

Lemma mark_external_loop_keeps turns i : 0 ≤ i → keeps (mark_external_loop turns i).
Proof using Type.
  intros Hi. induction turns as [|turns IH]; cbn [mark_external_loop]; [apply keeps_ret|]. apply keeps_bind; [apply keeps_get|].
  intros r. case_match; [apply keeps_ret|]. case_match; [apply keeps_ret|].
  apply keeps_bind; [intros T; by apply safe_cas_refs|]. intros []; [apply keeps_ret|apply IH].
Qed.

Lemma mark_external_keeps turns frame : keeps (mark_external_leaf_slot regions turns frame).
Proof using Hregions.
  unfold mark_external_leaf_slot. destruct (frame_ordinal regions frame) as [i|] eqn:Hi; [|apply keeps_ret].
  apply keeps_bind; [apply keeps_get|]. intros [l|]; [|apply keeps_ret]. apply keeps_bind; [apply keeps_get|]. intros []; cbn [negb]; [|apply keeps_ret].
  apply keeps_bind; [apply keeps_get|]. intros w. case_match; [apply keeps_ret|]. apply mark_external_loop_keeps. by eapply ordinal_nonneg.
Qed.

Lemma mark_span_keeps pages turns address : keeps (mark_span regions pages turns address).
Proof using Hregions.
  revert address. induction pages as [|pages IH]; intros address; cbn [mark_span]; [apply keeps_ret|].
  apply keeps_bind; [apply mark_external_keeps|]. intros [[]|]; [apply IH|apply keeps_ret..].
Qed.

Lemma acquire_loop_keeps turns i : 0 ≤ i → keeps (acquire_loop turns i).
Proof using Type.
  intros Hi. induction turns as [|turns IH]; cbn [acquire_loop]; [apply keeps_ret|]. apply keeps_bind; [apply keeps_get|].
  intros r. case_match; [apply keeps_ret|]. case_match; [apply keeps_ret|].
  apply keeps_bind; [intros T; by apply safe_cas_refs|]. intros []; [|apply IH]. apply keeps_bind; [apply keeps_get|].
  intros w. case_match; [apply keeps_ret|]. apply keeps_bind; [|intros; apply keeps_ret]. apply keeps_act. intros s Hl. cbn.
  split_and!; [by apply ledger_on_slot|done..|]. intros j Hj. by apply word_refs.
Qed.

Lemma acquire_keeps turns frame : keeps (acquire_leaf_mapping regions turns frame).
Proof using Hregions.
  unfold acquire_leaf_mapping. apply keeps_bind; [apply keeps_get|]. intros []; [apply keeps_ret|].
  destruct (frame_ordinal regions frame) as [i|] eqn:Hi; [|apply keeps_ret].
  apply keeps_bind; [apply keeps_get|]. intros [l|]; [|apply keeps_ret]. apply keeps_bind; [apply keeps_get|]. intros []; cbn [negb]; [|apply keeps_ret].
  apply keeps_bind; [apply keeps_get|]. intros w. case_match; [apply keeps_ret|]. apply acquire_loop_keeps. by eapply ordinal_nonneg.
Qed.

Lemma decref_loop_keeps turns i : 0 ≤ i → keeps (decref_loop turns i).
Proof using Type.
  intros Hi. induction turns as [|turns IH]; cbn [decref_loop]; [apply keeps_ret|]. apply keeps_bind; [apply keeps_get|].
  intros r. case_match; [apply keeps_ret|]. case_match; [apply keeps_ret|].
  apply keeps_bind; [intros T; by apply safe_cas_refs|]. intros []; [apply keeps_ret|apply IH].
Qed.

Lemma leaf_call_keeps p : leaf_call p → keeps p.
Proof using Hregions.
  intros [].
  - apply keeps_bind; [apply acquire_keeps|intros; apply keeps_ret].
  - apply keeps_bind; [|intros; apply keeps_ret]. unfold decref_leaf_mapping.
    destruct (frame_ordinal regions frame) as [i|] eqn:Hi; [|apply keeps_ret].
    apply keeps_bind; [apply keeps_get|]. intros []; cbn [negb]; [|apply keeps_ret].
    apply keeps_bind; [apply keeps_get|]. intros w. case_match; [apply keeps_ret|]. apply decref_loop_keeps. by eapply ordinal_nonneg.
  - apply keeps_bind; [|intros; apply keeps_ret]. apply keeps_bind; [apply mark_external_keeps|intros; apply keeps_ret].
  - apply keeps_bind; [|intros; apply keeps_ret]. unfold register_external_leaf_span. case_match; [apply keeps_ret|]. case_match; [apply keeps_ret|].
    apply keeps_bind; [apply mark_span_keeps|]. intros [[]|]; [|apply keeps_ret..]. apply keeps_bind; [|intros; apply keeps_ret].
    apply keeps_act. intros s Hl. unfold add_span. repeat case_match; done.
  - unfold frame_register. apply keeps_bind.
    + unfold frame_refcount, leaf_mapping_refcount. apply keeps_bind; [apply keeps_get|]. intros []; [apply keeps_ret|].
      case_match; [apply keeps_get|apply keeps_ret].
    + intros r. case_match; [|apply keeps_ret]. apply keeps_bind; [apply acquire_keeps|intros; apply keeps_ret].
Qed.
End safe_calls.
