(* ===== verification/FramePool.v ===== *)
(** The allocator from boot on: the ledger the boot operation builds satisfies
    the invariant, and a pool of calls that runs from there, in any
    interleaving of their accesses, never gives a frame two owners. *)

From S2P Require Import Prelude Atomic FrameAlloc FrameInv FrameSafe.

(** ** Boot *)

Section boot.
Context (regions : list UsableRegion) (Hregions : regions_ok regions).

Definition lword (l : FrameLedger) (i : Z) : u32 := default 0 (allocation <$> FrameLedger_get l i).

(** A ledger whose chunks are missing or new. *)
Record pristine (l0 l : FrameLedger) : Prop := {
  pr_total : total_frames l = total_frames l0;
  pr_initial : initial_frontier l = initial_frontier l0;
  pr_length : length (chunks l) = length (chunks l0);
  pr_chunk : ∀ i, 0 ≤ i → chunk_at l i = None ∨ chunk_at l i = Some (new_chunk l0 (i / LEDGER_CHUNK_FRAMES));
}.

Lemma new_chunk_same l0 l k : pristine l0 l → new_chunk l k = new_chunk l0 k.
Proof using Type. intros [A B _ _]. unfold new_chunk, initial_word. by rewrite A, B. Qed.

Lemma publish_pristine l0 l index :
  0 ≤ index → pristine l0 l →
  pristine l0 (publish_chunk index l)
  ∧ (∀ i, 0 ≤ i → is_Some (chunk_at l i) → is_Some (chunk_at (publish_chunk index l) i))
  ∧ ((Z.to_nat (index / LEDGER_CHUNK_FRAMES) < length (chunks l0))%nat →
     ∀ i, i / LEDGER_CHUNK_FRAMES = index / LEDGER_CHUNK_FRAMES → is_Some (chunk_at (publish_chunk index l) i)).
Proof using Type.
  intros Hi P. unfold publish_chunk. destruct (chunk_at l index) as [c|] eqn:Hc.
  { split_and!; [done|done|]. intros _ i E. unfold chunk_at in *. rewrite E. by rewrite Hc. }
  set (l' := mkLedger _ _ _). pose proof P as [A B C D].
  assert (∀ i, 0 ≤ i → i / LEDGER_CHUNK_FRAMES ≠ index / LEDGER_CHUNK_FRAMES → chunk_at l' i = chunk_at l i) as Hne.
  { intros i Hi' Hn. unfold chunk_at, l'. cbn. rewrite list_lookup_insert_ne; [done|].
    pose proof (Z.div_pos i LEDGER_CHUNK_FRAMES Hi' ltac:(done)). pose proof (Z.div_pos index LEDGER_CHUNK_FRAMES Hi ltac:(done)). lia. }
  assert (∀ i, i / LEDGER_CHUNK_FRAMES = index / LEDGER_CHUNK_FRAMES →
    chunk_at l' i = if decide (Z.to_nat (index / LEDGER_CHUNK_FRAMES) < length (chunks l0))%nat
                    then Some (new_chunk l0 (i / LEDGER_CHUNK_FRAMES)) else None) as Heq.
  { intros i E. unfold chunk_at, l'. cbn. rewrite E, <- (new_chunk_same l0 l) by done. case_decide.
    - by rewrite list_lookup_insert_eq by lia.
    - rewrite list_insert_ge by lia. by rewrite lookup_ge_None_2 by lia. }
  split_and!.
  - split; [done|done|unfold l'; cbn; by rewrite length_insert|]. intros i Hi'.
    destruct (decide (i / LEDGER_CHUNK_FRAMES = index / LEDGER_CHUNK_FRAMES)) as [E|E]; [|rewrite Hne by done; by apply D].
    rewrite Heq by done. case_decide; auto.
  - intros i Hi' Hs. destruct (decide (i / LEDGER_CHUNK_FRAMES = index / LEDGER_CHUNK_FRAMES)) as [E|E]; [|by rewrite Hne].
    unfold chunk_at in Hs, Hc. rewrite E, Hc in Hs. by destruct Hs.
  - intros Hlt i E. rewrite Heq by done. by rewrite decide_True.
Qed.

Lemma publish_all_pristine l0 starts l :
  Forall (λ i, 0 ≤ i ∧ (Z.to_nat (i / LEDGER_CHUNK_FRAMES) < length (chunks l0))%nat) starts → pristine l0 l →
  let l' := foldl (λ l index, publish_chunk index l) l starts in
  pristine l0 l' ∧ (∀ i, 0 ≤ i → is_Some (chunk_at l i) → is_Some (chunk_at l' i))
  ∧ ∀ i x, 0 ≤ i → x ∈ starts → i / LEDGER_CHUNK_FRAMES = x / LEDGER_CHUNK_FRAMES → is_Some (chunk_at l' i).
Proof using Type.
  intros Hs. revert l. induction Hs as [|x starts [Hx Hlt] Hs IH]; intros l P; cbn.
  { split_and!; [done|done|]. intros i x _ ?%elem_of_nil. done. }
  destruct (publish_pristine l0 l x Hx P) as (P1 & M1 & N1). destruct (IH _ P1) as (P2 & M2 & N2). split_and!; [done|eauto|].
  intros i y Hi [->|Hy]%elem_of_cons E; [|by eapply N2]. apply M2; [done|]. by apply N1.
Qed.

(** The chunks the boot operation prepares. *)
Definition boot_starts (frontier : Z) : list Z :=
  (λ k, Z.of_nat k * LEDGER_CHUNK_FRAMES) <$> seq 0 (Z.to_nat ((frontier + LEDGER_CHUNK_FRAMES - 1) / LEDGER_CHUNK_FRAMES)).

Definition boot_ledger (total frontier : Z) : FrameLedger :=
  foldl (λ l index, publish_chunk index l) (FrameLedger_try_new total frontier) (boot_starts frontier).

Lemma boot_ledger_words total frontier :
  0 ≤ frontier ≤ total →
  let l := boot_ledger total frontier in
  initial_frontier l = frontier ∧ realized l ∧
  ∀ i, 0 ≤ i → lword l i = if decide (i < frontier) then 5 else 0.
Proof using Type.
  intros Hf. set (l0 := FrameLedger_try_new total frontier).
  assert (pristine l0 l0) as P0.
  { split; try done. intros i Hi. left. unfold chunk_at, l0. cbn.
    destruct (replicate _ None !! _) as [c|] eqn:E; [|done]. by apply lookup_replicate in E as [-> _]. }
  assert (∀ x, x ∈ boot_starts frontier → ∃ k, x = k * LEDGER_CHUNK_FRAMES ∧ 0 ≤ k < (frontier + LEDGER_CHUNK_FRAMES - 1) / LEDGER_CHUNK_FRAMES) as Hst.
  { intros x (k & -> & Hk%elem_of_seq)%list_elem_of_fmap. exists (Z.of_nat k). split; [done|lia]. }
  destruct (publish_all_pristine l0 (boot_starts frontier) l0) as (P & _ & N); [|done|].
  { apply Forall_forall. intros x (k & -> & Hk)%Hst. rewrite Z.div_mul by done. change LEDGER_CHUNK_FRAMES with 65536 in *.
    split; [lia|]. unfold l0. cbn [chunks FrameLedger_try_new]. rewrite length_replicate. change LEDGER_CHUNK_FRAMES with 65536.
    pose proof (Z.div_le_mono (frontier + 65536 - 1) (total + 65536 - 1) 65536). lia. }
  cbv zeta. set (l := boot_ledger total frontier). change (pristine l0 l) in P.
  assert (∀ i x, 0 ≤ i → x ∈ boot_starts frontier → i / LEDGER_CHUNK_FRAMES = x / LEDGER_CHUNK_FRAMES → is_Some (chunk_at l i)) as N'
    by exact N. clear N.
  assert (∀ i, 0 ≤ i < frontier → is_Some (chunk_at l i)) as Hc.
  { intros i Hi. apply (N' i (i / LEDGER_CHUNK_FRAMES * LEDGER_CHUNK_FRAMES)); [lia| |by rewrite Z.div_mul].
    apply list_elem_of_fmap. exists (Z.to_nat (i / LEDGER_CHUNK_FRAMES)). change LEDGER_CHUNK_FRAMES with 65536.
    pose proof (Z.div_pos i 65536). split; [rewrite Z2Nat.id by lia; done|]. apply elem_of_seq.
    assert (i / 65536 < (frontier + 65536 - 1) / 65536); [|lia].
    apply Z.div_lt_upper_bound; [lia|]. pose proof (Z.div_mod (frontier + 65536 - 1) 65536 ltac:(lia)).
    pose proof (Z.mod_pos_bound (frontier + 65536 - 1) 65536 ltac:(lia)). lia. }
  assert (∀ i, 0 ≤ i < frontier → FrameLedger_get l i = Some (FrameLedgerSlot_new 5)) as Hg.
  { intros i Hi. unfold FrameLedger_get. rewrite (pr_total _ _ P). destruct (Z.leb_spec (total_frames l0) i); [cbn in *; lia|].
    destruct (pr_chunk _ _ P i ltac:(lia)) as [E| ->]; [destruct (Hc i Hi); congruence|]. cbn [mbind option_bind].
    rewrite get_new_chunk by (done || lia). unfold initial_word. cbn [initial_frontier l0 FrameLedger_try_new].
    destruct (Z.ltb_spec i frontier); [done|lia]. }
  split_and!.
  - by rewrite (pr_initial _ _ P).
  - intros i. rewrite (pr_initial _ _ P). intros Hi. by rewrite (Hg i Hi).
  - intros i Hi. unfold lword. case_decide; [by rewrite Hg|]. unfold FrameLedger_get. rewrite (pr_total _ _ P).
    destruct (Z.leb_spec (total_frames l0) i); [done|]. destruct (pr_chunk _ _ P i Hi) as [-> | ->]; [done|].
    cbn [mbind option_bind]. rewrite get_new_chunk by done. unfold initial_word. cbn [initial_frontier l0 FrameLedger_try_new].
    destruct (Z.ltb_spec i frontier); [lia|done].
Qed.
(** A returned frame is entered once. *)
Lemma seed_exact reserve l a i :
  realized l → frame_ordinal regions a = Some i → 0 ≤ i < initial_frontier l →
  seed_free_frame regions reserve l a =
    if state_of (lword l i) =? ST_FREE then (false, l)
    else (true, update_slot i (λ x, mkSlot (Z.lor (Z.shiftl 1 2) ST_FREE) (leaf_refs x)) l).
Proof using Type.
  intros Hr Hi Hlt. unfold seed_free_frame. rewrite Hi. pose proof (Hr i Hlt) as Hg. destruct (get_chunk l i Hg) as [c Hc].
  assert (total_frames l <=? i = false) as ->.
  { apply Z.leb_gt. destruct (Z.leb_spec (total_frames l) i) as [Hle|]; [|done]. destruct Hg as [x Hx]. unfold FrameLedger_get in Hx.
    apply Z.leb_le in Hle. by rewrite Hle in Hx. }
  rewrite bool_decide_false by (by rewrite Hc). cbn [orb andb]. unfold publish_chunk. by rewrite Hc.
Qed.

Lemma lword_update i w l j :
  0 ≤ i → 0 ≤ j → is_Some (FrameLedger_get l i) →
  lword (update_slot i (λ x, mkSlot w (leaf_refs x)) l) j = if decide (i = j) then w else lword l j.
Proof using Type.
  intros Hi Hj [x Hx]. unfold lword. rewrite get_update_slot by done. case_decide; [subst; by rewrite Hx|done].
Qed.

(** The free list and the ledger while returned frames are entered. *)
Record seeded (F : Z) (acc : list u64 * FrameLedger) : Prop := {
  sd_realized : realized acc.2;
  sd_initial : initial_frontier acc.2 = F;
  sd_listed : ∀ a, a ∈ acc.1 → ∃ i, frame_ordinal regions a = Some i ∧ 0 ≤ i < F;
  sd_nodup : NoDup (omap (frame_ordinal regions) acc.1);
  sd_unused : ∀ i, 0 ≤ i → F ≤ i → lword acc.2 i = 0;
  sd_state : ∀ i, 0 ≤ i < F →
    state_of (lword acc.2 i) = if decide (i ∈ omap (frame_ordinal regions) acc.1) then ST_FREE else ST_ALLOCATED;
}.

Lemma seed_step reserve F acc a :
  seeded F acc → (∀ i, frame_ordinal regions (containing_address a) = Some i → 0 ≤ i < F) →
  seeded F (seed_bootstrap regions reserve acc a).
Proof using Type.
  destruct acc as [v l]. intros S Ha. unfold seed_bootstrap. cbn [fst snd]. pose proof S as [A B C D E G]. cbn [fst snd] in *.
  set (f := containing_address a) in *. destruct (frame_ordinal regions f) as [i|] eqn:Hi.
  2:{ unfold seed_free_frame. by rewrite Hi. }
  specialize (Ha i eq_refl). rewrite (seed_exact _ l f i) by (done || lia). rewrite G by done.
  case_decide as Hin; [done|]. cbn [Z.eqb ST_ALLOCATED ST_FREE Pos.eqb].
  assert (is_Some (FrameLedger_get l i)) as Hs by (apply A; lia).
  split; cbn [fst snd].
  - apply realized_update; [lia|done].
  - done.
  - intros b [Hb| ->%list_elem_of_singleton]%elem_of_app; [by apply C|by exists i].
  - rewrite omap_app. cbn. rewrite Hi. apply NoDup_app. split; [done|]. split; [|apply NoDup_singleton].
    by intros x Hx ->%list_elem_of_singleton.
  - intros j Hj Hge. rewrite lword_update by (done || lia). rewrite decide_False by lia. by apply E.
  - intros j Hj. rewrite lword_update by (done || lia). rewrite omap_app. cbn. rewrite Hi. destruct (decide (i = j)) as [->|Hne].
    + rewrite decide_True; [done|]. apply elem_of_app. right. by left.
    + rewrite G by done. apply decide_ext. rewrite elem_of_app, list_elem_of_singleton. naive_solver.
Qed.

Lemma seed_all reserve F bs acc :
  seeded F acc → (∀ a, a ∈ bs → ∀ i, frame_ordinal regions (containing_address a) = Some i → 0 ≤ i < F) →
  seeded F (foldl (seed_bootstrap regions reserve) acc bs).
Proof using Type.
  revert acc. induction bs as [|a bs IH]; intros acc S Ha; [done|]. cbn. apply IH; [apply seed_step; [done|]|].
  - apply Ha. by left.
  - intros b Hb. apply Ha. by right.
Qed.

Definition advertised_frames : Z := foldr Z.add 0 (region_frames <$> regions).

(** Boot before the ledger exists: frames come from the frontier, and returns go
    to the bootstrap array, perhaps more than once. *)
Record boot_state (s : Frames) : Prop := {
  bs_ledger : FRAME_LEDGER s = None;
  bs_free : FREE_FRAMES s = [];
  bs_frontier : 0 ≤ NEXT_FREE_FRAME s ≤ Z.min advertised_frames MAX_TRACKED_FRAMES;
  bs_returned : ∀ a, a ∈ BOOTSTRAP_FREE_FRAMES s → ∀ i,
    frame_ordinal regions (containing_address a) = Some i → 0 ≤ i < NEXT_FREE_FRAME s;
}.

(** The ordinals handed out at boot and not returned. *)
Definition boot_owned (s : Frames) : list Z :=
  filter (λ i, state_of (word s i) = ST_ALLOCATED) (seqZ 0 (NEXT_FREE_FRAME s)).

Lemma init_frame_ledger_inv heap reserve granted s s' :
  boot_state s → init_frame_ledger regions heap reserve granted s = Some s' → finv regions s' (Own <$> boot_owned s').
Proof using Type.
  intros [Hl Hf Hn Hr]. unfold init_frame_ledger. rewrite Hl, Hf. case_match; [done|]. fold advertised_frames. cbv zeta.
  rewrite (Z.min_l (NEXT_FREE_FRAME s)) by lia. set (total := Z.min advertised_frames MAX_TRACKED_FRAMES).
  change (foldl _ (FrameLedger_try_new total (NEXT_FREE_FRAME s)) _) with (boot_ledger total (NEXT_FREE_FRAME s)).
  destruct (boot_ledger_words total (NEXT_FREE_FRAME s) Hn) as (B1 & B2 & B3). set (l := boot_ledger _ _) in *. clearbody l.
  match goal with |- match ?g with _ => _ end = _ → _ => destruct g as [cap|]; [|done] end. cbn [seed_free_list length].
  assert (seeded (NEXT_FREE_FRAME s) ([], l)) as S0.
  { split; cbn [fst snd]; try done.
    - intros a ?%elem_of_nil. done.
    - constructor.
    - intros i Hi Hge. rewrite B3 by done. by rewrite decide_False by lia.
    - intros i Hi. rewrite B3 by lia. by rewrite decide_True by lia. }
  pose proof (seed_all reserve _ (BOOTSTRAP_FREE_FRAMES s) _ S0 Hr) as [A B C D E G].
  destruct (foldl (seed_bootstrap regions reserve) ([], l) _) as [v l'] eqn:Hfold. cbn [fst snd] in *. intros [= <-].
  assert (∀ i, word (mkFrames (NEXT_FREE_FRAME s) (Some l') v (Z.max cap (Z.of_nat (length v)))
    (Z.max cap (Z.of_nat (length v))) [] (EXTERNAL_LEAF_SPANS s)) i = lword l' i) as Hw by done.
  set (s' := mkFrames _ _ _ _ _ _ _) in *. split; cbn [NEXT_FREE_FRAME FREE_FRAMES s'].
  - by exists l'.
  - lia.
  - intros a Ha. destruct (C a Ha) as (i & Hi & Hlt). exists i. split_and!; [done|lia|lia|]. rewrite Hw, G by done.
    rewrite decide_True; [done|]. apply list_elem_of_omap. eauto.
  - intros t (i & -> & [Hst Hi%elem_of_seqZ]%list_elem_of_filter)%list_elem_of_fmap. cbn in *. split; [lia|done].
  - intros i Hi. rewrite Hw. apply E; lia.
  - rewrite <- list_fmap_compose. cbn. rewrite list_fmap_id. apply NoDup_app. split; [apply NoDup_filter, NoDup_seqZ|]. split; [|done].
    intros i [Hst Hi%elem_of_seqZ]%list_elem_of_filter Hin. cbn in Hi. rewrite Hw, G in Hst by lia. by rewrite decide_True in Hst.
Qed.
End boot.

(** ** The pool *)

(** The calls that run, by a number, each ending with the frames it hands to its
    caller; and the frames the rest of the kernel holds. *)
Record Pool := mkPool {
  p_frames : Frames;
  p_calls : gmap nat (prog Frames (list u64));
  p_owned : list u64;
}.

Definition handing {A} (f : A → list u64) (p : prog Frames (option (option A))) : prog Frames (list u64) :=
  r ← p; mret (match r with Some (Some a) => f a | _ => [] end).

Section pool.
Context (regions : list UsableRegion) (Hregions : regions_ok regions).

Definition start_call (c : nat) (p : prog Frames (list u64)) (owned : list u64) (P : Pool) : Pool :=
  mkPool (p_frames P) (<[c := p]> (p_calls P)) owned.

Inductive pstep (P : Pool) : Pool → Prop :=
  | p_allocate c turns env :
      p_calls P !! c = None →
      pstep P (start_call c (handing (λ a, [a]) (allocate_frame regions turns env)) (p_owned P) P)
  | p_allocate_leased c turns env :
      p_calls P !! c = None →
      pstep P (start_call c (handing (λ l, [lease_frame l]) (allocate_frame_leased regions turns env)) (p_owned P) P)
  | p_allocate_run c turns env count out_len :
      p_calls P !! c = None →
      pstep P (start_call c (handing (λ frames, frames) (allocate_contiguous_frames regions turns env count out_len)) (p_owned P) P)
  (** the holder of a frame gives it back *)
  | p_deallocate c turns lock a owned :
      p_calls P !! c = None → p_owned P ≡ₚ a :: owned →
      pstep P (start_call c (deallocate_frame regions turns lock a;; mret []) owned P)
  | p_return c turns lock lease owned :
      p_calls P !! c = None → p_owned P ≡ₚ lease_frame lease :: owned →
      pstep P (start_call c (return_lease regions turns lock lease;; mret []) owned P)
  (** anyone counts mappings *)
  | p_leaf c p :
      p_calls P !! c = None → leaf_call regions p → pstep P (start_call c (p;; mret []) (p_owned P) P)
  (** a running call makes one access, or ends *)
  | p_access c B (f : Frames → B * Frames) k :
      p_calls P !! c = Some (Act f k) →
      pstep P (mkPool (f (p_frames P)).2 (<[c := k (f (p_frames P)).1]> (p_calls P)) (p_owned P))
  | p_end c frames :
      p_calls P !! c = Some (Ret frames) →
      pstep P (mkPool (p_frames P) (delete c (p_calls P)) (p_owned P ++ frames)).

(** From boot: the frames handed out so far and not returned are held. *)
Inductive preachable : Pool → Prop :=
  | p_boot heap reserve granted s s' :
      boot_state regions s → init_frame_ledger regions heap reserve granted s = Some s' →
      preachable (mkPool s' ∅ (omap (get_usable_frame regions) (boot_owned s')))
  | p_next P P' : preachable P → pstep P P' → preachable P'.

(** A call may run to its end undisturbed. *)
Lemma preachable_run c p P :
  preachable P → p_calls P !! c = Some p →
  preachable (mkPool (exec p (p_frames P)).2 (delete c (p_calls P)) (p_owned P ++ (exec p (p_frames P)).1)).
Proof using Type.
  revert P. induction p as [frames|B f k IH]; intros P HP Hc; [by eapply p_next; [|apply p_end]|].
  specialize (IH (f (p_frames P)).1 _ (p_next _ _ HP (p_access P c B f k Hc))). cbn in IH.
  rewrite lookup_insert_eq, delete_insert_eq in IH. by apply IH.
Qed.

(** *** The tokens of all calls *)

Definition all_tokens (m : gmap nat (list Token)) : list Token := concat (snd <$> map_to_list m).

Lemma all_tokens_insert m c T : m !! c = None → all_tokens (<[c := T]> m) ≡ₚ T ++ all_tokens m.
Proof using Type. intros Hc. unfold all_tokens. by rewrite map_to_list_insert. Qed.

Lemma all_tokens_take m c T : m !! c = Some T → all_tokens m ≡ₚ T ++ all_tokens (delete c m).
Proof using Type.
  intros Hc. rewrite <- (insert_delete_id m c T) at 1 by done. apply all_tokens_insert. by rewrite lookup_delete_eq.
Qed.

Lemma all_tokens_set m c T T' : m !! c = Some T → all_tokens (<[c := T']> m) ≡ₚ T' ++ all_tokens (delete c m).
Proof using Type.
  intros Hc. rewrite <- insert_delete_eq. apply all_tokens_insert. by rewrite lookup_delete_eq.
Qed.

Record pinv (P : Pool) (m : gmap nat (list Token)) (os : list Z) : Prop := {
  pi_owned : frame_ordinal regions <$> p_owned P = Some <$> os;
  pi_dom : ∀ c, is_Some (m !! c) ↔ is_Some (p_calls P !! c);
  pi_inv : finv regions (p_frames P) ((Own <$> os) ++ all_tokens m);
  pi_safe : ∀ c p T, p_calls P !! c = Some p → m !! c = Some T → safe (finv regions) p T (gives regions);
}.

(** A call starts with tokens that were held before. *)
Lemma pinv_start P m os c p owned os' T :
  pinv P m os → p_calls P !! c = None → frame_ordinal regions <$> owned = Some <$> os' →
  Own <$> os ≡ₚ T ++ (Own <$> os') → safe (finv regions) p T (gives regions) →
  pinv (start_call c p owned P) (<[c := T]> m) os'.
Proof using Type.
  intros [A B C D] Hc Ho Hp Hs.
  assert (m !! c = None) as Hm by (apply eq_None_not_Some; rewrite B, Hc; by intros []).
  split; cbn; [done| | |].
  - intros c'. rewrite !lookup_insert_is_Some, B. tauto.
  - rewrite all_tokens_insert by done. rewrite Hp in C. eapply finv_perm; [|exact C].
    rewrite !app_assoc. apply Permutation_app_tail, Permutation_app_comm.
  - intros c' p' T' Hp' HT'. destruct (decide (c = c')) as [<-|]; simplify_map_eq; [done|by eapply D].
Qed.

Lemma ordinals_perm (xs ys : list u64) os :
  xs ≡ₚ ys → frame_ordinal regions <$> xs = Some <$> os → ∃ os', frame_ordinal regions <$> ys = Some <$> os' ∧ os ≡ₚ os'.
Proof using Type.
  intros Hp. revert os. induction Hp as [|x xs ys _ IH|x y xs|xs ys zs _ IH1 _ IH2]; intros os Ho.
  - destruct os; [by exists []|done].
  - destruct os as [|o os]; [done|]. cbn in Ho. injection Ho as Hx Ho. destruct (IH os Ho) as (os' & ? & ?).
    exists (o :: os'). cbn. split; [by rewrite Hx; f_equal|by constructor].
  - destruct os as [|o [|o' os]]; [done..|]. cbn in Ho. injection Ho as Hx Hy Ho. exists (o' :: o :: os). cbn.
    split; [by rewrite Hx, Hy, Ho|constructor].
  - destruct (IH1 os Ho) as (os1 & H1 & P1). destruct (IH2 os1 H1) as (os2 & H2 & P2). exists os2. split; [done|by etrans].
Qed.

Lemma handing_safe {A} (f : A → list u64) p T :
  safe (finv regions) p T (handed regions f) → safe (finv regions) (handing f p) T (gives regions).
Proof using Type.
  intros Hp. eapply fsafe_bind; [exact Hp|]. intros [[a|]|] T1; cbn; [done|intros _; apply gives_nil..].
Qed.

Lemma pstep_pinv P P' m os : pstep P P' → pinv P m os → ∃ m' os', pinv P' m' os'.
Proof using Hregions.
  assert (∀ (p : prog Frames unit) T, safe (finv regions) p T (λ _ _, True) →
    safe (finv regions) (p;; mret []) T (gives regions)) as Hunit.
  { intros p T Hp. eapply fsafe_bind; [exact Hp|]. intros _ T1 _. apply gives_nil. }
  assert (∀ c p, pinv P m os → p_calls P !! c = None → safe (finv regions) p [] (gives regions) →
    ∃ m' os', pinv (start_call c p (p_owned P) P) m' os') as Hnew.
  { intros c p HP Hc Hs. exists (<[c := []]> m), os. eapply pinv_start; [done|done|apply HP|done|done]. }
  assert (∀ c p a owned, pinv P m os → p_calls P !! c = None → p_owned P ≡ₚ a :: owned →
    (∀ i, frame_ordinal regions a = Some i → safe (finv regions) p [Own i] (gives regions)) →
    ∃ m' os', pinv (start_call c p owned P) m' os') as Hgive.
  { intros c p a owned HP Hc Ho Hs. destruct (ordinals_perm _ _ os Ho (pi_owned _ _ _ HP)) as (os' & E & Pm).
    destruct os' as [|i os']; [done|]. cbn in E. injection E as Hi E. exists (<[c := [Own i]]> m), os'.
    eapply pinv_start; [done|done|done| |by apply Hs]. by rewrite Pm. }
  intros Hstep HP. destruct Hstep as [c turns env Hc|c turns env Hc|c turns env count n Hc|c turns lock a owned Hc Ho
    |c turns lock lease owned Hc Ho|c p Hc Hp|c B f k Hc|c frames Hc].
  - apply Hnew; [done|done|]. apply handing_safe, allocate_frame_safe, Hregions.
  - apply Hnew; [done|done|]. apply handing_safe, allocate_leased_safe, Hregions.
  - apply Hnew; [done|done|]. apply handing_safe, contiguous_frames_safe, Hregions.
  - eapply Hgive; [done|done|done|]. intros i Hi. by apply Hunit, deallocate_frame_safe.
  - eapply Hgive; [done|done|done|]. intros i Hi. eapply fsafe_bind; [by apply return_lease_safe|]. intros _ T _. apply gives_nil.
  - apply Hnew; [done|done|]. apply Hunit. eapply safe_mono; [|apply (leaf_call_keeps regions Hregions p Hp)]. done.
  - destruct HP as [A Bd C D]. destruct (proj2 (Bd c) ltac:(by rewrite Hc)) as [T HT].
    pose proof (D c _ T Hc HT) as Hs. cbn in Hs. destruct (Hs (p_frames P) (all_tokens (delete c m) ++ (Own <$> os))) as (T' & HI & Hk).
    { eapply finv_perm; [|exact C]. by rewrite (all_tokens_take m c T HT), (Permutation_app_comm (Own <$> os)), <- app_assoc. }
    exists (<[c := T']> m), os. split; cbn; [done| | |].
    + intros c'. rewrite !lookup_insert_is_Some, Bd. tauto.
    + eapply finv_perm; [|exact HI]. by rewrite (all_tokens_set m c T T' HT), (Permutation_app_comm (Own <$> os)), <- app_assoc.
    + intros c' p' T1 Hp' HT1. destruct (decide (c = c')) as [<-|]; simplify_map_eq; [done|by eapply D].
  - destruct HP as [A Bd C D]. destruct (proj2 (Bd c) ltac:(by rewrite Hc)) as [T HT].
    destruct (D c _ T Hc HT) as (os1 & J & E & Pm). exists (delete c m), (os ++ os1). split; cbn.
    + by rewrite !fmap_app, A, E.
    + intros c'. rewrite !lookup_delete_is_Some, Bd. done.
    + apply (finv_drop regions _ J). eapply finv_perm; [|exact C]. rewrite (all_tokens_take m c T HT), Pm, fmap_app. solve_Permutation.
    + intros c' p' T1 [? Hp']%lookup_delete_Some [_ HT1]%lookup_delete_Some. by eapply D.
Qed.
End pool.
