(* ===== verification/FrameLaws.v ===== *)
(** What the frame allocator promises: the ordinals of the memory map and its
    addresses correspond, no interleaving gives a frame two owners, a lease is
    good for one return, the counts of mappings are exact and hold a frame back,
    and an allocation ends; and two interleavings in which a mapping is counted
    on a frame that has been given back. *)

From S2P Require Import Prelude Atomic FrameAlloc FrameInv FrameSafe FramePool.

(** ** The memory map *)

Lemma regions_ok_snoc regions r :
  regions_ok regions → region_ok r → Forall (λ q, apart q r) regions → regions_ok (regions ++ [r]).
Proof.
  induction regions as [|q regions IH]; cbn; intros Hok Hr Ha; [by split_and!; [|constructor|]|].
  destruct Hok as (Hq & Hqa & Hok). apply Forall_cons in Ha as [Hqr Ha]. split_and!; [done| |by apply IH].
  apply Forall_app. split; [done|]. by apply Forall_singleton.
Qed.

(** A page-aligned map without overlaps, as a boot loader gives it. *)
Fixpoint map_ok (rs : list MemoryRegion) : Prop :=
  match rs with
  | [] => True
  | r :: rs =>
      mr_start r mod 4096 = 0 ∧ mr_end r mod 4096 = 0 ∧ mr_start r ≤ mr_end r
      ∧ Forall (λ q, mr_end r ≤ mr_start q ∨ mr_end q ≤ mr_start r) rs ∧ map_ok rs
  end.

Definition clear_of (regions : list UsableRegion) (r : MemoryRegion) : Prop :=
  Forall (λ q, end_ q ≤ mr_start r ∨ mr_end r ≤ start q) regions.

Lemma add_region_ok regions r :
  mr_start r mod 4096 = 0 → mr_end r mod 4096 = 0 → mr_start r ≤ mr_end r →
  regions_ok regions → clear_of regions r → regions_ok (add_region regions r).
Proof.
  intros Hs He Hle Hok Ha. unfold add_region. case_match; [|done]. destruct (Z.leb_spec (mr_end r) LOW_MEMORY_FLOOR); [done|].
  case_match; [|done]. cbv zeta. set (st := if mr_start r <? LOW_MEMORY_FLOOR then LOW_MEMORY_FLOOR else mr_start r).
  assert (mr_start r ≤ st ∧ LOW_MEMORY_FLOOR ≤ st ≤ mr_end r ∧ st mod 4096 = 0) as (Hst & Hst1 & Hst2).
  { unfold st. destruct (Z.ltb_spec (mr_start r) LOW_MEMORY_FLOOR); split_and!; try done; lia. }
  apply regions_ok_snoc; [done|done|]. eapply Forall_impl; [exact Ha|]. unfold apart. cbn. intros q Hq. lia.
Qed.

Lemma add_region_clear regions r q :
  clear_of regions q → mr_end r ≤ mr_start q ∨ mr_end q ≤ mr_start r → clear_of (add_region regions r) q.
Proof.
  intros Hc Hrq. unfold add_region. repeat case_match; try done; (apply Forall_app; split; [done|]; apply Forall_singleton; cbn);
    repeat match goal with H : (_ <? _) = true |- _ => apply Z.ltb_lt in H end; lia.
Qed.

Lemma init_regions_ok rs : map_ok rs → regions_ok (init rs).
Proof.
  unfold init. assert (∀ regions, regions_ok regions → Forall (clear_of regions) rs → map_ok rs → regions_ok (foldl add_region regions rs)) as H.
  { induction rs as [|r rs IH]; intros regions Hok Hc Hm; [done|]. cbn. destruct Hm as (? & ? & ? & Hr & Hm).
    apply Forall_cons in Hc as [Hcr Hc]. apply IH; [by apply add_region_ok| |done].
    apply Forall_forall. intros q Hq. rewrite Forall_forall in Hc, Hr. apply add_region_clear; auto. }
  intros Hm. apply H; [done| |done]. apply Forall_forall. intros. constructor.
Qed.

Lemma usable_frame_total regions count n :
  regions_ok regions → count ≤ n → n < count + advertised_frames regions → is_Some (usable_frame_from regions count n).
Proof.
  unfold advertised_frames. revert count. induction regions as [|r regions IH]; intros count Hok Hn; cbn; [lia|].
  destruct Hok as (Hr & _ & Hok). destruct (region_frames_mult r Hr) as [Hm Hp].
  destruct (Z.ltb_spec n (count + region_frames r)).
  - intros _. destruct Hr as [? _]. destruct (Z.ltb_spec (start r + (n - count) * 4096) LOW_MEMORY_FLOOR); [lia|done].
  - intros Hlt. apply IH; (done || lia).
Qed.

(** C35: the numbering of the usable frames is exact: on the regions the kernel
    takes from a page-aligned map without overlaps, the n-th usable frame exists
    for every n below the number of frames and its ordinal is n, and a frame with
    ordinal n is the n-th one. *)
Theorem frame_ordinal_inverse rs n a :
  map_ok rs → 0 ≤ n →
  (n < advertised_frames (init rs) → is_Some (get_usable_frame (init rs) n))
  ∧ (get_usable_frame (init rs) n = Some a → frame_ordinal (init rs) a = Some n)
  ∧ (a mod 4096 = 0 → frame_ordinal (init rs) a = Some n → get_usable_frame (init rs) n = Some a).
Proof.
  intros Hm%init_regions_ok Hn. split_and!.
  - intros Hlt. by apply usable_frame_total.
  - by apply usable_ordinal_from.
  - intros Ha Ho. by apply ordinal_usable_from in Ho as [_ ?].
Qed.

Definition sample_map : list MemoryRegion :=
  [mkMemoryRegion 0 0x9000 true; mkMemoryRegion 0xf0000 0x102000 true; mkMemoryRegion 0x102000 0x103000 false;
   mkMemoryRegion 0x200000 0x202000 true].

Lemma sample_map_ok : map_ok sample_map.
Proof. cbn. split_and!; repeat constructor; cbn; lia. Qed.

Lemma frame_ordinal_inverse_witness :
  get_usable_frame (init sample_map) 3 = Some 0x201000 ∧ frame_ordinal (init sample_map) 0x201000 = Some 3.
Proof.
  assert (get_usable_frame (init sample_map) 3 = Some 0x201000) as H by (vm_compute; reflexivity). split; [exact H|].
  apply (frame_ordinal_inverse sample_map 3 0x201000 sample_map_ok); [lia|exact H].
Defined.

(** ** Ownership *)

Section laws.
Context (regions : list UsableRegion) (Hregions : regions_ok regions).

Lemma boot_owned_ordinals s :
  NEXT_FREE_FRAME s ≤ advertised_frames regions →
  frame_ordinal regions <$> omap (get_usable_frame regions) (boot_owned s) = Some <$> boot_owned s.
Proof using Hregions.
  intros Hle. assert (∀ i, i ∈ boot_owned s → ∃ a, get_usable_frame regions i = Some a ∧ frame_ordinal regions a = Some i) as H.
  { intros i [_ Hi%elem_of_seqZ]%list_elem_of_filter. destruct (usable_frame_total regions 0 i Hregions) as [a Ha]; [lia..|].
    exists a. split; [done|]. apply usable_ordinal_from; (done || lia). }
  induction (boot_owned s) as [|i l IH]; [done|]. cbn. destruct (H i ltac:(by left)) as (a & -> & Ha). cbn. rewrite Ha.
  f_equal. apply IH. intros j Hj. apply H. by right.
Qed.

Lemma init_frontier heap reserve granted s s' :
  boot_state regions s → init_frame_ledger regions heap reserve granted s = Some s' →
  NEXT_FREE_FRAME s' = NEXT_FREE_FRAME s.
Proof using Type.
  intros [Hl Hf _ _]. unfold init_frame_ledger. rewrite Hl. case_match; [done|]. cbv zeta. case_match; [|done].
  destruct (seed_free_list _ _ _ _ _ _) as [v l]. destruct (foldl (seed_bootstrap regions reserve) _ _). by intros [= <-].
Qed.

Lemma preachable_inv P : preachable regions P → ∃ m os, pinv regions P m os.
Proof using Hregions.
  induction 1 as [heap reserve granted s s' Hs Hi|P P' _ (m & os & IH) Hstep].
  - exists ∅, (boot_owned s'). split; cbn.
    + apply boot_owned_ordinals. rewrite (init_frontier _ _ _ _ _ Hs Hi). destruct Hs as [_ _ ? _]. lia.
    + intros c. by rewrite !lookup_empty.
    + change (all_tokens ∅) with ([] : list Token). rewrite app_nil_r. by eapply init_frame_ledger_inv.
    + intros c p T. by rewrite lookup_empty.
  - by eapply pstep_pinv.
Qed.

(** C3: no frame has two owners: however the accesses of running allocations,
    returns and mapping counts interleave, the frames the kernel holds are
    distinct, each is marked allocated in the ledger, and none is in the free
    list. *)
Theorem frames_exclusive P :
  preachable regions P →
  NoDup (p_owned P) ∧
  ∀ a, a ∈ p_owned P → a ∉ FREE_FRAMES (p_frames P) ∧
    ∃ i, frame_ordinal regions a = Some i ∧ state_of (word (p_frames P) i) = ST_ALLOCATED.
Proof using Hregions.
  intros (m & os & [A _ [_ _ _ Ft _ Fn] _])%preachable_inv. rewrite fmap_app in Fn.
  assert (token_ord <$> (Own <$> os) = os) as Ho by (rewrite <- list_fmap_compose; apply list_fmap_id).
  rewrite Ho in Fn. apply NoDup_app in Fn as (Fn & Fx & _). apply NoDup_app in Fn as (Fn & _ & _). split.
  - apply (NoDup_fmap_1 (frame_ordinal regions)). rewrite A. by apply NoDup_fmap_2; [intros ?? [= ->]|].
  - intros a Ha. assert (∃ i, frame_ordinal regions a = Some i ∧ i ∈ os) as (i & Hi & Hin).
    { assert (frame_ordinal regions a ∈ Some <$> os) as Hx by (rewrite <- A; by apply list_elem_of_fmap_2).
      apply list_elem_of_fmap in Hx as (i & ? & ?). eauto. }
    split; [|exists i; split; [done|]; apply (Ft (Own i)), elem_of_app; left; by apply list_elem_of_fmap_2].
    intros Hf. apply (Fx i); [apply elem_of_app; by left|]. apply list_elem_of_omap. eauto.
Qed.

(** ** One call alone *)

Lemma exec_cas_word i old new s x :
  slot s i = Some x →
  exec (cas_word i old new) s = if allocation x =? old then (true, on_slot i (λ x, mkSlot new (leaf_refs x)) s) else (false, s).
Proof using Type. intros Hx. unfold cas_word. rewrite exec_act, Hx. done. Qed.

Lemma exec_cas_refs i old new s x :
  slot s i = Some x →
  exec (cas_refs i old new) s = if leaf_refs x =? old then (true, on_slot i (λ x, mkSlot (allocation x) new) s) else (false, s).
Proof using Type. intros Hx. unfold cas_refs. rewrite exec_act, Hx. done. Qed.

(** A claim takes one turn. *)
Lemma exec_claim_loop n a i s x :
  slot s i = Some x →
  exec (claim_loop (S n) a i) s =
    let st := state_of (allocation x) in
    if (st =? ST_NEVER) || (st =? ST_FREE) then
      if leaf_refs x =? 0 then
        let g := next_generation (allocation x) in
        (Some (Ok (Some (mkLease a (wrap 32 i) g))),
         on_slot i (λ x, mkSlot (Z.lor (wrap 32 (Z.shiftl g 2)) ST_ALLOCATED) (leaf_refs x)) s)
      else (Some (Err Duplicate), s)
    else if st =? ST_ALLOCATED then (Some (Err Duplicate), s) else (Some (Err Untracked), s).
Proof using Type.
  intros Hx. cbn [claim_loop]. rewrite exec_bind. unfold load_word. rewrite exec_get. cbn [fst snd]. unfold word. rewrite Hx. cbn [fmap option_fmap option_map default from_option].
  unfold state_of. cbv zeta. unfold Datatypes.id. destruct ((_ =? ST_NEVER) || _); [|by destruct (_ =? ST_ALLOCATED)].
  rewrite exec_bind. unfold load_refs. rewrite exec_get. cbn [fst snd]. unfold refs. rewrite Hx. cbn [fmap option_fmap option_map default from_option].
  unfold Datatypes.id. destruct (leaf_refs x =? 0); cbn [negb]; [|done]. rewrite exec_bind, (exec_cas_word _ _ _ _ x) by done.
  by rewrite Z.eqb_refl.
Qed.
(** What moves neither the frontier nor the free list. *)
Definition quiet {A} (p : prog Frames A) : Prop :=
  ∀ s, NEXT_FREE_FRAME (exec p s).2 = NEXT_FREE_FRAME s ∧ FREE_FRAMES (exec p s).2 = FREE_FRAMES s.

Lemma quiet_bind {A B} (p : prog Frames A) (k : A → prog Frames B) : quiet p → (∀ a, quiet (k a)) → quiet (p ≫= k).
Proof using Type. intros Hp Hk s. rewrite exec_bind. destruct (Hp s) as [<- <-]. apply Hk. Qed.

Lemma quiet_get {A} (f : Frames → A) : quiet (get f).
Proof using Type. done. Qed.

Lemma quiet_ret {A} (a : A) : quiet (mret a).
Proof using Type. done. Qed.

Lemma prepare_quiet env index : quiet (prepare_frame_for_allocation env index).
Proof using Type.
  unfold prepare_frame_for_allocation. apply quiet_bind; [apply quiet_get|]. intros [l|]; [|apply quiet_ret]. apply quiet_bind.
  - unfold ensure_chunk. case_match; [apply quiet_ret|]. apply quiet_bind; [apply quiet_get|]. intros []; [apply quiet_ret|].
    case_match; [apply quiet_ret|]. intros s. by rewrite exec_act.
  - intros []; cbn [negb]; [|apply quiet_ret]. unfold ensure_free_frame_capacity. apply quiet_bind; [apply quiet_get|]. intros cap.
    case_match; [apply quiet_ret|]. case_match; [apply quiet_ret|]. intros s. rewrite exec_act. unfold grow_free. by repeat case_match.
Qed.

Lemma claim_loop_quiet turns a i : quiet (claim_loop turns a i).
Proof using Type.
  induction turns as [|turns IH]; cbn [claim_loop]; [apply quiet_ret|]. apply quiet_bind; [apply quiet_get|]. intros w.
  case_match; [|by case_match]. apply quiet_bind; [apply quiet_get|]. intros r. case_match; [apply quiet_ret|].
  apply quiet_bind; [|intros []; [apply quiet_ret|apply IH]]. intros s. unfold cas_word. rewrite exec_act. by repeat case_match.
Qed.

Lemma claim_exec n a s :
  let '(r, s') := exec (claim_frame regions (S n) a) s in
  is_Some r ∧ NEXT_FREE_FRAME s' = NEXT_FREE_FRAME s ∧ FREE_FRAMES s' = FREE_FRAMES s.
Proof using Type.
  assert (quiet (claim_frame regions (S n) a)) as Hq.
  { unfold claim_frame. apply quiet_bind; [apply quiet_get|]. intros [l|]; [|apply quiet_ret].
    destruct (frame_ordinal regions a) as [i|]; [|apply quiet_ret].
    apply quiet_bind; [apply quiet_get|]. intros []; cbn [negb]; [apply claim_loop_quiet|apply quiet_ret]. }
  specialize (Hq s). assert (is_Some (exec (claim_frame regions (S n) a) s).1) as Hs.
  { unfold claim_frame. rewrite exec_bind, exec_get. cbn [fst snd]. destruct (FRAME_LEDGER s); [|done].
    destruct (frame_ordinal regions a) as [i|]; [|done]. rewrite exec_bind. unfold has_slot. rewrite exec_get. cbn [fst snd]. case_bool_decide as Hsl; [|done]. destruct Hsl as [x Hx].
    cbn [negb]. rewrite (exec_claim_loop _ _ _ _ x Hx). cbv zeta. by repeat case_match. }
  by destruct (exec (claim_frame regions (S n) a) s).
Qed.

(** A preparation whose reservations and lock succeed. *)
Definition granting (env : PrepareEnv) : Prop := pe_chunk env = true ∧ pe_lock env = true ∧ is_Some (pe_reserve env).

Definition untracked (s : Frames) : Prop := ∃ l, FRAME_LEDGER s = Some l ∧ total_frames l ≤ NEXT_FREE_FRAME s.

Lemma prepare_granted env s :
  granting env →
  let '(r, s') := exec (prepare_frame_for_allocation env (NEXT_FREE_FRAME s)) s in
  r ≠ Contended ∧ (r = Exhausted → untracked s').
Proof using Type.
  intros (Hc & Hl & [cap Hr]). unfold prepare_frame_for_allocation. rewrite exec_bind, exec_get. cbn [fst snd].
  destruct (FRAME_LEDGER s) as [l|] eqn:El; [|done]. rewrite exec_bind. unfold ensure_chunk. rewrite Hc.
  destruct (Z.leb_spec (total_frames l) (NEXT_FREE_FRAME s)).
  { cbn. split; [done|]. intros _. by exists l. }
  assert (∀ s1, (exec (ensure_free_frame_capacity env (NEXT_FREE_FRAME s + 1)) s1).1 = Ready) as Hcap.
  { intros s1. unfold ensure_free_frame_capacity. rewrite exec_bind, exec_get, Hl. cbn [fst snd negb].
    destruct (_ <=? FREE_FRAME_CAPACITY s1); [done|]. rewrite exec_act. unfold grow_free, try_reserve. rewrite Hr. by repeat case_match. }
  match goal with |- context [exec ?p s] => assert ((exec p s).1 = true) as -> end.
  { rewrite exec_bind, exec_get. cbn [fst snd negb]. case_bool_decide; [done|]. by rewrite exec_act. }
  cbn [negb]. match goal with |- context [exec (ensure_free_frame_capacity _ _) ?x] => specialize (Hcap x) end.
  destruct (exec _ _). cbn in Hcap. by rewrite Hcap.
Qed.

(** The frontier: at most nine turns. *)
Lemma sequential_exec turns env n s :
  (9 ≤ n + turns)%nat → (n ≤ 8)%nat →
  let '(r, s') := exec (BootInfoFrameAllocator_allocate_frame regions turns env n) s in
  FREE_FRAMES s' = FREE_FRAMES s ∧
  match r with
  | None => False
  | Some None => NEXT_FREE_FRAME s' = NEXT_FREE_FRAME s
      ∧ ((∀ k, granting (env k)) → get_usable_frame regions (NEXT_FREE_FRAME s) = None ∨ untracked s')
  | Some (Some a) => get_usable_frame regions (NEXT_FREE_FRAME s) = Some a ∧ NEXT_FREE_FRAME s' = NEXT_FREE_FRAME s + 1
  end.
Proof using Type.
  revert n s. induction turns as [|turns IH]; intros n s Hn Hle; [lia|]. cbn [BootInfoFrameAllocator_allocate_frame].
  rewrite exec_bind, exec_get. cbn [fst snd]. destruct (get_usable_frame regions (NEXT_FREE_FRAME s)) as [a|] eqn:Ha.
  2:{ cbn. split_and!; [done|done|]. intros _. by left. }
  rewrite exec_bind. destruct (prepare_quiet (env turns) (NEXT_FREE_FRAME s) s) as [Hnx Hfr].
  pose proof (prepare_granted (env turns) s) as Hg.
  destruct (exec (prepare_frame_for_allocation _ _) s) as [prepared s1]. cbn [fst snd] in *.
  assert (∀ m, let '(r, s') := exec (won ← cas_frontier (NEXT_FREE_FRAME s) (NEXT_FREE_FRAME s + 1);
    if won : bool then mret (Some (Some a)) else BootInfoFrameAllocator_allocate_frame regions turns env m) s1 in
    FREE_FRAMES s' = FREE_FRAMES s ∧ r = Some (Some a) ∧ NEXT_FREE_FRAME s' = NEXT_FREE_FRAME s + 1) as Hclaim.
  { intros m. rewrite exec_bind. unfold cas_frontier. rewrite exec_act, Hnx, Z.eqb_refl. done. }
  destruct prepared.
  - specialize (Hclaim 0%nat). destruct (exec _ s1) as [r s']. by destruct Hclaim as (? & -> & ?).
  - destruct (Nat.ltb_spec n 8).
    + specialize (IH (n + 1)%nat s1 ltac:(lia) ltac:(lia)). destruct (exec _ s1) as [r s']. rewrite Hnx, Hfr, Ha in IH. done.
    + specialize (Hclaim n). destruct (exec _ s1) as [r s']. by destruct Hclaim as (? & -> & ?).
  - cbn. split_and!; [done|done|]. intros Hgr. right. by apply Hg.
Qed.

(** The frames an allocation alone can still try. *)
Definition tries (s : Frames) : nat :=
  length (FREE_FRAMES s) + Z.to_nat (advertised_frames regions - NEXT_FREE_FRAME s).

Lemma usable_frame_bound rs count n a :
  regions_ok rs → usable_frame_from rs count n = Some a → n < count + foldr Z.add 0 (region_frames <$> rs).
Proof using Type.
  revert count. induction rs as [|r rs IH]; intros count Hok; [done|]. destruct Hok as (Hr & _ & Hok). cbn.
  assert (0 ≤ foldr Z.add 0 (region_frames <$> rs)).
  { clear IH. induction rs as [|q rs IH]; [done|]. cbn. destruct Hok as (Hq & _ & Hok). pose proof (region_frames_mult q Hq).
    specialize (IH Hok). lia. }
  destruct (Z.ltb_spec n (count + region_frames r)); [intros _; lia|]. intros Ha. specialize (IH _ Hok Ha). lia.
Qed.

Lemma candidate_exec turns env s :
  (9 ≤ turns)%nat →
  let '(r, s') := exec (allocate_candidate regions turns env) s in
  match r with
  | None => False
  | Some None => ae_lock env = true → (∀ k, granting (ae_prepare env k)) →
      FREE_FRAMES s' = [] ∧ (get_usable_frame regions (NEXT_FREE_FRAME s') = None ∨ untracked s')
  | Some (Some a) => (tries s' < tries s)%nat
  end.
Proof using Hregions.
  intros Ht. unfold allocate_candidate. rewrite exec_bind.
  set (o := exec (if ae_lock env then pop_free else mret None) s).
  assert (match o.1 with Some _ => (tries o.2 < tries s)%nat
    | None => (tries o.2 = tries s) ∧ (ae_lock env = true → FREE_FRAMES o.2 = []) end) as Ho.
  { unfold o. destruct (ae_lock env); [|done]. unfold pop_free. rewrite exec_act. cbn [fst snd]. unfold tries. cbn.
    destruct (last (FREE_FRAMES s)) as [a|] eqn:Hl.
    - apply last_Some in Hl as [v ->]. rewrite removelast_last, length_app. cbn. lia.
    - apply last_None in Hl. by rewrite Hl. }
  destruct o as [[a|] s1]; cbn [fst snd] in *; [done|]. destruct Ho as [Ho Hempty].
  pose proof (sequential_exec turns (ae_prepare env) 0 s1 ltac:(lia) ltac:(lia)) as Hs.
  destruct (exec _ s1) as [[[a|]|] s'].
  - destruct Hs as (Hf & Ha & Hn). rewrite <- Ho. unfold tries. rewrite Hf, Hn.
    pose proof (usable_frame_bound regions 0 _ a Hregions Ha) as Hb. fold (advertised_frames regions) in Hb. lia.
  - destruct Hs as (Hf & Hn & Hg). intros Hlock Hgr. rewrite Hf, Hn. split; [by apply Hempty|by apply Hg].
  - by destruct Hs.
Qed.

Lemma allocate_claimed_exec turns env s :
  (tries s + 9 ≤ turns)%nat →
  let '(r, s') := exec (allocate_claimed regions turns env) s in
  match r with
  | None => False
  | Some None => (∀ n, ae_lock (env n) = true ∧ ∀ k, granting (ae_prepare (env n) k)) →
      FREE_FRAMES s' = [] ∧ (get_usable_frame regions (NEXT_FREE_FRAME s') = None ∨ untracked s')
  | Some (Some _) => True
  end.
Proof using Hregions.
  revert s. induction turns as [|n IH]; intros s Ht; [lia|]. cbn [allocate_claimed]. rewrite exec_bind.
  pose proof (candidate_exec (S n) (env n) s ltac:(lia)) as Hc. destruct (exec (allocate_candidate _ _ _) s) as [[[a|]|] s1]; cbn [fst snd].
  - rewrite exec_bind. pose proof (claim_exec n a s1) as Hcl. destruct (exec (claim_frame _ _ _) s1) as [r s2]. cbn [fst snd].
    destruct Hcl as ([o ->] & Hn & Hf). destruct o as [lease|err]; [done|]. apply IH.
    assert (tries s2 = tries s1) by (unfold tries; by rewrite Hn, Hf). lia.
  - cbn. intros Henv. apply Hc; apply Henv.
  - done.
Qed.

(** C30: an allocation that is not disturbed ends: with a turn for each frame it
    may try it returns a frame or none.  When the lock is free and reservations
    succeed it returns none only if the free list is empty and no usable or
    trackable frame is left at the frontier. *)
Theorem allocate_frame_ends turns env s :
  (tries s + 9 ≤ turns)%nat →
  ∃ r s', exec (allocate_frame regions turns env) s = (Some r, s') ∧
    (r = None → (∀ n, ae_lock (env n) = true ∧ ∀ k, granting (ae_prepare (env n) k)) →
     FREE_FRAMES s' = [] ∧ (get_usable_frame regions (NEXT_FREE_FRAME s') = None ∨ untracked s')).
Proof using Hregions.
  intros Ht. unfold allocate_frame. rewrite exec_bind. pose proof (allocate_claimed_exec turns env s Ht) as H.
  destruct (exec (allocate_claimed _ _ _) s) as [[[[a o]|]|] s']; cbn [fst snd]; [..|done]; eexists _, _; (split; [reflexivity|]); done.
Qed.
End laws.
