(* ===== verification/FrameLeases.v ===== *)
(** Leases and mapping counts of the frame allocator, one call after another: a
    lease is good for one return, and a counted mapping holds its frame back;
    and the interleavings in which a mapping is counted on a frame that has been
    given back. *)

From S2P Require Import Prelude Atomic FrameAlloc FrameInv FrameSafe FramePool FrameLaws.

Section leases.
Context (regions : list UsableRegion).

(** ** One call *)

Definition freed_word (w : u32) : u32 := Z.lor (Z.land w (wnot 32 STATE_MASK)) ST_FREE.

Lemma exec_load_word i s x : slot s i = Some x → exec (load_word i) s = (allocation x, s).
Proof using Type. intros Hx. unfold load_word. rewrite exec_get. unfold word. by rewrite Hx. Qed.

Lemma exec_load_refs i s x : slot s i = Some x → exec (load_refs i) s = (leaf_refs x, s).
Proof using Type. intros Hx. unfold load_refs. rewrite exec_get. unfold refs. by rewrite Hx. Qed.

Lemma exec_has_slot i s x : slot s i = Some x → exec (has_slot i) s = (true, s).
Proof using Type. intros Hx. unfold has_slot. rewrite exec_get, Hx. done. Qed.

Lemma exec_release n lease s x :
  slot s (lease_index lease) = Some x →
  exec (release_loop (S n) lease) s =
    let w := allocation x in
    if state_of w =? ST_NEVER then (Some (Some RefusedNeverAllocated), s)
    else if negb (Z.shiftr w 2 =? lease_generation lease) then (Some (Some RefusedStale), s)
    else if state_of w =? ST_ALLOCATED then
      if leaf_refs x =? 0 then (Some None, on_slot (lease_index lease) (λ x, mkSlot (freed_word w) (leaf_refs x)) s)
      else (Some (Some RefusedLiveLeaf), s)
    else if state_of w =? ST_FREE then (Some (Some RefusedDoubleRelease), s)
    else (Some (Some RefusedUntracked), s).
Proof using Type.
  intros Hx. cbn [release_loop]. rewrite exec_bind, (exec_load_word _ _ x) by done. cbn [fst snd]. cbv zeta.
  fold (state_of (allocation x)). destruct (state_of (allocation x) =? ST_NEVER); [done|].
  destruct (Z.shiftr (allocation x) 2 =? lease_generation lease); cbn [negb]; [|done].
  destruct (state_of (allocation x) =? ST_ALLOCATED); [|by destruct (_ =? ST_FREE)].
  rewrite exec_bind, (exec_load_refs _ _ x) by done. cbn [fst snd]. destruct (leaf_refs x =? 0); cbn [negb]; [|done].
  rewrite exec_bind, (exec_cas_word _ _ _ _ x) by done. by rewrite Z.eqb_refl.
Qed.

Lemma exec_return n lock lease s x :
  is_Some (FRAME_LEDGER s) → frame_ordinal regions (lease_frame lease) = Some (lease_index lease) →
  slot s (lease_index lease) = Some x →
  exec (return_lease regions (S n) lock lease) s =
    match exec (release_loop (S n) lease) s with
    | (None, s1) => (None, s1)
    | (Some (Some o), s1) => (Some o, s1)
    | (Some None, s1) =>
        if lock then let '(o, s2) := push_free (lease_frame lease) s1 in (Some o, s2) else (Some LostContended, s1)
    end.
Proof using Type.
  intros [l Hl] Ho Hx. unfold return_lease. rewrite exec_bind, exec_get, Hl. cbn [fst snd]. rewrite bool_decide_true by done.
  cbn [negb]. rewrite exec_bind, (exec_has_slot _ _ x) by done. cbn [fst snd negb]. rewrite exec_bind.
  destruct (exec (release_loop (S n) lease) s) as [[[o|]|] s1]; cbn [fst snd]; [done| |done]. destruct lock; [|done].
  rewrite exec_bind, exec_act. by destruct (push_free (lease_frame lease) s1).
Qed.

(** ** Words *)

(** The word of a live frame of generation [g]. *)
Definition live_word (g : u32) : u32 := Z.lor (wrap 32 (Z.shiftl g 2)) ST_ALLOCATED.

Lemma lor_low g b : 0 ≤ b < 4 → Z.lor (g * 4) b = g * 4 + b.
Proof using Type.
  intros Hb. assert (Z.land (g * 4) b = 0) as H.
  { apply Z.bits_inj'. intros k Hk. rewrite Z.land_spec, Z.bits_0. change 4 with (2 ^ 2). destruct (decide (k < 2)).
    - by rewrite Z.mul_pow2_bits_low by lia.
    - rewrite (in_width_testbit 2 b k); [apply andb_false_r|lia|unfold in_width; lia|lia]. }
  by rewrite <- Z.lxor_lor, <- Z.add_nocarry_lxor by done.
Qed.

Lemma live_word_eq g : 0 ≤ g < 2 ^ 30 → live_word g = g * 4 + 1.
Proof using Type.
  intros Hg. unfold live_word. rewrite Z.shiftl_mul_pow2, wrap_small by (done || (unfold in_width; lia)). by apply lor_low.
Qed.

Lemma clear_state w : in_width 32 w → Z.land w (wnot 32 STATE_MASK) = w / 4 * 4.
Proof using Type.
  intros Hw. transitivity (Z.ldiff w (Z.ones 2)).
  2:{ by rewrite Z.ldiff_ones_r, Z.shiftl_mul_pow2, Z.shiftr_div_pow2 by done. }
  apply Z.bits_inj'. intros k Hk. rewrite Z.land_spec, Z.ldiff_spec. destruct (decide (k < 32)).
  - by rewrite wnot_testbit, bool_decide_true by (done || lia).
  - by rewrite (in_width_testbit 32 w k) by (done || lia).
Qed.

Lemma freed_live g : 0 ≤ g < 2 ^ 30 → freed_word (live_word g) = g * 4 + 2.
Proof using Type.
  intros Hg. rewrite live_word_eq by done. unfold freed_word. rewrite clear_state by (unfold in_width; lia).
  replace ((g * 4 + 1) / 4) with g by (rewrite Z.add_comm, Z.div_add by lia; done). by apply lor_low.
Qed.

Lemma generation_of g b : 0 ≤ b < 4 → Z.shiftr (g * 4 + b) 2 = g.
Proof using Type. intros Hb. rewrite Z.shiftr_div_pow2 by done. change (2 ^ 2) with 4. rewrite Z.add_comm, Z.div_add, Z.div_small by lia. lia. Qed.

Lemma state_low g b : 0 ≤ b < 4 → state_of (g * 4 + b) = b.
Proof using Type.
  intros Hb. unfold state_of. change STATE_MASK with (Z.ones 2). rewrite Z.land_ones by done. change (2 ^ 2) with 4.
  rewrite Z.add_comm, Z_mod_plus_full. by apply Z.mod_small.
Qed.

Lemma next_generation_eq g b : 0 ≤ g < 2 ^ 30 → 0 ≤ b < 4 → next_generation (g * 4 + b) = (g + 1) mod 2 ^ 30.
Proof using Type.
  intros Hg Hb. unfold next_generation. rewrite generation_of by done. rewrite wrap_small by (unfold in_width; lia).
  change 0x3fffffff with (Z.ones 30). by rewrite Z.land_ones.
Qed.

Lemma next_generation_ne g b : 0 ≤ g < 2 ^ 30 → 0 ≤ b < 4 → next_generation (g * 4 + b) ≠ g.
Proof using Type.
  intros Hg Hb. rewrite next_generation_eq by done. destruct (decide (g + 1 = 2 ^ 30)) as [E|].
  - rewrite E, Z.mod_same by done. lia.
  - rewrite Z.mod_small by lia. lia.
Qed.

(** ** Leases *)

(** A lease of the present generation of its frame. *)
Definition current_lease (lease : FrameLease) (s : Frames) : Prop :=
  is_Some (FRAME_LEDGER s) ∧ 0 ≤ lease_index lease < 2 ^ 32 ∧ 0 ≤ lease_generation lease < 2 ^ 30
  ∧ frame_ordinal regions (lease_frame lease) = Some (lease_index lease)
  ∧ word s (lease_index lease) = live_word (lease_generation lease) ∧ is_Some (slot s (lease_index lease)).

Lemma on_slot_ledger i f s : is_Some (FRAME_LEDGER s) → is_Some (FRAME_LEDGER (on_slot i f s)).
Proof using Type. intros [l Hl]. unfold on_slot. rewrite Hl. by eexists. Qed.

Lemma slot_set i f s x : 0 ≤ i → slot s i = Some x → slot (on_slot i f s) i = Some (f x).
Proof using Type. intros Hi Hx. rewrite slot_on_slot by done. rewrite decide_True by done. by rewrite Hx. Qed.

(** The free list takes one more frame: its lock was obtained and there is room. *)
Definition listed (lock : bool) (s : Frames) : bool :=
  lock && negb (Z.of_nat (length (FREE_FRAMES s)) =? free_capacity s).

Definition list_frame (lock : bool) (a : u64) (s : Frames) : Frames :=
  if listed lock s then set_free (FREE_FRAMES s ++ [a]) s else s.

Lemma list_frame_free lock a s :
  FREE_FRAMES (list_frame lock a s) = FREE_FRAMES s ++ (if listed lock s then [a] else []).
Proof using Type. unfold list_frame. case_match; [done|]. by rewrite app_nil_r. Qed.

(** The return of a lease whose frame is live and unmapped. *)
Lemma exec_return_current n lock a i g s :
  is_Some (FRAME_LEDGER s) → 0 ≤ g < 2 ^ 30 → frame_ordinal regions a = Some i → slot s i = Some (mkSlot (live_word g) 0) →
  exec (return_lease regions (S n) lock (mkLease a i g)) s =
    (Some (if listed lock s then FrameReturned else LostContended),
     list_frame lock a (on_slot i (λ x, mkSlot (g * 4 + 2) (leaf_refs x)) s)).
Proof using Type.
  intros Hl Hg Ho Hx. rewrite (exec_return _ _ _ _ (mkSlot (live_word g) 0)) by done.
  rewrite (exec_release _ _ _ (mkSlot (live_word g) 0)) by done.
  cbn [allocation leaf_refs lease_generation lease_index lease_frame]. cbv zeta. rewrite freed_live, live_word_eq by done.
  rewrite state_low, generation_of, Z.eqb_refl by done. cbn [Z.eqb ST_NEVER ST_ALLOCATED Pos.eqb negb]. unfold push_free, list_frame, listed.
  set (s0 := on_slot i _ s). change (FREE_FRAMES s0) with (FREE_FRAMES s). change (free_capacity s0) with (free_capacity s).
  destruct lock; [|done]. by destruct (Z.of_nat (length (FREE_FRAMES s)) =? free_capacity s).
Qed.

(** The return of any other lease of an existing slot. *)
Lemma exec_return_refused n lock a i g h b r s :
  is_Some (FRAME_LEDGER s) → frame_ordinal regions a = Some i → slot s i = Some (mkSlot (h * 4 + b) r) → 1 ≤ b < 3 →
  g ≠ h ∨ b = 2 ∨ r ≠ 0 →
  exec (return_lease regions (S n) lock (mkLease a i g)) s =
    (Some (if decide (g = h) then if decide (b = 2) then RefusedDoubleRelease else RefusedLiveLeaf else RefusedStale), s).
Proof using Type.
  intros Hl Ho Hx Hb Hwhy. rewrite (exec_return _ _ _ _ (mkSlot (h * 4 + b) r)) by done.
  rewrite (exec_release _ _ _ (mkSlot (h * 4 + b) r)) by done.
  cbn [allocation leaf_refs lease_generation lease_index lease_frame]. cbv zeta. rewrite state_low, generation_of by lia.
  assert (b =? ST_NEVER = false) as -> by (apply Z.eqb_neq; unfold ST_NEVER; lia).
  case_decide as Eg; [subst; rewrite Z.eqb_refl|apply not_eq_sym, Z.eqb_neq in Eg; by rewrite Eg]. cbn [negb].
  case_decide as Eb; [by subst|]. assert (b = 1) as -> by lia. cbn [Z.eqb ST_ALLOCATED Pos.eqb].
  assert (r ≠ 0) as Hr by naive_solver. apply Z.eqb_neq in Hr. by rewrite Hr.
Qed.

(** An allocation takes the frame listed last. *)
Lemma exec_reallocate m env a i h v s :
  is_Some (FRAME_LEDGER s) → ae_lock (env m) = true → FREE_FRAMES s = v ++ [a] → frame_ordinal regions a = Some i →
  0 ≤ i < 2 ^ 32 → slot s i = Some (mkSlot (h * 4 + 2) 0) →
  let g := next_generation (h * 4 + 2) in
  exec (allocate_claimed regions (S m) env) s =
    (Some (Some (a, Some (mkLease a i g))), on_slot i (λ x, mkSlot (live_word g) (leaf_refs x)) (set_free v s)).
Proof using Type.
  intros [l Hl] Hlock Hf Ho Hi Hx g. cbn [allocate_claimed]. rewrite exec_bind. unfold allocate_candidate.
  rewrite Hlock, exec_bind. unfold pop_free. rewrite exec_act, Hf, last_snoc, removelast_last. cbn [exec mret prog_mret fst snd].
  rewrite exec_bind. unfold claim_frame. rewrite exec_bind, exec_get. cbn [fst snd].
  change (FRAME_LEDGER (set_free v s)) with (FRAME_LEDGER s). rewrite Hl, Ho.
  rewrite exec_bind, (exec_has_slot _ _ (mkSlot (h * 4 + 2) 0)) by done. cbn [fst snd negb].
  rewrite (exec_claim_loop m a i _ (mkSlot (h * 4 + 2) 0)) by done. cbn [allocation leaf_refs]. cbv zeta. rewrite state_low by done.
  cbn [Z.eqb ST_NEVER ST_FREE Pos.eqb orb fst snd]. by rewrite wrap_small.
Qed.

(** What follows a return: it frees the word of the lease, so another return is
    a double release. *)
Lemma returned_twice n lock lock' a i g s :
  is_Some (FRAME_LEDGER s) → 0 ≤ i → frame_ordinal regions a = Some i → slot s i = Some (mkSlot (live_word g) 0) →
  let s1 := list_frame lock a (on_slot i (λ x, mkSlot (g * 4 + 2) (leaf_refs x)) s) in
  is_Some (FRAME_LEDGER s1) ∧ slot s1 i = Some (mkSlot (g * 4 + 2) 0)
  ∧ exec (return_lease regions (S n) lock' (mkLease a i g)) s1 = (Some RefusedDoubleRelease, s1).
Proof using Type.
  intros Hl Hi Ho Hx s1. assert (is_Some (FRAME_LEDGER s1)) as Hl1.
  { unfold s1, list_frame. case_match; by apply on_slot_ledger. }
  assert (slot s1 i = Some (mkSlot (g * 4 + 2) 0)) as Hx1.
  { apply (slot_set i (λ x, mkSlot (g * 4 + 2) (leaf_refs x)) s) in Hx; [|done]. unfold s1, list_frame. case_match; exact Hx. }
  split; [done|]. split; [done|]. rewrite (exec_return_refused _ _ _ _ _ g 2 0) by (done || auto). by rewrite !decide_True.
Qed.

(** C28: a lease is good for one return.  The return of a current lease of an
    unmapped frame lists the frame when the lock of the free list is obtained
    and the list has room, and otherwise reports [LostContended] and leaves the
    list as it was; either way a second return is refused as a double release
    and changes nothing.  If the frame was listed, the next allocation that
    obtains the lock hands it out again under a new lease, after which a return
    of the old one is refused as stale and changes nothing. *)
Theorem lease_returns_once n m env lock lock' lease s :
  current_lease lease s → refs s (lease_index lease) = 0 →
  ∃ s1,
    exec (return_lease regions (S n) lock lease) s = (Some (if listed lock s then FrameReturned else LostContended), s1)
    ∧ FREE_FRAMES s1 = FREE_FRAMES s ++ (if listed lock s then [lease_frame lease] else [])
    ∧ exec (return_lease regions (S n) lock' lease) s1 = (Some RefusedDoubleRelease, s1)
    ∧ (listed lock s = true → ae_lock (env m) = true → ∃ lease' s2,
        exec (allocate_claimed regions (S m) env) s1 = (Some (Some (lease_frame lease, Some lease')), s2)
        ∧ current_lease lease' s2 ∧ FREE_FRAMES s2 = FREE_FRAMES s
        ∧ exec (return_lease regions (S n) lock' lease) s2 = (Some RefusedStale, s2)).
Proof using Type.
  destruct lease as [a i g]. intros (Hl & Hi & Hg & Ho & Hw & [[w r] Hx]) Hr.
  cbn [lease_index lease_generation lease_frame] in *. unfold word, refs in Hw, Hr. rewrite Hx in Hw, Hr. cbn in Hw, Hr. subst w r.
  destruct (returned_twice n lock lock' a i g s) as (Hl1 & Hx1 & H2); [done|lia|done|done|].
  eexists. split; [by apply exec_return_current|]. split; [by rewrite list_frame_free|]. split; [exact H2|].
  intros Hroom Hlock. clear H2. unfold list_frame in *. change (listed lock (on_slot i _ s)) with (listed lock s) in *. rewrite Hroom in *.
  set (s1 := set_free _ _) in *.
  set (g' := next_generation (g * 4 + 2)). pose proof (next_generation_ne g 2 Hg ltac:(lia)) as Hne. fold g' in Hne.
  assert (0 ≤ g' < 2 ^ 30) as Hg' by (unfold g'; rewrite next_generation_eq by lia; by apply Z.mod_pos_bound).
  set (s2 := on_slot i (λ x, mkSlot (live_word g') (leaf_refs x)) (set_free (FREE_FRAMES s) s1)).
  assert (slot s2 i = Some (mkSlot (live_word g') 0)) as Hx2.
  { unfold s2. rewrite (slot_set i _ _ (mkSlot (g * 4 + 2) 0)); [done|lia|exact Hx1]. }
  assert (is_Some (FRAME_LEDGER s2)) as Hl2 by (apply on_slot_ledger; exact Hl1).
  exists (mkLease a i g'), s2. split; [by apply (exec_reallocate m env a i g)|]. split.
  { split_and!; cbn [lease_index lease_generation lease_frame]; try done; try lia. unfold word. by rewrite Hx2. }
  split; [done|]. rewrite live_word_eq in Hx2 by done. rewrite (exec_return_refused _ _ _ _ _ g' 1 0) by (done || auto).
  by rewrite decide_False.
Qed.

(** ** Mapping counts *)

(** A live frame outside the external spans, with its word and its count. *)
Definition mapped (a : u64) (i : Z) (w : u32) (r : u32) (s : Frames) : Prop :=
  frame_ordinal regions a = Some i ∧ 0 ≤ i ∧ is_Some (FRAME_LEDGER s) ∧ existsb (in_span a) (EXTERNAL_LEAF_SPANS s) = false
  ∧ state_of w = ST_ALLOCATED ∧ slot s i = Some (mkSlot w r).

Definition set_count (i : Z) (r : u32) (s : Frames) : Frames := on_slot i (λ x, mkSlot (allocation x) r) s.

Lemma mapped_count a i w r r' s : mapped a i w r s → mapped a i w r' (set_count i r' s).
Proof using Type.
  intros (? & ? & ? & ? & ? & Hx). split_and!; try done; [by apply on_slot_ledger|]. unfold set_count. by erewrite slot_set by done.
Qed.

Lemma exec_acquire n a i w r s :
  mapped a i w r s → r < LEAF_EXTERNAL - 1 →
  exec (acquire_leaf_mapping regions (S n) a) s = (Some (Ok Owned), set_count i (r + 1) s).
Proof using Type.
  intros Hm Hr. pose proof (mapped_count _ _ _ _ (r + 1) _ Hm) as (_ & _ & _ & _ & _ & Hx').
  destruct Hm as (Ho & Hi & [l Hl] & Hsp & Hst & Hx). unfold acquire_leaf_mapping.
  rewrite exec_bind. unfold frame_in_external_leaf_span. rewrite exec_get, Hsp. cbn [fst snd]. rewrite Ho, exec_bind, exec_get, Hl.
  cbn [fst snd]. rewrite exec_bind, (exec_has_slot _ _ _ Hx). cbn [fst snd negb].
  rewrite exec_bind, (exec_load_word _ _ _ Hx). cbn [fst snd allocation]. fold (state_of w). rewrite Hst. cbn [Z.eqb ST_ALLOCATED Pos.eqb negb].
  cbn [acquire_loop]. rewrite exec_bind, (exec_load_refs _ _ _ Hx). cbn [fst snd leaf_refs].
  destruct (Z.eqb_spec r LEAF_EXTERNAL); [lia|]. destruct (Z.eqb_spec r (LEAF_EXTERNAL - 1)); [lia|].
  rewrite exec_bind, (exec_cas_refs _ _ _ _ _ Hx). cbn [leaf_refs]. rewrite Z.eqb_refl. cbn [fst snd]. fold (set_count i (r + 1) s).
  rewrite exec_bind, (exec_load_word _ _ _ Hx'). cbn [fst snd allocation]. fold (state_of w). by rewrite Hst.
Qed.

Lemma exec_decref n a i w r s :
  mapped a i w r s → 0 < r < LEAF_EXTERNAL →
  exec (decref_leaf_mapping regions (S n) a) s = (Some (r =? 1), set_count i (r - 1) s).
Proof using Type.
  intros (Ho & Hi & [l Hl] & Hsp & Hst & Hx) Hr. unfold decref_leaf_mapping. rewrite Ho.
  rewrite exec_bind, (exec_has_slot _ _ _ Hx). cbn [fst snd negb].
  rewrite exec_bind, (exec_load_word _ _ _ Hx). cbn [fst snd allocation]. fold (state_of w). rewrite Hst. cbn [Z.eqb ST_ALLOCATED Pos.eqb negb].
  cbn [decref_loop]. rewrite exec_bind, (exec_load_refs _ _ _ Hx). cbn [fst snd leaf_refs].
  destruct (Z.eqb_spec r LEAF_EXTERNAL); [lia|]. destruct (Z.eqb_spec r 0); [lia|].
  rewrite exec_bind, (exec_cas_refs _ _ _ _ _ Hx). cbn [leaf_refs]. by rewrite Z.eqb_refl.
Qed.

(** A program run [k] times, with the results in order. *)
Fixpoint times {A} (k : nat) (p : prog Frames A) : prog Frames (list A) :=
  match k with
  | O => mret []
  | S k => a ← p; rest ← times k p; mret (a :: rest)
  end.

Lemma exec_times {A} k (p : prog Frames A) s :
  exec (times (S k) p) s =
    ((exec p s).1 :: (exec (times k p) (exec p s).2).1, (exec (times k p) (exec p s).2).2).
Proof using Type. cbn [times]. rewrite exec_bind. cbn [fst snd]. rewrite exec_bind. done. Qed.

Lemma acquire_times n k a i w r s :
  mapped a i w r s → r + Z.of_nat k < LEAF_EXTERNAL →
  let '(rs, s') := exec (times k (acquire_leaf_mapping regions (S n) a)) s in
  rs = replicate k (Some (Ok Owned)) ∧ mapped a i w (r + Z.of_nat k) s' ∧ FREE_FRAMES s' = FREE_FRAMES s ∧ free_capacity s' = free_capacity s.
Proof using Type.
  revert r s. induction k as [|k IH]; intros r s Hm Hk.
  { cbn. rewrite Z.add_0_r. done. }
  rewrite exec_times, (exec_acquire n a i w r) by (done || lia). cbn [fst snd].
  specialize (IH (r + 1) (set_count i (r + 1) s) (mapped_count _ _ _ _ _ _ Hm) ltac:(lia)).
  destruct (exec (times k _) _) as [rs s']. cbn [fst snd]. destruct IH as (-> & Hm' & Hf & Hc). split_and!; [done| |done|done].
  by replace (r + Z.of_nat (S k)) with (r + 1 + Z.of_nat k) by lia.
Qed.

Lemma decref_times n k a i w r s :
  mapped a i w r s → Z.of_nat k < r < LEAF_EXTERNAL →
  let '(rs, s') := exec (times k (decref_leaf_mapping regions (S n) a)) s in
  rs = replicate k (Some false) ∧ mapped a i w (r - Z.of_nat k) s' ∧ FREE_FRAMES s' = FREE_FRAMES s ∧ free_capacity s' = free_capacity s.
Proof using Type.
  revert r s. induction k as [|k IH]; intros r s Hm Hk.
  { cbn. rewrite Z.sub_0_r. done. }
  rewrite exec_times, (exec_decref n a i w r) by (done || lia). cbn [fst snd].
  specialize (IH (r - 1) (set_count i (r - 1) s) (mapped_count _ _ _ _ _ _ Hm) ltac:(lia)).
  destruct (exec (times k _) _) as [rs s']. cbn [fst snd]. destruct IH as (-> & Hm' & Hf & Hc). split_and!; [| |done|done].
  - destruct (Z.eqb_spec r 1); [lia|done].
  - by replace (r - Z.of_nat (S k)) with (r - 1 - Z.of_nat k) by lia.
Qed.

(** C29: mappings hold a frame back, exactly.  After k mappings of a live
    unmapped frame have been counted, k below the marker of external frames, and
    any fewer of them dropped, a return of the frame is refused and changes
    nothing; only the k-th drop reports that the frame is unmapped, and then the
    return is not refused: it lists the frame when the lock of the free list is
    obtained and the list has room, and otherwise reports [LostContended]. *)
Theorem mappings_hold_frame n k j lock lock' a i g s :
  mapped a i (live_word g) 0 s → 0 ≤ g < 2 ^ 30 → (j < k)%nat → Z.of_nat k < LEAF_EXTERNAL →
  let lease := mkLease a i g in
  let '(acquired, s1) := exec (times k (acquire_leaf_mapping regions (S n) a)) s in
  let '(dropped, s2) := exec (times j (decref_leaf_mapping regions (S n) a)) s1 in
  let '(rest, s3) := exec (times (k - 1 - j) (decref_leaf_mapping regions (S n) a)) s2 in
  let '(final, s4) := exec (decref_leaf_mapping regions (S n) a) s3 in
  acquired = replicate k (Some (Ok Owned)) ∧ dropped = replicate j (Some false)
  ∧ exec (return_lease regions (S n) lock' lease) s2 = (Some RefusedLiveLeaf, s2)
  ∧ rest = replicate (k - 1 - j) (Some false) ∧ final = Some true
  ∧ (exec (return_lease regions (S n) lock lease) s4).1 = Some (if listed lock s then FrameReturned else LostContended)
  ∧ FREE_FRAMES (exec (return_lease regions (S n) lock lease) s4).2 = FREE_FRAMES s ++ (if listed lock s then [a] else []).
Proof using Type.
  intros Hm Hg Hj Hk lease. pose proof (acquire_times n k a i _ 0 s Hm ltac:(lia)) as H1.
  destruct (exec (times k _) s) as [acquired s1]. destruct H1 as (-> & Hm1 & Hf1 & Hc1).
  pose proof (decref_times n j a i _ _ s1 Hm1 ltac:(lia)) as H2. destruct (exec (times j _) s1) as [dropped s2].
  destruct H2 as (-> & Hm2 & Hf2 & Hc2).
  pose proof (decref_times n (k - 1 - j) a i _ _ s2 Hm2 ltac:(lia)) as H3. destruct (exec (times (k - 1 - j) _) s2) as [rest s3].
  destruct H3 as (-> & Hm3 & Hf3 & Hc3). replace (0 + Z.of_nat k - Z.of_nat j - Z.of_nat (k - 1 - j)) with 1 in Hm3 by lia.
  rewrite (exec_decref n a i _ 1 s3 Hm3 ltac:(done)). pose proof (mapped_count _ _ _ _ (1 - 1) _ Hm3) as Hm4.
  destruct Hm2 as (Ho & Hi & Hl2 & _ & _ & Hx2). rewrite live_word_eq in Hx2 by done.
  destruct Hm4 as (_ & _ & Hl4 & _ & _ & Hx4). set (s4 := set_count i (1 - 1) s3) in *.
  assert (FREE_FRAMES s4 = FREE_FRAMES s) as Hf4 by (change (FREE_FRAMES s4) with (FREE_FRAMES s3); congruence).
  assert (free_capacity s4 = free_capacity s) as Hc4 by (change (free_capacity s4) with (free_capacity s3); congruence).
  assert (listed lock s4 = listed lock s) as Hroom by (unfold listed; by rewrite Hf4, Hc4).
  split_and!; try done.
  - unfold lease. rewrite (exec_return_refused _ _ _ _ _ g 1 (0 + Z.of_nat k - Z.of_nat j)); try done; [|right; right; lia].
    by rewrite decide_True by done.
  - unfold lease. by rewrite exec_return_current, Hroom by done.
  - unfold lease. rewrite exec_return_current by done. cbn [snd]. rewrite list_frame_free, <- Hroom, <- Hf4. done.
Qed.
End leases.

(** ** Samples *)

(** Boot of a machine with four frames at 1 MiB: two were handed out and the
    first was returned, twice. *)
Definition sample_regions : list UsableRegion := [mkRegion 0x100000 0x104000].
Definition sample_boot_frames : Frames :=
  set_bootstrap [0x100000; 0x100000] (set_frontier 2 frames_zero).
Definition sample_frames : Frames :=
  default frames_zero (init_frame_ledger sample_regions true (λ _, true) (Some 8) sample_boot_frames).

Lemma sample_regions_ok : regions_ok sample_regions.
Proof. split_and!; [split_and!; (done || reflexivity)|constructor|done]. Qed.

Lemma sample_boot_ok : boot_state sample_regions sample_boot_frames.
Proof.
  split; [done|done|vm_compute; split; discriminate|]. intros a Ha i Hi. cbn in Ha. assert (a = 0x100000) as -> by set_solver. revert Hi. vm_compute.
  intros [= <-]. done.
Qed.

Lemma sample_init : init_frame_ledger sample_regions true (λ _, true) (Some 8) sample_boot_frames = Some sample_frames.
Proof. vm_compute. reflexivity. Qed.

(** The pool at boot, and after a CPU has allocated the returned frame. *)
Definition sample_alloc_env (n : nat) : AllocEnv := mkAlloc true (λ _, mkPrepare true true (Some 8)).
Definition sample_pool : Pool :=
  mkPool sample_frames ∅ (omap (get_usable_frame sample_regions) (boot_owned sample_frames)).

Definition sample_call : prog Frames (list u64) :=
  handing (λ a, [a]) (allocate_frame sample_regions 1 sample_alloc_env).
Definition sample_pool_allocated : Pool :=
  mkPool (exec sample_call sample_frames).2 ∅ (p_owned sample_pool ++ (exec sample_call sample_frames).1).

Lemma sample_pool_reachable : preachable sample_regions sample_pool_allocated.
Proof.
  pose proof (p_next _ _ _ (p_boot _ _ _ _ _ _ sample_boot_ok sample_init)
    (p_allocate sample_regions sample_pool 0 1 sample_alloc_env eq_refl)) as H.
  exact (preachable_run sample_regions 0 sample_call _ H eq_refl).
Qed.

Lemma frames_exclusive_witness :
  NoDup (p_owned sample_pool_allocated) ∧ p_owned sample_pool_allocated = [0x101000; 0x100000].
Proof.
  split; [|vm_compute; reflexivity].
  apply (frames_exclusive sample_regions sample_regions_ok sample_pool_allocated), sample_pool_reachable.
Defined.

Lemma allocate_frame_ends_witness :
  ∃ r s', exec (allocate_frame sample_regions 12 sample_alloc_env) sample_frames = (Some r, s') ∧ FREE_FRAMES sample_frames = [0x100000].
Proof.
  destruct (allocate_frame_ends sample_regions sample_regions_ok 12 sample_alloc_env sample_frames) as (r & s' & H & _);
    [vm_compute; repeat constructor|]. exists r, s'. split; [exact H|vm_compute; reflexivity].
Defined.

Definition sample_lease : FrameLease := mkLease 0x101000 1 1.

(** A free list that is locked: the frame is lost, and the lease is used up. *)
Lemma lease_returns_once_witness :
  ∃ s1, exec (return_lease sample_regions 1 false sample_lease) sample_frames = (Some LostContended, s1)
    ∧ FREE_FRAMES s1 = [0x100000]
    ∧ exec (return_lease sample_regions 1 true sample_lease) s1 = (Some RefusedDoubleRelease, s1).
Proof.
  destruct (lease_returns_once sample_regions 0 0 sample_alloc_env false true sample_lease sample_frames) as (s1 & H & Hf & H2 & _).
  - split_and!; [eexists; vm_compute; reflexivity|vm_compute; discriminate|reflexivity|vm_compute; discriminate|reflexivity
      |vm_compute; reflexivity|vm_compute; reflexivity|eexists; vm_compute; reflexivity].
  - vm_compute; reflexivity.
  - exists s1. split; [exact H|]. split; [rewrite Hf; vm_compute; reflexivity|exact H2].
Defined.

Lemma mappings_hold_frame_witness :
  (exec (times 2 (acquire_leaf_mapping sample_regions 1 0x101000)) sample_frames).1 = [Some (Ok Owned); Some (Ok Owned)]
  ∧ listed true sample_frames = true.
Proof.
  split; [|vm_compute; reflexivity]. pose proof (mappings_hold_frame sample_regions 0 2 1 true true 0x101000 1 1 sample_frames) as H.
  destruct (exec (times 2 _) sample_frames) as [acquired s1]. destruct (exec (times 1 _) s1) as [dropped s2].
  destruct (exec (times (2 - 1 - 1) _) s2) as [rest s3]. destruct (exec (decref_leaf_mapping _ _ _) s3) as [final s4].
  apply H; [|lia|lia|done].
  split_and!; [vm_compute; reflexivity|lia|eexists; vm_compute; reflexivity|vm_compute; reflexivity|vm_compute; reflexivity|vm_compute; reflexivity].
Defined.

(** ** Interleavings the accesses do not exclude *)

(** A mapping is counted between the return's look at the count and its
    exchange: the mapping is reported as owned and the frame is listed as free. *)
Lemma mapping_of_returned_frame :
  let '(mapper, returner, s) :=
    interleave (replicate 4 false ++ replicate 7 true ++ replicate 2 false)
      (acquire_leaf_mapping sample_regions 1 0x101000) (return_lease sample_regions 1 true sample_lease) sample_frames in
  mapper = Ret (Some (Ok Owned)) ∧ returner = Ret (Some FrameReturned) ∧ refs s 1 = 1 ∧ FREE_FRAMES s = [0x100000; 0x101000].
Proof. vm_compute. repeat split. Qed.

(** The check after the count compares the state and not the generation: the
    frame is returned and handed to a new owner while the count is taken, and
    the mapping of the old owner counts on the new one's frame. *)
Lemma mapping_of_reallocated_frame :
  let recycle := return_lease sample_regions 1 true sample_lease;; allocate_claimed sample_regions 1 sample_alloc_env in
  let '(mapper, recycler, s) :=
    interleave (replicate 4 true ++ replicate 11 false ++ replicate 2 true ++ [false; true])
      (acquire_leaf_mapping sample_regions 1 0x101000) recycle sample_frames in
  mapper = Ret (Some (Ok Owned)) ∧ recycler = Ret (Some (Some (0x101000, Some (mkLease 0x101000 1 2)))) ∧ refs s 1 = 1.
Proof. vm_compute. repeat split. Qed.
